(* ===== verification/_CoqProject ===== *)
-Q . S2P
Prelude.v
Digest.v
Model.v
Claims.v
Formal.v
Warrant.v
Support.v
Cycles.v
Policy.v
Backlog.v
Planning.v
Effects.v
Probes.v
Dumps.v
Memory.v
Recovery.v
Retrieval.v
Learning.v
Compression.v
Questions.v
Project.v
State.v
Goals.v
Extensions.v
Lifecycle.v
Guards.v
Retention.v
Consolidation.v
Licensing.v
Governance.v
Decide.v
Evolve.v
Artifacts.v
Serialization.v
Store.v
Runtime.v
Sdk.v
Saga.v
Executor.v
Reification.v
Z3.v
Routes.v
Cognitive.v
Runner.v
Evidence.v
Generators.v
Cli.v
Scenario.v
Ledger.v
Reachable.v
StoreExample.v
StoreLog.v
SdkLog.v
Asking.v
Liveness.v
ExecutorLog.v
History.v
Timeline.v
Extended.v
Walkthrough.v
Guarantees.v
