(* ===== verification/Prelude.v ===== *)
(** * Ratcheting consequence inquiry, verified

    This development models the Python package [src/rci/] of the repository
    and proves what makes it correct.  The program keeps inquiries as
    append-only event logs.  A command is decided against the state an
    inquiry's log replays to; the events it yields are appended to a stream in
    SQLite; the state is never stored as the truth, only folded again.  On top
    of that core sit an SDK that asks questions and records answers, an
    executor that presents effects to the outside world and records what
    became of them, and pure calculations over the recorded facts: support of
    lemmas, promotion, memory and retrieval, measured recovery, learned
    probes, exact compression, and the recursive project argument.

    ** How the code is modelled

    A pydantic model is a [Record] with a validator that returns [Ok tt] or
    raises, checks in the order of the code; an enumeration or tagged union is
    an [Inductive]; a dict is a [gmap] or, where its order or its duplicates
    are visible, an association list.  [result] is a call that returns or
    raises, with the exception's class and message ([exn]); dynamic parts of
    messages are left out where nothing depends on them.  Mutable objects (the
    database, the artifact directory, the adapter's history) are passed as
    state, and a computation that raises keeps what it wrote before.  Integers
    are Python's, so [Z] without a width; Python's sort is the stable
    [sort_by]; strings are UTF-8 bytes; SHA-256 and canonical JSON are computed
    inside Rocq, so fingerprints are real.

    Loops that are not structural run on fuel.  The fuel of each entry point is
    a function of its input and a theorem or lemma shows that it suffices:
    [Support.ground_loop] (one round per lemma), [Support.visit] (the size of
    the graph), [Cycles.connect] (the nodes without an index),
    [Serialization.upcast_loop] (one round per registered upcaster and one
    more; a loop cut off is [None], which is no outcome), [Routes.fuel_of] (the number of paths below the queue), [Cli.walk]
    (one round per entry of the tree), the scheduler's and the SDK's loops
    (their step budgets, which are the code's own arguments).

    ** Files

    Each component file holds its data, its operations and the lemmas about
    them; the names are those of the code.

    - This file: exceptions and [result], Booleans of decidable propositions,
      Python's ordering and sorting, strings, and the lemmas on lists and maps
      that the components share.
    - [Digest]: [claims/models.py], JSON values, canonical dumps, SHA-256.
      [Model]: [core/model.py].  [Claims]: [claims/].  [Formal]: [formal/ast.py],
      [formal/exhaustive.py], [bindings/circuit.py].  [Reification]:
      [formal/reification.py].  [Z3]: [backends/z3_backend.py].  [Routes]:
      [bindings/routes.py].
    - [Warrant], [Support], [Cycles], [Policy]: [warrant/models.py] and
      [checks.py], [support.py], [policy.py].  [Backlog]: [backlog/].  [Planning]:
      [core/planning.py], [orchestration/scheduler.py].  [Effects]:
      [core/effects.py].  [Probes]: [probes/].  [Dumps]: the JSON images of
      recorded values.
    - [Memory], [Retrieval], [Recovery]: [memory/].  [Learning]: [learning/].
      [Compression]: [compression/].  [Questions]: [questions/models.py],
      [catalog.py].  [Project]: [project/models.py], [selection.py].  [Goals]:
      [questions/generated.py], [project/goal_synthesis.py].
    - [State], [Lifecycle], [Extensions]: [core/state.py], the aggregate, its
      derived views, and the validator every successor state passes.
    - [Guards], [Decide], [Retention], [Consolidation], [Licensing],
      [Governance], [Evolve]: [core/commands.py], [core/events.py],
      [core/transitions.py], [core/replay.py]: one definition per command
      handler and per event branch, [decide], [evolve] and [replay].
    - [Artifacts], [Serialization], [Store]: [persistence/],
      [core/serialization.py], [core/upcasting.py].
    - [Runtime], [Sdk], [Saga]: [sdk.py], every call of [RCI].  [Executor]:
      [orchestration/effects.py].  [Cognitive]: [orchestration/cognitive.py].
      [Runner]: [evaluation/runner.py].  [Evidence]: [evaluation/effects.py].
      [Generators]: [generators/].  [Cli]: [cli/__init__.py], the workspace
      digest and backlog reconciliation.
    - [Scenario], [Walkthrough], [StoreExample]: concrete runs of the model, by
      computation; the witnesses of the theorems are taken from them.
    - [Ledger], [Reachable], [History], [Timeline], [Extended], [Guarantees],
      [Liveness], [StoreLog], [SdkLog], [Asking], [ExecutorLog]: the theorems
      about whole runs.

    ** How the parts interact

    [Sdk], [Saga] and [Executor] change an inquiry only through
    [Runtime.run_batch], which replays the stream ([Store], [Serialization]),
    decides each command and folds its events ([Decide], [Evolve]) and appends
    the batch in one transaction.  [Evolve] runs [Decide] again on the command
    an event answers and ends with [Lifecycle.validate_lifecycle]; the handlers
    of [Decide] call the pure components.  [Ledger.recorded] gives the successor
    of an accepted event in closed form, and the theorems on reachable states
    argue about it; [StoreLog.Represents] relates the tables to an abstract log,
    and the theorems about the SDK and the executor are stated against that
    abstraction.  [Memory.PinnedRetentionRecord] and [ToJson] are the
    interfaces the records of several components implement; [Z3.Z3Laws] is
    what the Z3 backend asks of the solver.

    ** What the theorems show

    - Replay: every accepted log leaves a valid state whose sequence counts the
      events and whose ledgers only grow, the extensions' included ([Reachable]); obligations, conflicts,
      attacks, promotions and warrants have lawful histories ([History]);
      plans, predictions, returns and observations are in order ([Timeline]);
      licenses and learned probes are earned ([Guarantees]); attempts in flight
      can always be ended ([Liveness]).
    - Storage: the tables refine the abstract log under every sequence of
      operations, appends are exact, rebuilding is replay, from a snapshot up to
      what model equality cannot tell ([StoreLog]); bytes stored are durable
      ([Artifacts]); upcasting ends ([Serialization]).
    - Orchestration: batches are atomic ([SdkLog]); an effect is presented only
      after its start is durable and a captured return is never asked for
      again ([ExecutorLog]); lifecycle checks are exact ([Cognitive]); which
      derived obligations cannot be asked ([Asking]).
    - Evidence execution: the output of a process is bounded under every
      interleaving of its two pipes, and Docker runs are contained ([Runner]);
      what is prepared is what is run, and what is returned decodes
      ([Evidence]).  Captured provider bodies decode exactly, and the live call
      presents the persisted request to the pinned endpoint ([Generators]).
    - Command line: the workspace digest binds exactly the governed files, and
      reconciliation is shadow by default ([Cli]).
    - Calculations: support, its cycles and promotion ([Support], [Cycles],
      [Policy]), scheduling ([Planning]), formulas, their sorting, exhaustive
      search and its agreement with the solver ([Formal], [Z3]), routes
      ([Routes]), retrieval, recovery, quotients and frontiers ([Retrieval],
      [Recovery], [Compression], [Project]), templates ([Questions]).

    ** What is a parameter

    Pydantic's conversions between records and JSON ([Serialization.Pydantic],
    [Sdk.SdkModels], [Evidence.EvidenceModels], the two validations of
    [Reification]) with the hypotheses a theorem needs stated next to it (the
    codec inverts itself on the records at hand; model equality is identity,
    [StoreLog.exact_equality], where snapshots are used and the state matters); the clock;
    the adapter of the executor, which may answer anything; z3; [json.loads] and
    the client of the provider; what the operating system makes of a process
    ([Runner.ProcessRun]) and of each call on a path ([Cli.Entry]).  Theorems
    that read stored bytes back assume that no stored file collides, under
    SHA-256, with the bytes at hand.  The witnesses instantiate each parameter
    with concrete functions.

    ** What is not modelled

    The commands of [cli/] that parse options, make one call of [RCI] and
    print; [evaluation/metrics.py], which averages floats; SQLite's
    connections, pragmas and busy waiting; the temporary file of an artifact
    write, and file modes before they are set: they are below the model. *)

From stdpp Require Export base tactics list strings gmap sets sorting pretty.
From Stdlib Require Export ZArith Lia.

#[export] Set Default Goal Selector "!".

(** ** Exceptions and fallible computations

    The Python code signals errors by raising.  [exn_kind] lists the exception
    classes the modelled functions raise; [result] is the value of a call that
    either returns or raises. *)

Inductive exn_kind : Type :=
| ValueError
| ValidationError
| KeyError
| IndexError
| PermissionError
| RuntimeError
| EvaluationError
| RecoveryCompatibilityError
| InvalidCommandError
| InvalidTransitionError
| IdentityConflictError
| EffectLifecycleError
| RetrievalConflictError
| ReconstructionConflictError
| GeneratedQuestionCompilationError
| AttributeError
| AssertionError
| StopIteration
| TypeError
| OSError
| PersistenceError
| IntegrityError
| OptimisticConcurrencyError
| DuplicateEventError
| SnapshotConflictError
| UnsupportedSchemaVersionError
| SagaIntegrityError
| ArtifactIntegrityError
| UnsupportedEventSchemaVersion
| AnswerSubmissionError
| UnknownRouteDefinitionError
| RouteValidationError
| EffectUnsupportedError
| EffectTransportError
| UnsupportedTranslation
| BackendLoadFailure
| Z3Exception.

#[export] Instance exn_kind_eq_dec : EqDecision exn_kind.
Proof. solve_decision. Defined.

Record exn : Type := Exn { exn_class : exn_kind; exn_message : string }.

Inductive result (A : Type) : Type :=
| Ok (a : A)
| Raise (e : exn).
Arguments Ok {A} a.
Arguments Raise {A} e.

#[export] Instance result_ret : MRet result := @Ok.
#[export] Instance result_bind : MBind result :=
  λ A B f m, match m with Ok a => f a | Raise e => Raise e end.
#[export] Instance result_fmap : FMap result :=
  λ A B f m, match m with Ok a => Ok (f a) | Raise e => Raise e end.

Definition raise {A} (k : exn_kind) (msg : string) : result A := Raise (Exn k msg).

(** [if c: raise K(msg)] *)
Definition raise_if (c : bool) (k : exn_kind) (msg : string) : result unit :=
  if c then raise k msg else Ok tt.

Definition is_ok {A} (m : result A) : bool :=
  match m with Ok _ => true | Raise _ => false end.

(** [subclass k1 k2]: [except k2] catches an exception of class [k1]. *)
Definition is_value_error (k : exn_kind) : bool :=
  match k with
  | KeyError | IndexError | PermissionError | RuntimeError | AttributeError
  | AssertionError | StopIteration | TypeError | OSError | PersistenceError | IntegrityError
  | OptimisticConcurrencyError | DuplicateEventError | SnapshotConflictError
  | UnsupportedSchemaVersionError | SagaIntegrityError | ArtifactIntegrityError
  | AnswerSubmissionError | UnknownRouteDefinitionError | RouteValidationError
  | EffectUnsupportedError | EffectTransportError | BackendLoadFailure | Z3Exception => false
  | _ => true
  end.

Create HintDb rci discriminated.
Create Rewrite HintDb rci.

Lemma bind_ok {A B} (m : result A) (f : A → result B) b :
  m ≫= f = Ok b ↔ ∃ a, m = Ok a ∧ f a = Ok b.
Proof.
  destruct m as [a|e]; cbn; split.
  - eauto.
  - intros (? & [= ->] & ?); done.
  - done.
  - intros (? & ? & ?); done.
Qed.

Lemma raise_if_ok c k msg u : raise_if c k msg = Ok u ↔ c = false.
Proof. destruct c, u; cbn; split; done. Qed.

Lemma raise_if_bind {B} c k msg (m : result B) b :
  (raise_if c k msg;; m) = Ok b ↔ c = false ∧ m = Ok b.
Proof. destruct c; cbn; split; try done; [intros [? _]; done | intros [_ ?]; done]. Qed.

Lemma seq_ok {A} (m : result unit) (k : result A) z : (m;; k) = Ok z ↔ m = Ok tt ∧ k = Ok z.
Proof. destruct m as [[]|]; cbn; naive_solver. Qed.

Lemma is_ok_true {A} (m : result A) : is_ok m = true ↔ ∃ a, m = Ok a.
Proof. destruct m; cbn; split; eauto; try done. intros [? ?]; done. Qed.

(** Peel every [raise_if] guard and every successful bind off a hypothesis. *)
Ltac inv_ok H :=
  repeat first
    [ apply raise_if_bind in H; let G := fresh "G" in destruct H as [G H]
    | let x := fresh "x" in let E := fresh "E" in
      apply bind_ok in H; destruct H as (x & E & H) ].

(** ** Booleans of decidable propositions *)

Notation "x ==? y" := (bool_decide (x = y)) (at level 70, no associativity) : bool_scope.
Notation "x !=? y" := (negb (bool_decide (x = y))) (at level 70, no associativity) : bool_scope.

Definition is_none {A} (o : option A) : bool := match o with None => true | Some _ => false end.
Definition is_some {A} (o : option A) : bool := negb (is_none o).

Lemma eqb_true `{EqDecision A} (x y : A) : (x ==? y) = true ↔ x = y.
Proof. apply bool_decide_eq_true. Qed.
Lemma eqb_false `{EqDecision A} (x y : A) : (x ==? y) = false ↔ x ≠ y.
Proof. apply bool_decide_eq_false. Qed.
Lemma neqb_false `{EqDecision A} (x y : A) : (x !=? y) = false ↔ x = y.
Proof. rewrite negb_false_iff. apply eqb_true. Qed.
Lemma neqb_true `{EqDecision A} (x y : A) : (x !=? y) = true ↔ x ≠ y.
Proof. rewrite negb_true_iff. apply eqb_false. Qed.
Lemma is_none_true {A} (o : option A) : is_none o = true ↔ o = None.
Proof. by destruct o. Qed.
Lemma is_none_false {A} (o : option A) : is_none o = false ↔ ∃ x, o = Some x.
Proof. destruct o; cbn; split; try done; eauto. intros [? ?]; done. Qed.

Lemma is_some_false {A} (o : option A) : is_some o = false ↔ o = None.
Proof. by destruct o. Qed.

(** [all(p(x) for x in l)] and [any(p(x) for x in l)] *)
Abbreviation all := forallb (only parsing).
Abbreviation any := existsb (only parsing).

Lemma all_true {A} (p : A → bool) l : forallb p l = true ↔ ∀ x, x ∈ l → p x = true.
Proof. rewrite forallb_forall. by setoid_rewrite list_elem_of_In. Qed.
Lemma any_true {A} (p : A → bool) l : existsb p l = true ↔ ∃ x, x ∈ l ∧ p x = true.
Proof. rewrite existsb_exists. by setoid_rewrite list_elem_of_In. Qed.
Lemma any_false {A} (p : A → bool) l : existsb p l = false ↔ ∀ x, x ∈ l → p x = false.
Proof.
  rewrite <-not_true_iff_false, any_true. split.
  - intros H x Hx. apply not_true_iff_false. eauto.
  - intros H (x & Hx & Hp). rewrite H in Hp; done.
Qed.
Lemma all_false {A} (p : A → bool) l : forallb p l = false ↔ ∃ x, x ∈ l ∧ p x = false.
Proof.
  induction l as [|a l IH]; cbn.
  - split; [done|]. intros (x & Hx & _). by apply not_elem_of_nil in Hx.
  - rewrite andb_false_iff, IH. split.
    + intros [H|(x & Hx & H)]; [exists a|exists x]; split; auto; by constructor.
    + intros (x & Hx & H). apply elem_of_cons in Hx as [->|Hx]; eauto.
Qed.

(** [next((x for x in l if p(x)), None)] *)
Definition first {A} (p : A → bool) (l : list A) : option A := List.find p l.

Lemma first_Some {A} (p : A → bool) l x : first p l = Some x → x ∈ l ∧ p x = true.
Proof. intros H. apply List.find_some in H. by rewrite list_elem_of_In. Qed.
Lemma first_None {A} (p : A → bool) l : first p l = None ↔ ∀ x, x ∈ l → p x = false.
Proof.
  split.
  - intros H x Hx. eapply List.find_none; [done|]. by apply list_elem_of_In.
  - induction l as [|a l IH]; [done|]. intros H. cbn. rewrite (H a) by constructor.
    apply IH. intros x Hx. apply H. by constructor.
Qed.
Lemma first_is_Some {A} (p : A → bool) l x :
  x ∈ l → p x = true → ∃ y, first p l = Some y ∧ p y = true ∧ y ∈ l.
Proof.
  intros Hx Hp. destruct (first p l) as [y|] eqn:E.
  - apply first_Some in E as [??]. eauto.
  - rewrite first_None in E. rewrite E in Hp; done.
Qed.
Lemma first_app {A} (p : A → bool) l1 l2 :
  first p (l1 ++ l2) = match first p l1 with Some x => Some x | None => first p l2 end.
Proof. induction l1 as [|a l IH]; [done|]. cbn. by destruct (p a). Qed.

(** [len(set(l)) == len(l)] *)
Definition uniq `{EqDecision A} (l : list A) : bool := bool_decide (NoDup l).
Lemma uniq_true `{EqDecision A} (l : list A) : uniq l = true ↔ NoDup l.
Proof. apply bool_decide_eq_true. Qed.
Lemma nuniq_false `{EqDecision A} (l : list A) : negb (uniq l) = false ↔ NoDup l.
Proof. rewrite negb_false_iff. apply uniq_true. Qed.

(** [x in l], [set(l1) <= set(l2)] *)
Definition mem `{EqDecision A} (x : A) (l : list A) : bool := bool_decide (x ∈ l).
Definition subset `{EqDecision A} (l1 l2 : list A) : bool := forallb (λ x, mem x l2) l1.
Lemma mem_true `{EqDecision A} (x : A) l : mem x l = true ↔ x ∈ l.
Proof. apply bool_decide_eq_true. Qed.
Lemma mem_false `{EqDecision A} (x : A) l : mem x l = false ↔ x ∉ l.
Proof. apply bool_decide_eq_false. Qed.
Lemma subset_true `{EqDecision A} (l1 l2 : list A) : subset l1 l2 = true ↔ l1 ⊆ l2.
Proof. unfold subset. rewrite all_true. by setoid_rewrite mem_true. Qed.
Lemma nsubset_false `{EqDecision A} (l1 l2 : list A) : negb (subset l1 l2) = false ↔ l1 ⊆ l2.
Proof. rewrite negb_false_iff. apply subset_true. Qed.

#[export] Hint Rewrite
  @eqb_true @eqb_false @neqb_true @neqb_false @is_none_true @is_none_false
  @nuniq_false @uniq_true @mem_true @mem_false @subset_true @nsubset_false
  @orb_false_iff @andb_true_iff @negb_true_iff @negb_false_iff
  @any_false @all_true : rci.

(** ** Python's ordering *)

(** [compare] is the three-way order of a type whose values Python sorts:
    integers, strings by code point, tuples and sequences lexicographically. *)
Class Compare (A : Type) := compare : A → A → comparison.

Class TotalCompare (A : Type) `{Compare A} : Prop := {
  compare_eq : ∀ x y : A, compare x y = Eq ↔ x = y;
  compare_anti : ∀ x y : A, compare y x = CompOpp (compare x y);
  compare_trans : ∀ x y z : A, compare x y = Lt → compare y z = Lt → compare x z = Lt;
}.

#[export] Instance Z_compare : Compare Z := Z.compare.
#[export] Instance nat_compare : Compare nat := Nat.compare.
#[export] Instance bool_compare : Compare bool := Bool.compare.
#[export] Instance string_compare : Compare string := String.compare.

Definition then_compare (c d : comparison) : comparison :=
  match c with Eq => d | _ => c end.

#[export] Instance prod_compare `{Compare A, Compare B} : Compare (A * B) :=
  λ x y, then_compare (compare x.1 y.1) (compare x.2 y.2).

#[export] Instance list_compare `{Compare A} : Compare (list A) :=
  fix go l1 l2 :=
    match l1, l2 with
    | [], [] => Eq
    | [], _ :: _ => Lt
    | _ :: _, [] => Gt
    | x :: l1, y :: l2 => then_compare (compare x y) (go l1 l2)
    end.

#[export] Instance Z_total : TotalCompare Z.
Proof.
  split; unfold compare, Z_compare.
  - apply Z.compare_eq_iff.
  - intros. apply Z.compare_antisym.
  - intros x y z. rewrite !Z.compare_lt_iff. lia.
Qed.
#[export] Instance nat_total : TotalCompare nat.
Proof.
  split; unfold compare, nat_compare.
  - apply Nat.compare_eq_iff.
  - intros. apply Nat.compare_antisym.
  - intros x y z. rewrite !Nat.compare_lt_iff. lia.
Qed.
#[export] Instance bool_total : TotalCompare bool.
Proof.
  split.
  - intros [] []; split; done.
  - by intros [] [].
  - by intros [] [] [].
Qed.

Lemma ascii_compare_eq a b : Ascii.compare a b = Eq ↔ a = b.
Proof.
  unfold Ascii.compare. rewrite N.compare_eq_iff. split; [|by intros ->].
  intros H. rewrite <-(Ascii.ascii_N_embedding a), <-(Ascii.ascii_N_embedding b). by rewrite H.
Qed.

#[export] Instance string_total : TotalCompare string.
Proof.
  split; unfold compare, string_compare.
  - intros x y. split; [apply String.compare_eq_iff|]. intros <-.
    induction x as [|a x IH]; [done|]. cbn. by rewrite (proj2 (ascii_compare_eq a a)).
  - intros. apply String.compare_antisym.
  - induction x as [|a x IH]; intros [|b y] [|c z]; cbn; try done.
    unfold Ascii.compare.
    destruct (N.compare_spec (Ascii.N_of_ascii a) (Ascii.N_of_ascii b)) as [E1|E1|E1];
    destruct (N.compare_spec (Ascii.N_of_ascii b) (Ascii.N_of_ascii c)) as [E2|E2|E2];
    destruct (N.compare_spec (Ascii.N_of_ascii a) (Ascii.N_of_ascii c)) as [E3|E3|E3];
    try done; try (exfalso; lia). apply IH.
Qed.

Section compare_instances.
Context `{TotalCompare A, TotalCompare B}.

Lemma compare_refl (x : A) : compare x x = Eq.
Proof. by apply compare_eq. Qed.

Lemma compare_pair (x y : A * B) :
  compare x y = then_compare (compare x.1 y.1) (compare x.2 y.2).
Proof. done. Qed.

Lemma compare_cons (x y : A) l1 l2 :
  compare (x :: l1) (y :: l2) = then_compare (compare x y) (compare l1 l2).
Proof. done. Qed.
End compare_instances.

Lemma then_compare_trans `{TotalCompare A} (x y z : A) c d e :
  (c = Lt → d = Lt → e = Lt) →
  then_compare (compare x y) c = Lt → then_compare (compare y z) d = Lt →
  then_compare (compare x z) e = Lt.
Proof.
  intros Hcd. destruct (compare x y) eqn:E1, (compare y z) eqn:E2; try done.
  - apply compare_eq in E1 as ->. rewrite E2. apply Hcd.
  - apply compare_eq in E1 as ->. by rewrite E2.
  - apply compare_eq in E2 as ->. by rewrite E1.
  - by rewrite (compare_trans _ _ _ E1 E2).
Qed.

Lemma then_compare_eq `{TotalCompare A} (x y : A) c :
  then_compare (compare x y) c = Eq ↔ x = y ∧ c = Eq.
Proof.
  rewrite <-(compare_eq x y). destruct (compare x y); naive_solver.
Qed.

Lemma then_compare_anti c d : then_compare (CompOpp c) (CompOpp d) = CompOpp (then_compare c d).
Proof. by destruct c. Qed.

#[export] Instance prod_total `{TotalCompare A, TotalCompare B} : TotalCompare (A * B).
Proof.
  split.
  - intros [a b] [a' b']. rewrite compare_pair, then_compare_eq, compare_eq. cbn.
    split; [by intros [-> ->]|by intros [= -> ->]].
  - intros [a b] [a' b']. rewrite !compare_pair, <-then_compare_anti. cbn.
    by rewrite (compare_anti a), (compare_anti b).
  - intros [a b] [a' b'] [a'' b'']. rewrite !compare_pair.
    apply then_compare_trans. apply compare_trans.
Qed.

#[export] Instance list_total `{TotalCompare A} : TotalCompare (list A).
Proof.
  split.
  - induction x as [|a x IH]; intros [|b y]; try done.
    rewrite compare_cons, then_compare_eq, IH. split; [by intros [-> ->]|by intros [= -> ->]].
  - induction x as [|a x IH]; intros [|b y]; try done.
    by rewrite !compare_cons, <-then_compare_anti, (compare_anti a), IH.
  - induction x as [|a x IH]; intros [|b y] [|c z]; try done.
    rewrite !compare_cons. apply then_compare_trans. apply IH.
Qed.


(** ** [sorted(l, key=...)] and [min(l, key=...)] *)

Section sorting.
Context {A K : Type} `{TotalCompare K} (key : A → K).
Implicit Types (x y : A) (l : list A).

Definition key_leb x y : bool :=
  match compare (key x) (key y) with Gt => false | _ => true end.

Definition key_le x y : Prop := key_leb x y = true.

Fixpoint insert_by x l : list A :=
  match l with
  | [] => [x]
  | y :: l' => if key_leb x y then x :: y :: l' else y :: insert_by x l'
  end.

(** A stable sort, as Python's. *)
Definition sort_by l : list A := foldr insert_by [] l.

(** The first element whose key is least. *)
Fixpoint min_by x l : A :=
  match l with
  | [] => x
  | y :: l' => if key_leb x y then min_by x l' else min_by y l'
  end.

Lemma sort_by_cons x l : sort_by (x :: l) = insert_by x (sort_by l).
Proof. done. Qed.

Lemma key_le_total x y : key_le x y ∨ key_le y x.
Proof.
  unfold key_le, key_leb. rewrite (compare_anti (key x) (key y)).
  destruct (compare (key x) (key y)); auto.
Qed.

Lemma key_le_refl x : key_le x x.
Proof. by destruct (key_le_total x x). Qed.

Lemma key_leb_false x y : key_leb x y = false ↔ compare (key y) (key x) = Lt.
Proof.
  unfold key_leb. rewrite (compare_anti (key x) (key y)).
  destruct (compare (key x) (key y)); done.
Qed.

Lemma key_le_alt x y : key_le x y ↔ compare (key x) (key y) = Lt ∨ key x = key y.
Proof.
  unfold key_le, key_leb. rewrite <-(compare_eq (key x) (key y)).
  destruct (compare (key x) (key y)); naive_solver.
Qed.

#[export] Instance key_le_trans : Transitive key_le.
Proof.
  intros x y z. rewrite !key_le_alt. intros [H1|H1] [H2|H2].
  - left. by eapply compare_trans.
  - rewrite <-H2. auto.
  - rewrite H1. auto.
  - right. congruence.
Qed.

Lemma key_le_antisym x y : key_le x y → key_le y x → key x = key y.
Proof.
  rewrite !key_le_alt. intros [H1|?] [H2|?]; try congruence.
  rewrite compare_anti, H1 in H2. done.
Qed.

Lemma insert_by_perm x l : insert_by x l ≡ₚ x :: l.
Proof.
  induction l as [|y l IH]; [done|]. cbn. destruct (key_leb x y); [done|].
  rewrite IH. by apply Permutation_swap.
Qed.

Lemma sort_by_perm l : sort_by l ≡ₚ l.
Proof. induction l as [|x l IH]; [done|]. by rewrite sort_by_cons, insert_by_perm, IH. Qed.

Lemma elem_of_sort_by x l : x ∈ sort_by l ↔ x ∈ l.
Proof. by rewrite sort_by_perm. Qed.

Lemma length_sort_by l : length (sort_by l) = length l.
Proof. by rewrite sort_by_perm. Qed.

Lemma insert_by_sorted x l :
  StronglySorted key_le l → StronglySorted key_le (insert_by x l).
Proof.
  induction 1 as [|y l Hs IH Hall]; cbn.
  - repeat constructor.
  - destruct (key_leb x y) eqn:E.
    + constructor; [by constructor|]. constructor; [done|].
      eapply Forall_impl; [done|]. intros z Hz. by transitivity y.
    + constructor; [done|]. rewrite insert_by_perm. constructor; [|done].
      destruct (key_le_total x y) as [E'|]; [|done]. unfold key_le in E'. congruence.
Qed.

Lemma sort_by_sorted l : StronglySorted key_le (sort_by l).
Proof. induction l; [constructor|]. by apply insert_by_sorted. Qed.

Lemma sort_by_id l : StronglySorted key_le l → sort_by l = l.
Proof.
  induction 1 as [|x l Hs IH Hall]; [done|]. rewrite sort_by_cons, IH.
  destruct l as [|y l']; [done|]. cbn. inversion_clear Hall as [|? ? Hxy].
  unfold key_le in Hxy. by rewrite Hxy.
Qed.

Lemma key_inj_of_NoDup l x y :
  NoDup (key <$> l) → x ∈ l → y ∈ l → key x = key y → x = y.
Proof.
  intros Hnd Hx Hy Hk.
  apply list_elem_of_lookup in Hx as [i Hi]. apply list_elem_of_lookup in Hy as [j Hj].
  assert (i = j) as ->; [|congruence].
  eapply NoDup_lookup; [done| |]; rewrite list_lookup_fmap.
  - by rewrite Hi.
  - rewrite Hj. cbn. by rewrite Hk.
Qed.

(** With distinct keys the sorted order does not depend on the input order. *)
Lemma sort_by_unique l1 l2 :
  NoDup (key <$> l1) → l1 ≡ₚ l2 → sort_by l1 = sort_by l2.
Proof.
  intros Hnd Hp. apply (StronglySorted_unique_strong key_le).
  - intros x y Hx Hy ??. rewrite elem_of_sort_by in Hx. rewrite elem_of_sort_by, <-Hp in Hy.
    eapply key_inj_of_NoDup; [done..|]. by apply key_le_antisym.
  - apply sort_by_sorted.
  - apply sort_by_sorted.
  - by rewrite !sort_by_perm.
Qed.

Lemma sort_by_idemp l : sort_by (sort_by l) = sort_by l.
Proof. apply sort_by_id, sort_by_sorted. Qed.

Lemma min_by_elem x l : min_by x l ∈ x :: l.
Proof.
  revert x. induction l as [|y l IH]; intros x; cbn; [by constructor|].
  destruct (key_leb x y).
  - specialize (IH x). set_solver.
  - specialize (IH y). set_solver.
Qed.

Lemma min_by_le x l y : y ∈ x :: l → key_le (min_by x l) y.
Proof.
  revert x y. induction l as [|z l IH]; intros x y; cbn.
  - intros ->%list_elem_of_singleton. apply key_le_refl.
  - rewrite !elem_of_cons. destruct (key_leb x z) eqn:E; intros [->|[->|Hy]].
    + apply IH. by constructor.
    + transitivity x; [apply IH; by constructor|done].
    + apply IH. by constructor.
    + transitivity z; [apply IH; by constructor|].
      destruct (key_le_total x z) as [E'|]; [unfold key_le in E'; congruence|done].
    + apply IH. by constructor.
    + apply IH. by constructor.
Qed.
End sorting.

(** [sorted(l)] *)
Definition sorted `{TotalCompare A} (l : list A) : list A := sort_by (λ x : A, x) l.

(** [tuple(sorted(l)) == l] *)
Definition canonical `{TotalCompare A} `{EqDecision A} (l : list A) : bool :=
  bool_decide (sorted l = l).

Lemma elem_of_sorted `{TotalCompare A} (x : A) l : x ∈ sorted l ↔ x ∈ l.
Proof. apply elem_of_sort_by. Qed.

Lemma canonical_true `{TotalCompare A} `{EqDecision A} (l : list A) :
  canonical l = true ↔ sorted l = l.
Proof. apply bool_decide_eq_true. Qed.

Lemma canonical_sorted `{TotalCompare A} `{EqDecision A} (l : list A) :
  canonical (sorted l) = true.
Proof. apply canonical_true. apply sort_by_idemp. Qed.

(** [sorted(set(l))] *)
Definition sorted_set `{TotalCompare A} `{EqDecision A} (l : list A) : list A :=
  sorted (remove_dups l).

Lemma elem_of_sorted_set `{TotalCompare A} `{EqDecision A} (x : A) l :
  x ∈ sorted_set l ↔ x ∈ l.
Proof. unfold sorted_set. by rewrite elem_of_sorted, elem_of_remove_dups. Qed.

Lemma NoDup_sorted_set `{TotalCompare A} `{EqDecision A} (l : list A) :
  NoDup (sorted_set l).
Proof. unfold sorted_set, sorted. rewrite sort_by_perm. apply NoDup_remove_dups. Qed.

Lemma sorted_set_ext `{TotalCompare A} `{EqDecision A} (l1 l2 : list A) :
  (∀ x, x ∈ l1 ↔ x ∈ l2) → sorted_set l1 = sorted_set l2.
Proof.
  intros Hx. apply sort_by_unique.
  - rewrite list_fmap_id. apply NoDup_remove_dups.
  - apply NoDup_Permutation; [apply NoDup_remove_dups..|].
    intros x. by rewrite !elem_of_remove_dups.
Qed.

(** ** Strings

    Strings are UTF-8 bytes.  [str.lower] and [str.casefold] change the ASCII
    letters; the texts they are applied to are ASCII. *)

Definition lower_char (c : Ascii.ascii) : Ascii.ascii :=
  let n := Ascii.N_of_ascii c in
  if (65 <=? n)%N && (n <=? 90)%N then Ascii.ascii_of_N (n + 32) else c.
Fixpoint lower (s : string) : string :=
  match s with
  | EmptyString => EmptyString
  | String c s => String (lower_char c) (lower s)
  end.

Lemma string_app_nil_r (s : string) : s +:+ "" = s.
Proof. induction s as [|a s IH]; [done|]. change (String a (s +:+ "") = String a s). by rewrite IH. Qed.
Lemma string_app_assoc (s t u : string) : (s +:+ t) +:+ u = s +:+ (t +:+ u).
Proof.
  induction s as [|a s IH]; [done|].
  change (String a ((s +:+ t) +:+ u) = String a (s +:+ (t +:+ u))). by rewrite IH.
Qed.

(** [needle in s] *)
Definition contains (needle s : string) : bool := is_some (String.index 0 needle s).

(** [s.split(c)], for a one-character separator *)
Fixpoint split_on (c : Ascii.ascii) (s : string) : list string :=
  match s with
  | EmptyString => [EmptyString]
  | String x s =>
    if Ascii.eqb x c then EmptyString :: split_on c s
    else match split_on c s with
         | part :: parts => String x part :: parts
         | [] => [String x EmptyString]
         end
  end.

(** ** [for x in l: f(x)], for a check that may raise *)

Fixpoint for_each {A} (f : A → result unit) (l : list A) : result unit :=
  match l with [] => Ok tt | x :: l => f x;; for_each f l end.

Lemma for_each_ok {A} (f : A → result unit) l :
  for_each f l = Ok tt ↔ ∀ x, x ∈ l → f x = Ok tt.
Proof.
  induction l as [|x l IH]; cbn [for_each].
  - split; [by intros _ ? ?%not_elem_of_nil|done].
  - rewrite bind_ok. setoid_rewrite elem_of_cons. split.
    + intros ([] & Hx & Hl) y [->|Hy]; [done|]. by apply IH.
    + intros H. exists tt. split; [by apply H; left|]. apply IH. intros y Hy. apply H. by right.
Qed.

(** [tuple(f(x) for x in l)], for an [f] that may raise *)
Fixpoint traverse {A B} (f : A → result B) (l : list A) : result (list B) :=
  match l with
  | [] => Ok []
  | x :: l => y ← f x; ys ← traverse f l; Ok (y :: ys)
  end.

Lemma traverse_map {A B} (f : A → result B) (g : A → B) l :
  Forall (λ x, f x = Ok (g x)) l → traverse f l = Ok (map g l).
Proof. induction 1 as [|x l Hx Hl IH]; cbn; [done|]. by rewrite Hx, IH. Qed.

Lemma traverse_fails {A B} (f : A → result B) l x :
  x ∈ l → is_ok (f x) = false → is_ok (traverse f l) = false.
Proof.
  induction l as [|y l IH]; [by intros ?%not_elem_of_nil|]. intros [->|Hx]%elem_of_cons Hf; cbn.
  - by destruct (f y).
  - destruct (f y); [|done]. cbn. specialize (IH Hx Hf). by destruct (traverse f l).
Qed.

(** ** Stable sorting with a comparison function: [sorted(l, key=cmp_to_key(f))] *)

Section sort_with.
Context {A : Type} (leb : A → A → bool).

Fixpoint insert_with (x : A) (l : list A) : list A :=
match l with
| [] => [x]
| y :: l' => if leb x y then x :: y :: l' else y :: insert_with x l'
end.

Definition sort_with (l : list A) : list A := foldr insert_with [] l.

Lemma insert_with_perm x l : insert_with x l ≡ₚ x :: l.
Proof.
  induction l as [|y l IH]; cbn; [done|]. destruct (leb x y); [done|]. rewrite IH. apply Permutation_swap.
Qed.
Lemma sort_with_perm l : sort_with l ≡ₚ l.
Proof. induction l as [|x l IH]; cbn; [done|]. by rewrite insert_with_perm, IH. Qed.
Lemma elem_of_sort_with x l : x ∈ sort_with l ↔ x ∈ l.
Proof. by apply elem_of_Permutation_proper, sort_with_perm. Qed.

Lemma insert_with_sorted x l (P : A → Prop) :
(∀ a b, P a → P b → leb a b = false → leb b a = true) →
(∀ a, a ∈ x :: l → P a) →
Sorted (λ a b, leb a b = true) l → Sorted (λ a b, leb a b = true) (insert_with x l).
Proof.
  intros Htot HP. induction 1 as [|y l Hl IH Hy]; cbn; [by repeat constructor|].
  destruct (leb x y) eqn:E; [by repeat constructor|].
  constructor.
  - apply IH. intros a Ha. apply HP. set_solver.
  - assert (leb y x = true) as Hyx by (apply Htot; [apply HP; set_solver..|done]).
  destruct l as [|z l]; cbn; [by constructor|]. destruct (leb x z); constructor; [done|].
  by inversion Hy.
Qed.

(** Totality is only needed on the elements at hand. *)
Lemma sort_with_sorted l (P : A → Prop) :
(∀ a b, P a → P b → leb a b = false → leb b a = true) → (∀ a, a ∈ l → P a) →
Sorted (λ a b, leb a b = true) (sort_with l).
Proof.
  intros Htot HP. induction l as [|x l IH]; cbn; [constructor|].
  apply (insert_with_sorted x (sort_with l) P Htot).
  - intros a Ha. apply HP. rewrite elem_of_cons, elem_of_sort_with in Ha. set_solver.
  - apply IH. intros a Ha. apply HP. by right.
Qed.

(** A sorted list is left alone. *)
Lemma sort_with_id l : Sorted (λ a b, leb a b = true) l → sort_with l = l.
Proof.
  unfold sort_with. induction 1 as [|x l Hl IH Hx]; [done|]. cbn. rewrite IH.
  destruct l as [|y l]; [done|]. cbn. inversion Hx as [|? ? H]; subst. by rewrite H.
Qed.
End sort_with.

(** ** Dictionaries built from sequences: [{key(x): x for x in l}] *)

Definition dict_by `{Countable K} {A} (key : A → K) (l : list A) : gmap K A :=
  foldl (λ m x, <[key x := x]> m) ∅ l.

Lemma dict_by_app `{Countable K} {A} (key : A → K) l x :
  dict_by key (l ++ [x]) = <[key x := x]> (dict_by key l).
Proof. unfold dict_by. by rewrite foldl_app. Qed.

Lemma dict_by_Some `{Countable K} {A} (key : A → K) l k x :
  dict_by key l !! k = Some x → x ∈ l ∧ key x = k.
Proof.
  induction l as [|y l IH] using rev_ind; [done|].
  rewrite dict_by_app. destruct (decide (key y = k)) as [<-|Hne].
  - rewrite lookup_insert_eq. intros [= ->]. split; [set_solver|done].
  - rewrite lookup_insert_ne by done. intros [??]%IH. split; [set_solver|done].
Qed.

Lemma dict_by_is_Some `{Countable K} {A} (key : A → K) l x :
  x ∈ l → is_Some (dict_by key l !! key x).
Proof.
  induction l as [|y l IH] using rev_ind; [by intros ?%elem_of_nil|].
  rewrite dict_by_app. destruct (decide (key y = key x)) as [->|Hne].
  - intros _. rewrite lookup_insert_eq. eauto.
  - rewrite lookup_insert_ne by done. intros [?|Hx]%elem_of_app; [auto|].
    apply list_elem_of_singleton in Hx as ->. done.
Qed.

Lemma dict_by_NoDup `{Countable K} {A} (key : A → K) l x :
  NoDup (key <$> l) → x ∈ l → dict_by key l !! key x = Some x.
Proof.
  intros Hnd Hx. destruct (dict_by_is_Some key l x Hx) as [y Hy].
  rewrite Hy. f_equal. apply dict_by_Some in Hy as [Hy Hk].
  apply list_elem_of_lookup in Hx as [i Hi]. apply list_elem_of_lookup in Hy as [j Hj].
  assert (i = j) as ->; [|congruence].
  eapply NoDup_lookup; [done| |]; rewrite list_lookup_fmap; [by rewrite Hi|].
  rewrite Hj; cbn. by rewrite Hk.
Qed.

Lemma dict_by_None `{Countable K} {A} (key : A → K) l k :
  dict_by key l !! k = None ↔ k ∉ key <$> l.
Proof.
  split.
  - intros HN (x & -> & Hx)%list_elem_of_fmap. destruct (dict_by_is_Some key l x Hx). congruence.
  - intros Hk. destruct (dict_by key l !! k) as [x|] eqn:E; [|done].
    apply dict_by_Some in E as [Hx <-]. destruct Hk. apply list_elem_of_fmap. eauto.
Qed.

Lemma dict_by_app_l `{Countable K} {A} (key : A → K) l l' k :
  k ∉ key <$> l' → dict_by key (l ++ l') !! k = dict_by key l !! k.
Proof.
  induction l' as [|x l' IH] using rev_ind; [by rewrite app_nil_r|].
  intros Hk. rewrite app_assoc, dict_by_app. rewrite fmap_app in Hk.
  rewrite lookup_insert_ne by set_solver. apply IH. set_solver.
Qed.

(** ** Dictionaries that refuse a conflicting value

    [for x in l: if k(x) in seen and seen[k(x)] != x: raise e; seen[k(x)] = x] *)

Section collect.
Context `{Countable K} {A : Type} (key : A → K) (same : A → A → bool) (err : exn).

Definition conflicts (seen : gmap K A) (x : A) : bool :=
match seen !! key x with Some prior => negb (same prior x) | None => false end.

Fixpoint collect_by (seen : gmap K A) (l : list A) : result (gmap K A) :=
match l with
| [] => Ok seen
| x :: l => if conflicts seen x then Raise err else collect_by (<[key x := x]> seen) l
end.
End collect.

Section collect_decidable.
Context `{Countable K} `{EqDecision A} (key : A → K) (err : exn).
Notation collect := (collect_by key (λ x y, x ==? y) err).

(** One value per key, as a set of pairs. *)
Definition consistent (l : list A) : Prop := ∀ x y, x ∈ l → y ∈ l → key x = key y → x = y.

Lemma conflicts_false seen x :
conflicts key (λ x y, x ==? y) seen x = false ↔ ∀ y, seen !! key x = Some y → y = x.
Proof.
  unfold conflicts. destruct (seen !! key x) as [y|]; [|naive_solver].
  rewrite negb_false_iff, eqb_true. naive_solver.
Qed.

Lemma collect_by_spec l seen m :
collect seen l = Ok m →
(∀ k x, m !! k = Some x ↔ seen !! k = Some x ∨ (x ∈ l ∧ key x = k)).
Proof.
  revert seen. induction l as [|a l IH]; intros seen; cbn.
  - intros [= ->] k x. set_solver.
  - destruct (conflicts _ _ seen a) eqn:E; [done|]. rewrite conflicts_false in E.
    intros Hm k x. rewrite (IH _ Hm), lookup_insert_Some, elem_of_cons.
    split; [naive_solver|]. intros [Hx|[[->|Hx] Hk]]; [|by left; left|by right].
    destruct (decide (key a = k)) as [<-|]; [|by left; right].
    left; left. split; [done|]. symmetry. by apply E.
Qed.

Lemma collect_by_consistent l m : collect ∅ l = Ok m → consistent l.
Proof.
  intros Hm x y Hx Hy Hk. pose proof (collect_by_spec _ _ _ Hm) as Hs.
  assert (m !! key x = Some x) as H1 by (apply Hs; auto).
  assert (m !! key x = Some y) as H2 by (apply Hs; auto). congruence.
Qed.

Lemma collect_by_total l seen :
consistent l → (∀ x y, x ∈ l → seen !! key x = Some y → y = x) → is_ok (collect seen l) = true.
Proof.
  revert seen. induction l as [|a l IH]; intros seen Hc Hs; cbn; [done|].
  rewrite (proj2 (conflicts_false seen a)) by (intros y Hy; apply Hs; [by left|done]).
  apply IH.
  - intros x y Hx Hy. apply Hc; by right.
  - intros x y Hx. rewrite lookup_insert_Some. intros [[Hk <-]|[_ Hy]].
    + apply Hc; [by left|by right|done].
    + apply Hs; [by right|done].
Qed.

Lemma collect_by_raise l seen x : collect seen l = Raise x → x = err.
Proof.
  revert seen. induction l as [|a l IH]; intros seen; cbn; [done|].
  destruct (conflicts _ _ seen a); [by intros [= ->]|apply IH].
Qed.

Lemma collect_by_complete l :
consistent l → ∃ m, collect ∅ l = Ok m ∧ ∀ k x, m !! k = Some x ↔ x ∈ l ∧ key x = k.
Proof.
  intros Hc. destruct (proj1 (is_ok_true (collect ∅ l))) as [m Hm].
  - apply collect_by_total; [done|]. intros x y _. by rewrite lookup_empty.
  - exists m. split; [done|]. intros k x. rewrite (collect_by_spec _ _ _ Hm), lookup_empty. naive_solver.
Qed.

(** The dictionary does not depend on the order. *)
Lemma collect_by_perm l1 l2 : l1 ≡ₚ l2 → collect ∅ l1 = collect ∅ l2.
Proof.
  assert (∀ l1 l2 m, l1 ≡ₚ l2 → collect ∅ l1 = Ok m → collect ∅ l2 = Ok m) as Hok.
  { intros k1 k2 m Hp Hm. pose proof (collect_by_consistent _ _ Hm) as Hc.
    assert (is_ok (collect ∅ k2) = true) as (m' & Hm')%is_ok_true.
    { apply collect_by_total; [|intros x y _; by rewrite lookup_empty].
      intros x y. rewrite <-Hp. apply Hc. }
    rewrite Hm'. f_equal. apply map_eq. intros k. apply option_eq. intros x.
    by rewrite (collect_by_spec _ _ _ Hm), (collect_by_spec _ _ _ Hm'), Hp. }
  intros Hp. destruct (collect ∅ l1) as [m|e] eqn:E1.
  - by rewrite (Hok l1 l2 m).
  - destruct (collect ∅ l2) as [m|e'] eqn:E2.
    + rewrite (Hok l2 l1 m) in E1; [done| |done]. by symmetry.
    + apply collect_by_raise in E1 as ->. by apply collect_by_raise in E2 as ->.
Qed.
End collect_decidable.

(** [tuple(seen[k] for k in sorted(seen))]: the values in the order of their keys *)
Definition values_by `{Countable K, TotalCompare K} {A} (key : A → K) (m : gmap K A) : list A :=
  sort_by key (map_to_list m).*2.

Lemma elem_of_values_by `{Countable K, TotalCompare K} {A} (key : A → K) (m : gmap K A) x :
  x ∈ values_by key m ↔ ∃ k, m !! k = Some x.
Proof.
  unfold values_by. rewrite elem_of_sort_by, list_elem_of_fmap. split.
  - intros ([k y] & -> & Hy%elem_of_map_to_list). eauto.
  - intros (k & Hk). exists (k, x). split; [done|]. by apply elem_of_map_to_list.
Qed.

Lemma NoDup_values_by `{Countable K, TotalCompare K} {A} (key : A → K) (m : gmap K A) :
  (∀ k x, m !! k = Some x → key x = k) → NoDup (key <$> values_by key m).
Proof.
  intros Hm. unfold values_by. rewrite sort_by_perm, <-list_fmap_compose.
  assert (key ∘ snd <$> map_to_list m = (map_to_list m).*1) as ->; [|apply NoDup_fst_map_to_list].
  apply list_fmap_ext. intros i [k x] Hi. cbn. apply Hm. apply elem_of_map_to_list.
  by eapply list_elem_of_lookup_2.
Qed.

(** The keys of a sequence sorted by them are in order. *)
Lemma canonical_map_sort_by `{TotalCompare K} `{EqDecision K} {A} (key : A → K) l :
  canonical (map key (sort_by key l)) = true.
Proof.
  apply canonical_true, sort_by_id. pose proof (sort_by_sorted key l) as Hs.
  induction Hs as [|x k Hk IH Hx]; cbn; constructor; [done|].
  apply Forall_fmap. eapply Forall_impl; [exact Hx|]. by intros y.
Qed.

(** Deduplication: the elements themselves, one per key, in the order of the keys,
    whatever order they came in. *)
Lemma collect_values_spec `{Countable K, TotalCompare K} `{EqDecision A} (key : A → K) (err : exn) l :
  consistent key l →
  ∃ k, (∀ l', l' ≡ₚ l → (m ← collect_by key (λ x y, x ==? y) err ∅ l'; Ok (values_by key m)) = Ok k) ∧
       (m ← collect_by key (λ x y, x ==? y) err ∅ k; Ok (values_by key m)) = Ok k ∧
       (∀ x, x ∈ k ↔ x ∈ l) ∧ NoDup (key <$> k) ∧ canonical (map key k) = true.
Proof.
  intros Hc. destruct (collect_by_complete key err l Hc) as (m & Hm & Hspec).
  assert (∀ x, x ∈ values_by key m ↔ x ∈ l) as Hmem.
  { intros x. rewrite elem_of_values_by. setoid_rewrite Hspec. naive_solver. }
  assert (NoDup (key <$> values_by key m)) as Hnd by (apply NoDup_values_by; intros k x Hx; by apply Hspec).
  exists (values_by key m). split_and!; [|..|done|done|apply canonical_map_sort_by].
  - intros l' Hl'. by rewrite (collect_by_perm key err l' l Hl'), Hm.
  - destruct (collect_by_complete key err (values_by key m)) as (m' & Hm' & Hspec').
    { intros x y Hx Hy. by apply (key_inj_of_NoDup key (values_by key m)). }
    rewrite Hm'. cbn. do 2 f_equal. apply map_eq. intros k. apply option_eq. intros x.
    by rewrite Hspec', Hspec, Hmem.
Qed.

(** ** Scanning a sorted sequence for its undominated elements

    [kept = []; for x in l: if any(dominates(c, x) for c in kept): continue;
    kept.append(x)] *)

Section scan.
Context {A : Type} (dominates : A → A → bool).
Implicit Types (x y : A) (l : list A).

Definition scan_step (kept : list A) x : list A :=
  if existsb (λ c, dominates c x) kept then kept else kept ++ [x].

Definition scan_minimal l : list A := foldl scan_step [] l.

Lemma scan_minimal_snoc l x : scan_minimal (l ++ [x]) = scan_step (scan_minimal l) x.
Proof. unfold scan_minimal. by rewrite foldl_app. Qed.

Lemma scan_minimal_sublist l : scan_minimal l `sublist_of` l.
Proof.
  induction l as [|x l IH] using rev_ind; [done|]. rewrite scan_minimal_snoc.
  unfold scan_step. destruct (existsb _ _).
  - by apply sublist_inserts_r.
  - by apply sublist_app.
Qed.

Lemma scan_minimal_elem l x : x ∈ scan_minimal l → x ∈ l.
Proof. intros H. eapply elem_of_sublist; [done|]. apply scan_minimal_sublist. Qed.

Lemma scan_minimal_mono l x y : y ∈ scan_minimal l → y ∈ scan_step (scan_minimal l) x.
Proof. unfold scan_step. destruct (existsb _ _); set_solver. Qed.

Lemma scan_minimal_cover l x :
  x ∈ l → x ∈ scan_minimal l ∨ ∃ c, c ∈ scan_minimal l ∧ dominates c x = true.
Proof.
  induction l as [|y l IH] using rev_ind; [by intros ?%not_elem_of_nil|].
  rewrite scan_minimal_snoc. intros [Hx|Hx]%elem_of_app.
  - destruct (IH Hx) as [H|(c & Hc & Hd)].
    + left. by apply scan_minimal_mono.
    + right. exists c. split; [by apply scan_minimal_mono|done].
  - apply list_elem_of_singleton in Hx as ->. unfold scan_step.
    destruct (existsb _ _) eqn:E; [|left; set_solver].
    right. by apply any_true in E.
Qed.

Lemma scan_minimal_pairwise l i j x y :
  scan_minimal l !! i = Some x → scan_minimal l !! j = Some y → i < j →
  dominates x y = false.
Proof.
  induction l as [|z l IH] using rev_ind; [done|]. rewrite scan_minimal_snoc.
  unfold scan_step. destruct (existsb _ _) eqn:E; [done|].
  intros Hi Hj Hij. apply lookup_lt_Some in Hj as Hlt. rewrite length_app in Hlt. cbn in Hlt.
  rewrite lookup_app_l in Hi by lia.
  destruct (decide (j < length (scan_minimal l))) as [Hl|Hl].
  - rewrite lookup_app_l in Hj by done. by eapply IH.
  - rewrite lookup_app_r in Hj by lia.
    replace (j - length (scan_minimal l)) with 0 in Hj by lia. injection Hj as <-.
    rewrite any_false in E. apply E. by eapply list_elem_of_lookup_2.
Qed.

Lemma scan_minimal_nonempty l x : x ∈ l → scan_minimal l ≠ [].
Proof.
  intros [Hx|(c & Hc & _)]%scan_minimal_cover Hn; rewrite Hn in *; by eapply not_elem_of_nil.
Qed.

Lemma scan_minimal_sorted (R : A → A → Prop) l :
  StronglySorted R l → StronglySorted R (scan_minimal l).
Proof.
  intros Hs. pose proof (scan_minimal_sublist l) as Hsub. revert Hs.
  induction Hsub as [|x l1 l2 Hsub IH|x l1 l2 Hsub IH]; intros Hs; [done|..];
    apply StronglySorted_inv in Hs as [Hs Hall]; [|by apply IH].
  constructor; [by apply IH|]. rewrite Forall_forall in Hall |- *. intros y Hy.
  apply Hall. by eapply elem_of_sublist.
Qed.

Lemma scan_minimal_NoDup {B} (f : A → B) l : NoDup (f <$> l) → NoDup (f <$> scan_minimal l).
Proof.
  intros H. eapply sublist_NoDup; [exact H|]. apply fmap_sublist, scan_minimal_sublist.
Qed.
End scan.

(** Below every element of a finite strict order lies a minimal one. *)
Lemma minimal_below {A} (lt : A → A → bool) (P : A → Prop) (l : list A) x :
  (∀ a, lt a a = false) →
  (∀ a b c, P a → P b → P c → lt a b = true → lt b c = true → lt a c = true) →
  (∀ a, a ∈ l → P a) → x ∈ l →
  ∃ m, m ∈ l ∧ (m = x ∨ lt m x = true) ∧ ∀ y, y ∈ l → lt y m = false.
Proof.
  intros Hirr Htrans. revert x. induction l as [|y l IH]; intros x HP; [by intros ?%not_elem_of_nil|].
  assert (P y) as Py by (apply HP; by left).
  assert (∀ z, z ∈ l → P z) as Pl by (intros z Hz; apply HP; by right).
  assert (∀ z, z ∈ l → ∃ m, m ∈ y :: l ∧ (m = z ∨ lt m z = true) ∧ ∀ w, w ∈ y :: l → lt w m = false) as Hin.
  { intros z Hz. destruct (IH z Pl Hz) as (m & Hm & Hmz & Hmin). destruct (lt y m) eqn:E.
    - exists y. split_and!; [by left| |].
      + right. destruct Hmz as [->|Hmz]; [done|]. by apply (Htrans y m z); auto.
      + intros w [->|Hw]%elem_of_cons; [done|]. apply not_true_is_false. intros Hwy.
        assert (lt w m = true) as Hwm by (apply (Htrans w y m); auto). by rewrite (Hmin w Hw) in Hwm.
    - exists m. split_and!; [by right|done|]. by intros w [->|Hw]%elem_of_cons; [|apply Hmin]. }
  intros [->|Hx]%elem_of_cons; [|by apply Hin]. destruct (existsb (λ z, lt z y) l) eqn:E.
  - apply any_true in E as (z & Hz & Hzy). destruct (Hin z Hz) as (m & Hm & Hmz & Hmin).
    exists m. split_and!; [done| |done]. right. destruct Hmz as [->|Hmz]; [done|].
    apply (Htrans m z y); auto.
  - rewrite any_false in E. exists y. split_and!; [by left|by left|].
    intros w [->|Hw]%elem_of_cons; [done|by apply E].
Qed.

(** If the order puts smaller sets first, no element kept dominates another. *)
Lemma scan_minimal_antichain {A} (dominates : A → A → bool) (R : A → A → Prop) l :
  StronglySorted R l →
  (∀ x y, R x y → dominates y x = true → dominates x y = true) →
  ∀ i j x y, scan_minimal dominates l !! i = Some x → scan_minimal dominates l !! j = Some y →
    i ≠ j → dominates x y = false.
Proof.
  intros Hs HR i j x y Hi Hj Hne. destruct (decide (i < j)) as [Hlt|Hge].
  - by eapply scan_minimal_pairwise.
  - assert (Hji : j < i) by lia.
    pose proof (scan_minimal_pairwise dominates l j i y x Hj Hi Hji) as Hyx.
    destruct (dominates x y) eqn:E; [|done]. rewrite (HR y x) in Hyx; [done| |done].
    apply (scan_minimal_sorted dominates R) in Hs. clear -Hs Hi Hj Hji.
    revert i j Hi Hj Hji. induction Hs as [|z l' Hs IH Hall]; intros i j Hi Hj Hji; [done|].
    destruct i as [|i]; [lia|]. destruct j as [|j]; cbn in *.
    + injection Hj as <-. rewrite Forall_forall in Hall. apply Hall.
      by eapply list_elem_of_lookup_2.
    + eapply IH; eauto. lia.
Qed.

(** Lists without duplicates: inclusion and length. *)
Lemma NoDup_subset_length {A} `{EqDecision A} (l k : list A) :
  NoDup l → l ⊆ k → length l ≤ length k.
Proof. intros Hnd Hs. apply NoDup_submseteq in Hs; [|done]. by apply submseteq_length. Qed.

Lemma NoDup_subset_eq_length {A} `{EqDecision A} (l k : list A) :
  NoDup l → l ⊆ k → length k ≤ length l → k ⊆ l.
Proof.
  intros Hnd Hs Hlen. apply NoDup_submseteq in Hs; [|done].
  intros x Hx. by rewrite (submseteq_length_Permutation l k) by done.
Qed.

Lemma size_list_to_set_le `{Countable A} (l : list A) :
  size (list_to_set l : gset A) ≤ length l.
Proof.
  induction l as [|x l IH]; [done|]. rewrite list_to_set_cons. cbn [length].
  rewrite size_union_alt, size_singleton.
  assert (size (list_to_set l ∖ {[x]} : gset A) ≤ size (list_to_set l : gset A)); [|lia].
  apply subseteq_size. set_solver.
Qed.

(** ** Comprehensions *)

Lemma elem_of_flat_map {A B} (f : A → list B) l y :
  y ∈ flat_map f l ↔ ∃ x, x ∈ l ∧ y ∈ f x.
Proof. rewrite list_elem_of_In, in_flat_map. by setoid_rewrite list_elem_of_In. Qed.

Lemma elem_of_lfilter {A} (p : A → bool) l x : x ∈ List.filter p l ↔ x ∈ l ∧ p x = true.
Proof. by rewrite !list_elem_of_In, List.filter_In. Qed.

Lemma lfilter_perm {A} (p : A → bool) l k : l ≡ₚ k → List.filter p l ≡ₚ List.filter p k.
Proof.
  induction 1 as [|x l k H IH|x y l|l k m H1 IH1 H2 IH2]; cbn; [done|..].
  - destruct (p x); [by apply Permutation_skip|done].
  - destruct (p x), (p y); try done. apply Permutation_swap.
  - by transitivity (List.filter p k).
Qed.

Lemma lfilter_sublist {A} (p : A → bool) l : List.filter p l `sublist_of` l.
Proof.
  induction l as [|x l IH]; [done|]. cbn. destruct (p x); [by apply sublist_skip|by apply sublist_cons].
Qed.

Lemma elem_of_map {A B} (f : A → B) l y : y ∈ map f l ↔ ∃ x, x ∈ l ∧ y = f x.
Proof. rewrite list_elem_of_fmap. naive_solver. Qed.

Lemma elem_of_map_1 {A B} (f : A → B) l x : x ∈ l → f x ∈ map f l.
Proof. intros. apply elem_of_map. eauto. Qed.

Lemma StronglySorted_elem {A} (R : A → A → Prop) (P : A → Prop) l :
  StronglySorted R l → (∀ x, x ∈ l → P x) → StronglySorted (λ x y, P x ∧ P y ∧ R x y) l.
Proof.
  induction 1 as [|x l Hs IH Hall]; intros HP; constructor.
  - apply IH. intros y Hy. apply HP. by constructor.
  - rewrite Forall_forall in Hall |- *. intros y Hy. split_and!; [|..|auto].
    + apply HP. constructor.
    + apply HP. by constructor.
Qed.
