(* ===== verification/Digest.v ===== *)
(** * SHA-256 and canonical JSON

    [src/rci/claims/models.py] identifies every record by
    [content_fingerprint(namespace, value)]: the hexadecimal SHA-256 digest of
    the namespace, a NUL byte and the canonical JSON text of the value.  This
    file models the two standard-library functions involved ([hashlib.sha256],
    [json.dumps] with [ensure_ascii=False, sort_keys=True] and compact
    separators), JSON values with Python's [==] on them, and the fingerprint.

    Strings are the UTF-8 byte sequences of Python's strings: UTF-8 preserves
    the code-point order Python compares and sorts by, and [json.dumps] escapes
    ASCII characters only. *)

From Stdlib Require Import Ascii.
From S2P Require Import Prelude.

(** ** SHA-256 (FIPS 180-4) *)

Module Sha256.
Local Open Scope N_scope.

Definition mask : N := 4294967295.
Definition add32 (x y : N) : N := N.land (x + y) mask.
Definition not32 (x : N) : N := N.lxor x mask.
Definition rotr (n x : N) : N :=
  N.lor (N.shiftr x n) (N.land (N.shiftl x (32 - n)) mask).

Definition ch (x y z : N) : N := N.lxor (N.land x y) (N.land (not32 x) z).
Definition maj (x y z : N) : N :=
  N.lxor (N.lxor (N.land x y) (N.land x z)) (N.land y z).
Definition bsig0 (x : N) : N := N.lxor (N.lxor (rotr 2 x) (rotr 13 x)) (rotr 22 x).
Definition bsig1 (x : N) : N := N.lxor (N.lxor (rotr 6 x) (rotr 11 x)) (rotr 25 x).
Definition ssig0 (x : N) : N := N.lxor (N.lxor (rotr 7 x) (rotr 18 x)) (N.shiftr x 3).
Definition ssig1 (x : N) : N := N.lxor (N.lxor (rotr 17 x) (rotr 19 x)) (N.shiftr x 10).

(** The constants are the first 32 bits of the fractional parts of the square
    and cube roots of the first primes. *)
Definition is_prime (n : nat) : bool :=
  forallb (λ d, negb (n mod d =? 0)%nat) (seq 2 (n - 2)).
Definition primes : list N := map N.of_nat (List.filter is_prime (seq 2 310)).

(** The largest [r] below [2 ^ bits + lo] with [r ^ k <= x], by bisection. *)
Fixpoint root (k x : N) (bits : nat) (lo : N) : N :=
  match bits with
  | O => lo
  | S bits =>
    let r := lo + N.shiftl 1 (N.of_nat bits) in
    root k x bits (if r ^ k <=? x then r else lo)
  end.

Definition root_fraction (k p : N) : N := N.land (root k (N.shiftl p (32 * k)) 40 0) mask.

Definition round_constants : list N := Eval vm_compute in map (root_fraction 3) primes.
Definition initial_hash : list N := Eval vm_compute in map (root_fraction 2) (take 8 primes).

(** Big-endian bytes of a number, [n] of them. *)
Fixpoint be_bytes (n : nat) (x : N) : list N :=
  match n with
  | O => []
  | S n => N.land (N.shiftr x (8 * N.of_nat n)) 255 :: be_bytes n x
  end.

Fixpoint bytes_of_string (s : string) : list N :=
  match s with
  | EmptyString => []
  | String a s => Ascii.N_of_ascii a :: bytes_of_string s
  end.

(** The message, a one bit, zeros up to 56 modulo 64 bytes, the bit length. *)
Definition pad (m : list N) : list N :=
  let len := N.of_nat (length m) in
  let zeros := N.to_nat ((119 - len mod 64) mod 64) in
  m ++ [128] ++ replicate zeros 0 ++ be_bytes 8 (8 * len).

Fixpoint words_of_bytes (l : list N) : list N :=
  match l with
  | a :: b :: c :: d :: l =>
    N.lor (N.shiftl a 24) (N.lor (N.shiftl b 16) (N.lor (N.shiftl c 8) d)) :: words_of_bytes l
  | _ => []
  end.

(** The message schedule, latest word first. *)
Fixpoint extend (n : nat) (w : list N) : list N :=
  match n with
  | O => w
  | S n =>
    let t i := nth i w 0 in
    extend n (add32 (add32 (ssig1 (t 1%nat)) (t 6%nat)) (add32 (ssig0 (t 14%nat)) (t 15%nat)) :: w)
  end.

Definition round (st : list N) (kw : N * N) : list N :=
  match st with
  | [a; b; c; d; e; f; g; h] =>
    let t1 := add32 (add32 h (bsig1 e)) (add32 (ch e f g) (add32 kw.1 kw.2)) in
    let t2 := add32 (bsig0 a) (maj a b c) in
    [add32 t1 t2; a; b; c; add32 d t1; e; f; g]
  | _ => st
  end.

Definition compress (st block : list N) : list N :=
  let w := rev (extend 48 (rev block)) in
  zip_with add32 st (fold_left round (zip round_constants w) st).

Fixpoint blocks (n : nat) (st w : list N) : list N :=
  match n with
  | O => st
  | S n => blocks n (compress st (take 16 w)) (drop 16 w)
  end.

Definition digest (m : list N) : list N :=
  let w := words_of_bytes (pad m) in
  blocks (length w / 16) initial_hash w.

Definition hex_digit (x : N) : Ascii.ascii :=
  Ascii.ascii_of_N (if x <? 10 then 48 + x else 87 + x).

(** Eight lower-case hexadecimal digits of a 32-bit word. *)
Fixpoint hex_digits (n : nat) (x : N) (k : string) : string :=
  match n with
  | O => k
  | S n => String (hex_digit (N.land (N.shiftr x (4 * N.of_nat n)) 15)) (hex_digits n x k)
  end.

Definition hexdigest (s : string) : string :=
  foldr (hex_digits 8) EmptyString (digest (bytes_of_string s)).
End Sha256.

Example sha256_empty :
  Sha256.hexdigest "" = "e3b0c44298fc1c149afbf4c8996fb92427ae41e4649b934ca495991b7852b855".
Proof. vm_compute. reflexivity. Qed.
Example sha256_abc :
  Sha256.hexdigest "abc" = "ba7816bf8f01cfea414140de5dae2223b00361a396177a9cb410ff61f20015ad".
Proof. vm_compute. reflexivity. Qed.
Example sha256_two_blocks :
  Sha256.hexdigest "abcdbcdecdefdefgefghfghighijhijkijkljklmklmnlmnomnopnopq"
  = "248d6a61d20638b8e5c026930c3e6039a33ce45964ff2167f6ecedd419db06c1".
Proof. vm_compute. reflexivity. Qed.

(** Every digest has the shape [Sha256Digest] requires: 64 characters of [0-9a-f]. *)
Definition is_hex (a : Ascii.ascii) : bool :=
  let n := Ascii.N_of_ascii a in
  ((48 <=? n) && (n <=? 57) || (97 <=? n) && (n <=? 102))%N.

Fixpoint string_all (p : Ascii.ascii → bool) (s : string) : bool :=
  match s with EmptyString => true | String a s => p a && string_all p s end.

Lemma hex_digit_is_hex x : is_hex (Sha256.hex_digit (N.land x 15)) = true.
Proof.
  assert (H : (N.land x 15 < 16)%N).
  { change 15%N with (N.ones 4). rewrite N.land_ones. apply N.mod_lt. done. }
  generalize dependent (N.land x 15). intros y Hy.
  assert (Hc : In y (map N.of_nat (seq 0 16))).
  { apply in_map_iff. exists (N.to_nat y). split; [lia|]. apply in_seq. lia. }
  cbn in Hc. repeat (destruct Hc as [<-|Hc]; [vm_compute; reflexivity|]). done.
Qed.

Lemma hex_digits_shape n x k m :
  String.length k = m → string_all is_hex k = true →
  String.length (Sha256.hex_digits n x k) = n + m ∧
  string_all is_hex (Sha256.hex_digits n x k) = true.
Proof.
  intros <- Hk. induction n as [|n [IH1 IH2]]; [done|]. cbn -[N.of_nat].
  rewrite hex_digit_is_hex. split; [by rewrite IH1|done].
Qed.

Lemma compress_length st block :
  length st = 8 → length (Sha256.compress st block) = 8.
Proof.
  intros Hst. unfold Sha256.compress. rewrite length_zip_with, Hst.
  assert (Hr : ∀ kws s, length s = 8 → length (fold_left Sha256.round kws s) = 8); [|by rewrite Hr].
  induction kws as [|kw kws IH]; intros s Hs; [done|]. cbn. apply IH.
  do 8 (destruct s as [|? s]; [done|]). by destruct s.
Qed.

Lemma digest_length m : length (Sha256.digest m) = 8.
Proof.
  unfold Sha256.digest. generalize (length (Sha256.words_of_bytes (Sha256.pad m)) / 16).
  intros n. generalize (Sha256.words_of_bytes (Sha256.pad m)).
  assert (Hi : length Sha256.initial_hash = 8) by done. revert Hi.
  generalize Sha256.initial_hash as st.
  induction n as [|n IH]; intros st Hst w; [done|]. cbn. by apply IH, compress_length.
Qed.

Lemma hexdigest_shape s :
  String.length (Sha256.hexdigest s) = 64 ∧ string_all is_hex (Sha256.hexdigest s) = true.
Proof.
  unfold Sha256.hexdigest. pose proof (digest_length (Sha256.bytes_of_string s)) as Hl.
  revert Hl. change 64 with (8 * 8). generalize 8 at 1 3 as n.
  generalize (Sha256.digest (Sha256.bytes_of_string s)) as l.
  induction l as [|x l IH]; intros n <-; [done|]. cbn [length foldr].
  destruct (IH (length l) eq_refl) as [IH1 IH2].
  destruct (hex_digits_shape 8 x _ _ IH1 IH2) as [-> ->]. split; [lia|done].
Qed.

(** ** JSON values *)

(** A Python float is observed through [repr] and [as_integer_ratio]. *)
Record pyfloat : Type := PyFloat {
  float_repr : string;
  float_numerator : Z;
  float_denominator : positive;
}.

#[export] Instance pyfloat_eq_dec : EqDecision pyfloat.
Proof. solve_decision. Defined.

Inductive json : Type :=
| JNull
| JBool (b : bool)
| JInt (z : Z)
| JFloat (f : pyfloat)
| JString (s : string)
| JList (l : list json)
| JObject (o : list (string * json)).

Section json_ind.
Variable P : json → Prop.
Hypothesis Hnull : P JNull.
Hypothesis Hbool : ∀ b, P (JBool b).
Hypothesis Hint : ∀ z, P (JInt z).
Hypothesis Hfloat : ∀ f, P (JFloat f).
Hypothesis Hstring : ∀ s, P (JString s).
Hypothesis Hlist : ∀ l, Forall P l → P (JList l).
Hypothesis Hobject : ∀ o, Forall (λ kv, P kv.2) o → P (JObject o).

Fixpoint json_nested_ind (j : json) : P j :=
  match j with
  | JNull => Hnull
  | JBool b => Hbool b
  | JInt z => Hint z
  | JFloat f => Hfloat f
  | JString s => Hstring s
  | JList l =>
    Hlist l ((fix go l : Forall P l :=
      match l with
      | [] => List.Forall_nil _
      | j :: l => List.Forall_cons _ _ _ (json_nested_ind j) (go l)
      end) l)
  | JObject o =>
    Hobject o ((fix go o : Forall (λ kv, P kv.2) o :=
      match o with
      | [] => List.Forall_nil _
      | kv :: o => List.Forall_cons _ _ _ (json_nested_ind kv.2) (go o)
      end) o)
  end.
End json_ind.

(** Python's numbers compare by value across [bool], [int] and [float]. *)
Definition json_number (j : json) : option (Z * positive) :=
  match j with
  | JBool b => Some (Z.b2z b, 1%positive)
  | JInt z => Some (z, 1%positive)
  | JFloat f => Some (float_numerator f, float_denominator f)
  | _ => None
  end.

Definition number_eqb (x y : Z * positive) : bool :=
  (x.1 * Zpos y.2 =? y.1 * Zpos x.2)%Z.

Fixpoint json_lookup (k : string) (o : list (string * json)) : option json :=
  match o with
  | [] => None
  | (k', v) :: o => if k ==? k' then Some v else json_lookup k o
  end.

(** [==] on sequences whose elements compare with [eqb]. *)
Definition list_eqb {A} (eqb : A → A → bool) : list A → list A → bool :=
  fix go l l' :=
    match l, l' with
    | [], [] => true
    | x :: l, y :: l' => eqb x y && go l l'
    | _, _ => false
    end.

(** Python's [==] on JSON values: sequences elementwise, objects as finite maps. *)
Fixpoint json_eqb (x y : json) {struct x} : bool :=
  match x, y with
  | JNull, JNull => true
  | JString s, JString t => s ==? t
  | JList l, JList l' => list_eqb json_eqb l l'
  | JObject o, JObject o' =>
    (length o =? length o')%nat &&
    forallb (λ kv, match json_lookup kv.1 o' with
                   | Some v' => json_eqb kv.2 v'
                   | None => false
                   end) o
  | _, _ =>
    match json_number x, json_number y with
    | Some n, Some m => number_eqb n m
    | _, _ => false
    end
  end.

(** Every object of the value has distinct keys, as every Python dict has. *)
Fixpoint json_wf (j : json) : bool :=
  match j with
  | JList l => forallb json_wf l
  | JObject o => uniq (map fst o) && forallb (λ kv, json_wf kv.2) o
  | _ => true
  end.

Lemma json_lookup_NoDup k v o :
  NoDup (map fst o) → (k, v) ∈ o → json_lookup k o = Some v.
Proof.
  induction o as [|[k' v'] o IH]; cbn; [by intros _ ?%not_elem_of_nil|].
  intros [Hk Hnd]%NoDup_cons [[= <- <-]|Hin]%elem_of_cons.
  - by rewrite bool_decide_true.
  - rewrite bool_decide_false; [by apply IH|]. intros ->. destruct Hk.
    apply (list_elem_of_fmap_2 fst) in Hin. done.
Qed.

Lemma json_eqb_refl j : json_wf j = true → json_eqb j j = true.
Proof.
  induction j as [| |z|f|s|l IH|o IH] using json_nested_ind; cbn; intros Hwf; try done.
  - by destruct b.
  - apply Z.eqb_refl.
  - apply Z.eqb_refl.
  - by apply bool_decide_true.
  - induction IH as [|x l Hx _ IH]; [done|]. cbn in Hwf |- *. apply andb_true_iff in Hwf as [??].
    rewrite Hx by done. by apply IH.
  - apply andb_true_iff in Hwf as [Hu%uniq_true Hwf].
    rewrite Nat.eqb_refl. apply all_true. intros [k v] Hin. cbn.
    rewrite (json_lookup_NoDup k v) by done.
    rewrite Forall_forall in IH. apply (IH _ Hin).
    rewrite all_true in Hwf. apply (Hwf _ Hin).
Qed.

(** ** [json.dumps(value, ensure_ascii=False, sort_keys=True, separators=(",", ":"))] *)

Definition escape_char (a : Ascii.ascii) (k : string) : string :=
  let n := Ascii.N_of_ascii a in
  (if n =? 34 then String "092"%char (String a k)
   else if n =? 92 then String "092"%char (String a k)
   else if n =? 10 then "\n" +:+ k
   else if n =? 13 then "\r" +:+ k
   else if n =? 9 then "\t" +:+ k
   else if n =? 12 then "\f" +:+ k
   else if n =? 8 then "\b" +:+ k
   else if n <? 32 then "\u00" +:+ Sha256.hex_digits 2 n k
   else String a k)%N.

Fixpoint escape (s k : string) : string :=
  match s with
  | EmptyString => k
  | String a s => escape_char a (escape s k)
  end.

(** A JSON string literal followed by the text [k]. *)
Definition quote (s k : string) : string := String "034"%char (escape s (String "034"%char k)).

Fixpoint join (sep : string) (l : list string) : string :=
  match l with
  | [] => ""
  | [x] => x
  | x :: l => x +:+ sep +:+ join sep l
  end.

Fixpoint canonical_json (j : json) : string :=
  match j with
  | JNull => "null"
  | JBool true => "true"
  | JBool false => "false"
  | JInt z => pretty z
  | JFloat f => float_repr f
  | JString s => quote s ""
  | JList l => "[" +:+ join "," (map canonical_json l) +:+ "]"
  | JObject o =>
    let members := map (λ kv, (kv.1, canonical_json kv.2)) o in
    "{" +:+ join "," (map (λ kv, quote kv.1 (":" +:+ kv.2)) (sort_by fst members)) +:+ "}"
  end.

(** [content_fingerprint(namespace, value)] *)
Definition content_fingerprint (namespace : string) (value : json) : string :=
  Sha256.hexdigest (namespace +:+ String "000"%char (canonical_json value)).

(** [value[:n]] of a digest *)
Definition prefix (n : nat) (s : string) : string := String.substring 0 n s.

(** [model_dump(mode="json")] of the records of the development. *)
Class ToJson (A : Type) := to_json : A → json.

#[export] Instance string_to_json : ToJson string := JString.
#[export] Instance Z_to_json : ToJson Z := JInt.
#[export] Instance bool_to_json : ToJson bool := JBool.
#[export] Instance json_to_json : ToJson json := λ j, j.
#[export] Instance option_to_json `{ToJson A} : ToJson (option A) :=
  λ o, match o with Some a => to_json a | None => JNull end.
#[export] Instance list_to_json `{ToJson A} : ToJson (list A) := λ l, JList (map to_json l).

Example canonical_json_example :
  canonical_json (JObject [("b", JList [JInt (-3); JNull]); ("a", JString "x")])
  = "{" +:+ quote "a" (":" +:+ quote "x" (",")) +:+ quote "b" ":[-3,null]}".
Proof. vm_compute. reflexivity. Qed.

(** Digests are opaque to proofs; witnesses still evaluate them. *)
#[global] Opaque content_fingerprint Sha256.hexdigest.
