(* ===== verification/Model.v ===== *)
(** * Shared value objects: [src/rci/core/model.py]

    The records every component pins: artifact references, captured payloads
    and the inquiry context.  A pydantic model is a [Record]; its validator is a
    function returning [Ok tt] or raising [ValidationError], with the checks in
    the order of the code.  [Identifier], [Sha256Digest] and [NonEmptyText] are
    strings with a boolean recogniser. *)

From Stdlib Require Import Ascii.
From S2P Require Import Prelude Digest.

(** ** Constrained strings *)

Definition is_empty (s : string) : bool := s ==? "".

Definition in_range (lo hi : N) (a : ascii) : bool :=
  ((lo <=? N_of_ascii a) && (N_of_ascii a <=? hi))%N.

Definition is_alnum (a : ascii) : bool :=
  in_range 48 57 a || in_range 65 90 a || in_range 97 122 a.

Definition is_identifier_char (a : ascii) : bool :=
  is_alnum a || (a ==? "."%char) || (a ==? "_"%char) || (a ==? ":"%char)
  || (a ==? "/"%char) || (a ==? "-"%char).

Definition is_identifier (s : string) : bool :=
  match s with
  | EmptyString => false
  | String a s' =>
    is_alnum a && string_all is_identifier_char s' && (String.length s <=? 240)%nat
  end.

Definition is_sha256 (s : string) : bool :=
  (String.length s =? 64)%nat && string_all is_hex s.

(** ** Artifact references and captured payloads *)

Record ArtifactRef : Type := MkArtifactRef {
  art_digest : string;
  art_size : Z;
  art_media_type : option string;
  art_encoding : option string;
}.
#[export] Instance ArtifactRef_eq_dec : EqDecision ArtifactRef.
Proof. solve_decision. Defined.

#[export] Instance ArtifactRef_to_json : ToJson ArtifactRef := λ a,
  JObject [("algorithm", JString "sha256"); ("digest", to_json (art_digest a));
           ("size", to_json (art_size a)); ("media_type", to_json (art_media_type a));
           ("encoding", to_json (art_encoding a))].

Inductive payload_kind : Type := BytesPayload | NullPayload.
#[export] Instance payload_kind_eq_dec : EqDecision payload_kind.
Proof. solve_decision. Defined.

Record CapturedPayload : Type := MkCapturedPayload {
  cap_kind : payload_kind;
  cap_artifact : option ArtifactRef;
}.
#[export] Instance CapturedPayload_eq_dec : EqDecision CapturedPayload.
Proof. solve_decision. Defined.

Definition validate_payload_shape (p : CapturedPayload) : result unit :=
  raise_if (negb (Bool.eqb (cap_kind p ==? BytesPayload) (is_some (cap_artifact p))))
    ValidationError "byte payloads require an artifact and null payloads forbid one".

(** ** Inquiry context *)

Record InquiryContext : Type := MkInquiryContext {
  ctx_binding_revision : string;
  ctx_carrier_schema_ids : list string;
  ctx_relation_schema_ids : list string;
  ctx_consequence_profile_id : string;
  ctx_protected_horizon_id : string;
  ctx_admissible_operation_ids : list string;
  ctx_discharge_mechanism_ids : list string;
  ctx_scope_id : string;
  ctx_scope_fingerprint : string;
  ctx_assumption_ids : list string;
  ctx_guard_condition_id : option string;
  ctx_guard_ast : option ArtifactRef;
  ctx_finite_universe_hash : option string;
  ctx_closed_world : bool;
  ctx_catalog_manifest_digest : string;
  ctx_scheduler_policy_version : string;
  ctx_warrant_policy_version : string;
  ctx_provenance_refs : list string;
}.
#[export] Instance InquiryContext_eq_dec : EqDecision InquiryContext.
Proof. solve_decision. Defined.

Definition is_nil {A} (l : list A) : bool := match l with [] => true | _ => false end.

Definition validate_context (c : InquiryContext) : result unit :=
  raise_if (is_nil (ctx_carrier_schema_ids c) || is_nil (ctx_relation_schema_ids c))
    ValidationError "an inquiry must pin typed carrier and relation schemas";;
  raise_if (is_nil (ctx_provenance_refs c))
    ValidationError "an inquiry must pin at least one provenance reference";;
  raise_if (negb (forallb uniq [ctx_carrier_schema_ids c; ctx_relation_schema_ids c;
                                ctx_admissible_operation_ids c; ctx_discharge_mechanism_ids c;
                                ctx_assumption_ids c; ctx_provenance_refs c]))
    ValidationError "inquiry context reference collections must be unique";;
  raise_if (ctx_closed_world c && is_none (ctx_finite_universe_hash c))
    ValidationError "closed-world inquiry contexts require a finite-universe hash";;
  raise_if (negb (Bool.eqb (is_none (ctx_guard_condition_id c)) (is_none (ctx_guard_ast c))))
    ValidationError "guard identity and guard AST artifact must be pinned together".

(** Every digest the code computes is a [Sha256Digest]. *)
Lemma content_fingerprint_is_sha256 ns v : is_sha256 (content_fingerprint ns v) = true.
Proof.
  Transparent content_fingerprint. unfold is_sha256, content_fingerprint.
  destruct (hexdigest_shape (ns +:+ String "000"%char (canonical_json v))) as [-> ->]. done.
Qed.
#[global] Opaque content_fingerprint.
