(* ===== verification/Claims.v ===== *)
(** * Claims, conflicts and obligations: [src/rci/claims]

    The records of [claims/models.py] with their validators and fingerprints,
    and the constructors of [claims/logic.py].  JSON payloads compare with
    Python's [==] ([json_eqb]), so the records that hold one come with a boolean
    equality [*_eqb] instead of a decision procedure for [=]. *)

From S2P Require Import Prelude Digest Model.

(** ** Enumerations *)

Inductive ClaimRole : Type :=
| OBSERVATION | CHARACTERIZATION | VARIATION | BOUNDARY | FACTOR | NECESSITY
| SUFFICIENCY | PREREQUISITE | CONFLICT | RESIDUAL | LOCALIZATION | GENERALIZATION
| ACTUALIZATION | INVARIANT | PATTERN | INTERPRETATION | ROLE_UNKNOWN.
#[export] Instance ClaimRole_eq_dec : EqDecision ClaimRole.
Proof. solve_decision. Defined.

Definition ClaimRole_value (r : ClaimRole) : string :=
  match r with
  | OBSERVATION => "observation" | CHARACTERIZATION => "characterization"
  | VARIATION => "variation" | BOUNDARY => "boundary" | FACTOR => "factor"
  | NECESSITY => "necessity" | SUFFICIENCY => "sufficiency"
  | PREREQUISITE => "prerequisite" | CONFLICT => "conflict" | RESIDUAL => "residual"
  | LOCALIZATION => "localization" | GENERALIZATION => "generalization"
  | ACTUALIZATION => "actualization" | INVARIANT => "invariant" | PATTERN => "pattern"
  | INTERPRETATION => "interpretation" | ROLE_UNKNOWN => "unknown"
  end.

Inductive ClaimStatus : Type := PROVISIONAL | SUSPENDED | SUPERSEDED.
#[export] Instance ClaimStatus_eq_dec : EqDecision ClaimStatus.
Proof. solve_decision. Defined.

Inductive ClaimAssessment : Type :=
| UNASSESSED | SUPPORTED | CONTESTED | REFUTED | ASSESSMENT_UNKNOWN.
#[export] Instance ClaimAssessment_eq_dec : EqDecision ClaimAssessment.
Proof. solve_decision. Defined.

Inductive RepresentationLevel : Type :=
| L0_OPAQUE | L1_STRUCTURED | L2_FORMAL | L3_PROMOTED_VIEW.
#[export] Instance RepresentationLevel_eq_dec : EqDecision RepresentationLevel.
Proof. solve_decision. Defined.

Inductive Polarity : Type := POSITIVE | NEGATIVE | UNSPECIFIED.
#[export] Instance Polarity_eq_dec : EqDecision Polarity.
Proof. solve_decision. Defined.

Inductive ConflictKind : Type := STRUCTURAL_POLARITY | CANDIDATE_SEMANTIC.
#[export] Instance ConflictKind_eq_dec : EqDecision ConflictKind.
Proof. solve_decision. Defined.

Inductive ObligationKind : Type :=
| CHARACTERIZE | SAME_CLASS_VARIATION | MINIMAL_BOUNDARY_CROSSING | PROPOSE_FACTOR
| NECESSITY_COUNTEREXAMPLE | SUFFICIENCY_COUNTEREXAMPLE | PREREQUISITE_BYPASS
| LOCALIZE_CONFLICT | CHARACTERIZE_RESIDUAL | DISCHARGE_OPEN_DEPENDENCY
| CLARIFY_REIFICATION | DISCRIMINATE_RECONSTRUCTION | SEPARATE_CONSEQUENCE_CLASSES.
#[export] Instance ObligationKind_eq_dec : EqDecision ObligationKind.
Proof. solve_decision. Defined.

Definition ObligationKind_value (k : ObligationKind) : string :=
  match k with
  | CHARACTERIZE => "characterize"
  | SAME_CLASS_VARIATION => "same_class_variation"
  | MINIMAL_BOUNDARY_CROSSING => "minimal_boundary_crossing"
  | PROPOSE_FACTOR => "propose_factor"
  | NECESSITY_COUNTEREXAMPLE => "necessity_counterexample"
  | SUFFICIENCY_COUNTEREXAMPLE => "sufficiency_counterexample"
  | PREREQUISITE_BYPASS => "prerequisite_bypass"
  | LOCALIZE_CONFLICT => "localize_conflict"
  | CHARACTERIZE_RESIDUAL => "characterize_residual"
  | DISCHARGE_OPEN_DEPENDENCY => "discharge_open_dependency"
  | CLARIFY_REIFICATION => "clarify_reification"
  | DISCRIMINATE_RECONSTRUCTION => "discriminate_reconstruction"
  | SEPARATE_CONSEQUENCE_CLASSES => "separate_consequence_classes"
  end.

Inductive ObligationStatus : Type :=
| OPEN | BLOCKED | SATISFIED | IMPOSSIBLE | STATUS_UNKNOWN.
#[export] Instance ObligationStatus_eq_dec : EqDecision ObligationStatus.
Proof. solve_decision. Defined.

Definition ObligationStatus_value (s : ObligationStatus) : string :=
  match s with
  | OPEN => "open" | BLOCKED => "blocked" | SATISFIED => "satisfied"
  | IMPOSSIBLE => "impossible" | STATUS_UNKNOWN => "unknown"
  end.

Inductive CandidateKind : Type :=
| QUESTION_ANSWER | FORMALIZATION | RECONSTRUCTION | GENERATED_PROBE.
#[export] Instance CandidateKind_eq_dec : EqDecision CandidateKind.
Proof. solve_decision. Defined.

Inductive CorrectionKind : Type :=
| SUPERSEDES | SPLITS_FROM | MERGES_FROM | REBINDS | REFUTES | SUSPENDS | PROMOTES | REOPENS.
#[export] Instance CorrectionKind_eq_dec : EqDecision CorrectionKind.
Proof. solve_decision. Defined.

Inductive GuardStanding : Type := GUARD_STANDING | GUARD_INVALIDATED.
#[export] Instance GuardStanding_eq_dec : EqDecision GuardStanding.
Proof. solve_decision. Defined.

(** ** Payloads and bound arguments *)

Inductive InertPayload : Type :=
| PayloadArtifact (a : ArtifactRef)
| PayloadJson (j : json).

Definition payload_eqb (x y : InertPayload) : bool :=
  match x, y with
  | PayloadArtifact a, PayloadArtifact b => a ==? b
  | PayloadJson a, PayloadJson b => json_eqb a b
  | _, _ => false
  end.

Definition payload_wf (p : InertPayload) : bool :=
  match p with PayloadArtifact _ => true | PayloadJson j => json_wf j end.

#[export] Instance payload_to_json : ToJson InertPayload := λ p,
  match p with PayloadArtifact a => to_json a | PayloadJson j => j end.

Record BoundArgument : Type := MkBoundArgument { arg_name : string; arg_value : json }.

Definition validate_name (name : string) : result unit :=
  raise_if (is_empty name) ValidationError "bound argument names cannot be empty".

Definition bound_argument_eqb (x y : BoundArgument) : bool :=
  (arg_name x ==? arg_name y) && json_eqb (arg_value x) (arg_value y).

Definition bound_argument_wf (a : BoundArgument) : bool := json_wf (arg_value a).

#[export] Instance BoundArgument_to_json : ToJson BoundArgument := λ a,
  JObject [("name", JString (arg_name a)); ("value", arg_value a)].

(** ** Scope, provenance, claims *)

Record Scope : Type := MkScope {
  scope_id : string;
  scope_binding_revision : string;
  scope_assumption_ids : list string;
  scope_applicability_guard_id : option string;
  scope_finite_universe_hash : option string;
  scope_closed_world : bool;
}.
#[export] Instance Scope_eq_dec : EqDecision Scope.
Proof. solve_decision. Defined.

#[export] Instance Scope_to_json : ToJson Scope := λ s,
  JObject [("id", to_json (scope_id s)); ("binding_revision", to_json (scope_binding_revision s));
           ("assumption_ids", to_json (scope_assumption_ids s));
           ("applicability_guard_id", to_json (scope_applicability_guard_id s));
           ("finite_universe_hash", to_json (scope_finite_universe_hash s));
           ("closed_world", to_json (scope_closed_world s))].

Definition validate_scope (s : Scope) : result unit :=
  raise_if (is_empty (scope_id s) || is_empty (scope_binding_revision s))
    ValidationError "scope id and binding revision are required";;
  raise_if (negb (uniq (scope_assumption_ids s)))
    ValidationError "scope assumptions must be unique";;
  raise_if (scope_closed_world s && is_none (scope_finite_universe_hash s))
    ValidationError "closed-world scopes require a finite-universe hash".

Definition scope_fingerprint (s : Scope) : string :=
  content_fingerprint "rci.scope.v1" (to_json s).

Record Provenance : Type := MkProvenance {
  prov_kind : string;
  prov_source_id : string;
  prov_source_revision : option string;
}.
#[export] Instance Provenance_eq_dec : EqDecision Provenance.
Proof. solve_decision. Defined.

#[export] Instance Provenance_to_json : ToJson Provenance := λ p,
  JObject [("kind", to_json (prov_kind p)); ("source_id", to_json (prov_source_id p));
           ("source_revision", to_json (prov_source_revision p))].

Definition validate_provenance (p : Provenance) : result unit :=
  raise_if (is_empty (prov_kind p) || is_empty (prov_source_id p))
    ValidationError "provenance kind and source id are required".

Record Claim : Type := MkClaim {
  claim_id : string;
  claim_role : ClaimRole;
  claim_bound_args : list BoundArgument;
  claim_payload : InertPayload;
  claim_scope : Scope;
  claim_provenance : Provenance;
  claim_status : ClaimStatus;
  claim_assessment : ClaimAssessment;
  claim_representation_level : RepresentationLevel;
  claim_parent_ids : list string;
  claim_proposition_id : option string;
  claim_polarity : Polarity;
}.

Definition claim_eqb (x y : Claim) : bool :=
  (claim_id x ==? claim_id y) && (claim_role x ==? claim_role y)
  && list_eqb bound_argument_eqb (claim_bound_args x) (claim_bound_args y)
  && payload_eqb (claim_payload x) (claim_payload y)
  && (claim_scope x ==? claim_scope y) && (claim_provenance x ==? claim_provenance y)
  && (claim_status x ==? claim_status y) && (claim_assessment x ==? claim_assessment y)
  && (claim_representation_level x ==? claim_representation_level y)
  && (claim_parent_ids x ==? claim_parent_ids y)
  && (claim_proposition_id x ==? claim_proposition_id y)
  && (claim_polarity x ==? claim_polarity y).

(** The JSON values of a claim are Python dictionaries: keys are distinct. *)
Definition claim_wf (c : Claim) : bool :=
  forallb bound_argument_wf (claim_bound_args c) && payload_wf (claim_payload c).

Definition validate_claim (c : Claim) : result unit :=
  raise_if (is_empty (claim_id c)) ValidationError "claim id is required";;
  raise_if (negb (uniq (map arg_name (claim_bound_args c))))
    ValidationError "bound argument names must be unique";;
  raise_if (negb (uniq (claim_parent_ids c)))
    ValidationError "parent claim ids must be unique";;
  raise_if (claim_representation_level c ==? L3_PROMOTED_VIEW)
    ValidationError "L3 is a linked warranted-lemma view, not a Claim mutation".

Definition structural_key (c : Claim) : option (string * ClaimRole * string * string) :=
  match claim_proposition_id c with
  | None => None
  | Some p =>
    if claim_polarity c ==? UNSPECIFIED then None
    else Some (p, claim_role c, canonical_json (to_json (claim_bound_args c)),
               scope_fingerprint (claim_scope c))
  end.

Record Conflict : Type := MkConflict {
  conflict_id : string;
  conflict_claim_ids : string * string;
  conflict_kind : ConflictKind;
  conflict_scope : Scope;
  conflict_proposition_id : option string;
}.
#[export] Instance Conflict_eq_dec : EqDecision Conflict.
Proof. solve_decision. Defined.

Definition validate_conflict (c : Conflict) : result unit :=
  raise_if ((conflict_claim_ids c).1 ==? (conflict_claim_ids c).2)
    ValidationError "a claim cannot conflict with itself";;
  raise_if (negb (canonical [(conflict_claim_ids c).1; (conflict_claim_ids c).2]))
    ValidationError "conflict claim ids must be sorted".

Record Obligation : Type := MkObligation {
  obl_id : string;
  obl_kind : ObligationKind;
  obl_carrier_id : string;
  obl_args : list BoundArgument;
  obl_scope : Scope;
  obl_binding_revision : string;
  obl_parent_obligation_ids : list string;
  obl_priority_vector : list Z;
  obl_status : ObligationStatus;
}.

Definition obligation_eqb (x y : Obligation) : bool :=
  (obl_id x ==? obl_id y) && (obl_kind x ==? obl_kind y)
  && (obl_carrier_id x ==? obl_carrier_id y)
  && list_eqb bound_argument_eqb (obl_args x) (obl_args y)
  && (obl_scope x ==? obl_scope y) && (obl_binding_revision x ==? obl_binding_revision y)
  && (obl_parent_obligation_ids x ==? obl_parent_obligation_ids y)
  && (obl_priority_vector x ==? obl_priority_vector y) && (obl_status x ==? obl_status y).

Definition obligation_wf (o : Obligation) : bool := forallb bound_argument_wf (obl_args o).

Definition validate_obligation (o : Obligation) : result unit :=
  raise_if (is_empty (obl_id o) || is_empty (obl_carrier_id o))
    ValidationError "obligation id and carrier id are required";;
  raise_if (obl_binding_revision o !=? scope_binding_revision (obl_scope o))
    ValidationError "obligation and scope binding revisions must match";;
  raise_if (negb (uniq (map arg_name (obl_args o))))
    ValidationError "obligation argument names must be unique";;
  raise_if (negb (uniq (obl_parent_obligation_ids o)))
    ValidationError "parent obligation ids must be unique".

Definition normalized_args (o : Obligation) : list BoundArgument :=
  sort_by (λ a, (arg_name a, canonical_json (arg_value a))) (obl_args o).

Definition obligation_fingerprint (o : Obligation) : string :=
  content_fingerprint "rci.obligation.v1"
    (JObject [("kind", JString (ObligationKind_value (obl_kind o)));
              ("args", to_json (normalized_args o));
              ("scope", JString (scope_fingerprint (obl_scope o)));
              ("binding_revision", JString (obl_binding_revision o))]).

(** ** Inert and append-only records *)

Record Candidate : Type := MkCandidate {
  cand_id : string;
  cand_kind : CandidateKind;
  cand_payload : InertPayload;
  cand_scope : Scope;
  cand_provenance : Provenance;
  cand_source_ids : list string;
}.

Definition candidate_eqb (x y : Candidate) : bool :=
  (cand_id x ==? cand_id y) && (cand_kind x ==? cand_kind y)
  && payload_eqb (cand_payload x) (cand_payload y) && (cand_scope x ==? cand_scope y)
  && (cand_provenance x ==? cand_provenance y) && (cand_source_ids x ==? cand_source_ids y).

Definition candidate_wf (c : Candidate) : bool := payload_wf (cand_payload c).

Definition validate_candidate (c : Candidate) : result unit :=
  raise_if (is_empty (cand_id c)) ValidationError "candidate identity is required";;
  raise_if (negb (uniq (cand_source_ids c)))
    ValidationError "candidate source references must be unique".

Record Residual : Type := MkResidual {
  resid_id : string;
  resid_carrier_id : string;
  resid_payload : InertPayload;
  resid_scope : Scope;
  resid_provenance : Provenance;
  resid_source_obligation_ids : list string;
}.

Definition residual_eqb (x y : Residual) : bool :=
  (resid_id x ==? resid_id y) && (resid_carrier_id x ==? resid_carrier_id y)
  && payload_eqb (resid_payload x) (resid_payload y) && (resid_scope x ==? resid_scope y)
  && (resid_provenance x ==? resid_provenance y)
  && (resid_source_obligation_ids x ==? resid_source_obligation_ids y).

Definition residual_wf (r : Residual) : bool := payload_wf (resid_payload r).

Definition validate_residual (r : Residual) : result unit :=
  raise_if (is_empty (resid_id r) || is_empty (resid_carrier_id r))
    ValidationError "residual identity and carrier are required";;
  raise_if (negb (uniq (resid_source_obligation_ids r)))
    ValidationError "residual obligation references must be unique".

Record Correction : Type := MkCorrection {
  corr_id : string;
  corr_kind : CorrectionKind;
  corr_target_id : string;
  corr_related_ids : list string;
  corr_scope : Scope;
  corr_provenance : Provenance;
}.
#[export] Instance Correction_eq_dec : EqDecision Correction.
Proof. solve_decision. Defined.

Definition validate_correction (c : Correction) : result unit :=
  raise_if (is_empty (corr_id c) || is_empty (corr_target_id c))
    ValidationError "correction identity and target are required";;
  raise_if (negb (uniq (corr_related_ids c)))
    ValidationError "correction relations must be unique";;
  raise_if (mem (corr_target_id c) (corr_related_ids c))
    ValidationError "a correction cannot relate an object to itself".

Record ObligationDisposition : Type := MkObligationDisposition {
  disp_id : string;
  disp_obligation_id : string;
  disp_status : ObligationStatus;
  disp_reason : string;
  disp_evidence_refs : list string;
  disp_predecessor_id : option string;
}.
#[export] Instance ObligationDisposition_eq_dec : EqDecision ObligationDisposition.
Proof. solve_decision. Defined.

Definition validate_disposition (d : ObligationDisposition) : result unit :=
  raise_if (is_empty (disp_id d) || is_empty (disp_obligation_id d) || is_empty (disp_reason d))
    ValidationError "obligation disposition identity, target, and reason are required";;
  raise_if (negb (uniq (disp_evidence_refs d)))
    ValidationError "obligation evidence references must be unique";;
  raise_if (disp_predecessor_id d ==? Some (disp_id d))
    ValidationError "an obligation disposition cannot succeed itself".

Record GuardChange : Type := MkGuardChange {
  guard_id : string;
  guard_condition_id : string;
  guard_scope_fingerprint : string;
  guard_standing : GuardStanding;
  guard_reason : string;
  guard_predecessor_id : option string;
}.
#[export] Instance GuardChange_eq_dec : EqDecision GuardChange.
Proof. solve_decision. Defined.

Definition validate_guard_change (g : GuardChange) : result unit :=
  raise_if (is_empty (guard_id g) || is_empty (guard_condition_id g)
            || is_empty (guard_scope_fingerprint g) || is_empty (guard_reason g))
    ValidationError "guard change identity, condition, scope, and reason are required";;
  raise_if (guard_predecessor_id g ==? Some (guard_id g))
    ValidationError "a guard change cannot succeed itself".

(** ** [claims/logic.py] *)

Definition ATTACK_BY_ROLE (r : ClaimRole) : option ObligationKind :=
  match r with
  | NECESSITY => Some NECESSITY_COUNTEREXAMPLE
  | SUFFICIENCY => Some SUFFICIENCY_COUNTEREXAMPLE
  | PREREQUISITE => Some PREREQUISITE_BYPASS
  | _ => None
  end.

Definition bind_l0_answer (question_contract_id : string) (role : ClaimRole)
    (answer : InertPayload) (bound_args : list BoundArgument) (scope : Scope)
    (provenance : Provenance) (claim_id : option string) : result Claim :=
  let material :=
    JObject [("contract", JString question_contract_id);
             ("role", JString (ClaimRole_value role));
             ("answer", to_json answer); ("bound_args", to_json bound_args);
             ("scope", JString (scope_fingerprint scope)); ("provenance", to_json provenance)] in
  let derived := "clm_" +:+ prefix 24 (content_fingerprint "rci.claim.l0.v1" material) in
  let stable_id := match claim_id with
                   | Some i => if is_empty i then derived else i
                   | None => derived
                   end in
  let c := MkClaim stable_id role bound_args answer scope provenance PROVISIONAL UNASSESSED
             L0_OPAQUE [] None UNSPECIFIED in
  validate_claim c;; Ok c.

Definition polarities_oppose (l r : Polarity) : bool :=
  match l, r with
  | POSITIVE, NEGATIVE | NEGATIVE, POSITIVE => true
  | _, _ => false
  end.

Definition structural_conflict (left right : Claim) : result (option Conflict) :=
  if is_none (structural_key left) || (structural_key left !=? structural_key right) then Ok None
  else if negb (polarities_oppose (claim_polarity left) (claim_polarity right)) then Ok None
  else
    let ids := match sorted [claim_id left; claim_id right] with
               | [a; b] => (a, b)
               | _ => (claim_id left, claim_id right)
               end in
    let c := MkConflict
               ("cnf_" +:+ prefix 24 (content_fingerprint "rci.conflict.v1"
                                        (to_json [ids.1; ids.2])))
               ids STRUCTURAL_POLARITY (claim_scope left) (claim_proposition_id left) in
    validate_conflict c;; Ok (Some c).

Definition conflict_obligation (c : Conflict) : result Obligation :=
  let args := [MkBoundArgument "left_claim_id" (JString (conflict_claim_ids c).1);
               MkBoundArgument "right_claim_id" (JString (conflict_claim_ids c).2)] in
  let o := MkObligation
             ("obl_" +:+ prefix 24 (content_fingerprint "rci.obligation.conflict.v1"
                                      (JString (conflict_id c))))
             LOCALIZE_CONFLICT (conflict_id c) args (conflict_scope c)
             (scope_binding_revision (conflict_scope c)) [] [100%Z] OPEN in
  validate_obligation o;; Ok o.

Definition mandatory_attack_obligation (c : Claim) : result (option Obligation) :=
  match ATTACK_BY_ROLE (claim_role c) with
  | None => Ok None
  | Some kind =>
    if claim_polarity c ==? NEGATIVE then Ok None
    else
      let carrier_id := match claim_proposition_id c with
                        | Some p => if is_empty p then claim_id c else p
                        | None => claim_id c
                        end in
      let argument_name :=
        if is_some (claim_proposition_id c) then "proposition_id" else "claim_id" in
      let material := JObject [("carrier", JString carrier_id);
                               ("kind", JString (ObligationKind_value kind));
                               ("scope", JString (scope_fingerprint (claim_scope c)))] in
      let o := MkObligation
                 ("obl_" +:+ prefix 24 (content_fingerprint "rci.obligation.attack.v1" material))
                 kind carrier_id [MkBoundArgument argument_name (JString carrier_id)]
                 (claim_scope c) (scope_binding_revision (claim_scope c)) [] [90%Z] OPEN in
      validate_obligation o;; Ok (Some o)
  end.

(** ** Lemmas *)

Lemma list_eqb_refl {A} (eqb : A → A → bool) l :
  (∀ x, x ∈ l → eqb x x = true) → list_eqb eqb l l = true.
Proof.
  induction l as [|x l IH]; [done|]. intros H. cbn. rewrite H by constructor.
  apply IH. intros y Hy. apply H. by constructor.
Qed.

Lemma payload_eqb_refl p : payload_wf p = true → payload_eqb p p = true.
Proof. destruct p; cbn; intros; [by apply bool_decide_true|by apply json_eqb_refl]. Qed.

Lemma args_eqb_refl l :
  forallb bound_argument_wf l = true → list_eqb bound_argument_eqb l l = true.
Proof.
  rewrite all_true. intros Hwf. apply list_eqb_refl. intros x Hx.
  unfold bound_argument_eqb. rewrite bool_decide_true by done. by apply json_eqb_refl, Hwf.
Qed.

Ltac eqb_refl_tac :=
  repeat (rewrite bool_decide_true by done);
  rewrite ?andb_true_l, ?andb_true_r;
  auto using args_eqb_refl, payload_eqb_refl with bool.

Lemma claim_eqb_refl c : claim_wf c = true → claim_eqb c c = true.
Proof.
  intros [Ha Hp]%andb_true_iff. unfold claim_eqb.
  rewrite args_eqb_refl, payload_eqb_refl by done. eqb_refl_tac.
Qed.

Lemma obligation_eqb_refl o : obligation_wf o = true → obligation_eqb o o = true.
Proof. intros Ha. unfold obligation_eqb. rewrite args_eqb_refl by done. eqb_refl_tac. Qed.

Lemma candidate_eqb_refl c : candidate_wf c = true → candidate_eqb c c = true.
Proof. intros Ha. unfold candidate_eqb. rewrite payload_eqb_refl by done. eqb_refl_tac. Qed.

Lemma residual_eqb_refl c : residual_wf c = true → residual_eqb c c = true.
Proof. intros Ha. unfold residual_eqb. rewrite payload_eqb_refl by done. eqb_refl_tac. Qed.

(** The two claims a conflict names are those it was derived from. *)
Lemma structural_conflict_Some l r c :
  structural_conflict l r = Ok (Some c) →
  structural_key l = structural_key r ∧ is_some (structural_key l) = true ∧
  polarities_oppose (claim_polarity l) (claim_polarity r) = true ∧
  sorted [claim_id l; claim_id r] = [(conflict_claim_ids c).1; (conflict_claim_ids c).2] ∧
  conflict_scope c = claim_scope l ∧
  conflict_id c = "cnf_" +:+ prefix 24 (content_fingerprint "rci.conflict.v1"
      (to_json (sorted [claim_id l; claim_id r]))) ∧
  validate_conflict c = Ok tt.
Proof.
  unfold structural_conflict. destruct (_ || _) eqn:E1; [done|].
  destruct (negb (polarities_oppose _ _)) eqn:E2; [done|]. intros H.
  apply orb_false_iff in E1 as [E1 E1']. rewrite neqb_false in E1'.
  apply negb_false_iff in E2.
  assert (Hl : ∃ a b, sorted [claim_id l; claim_id r] = [a; b]).
  { pose proof (length_sort_by (λ x : string, x) [claim_id l; claim_id r]) as Hlen.
    unfold sorted. destruct (sort_by _ _) as [|a [|b [|]]]; try done. eauto. }
  destruct Hl as (a & b & Hab). rewrite Hab in *. cbn [fst snd] in H.
  apply bind_ok in H as ([] & Hv & [= <-]). cbn.
  unfold is_some. rewrite E1. by split_and!.
Qed.

(** Which side is called left does not matter for the identity of a conflict. *)
Lemma structural_conflict_comm l r c d :
  structural_conflict l r = Ok (Some c) → structural_conflict r l = Ok (Some d) →
  conflict_id c = conflict_id d ∧ conflict_claim_ids c = conflict_claim_ids d.
Proof.
  intros (_&_&_&Hc&_&Hci&_)%structural_conflict_Some (_&_&_&Hd&_&Hdi&_)%structural_conflict_Some.
  rewrite Hci, Hdi.
  assert (Hs : sorted [claim_id l; claim_id r] = sorted [claim_id r; claim_id l]).
  { destruct (decide (claim_id l = claim_id r)) as [->|Hne]; [done|].
    apply sort_by_unique; [|by apply Permutation_swap].
    cbn. constructor; [set_solver|]. apply NoDup_singleton. }
  rewrite Hs in Hc |- *. split; [done|]. rewrite Hc in Hd. destruct (conflict_claim_ids c),
    (conflict_claim_ids d). by injection Hd as -> ->.
Qed.

Lemma conflict_obligation_Ok c o :
  conflict_obligation c = Ok o →
  obl_scope o = conflict_scope c ∧ obl_parent_obligation_ids o = [] ∧ obl_status o = OPEN ∧
  obl_binding_revision o = scope_binding_revision (obl_scope o) ∧ obligation_wf o = true ∧
  obl_kind o = LOCALIZE_CONFLICT ∧ obl_carrier_id o = conflict_id c.
Proof.
  unfold conflict_obligation. intros (? & _ & [= <-])%bind_ok. done.
Qed.

Lemma mandatory_attack_obligation_Ok c o :
  mandatory_attack_obligation c = Ok (Some o) →
  ATTACK_BY_ROLE (claim_role c) = Some (obl_kind o) ∧ claim_polarity c ≠ NEGATIVE ∧
  obl_scope o = claim_scope c ∧ obl_parent_obligation_ids o = [] ∧ obl_status o = OPEN ∧
  obl_binding_revision o = scope_binding_revision (obl_scope o) ∧ obligation_wf o = true.
Proof.
  unfold mandatory_attack_obligation. destruct (ATTACK_BY_ROLE _); [|done].
  destruct (_ ==? _) eqn:E; [done|]. apply eqb_false in E.
  intros (? & _ & [= <-])%bind_ok. split_and!; done.
Qed.
