(* ===== verification/Formal.v ===== *)
(** * Bounded formulas: [src/rci/formal] and [src/rci/bindings/circuit.py]

    The formula language of [formal/ast.py] with its short-circuiting
    interpreter, the exhaustive checker of [formal/exhaustive.py] and the
    eight-state reference circuit.  [evaluate] raises [EvaluationError] exactly
    where the code does, so its result type is [result bool]. *)

From S2P Require Import Prelude Digest.

(** ** [formal/ast.py] *)

(** [type Scalar = bool | str] *)
Inductive Scalar : Type := SBool (b : bool) | SStr (s : string).
#[export] Instance Scalar_eq_dec : EqDecision Scalar.
Proof. solve_decision. Defined.

Abbreviation Environment := (gmap string Scalar).

Inductive Formula : Type :=
| BoolLiteral (value : bool)
| Symbol (name : string)
| EnumEquals (symbol value : string)
| FNot (operand : Formula)
| FAnd (operands : list Formula)
| FOr (operands : list Formula)
| Implies (antecedent consequent : Formula)
| Equivalence (left right : Formula).

Section formula_ind.
Variable P : Formula → Prop.
Hypothesis Hlit : ∀ b, P (BoolLiteral b).
Hypothesis Hsym : ∀ n, P (Symbol n).
Hypothesis Henum : ∀ s v, P (EnumEquals s v).
Hypothesis Hnot : ∀ f, P f → P (FNot f).
Hypothesis Hand : ∀ l, Forall P l → P (FAnd l).
Hypothesis Hor : ∀ l, Forall P l → P (FOr l).
Hypothesis Himp : ∀ f g, P f → P g → P (Implies f g).
Hypothesis Hequiv : ∀ f g, P f → P g → P (Equivalence f g).

Fixpoint Formula_nested_ind (f : Formula) : P f :=
  let fix go l : Forall P l :=
    match l with
    | [] => List.Forall_nil _
    | f :: l => List.Forall_cons _ _ _ (Formula_nested_ind f) (go l)
    end in
  match f with
  | BoolLiteral b => Hlit b
  | Symbol n => Hsym n
  | EnumEquals s v => Henum s v
  | FNot f => Hnot f (Formula_nested_ind f)
  | FAnd l => Hand l (go l)
  | FOr l => Hor l (go l)
  | Implies f g => Himp f g (Formula_nested_ind f) (Formula_nested_ind g)
  | Equivalence f g => Hequiv f g (Formula_nested_ind f) (Formula_nested_ind g)
  end.
End formula_ind.

(** The construction-time checks of the nodes. *)
Fixpoint formula_valid (f : Formula) : bool :=
  match f with
  | BoolLiteral _ => true
  | Symbol n => negb (n ==? "")
  | EnumEquals s v => negb (s ==? "") && negb (v ==? "")
  | FNot f => formula_valid f
  | FAnd l | FOr l => match l with [] => false | _ => forallb formula_valid l end
  | Implies f g | Equivalence f g => formula_valid f && formula_valid g
  end.

(** [all(e(x) for x in l)] and [any(e(x) for x in l)]: evaluation stops at the
    first operand that decides, and an exception propagates. *)
Definition all_of {A} (e : A → result bool) : list A → result bool :=
  fix go l := match l with
              | [] => Ok true
              | x :: l => b ← e x; if (b : bool) then go l else Ok false
              end.
Definition any_of {A} (e : A → result bool) : list A → result bool :=
  fix go l := match l with
              | [] => Ok false
              | x :: l => b ← e x; if (b : bool) then Ok true else go l
              end.

Fixpoint evaluate (f : Formula) (env : Environment) {struct f} : result bool :=
  match f with
  | BoolLiteral b => Ok b
  | Symbol n =>
    match env !! n with
    | Some (SBool b) => Ok b
    | _ => raise EvaluationError "symbol is absent or not Boolean"
    end
  | EnumEquals s v =>
    match env !! s with
    | Some (SStr t) => Ok (t ==? v)
    | _ => raise EvaluationError "symbol is absent or not a finite enum"
    end
  | FNot f => b ← evaluate f env; Ok (negb b)
  | FAnd l => all_of (λ f, evaluate f env) l
  | FOr l => any_of (λ f, evaluate f env) l
  | Implies f g =>
    b ← evaluate f env;
    if negb b then Ok true else evaluate g env
  | Equivalence f g =>
    a ← evaluate f env; b ← evaluate g env; Ok (Bool.eqb a b)
  end.

Fixpoint formula_symbols (f : Formula) : gset string :=
  match f with
  | BoolLiteral _ => ∅
  | Symbol n => {[n]}
  | EnumEquals s _ => {[s]}
  | FNot f => formula_symbols f
  | FAnd l | FOr l => ⋃ (map formula_symbols l)
  | Implies f g | Equivalence f g => formula_symbols f ∪ formula_symbols g
  end.

(** ** [formal/exhaustive.py] *)

Inductive AttackProfile : Type :=
| ATTACK_NECESSITY | ATTACK_SUFFICIENCY | ATTACK_PREREQUISITE
| ATTACK_LOCALIZATION | ATTACK_GENERALIZATION | ATTACK_ACTUALIZATION.

Inductive ExhaustiveVerdict : Type := SAT | UNSAT | VERDICT_UNKNOWN.
#[export] Instance ExhaustiveVerdict_eq_dec : EqDecision ExhaustiveVerdict.
Proof. solve_decision. Defined.

(** An [Assignment] is a tuple of [AssignmentValue]s. *)
Abbreviation Assignment := (list (string * Scalar)).

Definition as_environment (a : Assignment) : Environment :=
  foldl (λ m sv, <[sv.1 := sv.2]> m) ∅ a.

Record FiniteDomain : Type := MkFiniteDomain {
  dom_symbol : string;
  dom_values : list Scalar;
}.

Definition is_bool (v : Scalar) : bool := match v with SBool _ => true | SStr _ => false end.

Definition validate_domain (d : FiniteDomain) : result unit :=
  raise_if ((dom_symbol d ==? "") || (dom_values d ==? []))
    ValidationError "finite domains require a symbol and at least one value";;
  raise_if (negb (uniq (dom_values d)))
    ValidationError "finite domain values must be unique";;
  raise_if (negb (forallb is_bool (dom_values d) || forallb (λ v, negb (is_bool v)) (dom_values d)))
    ValidationError "each domain must be uniformly Boolean or string-enum".

Record FiniteUniverse : Type := MkFiniteUniverse {
  uni_id : string;
  uni_revision : string;
  uni_domains : list FiniteDomain;
  uni_closed_world : bool;
}.

Definition validate_universe (u : FiniteUniverse) : result unit :=
  raise_if ((uni_id u ==? "") || (uni_revision u ==? "") || (length (uni_domains u) =? 0)%nat)
    ValidationError "finite-universe identity, revision, and domains are required";;
  raise_if (negb (uniq (map dom_symbol (uni_domains u))))
    ValidationError "finite-universe symbols must be unique";;
  raise_if (negb (canonical (map dom_symbol (uni_domains u))))
    ValidationError "finite-universe domains must use canonical symbol order".

Definition assignment_count (u : FiniteUniverse) : Z :=
  foldr (λ d n, Z.of_nat (length (dom_values d)) * n)%Z 1%Z (uni_domains u).

#[export] Instance Scalar_to_json : ToJson Scalar := λ v,
  match v with SBool b => JBool b | SStr s => JString s end.
#[export] Instance FiniteDomain_to_json : ToJson FiniteDomain := λ d,
  JObject [("symbol", to_json (dom_symbol d)); ("values", to_json (dom_values d))].
#[export] Instance FiniteUniverse_to_json : ToJson FiniteUniverse := λ u,
  JObject [("id", to_json (uni_id u)); ("revision", to_json (uni_revision u));
           ("domains", to_json (uni_domains u)); ("closed_world", to_json (uni_closed_world u))].

Definition universe_fingerprint (u : FiniteUniverse) : string :=
  content_fingerprint "rci.finite-universe.v1" (to_json u).

Record ExhaustiveResult : Type := MkExhaustiveResult {
  res_verdict : ExhaustiveVerdict;
  res_universe_id : string;
  res_universe_revision : string;
  res_universe_fingerprint : string;
  res_closed_world : bool;
  res_assignments_checked : Z;
  res_witness : option Assignment;
  res_reason : option string;
}.

Definition validate_result (r : ExhaustiveResult) : result unit :=
  raise_if ((res_verdict r ==? SAT) && is_none (res_witness r))
    ValidationError "SAT results require a witness";;
  raise_if ((res_verdict r !=? SAT) && is_some (res_witness r))
    ValidationError "only SAT results may carry a witness";;
  raise_if ((res_verdict r ==? VERDICT_UNKNOWN) && is_none (res_reason r))
    ValidationError "unknown results require a reason".

Definition hard_unsat_eligible (r : ExhaustiveResult) : bool :=
  (res_verdict r ==? UNSAT) && res_closed_world r.

(** [itertools.product]: the last sequence varies fastest. *)
Fixpoint product {A} (ls : list (list A)) : list (list A) :=
  match ls with
  | [] => [[]]
  | l :: ls => x ← l; rest ← product ls; [x :: rest]
  end.

Definition enumerate_assignments (u : FiniteUniverse) : list Assignment :=
  map (λ combination, zip (map dom_symbol (uni_domains u)) combination)
      (product (map dom_values (uni_domains u))).

Definition make_result (u : FiniteUniverse) (v : ExhaustiveVerdict) (checked : Z)
    (w : option Assignment) (reason : option string) : result ExhaustiveResult :=
  let r := MkExhaustiveResult v (uni_id u) (uni_revision u) (universe_fingerprint u)
             (uni_closed_world u) checked w reason in
  validate_result r;; Ok r.

(** The [for assignment in enumerate_assignments(universe)] loop. *)
Fixpoint search (f : Formula) (u : FiniteUniverse) (l : list Assignment) (checked : Z) :
    result ExhaustiveResult :=
  match l with
  | [] => make_result u UNSAT checked None None
  | a :: l =>
    b ← evaluate f (as_environment a);
    if (b : bool) then make_result u SAT (checked + 1) (Some a) None
    else search f u l (checked + 1)
  end.

Definition exhaustive_check (f : Formula) (u : FiniteUniverse) (max_assignments : Z) :
    result ExhaustiveResult :=
  raise_if (max_assignments <? 1)%Z ValueError "max_assignments must be positive";;
  if (assignment_count u >? max_assignments)%Z then
    make_result u VERDICT_UNKNOWN 0 None (Some "assignment_budget_exceeded")
  else
    let missing := formula_symbols f ∖ list_to_set (map dom_symbol (uni_domains u)) in
    if bool_decide (missing ≠ ∅) then
      make_result u VERDICT_UNKNOWN 0 None
        (Some ("unbound_symbols:" +:+ join "," (sorted (elements missing))))
    else search f u (enumerate_assignments u) 0.

Definition counterexample_formula (p : AttackProfile) (proposed_condition protected_consequence : Formula)
    : Formula :=
  match p with
  | ATTACK_NECESSITY | ATTACK_PREREQUISITE => FAnd [protected_consequence; FNot proposed_condition]
  | _ => FAnd [proposed_condition; FNot protected_consequence]
  end.

Definition implication_attack (p : AttackProfile) (proposed_condition protected_consequence : Formula)
    (u : FiniteUniverse) (max_assignments : Z) : result ExhaustiveResult :=
  exhaustive_check (counterexample_formula p proposed_condition protected_consequence) u max_assignments.

(** ** [bindings/circuit.py] *)

Record CircuitState : Type := MkCircuitState {
  main_power : bool; backup_power : bool; switch_closed : bool; lamp_on : bool;
}.

Definition circuit_states : list CircuitState :=
  combination ← product [[false; true]; [false; true]; [false; true]];
  match combination with
  | [bp; mp; sc] => [MkCircuitState mp bp sc (sc && (mp || bp))]
  | _ => []
  end.

Definition bool_domain (s : string) : FiniteDomain := MkFiniteDomain s [SBool false; SBool true].

Definition circuit_universe : FiniteUniverse :=
  MkFiniteUniverse "reference-circuit" "1"
    [bool_domain "backup_power"; bool_domain "main_power"; bool_domain "switch_closed"] true.

Record CircuitDemonstration : Type := MkCircuitDemonstration {
  demo_states : list CircuitState;
  main_power_necessity_attack : ExhaustiveResult;
  available_power_sufficiency_attack : ExhaustiveResult;
  switch_closed_necessity_attack : ExhaustiveResult;
}.

Definition expected_findings_hold (d : CircuitDemonstration) : bool :=
  (length (demo_states d) =? 8)%nat
  && (res_verdict (main_power_necessity_attack d) ==? SAT)
  && (res_verdict (available_power_sufficiency_attack d) ==? SAT)
  && (res_verdict (switch_closed_necessity_attack d) ==? UNSAT)
  && hard_unsat_eligible (switch_closed_necessity_attack d).

Definition available_power : Formula := FOr [Symbol "main_power"; Symbol "backup_power"].
Definition lamp_formula : Formula := FAnd [Symbol "switch_closed"; available_power].

Definition circuit_demonstration : result CircuitDemonstration :=
  a ← implication_attack ATTACK_NECESSITY (Symbol "main_power") lamp_formula circuit_universe 4096;
  b ← implication_attack ATTACK_SUFFICIENCY available_power lamp_formula circuit_universe 4096;
  c ← implication_attack ATTACK_NECESSITY (Symbol "switch_closed") lamp_formula circuit_universe 4096;
  Ok (MkCircuitDemonstration circuit_states a b c).

(** ** Specification vocabulary *)

(** [env] gives every symbol of the universe one of its values. *)
Definition drawn_from (u : FiniteUniverse) (env : Environment) : Prop :=
  ∀ d, d ∈ uni_domains u → ∃ v, v ∈ dom_values d ∧ env !! dom_symbol d = Some v.

(** The symbols of [f] are bound by domains of the kind their use needs. *)
Fixpoint well_typed (u : FiniteUniverse) (f : Formula) : bool :=
  match f with
  | BoolLiteral _ => true
  | Symbol n =>
    existsb (λ d, (dom_symbol d ==? n) && forallb is_bool (dom_values d)) (uni_domains u)
  | EnumEquals n _ =>
    existsb (λ d, (dom_symbol d ==? n) && forallb (λ v, negb (is_bool v)) (dom_values d))
      (uni_domains u)
  | FNot f => well_typed u f
  | FAnd l | FOr l => forallb (well_typed u) l
  | Implies f g | Equivalence f g => well_typed u f && well_typed u g
  end.

(** What the verdict of a complete search promises. *)
Definition verdict_sound (f : Formula) (u : FiniteUniverse) (r : ExhaustiveResult) : Prop :=
  match res_verdict r with
  | SAT => ∃ a, res_witness r = Some a ∧ a ∈ enumerate_assignments u ∧
                drawn_from u (as_environment a) ∧ evaluate f (as_environment a) = Ok true
  | UNSAT => res_witness r = None ∧ res_assignments_checked r = assignment_count u ∧
             ∀ env, drawn_from u env → evaluate f env = Ok false
  | VERDICT_UNKNOWN => False
  end.

(** ** Evaluation *)

Lemma all_of_ext {A} (e e' : A → result bool) l :
  (∀ x, x ∈ l → e x = e' x) → all_of e l = all_of e' l.
Proof.
  induction l as [|x l IH]; [done|]. intros H. cbn. rewrite H by constructor.
  rewrite IH; [done|]. intros y Hy. apply H. by constructor.
Qed.

Lemma any_of_ext {A} (e e' : A → result bool) l :
  (∀ x, x ∈ l → e x = e' x) → any_of e l = any_of e' l.
Proof.
  induction l as [|x l IH]; [done|]. intros H. cbn. rewrite H by constructor.
  rewrite IH; [done|]. intros y Hy. apply H. by constructor.
Qed.

Lemma all_of_total {A} (e : A → result bool) l :
  (∀ x, x ∈ l → ∃ b, e x = Ok b) → ∃ b, all_of e l = Ok b.
Proof.
  induction l as [|x l IH]; [by eexists|]. intros H. cbn.
  destruct (H x) as [b ->]; [constructor|]. cbn. destruct b; [|by eexists].
  apply IH. intros y Hy. apply H. by constructor.
Qed.

Lemma any_of_total {A} (e : A → result bool) l :
  (∀ x, x ∈ l → ∃ b, e x = Ok b) → ∃ b, any_of e l = Ok b.
Proof.
  induction l as [|x l IH]; [by eexists|]. intros H. cbn.
  destruct (H x) as [b ->]; [constructor|]. cbn. destruct b; [by eexists|].
  apply IH. intros y Hy. apply H. by constructor.
Qed.

Lemma elem_of_union_map {A} (g : A → gset string) l n :
  n ∈ ⋃ (map g l) ↔ ∃ x, x ∈ l ∧ n ∈ g x.
Proof.
  rewrite elem_of_union_list. setoid_rewrite list_elem_of_fmap. naive_solver.
Qed.

(** Only the symbols of a formula matter to its value. *)
Lemma evaluate_ext f env env' :
  (∀ n, n ∈ formula_symbols f → env !! n = env' !! n) → evaluate f env = evaluate f env'.
Proof.
  induction f as [b|n|n v|f IH|l IH|l IH|f g IHf IHg|f g IHf IHg] using Formula_nested_ind;
    cbn; intros H; rewrite ?Forall_forall in *.
  - done.
  - by rewrite H by set_solver.
  - by rewrite H by set_solver.
  - by rewrite IH.
  - apply all_of_ext. intros x Hx. apply IH; [done|]. intros n Hn. apply H.
    apply elem_of_union_map. eauto.
  - apply any_of_ext. intros x Hx. apply IH; [done|]. intros n Hn. apply H.
    apply elem_of_union_map. eauto.
  - rewrite IHf, IHg; set_solver.
  - rewrite IHf, IHg; set_solver.
Qed.

Lemma evaluate_total u f env :
  drawn_from u env → well_typed u f = true → ∃ b, evaluate f env = Ok b.
Proof.
  intros Hd.
  induction f as [b|n|n v|f IH|l IH|l IH|f g IHf IHg|f g IHf IHg] using Formula_nested_ind;
    cbn; intros H; rewrite ?Forall_forall in *.
  - by eexists.
  - apply any_true in H as (d & Hin & [Hn%bool_decide_eq_true_1 Hb]%andb_true_iff).
    destruct (Hd d Hin) as (v & Hv & E). rewrite Hn in E. rewrite E.
    rewrite all_true in Hb. specialize (Hb v Hv). destruct v; [by eexists|done].
  - apply any_true in H as (d & Hin & [Hn%bool_decide_eq_true_1 Hb]%andb_true_iff).
    destruct (Hd d Hin) as (w & Hv & E). rewrite Hn in E. rewrite E.
    rewrite all_true in Hb. specialize (Hb w Hv). destruct w; [done|by eexists].
  - destruct (IH H) as [b ->]. by eexists.
  - rewrite all_true in H. apply all_of_total. auto.
  - rewrite all_true in H. apply any_of_total. auto.
  - apply andb_true_iff in H as [Hf Hg]. destruct (IHf Hf) as [b ->], (IHg Hg) as [c ->].
    destruct b; by eexists.
  - apply andb_true_iff in H as [Hf Hg]. destruct (IHf Hf) as [b ->], (IHg Hg) as [c ->].
    by eexists.
Qed.

Lemma well_typed_symbols u f n :
  well_typed u f = true → n ∈ formula_symbols f → n ∈ map dom_symbol (uni_domains u).
Proof.
  induction f as [b|m|m v|f IH|l IH|l IH|f g IHf IHg|f g IHf IHg] using Formula_nested_ind;
    cbn; intros H Hn; rewrite ?Forall_forall in *.
  - set_solver.
  - apply any_true in H as (d & Hin & [Hd%bool_decide_eq_true_1 _]%andb_true_iff).
    apply elem_of_singleton in Hn as ->. apply list_elem_of_fmap. by exists d.
  - apply any_true in H as (d & Hin & [Hd%bool_decide_eq_true_1 _]%andb_true_iff).
    apply elem_of_singleton in Hn as ->. apply list_elem_of_fmap. by exists d.
  - auto.
  - apply elem_of_union_map in Hn as (x & Hx & Hn). rewrite all_true in H. eauto.
  - apply elem_of_union_map in Hn as (x & Hx & Hn). rewrite all_true in H. eauto.
  - apply andb_true_iff in H as [??]. set_solver.
  - apply andb_true_iff in H as [??]. set_solver.
Qed.

(** ** Enumeration *)

Lemma elem_of_product {A} (ls : list (list A)) c :
  c ∈ product ls ↔ Forall2 (λ x l, x ∈ l) c ls.
Proof.
  revert c. induction ls as [|l ls IH]; intros c; cbn.
  - rewrite list_elem_of_singleton. split; [by intros ->|by inversion 1].
  - rewrite list_elem_of_bind. split.
    + intros (x & Hc & Hx). apply list_elem_of_bind in Hc as (rest & Hc & Hr).
      apply list_elem_of_singleton in Hc as ->. constructor; [done|]. by apply IH.
    + inversion 1 as [|x ? rest ? Hx Hrest]; subst. exists x. split; [|done].
      apply list_elem_of_bind. exists rest. split; [by constructor|]. by apply IH.
Qed.

Lemma length_product_bind {A} (l : list A) (rs : list (list A)) :
  length (x ← l; rest ← rs; [x :: rest]) = (length l * length rs)%nat.
Proof.
  assert (H : ∀ x, length (rest ← rs; [x :: rest]) = length rs).
  { intros x. induction rs as [|r rs IH]; [done|]. cbn. by f_equal. }
  induction l as [|x l IH]; [done|].
  change (length ((rest ← rs; [x :: rest]) ++ (x ← l; rest ← rs; [x :: rest])) = S (length l) * length rs).
  by rewrite length_app, H, IH.
Qed.

Lemma length_product {A} (ls : list (list A)) :
  Z.of_nat (length (product ls)) = foldr (λ l n, Z.of_nat (length l) * n)%Z 1%Z ls.
Proof. induction ls as [|l ls IH]; [done|]. cbn. rewrite length_product_bind, <-IH. lia. Qed.

Lemma length_enumerate_assignments u :
  Z.of_nat (length (enumerate_assignments u)) = assignment_count u.
Proof.
  unfold enumerate_assignments, assignment_count. rewrite length_map, length_product.
  by induction (uni_domains u) as [|d l IH]; [|cbn; rewrite IH].
Qed.

Lemma as_environment_foldl (a : Assignment) m s :
  NoDup (map fst a) →
  foldl (λ (m : Environment) sv, <[sv.1 := sv.2]> m) m a !! s
  = match list_find (λ sv, sv.1 = s) a with Some (_, sv) => Some sv.2 | None => m !! s end.
Proof.
  revert m. induction a as [|[n v] a IH]; intros m; [done|]. cbn [map fst].
  intros [Hn Hnd]%NoDup_cons. cbn [foldl list_find fst snd]. rewrite IH by done.
  destruct (decide (n = s)) as [->|Hne].
  - destruct (list_find _ a) as [[i sv]|] eqn:E.
    + apply list_find_Some in E as (Hi & Hs & _). destruct Hn.
      apply list_elem_of_fmap. exists sv. split; [by symmetry|]. by eapply list_elem_of_lookup_2.
    + cbn. by rewrite lookup_insert_eq.
  - rewrite lookup_insert_ne by done. by destruct (list_find _ a) as [[i sv]|].
Qed.

Lemma as_environment_zip (ns : list string) (vs : list Scalar) s v :
  NoDup ns → length ns = length vs →
  as_environment (zip ns vs) !! s = Some v ↔ (s, v) ∈ zip ns vs.
Proof.
  intros Hnd Hlen. unfold as_environment.
  assert (Hz : map fst (zip ns vs) = ns) by (apply fst_zip; lia).
  rewrite as_environment_foldl by by rewrite Hz. split.
  - destruct (list_find _ _) as [[i sv]|] eqn:E; [|by rewrite lookup_empty].
    apply list_find_Some in E as (Hi & Hs & _). intros [= <-].
    destruct sv as [s' v']. cbn in Hs. subst. by eapply list_elem_of_lookup_2.
  - intros Hin. destruct (list_find_elem_of (λ sv, sv.1 = s) _ _ Hin eq_refl) as [[i sv] E].
    rewrite E. apply list_find_Some in E as (Hi & Hs & _). destruct sv as [s' v'].
    cbn in Hs. subst s'. f_equal. apply list_elem_of_lookup_2 in Hi. cbn.
    assert ((s, v') = (s, v)) as [= ->]; [|done].
    eapply (key_inj_of_NoDup fst (zip ns vs)); [|done..]. change (fst <$> zip ns vs) with
      (map fst (zip ns vs)). by rewrite Hz.
Qed.

Section enumeration.
Context (u : FiniteUniverse) (Hu : NoDup (map dom_symbol (uni_domains u))).

Lemma elem_of_zip_domains ds c d :
  Forall2 (λ x l, x ∈ l) c (map dom_values ds) → d ∈ ds →
  ∃ v, v ∈ dom_values d ∧ (dom_symbol d, v) ∈ zip (map dom_symbol ds) c.
Proof.
  revert c. induction ds as [|d' ds IH]; intros c; [by intros _ ?%not_elem_of_nil|].
  inversion 1 as [|v ? c' ? Hv Hc']; subst. intros [->|Hd]%elem_of_cons; cbn.
  - exists v. split; [done|constructor].
  - destruct (IH c' Hc' Hd) as (w & Hw & Hin). exists w. split; [done|by constructor].
Qed.

Lemma enumerate_sound a : a ∈ enumerate_assignments u → drawn_from u (as_environment a).
Proof.
  unfold enumerate_assignments. intros (c & -> & Hc)%list_elem_of_fmap d Hd.
  apply elem_of_product in Hc. pose proof (Forall2_length _ _ _ Hc) as Hlen.
  rewrite length_map in Hlen.
  destruct (elem_of_zip_domains _ c d Hc Hd) as (v & Hv & Hin). exists v. split; [done|].
  apply as_environment_zip; [done| |done]. by rewrite length_map.
Qed.

Lemma enumerate_complete env :
  drawn_from u env →
  ∃ a, a ∈ enumerate_assignments u ∧
       ∀ n, n ∈ map dom_symbol (uni_domains u) → as_environment a !! n = env !! n.
Proof.
  intros Hd.
  assert (∃ c, Forall2 (λ x l, x ∈ l) c (map dom_values (uni_domains u)) ∧
    ∀ n v, (n, v) ∈ zip (map dom_symbol (uni_domains u)) c → env !! n = Some v) as (c & Hc & Hv).
  { clear Hu. unfold drawn_from in Hd. induction (uni_domains u) as [|d ds IH]; cbn.
    - exists []. split; [constructor|]. by intros n v ?%not_elem_of_nil.
    - destruct IH as (c & Hc & Hv); [intros d' ?; apply Hd; by constructor|].
      destruct (Hd d) as (w & Hw & E); [constructor|]. exists (w :: c).
      split; [by constructor|]. cbn. intros n v [[= -> ->]|?]%elem_of_cons; auto. }
  exists (zip (map dom_symbol (uni_domains u)) c). split.
  - unfold enumerate_assignments. apply list_elem_of_fmap. exists c. split; [done|].
    by apply elem_of_product.
  - intros n (d & -> & Hdin)%list_elem_of_fmap.
    pose proof (Forall2_length _ _ _ Hc) as Hlen. rewrite length_map in Hlen.
    destruct (elem_of_zip_domains _ c d Hc Hdin) as (v & _ & Hin).
    rewrite (Hv _ _ Hin). apply as_environment_zip; [done| |done]. by rewrite length_map.
Qed.
End enumeration.

Lemma validate_universe_NoDup u :
  validate_universe u = Ok tt → NoDup (map dom_symbol (uni_domains u)).
Proof. unfold validate_universe. intros H. inv_ok H. by apply nuniq_false. Qed.

(** ** The search loop *)

Lemma search_spec f u l n :
  (∀ a, a ∈ l → ∃ b, evaluate f (as_environment a) = Ok b) →
  ∃ r, search f u l n = Ok r ∧
    ((∃ l1 a l2, l = l1 ++ a :: l2 ∧ evaluate f (as_environment a) = Ok true ∧
        (∀ a', a' ∈ l1 → evaluate f (as_environment a') = Ok false) ∧
        res_verdict r = SAT ∧ res_witness r = Some a ∧
        res_assignments_checked r = (n + Z.of_nat (length l1) + 1)%Z)
     ∨ (res_verdict r = UNSAT ∧ res_witness r = None ∧
        res_assignments_checked r = (n + Z.of_nat (length l))%Z ∧
        ∀ a, a ∈ l → evaluate f (as_environment a) = Ok false)).
Proof.
  revert n. induction l as [|a l IH]; intros n H; cbn [search].
  - eexists. split; [reflexivity|]. right. cbn. split_and!; [done..|lia|].
    by intros a ?%not_elem_of_nil.
  - destruct (H a) as [b Hb]; [constructor|]. rewrite Hb. cbn. destruct b.
    + eexists. split; [reflexivity|]. left. exists [], a, l. cbn. split_and!; try done; [|lia].
      by intros a' ?%not_elem_of_nil.
    + destruct (IH (n + 1)%Z) as (r & -> & Hr); [intros a' ?; apply H; by constructor|].
      exists r. split; [done|].
      destruct Hr as [(l1 & a' & l2 & -> & Ht & Hf & Hv & Hw & Hc)|(Hv & Hw & Hc & Hf)].
      * left. exists (a :: l1), a', l2. cbn. split_and!; try done; [|lia].
        intros a'' [->|?]%elem_of_cons; auto.
      * right. cbn. split_and!; try done; [lia|]. intros a'' [->|?]%elem_of_cons; auto.
Qed.

Lemma exhaustive_check_search f u n :
  well_typed u f = true → (1 ≤ n)%Z → (assignment_count u ≤ n)%Z →
  exhaustive_check f u n = search f u (enumerate_assignments u) 0.
Proof.
  intros Ht Hn Hc. unfold exhaustive_check.
  rewrite (proj2 (Z.ltb_ge n 1)) by done. cbn [raise_if mbind result_bind].
  replace (assignment_count u >? n)%Z with false by (symmetry; rewrite Z.gtb_ltb; apply Z.ltb_ge; lia).
  rewrite (bool_decide_false (_ ≠ ∅)); [done|].
  intros Hne. apply Hne. apply elem_of_equiv_empty_L. intros s Hs.
  apply elem_of_difference in Hs as [Hs Hns]. apply Hns. apply elem_of_list_to_set.
  by eapply well_typed_symbols.
Qed.

Lemma exhaustive_check_complete f u n :
  validate_universe u = Ok tt → well_typed u f = true →
  (1 ≤ n)%Z → (assignment_count u ≤ n)%Z →
  ∃ r, exhaustive_check f u n = Ok r ∧ verdict_sound f u r.
Proof.
  intros Hu%validate_universe_NoDup Ht Hn Hc. rewrite exhaustive_check_search by done.
  destruct (search_spec f u (enumerate_assignments u) 0) as (r & -> & Hr).
  { intros a Ha. eapply evaluate_total; [|done]. by apply enumerate_sound. }
  exists r. split; [done|]. unfold verdict_sound.
  destruct Hr as [(l1 & a & l2 & Hl & Htrue & _ & -> & Hw & _)|(-> & Hw & Hck & Hf)].
  - exists a. assert (a ∈ enumerate_assignments u) by (rewrite Hl; set_solver).
    split_and!; try done. by apply enumerate_sound.
  - split_and!; [done|rewrite Hck; apply length_enumerate_assignments|].
    intros env Henv. destruct (enumerate_complete u Hu env Henv) as (a & Ha & Heq).
    rewrite <-(Hf a Ha). apply evaluate_ext. intros s Hs. symmetry. apply Heq.
    by eapply well_typed_symbols.
Qed.

Lemma make_result_Ok u v n w rs r :
  make_result u v n w rs = Ok r →
  r = MkExhaustiveResult v (uni_id u) (uni_revision u) (universe_fingerprint u)
        (uni_closed_world u) n w rs.
Proof. unfold make_result. intros ([] & _ & [= <-])%bind_ok. done. Qed.

Lemma search_closed_world f u l n r :
  search f u l n = Ok r → res_closed_world r = uni_closed_world u.
Proof.
  revert n. induction l as [|a l IH]; cbn; intros n H.
  - by apply make_result_Ok in H as ->.
  - apply bind_ok in H as ([] & _ & H); [by apply make_result_Ok in H as ->|by eapply IH].
Qed.

Lemma exhaustive_check_closed_world f u n r :
  exhaustive_check f u n = Ok r → res_closed_world r = uni_closed_world u.
Proof.
  unfold exhaustive_check. intros [_ H]%raise_if_bind. revert H.
  destruct (_ >? _)%Z; [by intros ->%make_result_Ok|].
  cbv zeta. destruct (bool_decide _); [by intros ->%make_result_Ok|]. apply search_closed_world.
Qed.

(** What an attack of profile [p] tries to refute at [env]. *)
Definition attacked_implication (p : AttackProfile) (condition consequence : Formula)
    (env : Environment) : Prop :=
  match p with
  | ATTACK_NECESSITY | ATTACK_PREREQUISITE =>
    evaluate consequence env = Ok true → evaluate condition env = Ok true
  | _ => evaluate condition env = Ok true → evaluate consequence env = Ok true
  end.

Lemma evaluate_counterexample u p c k env :
  drawn_from u env → well_typed u c = true → well_typed u k = true →
  evaluate (counterexample_formula p c k) env = Ok false ↔ attacked_implication p c k env.
Proof.
  intros Hd Hc Hk. destruct (evaluate_total u c env Hd Hc) as [b Hb],
    (evaluate_total u k env Hd Hk) as [b' Hb'].
  destruct p; cbn; rewrite ?Hb, ?Hb'; destruct b, b'; cbn; rewrite ?Hb, ?Hb'; cbn;
    intuition congruence.
Qed.

Lemma well_typed_counterexample u p c k :
  well_typed u c = true → well_typed u k = true →
  well_typed u (counterexample_formula p c k) = true.
Proof. by destruct p; cbn; intros -> ->. Qed.

(** ** Properties *)

(** Within budget, over a valid universe that types both formulas, an
    implication attack never raises and never answers unknown; it is hard-UNSAT
    eligible exactly when the universe is closed and the attacked implication
    holds at every environment of the universe, and otherwise a SAT verdict
    carries an enumerated assignment refuting the implication. *)
Theorem implication_attack_decides p c k u n :
  validate_universe u = Ok tt → well_typed u c = true → well_typed u k = true →
  (1 ≤ n)%Z → (assignment_count u ≤ n)%Z →
  ∃ r, implication_attack p c k u n = Ok r ∧
    (hard_unsat_eligible r = true ↔
       uni_closed_world u = true ∧ ∀ env, drawn_from u env → attacked_implication p c k env) ∧
    (res_verdict r = SAT ↔ ¬ ∀ env, drawn_from u env → attacked_implication p c k env) ∧
    (∀ a, res_witness r = Some a →
       a ∈ enumerate_assignments u ∧ drawn_from u (as_environment a) ∧
       ¬ attacked_implication p c k (as_environment a)).
Proof.
  intros Hu Hc Hk Hn Hb.
  pose proof (well_typed_counterexample u p c k Hc Hk) as Ht.
  destruct (exhaustive_check_complete _ u n Hu Ht Hn Hb) as (r & Hr & Hs).
  exists r. split; [done|].
  pose proof (exhaustive_check_closed_world _ _ _ _ Hr) as Hcw.
  unfold hard_unsat_eligible. rewrite Hcw. unfold verdict_sound in Hs.
  destruct (res_verdict r); [| |done].
  - destruct Hs as (a & Hw & Ha & Hd & He).
    assert (Hna : ¬ attacked_implication p c k (as_environment a)).
    { intros H%(evaluate_counterexample u p c k _ Hd Hc Hk). congruence. }
    split_and!.
    + split; [done|]. intros [_ H]. destruct Hna. auto.
    + split; [|done]. intros _ H. destruct Hna. auto.
    + rewrite Hw. by intros a' [= <-].
  - destruct Hs as (Hw & _ & Hf).
    assert (Hall : ∀ env, drawn_from u env → attacked_implication p c k env).
    { intros env Henv. by apply (evaluate_counterexample u p c k _ Henv Hc Hk), Hf. }
    split_and!.
    + cbn. split; [by split|by intros [-> _]].
    + split; [done|]. intros H. by destruct H.
    + by rewrite Hw.
Qed.

Lemma implication_attack_decides_witness :
  ∃ r, implication_attack ATTACK_NECESSITY (Symbol "switch_closed") lamp_formula
         circuit_universe 4096 = Ok r.
Proof.
  edestruct (implication_attack_decides ATTACK_NECESSITY (Symbol "switch_closed") lamp_formula
    circuit_universe 4096) as (r & Hr & _).
  - vm_compute. reflexivity.
  - vm_compute. reflexivity.
  - vm_compute. reflexivity.
  - lia.
  - vm_compute. discriminate.
  - exists r. exact Hr.
Defined.

(** The search stops at the first satisfying assignment of the enumeration
    order and counts exactly the assignments it evaluated; without one it
    evaluates them all. *)
Theorem exhaustive_check_first_witness f u n :
  validate_universe u = Ok tt → well_typed u f = true →
  (1 ≤ n)%Z → (assignment_count u ≤ n)%Z →
  ∃ r, exhaustive_check f u n = Ok r ∧
    ((∃ l1 a l2, enumerate_assignments u = l1 ++ a :: l2 ∧
        evaluate f (as_environment a) = Ok true ∧
        (∀ a', a' ∈ l1 → evaluate f (as_environment a') = Ok false) ∧
        res_verdict r = SAT ∧ res_witness r = Some a ∧
        res_assignments_checked r = (Z.of_nat (length l1) + 1)%Z) ∨
     (res_verdict r = UNSAT ∧ res_assignments_checked r = assignment_count u)).
Proof.
  intros Hu Ht Hn Hc. rewrite exhaustive_check_search by done.
  apply validate_universe_NoDup in Hu.
  destruct (search_spec f u (enumerate_assignments u) 0) as (r & -> & Hr).
  { intros a Ha. eapply evaluate_total; [|done]. by apply enumerate_sound. }
  exists r. split; [done|].
  destruct Hr as [(l1 & a & l2 & ? & ? & ? & ? & ? & ?)|(? & ? & Hck & _)].
  - left. exists l1, a, l2. by split_and!.
  - right. split; [done|]. by rewrite Hck, <-length_enumerate_assignments.
Qed.

Lemma exhaustive_check_first_witness_witness :
  ∃ r, exhaustive_check (FNot (Symbol "main_power")) circuit_universe 8 = Ok r.
Proof.
  edestruct (exhaustive_check_first_witness (FNot (Symbol "main_power")) circuit_universe 8)
    as (r & Hr & _).
  - vm_compute. reflexivity.
  - vm_compute. reflexivity.
  - lia.
  - vm_compute. discriminate.
  - exists r. exact Hr.
Defined.

(** The reference circuit's demonstration reports what it is expected to:
    main power is not necessary and available power not sufficient for the
    lamp, and the closed switch is hard-UNSAT necessary over all eight states. *)
Theorem circuit_demonstration_expected :
  ∃ d, circuit_demonstration = Ok d ∧ expected_findings_hold d = true ∧
    ∀ s, s ∈ demo_states d ↔
         lamp_on s = switch_closed s && (main_power s || backup_power s).
Proof.
  eexists. split; [vm_compute; reflexivity|]. split; [vm_compute; reflexivity|].
  intros [mp bp sc lo]. cbn. split.
  - intros H. repeat (apply elem_of_cons in H as [[= -> -> -> ->]|H]; [done|]).
    by apply not_elem_of_nil in H.
  - intros ->. destruct mp, bp, sc; cbn; set_solver.
Qed.

(** ** Types *)

Fixpoint subformulas (f : Formula) : list Formula :=
  f :: match f with
       | BoolLiteral _ | Symbol _ | EnumEquals _ _ => []
       | FNot f => subformulas f
       | FAnd l | FOr l => flat_map subformulas l
       | Implies f g | Equivalence f g => subformulas f ++ subformulas g
       end.

Lemma subformulas_self f : f ∈ subformulas f.
Proof. destruct f; cbn; left. Qed.

(** The environment of the first values. *)
Definition first_environment (u : FiniteUniverse) : Environment :=
  list_to_map (map (λ d, (dom_symbol d, default (SBool true) (head (dom_values d)))) (uni_domains u)).

Section typing.
Context (u : FiniteUniverse) (Hu : validate_universe u = Ok tt)
        (Hd : ∀ d, d ∈ uni_domains u → validate_domain d = Ok tt).

Lemma domain_nonempty d : d ∈ uni_domains u → ∃ v vs, dom_values d = v :: vs.
Proof.
  intros H%Hd. unfold validate_domain in H. rewrite raise_if_bind in H. destruct H as [H _].
  rewrite orb_false_iff, !eqb_false in H. destruct H as [_ H]. destruct (dom_values d) as [|v vs]; [done|eauto].
Qed.

Lemma domain_uniform d :
  d ∈ uni_domains u → forallb is_bool (dom_values d) = true ∨ forallb (λ v, negb (is_bool v)) (dom_values d) = true.
Proof.
  intros H%Hd. unfold validate_domain in H. rewrite !raise_if_bind, raise_if_ok in H.
  destruct H as (_ & _ & H%negb_false_iff%orb_true_iff). done.
Qed.

Lemma first_environment_drawn : drawn_from u (first_environment u).
Proof.
  intros d Hin. destruct (domain_nonempty d Hin) as (v & vs & E). exists v. split; [rewrite E; left|].
  unfold first_environment. apply elem_of_list_to_map_1.
  - rewrite <-list_fmap_compose. unfold validate_universe in Hu. rewrite !raise_if_bind, nuniq_false in Hu.
    destruct Hu as (_ & Hn & _). done.
  - apply elem_of_map. exists d. split; [done|]. by rewrite E.
Qed.

Lemma first_environment_only n v : first_environment u !! n = Some v → ∃ d, d ∈ uni_domains u ∧ dom_symbol d = n.
Proof.
  intros H%elem_of_list_to_map_2. apply elem_of_map in H as (d & Hin & [= -> ->]). eauto.
Qed.

(** A symbol that evaluates in every drawn environment has a domain of its kind. *)
Lemma symbol_typed n kind (other : Scalar → bool) :
  (∀ v, other v = negb (kind v)) →
  (∀ d, d ∈ uni_domains u → forallb kind (dom_values d) = true ∨ forallb other (dom_values d) = true) →
  (∃ v, first_environment u !! n = Some v ∧ kind v = true) →
  existsb (λ d, (dom_symbol d ==? n) && forallb kind (dom_values d)) (uni_domains u) = true.
Proof.
  intros Ho Huni (v & Hv & Hk). destruct (first_environment_only n v Hv) as (d & Hin & Hn).
  apply any_true. exists d. split; [done|]. rewrite bool_decide_true by done. cbn.
  destruct (Huni d Hin) as [H|H]; [done|exfalso]. rewrite all_true in H.
  destruct (first_environment_drawn d Hin) as (w & Hw & E). rewrite Hn, Hv in E. injection E as <-.
  specialize (H v Hw). rewrite Ho, Hk in H. done.
Qed.

(** C26: The sorting of formulas is exact: over a valid universe a formula is well
    typed if and only if it and each of its subformulas evaluates without
    error in every environment drawn from the domains. *)
Theorem well_typed_exact f :
  well_typed u f = true ↔
  ∀ g, g ∈ subformulas f → ∀ env, drawn_from u env → ∃ b, evaluate g env = Ok b.
Proof.
  split.
  - induction f as [b|n|n v|f IH|l IH|l IH|f g IHf IHg|f g IHf IHg] using Formula_nested_ind; cbn [subformulas];
      intros Ht h [->|Hh]%elem_of_cons env He; try (by eapply evaluate_total); cbn in Ht, Hh;
      rewrite ?Forall_forall in *; rewrite ?andb_true_iff, ?all_true in Ht;
      try (by apply not_elem_of_nil in Hh); eauto.
    + apply elem_of_flat_map in Hh as (x & Hx & Hh). eauto.
    + apply elem_of_flat_map in Hh as (x & Hx & Hh). eauto.
    + apply elem_of_app in Hh as [Hh|Hh]; [eapply IHf|eapply IHg]; eauto; tauto.
    + apply elem_of_app in Hh as [Hh|Hh]; [eapply IHf|eapply IHg]; eauto; tauto.
  - induction f as [b|n|n v|f IH|l IH|l IH|f g IHf IHg|f g IHf IHg] using Formula_nested_ind;
      cbn [subformulas well_typed]; intros H; rewrite ?Forall_forall in *; [done| | | | | | |].
    + destruct (H (Symbol n) ltac:(left) _ first_environment_drawn) as [b Hb]. cbn in Hb.
      apply (symbol_typed n is_bool (λ v, negb (is_bool v))); [done|apply domain_uniform|].
      destruct (first_environment u !! n) as [[c|c]|]; [|done..]. eauto.
    + destruct (H (EnumEquals n v) ltac:(left) _ first_environment_drawn) as [b Hb]. cbn in Hb.
      apply (symbol_typed n (λ v, negb (is_bool v)) is_bool).
      * intros w. by rewrite negb_involutive.
      * intros d Hin. apply or_comm. by apply domain_uniform.
      * destruct (first_environment u !! n) as [[c|c]|]; [done| |done]. eauto.
    + apply IH. intros g Hg. apply H. by right.
    + apply all_true. intros x Hx. apply IH; [done|]. intros g Hg. apply H. right.
      apply elem_of_flat_map. eauto.
    + apply all_true. intros x Hx. apply IH; [done|]. intros g Hg. apply H. right.
      apply elem_of_flat_map. eauto.
    + apply andb_true_iff. split; [apply IHf|apply IHg]; intros h Hh; apply H; right; apply elem_of_app; tauto.
    + apply andb_true_iff. split; [apply IHf|apply IHg]; intros h Hh; apply H; right; apply elem_of_app; tauto.
Qed.
End typing.

Lemma well_typed_exact_witness :
  (validate_universe circuit_universe = Ok tt ∧ well_typed circuit_universe lamp_formula = true)
  ∧ ∃ b, evaluate lamp_formula (first_environment circuit_universe) = Ok b.
Proof.
  assert (∀ d, d ∈ uni_domains circuit_universe → validate_domain d = Ok tt) as Hd.
  { apply Forall_forall. repeat constructor. }
  split; [by vm_compute|].
  apply (proj1 (well_typed_exact circuit_universe eq_refl Hd lamp_formula) eq_refl).
  - apply subformulas_self.
  - by apply first_environment_drawn.
Defined.
