(* ===== verification/Warrant.v ===== *)
(** * Evidence, checks and support records: [src/rci/warrant/models.py], [checks.py]

    The immutable records of the warrant layer with their validators, and the
    fail-closed resolution of recorded evidence/check pairs.  Resolution returns
    the code's pair of a verdict and a reason. *)

From S2P Require Import Prelude Digest Model Claims.

(** ** Enumerations *)

Inductive CheckerVerdict : Type :=
| VALID | INVALID | INDETERMINATE | TIMEOUT | UNSUPPORTED | FAILED.
#[export] Instance CheckerVerdict_eq_dec : EqDecision CheckerVerdict.
Proof. solve_decision. Defined.

Inductive WarrantClass : Type := WC_NONE | SOFT | SOLVER_TRUSTED | HARD.
#[export] Instance WarrantClass_eq_dec : EqDecision WarrantClass.
Proof. solve_decision. Defined.

Inductive SupportStanding : Type := STANDING | WITHDRAWN.
#[export] Instance SupportStanding_eq_dec : EqDecision SupportStanding.
Proof. solve_decision. Defined.

Inductive EvidenceKind : Type :=
| MODEL_OUTPUT | REIFICATION | HEURISTIC | RETRIEVAL | EV_OBSERVATION
| INDEPENDENT_WITNESS | EXHAUSTIVE_UNSAT | Z3_UNSAT.
#[export] Instance EvidenceKind_eq_dec : EqDecision EvidenceKind.
Proof. solve_decision. Defined.

Inductive PropositionKind : Type := EXISTENTIAL | UNIVERSAL | RELATION.
#[export] Instance PropositionKind_eq_dec : EqDecision PropositionKind.
Proof. solve_decision. Defined.

(** ** Records *)

Record Applicability : Type := MkApplicability {
  app_condition_id : string;
  app_required_context_ids : list string;
}.
#[export] Instance Applicability_eq_dec : EqDecision Applicability.
Proof. solve_decision. Defined.

Definition validate_applicability (a : Applicability) : result unit :=
  raise_if (is_empty (app_condition_id a))
    ValidationError "applicability condition identity is required";;
  raise_if (negb (uniq (app_required_context_ids a)))
    ValidationError "applicability context ids must be unique".

Record CheckReference : Type := MkCheckReference {
  ref_evidence_id : string;
  ref_checker_verdict_id : string;
}.
#[export] Instance CheckReference_eq_dec : EqDecision CheckReference.
Proof. solve_decision. Defined.

Definition validate_reference (r : CheckReference) : result unit :=
  raise_if (is_empty (ref_evidence_id r) || is_empty (ref_checker_verdict_id r))
    ValidationError "check references require evidence and checker-verdict identities".

Record SupportEnvironment : Type := MkSupportEnvironment {
  env_id : string;
  env_scope_fingerprint : string;
  env_binding_revision : string;
  env_assumption_ids : list string;
  env_finite_universe_hash : option string;
  env_realizability_check : CheckReference;
}.
#[export] Instance SupportEnvironment_eq_dec : EqDecision SupportEnvironment.
Proof. solve_decision. Defined.

Definition validate_environment (e : SupportEnvironment) : result unit :=
  raise_if (is_empty (env_id e) || is_empty (env_scope_fingerprint e)
            || is_empty (env_binding_revision e))
    ValidationError "support environment identity, scope, and binding are required";;
  raise_if (negb (uniq (env_assumption_ids e)))
    ValidationError "support assumptions must be unique";;
  raise_if (negb (canonical (env_assumption_ids e)))
    ValidationError "support assumptions must use canonical order".

Record Nogood : Type := MkNogood {
  ng_id : string;
  ng_scope_fingerprint : string;
  ng_binding_revision : string;
  ng_finite_universe_hash : option string;
  ng_policy_version : string;
  ng_incompatible_assumption_ids : list string;
  ng_check : CheckReference;
  ng_warrant_decision_id : string;
  ng_reason : string;
}.
#[export] Instance Nogood_eq_dec : EqDecision Nogood.
Proof. solve_decision. Defined.

Definition validate_nogood (n : Nogood) : result unit :=
  raise_if (existsb is_empty [ng_id n; ng_scope_fingerprint n; ng_binding_revision n;
                              ng_policy_version n; ng_warrant_decision_id n]
            || is_nil (ng_incompatible_assumption_ids n))
    ValidationError "nogoods require identity, scope, binding, policy, warrant, and assumptions";;
  raise_if (is_empty (ng_reason n)) ValidationError "nogoods require a reason";;
  raise_if (negb (uniq (ng_incompatible_assumption_ids n)))
    ValidationError "nogood assumptions must be unique";;
  raise_if (negb (canonical (ng_incompatible_assumption_ids n)))
    ValidationError "nogood assumptions must use canonical order".

Record SupportRouteStandingChange : Type := MkSupportRouteStandingChange {
  rsc_id : string;
  rsc_support_route_id : string;
  rsc_standing : SupportStanding;
  rsc_reason : string;
  rsc_predecessor_id : option string;
}.
#[export] Instance SupportRouteStandingChange_eq_dec : EqDecision SupportRouteStandingChange.
Proof. solve_decision. Defined.

Definition validate_route_change (c : SupportRouteStandingChange) : result unit :=
  raise_if (is_empty (rsc_id c) || is_empty (rsc_support_route_id c) || is_empty (rsc_reason c))
    ValidationError "support-route standing changes require identity, route, and reason";;
  raise_if (rsc_predecessor_id c ==? Some (rsc_id c))
    ValidationError "a standing change cannot succeed itself".

Record NogoodStandingChange : Type := MkNogoodStandingChange {
  nsc_id : string;
  nsc_nogood_id : string;
  nsc_standing : SupportStanding;
  nsc_reason : string;
  nsc_predecessor_id : option string;
}.
#[export] Instance NogoodStandingChange_eq_dec : EqDecision NogoodStandingChange.
Proof. solve_decision. Defined.

Definition validate_nogood_change (c : NogoodStandingChange) : result unit :=
  raise_if (is_empty (nsc_id c) || is_empty (nsc_nogood_id c) || is_empty (nsc_reason c))
    ValidationError "nogood standing changes require identity, nogood, and reason";;
  raise_if (nsc_predecessor_id c ==? Some (nsc_id c))
    ValidationError "a standing change cannot succeed itself".

Record SupportRoute : Type := MkSupportRoute {
  route_id : string;
  route_conclusion_id : string;
  route_environment : SupportEnvironment;
  route_required_dependency_ids : list string;
  route_open_dependency_ids : list string;
  route_certificate_check : CheckReference;
  route_warrant_refs : list string;
  route_justification_refs : list string;
  route_provenance_refs : list string;
}.
#[export] Instance SupportRoute_eq_dec : EqDecision SupportRoute.
Proof. solve_decision. Defined.

Definition validate_route (r : SupportRoute) : result unit :=
  raise_if (is_empty (route_id r) || is_empty (route_conclusion_id r))
    ValidationError "support route and conclusion identity are required";;
  raise_if (negb (forallb uniq [route_required_dependency_ids r; route_open_dependency_ids r;
                                route_warrant_refs r; route_justification_refs r;
                                route_provenance_refs r]))
    ValidationError "support-route reference collections must be unique";;
  raise_if (negb (canonical (route_required_dependency_ids r)))
    ValidationError "required dependencies must use canonical order";;
  raise_if (negb (canonical (route_open_dependency_ids r)))
    ValidationError "open dependencies must use canonical order";;
  raise_if (negb (subset (route_open_dependency_ids r) (route_required_dependency_ids r)))
    ValidationError "open dependencies must be a subset of required dependencies".

Record Evidence : Type := MkEvidence {
  ev_id : string;
  ev_kind : EvidenceKind;
  ev_proposition_id : string;
  ev_proposition_kind : PropositionKind;
  ev_scope_fingerprint : string;
  ev_artifact : ArtifactRef;
  ev_closed_finite_universe : bool;
  ev_finite_universe_hash : option string;
}.
#[export] Instance Evidence_eq_dec : EqDecision Evidence.
Proof. solve_decision. Defined.

Definition validate_evidence (e : Evidence) : result unit :=
  raise_if (is_empty (ev_id e) || is_empty (ev_proposition_id e) || is_empty (ev_scope_fingerprint e))
    ValidationError "evidence identity, proposition, and scope are required";;
  raise_if (ev_closed_finite_universe e && is_none (ev_finite_universe_hash e))
    ValidationError "closed-finite evidence requires an exact universe hash".

Record CheckerVerdictRecord : Type := MkCheckerVerdictRecord {
  cv_id : string;
  cv_evidence_id : string;
  cv_evidence_artifact : ArtifactRef;
  cv_proposition_id : string;
  cv_proposition_kind : PropositionKind;
  cv_scope_fingerprint : string;
  cv_checker_id : string;
  cv_checker_version : string;
  cv_verdict : CheckerVerdict;
  cv_verdict_artifact : ArtifactRef;
  cv_certificate_artifact : option ArtifactRef;
}.
#[export] Instance CheckerVerdictRecord_eq_dec : EqDecision CheckerVerdictRecord.
Proof. solve_decision. Defined.

Definition validate_verdict (v : CheckerVerdictRecord) : result unit :=
  raise_if (existsb is_empty [cv_id v; cv_evidence_id v; cv_proposition_id v;
                              cv_scope_fingerprint v; cv_checker_id v; cv_checker_version v])
    ValidationError "checker verdict identity, evidence, proposition, scope, and checker are required";;
  raise_if ((cv_verdict v ==? VALID) && is_none (cv_certificate_artifact v))
    ValidationError "valid checker verdicts require an exact certificate artifact".

Record LemmaVersion : Type := MkLemmaVersion {
  lv_id : string;
  lv_relation_id : string;
  lv_proposition_kind : PropositionKind;
  lv_scope : Scope;
  lv_applicability : Applicability;
  lv_source_claim_ids : list string;
  lv_predecessor_refs : list string;
}.
#[export] Instance LemmaVersion_eq_dec : EqDecision LemmaVersion.
Proof. solve_decision. Defined.

Definition validate_version (v : LemmaVersion) : result unit :=
  raise_if (is_empty (lv_id v) || is_empty (lv_relation_id v))
    ValidationError "lemma version and relation identity are required";;
  raise_if (mem (lv_id v) (lv_predecessor_refs v))
    ValidationError "a lemma version cannot succeed itself";;
  raise_if (negb (uniq (lv_predecessor_refs v)))
    ValidationError "predecessor references must be unique";;
  raise_if (negb (uniq (lv_source_claim_ids v)))
    ValidationError "source claim references must be unique".

Record LemmaSupport : Type := MkLemmaSupport {
  ls_lemma_version_id : string;
  ls_policy_version : string;
  ls_support_routes : list SupportRoute;
  ls_historical_support_routes : list SupportRoute;
  ls_warrant_class : WarrantClass;
  ls_certificate_refs : list string;
  ls_provenance_refs : list string;
}.
#[export] Instance LemmaSupport_eq_dec : EqDecision LemmaSupport.
Proof. solve_decision. Defined.

Definition all_support_routes (s : LemmaSupport) : list SupportRoute :=
  ls_support_routes s ++ ls_historical_support_routes s.

Definition assumptions (r : SupportRoute) : list string :=
  env_assumption_ids (route_environment r).

(** [left < right] on frozensets *)
Definition strict_subset (l r : list string) : bool := subset l r && negb (subset r l).

(** The double loop over [environments] finds two comparable entries. *)
Fixpoint comparable_pair (l : list (list string)) : bool :=
  match l with
  | [] => false
  | x :: l => existsb (λ y, strict_subset x y || strict_subset y x) l || comparable_pair l
  end.

Definition validate_support (s : LemmaSupport) : result unit :=
  raise_if (is_empty (ls_policy_version s))
    ValidationError "lemma support requires an exact warrant-policy version";;
  raise_if (is_nil (ls_support_routes s))
    ValidationError "lemma support requires at least one route";;
  raise_if (negb (uniq (map route_id (all_support_routes s))))
    ValidationError "support route identities must be unique";;
  raise_if (existsb (λ r, route_conclusion_id r !=? ls_lemma_version_id s) (all_support_routes s))
    ValidationError "every support route must name its lemma conclusion";;
  raise_if (comparable_pair (map assumptions (ls_support_routes s)))
    ValidationError "support environments must form a minimal antichain";;
  raise_if (existsb (λ h, negb (existsb (λ c, subset (assumptions c) (assumptions h))
                                        (ls_support_routes s)))
                    (ls_historical_support_routes s))
    ValidationError "historical support routes must be initially dominated or equivalent";;
  raise_if (negb (forallb uniq [ls_certificate_refs s; ls_provenance_refs s]))
    ValidationError "lemma support references must be unique".

Record WarrantedLemma : Type := MkWarrantedLemma {
  wl_version : LemmaVersion;
  wl_support : LemmaSupport;
}.
#[export] Instance WarrantedLemma_eq_dec : EqDecision WarrantedLemma.
Proof. solve_decision. Defined.

Definition wl_id (l : WarrantedLemma) : string := lv_id (wl_version l).

(** The environment is exactly inside the scope. *)
Definition environment_matches (e : SupportEnvironment) (s : Scope) : bool :=
  (env_scope_fingerprint e ==? scope_fingerprint s)
  && (env_binding_revision e ==? scope_binding_revision s)
  && (env_finite_universe_hash e ==? scope_finite_universe_hash s).

Definition validate_join (l : WarrantedLemma) : result unit :=
  raise_if (lv_id (wl_version l) !=? ls_lemma_version_id (wl_support l))
    ValidationError "lemma version and support owner do not refer to one object";;
  raise_if (existsb (λ r, negb (environment_matches (route_environment r) (lv_scope (wl_version l))))
                    (all_support_routes (wl_support l)))
    ValidationError "support routes must remain inside the lemma's exact scope/binding/universe".

Record WarrantDecisionRecord : Type := MkWarrantDecisionRecord {
  wd_id : string;
  wd_evidence_id : string;
  wd_checker_verdict_id : string;
  wd_proposition_id : string;
  wd_proposition_kind : PropositionKind;
  wd_scope_fingerprint : string;
  wd_warrant_class : WarrantClass;
  wd_reason : string;
  wd_policy_version : string;
}.
#[export] Instance WarrantDecisionRecord_eq_dec : EqDecision WarrantDecisionRecord.
Proof. solve_decision. Defined.

Definition validate_warrant_decision (d : WarrantDecisionRecord) : result unit :=
  raise_if (existsb is_empty [wd_id d; wd_evidence_id d; wd_checker_verdict_id d;
                              wd_proposition_id d; wd_scope_fingerprint d; wd_reason d;
                              wd_policy_version d])
    ValidationError "warrant decision identity, scope, reason, and policy are required".

Record PromotionLink : Type := MkPromotionLink {
  pl_id : string;
  pl_lemma_version_id : string;
  pl_source_claim_ids : list string;
  pl_warrant_decision_id : string;
}.
#[export] Instance PromotionLink_eq_dec : EqDecision PromotionLink.
Proof. solve_decision. Defined.

Definition validate_link (l : PromotionLink) : result unit :=
  raise_if (is_empty (pl_id l) || is_empty (pl_lemma_version_id l)
            || is_empty (pl_warrant_decision_id l))
    ValidationError "promotion link identity, lemma, and decision are required";;
  raise_if (is_nil (pl_source_claim_ids l))
    ValidationError "promotion must preserve at least one source claim";;
  raise_if (negb (uniq (pl_source_claim_ids l)))
    ValidationError "promotion source claim references must be unique".

Record ActiveLemmaView : Type := MkActiveLemmaView {
  view_lemma_version_id : string;
  view_relation_id : string;
  view_standing_support_route_id : string;
  view_standing_support_route_ids : list string;
  view_scope_fingerprint : string;
  view_binding_revision : string;
  view_finite_universe_hash : option string;
  view_policy_version : string;
}.
#[export] Instance ActiveLemmaView_eq_dec : EqDecision ActiveLemmaView.
Proof. solve_decision. Defined.

Definition validate_routes (v : ActiveLemmaView) : result unit :=
  raise_if (is_nil (view_standing_support_route_ids v))
    ValidationError "active lemma views require at least one standing minimal route";;
  raise_if (Some (view_standing_support_route_id v) !=? head (view_standing_support_route_ids v))
    ValidationError "the primary standing route must be the first minimal route";;
  raise_if (negb (uniq (view_standing_support_route_ids v)))
    ValidationError "active minimal support route identities must be unique".

Record TheorySelector : Type := MkTheorySelector {
  sel_scope_fingerprint : string;
  sel_binding_revision : string;
  sel_finite_universe_hash : option string;
  sel_policy_version : string;
  sel_current_assumption_ids : list string;
  sel_current_context_ids : list string;
}.
#[export] Instance TheorySelector_eq_dec : EqDecision TheorySelector.
Proof. solve_decision. Defined.

Definition validate_selector (s : TheorySelector) : result unit :=
  raise_if (is_empty (sel_scope_fingerprint s) || is_empty (sel_binding_revision s)
            || is_empty (sel_policy_version s))
    ValidationError "theory selection requires exact scope, binding, and policy pins";;
  raise_if (negb (uniq (sel_current_assumption_ids s)))
    ValidationError "theory selector collections must be unique";;
  raise_if (negb (canonical (sel_current_assumption_ids s)))
    ValidationError "theory selector collections must use canonical order";;
  raise_if (negb (uniq (sel_current_context_ids s)))
    ValidationError "theory selector collections must be unique";;
  raise_if (negb (canonical (sel_current_context_ids s)))
    ValidationError "theory selector collections must use canonical order".

(** ** [checks.py] *)

Definition evidence_index (records : list Evidence) : gmap string Evidence := dict_by ev_id records.

Definition checker_verdict_index (records : list CheckerVerdictRecord) :
    gmap string CheckerVerdictRecord := dict_by cv_id records.

Definition validate_checked_evidence (evidence : Evidence) (cv : CheckerVerdictRecord)
    (proposition_id : string) (proposition_kind : PropositionKind) (scope_fp : string)
    (authorized_checker_ids : list string) : bool * string :=
  if cv_evidence_id cv !=? ev_id evidence then
    (false, "checker verdict references different evidence")
  else if cv_evidence_artifact cv !=? ev_artifact evidence then
    (false, "checker verdict does not pin the exact evidence artifact")
  else if ev_proposition_id evidence !=? proposition_id then
    (false, "evidence proposition does not match exactly")
  else if cv_proposition_id cv !=? proposition_id then
    (false, "checker verdict proposition does not match exactly")
  else if ev_proposition_kind evidence !=? proposition_kind then
    (false, "evidence proposition kind does not match exactly")
  else if cv_proposition_kind cv !=? proposition_kind then
    (false, "checker verdict proposition kind does not match exactly")
  else if ev_scope_fingerprint evidence !=? scope_fp then
    (false, "evidence scope does not match exactly")
  else if cv_scope_fingerprint cv !=? scope_fp then
    (false, "checker verdict scope does not match exactly")
  else if negb (mem (cv_checker_id cv) authorized_checker_ids) then
    (false, "checker identity is not authorized by the inquiry binding")
  else if cv_verdict cv !=? VALID then
    (false, "independent checker did not validate the evidence")
  else if is_none (cv_certificate_artifact cv) then
    (false, "valid checker verdict lacks an exact certificate artifact")
  else (true, "independently checked exact evidence").

Definition resolve_check_reference (reference : CheckReference)
    (evidence_by_id : gmap string Evidence)
    (checker_verdict_by_id : gmap string CheckerVerdictRecord)
    (proposition_id : string) (proposition_kind : PropositionKind) (scope_fp : string)
    (authorized_checker_ids : list string) : bool * string :=
  match evidence_by_id !! ref_evidence_id reference with
  | None => (false, "check reference does not resolve to owned evidence")
  | Some evidence =>
    match checker_verdict_by_id !! ref_checker_verdict_id reference with
    | None => (false, "check reference does not resolve to an owned checker verdict")
    | Some cv =>
      if cv_evidence_id cv !=? ref_evidence_id reference then
        (false, "check reference evidence and checker verdict do not align")
      else validate_checked_evidence evidence cv proposition_id proposition_kind scope_fp
             authorized_checker_ids
    end
  end.

(** ** Lemmas *)

(** What a positive answer of [validate_checked_evidence] pins. *)
Record checked_evidence (e : Evidence) (cv : CheckerVerdictRecord) (pid : string)
    (pk : PropositionKind) (fp : string) (auth : list string) : Prop := {
  ce_evidence : cv_evidence_id cv = ev_id e;
  ce_artifact : cv_evidence_artifact cv = ev_artifact e;
  ce_proposition : ev_proposition_id e = pid ∧ cv_proposition_id cv = pid;
  ce_kind : ev_proposition_kind e = pk ∧ cv_proposition_kind cv = pk;
  ce_scope : ev_scope_fingerprint e = fp ∧ cv_scope_fingerprint cv = fp;
  ce_checker : cv_checker_id cv ∈ auth;
  ce_verdict : cv_verdict cv = VALID;
  ce_certificate : is_Some (cv_certificate_artifact cv);
}.

Lemma validate_checked_evidence_true e cv pid pk fp auth :
  (validate_checked_evidence e cv pid pk fp auth).1 = true ↔ checked_evidence e cv pid pk fp auth.
Proof.
  unfold validate_checked_evidence. split.
  - repeat match goal with
    | |- context [if ?c then _ else _] => destruct c eqn:?; [done|]
    end.
    intros _. autorewrite with rci in *.
    constructor; auto.
  - intros [-> -> [-> ->] [-> ->] [-> ->] Hc -> [c ->]].
    rewrite !bool_decide_true by done. unfold mem. by rewrite bool_decide_true.
Qed.

Lemma resolve_check_reference_true r evs cvs pid pk fp auth :
  (resolve_check_reference r evs cvs pid pk fp auth).1 = true ↔
  ∃ e cv, evs !! ref_evidence_id r = Some e ∧ cvs !! ref_checker_verdict_id r = Some cv ∧
          cv_evidence_id cv = ref_evidence_id r ∧ checked_evidence e cv pid pk fp auth.
Proof.
  unfold resolve_check_reference. destruct (evs !! _) as [e|] eqn:He; [|naive_solver].
  destruct (cvs !! _) as [cv|] eqn:Hcv; [|naive_solver].
  destruct (cv_evidence_id cv !=? _) eqn:E; autorewrite with rci in E.
  - cbn. split; [done|]. intros (? & ? & [= <-] & [= <-] & ? & _). done.
  - rewrite validate_checked_evidence_true. naive_solver.
Qed.
