(* ===== verification/Support.v ===== *)
(** * Support calculations: [src/rci/warrant/support.py]

    The assumption-based support layer: minimal support environments, when an
    environment stands, the least fixed point of grounded lemmas, the derived
    active theory, and the two depth-first acyclicity checks.  The [while
    changed] loop and the recursive [visit] run on fuel; the theorems show that
    the fuel the entry points supply is enough. *)

From stdpp Require Import relations.
From S2P Require Import Prelude Digest Model Claims Warrant.

(** ** Minimal environments *)

Definition same_universe (x y : SupportEnvironment) : bool :=
  (env_scope_fingerprint x ==? env_scope_fingerprint y)
  && (env_binding_revision x ==? env_binding_revision y)
  && (env_finite_universe_hash x ==? env_finite_universe_hash y).

Definition environment_key (e : SupportEnvironment) :
    string * (string * (string * (nat * (list string * string)))) :=
  (env_scope_fingerprint e,
   (env_binding_revision e,
    (default "" (env_finite_universe_hash e),
     (length (env_assumption_ids e), (env_assumption_ids e, env_id e))))).

Definition environment_dominates (x y : SupportEnvironment) : bool :=
  same_universe x y && subset (env_assumption_ids x) (env_assumption_ids y).

Definition minimize_support_environments (environments : list SupportEnvironment) :
    list SupportEnvironment :=
  let unique := dict_by env_id environments in
  scan_minimal environment_dominates (sort_by environment_key (map_to_list unique).*2).

Definition compute_open_boundary (required_dependency_ids : list string)
    (environment : SupportEnvironment) (independently_discharged_ids : list string) : list string :=
  let supplied := env_assumption_ids environment ++ independently_discharged_ids in
  sorted_set (filter (λ d, d ∉ supplied) required_dependency_ids).

(** ** Standing, groundedness, the active theory *)

Section theory.
(** The records and authorities every check is resolved against. *)
Context (evidence_records : list Evidence) (checker_verdicts : list CheckerVerdictRecord)
        (authorized_checker_ids : list string).

Definition check_resolves (r : CheckReference) (proposition_id : string)
    (proposition_kind : PropositionKind) (scope_fp : string) : bool :=
  (resolve_check_reference r (evidence_index evidence_records)
     (checker_verdict_index checker_verdicts) proposition_id proposition_kind scope_fp
     authorized_checker_ids).1.

Definition nogood_excludes (environment : SupportEnvironment) (policy_version : string)
    (nogood : Nogood) : bool :=
  (ng_scope_fingerprint nogood ==? env_scope_fingerprint environment)
  && (ng_binding_revision nogood ==? env_binding_revision environment)
  && (ng_finite_universe_hash nogood ==? env_finite_universe_hash environment)
  && (ng_policy_version nogood ==? policy_version)
  && check_resolves (ng_check nogood) (ng_id nogood) EXISTENTIAL (ng_scope_fingerprint nogood)
  && subset (ng_incompatible_assumption_ids nogood) (env_assumption_ids environment).

Definition support_environment_stands (environment : SupportEnvironment)
    (current_assumption_ids : list string) (nogoods : list Nogood) (policy_version : string) :
    bool :=
  if negb (check_resolves (env_realizability_check environment) (env_id environment)
             EXISTENTIAL (env_scope_fingerprint environment)) then false
  else if negb (subset (env_assumption_ids environment) current_assumption_ids) then false
  else negb (existsb (nogood_excludes environment policy_version) nogoods).

Definition applicability_holds (a : Applicability) (current_context_ids : list string) : bool :=
  ((app_condition_id a ==? "always") || mem (app_condition_id a) current_context_ids)
  && subset (app_required_context_ids a) current_context_ids.

Definition applicability_stands (lemma : WarrantedLemma) (current_context_ids : list string) :
    bool :=
  applicability_holds (lv_applicability (wl_version lemma)) current_context_ids.

Section grounding.
Context (current_assumption_ids current_context_ids : list string) (nogoods : list Nogood).

Definition route_applicable (lemma : WarrantedLemma) (route : SupportRoute) : bool :=
  let version := wl_version lemma in
  environment_matches (route_environment route) (lv_scope version)
  && check_resolves (route_certificate_check route) (lv_relation_id version)
       (lv_proposition_kind version) (scope_fingerprint (lv_scope version))
  && applicability_stands lemma current_context_ids
  && support_environment_stands (route_environment route) current_assumption_ids nogoods
       (ls_policy_version (wl_support lemma)).

Definition route_grounded (grounded : gset string) (lemma : WarrantedLemma)
    (route : SupportRoute) : bool :=
  route_applicable lemma route
  && bool_decide (list_to_set (route_required_dependency_ids route) ⊆ grounded).

(** The body of the [for lemma in lemma_tuple] loop. *)
Definition ground_step (st : gset string * bool) (lemma : WarrantedLemma) : gset string * bool :=
  let (grounded, changed) := st in
  if bool_decide (wl_id lemma ∈ grounded) || (ls_warrant_class (wl_support lemma) !=? HARD)
  then st
  else if existsb (route_grounded grounded lemma) (ls_support_routes (wl_support lemma))
  then ({[wl_id lemma]} ∪ grounded, true)
  else st.

Definition ground_pass (lemmas : list WarrantedLemma) (grounded : gset string) :
    gset string * bool :=
  foldl ground_step (grounded, false) lemmas.

(** [while changed]; [None] is an exhausted fuel. *)
Fixpoint ground_loop (fuel : nat) (lemmas : list WarrantedLemma) (grounded : gset string) :
    option (gset string) :=
  match fuel with
  | O => None
  | S fuel =>
    let (grounded', changed) := ground_pass lemmas grounded in
    if changed : bool then ground_loop fuel lemmas grounded' else Some grounded'
  end.

Definition grounded_lemma_ids (lemmas : list WarrantedLemma) : gset string :=
  default ∅ (ground_loop (S (length lemmas)) lemmas ∅).

(** The specification: derivability from the standing routes. *)
Inductive Grounded (lemmas : list WarrantedLemma) : string → Prop :=
| grounded_intro lemma route :
  lemma ∈ lemmas →
  ls_warrant_class (wl_support lemma) = HARD →
  route ∈ ls_support_routes (wl_support lemma) →
  route_applicable lemma route = true →
  (∀ d, d ∈ route_required_dependency_ids route → Grounded lemmas d) →
  Grounded lemmas (wl_id lemma).
End grounding.

Definition route_standing_of (changes : list SupportRouteStandingChange) (route : string) :
    SupportStanding :=
  default STANDING (rsc_standing <$> dict_by rsc_support_route_id changes !! route).

Definition nogood_standing_of (changes : list NogoodStandingChange) (nogood : string) :
    SupportStanding :=
  default STANDING (nsc_standing <$> dict_by nsc_nogood_id changes !! nogood).

(** [lemma.model_copy(update=...)]: validators do not run again. *)
Definition with_standing_routes (lemma : WarrantedLemma) (routes : list SupportRoute) :
    WarrantedLemma :=
  let s := wl_support lemma in
  MkWarrantedLemma (wl_version lemma)
    (MkLemmaSupport (ls_lemma_version_id s) (ls_policy_version s) routes []
       (ls_warrant_class s) (ls_certificate_refs s) (ls_provenance_refs s)).

Definition lemma_selected (selector : TheorySelector) (lemma : WarrantedLemma) : bool :=
  let scope := lv_scope (wl_version lemma) in
  (scope_fingerprint scope ==? sel_scope_fingerprint selector)
  && (scope_binding_revision scope ==? sel_binding_revision selector)
  && (scope_finite_universe_hash scope ==? sel_finite_universe_hash selector)
  && (ls_policy_version (wl_support lemma) ==? sel_policy_version selector).

Definition select_lemma (selector : TheorySelector) (changes : list SupportRouteStandingChange)
    (lemma : WarrantedLemma) : list WarrantedLemma :=
  if negb (lemma_selected selector lemma) then []
  else
    let standing_routes :=
      List.filter (λ r, route_standing_of changes (route_id r) ==? STANDING)
        (all_support_routes (wl_support lemma)) in
    if is_nil standing_routes then [] else [with_standing_routes lemma standing_routes].

Definition nogood_selected (selector : TheorySelector) (changes : list NogoodStandingChange)
    (nogood : Nogood) : bool :=
  (ng_scope_fingerprint nogood ==? sel_scope_fingerprint selector)
  && (ng_binding_revision nogood ==? sel_binding_revision selector)
  && (ng_finite_universe_hash nogood ==? sel_finite_universe_hash selector)
  && (ng_policy_version nogood ==? sel_policy_version selector)
  && (nogood_standing_of changes (ng_id nogood) ==? STANDING).

Definition route_key (r : SupportRoute) : nat * (list string * string) :=
  (length (assumptions r), (assumptions r, route_id r)).

Definition route_dominates (x y : SupportRoute) : bool := subset (assumptions x) (assumptions y).

Definition lemma_view (selector : TheorySelector) (nogoods : list Nogood)
    (grounded : gset string) (lemma : WarrantedLemma) : result ActiveLemmaView :=
  let applicable_routes :=
    List.filter (route_grounded (sel_current_assumption_ids selector)
                   (sel_current_context_ids selector) nogoods grounded lemma)
      (ls_support_routes (wl_support lemma)) in
  let minimal_routes := scan_minimal route_dominates (sort_by route_key applicable_routes) in
  match minimal_routes with
  | [] => raise IndexError "list index out of range"
  | primary :: _ =>
    let view := MkActiveLemmaView (wl_id lemma) (lv_relation_id (wl_version lemma))
                  (route_id primary) (map route_id minimal_routes)
                  (sel_scope_fingerprint selector) (sel_binding_revision selector)
                  (sel_finite_universe_hash selector) (sel_policy_version selector) in
    validate_routes view;; Ok view
  end.

Fixpoint lemma_views (selector : TheorySelector) (nogoods : list Nogood)
    (grounded : gset string) (lemmas : list WarrantedLemma) : result (list ActiveLemmaView) :=
  match lemmas with
  | [] => Ok []
  | lemma :: lemmas =>
    if bool_decide (wl_id lemma ∉ grounded) then lemma_views selector nogoods grounded lemmas
    else view ← lemma_view selector nogoods grounded lemma;
         views ← lemma_views selector nogoods grounded lemmas;
         Ok (view :: views)
  end.

Definition selected_lemmas (selector : TheorySelector)
    (changes : list SupportRouteStandingChange) (lemmas : list WarrantedLemma) :
    list WarrantedLemma :=
  flat_map (select_lemma selector changes) lemmas.

Definition select_active_theory (lemmas : list WarrantedLemma) (selector : TheorySelector)
    (nogoods : list Nogood) (route_changes : list SupportRouteStandingChange)
    (nogood_changes : list NogoodStandingChange) : result (list ActiveLemmaView) :=
  let lemma_tuple := selected_lemmas selector route_changes lemmas in
  let nogood_tuple := List.filter (nogood_selected selector nogood_changes) nogoods in
  let grounded := grounded_lemma_ids (sel_current_assumption_ids selector)
                    (sel_current_context_ids selector) nogood_tuple lemma_tuple in
  lemma_views selector nogood_tuple grounded (sort_by wl_id lemma_tuple).

Definition active_lemma_ids (lemmas : list WarrantedLemma) (selector : TheorySelector)
    (nogoods : list Nogood) (route_changes : list SupportRouteStandingChange)
    (nogood_changes : list NogoodStandingChange) : result (list string) :=
  views ← select_active_theory lemmas selector nogoods route_changes nogood_changes;
  Ok (map view_lemma_version_id views).
End theory.

(** ** Acyclicity by depth-first search *)

Inductive dfs_result : Type :=
| Cyclic
| Clear (visiting visited : gset string)
| OutOfFuel.

Section dfs.
(** [graph.get(v)]: the successors of a known node. *)
Context (graph : gmap string (list string)).

Definition successors (v : string) : list string := default [] (graph !! v).

Fixpoint visit_successors (visit : string → gset string → gset string → dfs_result)
    (ws : list string) (visiting visited : gset string) : dfs_result :=
  match ws with
  | [] => Clear visiting visited
  | w :: ws =>
    if is_none (graph !! w) then Cyclic
    else match visit w visiting visited with
         | Clear visiting visited => visit_successors visit ws visiting visited
         | r => r
         end
  end.

Fixpoint visit (fuel : nat) (v : string) (visiting visited : gset string) : dfs_result :=
  match fuel with
  | O => OutOfFuel
  | S fuel =>
    if bool_decide (v ∈ visiting) then Cyclic
    else if bool_decide (v ∈ visited) then Clear visiting visited
    else
      match visit_successors (visit fuel) (successors v) ({[v]} ∪ visiting) visited with
      | Clear visiting visited => Clear (visiting ∖ {[v]}) ({[v]} ∪ visited)
      | r => r
      end
  end.

(** [all(visit(v) for v in keys)] *)
Fixpoint visit_all (fuel : nat) (keys : list string) (visiting visited : gset string) : dfs_result :=
  match keys with
  | [] => Clear visiting visited
  | v :: keys =>
    match visit fuel v visiting visited with
    | Clear visiting visited => visit_all fuel keys visiting visited
    | r => r
    end
  end.

Definition dfs_fuel : nat := S (size (dom graph)).

Definition dfs_acyclic (keys : list string) : bool :=
  match visit_all dfs_fuel keys ∅ ∅ with Clear _ _ => true | _ => false end.
End dfs.

(** The dictionary is given by its items in order. *)
Definition ancestry_is_acyclic (predecessors_by_version : list (string * list string)) : bool :=
  dfs_acyclic (snd <$> dict_by fst predecessors_by_version) (map fst predecessors_by_version).

Definition support_graph (lemmas : list WarrantedLemma) : gmap string (list string) :=
  let known := map wl_id lemmas in
  (λ lemma, filter (λ d, d ∈ known)
              (remove_dups (flat_map route_required_dependency_ids
                 (all_support_routes (wl_support lemma))))) <$> dict_by wl_id lemmas.

Definition support_graph_is_acyclic (lemmas : list WarrantedLemma) : bool :=
  dfs_acyclic (support_graph lemmas) (map wl_id lemmas).

(** ** Minimal environments: lemmas *)

Lemma same_universe_true x y :
  same_universe x y = true ↔
  env_scope_fingerprint x = env_scope_fingerprint y ∧
  env_binding_revision x = env_binding_revision y ∧
  env_finite_universe_hash x = env_finite_universe_hash y.
Proof. unfold same_universe. rewrite !andb_true_iff, !eqb_true. naive_solver. Qed.

Lemma then_compare_Lt_or_eq `{TotalCompare A} (x y : A) c :
  then_compare (compare x y) c ≠ Gt → x = y → c ≠ Gt.
Proof. intros Hn ->. by rewrite (proj2 (compare_eq y y)) in Hn. Qed.

(** A key that starts with the cardinality orders smaller sets first. *)
Lemma key_le_card {A} (f : A → list string) (g : A → string) x y :
  key_le (λ x, (length (f x), (f x, g x))) x y → length (f x) ≤ length (f y).
Proof.
  rewrite key_le_alt. unfold compare, prod_compare. cbn [fst snd].
  intros [H|H]; [|injection H; lia].
  destruct (compare (length (f x)) (length (f y))) eqn:E; [|..|done].
  - apply compare_eq in E. lia.
  - apply Nat.compare_lt_iff in E. lia.
Qed.

Lemma environment_key_le_card x y :
  key_le environment_key x y → same_universe x y = true →
  length (env_assumption_ids x) ≤ length (env_assumption_ids y).
Proof.
  intros H (E1 & E2 & E3)%same_universe_true.
  apply (key_le_card env_assumption_ids env_id x y).
  unfold key_le, key_leb in *. unfold environment_key in H. rewrite E1, E2, E3 in H.
  rewrite compare_pair in H. cbn [fst snd] in H.
  rewrite (proj2 (compare_eq _ _) eq_refl) in H. cbn [then_compare] in H.
  rewrite compare_pair in H. cbn [fst snd] in H.
  rewrite (proj2 (compare_eq _ _) eq_refl) in H. cbn [then_compare] in H.
  rewrite compare_pair in H. cbn [fst snd] in H.
  rewrite (proj2 (compare_eq _ _) eq_refl) in H. exact H.
Qed.

Lemma dict_values_elem `{Countable K} {A} (key : A → K) l x :
  x ∈ (map_to_list (dict_by key l)).*2 → x ∈ l.
Proof.
  intros ([k y] & -> & Hin)%list_elem_of_fmap. apply elem_of_map_to_list in Hin.
  by apply dict_by_Some in Hin as [? _].
Qed.

Lemma dict_values_NoDup `{Countable K} {A} (key : A → K) l :
  NoDup (key <$> (map_to_list (dict_by key l)).*2).
Proof.
  pose proof (NoDup_fst_map_to_list (dict_by key l)) as Hnd.
  rewrite <-list_fmap_compose.
  assert (He : (key ∘ snd <$> map_to_list (dict_by key l)) = (map_to_list (dict_by key l)).*1).
  { apply list_fmap_ext. intros i [k x] Hi. cbn.
    apply list_elem_of_lookup_2, elem_of_map_to_list in Hi. by apply dict_by_Some in Hi as [_ ->]. }
  by rewrite He.
Qed.

(** With distinct keys a dictionary's values are the elements it was built from. *)
Lemma dict_values_perm `{Countable K} {A} (key : A → K) l :
  NoDup (key <$> l) → (map_to_list (dict_by key l)).*2 ≡ₚ l.
Proof.
  intros Hnd. apply NoDup_Permutation.
  - apply (NoDup_fmap_1 key). apply dict_values_NoDup.
  - by apply (NoDup_fmap_1 key).
  - intros x. split; [apply dict_values_elem|]. intros Hx.
    apply list_elem_of_fmap. exists (key x, x). split; [done|].
    apply elem_of_map_to_list. by apply dict_by_NoDup.
Qed.

Lemma dict_by_perm `{Countable K} {A} (key : A → K) l1 l2 :
  NoDup (key <$> l1) → l1 ≡ₚ l2 → dict_by key l1 = dict_by key l2.
Proof.
  intros Hnd Hp. apply map_eq. intros k.
  assert (Hnd2 : NoDup (key <$> l2)) by by rewrite <-Hp.
  destruct (dict_by key l1 !! k) as [x|] eqn:E.
  - apply dict_by_Some in E as [Hx <-]. symmetry. apply dict_by_NoDup; [done|]. by rewrite <-Hp.
  - symmetry. apply dict_by_None. apply dict_by_None in E. by rewrite <-Hp.
Qed.

(** ** The grounding fixed point *)

Section grounding_lemmas.
Context (evs : list Evidence) (cvs : list CheckerVerdictRecord) (auth : list string).
Context (assumed ctx : list string) (nogoods : list Nogood).

Abbreviation applicable := (route_applicable evs cvs auth assumed ctx nogoods).
Abbreviation Gr := (Grounded evs cvs auth assumed ctx nogoods).
Abbreviation step := (ground_step evs cvs auth assumed ctx nogoods).
Abbreviation grounds g lemma :=
  (existsb (route_grounded evs cvs auth assumed ctx nogoods g lemma)
     (ls_support_routes (wl_support lemma))).

(** No lemma can be added to [g]. *)
Definition saturated (g : gset string) (lemma : WarrantedLemma) : Prop :=
  wl_id lemma ∈ g ∨ ls_warrant_class (wl_support lemma) ≠ HARD ∨ grounds g lemma = false.

Lemma route_grounded_true g lemma route :
  route_grounded evs cvs auth assumed ctx nogoods g lemma route = true ↔
  applicable lemma route = true ∧ ∀ d, d ∈ route_required_dependency_ids route → d ∈ g.
Proof.
  unfold route_grounded. rewrite andb_true_iff, bool_decide_eq_true.
  split; intros [? H]; (split; [done|]).
  - intros d Hd. apply H. by apply elem_of_list_to_set.
  - intros d Hd. apply H. by apply elem_of_list_to_set in Hd.
Qed.

Lemma ground_step_cases g c lemma :
  (saturated g lemma ∧ step (g, c) lemma = (g, c)) ∨
  (wl_id lemma ∉ g ∧ ls_warrant_class (wl_support lemma) = HARD ∧ grounds g lemma = true ∧
   step (g, c) lemma = ({[wl_id lemma]} ∪ g, true)).
Proof.
  unfold ground_step, saturated. destruct (bool_decide _) eqn:E1; cbn.
  - apply bool_decide_eq_true in E1. auto.
  - apply bool_decide_eq_false in E1. destruct (_ !=? HARD) eqn:E2.
    + rewrite neqb_true in E2. auto.
    + rewrite neqb_false in E2. destruct (existsb _ _) eqn:E3; auto.
Qed.

Lemma ground_fold_spec lemmas g c g' c' :
  foldl step (g, c) lemmas = (g', c') →
  g ⊆ g' ∧ g' ⊆ g ∪ list_to_set (map wl_id lemmas) ∧
  (c' = true → c = true ∨ g ⊂ g') ∧
  (c' = false → c = false ∧ g' = g ∧ ∀ l, l ∈ lemmas → saturated g l).
Proof.
  revert g c. induction lemmas as [|l lemmas IH]; intros g c; cbn [foldl map].
  - intros [= <- <-]. split_and!; [done|set_solver|auto|].
    intros ->. split_and!; [done..|]. by intros l ?%not_elem_of_nil.
  - destruct (ground_step_cases g c l) as [[Hs ->]|(Hn & _ & _ & ->)]; intros H;
      apply IH in H as (H1 & H2 & H3 & H4); cbn.
    + split_and!; [done|set_solver|done|]. intros Hc. destruct (H4 Hc) as (-> & -> & H5).
      split_and!; [done..|]. intros l' [->|?]%elem_of_cons; auto.
    + split_and!; [set_solver|set_solver| |].
      * intros _. right. set_solver.
      * intros Hc. by destruct (H4 Hc).
Qed.

Lemma ground_fold_sound all lemmas g c g' c' :
  (∀ l, l ∈ lemmas → l ∈ all) → (∀ x, x ∈ g → Gr all x) →
  foldl step (g, c) lemmas = (g', c') → ∀ x, x ∈ g' → Gr all x.
Proof.
  revert g c. induction lemmas as [|l lemmas IH]; intros g c Hsub Hg; cbn [foldl].
  - by intros [= <- <-].
  - assert (Hsub' : ∀ l', l' ∈ lemmas → l' ∈ all) by (intros; apply Hsub; by constructor).
    destruct (ground_step_cases g c l) as [[_ ->]|(_ & Hh & Hr & ->)]; intros H.
    + by eapply IH.
    + eapply IH; [done| |done]. intros x [->%elem_of_singleton|?]%elem_of_union; [|auto].
      apply any_true in Hr as (r & Hr & [Ha Hd]%route_grounded_true).
      eapply grounded_intro; [apply Hsub; constructor|done..|]. auto.
Qed.

Lemma ground_loop_spec fuel lemmas g :
  g ⊆ list_to_set (map wl_id lemmas) → (∀ x, x ∈ g → Gr lemmas x) →
  length lemmas < fuel + size g →
  ∃ g', ground_loop evs cvs auth assumed ctx nogoods fuel lemmas g = Some g' ∧
    (∀ x, x ∈ g' → Gr lemmas x) ∧ (∀ l, l ∈ lemmas → saturated g' l).
Proof.
  revert g. induction fuel as [|fuel IH]; intros g Hsub Hg Hfuel.
  { exfalso. apply subseteq_size in Hsub. rewrite <-(length_map wl_id lemmas) in Hfuel.
    pose proof (size_list_to_set_le (map wl_id lemmas)) as Hle. cbn in *. lia. }
  cbn [ground_loop]. unfold ground_pass. destruct (foldl step (g, false) lemmas) as [g' c'] eqn:E.
  pose proof (ground_fold_spec _ _ _ _ _ E) as (H1 & H2 & H3 & H4).
  destruct c'.
  - apply IH.
    + set_solver.
    + eapply ground_fold_sound; [|done..]. done.
    + destruct (H3 eq_refl) as [|Hlt]; [done|]. apply subset_size in Hlt. lia.
  - destruct (H4 eq_refl) as (_ & -> & H5). eauto.
Qed.
End grounding_lemmas.

Lemma ground_loop_saturated evs cvs auth assumed ctx nogoods lemmas :
  let g := grounded_lemma_ids evs cvs auth assumed ctx nogoods lemmas in
  (∀ x, x ∈ g → Grounded evs cvs auth assumed ctx nogoods lemmas x) ∧
  (∀ l, l ∈ lemmas → saturated evs cvs auth assumed ctx nogoods g l).
Proof.
  cbv zeta. unfold grounded_lemma_ids.
  destruct (ground_loop_spec evs cvs auth assumed ctx nogoods (S (length lemmas)) lemmas ∅)
    as (g & -> & ? & ?).
  - set_solver.
  - set_solver.
  - lia.
  - done.
Qed.

Lemma grounded_lemma_ids_iff evs cvs auth assumed ctx nogoods lemmas x :
  x ∈ grounded_lemma_ids evs cvs auth assumed ctx nogoods lemmas ↔
  Grounded evs cvs auth assumed ctx nogoods lemmas x.
Proof.
  destruct (ground_loop_saturated evs cvs auth assumed ctx nogoods lemmas) as [Hs Hsat].
  split; [apply Hs|]. induction 1 as [l r Hl Hh Hr Ha Hd IH].
  destruct (Hsat l Hl) as [?|[?|Hf]]; [done..|].
  rewrite any_false in Hf. specialize (Hf r Hr).
  rewrite (proj2 (route_grounded_true _ _ _ _ _ _ _ _ _)) in Hf by done. done.
Qed.

(** ** Depth-first search: lemmas *)

Section dfs_lemmas.
Context (graph : gmap string (list string)).

Definition edge (v w : string) : Prop := w ∈ successors graph v.

(** An edge to an unknown node, or a cycle. *)
Definition defective : Prop :=
  (∃ v w, edge v w ∧ graph !! w = None) ∨ (∃ v, tc edge v v).

Inductive safe (v : string) : Prop :=
| safe_intro : (∀ w, edge v w → is_Some (graph !! w)) → (∀ w, edge v w → safe w) → safe v.

Lemma safe_acyclic v : safe v → ¬ tc edge v v.
Proof.
  induction 1 as [v _ Hv IH]. intros Hc. inversion Hc as [? ? Hvv|? w ? Hvw Hwv]; subst.
  - by apply (IH v Hvv), tc_once.
  - apply (IH w Hvw). by eapply tc_r.
Qed.

(** The stack leads to the current node. *)
Definition on_path (visiting : gset string) (v : string) : Prop :=
  ∀ x, x ∈ visiting → tc edge x v.

(** What a visit of [v] establishes. *)
Definition visit_post (v : string) (visiting visited : gset string) (r : dfs_result) : Prop :=
  match r with
  | OutOfFuel => False
  | Cyclic => defective
  | Clear visiting' visited' =>
    visiting' = visiting ∧ v ∈ visited' ∧ visited ⊆ visited' ∧ ∀ x, x ∈ visited' → safe x
  end.

Lemma visit_successors_spec visitor v ws visiting visited :
  (∀ w visited, edge v w → is_Some (graph !! w) → (∀ x, x ∈ visited → safe x) →
     visit_post w visiting visited (visitor w visiting visited)) →
  (∀ w, w ∈ ws → edge v w) → (∀ x, x ∈ visited → safe x) →
  match visit_successors graph visitor ws visiting visited with
  | OutOfFuel => False
  | Cyclic => defective
  | Clear visiting' visited' =>
    visiting' = visiting ∧ visited ⊆ visited' ∧ (∀ x, x ∈ visited' → safe x) ∧
    ∀ w, w ∈ ws → is_Some (graph !! w) ∧ w ∈ visited'
  end.
Proof.
  intros Hvis. revert visited. induction ws as [|w ws IH]; intros visited He Hsafe; cbn.
  - split_and!; try done. by intros w ?%not_elem_of_nil.
  - destruct (graph !! w) eqn:Ew; cbn.
    + specialize (Hvis w visited (He w (list_elem_of_here _ _)) (mk_is_Some _ _ Ew) Hsafe).
      destruct (visitor w visiting visited) as [|vis' vd'|]; [done| |done].
      destruct Hvis as (-> & Hw & Hsub & Hsafe').
      specialize (IH vd' (λ w' H', He w' (list_elem_of_further _ _ _ H')) Hsafe').
      destruct (visit_successors _ _ _ _ _) as [|vis'' vd''|]; [done| |done].
      destruct IH as (-> & Hsub' & Hsafe'' & Hall).
      split_and!; [done|set_solver|done|].
      intros w' [->|Hw']%elem_of_cons; [|auto]. split; [eauto|set_solver].
    + left. exists v, w. split; [|done]. apply He. constructor.
Qed.

Lemma visit_spec fuel v visiting visited :
  is_Some (graph !! v) → visiting ⊆ dom graph → on_path visiting v →
  (∀ x, x ∈ visited → safe x) → size (dom graph ∖ visiting) < fuel →
  visit_post v visiting visited (visit graph fuel v visiting visited).
Proof.
  revert v visiting visited. induction fuel as [|fuel IH];
    intros v visiting visited Hv Hdom Hpath Hsafe Hfuel; [lia|]. cbn.
  destruct (bool_decide_reflect (v ∈ visiting)) as [Hin|Hnin].
  { right. exists v. by apply Hpath. }
  destruct (bool_decide_reflect (v ∈ visited)) as [Hvd|Hnvd]; [done|].
  assert (Hvdom : v ∈ dom graph) by by apply elem_of_dom.
  assert (Hrec : ∀ w vd, edge v w → is_Some (graph !! w) → (∀ x, x ∈ vd → safe x) →
    visit_post w ({[v]} ∪ visiting) vd (visit graph fuel w ({[v]} ∪ visiting) vd)).
  { intros w vd Hw Hk Hs. apply IH; [done|set_solver| |done|].
    + intros x [->%elem_of_singleton|Hx]%elem_of_union; [by apply tc_once|].
      eapply tc_r; [by apply Hpath|done].
    + assert (dom graph ∖ ({[v]} ∪ visiting) ⊂ dom graph ∖ visiting) as Hlt%subset_size;
        [|lia]. split; [set_solver|]. intros Hc. set_solver. }
  pose proof (visit_successors_spec (visit graph fuel) v (successors graph v)
    ({[v]} ∪ visiting) visited Hrec (λ _ H, H) Hsafe) as H.
  destruct (visit_successors _ _ _ _ _) as [|vis' vd'|]; [done| |done].
  destruct H as (-> & Hsub & Hs & Hall).
  cbn. split_and!; [set_solver|set_solver|set_solver|].
  intros x [->%elem_of_singleton|Hx]%elem_of_union; [|auto].
  constructor; intros w Hw; destruct (Hall w Hw); auto.
Qed.

Lemma visit_all_spec keys visited :
  (∀ v, v ∈ keys → is_Some (graph !! v)) → (∀ x, x ∈ visited → safe x) →
  match visit_all graph (dfs_fuel graph) keys ∅ visited with
  | OutOfFuel => False
  | Cyclic => defective
  | Clear _ visited' => visited ⊆ visited' ∧ (∀ x, x ∈ visited' → safe x) ∧
                        ∀ v, v ∈ keys → v ∈ visited'
  end.
Proof.
  revert visited. induction keys as [|v keys IH]; intros visited Hk Hs; cbn [visit_all].
  - split_and!; [done..|]. by intros v ?%not_elem_of_nil.
  - assert (H : visit_post v ∅ visited (visit graph (dfs_fuel graph) v ∅ visited)).
    { apply visit_spec; [apply Hk; constructor|apply empty_subseteq| |done|].
      + by intros x ?%not_elem_of_empty.
      + rewrite difference_empty_L. unfold dfs_fuel. lia. }
    destruct (visit graph _ v ∅ visited) as [|vis' vd'|]; [done| |done].
    + destruct H as (-> & Hv & Hsub & Hs').
      specialize (IH vd' (λ w H', Hk w (list_elem_of_further _ _ _ H')) Hs').
      destruct (visit_all _ _ _ _ _) as [|? vd''|]; [done| |done].
      destruct IH as (Hsub' & Hs'' & Hall). split_and!; [set_solver|done|].
      intros w [->|Hw]%elem_of_cons; [set_solver|auto].
Qed.

(** The search answers [True] exactly on graphs without dangling edges and cycles. *)
Lemma dfs_acyclic_iff keys :
  (∀ v, v ∈ keys ↔ is_Some (graph !! v)) →
  dfs_acyclic graph keys = true ↔
  (∀ v w, edge v w → is_Some (graph !! w)) ∧ ∀ v, ¬ tc edge v v.
Proof.
  intros Hkeys. unfold dfs_acyclic.
  assert (Hempty : ∀ x, x ∈ (∅ : gset string) → safe x) by by intros x ?%not_elem_of_empty.
  pose proof (visit_all_spec keys ∅ (λ v, proj1 (Hkeys v)) Hempty) as H.
  destruct (visit_all _ _ _ _ _) as [|? vd'|]; [| |done].
  - split; [done|]. intros [Hk Hc]. destruct H as [(v & w & He & Hn)|(v & Hv)].
    + destruct (Hk v w He). congruence.
    + by destruct (Hc v).
  - split; [intros _|done]. destruct H as (_ & Hs & Hall).
    assert (Hsafe : ∀ v w, edge v w → safe v).
    { intros v w Hvw. apply Hs, Hall, Hkeys. unfold edge, successors in Hvw.
      destruct (graph !! v); [eauto|]. by apply not_elem_of_nil in Hvw. }
    split.
    + intros v w Hvw. destruct (Hsafe v w Hvw) as [H _]. by apply H.
    + intros v Hv. assert (∃ w, edge v w) as [w Hvw].
      { inversion Hv; subst; eauto. }
      by eapply safe_acyclic, Hv; eapply Hsafe.
Qed.
End dfs_lemmas.

Lemma support_graph_lookup lemmas v :
  NoDup (wl_id <$> lemmas) →
  ∀ d, edge (support_graph lemmas) v d ↔
    ∃ l r, l ∈ lemmas ∧ wl_id l = v ∧ r ∈ all_support_routes (wl_support l) ∧
           d ∈ route_required_dependency_ids r ∧ d ∈ map wl_id lemmas.
Proof.
  intros Hnd d. unfold edge, successors, support_graph. rewrite lookup_fmap.
  destruct (dict_by wl_id lemmas !! v) as [l|] eqn:E; cbn.
  - apply dict_by_Some in E as [Hl <-].
    rewrite list_elem_of_filter, elem_of_remove_dups, elem_of_flat_map.
    split.
    + intros (Hd & r & Hr & Hrd). by exists l, r.
    + intros (l' & r & Hl' & Heq & Hr & Hrd & Hd). split; [done|].
      assert (l' = l) as -> by by eapply (key_inj_of_NoDup wl_id lemmas).
      by exists r.
  - split; [by intros ?%not_elem_of_nil|]. intros (l & r & Hl & <- & _).
    apply dict_by_None in E. destruct E. apply list_elem_of_fmap. eauto.
Qed.

Lemma support_graph_known lemmas v :
  v ∈ map wl_id lemmas ↔ is_Some (support_graph lemmas !! v).
Proof.
  unfold support_graph. rewrite lookup_fmap, fmap_is_Some. split.
  - intros (l & -> & Hl)%list_elem_of_fmap. by apply dict_by_is_Some.
  - intros [l E]. apply dict_by_Some in E as [Hl <-]. apply list_elem_of_fmap. eauto.
Qed.

(** ** The derived theory: lemmas *)

Section theory_lemmas.
Context (evs : list Evidence) (cvs : list CheckerVerdictRecord) (auth : list string).
Context (sel : TheorySelector) (nogoods : list Nogood).

Abbreviation groundedR g l :=
  (route_grounded evs cvs auth (sel_current_assumption_ids sel) (sel_current_context_ids sel)
     nogoods g l).

(** The routes a view of [l] may cite. *)
Definition usable_routes (g : gset string) (l : WarrantedLemma) : list SupportRoute :=
  List.filter (groundedR g l) (ls_support_routes (wl_support l)).

Definition minimal_routes (g : gset string) (l : WarrantedLemma) : list SupportRoute :=
  scan_minimal route_dominates (sort_by route_key (usable_routes g l)).

Lemma minimal_routes_elem g l r :
  r ∈ minimal_routes g l →
  r ∈ ls_support_routes (wl_support l) ∧ groundedR g l r = true.
Proof.
  intros Hr%scan_minimal_elem. rewrite elem_of_sort_by in Hr.
  by apply elem_of_lfilter in Hr.
Qed.

Lemma lemma_view_Ok g l :
  NoDup (map route_id (ls_support_routes (wl_support l))) →
  existsb (groundedR g l) (ls_support_routes (wl_support l)) = true →
  ∃ v, lemma_view evs cvs auth sel nogoods g l = Ok v ∧
    view_lemma_version_id v = wl_id l ∧
    view_standing_support_route_ids v = map route_id (minimal_routes g l).
Proof.
  intros Hnd (r & Hr & Hg)%any_true.
  assert (Hne : minimal_routes g l ≠ []).
  { apply (scan_minimal_nonempty _ _ r). rewrite elem_of_sort_by. by apply elem_of_lfilter. }
  assert (Hnd' : NoDup (map route_id (minimal_routes g l))).
  { apply scan_minimal_NoDup. rewrite sort_by_perm. unfold usable_routes.
    eapply sublist_NoDup; [exact Hnd|]. apply fmap_sublist, lfilter_sublist. }
  unfold lemma_view. fold (usable_routes g l). fold (minimal_routes g l).
  destruct (minimal_routes g l) as [|p rest] eqn:E; [done|].
  unfold validate_routes. cbn [view_standing_support_route_ids view_standing_support_route_id
    map head is_nil raise_if mbind result_bind].
  rewrite (bool_decide_true (Some _ = Some _)) by done. cbn [negb raise_if mbind result_bind].
  rewrite (proj2 (nuniq_false _)) by done. cbn [raise_if mbind result_bind].
  eexists. split; [reflexivity|]. done.
Qed.

Lemma lemma_views_Ok g ls :
  (∀ l, l ∈ ls → NoDup (map route_id (ls_support_routes (wl_support l))) ∧
     (wl_id l ∈ g → existsb (groundedR g l) (ls_support_routes (wl_support l)) = true)) →
  ∃ vs, lemma_views evs cvs auth sel nogoods g ls = Ok vs ∧
    map view_lemma_version_id vs = map wl_id (filter (λ l, wl_id l ∈ g) ls) ∧
    ∀ v, v ∈ vs → ∃ l, l ∈ ls ∧ wl_id l = view_lemma_version_id v ∧
      view_standing_support_route_ids v = map route_id (minimal_routes g l).
Proof.
  induction ls as [|l ls IH]; intros H; cbn [lemma_views].
  - exists []. split_and!; [done..|]. by intros v ?%not_elem_of_nil.
  - destruct IH as (vs & Hvs & Hids & Hall); [intros; apply H; by constructor|].
    destruct (bool_decide_reflect (wl_id l ∉ g)) as [Hn|Hg].
    + exists vs. split; [done|]. rewrite filter_cons_False by done. split; [done|].
      intros v Hv. destruct (Hall v Hv) as (l' & ? & ?). exists l'. split; [by constructor|done].
    + destruct (H l) as [Hnd Hex]; [constructor|].
      assert (Hin : wl_id l ∈ g) by (by apply dec_stable).
      destruct (lemma_view_Ok g l Hnd (Hex Hin)) as (v & -> & Hid & Hr).
      rewrite Hvs. exists (v :: vs). split; [done|].
      rewrite filter_cons_True by done. cbn [map]. rewrite Hid, Hids. split; [done|].
      intros v' [->|Hv]%elem_of_cons.
      * exists l. split; [constructor|done].
      * destruct (Hall v' Hv) as (l' & ? & ?). exists l'. split; [by constructor|done].
Qed.
End theory_lemmas.

Lemma elem_of_selected sel changes lemmas x :
  x ∈ selected_lemmas sel changes lemmas ↔
  ∃ l, l ∈ lemmas ∧ lemma_selected sel l = true ∧
    let routes := List.filter (λ r, route_standing_of changes (route_id r) ==? STANDING)
                    (all_support_routes (wl_support l)) in
    routes ≠ [] ∧ x = with_standing_routes l routes.
Proof.
  unfold selected_lemmas. rewrite elem_of_flat_map. f_equiv. intros l. f_equiv.
  unfold select_lemma. destruct (lemma_selected sel l); cbn [negb].
  - cbv zeta. destruct (List.filter _ _) as [|r rs]; cbn [is_nil].
    + split; [by intros ?%not_elem_of_nil|naive_solver].
    + rewrite list_elem_of_singleton. naive_solver.
  - split; [by intros ?%not_elem_of_nil|naive_solver].
Qed.

Lemma selected_routes_NoDup sel changes lemmas x :
  (∀ l, l ∈ lemmas → validate_support (wl_support l) = Ok tt) →
  x ∈ selected_lemmas sel changes lemmas →
  NoDup (map route_id (ls_support_routes (wl_support x))).
Proof.
  intros Hv (l & Hl & _ & _ & ->)%elem_of_selected. specialize (Hv l Hl).
  unfold validate_support in Hv. inv_ok Hv. eapply sublist_NoDup.
  - by apply nuniq_false.
  - apply fmap_sublist, lfilter_sublist.
Qed.

Lemma route_grounded_mono evs cvs auth a c ngs g l r :
  route_grounded evs cvs auth a c ngs g l r = true → route_applicable evs cvs auth a c ngs l r = true.
Proof. unfold route_grounded. by intros [? _]%andb_true_iff. Qed.

(** ** Properties *)

(** The [while changed] loop reaches its fixed point within one pass per
    lemma plus one, and the result is the least fixed point: exactly the lemmas
    derivable from applicable routes, so an unsupported cycle grounds nothing
    and the order of the lemmas does not matter. *)
Theorem grounded_lemma_ids_least evs cvs auth assumed ctx nogoods lemmas :
  ∃ g, ground_loop evs cvs auth assumed ctx nogoods (S (length lemmas)) lemmas ∅ = Some g ∧
    grounded_lemma_ids evs cvs auth assumed ctx nogoods lemmas = g ∧
    (∀ x, x ∈ g ↔ Grounded evs cvs auth assumed ctx nogoods lemmas x) ∧
    ∀ lemmas', (∀ l, l ∈ lemmas' ↔ l ∈ lemmas) →
      grounded_lemma_ids evs cvs auth assumed ctx nogoods lemmas' = g.
Proof.
  destruct (ground_loop_spec evs cvs auth assumed ctx nogoods (S (length lemmas)) lemmas ∅)
    as (g & Hg & _ & _); [set_solver..|lia|].
  exists g. assert (He : grounded_lemma_ids evs cvs auth assumed ctx nogoods lemmas = g)
    by (unfold grounded_lemma_ids; by rewrite Hg).
  split_and!; [done..| |].
  - intros x. rewrite <-He. apply grounded_lemma_ids_iff.
  - intros lemmas' Hl. rewrite <-He. apply set_eq. intros x. rewrite !grounded_lemma_ids_iff.
    split; induction 1 as [l r Hin Hh Hr Ha Hd IH]; eapply grounded_intro; eauto; by apply Hl.
Qed.

(** With distinct lemma identities the promotion gate's depth-first search
    accepts a support graph exactly when no lemma depends on itself through the
    required dependencies of its routes. *)
Theorem support_graph_is_acyclic_correct lemmas :
  NoDup (map wl_id lemmas) →
  support_graph_is_acyclic lemmas = true ↔
  ∀ v, ¬ tc (λ a b, ∃ l r, l ∈ lemmas ∧ wl_id l = a ∧ r ∈ all_support_routes (wl_support l) ∧
                         b ∈ route_required_dependency_ids r ∧ b ∈ map wl_id lemmas) v v.
Proof.
  intros Hnd. unfold support_graph_is_acyclic.
  rewrite dfs_acyclic_iff by apply support_graph_known.
  split.
  - intros [_ H] v Hv. apply (H v). eapply tc_congruence with (f := λ x, x); [|done].
    intros a b Hab. by apply support_graph_lookup.
  - intros H. split.
    + intros v w Hvw. apply support_graph_known.
      apply support_graph_lookup in Hvw as (? & ? & ? & ? & ? & ? & ?); done.
    + intros v Hv. apply (H v). eapply tc_congruence with (f := λ x, x); [|done].
      intros a b Hab. by apply support_graph_lookup in Hab.
Qed.

(** C23: The derived theory is total and closed.  Over validated lemmas no list
    index is ever out of range and no view is rejected; the views are exactly the
    grounded lemmas of the selected standing routes, and every route a view
    names belongs to a selected HARD lemma, stands, is applicable, and has all
    its dependencies among the lemmas of the theory. *)
Theorem select_active_theory_closed evs cvs auth lemmas sel nogoods rchanges nchanges :
  NoDup (map wl_id lemmas) →
  (∀ l, l ∈ lemmas → validate_support (wl_support l) = Ok tt) →
  let selected := selected_lemmas sel rchanges lemmas in
  let standing_nogoods := List.filter (nogood_selected sel nchanges) nogoods in
  ∃ views, select_active_theory evs cvs auth lemmas sel nogoods rchanges nchanges = Ok views ∧
    (∀ x, x ∈ map view_lemma_version_id views ↔
          Grounded evs cvs auth (sel_current_assumption_ids sel) (sel_current_context_ids sel)
            standing_nogoods selected x) ∧
    ∀ v rid, v ∈ views → rid ∈ view_standing_support_route_ids v →
      ∃ l r, l ∈ lemmas ∧ wl_id l = view_lemma_version_id v ∧ lemma_selected sel l = true ∧
        ls_warrant_class (wl_support l) = HARD ∧
        r ∈ all_support_routes (wl_support l) ∧ route_id r = rid ∧
        route_standing_of rchanges rid = STANDING ∧
        route_applicable evs cvs auth (sel_current_assumption_ids sel)
          (sel_current_context_ids sel) standing_nogoods l r = true ∧
        ∀ d, d ∈ route_required_dependency_ids r → d ∈ map view_lemma_version_id views.
Proof.
  intros Hnd Hval selected ngs. unfold select_active_theory. fold selected. fold ngs.
  set (g := grounded_lemma_ids _ _ _ _ _ _ selected).
  assert (Hg : ∀ x, x ∈ g ↔ Grounded evs cvs auth (sel_current_assumption_ids sel)
    (sel_current_context_ids sel) ngs selected x) by apply grounded_lemma_ids_iff.
  assert (Hinj : ∀ x y, x ∈ selected → y ∈ selected → wl_id x = wl_id y → x = y).
  { intros x y (l & Hl & _ & _ & ->)%elem_of_selected (l' & Hl' & _ & _ & ->)%elem_of_selected Hid.
    assert (l = l') as -> by by eapply (key_inj_of_NoDup wl_id lemmas). done. }
  assert (Hstep : ∀ l, l ∈ selected → wl_id l ∈ g →
    ls_warrant_class (wl_support l) = HARD ∧
    existsb (route_grounded evs cvs auth (sel_current_assumption_ids sel)
      (sel_current_context_ids sel) ngs g l) (ls_support_routes (wl_support l)) = true).
  { intros l Hl Hx%Hg. inversion Hx as [l' r Hl' Hh Hr Ha Hd Heq].
    rewrite (Hinj l l') by done. split; [done|].
    apply any_true. exists r. split; [done|]. apply route_grounded_true. split; [done|].
    intros d ?%Hd. by apply Hg. }
  destruct (lemma_views_Ok evs cvs auth sel ngs g (sort_by wl_id selected)) as (vs & -> & Hids & Hvs).
  { intros l Hl. rewrite elem_of_sort_by in Hl. split; [by eapply selected_routes_NoDup|].
    intros. by apply Hstep. }
  assert (Hid : ∀ x, x ∈ map view_lemma_version_id vs ↔ x ∈ g).
  { intros x. rewrite Hids, elem_of_map. split.
    - intros (l & [Hl _]%list_elem_of_filter & ->). done.
    - intros Hx. pose proof (proj1 (Hg x) Hx) as Hx'. inversion Hx' as [l r Hl ? ? ? ? Heq].
      exists l. split; [|done]. apply list_elem_of_filter. rewrite elem_of_sort_by.
      by rewrite Heq. }
  exists vs. split; [done|]. split; [intros x; by rewrite Hid, Hg|].
  intros v rid Hv Hrid. destruct (Hvs v Hv) as (l & Hl & Hlv & Hr). rewrite elem_of_sort_by in Hl.
  rewrite Hr in Hrid. apply elem_of_map in Hrid as (r & Hrm & ->).
  apply minimal_routes_elem in Hrm as [Hrin Hrg].
  destruct (Hstep l Hl) as [Hh _]; [apply Hid; rewrite Hlv; by apply elem_of_map_1|].
  apply elem_of_selected in Hl as (l0 & Hl0 & Hsel & _ & ->).
  apply elem_of_lfilter in Hrin as [Hrin Hst%bool_decide_eq_true_1].
  apply route_grounded_true in Hrg as [Ha Hd].
  exists l0, r. split_and!; try done. intros d ?%Hd. by apply Hid.
Qed.

(** Minimising support environments keeps input environments only, keeps
    no two comparable ones of one scope, binding and universe, covers every
    dropped environment by a kept subset, and does not depend on input order. *)
Theorem minimize_support_environments_antichain envs :
  NoDup (map env_id envs) → (∀ e, e ∈ envs → NoDup (env_assumption_ids e)) →
  let m := minimize_support_environments envs in
  (∀ e, e ∈ m → e ∈ envs) ∧
  (∀ i j x y, m !! i = Some x → m !! j = Some y → i ≠ j → environment_dominates x y = false) ∧
  (∀ e, e ∈ envs → ∃ x, x ∈ m ∧ environment_dominates x e = true) ∧
  (∀ envs', envs' ≡ₚ envs → minimize_support_environments envs' = m).
Proof.
  intros Hid Hnd m. unfold m, minimize_support_environments.
  assert (Hel : ∀ x, x ∈ sort_by environment_key (map_to_list (dict_by env_id envs)).*2 ↔ x ∈ envs).
  { intros x. by rewrite elem_of_sort_by, dict_values_perm. }
  split_and!.
  - intros e He%scan_minimal_elem. by apply Hel.
  - intros i j x y Hi Hj Hne. pose proof (list_elem_of_lookup_2 _ _ _ Hi) as Hx%scan_minimal_elem%Hel.
    pose proof (list_elem_of_lookup_2 _ _ _ Hj) as Hy%scan_minimal_elem%Hel.
    revert Hi Hj Hne. eapply (scan_minimal_antichain _ (λ x y, x ∈ envs ∧ y ∈ envs ∧ key_le environment_key x y)).
    + apply StronglySorted_elem; [apply sort_by_sorted|]. intros z. by rewrite Hel.
    + intros a b (Ha & Hb & Hab) [Hu Hsub]%andb_true_iff. unfold environment_dominates.
      apply same_universe_true in Hu as (E1 & E2 & E3).
      assert (Hu' : same_universe a b = true) by by apply same_universe_true.
      rewrite Hu'. apply subset_true. apply subset_true in Hsub.
      apply NoDup_subset_eq_length; [auto|done|]. by eapply environment_key_le_card.
  - intros e He. rewrite <-Hel in He.
    destruct (scan_minimal_cover environment_dominates _ _ He) as [H|H]; [|done].
    exists e. split; [done|]. unfold environment_dominates.
    rewrite (proj2 (same_universe_true e e)) by done. by apply subset_true.
  - intros envs' Hp. by rewrite (dict_by_perm env_id envs' envs) by (try done; by rewrite Hp).
Qed.

(** Version ancestry is accepted exactly when every predecessor is a
    recorded version and no version is its own ancestor. *)
Theorem ancestry_is_acyclic_correct versions :
  NoDup (map fst versions) →
  ancestry_is_acyclic versions = true ↔
  (∀ v ps p, (v, ps) ∈ versions → p ∈ ps → p ∈ map fst versions) ∧
  ∀ v, ¬ tc (λ a b, ∃ ps, (a, ps) ∈ versions ∧ b ∈ ps) v v.
Proof.
  intros Hnd. unfold ancestry_is_acyclic. set (graph := snd <$> dict_by fst versions).
  assert (Hkeys : ∀ v, v ∈ map fst versions ↔ is_Some (graph !! v)).
  { intros v. unfold graph. rewrite lookup_fmap, fmap_is_Some. split.
    - intros (x & Hx & ->)%elem_of_map. by apply dict_by_is_Some.
    - intros [x [Hx <-]%dict_by_Some]. by apply elem_of_map_1. }
  assert (Hedge : ∀ a b, edge graph a b ↔ ∃ ps, (a, ps) ∈ versions ∧ b ∈ ps).
  { intros a b. unfold edge, successors, graph. rewrite lookup_fmap. split.
    - destruct (dict_by fst versions !! a) as [[a' ps]|] eqn:E; [|by intros ?%not_elem_of_nil].
      apply dict_by_Some in E as [Hin Heq]. cbn in Heq. subst a'. cbn. eauto.
    - intros (ps & Hin & Hb). by rewrite (dict_by_NoDup fst versions (a, ps) Hnd Hin). }
  rewrite (dfs_acyclic_iff graph _ Hkeys). setoid_rewrite <-Hkeys. split; intros [Hk Hc]; split.
  - intros v ps p Hin Hp. apply (Hk v). apply Hedge. eauto.
  - intros v Hv. apply (Hc v). eapply (tc_congruence (λ x, x)); [|done].
    intros a b Hab. by apply Hedge.
  - intros v w (ps & Hin & Hw)%Hedge. by eapply Hk.
  - intros v Hv. apply (Hc v). eapply (tc_congruence (λ x, x)); [|done].
    intros a b Hab. by apply Hedge.
Qed.

(** ** A concrete theory *)

Module Sample.
Definition scope : Scope := MkScope "s" "rev" [] None None false.
Definition fp : string := scope_fingerprint scope.
Definition art : ArtifactRef := MkArtifactRef "d" 1 None None.
Definition evidence (pid : string) (k : PropositionKind) : Evidence :=
  MkEvidence ("ev-" +:+ pid) INDEPENDENT_WITNESS pid k fp art false None.
Definition verdict (pid : string) (k : PropositionKind) : CheckerVerdictRecord :=
  MkCheckerVerdictRecord ("cv-" +:+ pid) ("ev-" +:+ pid) art pid k fp "checker" "1" VALID art (Some art).
Definition ref (pid : string) : CheckReference := MkCheckReference ("ev-" +:+ pid) ("cv-" +:+ pid).
Definition environment (id : string) (assumed : list string) : SupportEnvironment :=
  MkSupportEnvironment id fp "rev" assumed None (ref id).
Definition route (id lemma rel : string) (assumed deps : list string) : SupportRoute :=
  MkSupportRoute id lemma (environment ("env-" +:+ id) assumed) deps [] (ref rel) [] [] [].
Definition lemma (id rel : string) (routes : list SupportRoute) : WarrantedLemma :=
  MkWarrantedLemma
    (MkLemmaVersion id rel EXISTENTIAL scope (MkApplicability "always" []) ["c"] [])
    (MkLemmaSupport id "policy" routes [] HARD [] []).
Definition lemmas : list WarrantedLemma :=
  [lemma "L1" "p" [route "r1" "L1" "p" ["a"] []];
   lemma "L2" "p" [route "r2" "L2" "p" [] ["L1"]]].
Definition evs := [evidence "p" EXISTENTIAL; evidence "env-r1" EXISTENTIAL; evidence "env-r2" EXISTENTIAL].
Definition cvs := [verdict "p" EXISTENTIAL; verdict "env-r1" EXISTENTIAL; verdict "env-r2" EXISTENTIAL].
Definition selector (assumed : list string) : TheorySelector :=
  MkTheorySelector fp "rev" None "policy" assumed [].
End Sample.

Lemma support_graph_is_acyclic_correct_witness :
  ¬ tc (λ a b, ∃ l r, l ∈ Sample.lemmas ∧ wl_id l = a ∧ r ∈ all_support_routes (wl_support l) ∧
                      b ∈ route_required_dependency_ids r ∧ b ∈ map wl_id Sample.lemmas) "L2" "L2".
Proof.
  generalize "L2". apply (support_graph_is_acyclic_correct Sample.lemmas).
  - apply uniq_true. vm_compute. reflexivity.
  - vm_compute. reflexivity.
Defined.

Lemma select_active_theory_closed_witness :
  ∃ views, select_active_theory Sample.evs Sample.cvs ["checker"] Sample.lemmas
             (Sample.selector ["a"]) [] [] [] = Ok views ∧ length views = 2.
Proof.
  destruct (select_active_theory_closed Sample.evs Sample.cvs ["checker"] Sample.lemmas
             (Sample.selector ["a"]) [] [] []) as (views & Hv & _).
  - apply uniq_true. vm_compute. reflexivity.
  - intros l Hl. repeat (apply elem_of_cons in Hl as [->|Hl]; [vm_compute; reflexivity|]).
    by apply not_elem_of_nil in Hl.
  - exists views. split; [exact Hv|]. vm_compute in Hv. injection Hv as <-. reflexivity.
Defined.

Lemma minimize_support_environments_antichain_witness :
  ∃ m, minimize_support_environments
         [Sample.environment "e1" ["a"; "b"]; Sample.environment "e2" ["a"]] = m ∧
       ∀ i j x y, m !! i = Some x → m !! j = Some y → i ≠ j → environment_dominates x y = false.
Proof.
  eexists. split; [reflexivity|]. apply minimize_support_environments_antichain.
  - apply uniq_true. vm_compute. reflexivity.
  - intros e He. repeat (apply elem_of_cons in He as [->|He];
      [apply uniq_true; vm_compute; reflexivity|]). by apply not_elem_of_nil in He.
Defined.

Lemma ancestry_is_acyclic_correct_witness :
  (∀ v ps p, (v, ps) ∈ [("a", []); ("b", ["a"])] → p ∈ ps → p ∈ map fst [("a", []); ("b", ["a"])])
  ∧ ∀ v, ¬ tc (λ a b, ∃ ps, (a, ps) ∈ [("a", []); ("b", ["a"])] ∧ b ∈ ps) v v.
Proof.
  apply (ancestry_is_acyclic_correct [("a", []); ("b", ["a"])]).
  - apply uniq_true. vm_compute. reflexivity.
  - vm_compute. reflexivity.
Defined.
