(* ===== verification/Cycles.v ===== *)
(** * Ungrounded support cycles: [src/rci/warrant/support.py]

    [ungrounded_support_cycles]: the depth-first search over the open
    dependencies of the lemmas that are not grounded, with its indices,
    lowlinks and stack, which reports the recursive components; and
    [active_lemma_views].  [connect] recurses on fuel, one unit per node that
    has no index yet; Python's recursion limit is not modelled.  Theorem: the
    report is exactly the sorted list of the strongly connected components that
    contain a cycle. *)

From stdpp Require Import relations.
From S2P Require Import Prelude Digest Model Claims Warrant Support.

(** [active_lemma_views] is another name of [select_active_theory]. *)
Definition active_lemma_views := select_active_theory.

(** ** The search *)

(** The variables [connect] shares; the head of [stack] is its last element. *)
Record Search : Type := MkSearch {
  index : nat;
  indices : gmap string nat;
  lowlinks : gmap string nat;
  stack : list string;
  on_stack : gset string;
  components : list (list string);
}.

Definition empty_search : Search := MkSearch 0 ∅ ∅ [] ∅ [].

Section search.
Context (graph : gmap string (list string)).

(** [sorted(graph[node])] *)
Definition sorted_successors (node : string) : list string := sorted_set (default [] (graph !! node)).

(** The statements of [connect] before its loop. *)
Definition push (node : string) (s : Search) : Search :=
  MkSearch (S (index s)) (<[node := index s]> (indices s)) (<[node := index s]> (lowlinks s))
    (node :: stack s) ({[node]} ∪ on_stack s) (components s).

Definition index_of (m : gmap string nat) (node : string) : nat := default 0 (m !! node).

(** [lowlinks[node] = min(lowlinks[node], value)] *)
Definition lower_link (node : string) (value : nat) (s : Search) : Search :=
  MkSearch (index s) (indices s) (<[node := Nat.min (index_of (lowlinks s) node) value]> (lowlinks s))
    (stack s) (on_stack s) (components s).

(** [while True: member = stack.pop(); ...; if member == node: break] *)
Fixpoint pop_until (node : string) (st : list string) : list string * list string :=
  match st with
  | [] => ([], [])
  | member :: st =>
    if member ==? node then ([member], st)
    else let '(component, rest) := pop_until node st in (member :: component, rest)
  end.

(** The statements of [connect] after its loop. *)
Definition close (node : string) (s : Search) : Search :=
  if index_of (lowlinks s) node =? index_of (indices s) node then
    let '(component, rest) := pop_until node (stack s) in
    let ordered := sorted component in
    MkSearch (index s) (indices s) (lowlinks s) rest (on_stack s ∖ list_to_set component)
      (if (1 <? length ordered) || mem node (default [] (graph !! node))
       then components s ++ [ordered] else components s)
  else s.

(** The loop over the successors. *)
Fixpoint visit_each (connect : string → Search → option Search) (node : string) (ws : list string) (s : Search) :
    option Search :=
  match ws with
  | [] => Some s
  | w :: ws =>
    if is_none (indices s !! w) then
      s ← connect w s;
      visit_each connect node ws (lower_link node (index_of (lowlinks s) w) s)
    else if bool_decide (w ∈ on_stack s) then
      visit_each connect node ws (lower_link node (index_of (indices s) w) s)
    else visit_each connect node ws s
  end.

Fixpoint connect (fuel : nat) (node : string) (s : Search) : option Search :=
  match fuel with
  | O => None
  | S fuel =>
    s ← visit_each (connect fuel) node (sorted_successors node) (push node s);
    Some (close node s)
  end.

(** [for node in sorted(graph): if node not in indices: connect(node)] *)
Fixpoint connect_all (fuel : nat) (keys : list string) (s : Search) : option Search :=
  match keys with
  | [] => Some s
  | node :: keys =>
    if is_none (indices s !! node) then s ← connect fuel node s; connect_all fuel keys s
    else connect_all fuel keys s
  end.

Definition recursive_components : option (list (list string)) :=
  s ← connect_all (S (size graph)) (sorted (elements (dom graph))) empty_search;
  Some (sorted (components s)).
End search.

Section cycles.
Context (evidence_records : list Evidence) (checker_verdicts : list CheckerVerdictRecord)
        (authorized_checker_ids current_assumption_ids current_context_ids : list string) (nogoods : list Nogood).

Definition open_dependencies (unresolved : gset string) (lemma : WarrantedLemma) : list string :=
  filter (λ d, d ∈ unresolved) (flat_map route_open_dependency_ids (ls_support_routes (wl_support lemma))).

Definition ungrounded_graph (lemmas : list WarrantedLemma) : gmap string (list string) :=
  let by_id := dict_by wl_id lemmas in
  let grounded := grounded_lemma_ids evidence_records checker_verdicts authorized_checker_ids
                    current_assumption_ids current_context_ids nogoods lemmas in
  let unresolved := dom by_id ∖ grounded in
  open_dependencies unresolved <$> filter (λ '(id, _), id ∈ unresolved) by_id.

Definition ungrounded_support_cycles (lemmas : list WarrantedLemma) : option (list (list string)) :=
  recursive_components (ungrounded_graph lemmas).
End cycles.

(** ** Reachability and components *)

Section correctness.
Context (graph : gmap string (list string)).
Hypothesis Hclosed : ∀ v ws w, graph !! v = Some ws → w ∈ ws → is_Some (graph !! w).

Definition depends (v w : string) : Prop := w ∈ default [] (graph !! v).
Definition reaches : string → string → Prop := rtc depends.

(** The strongly connected component of [v], as a sorted list. *)
Definition is_component (v : string) (c : list string) : Prop :=
  sorted c = c ∧ NoDup c ∧ ∀ w, w ∈ c ↔ reaches v w ∧ reaches w v.

(** [v] lies on a cycle. *)
Definition on_cycle (v : string) : Prop := ∃ w, depends v w ∧ reaches w v.

Lemma elem_of_sorted_successors v w : w ∈ sorted_successors graph v ↔ depends v w.
Proof. apply elem_of_sorted_set. Qed.

Lemma depends_node v w : depends v w → is_Some (graph !! w).
Proof.
  unfold depends. destruct (graph !! v) as [ws|] eqn:E; cbn; [|by intros ?%not_elem_of_nil]. by apply (Hclosed v ws w).
Qed.

Lemma component_unique v w c d : reaches v w → reaches w v → is_component v c → is_component w d → c = d.
Proof.
  intros Hvw Hwv (Hc & Hnc & Ec) (Hd & Hnd & Ed). rewrite <-Hc, <-Hd.
  apply sort_by_unique; [by rewrite list_fmap_id|]. apply NoDup_Permutation; [done..|].
  intros x. rewrite Ec, Ed. unfold reaches in *. split; intros [? ?]; split; by etrans.
Qed.

Lemma sorted_component v c : NoDup c → (∀ w, w ∈ c ↔ reaches v w ∧ reaches w v) → is_component v (sorted c).
Proof.
  intros Hn Hc. split; [apply sort_by_idemp|]. split.
  - unfold sorted. by rewrite sort_by_perm.
  - intros w. by rewrite elem_of_sorted.
Qed.

(** ** The invariant of the search *)

Definition seen (s : Search) (v : string) : Prop := is_Some (indices s !! v).
Definition below (s : Search) (x y : string) : Prop :=
  ∃ m n, indices s !! x = Some m ∧ indices s !! y = Some n ∧ m ≤ n.
Definition finished (s : Search) (v : string) : Prop := seen s v ∧ v ∉ stack s.

(** [path] holds the nodes whose calls are running. *)
Record Sound (path : list string) (s : Search) : Prop := MkSound {
  sound_index : ∀ v n, indices s !! v = Some n → n < index s;
  sound_on_stack : on_stack s = list_to_set (stack s);
  sound_nodup : NoDup (stack s);
  sound_stack : ∀ v, v ∈ stack s → seen s v;
  sound_path : ∀ v, v ∈ path → v ∈ stack s;
  sound_explored : ∀ v w, seen s v → v ∉ path → depends v w → seen s w;
  sound_finished : ∀ v w, finished s v → depends v w → finished s w;
  sound_up : ∀ x y, x ∈ stack s → y ∈ stack s → below s x y → reaches x y;
  sound_down : ∀ y, y ∈ stack s → ∃ g, g ∈ path ∧ below s g y ∧ reaches y g;
  sound_components : ∀ c, c ∈ components s ↔ ∃ v, finished s v ∧ is_component v c ∧ on_cycle v;
  sound_components_nodup : NoDup (components s);
}.

(** What [connect] does to the shared variables. *)
Record Grows (s s' : Search) : Prop := MkGrows {
  grows_index : index s ≤ index s';
  grows_indices : ∀ u n, indices s !! u = Some n → indices s' !! u = Some n;
  grows_new : ∀ u n, indices s' !! u = Some n → indices s !! u = None → index s ≤ n;
}.

#[local] Instance grows_trans : Transitive Grows.
Proof.
  intros s1 s2 s3 [H1 H2 H3] [H4 H5 H6]. split; [lia|auto|].
  intros u n Hu Hn. destruct (indices s2 !! u) as [k|] eqn:E.
  - rewrite (H5 _ _ E) in Hu. injection Hu as <-. eauto.
  - specialize (H6 _ _ Hu E). lia.
Qed.

Lemma grows_seen s s' v : Grows s s' → seen s v → seen s' v.
Proof. intros H [n Hn]. exists n. by apply (grows_indices _ _ H). Qed.

(** What a call adds to the stack, and what its lowlink says about it. *)
Definition low (s : Search) (v : string) : nat := index_of (lowlinks s) v.

Definition bounded_by (l : nat) (s : Search) (x : string) : Prop :=
  ∀ w m, w ∈ stack s → depends x w → indices s !! w = Some m → l ≤ m.

Definition linked (l : nat) (s : Search) (v : string) : Prop :=
  ∃ w, w ∈ stack s ∧ indices s !! w = Some l ∧ reaches v w.

Definition connected (path : list string) (v : string) (s s' : Search) : Prop :=
  Sound path s' ∧ Grows s s' ∧ seen s' v
  ∧ (∀ u, seen s u → lowlinks s' !! u = lowlinks s !! u)
  ∧ ∃ new, stack s' = new ++ stack s ∧ (∀ x, x ∈ new → ¬ seen s x)
           ∧ (new = [] ∧ index s ≤ low s' v ∨ linked (low s' v) s v)
           ∧ ∀ x, x ∈ new → bounded_by (low s' v) s x.

(** The loop of [connect v], entered from [s0], after the successors [done]. *)
Definition looping (path : list string) (v : string) (s0 s : Search) (done : list string) : Prop :=
  Sound (v :: path) s ∧ Grows s0 s ∧ indices s !! v = Some (index s0)
  ∧ (∀ u, seen s0 u → lowlinks s !! u = lowlinks s0 !! u)
  ∧ ∃ new, stack s = new ++ v :: stack s0 ∧ (∀ x, x ∈ new → ¬ seen s0 x)
           ∧ (low s v = index s0 ∨ low s v < index s0 ∧ linked (low s v) s0 v)
           ∧ (∀ x, x ∈ new → bounded_by (low s v) s0 x)
           ∧ ∀ w, w ∈ done → seen s w ∧ ∀ m, w ∈ stack s0 → indices s0 !! w = Some m → low s v ≤ m.

Lemma sound_lower path s v l : Sound path s → Sound path (lower_link v l s).
Proof. by intros []. Qed.

Lemma low_lower s v l : low (lower_link v l s) v = Nat.min (low s v) l.
Proof. unfold low, lower_link, index_of. cbn. by rewrite lookup_insert_eq. Qed.

Lemma below_seen s x y : below s x y → seen s x ∧ seen s y.
Proof. intros (m & n & Hm & Hn & _). split; by eexists. Qed.

Lemma grows_below s s' x y : Grows s s' → below s x y → below s' x y.
Proof. intros H (m & n & Hm & Hn & Hl). exists m, n. split_and!; [by apply (grows_indices _ _ H)..|done]. Qed.

Lemma grows_below_inv s s' x y : Grows s s' → seen s x → seen s y → below s' x y → below s x y.
Proof.
  intros H [m Hm] [n Hn] (m' & n' & Hm' & Hn' & Hl). exists m, n. split_and!; [done..|].
  rewrite (grows_indices _ _ H _ _ Hm) in Hm'. rewrite (grows_indices _ _ H _ _ Hn) in Hn'. naive_solver.
Qed.

(** ** Entering a node *)

Lemma grows_push v s : indices s !! v = None → Grows s (push v s).
Proof.
  intros Hv. split; cbn; [lia| |].
  - intros u n Hu. rewrite lookup_insert_ne; [done|]. intros ->. by rewrite Hv in Hu.
  - intros u n Hu Hn. apply lookup_insert_Some in Hu as [[_ <-]|[_ Hu]]; [done|by rewrite Hu in Hn].
Qed.

Lemma seen_push v s u : seen (push v s) u ↔ u = v ∨ seen s u.
Proof. unfold seen. cbn. rewrite lookup_insert_is_Some'. naive_solver. Qed.

Lemma finished_push path v s u : Sound path s → indices s !! v = None → finished (push v s) u ↔ finished s u.
Proof.
  intros Hs Hv. unfold finished. rewrite seen_push. cbn. rewrite not_elem_of_cons. split; [naive_solver|].
  intros [Hu Hn]. split_and!; [by right| |done]. intros ->. destruct Hu as [n Hu]. by rewrite Hv in Hu.
Qed.

Lemma sound_push path v s : Sound path s → indices s !! v = None → (∀ g, g ∈ path → reaches g v) →
  Sound (v :: path) (push v s).
Proof.
  intros Hs Hv Hpath. pose proof (grows_push v s Hv) as Hg.
  assert (∀ u, u ∈ stack s → u ≠ v) as Hne.
  { intros u Hu ->. destruct (sound_stack _ _ Hs _ Hu) as [n Hn]. by rewrite Hv in Hn. }
  assert (∀ x, x ∈ stack s → reaches x v) as Htop.
  { intros x (g & Hg' & _ & Hr)%(sound_down _ _ Hs). unfold reaches in *. etrans; [done|by apply Hpath]. }
  split.
  - cbn. intros u n [[_ <-]|[_ Hu]]%lookup_insert_Some; [lia|]. apply (sound_index _ _ Hs) in Hu. lia.
  - cbn. by rewrite (sound_on_stack _ _ Hs).
  - cbn. apply NoDup_cons. split; [|apply Hs]. intros Hin. by apply (Hne v).
  - intros u [->|Hu]%elem_of_cons; apply seen_push; [by left|right; by apply (sound_stack _ _ Hs)].
  - intros u [->|Hu]%elem_of_cons; [left|right; by apply (sound_path _ _ Hs)].
  - intros u w Hu Hn Hd. apply seen_push. right. apply seen_push in Hu. apply not_elem_of_cons in Hn as [? ?].
    destruct Hu as [->|Hu]; [done|]. by apply (sound_explored _ _ Hs u).
  - intros u w Hu Hd. rewrite (finished_push path) in Hu |- * by done. by apply (sound_finished _ _ Hs u).
  - intros x y Hx Hy Hb. apply elem_of_cons in Hx, Hy. destruct Hx as [->|Hx], Hy as [->|Hy].
    + apply rtc_refl.
    + exfalso. destruct Hb as (m & n & Hm & Hn & Hl). cbn in Hm, Hn. rewrite lookup_insert_eq in Hm. injection Hm as <-.
      rewrite lookup_insert_ne in Hn by (by intros ->; apply (Hne y)). apply (sound_index _ _ Hs) in Hn. lia.
    + by apply Htop.
    + apply (sound_up _ _ Hs); [done..|]. eapply grows_below_inv; [done|by apply (sound_stack _ _ Hs)..|done].
  - intros y [->|Hy]%elem_of_cons.
    + exists v. split; [left|]. split; [|apply rtc_refl]. exists (index s), (index s). cbn. rewrite lookup_insert_eq. auto.
    + destruct (sound_down _ _ Hs y Hy) as (g & ? & ? & ?). exists g. split; [by right|]. split; [by eapply grows_below|done].
  - intros c. cbn. rewrite (sound_components _ _ Hs). by setoid_rewrite (finished_push path v s _ Hs Hv).
  - apply Hs.
Qed.

Lemma grows_lower s s' v l : Grows s s' → Grows s (lower_link v l s').
Proof. by intros []. Qed.

(** ** One turn of the loop *)

Lemma looping_enter path v s : Sound path s → indices s !! v = None → (∀ g, g ∈ path → reaches g v) →
  looping path v s (push v s) [].
Proof.
  intros Hs Hv Hpath. split; [by apply sound_push|]. split; [by apply grows_push|]. cbn. rewrite lookup_insert_eq.
  split; [done|]. split.
  - intros u [n Hu]. rewrite lookup_insert_ne; [done|]. intros ->. by rewrite Hv in Hu.
  - exists []. split_and!; [done|by intros x ?%not_elem_of_nil| | |by intros w ?%not_elem_of_nil].
    + left. unfold low, index_of. cbn. by rewrite lookup_insert_eq.
    + by intros x ?%not_elem_of_nil.
Qed.

Section turns.
Context (path : list string) (v : string) (s0 s : Search) (done : list string).
Hypothesis Hs0 : Sound path s0.
Hypothesis Hv0 : indices s0 !! v = None.
Hypothesis Hl : looping path v s0 s done.

(** A stack node of [s] with an index below that of [v] was there at the entry. *)
Lemma older w n : w ∈ stack s → indices s !! w = Some n → n < index s0 → w ∈ stack s0 ∧ indices s0 !! w = Some n.
Proof.
  destruct Hl as (_ & Hg & Hi & _ & new & Hst & Hnew & _). intros Hw Hn Hlt.
  destruct (indices s0 !! w) as [k|] eqn:E.
  - pose proof (grows_indices _ _ Hg _ _ E) as E'. rewrite E' in Hn. injection Hn as ->. split; [|done].
    rewrite Hst in Hw. apply elem_of_app in Hw as [Hw|[->|Hw]%elem_of_cons]; [|by rewrite Hv0 in E|done].
    destruct (Hnew w Hw). by eexists.
  - pose proof (grows_new _ _ Hg _ _ Hn E). lia.
Qed.

(** [lowlinks[v] = min(lowlinks[v], l)] where [l] is the index of a stack node
    that [v] reaches, or too large to count. *)
Lemma lowered l (s' := lower_link v l s) :
  (index s0 ≤ l ∨ ∃ w, w ∈ stack s ∧ indices s !! w = Some l ∧ reaches v w) →
  (low s' v = index s0 ∨ low s' v < index s0 ∧ linked (low s' v) s0 v) ∧ low s' v ≤ low s v ∧ low s' v ≤ l.
Proof.
  unfold s'. rewrite low_lower. intros H. split; [|lia].
  destruct Hl as (_ & _ & _ & _ & new & _ & _ & Hlow & _).
  destruct (Nat.lt_ge_cases l (low s v)) as [Hlt|Hge].
  - rewrite Nat.min_r by lia. right. assert (l < index s0) as Hlt0 by (destruct Hlow as [?|[? _]]; lia).
    split; [done|]. destruct H as [H|(w & Hw & Hi & Hr)]; [lia|].
    destruct (older w l Hw Hi Hlt0). by exists w.
  - by rewrite Nat.min_l by lia.
Qed.

Lemma turn_connected w s1 : depends v w → ¬ seen s w → connected (v :: path) w s s1 →
  looping path v s0 (lower_link v (low s1 w) s1) (w :: done).
Proof.
  intros Hd Hw (Hs1 & Hg1 & Hw1 & Hf1 & new1 & Hst1 & Hnew1 & Hl1 & Hb1).
  pose proof Hl as (Hs & Hg & Hi & Hf & new & Hst & Hnew & Hlow & Hb & Hdone).
  assert (low s1 v = low s v) as Hlv by (unfold low, index_of; by rewrite Hf1 by by eexists).
  assert (index s0 ≤ low s1 w ∨ ∃ x, x ∈ stack s ∧ indices s !! x = Some (low s1 w) ∧ reaches v x) as Hcase.
  { destruct Hl1 as [[_ H]|(x & ? & ? & Hr)].
    - left. pose proof (grows_index _ _ Hg). lia.
    - right. exists x. split_and!; [done..|]. unfold reaches in *. by eapply rtc_l. }
  destruct (lowered _ Hcase) as (Hl' & Hle & Hle'). rewrite !low_lower in *. rewrite <-Hlv in Hl', Hle, Hle'.
  split; [by apply sound_lower|]. split; [apply grows_lower; by etrans|]. split; [by apply (grows_indices _ _ Hg1)|]. split.
  { intros u Hu. cbn. rewrite lookup_insert_ne by (intros ->; destruct Hu as [? Hu]; by rewrite Hv0 in Hu).
    rewrite Hf1 by by eapply grows_seen. by apply Hf. }
  exists (new1 ++ new). rewrite low_lower. split_and!; [cbn; by rewrite Hst1, Hst, <-app_assoc| |done| |].
  - intros x [Hx|Hx]%elem_of_app; [|by apply Hnew]. intros H. by apply (Hnew1 x Hx), (grows_seen _ _ _ Hg).
  - intros x [Hx|Hx]%elem_of_app z m Hz Hxz Hm.
    + etrans; [exact Hle'|]. apply (Hb1 x Hx z m); [|done|by apply (grows_indices _ _ Hg)].
      rewrite Hst, elem_of_app, elem_of_cons. auto.
    + etrans; [exact Hle|]. rewrite Hlv. by apply (Hb x Hx z m).
  - intros z [->|Hz]%elem_of_cons.
    + split; [exact Hw1|]. intros m Hz Hm. destruct Hw. apply (grows_seen _ _ _ Hg). by eexists.
    + split; [by apply (grows_seen _ _ _ Hg1), (Hdone z Hz)|].
      intros m Hz' Hm. etrans; [exact Hle|]. rewrite Hlv. by apply (Hdone z Hz).
Qed.

Lemma turn_on_stack w n : depends v w → w ∈ stack s → indices s !! w = Some n →
  looping path v s0 (lower_link v n s) (w :: done).
Proof.
  intros Hd Hw Hn. pose proof Hl as (Hs & Hg & Hi & Hf & new & Hst & Hnew & Hlow & Hb & Hdone).
  destruct (lowered n) as (Hl' & Hle & Hle').
  { right. exists w. split_and!; [done..|]. by apply rtc_once. }
  split; [by apply sound_lower|]. split; [by apply grows_lower|]. split; [done|]. split.
  { intros u Hu. cbn. rewrite lookup_insert_ne by (intros ->; destruct Hu as [? Hu]; by rewrite Hv0 in Hu). by apply Hf. }
  exists new. split_and!; [done..| |].
  - intros x Hx z m Hz Hxz Hm. etrans; [exact Hle|]. by apply (Hb x Hx z m).
  - intros z [->|Hz]%elem_of_cons.
    + split; [by exists n|]. intros m Hz Hm. rewrite (grows_indices _ _ Hg _ _ Hm) in Hn. by injection Hn as ->.
    + split; [by apply (Hdone z Hz)|]. intros m Hz' Hm. etrans; [exact Hle|]. by apply (Hdone z Hz).
Qed.

Lemma turn_finished w : seen s w → w ∉ stack s → looping path v s0 s (w :: done).
Proof.
  intros Hw Hn. pose proof Hl as (Hs & Hg & Hi & Hf & new & Hst & Hnew & Hlow & Hb & Hdone).
  split_and!; [done..|]. exists new. split_and!; [done..|].
  intros z [->|Hz]%elem_of_cons; [|by apply Hdone]. split; [done|]. intros m Hz _.
  destruct Hn. rewrite Hst, elem_of_app, elem_of_cons. auto.
Qed.
End turns.

(** ** Leaving a node *)

Lemma pop_until_spec v new st : v ∉ new → pop_until v (new ++ v :: st) = (new ++ [v], st).
Proof.
  induction new as [|x new IH]; intros Hv; cbn; [by rewrite bool_decide_true|].
  apply not_elem_of_cons in Hv as [Hx Hv]. rewrite bool_decide_false by done. by rewrite IH.
Qed.

Lemma finished_reaches path s x y : Sound path s → finished s x → reaches x y → finished s y.
Proof. intros Hs Hx Hr. induction Hr as [|x z y Hxz _ IH]; [done|]. apply IH. by apply (sound_finished _ _ Hs x). Qed.

Lemma on_cycle_transport u v : reaches u v → reaches v u → on_cycle u → on_cycle v.
Proof.
  unfold reaches. intros Huv Hvu (w & Hd & Hr). destruct (rtc_inv _ _ Hvu) as [->|(z & Hz & Hzu)]; [by exists w|].
  exists z. split; [done|]. unfold reaches. by etrans.
Qed.

(** The test on a component before it is reported. *)
Lemma on_cycle_iff v c : is_component v c →
  ((1 <? length c) || mem v (default [] (graph !! v)) = true ↔ on_cycle v).
Proof.
  intros (_ & Hn & Hc). assert (v ∈ c) as Hv by (apply Hc; split; apply rtc_refl).
  rewrite orb_true_iff, Nat.ltb_lt, mem_true. split.
  - intros [Hlen|Hself]; [|exists v; split; [done|apply rtc_refl]].
    destruct c as [|x [|y c]]; cbn in Hlen; [lia..|].
    assert (∃ z, z ∈ x :: y :: c ∧ z ≠ v) as (z & Hz & Hzv).
    { apply NoDup_cons in Hn as [Hx _]. destruct (decide (x = v)) as [->|?]; [|exists x; split; [left|done]].
      exists y. split; [right; left|]. intros ->. apply Hx. left. }
    apply Hc in Hz as [Hvz Hzv']. destruct (rtc_inv _ _ Hvz) as [->|(u & Hu & Huz)]; [done|].
    exists u. split; [done|]. unfold reaches in *. by etrans.
  - intros (w & Hd & Hr). destruct (decide (w = v)) as [->|Hne]; [by right|]. left.
    assert (w ∈ c) as Hw by (apply Hc; split; [by apply rtc_once|done]).
    destruct c as [|x [|y c]]; cbn; [by apply elem_of_nil in Hv| |lia].
    apply list_elem_of_singleton in Hv, Hw. congruence.
Qed.

Section leaving.
Context (path : list string) (v : string) (s0 s : Search) (done : list string).
Hypothesis Hs0 : Sound path s0.
Hypothesis Hv0 : indices s0 !! v = None.
Hypothesis Hpath : ∀ g, g ∈ path → reaches g v.
Hypothesis Hl : looping path v s0 s done.
Hypothesis Hdone : ∀ w, depends v w → w ∈ done.

Lemma path_seen g : g ∈ path → seen s0 g.
Proof. intros Hg. by apply (sound_stack _ _ Hs0), (sound_path _ _ Hs0). Qed.

Lemma explored_all x w : seen s x → x ∉ path → depends x w → seen s w.
Proof.
  destruct Hl as (Hs & _ & _ & _ & new & _ & _ & _ & _ & Hd). intros Hx Hn Hxw.
  destruct (decide (x = v)) as [->|Hne]; [by apply (Hd w), Hdone|].
  apply (sound_explored _ _ Hs x); [done| |done]. by apply not_elem_of_cons.
Qed.

(** The lowlink is not below the index: the component of [v] is complete. *)
Section root.
Context (new : list string).
Hypothesis Hst : stack s = new ++ v :: stack s0.
Hypothesis Hnew : ∀ x, x ∈ new → ¬ seen s0 x.
Hypothesis Hlow : low s v = index s0.

Lemma component_edge x w : x ∈ new ++ [v] → depends x w → w ∈ new ++ [v] ∨ finished s w.
Proof.
  destruct Hl as (Hs & Hg & Hi & _ & new' & Hst' & _ & _ & Hb & Hd). rewrite Hst in Hst'.
  apply app_inv_tail in Hst' as <-. intros Hx Hxw.
  assert (seen s w ∧ ∀ m, w ∈ stack s0 → indices s0 !! w = Some m → low s v ≤ m) as [Hw Hle].
  { apply elem_of_app in Hx as [Hx| ->%list_elem_of_singleton]; [|by apply Hd, Hdone]. split.
    - apply (explored_all x); [|by intros ?%path_seen; apply (Hnew x)|done].
      apply (sound_stack _ _ Hs). rewrite Hst, elem_of_app. by left.
    - intros m ??. by apply (Hb x Hx w). }
  destruct (decide (w ∈ stack s)) as [Hin|Hin]; [|by right]. left.
  rewrite Hst, elem_of_app, elem_of_cons in Hin. rewrite elem_of_app, list_elem_of_singleton.
  destruct Hin as [?|[?|Hin]]; [by left|by right|]. exfalso.
  destruct (sound_stack _ _ Hs0 w Hin) as [m Hm]. specialize (Hle m Hin Hm).
  apply (sound_index _ _ Hs0) in Hm. lia.
Qed.

Lemma component_closed x w : x ∈ new ++ [v] → reaches x w → w ∈ new ++ [v] ∨ finished s w.
Proof.
  intros Hx Hr. assert (x ∈ new ++ [v] ∨ finished s x) as Hx' by by left. clear Hx. revert Hx'.
  induction Hr as [|x z w Hxz _ IH]; [done|]. intros [Hx|Hx]; apply IH.
  - by apply (component_edge x).
  - right. destruct Hl as (Hs & _). by apply (sound_finished _ _ Hs x).
Qed.

Lemma v_not_finished : ¬ finished s v.
Proof. intros [_ H]. apply H. rewrite Hst, elem_of_app, elem_of_cons. auto. Qed.

Lemma component_members w : w ∈ new ++ [v] ↔ reaches v w ∧ reaches w v.
Proof.
  destruct Hl as (Hs & Hg & Hi & _). split.
  - intros [Hw| ->%list_elem_of_singleton]%elem_of_app; [|split; apply rtc_refl].
    assert (w ∈ stack s) as Hin by (rewrite Hst, elem_of_app; by left).
    assert (v ∈ stack s) as Hvin by (rewrite Hst, elem_of_app, elem_of_cons; auto). split.
    + apply (sound_up _ _ Hs); [done..|]. destruct (sound_stack _ _ Hs w Hin) as [n Hn].
      exists (index s0), n. split_and!; [done..|]. apply (grows_new _ _ Hg w n Hn).
      apply eq_None_not_Some, (Hnew w Hw).
    + destruct (sound_down _ _ Hs w Hin) as (g & [->|Hgp]%elem_of_cons & _ & Hr); [done|].
      unfold reaches in *. etrans; [done|]. by apply Hpath.
  - intros [Hvw Hwv]. destruct (component_closed v w) as [?|Hf]; [|done|done|].
    + rewrite elem_of_app, list_elem_of_singleton. by right.
    + destruct v_not_finished. by apply (finished_reaches _ _ w v Hs).
Qed.

Lemma component_is_component : is_component v (sorted (new ++ [v])).
Proof.
  apply sorted_component; [|apply component_members]. destruct Hl as (Hs & _).
  pose proof (sound_nodup _ _ Hs) as H. rewrite Hst, (cons_middle v), app_assoc in H.
  by apply NoDup_app in H as [H _].
Qed.

Definition popped : Search :=
  MkSearch (index s) (indices s) (lowlinks s) (stack s0) (on_stack s ∖ list_to_set (new ++ [v]))
    (if (1 <? length (sorted (new ++ [v]))) || mem v (default [] (graph !! v))
     then components s ++ [sorted (new ++ [v])] else components s).

Lemma close_root : close graph v s = popped.
Proof.
  destruct Hl as (Hs & _ & Hi & _). unfold close. unfold low in Hlow. rewrite Hlow. unfold index_of at 1.
  rewrite Hi. cbn [default]. rewrite Nat.eqb_refl, Hst, pop_until_spec; [done|].
  intros Hv. pose proof (sound_nodup _ _ Hs) as H. rewrite Hst in H. apply NoDup_app in H as (_ & H & _).
  apply (H v Hv). left.
Qed.

Lemma stack_apart x : x ∈ new ++ [v] → x ∉ stack s0.
Proof.
  destruct Hl as (Hs & _). pose proof (sound_nodup _ _ Hs) as H.
  rewrite Hst, (cons_middle v), app_assoc in H. apply NoDup_app in H as (_ & H & _). apply H.
Qed.

Lemma finished_popped x : finished popped x ↔ finished s x ∨ x ∈ new ++ [v].
Proof.
  destruct Hl as (Hs & _). unfold finished, seen. cbn. rewrite Hst, (cons_middle v), app_assoc. split.
  - intros [Hx Hn]. destruct (decide (x ∈ new ++ [v])); [by right|]. left. split; [done|].
    by rewrite elem_of_app; intros [?|?].
  - intros [[Hx Hn]|Hx].
    + split; [done|]. intros H. apply Hn, elem_of_app. by right.
    + split; [|by apply stack_apart]. apply (sound_stack _ _ Hs).
      rewrite Hst, (cons_middle v), app_assoc. apply elem_of_app. by left.
Qed.

Lemma popped_components c : c ∈ components popped ↔ ∃ x, finished popped x ∧ is_component x c ∧ on_cycle x.
Proof.
  destruct Hl as (Hs & _). pose proof component_is_component as Hcomp. setoid_rewrite finished_popped. cbn.
  transitivity (c ∈ components s ∨ on_cycle v ∧ c = sorted (new ++ [v])).
  { rewrite <-(on_cycle_iff v _ Hcomp). destruct (_ || _); [|naive_solver].
    rewrite elem_of_app, list_elem_of_singleton. naive_solver. }
  rewrite (sound_components _ _ Hs). split.
  - intros [(x & Hx & Hc)|[Hv ->]]; [exists x; split; [by left|done]|].
    exists v. split; [|done]. right. rewrite elem_of_app, list_elem_of_singleton. by right.
  - intros (x & [Hx|Hx] & Hc & Hcyc); [left; by exists x|]. right.
    apply component_members in Hx as [Hvx Hxv]. split; [by apply (on_cycle_transport x)|].
    by apply (component_unique x v).
Qed.

Lemma popped_sound : Sound path popped.
Proof.
  destruct Hl as (Hs & Hg & _). split.
  - apply (sound_index _ _ Hs).
  - cbn. rewrite (sound_on_stack _ _ Hs), Hst. apply leibniz_equiv. intros x.
    rewrite elem_of_difference, !elem_of_list_to_set, (cons_middle v), app_assoc, elem_of_app.
    pose proof (stack_apart x). naive_solver.
  - apply (sound_nodup _ _ Hs0).
  - intros x Hx. by apply (grows_seen _ _ _ Hg), (sound_stack _ _ Hs0).
  - apply (sound_path _ _ Hs0).
  - intros x w Hx Hn Hd. by apply (explored_all x).
  - intros x w Hx Hd. rewrite finished_popped in Hx |- *. destruct Hx as [Hx|Hx].
    + left. by apply (sound_finished _ _ Hs x).
    + destruct (component_edge x w Hx Hd); [by right|by left].
  - intros x y Hx Hy Hb. cbn in Hx, Hy. apply (sound_up _ _ Hs); [..|done].
    all: rewrite Hst, elem_of_app, elem_of_cons; auto.
  - intros y Hy. destruct (sound_down _ _ Hs0 y Hy) as (g & ? & ? & ?). exists g.
    split; [done|]. split; [|done]. by apply (grows_below _ _ g y Hg).
  - apply popped_components.
  - cbn. destruct (_ || _); [|apply Hs]. apply NoDup_app. split; [apply Hs|]. split; [|apply NoDup_singleton].
    intros c Hc ->%list_elem_of_singleton. apply (sound_components _ _ Hs) in Hc as (x & Hx & (_ & _ & Hc) & _).
    apply v_not_finished. apply (finished_reaches _ _ x v Hs Hx), Hc, elem_of_sorted.
    rewrite elem_of_app, list_elem_of_singleton. by right.
Qed.
End root.

(** The lowlink is below the index: [v] waits on the stack for an older node. *)
Lemma waiting_sound : low s v < index s0 → linked (low s v) s0 v → Sound path s.
Proof.
  destruct Hl as (Hs & Hg & Hi & _). intros Hlt (w & Hw & Hwi & Hr). split; try apply Hs.
  - intros x Hx. apply (sound_path _ _ Hs). by right.
  - intros x z Hx Hn Hd. by apply (explored_all x).
  - intros y Hy. destruct (sound_down _ _ Hs y Hy) as (g & [->|Hgp]%elem_of_cons & Hb & Hyg); [|by exists g].
    destruct (sound_down _ _ Hs0 w Hw) as (g & Hgp & (m & n & Hm & Hn & Hle) & Hwg). exists g. split; [done|]. split.
    + destruct Hb as (k & l & Hk & Hyl & Hkl). exists m, l. split_and!; [by apply (grows_indices _ _ Hg)|done|].
      rewrite Hi in Hk. rewrite Hwi in Hn. simplify_eq. lia.
    + unfold reaches in *. etrans; [done|]. by etrans.
Qed.

Lemma leave : connected path v s0 (close graph v s).
Proof.
  pose proof Hl as (Hs & Hg & Hi & Hf & new & Hst & Hnew & Hlow & Hb & Hd).
  destruct Hlow as [Hlow|[Hlt Hlink]].
  - rewrite (close_root new) by done. split; [by apply popped_sound|]. split; [by destruct Hg|].
    split; [by eexists|]. split; [done|]. exists []. split_and!; [done|by intros x ?%not_elem_of_nil| |].
    + left. split; [done|]. change (index s0 ≤ low s v). lia.
    + by intros x ?%not_elem_of_nil.
  - assert (close graph v s = s) as ->.
    { unfold close. unfold low in Hlt. unfold index_of at 2. rewrite Hi. cbn [default id].
      by rewrite (proj2 (Nat.eqb_neq _ _)) by lia. }
    split; [by apply waiting_sound|]. split; [done|]. split; [by eexists|]. split; [done|].
    exists (new ++ [v]). split_and!; [by rewrite Hst, <-app_assoc| |by right|].
    + intros x [Hx| ->%list_elem_of_singleton]%elem_of_app; [by apply Hnew|]. intros [n Hn]. by rewrite Hv0 in Hn.
    + intros x [Hx| ->%list_elem_of_singleton]%elem_of_app; [by apply Hb|]. intros w m Hw Hvw Hm.
      by apply (Hd w (Hdone w Hvw)).
Qed.
End leaving.

(** ** The search runs to its end *)

(** The fuel covers the nodes that have no index. *)
Definition affordable (fuel : nat) (s : Search) : Prop := size (dom graph ∖ dom (indices s)) ≤ fuel.

Lemma affordable_grows fuel s s' : Grows s s' → affordable fuel s → affordable fuel s'.
Proof.
  unfold affordable. intros Hg H. etrans; [|exact H]. apply subseteq_size. intros x.
  rewrite !elem_of_difference, !elem_of_dom. intros [? Hn]. split; [done|].
  intros Hx. apply Hn. by apply (grows_seen _ _ _ Hg).
Qed.

Lemma affordable_push fuel v s : is_Some (graph !! v) → indices s !! v = None →
  affordable fuel s → ∃ k, fuel = S k ∧ affordable k (push v s).
Proof.
  unfold affordable. intros Hv Hn H.
  assert (size (dom graph ∖ dom (indices (push v s))) < size (dom graph ∖ dom (indices s))) as Hlt.
  { apply subset_size, strict_spec_alt. split.
    - intros x. cbn. set_solver.
    - intros Heq. assert (v ∈ dom graph ∖ dom (indices s)) as Hin by
        (rewrite elem_of_difference, elem_of_dom, not_elem_of_dom; done).
      rewrite <-Heq in Hin. cbn in Hin. set_solver. }
  destruct fuel as [|k]; [lia|]. exists k. split; [done|lia].
Qed.

Definition connects (fuel : nat) : Prop := ∀ path v s,
  Sound path s → indices s !! v = None → is_Some (graph !! v) → (∀ g, g ∈ path → reaches g v) → affordable fuel s →
  ∃ s', connect graph fuel v s = Some s' ∧ connected path v s s'.

Lemma visit_each_spec fuel path v s0 : connects fuel → Sound path s0 → indices s0 !! v = None →
  (∀ g, g ∈ path → reaches g v) → ∀ ws done s, looping path v s0 s done → (∀ w, w ∈ ws → depends v w) →
  affordable fuel s →
  ∃ s', visit_each (connect graph fuel) v ws s = Some s' ∧ looping path v s0 s' (rev ws ++ done).
Proof.
  intros Hconn Hs0 Hv0 Hpath ws. induction ws as [|w ws IH]; intros done s Hl Hws Hf; [by exists s|].
  assert (depends v w) as Hd by (apply Hws; left). pose proof Hl as (Hs & Hg & _).
  assert (∀ s1, looping path v s0 s1 (w :: done) → affordable fuel s1 →
    ∃ s', visit_each (connect graph fuel) v ws s1 = Some s' ∧ looping path v s0 s' (rev (w :: ws) ++ done)) as Hnext.
  { intros s1 Hl1 Hf1. destruct (IH _ s1 Hl1) as (s' & E & Hl'); [intros z Hz; apply Hws; by right|done|].
    exists s'. split; [done|]. cbn. by rewrite <-app_assoc. }
  cbn [visit_each]. destruct (indices s !! w) as [n|] eqn:E; cbn [is_none].
  - rewrite (sound_on_stack _ _ Hs). case_bool_decide as Hin; rewrite elem_of_list_to_set in Hin.
    + unfold index_of. rewrite E. apply Hnext; [|done]. by apply (turn_on_stack path v s0 s done).
    + apply Hnext; [|done]. apply turn_finished; [done|by exists n|done].
  - destruct (Hconn (v :: path) w s) as (s1 & E1 & Hc1); [done|done|by apply (depends_node v)| |done|].
    { intros g [->|Hgp]%elem_of_cons; [by apply rtc_once|]. unfold reaches in *. eapply rtc_r; [by apply Hpath|done]. }
    rewrite E1. cbn [mbind option_bind]. apply Hnext.
    + apply (turn_connected path v s0 s done); [done..|unfold seen; rewrite E; apply is_Some_None|done].
    + apply (affordable_grows _ s); [apply grows_lower, Hc1|done].
Qed.

Lemma connects_all fuel : connects fuel.
Proof.
  induction fuel as [|fuel IH]; intros path v s Hs Hv Hn Hpath Hf;
    destruct (affordable_push _ _ _ Hn Hv Hf) as (k & Hk & Hf'); [done|injection Hk as <-].
  destruct (visit_each_spec fuel path v s IH Hs Hv Hpath (sorted_successors graph v) [] (push v s)) as (s' & E & Hl).
  - by apply looping_enter.
  - intros w. apply elem_of_sorted_successors.
  - done.
  - cbn [connect]. rewrite E. cbn [mbind option_bind]. eexists. split; [done|].
    apply (leave path v s s' _ Hs Hv Hpath Hl). intros w Hw. rewrite app_nil_r.
    by apply list_elem_of_In, in_rev; rewrite rev_involutive; apply list_elem_of_In, elem_of_sorted_successors.
Qed.

Lemma grows_refl s : Grows s s.
Proof. split; [done|auto|]. intros u n Hu Hn. by rewrite Hn in Hu. Qed.

Lemma connect_all_spec fuel keys s : Sound [] s → (∀ k, k ∈ keys → is_Some (graph !! k)) → affordable fuel s →
  ∃ s', connect_all graph fuel keys s = Some s' ∧ Sound [] s' ∧ Grows s s' ∧ ∀ k, k ∈ keys → seen s' k.
Proof.
  revert s. induction keys as [|v keys IH]; intros s Hs Hk Hf; cbn [connect_all].
  { exists s. split_and!; [done..|by apply grows_refl|by intros k ?%not_elem_of_nil]. }
  assert (∀ s1, Sound [] s1 → Grows s s1 → seen s1 v → ∃ s', connect_all graph fuel keys s1 = Some s' ∧ Sound [] s'
            ∧ Grows s s' ∧ ∀ k, k ∈ v :: keys → seen s' k) as Hnext.
  { intros s1 Hs1 Hg1 Hv1. destruct (IH s1 Hs1) as (s' & E & Hs' & Hg' & Hk'); [intros k ?; apply Hk; by right| |].
    - by apply (affordable_grows _ s).
    - exists s'. split_and!; [done..|by etrans|]. intros k [->|?]%elem_of_cons; [by apply (grows_seen s1)|by apply Hk']. }
  destruct (indices s !! v) as [n|] eqn:E; cbn [is_none].
  - apply Hnext; [done|by apply grows_refl|by exists n].
  - destruct (connects_all fuel [] v s) as (s1 & E1 & Hs1 & Hg1 & Hv1 & _); [done|done|apply Hk; left| |done|].
    { by intros g ?%not_elem_of_nil. }
    rewrite E1. cbn [mbind option_bind]. by apply Hnext.
Qed.

Lemma sound_empty : Sound [] empty_search.
Proof.
  assert (∀ v, ¬ seen empty_search v) as Hno by (intros v [n H]; cbn in H; by rewrite lookup_empty in H).
  split; cbn; [| | | | | | | | |split|].
  - intros v n H. by rewrite lookup_empty in H.
  - done.
  - apply NoDup_nil_2.
  - by intros v ?%not_elem_of_nil.
  - by intros v ?%not_elem_of_nil.
  - by intros v w ?%Hno.
  - by intros v w [?%Hno _].
  - by intros v w ?%not_elem_of_nil.
  - by intros v ?%not_elem_of_nil.
  - by intros ?%not_elem_of_nil.
  - by intros (v & [?%Hno _] & _).
  - apply NoDup_nil_2.
Qed.

(** The search returns, and reports the components that hold a cycle. *)
Lemma recursive_components_spec : ∃ l, recursive_components graph = Some l ∧ NoDup l ∧ sorted l = l
  ∧ ∀ c, c ∈ l ↔ ∃ v, is_component v c ∧ on_cycle v.
Proof.
  destruct (connect_all_spec (S (size graph)) (sorted (elements (dom graph))) empty_search) as (s & E & Hs & _ & Hseen).
  - apply sound_empty.
  - intros k. by rewrite elem_of_sorted, elem_of_elements, elem_of_dom.
  - unfold affordable. cbn. rewrite dom_empty_L, difference_empty_L, size_dom. lia.
  - exists (sorted (components s)). unfold recursive_components. rewrite E. cbn [mbind option_bind]. split; [done|].
    split; [unfold sorted; rewrite sort_by_perm; apply Hs|]. split; [apply sort_by_idemp|].
    intros c. rewrite elem_of_sorted, (sound_components _ _ Hs). split; [naive_solver|].
    intros (v & Hc & Hv). exists v. split; [|done]. split.
    + apply Hseen. rewrite elem_of_sorted, elem_of_elements, elem_of_dom. destruct Hv as (w & Hw & _).
      unfold depends in Hw. destruct (graph !! v); [done|]. by apply not_elem_of_nil in Hw.
    + intros Hin. destruct (sound_down _ _ Hs v Hin) as (g & Hg & _). by apply not_elem_of_nil in Hg.
Qed.
End correctness.

Section exactness.
Context (evidence_records : list Evidence) (checker_verdicts : list CheckerVerdictRecord)
        (authorized_checker_ids current_assumption_ids current_context_ids : list string) (nogoods : list Nogood)
        (lemmas : list WarrantedLemma).

#[local] Notation unresolved := (dom (dict_by wl_id lemmas) ∖
  grounded_lemma_ids evidence_records checker_verdicts authorized_checker_ids
    current_assumption_ids current_context_ids nogoods lemmas).
#[local] Notation support_graph := (ungrounded_graph evidence_records checker_verdicts authorized_checker_ids
  current_assumption_ids current_context_ids nogoods lemmas).

Lemma ungrounded_graph_closed v ws w : support_graph !! v = Some ws → w ∈ ws → is_Some (support_graph !! w).
Proof.
  unfold ungrounded_graph. intros Hv Hw. apply lookup_fmap_Some in Hv as (lemma & <- & _).
  apply list_elem_of_filter in Hw as [Hu _]. apply elem_of_difference in Hu as [Hd Hn]. pose proof Hd as [l Hl]%elem_of_dom.
  exists (open_dependencies unresolved l). apply lookup_fmap_Some. exists l. split; [done|].
  apply map_lookup_filter_Some. split; [done|]. by apply elem_of_difference.
Qed.

(** C24: [ungrounded_support_cycles] always returns, and what it returns is
    sorted, without repetition, and exactly the strongly connected components
    of the graph of open dependencies between the ungrounded lemmas that
    contain a cycle: a component of two or more lemmas, or one lemma that
    depends on itself. *)
Theorem ungrounded_cycles_exact :
  ∃ l, ungrounded_support_cycles evidence_records checker_verdicts authorized_checker_ids
         current_assumption_ids current_context_ids nogoods lemmas = Some l
       ∧ NoDup l ∧ sorted l = l
       ∧ ∀ c, c ∈ l ↔ ∃ v, is_component support_graph v c ∧ on_cycle support_graph v.
Proof. apply recursive_components_spec. exact ungrounded_graph_closed. Qed.
End exactness.

(** Two lemmas that support each other, one that supports itself, and one that
    only depends on them. *)
Example two_components :
  recursive_components (list_to_map [("a", ["b"; "c"]); ("b", ["a"]); ("c", ["c"]); ("d", ["a"; "c"])]%string)
  = Some [["a"; "b"]; ["c"]]%string.
Proof. by vm_compute. Qed.
