(* ===== verification/Policy.v ===== *)
(** * Promotion policy: [src/rci/warrant/policy.py]

    Which warrant class a checked piece of evidence earns, and the promotion
    decision that turns checked routes into a joined lemma.  A pydantic
    validator that fails raises, so the promotion decision is a [result]. *)

From S2P Require Import Prelude Digest Model Claims Warrant Support.

Inductive PromotionOutcome : Type := ACCEPTED | REJECTED.
#[export] Instance PromotionOutcome_eq_dec : EqDecision PromotionOutcome.
Proof. solve_decision. Defined.

Record PromotionDecision : Type := MkPromotionDecision {
  pd_outcome : PromotionOutcome;
  pd_warrant_class : WarrantClass;
  pd_reason : string;
  pd_lemma : option WarrantedLemma;
}.
#[export] Instance PromotionDecision_eq_dec : EqDecision PromotionDecision.
Proof. solve_decision. Defined.

Definition validate_promotion_decision (d : PromotionDecision) : result unit :=
  raise_if ((pd_outcome d ==? ACCEPTED) && is_none (pd_lemma d))
    ValidationError "accepted promotion requires a linked lemma";;
  raise_if ((pd_outcome d ==? REJECTED) && is_some (pd_lemma d))
    ValidationError "rejected promotion cannot carry a lemma".

Definition promotion_decision (o : PromotionOutcome) (c : WarrantClass) (reason : string)
    (lemma : option WarrantedLemma) : result PromotionDecision :=
  let d := MkPromotionDecision o c reason lemma in validate_promotion_decision d;; Ok d.

Definition rejected (c : WarrantClass) (reason : string) : result PromotionDecision :=
  promotion_decision REJECTED c reason None.

Definition decide_evidence_warrant (evidence : Evidence) (cv : CheckerVerdictRecord)
    (proposition_id : string) (proposition_kind : PropositionKind) (scope : Scope)
    (authorized_checker_ids : list string) : WarrantClass * string :=
  if (ev_kind evidence ==? MODEL_OUTPUT) || (ev_kind evidence ==? REIFICATION) then
    (WC_NONE, "model output and reification provide no warrant")
  else
    let (checked, reason) :=
      validate_checked_evidence evidence cv proposition_id proposition_kind
        (scope_fingerprint scope) authorized_checker_ids in
    if negb checked then (WC_NONE, reason)
    else match ev_kind evidence with
    | INDEPENDENT_WITNESS =>
      if proposition_kind !=? EXISTENTIAL then
        (WC_NONE, "a witness warrants only its exact existential")
      else (HARD, "exact scoped existential witness")
    | EXHAUSTIVE_UNSAT =>
      if ev_closed_finite_universe evidence
         && (negb (scope_closed_world scope) || is_none (scope_finite_universe_hash scope)
             || (ev_finite_universe_hash evidence !=? scope_finite_universe_hash scope)) then
        (WC_NONE, "closed-finite evidence does not match the scoped universe")
      else if ev_closed_finite_universe evidence then
        (HARD, "exhaustive UNSAT over a closed finite universe")
      else (SOFT, "UNSAT universe was not declared closed")
    | Z3_UNSAT => (SOLVER_TRUSTED, "Z3-only UNSAT remains soft")
    | HEURISTIC | RETRIEVAL | EV_OBSERVATION =>
      (SOFT, "policy-authorized evidence is provisional support")
    | _ => (WC_NONE, "unsupported evidence kind")
    end.

(** The arguments of [decide_promotion]. *)
Record PromotionRequest : Type := MkPromotionRequest {
  pr_lemma_id : string;
  pr_relation_id : string;
  pr_proposition_kind : PropositionKind;
  pr_scope : Scope;
  pr_applicability : Applicability;
  pr_support_routes : list SupportRoute;
  pr_evidence : Evidence;
  pr_checker_verdict : CheckerVerdictRecord;
  pr_evidence_records : list Evidence;
  pr_checker_verdicts : list CheckerVerdictRecord;
  pr_authorized_checker_ids : list string;
  pr_policy_version : string;
  pr_provenance_refs : list string;
  pr_source_claim_ids : list string;
  pr_predecessor_refs : list string;
  pr_existing_lemmas : list WarrantedLemma;
  pr_current_assumption_ids : list string;
  pr_current_context_ids : list string;
}.

Definition referenced_verdict_ids (routes : list SupportRoute) (cv : CheckerVerdictRecord) :
    list string :=
  remove_dups
    (flat_map (λ r, [ref_checker_verdict_id (route_certificate_check r);
                     ref_checker_verdict_id (env_realizability_check (route_environment r))]) routes
     ++ [cv_id cv]).

Definition certificate_digest (verdicts : gmap string CheckerVerdictRecord) (id : string) :
    option string :=
  record ← verdicts !! id; artifact ← cv_certificate_artifact record; Some (art_digest artifact).

Definition certificate_refs (p : PromotionRequest) : list string :=
  sorted (omap (certificate_digest (checker_verdict_index (pr_checker_verdicts p)))
            (referenced_verdict_ids (pr_support_routes p) (pr_checker_verdict p))).

(** The loop that splits the ordered routes into minimal and historical ones. *)
Definition partition_step (st : list SupportRoute * list SupportRoute) (route : SupportRoute) :
    list SupportRoute * list SupportRoute :=
  let (minimal, historical) := st in
  if existsb (λ current, route_dominates current route) minimal
  then (minimal, historical ++ [route]) else (minimal ++ [route], historical).

Definition partition_routes (routes : list SupportRoute) : list SupportRoute * list SupportRoute :=
  foldl partition_step ([], []) (sort_by route_key routes).

Definition promotion_version (p : PromotionRequest) : LemmaVersion :=
  MkLemmaVersion (pr_lemma_id p) (pr_relation_id p) (pr_proposition_kind p) (pr_scope p)
    (pr_applicability p) (pr_source_claim_ids p) (pr_predecessor_refs p).

Definition promotion_support (p : PromotionRequest) : LemmaSupport :=
  let (minimal, historical) := partition_routes (pr_support_routes p) in
  MkLemmaSupport (pr_lemma_id p) (pr_policy_version p) minimal historical HARD
    (certificate_refs p) (pr_provenance_refs p).

Definition promotion_candidate (p : PromotionRequest) : WarrantedLemma :=
  MkWarrantedLemma (promotion_version p) (promotion_support p).

Definition same_support_class (p : PromotionRequest) (lemma : WarrantedLemma) : bool :=
  let scope := lv_scope (wl_version lemma) in
  (scope_fingerprint scope ==? scope_fingerprint (pr_scope p))
  && (scope_binding_revision scope ==? scope_binding_revision (pr_scope p))
  && (scope_finite_universe_hash scope ==? scope_finite_universe_hash (pr_scope p))
  && (ls_policy_version (wl_support lemma) ==? pr_policy_version p).

Definition promotion_grounded (p : PromotionRequest) : gset string :=
  grounded_lemma_ids (pr_evidence_records p) (pr_checker_verdicts p)
    (pr_authorized_checker_ids p) (pr_current_assumption_ids p) (pr_current_context_ids p) []
    (List.filter (same_support_class p) (pr_existing_lemmas p)).

Definition route_closed (p : PromotionRequest) (route : SupportRoute) : bool :=
  let resolves := check_resolves (pr_evidence_records p) (pr_checker_verdicts p)
                    (pr_authorized_checker_ids p) in
  is_nil (route_open_dependency_ids route)
  && bool_decide (list_to_set (route_required_dependency_ids route) ⊆ promotion_grounded p)
  && resolves (route_certificate_check route) (pr_relation_id p) (pr_proposition_kind p)
       (scope_fingerprint (pr_scope p))
  && resolves (env_realizability_check (route_environment route))
       (env_id (route_environment route)) EXISTENTIAL (scope_fingerprint (pr_scope p))
  && environment_matches (route_environment route) (pr_scope p).

Definition decide_promotion (p : PromotionRequest) : result PromotionDecision :=
  if is_empty (pr_policy_version p) then
    rejected WC_NONE "promotion requires an exact warrant-policy version"
  else if evidence_index (pr_evidence_records p) !! ev_id (pr_evidence p) !=? Some (pr_evidence p) then
    rejected WC_NONE "promotion evidence is not an owned immutable record"
  else if checker_verdict_index (pr_checker_verdicts p) !! cv_id (pr_checker_verdict p)
          !=? Some (pr_checker_verdict p) then
    rejected WC_NONE "promotion checker verdict is not an owned immutable record"
  else
    let (warrant_class, reason) :=
      decide_evidence_warrant (pr_evidence p) (pr_checker_verdict p) (pr_relation_id p)
        (pr_proposition_kind p) (pr_scope p) (pr_authorized_checker_ids p) in
    if warrant_class !=? HARD then rejected warrant_class reason
    else if is_nil (pr_support_routes p) then
      rejected WC_NONE "promotion requires an explicit support environment"
    else if existsb (λ r, route_conclusion_id r !=? pr_lemma_id p) (pr_support_routes p) then
      rejected WC_NONE "support route conclusion does not match the proposed lemma"
    else
      validate_version (promotion_version p);;
      validate_support (promotion_support p);;
      validate_join (promotion_candidate p);;
      let all_lemmas := pr_existing_lemmas p ++ [promotion_candidate p] in
      if negb (support_graph_is_acyclic all_lemmas) then
        rejected WC_NONE "positive support cycle rejected atomically by the active milestone"
      else if negb (ancestry_is_acyclic
                      (map (λ l, (wl_id l, lv_predecessor_refs (wl_version l))) all_lemmas)) then
        rejected WC_NONE "authoritative version ancestry would become cyclic"
      else if negb (applicability_holds (pr_applicability p) (pr_current_context_ids p)) then
        rejected WC_NONE "the applicability guard is not active in the checked context"
      else if negb (existsb (route_closed p) (ls_support_routes (promotion_support p))) then
        rejected WC_NONE "no support route is dependency-closed and independently realizable"
      else promotion_decision ACCEPTED HARD reason (Some (promotion_candidate p)).

(** ** Lemmas *)

Lemma partition_fold l m h :
  foldl partition_step (m, h) l
  = (foldl (scan_step route_dominates) m l, (foldl partition_step (m, h) l).2).
Proof.
  revert m h. induction l as [|r l IH]; intros m h; [done|]. cbn.
  unfold scan_step at 2. destruct (existsb _ _); apply IH.
Qed.

Lemma partition_minimal routes :
  (partition_routes routes).1 = scan_minimal route_dominates (sort_by route_key routes).
Proof. unfold partition_routes. by rewrite partition_fold. Qed.

Lemma partition_fold_perm l m h :
  (foldl partition_step (m, h) l).1 ++ (foldl partition_step (m, h) l).2 ≡ₚ m ++ h ++ l.
Proof.
  revert m h. induction l as [|r l IH]; intros m h; cbn; [by rewrite app_nil_r|].
  destruct (existsb _ _); rewrite IH.
  - by rewrite <-(assoc_L (++) h).
  - rewrite <-!(assoc_L (++)). cbn. solve_Permutation.
Qed.

Lemma partition_perm routes :
  (partition_routes routes).1 ++ (partition_routes routes).2 ≡ₚ routes.
Proof. unfold partition_routes. by rewrite partition_fold_perm, sort_by_perm. Qed.

Lemma partition_historical_fold l m h :
  (∀ r, r ∈ h → ∃ c, c ∈ m ∧ route_dominates c r = true) →
  ∀ r, r ∈ (foldl partition_step (m, h) l).2 →
       ∃ c, c ∈ (foldl partition_step (m, h) l).1 ∧ route_dominates c r = true.
Proof.
  revert m h. induction l as [|x l IH]; intros m h H; [done|]. cbn.
  destruct (existsb _ _) eqn:E; apply IH; intros r Hr.
  - apply elem_of_app in Hr as [Hr| ->%list_elem_of_singleton]; [auto|]. by apply any_true in E.
  - destruct (H r Hr) as (c & ? & ?). exists c. split; [set_solver|done].
Qed.

Lemma partition_historical routes r :
  r ∈ (partition_routes routes).2 →
  ∃ c, c ∈ (partition_routes routes).1 ∧ route_dominates c r = true.
Proof. apply partition_historical_fold. by intros ? ?%not_elem_of_nil. Qed.

(** The minimal routes have pairwise incomparable assumption sets. *)
Lemma partition_antichain routes :
  (∀ r, r ∈ routes → NoDup (assumptions r)) →
  comparable_pair (map assumptions (partition_routes routes).1) = false.
Proof.
  intros Hnd. rewrite partition_minimal.
  assert (Hanti : ∀ i j x y,
    scan_minimal route_dominates (sort_by route_key routes) !! i = Some x →
    scan_minimal route_dominates (sort_by route_key routes) !! j = Some y →
    i ≠ j → route_dominates x y = false).
  { apply (scan_minimal_antichain _
      (λ x y, x ∈ routes ∧ y ∈ routes ∧ key_le route_key x y)).
    - apply StronglySorted_elem; [apply sort_by_sorted|]. intros z. by rewrite elem_of_sort_by.
    - intros x y (Hx & Hy & Hk) Hd%subset_true. apply subset_true.
      apply NoDup_subset_eq_length; [auto|done|].
      by apply (key_le_card assumptions route_id). }
  revert Hanti. generalize (scan_minimal route_dominates (sort_by route_key routes)).
  induction l as [|x l IH]; intros H; [done|]. cbn [map comparable_pair].
  apply orb_false_iff. split.
  - apply any_false. intros a (y & Hy & ->)%elem_of_map. unfold strict_subset.
    apply list_elem_of_lookup in Hy as [i Hi].
    pose proof (H 0 (S i) x y eq_refl Hi ltac:(lia)) as H1.
    pose proof (H (S i) 0 y x Hi eq_refl ltac:(lia)) as H2.
    unfold route_dominates in H1, H2. by rewrite H1, H2.
  - apply IH. intros i j a b Hi Hj Hne.
    apply (H (S i) (S j) a b); [done|done|lia].
Qed.

(** The promoted support passes its validator, duplicate references aside. *)
Lemma promotion_support_valid p :
  pr_policy_version p ≠ "" → pr_support_routes p ≠ [] →
  NoDup (map route_id (pr_support_routes p)) →
  (∀ r, r ∈ pr_support_routes p →
        route_conclusion_id r = pr_lemma_id p ∧ NoDup (assumptions r)) →
  validate_support (promotion_support p) = Ok tt ↔
  NoDup (certificate_refs p) ∧ NoDup (pr_provenance_refs p).
Proof.
  intros Hpol Hne Hnd Hr. unfold promotion_support.
  pose proof (partition_perm (pr_support_routes p)) as Hperm.
  pose proof (partition_antichain (pr_support_routes p) (λ r H, proj2 (Hr r H))) as Hanti.
  pose proof (partition_historical (pr_support_routes p)) as Hhist.
  pose proof (partition_minimal (pr_support_routes p)) as Hmin.
  destruct (partition_routes (pr_support_routes p)) as [m h]. cbn in *.
  assert (Hm : is_nil m = false).
  { destruct m as [|r0 m]; [exfalso|done]. destruct (pr_support_routes p) as [|r rs]; [done|].
    symmetry in Hmin. revert Hmin. apply (scan_minimal_nonempty _ _ r).
    rewrite elem_of_sort_by. constructor. }
  unfold validate_support, all_support_routes, is_empty.
  rewrite !raise_if_bind, raise_if_ok, !negb_false_iff. cbn [ls_policy_version ls_support_routes
    ls_historical_support_routes ls_lemma_version_id ls_certificate_refs ls_provenance_refs].
  rewrite Hm, Hanti, eqb_false. cbn [forallb].
  rewrite !andb_true_iff, !uniq_true. split; [naive_solver|]. intros [??].
  split_and!; try done.
  - change (NoDup (route_id <$> (m ++ h))). by rewrite Hperm.
  - apply any_false. intros r Hin. rewrite Hperm in Hin. apply neqb_false. by apply Hr.
  - apply any_false. intros r (c & Hc & Hd)%Hhist. apply negb_false_iff, any_true. eauto.
Qed.

(** The two ways evidence can be HARD once it is checked. *)
Definition hard_kind (e : Evidence) (pk : PropositionKind) (scope : Scope) : Prop :=
  (ev_kind e = INDEPENDENT_WITNESS ∧ pk = EXISTENTIAL) ∨
  (ev_kind e = EXHAUSTIVE_UNSAT ∧ ev_closed_finite_universe e = true ∧
   scope_closed_world scope = true ∧ is_Some (scope_finite_universe_hash scope) ∧
   ev_finite_universe_hash e = scope_finite_universe_hash scope).

Lemma decide_evidence_warrant_hard_iff e cv pid pk scope auth :
  (decide_evidence_warrant e cv pid pk scope auth).1 = HARD ↔
  checked_evidence e cv pid pk (scope_fingerprint scope) auth ∧ hard_kind e pk scope.
Proof.
  unfold decide_evidence_warrant, hard_kind. rewrite <-validate_checked_evidence_true.
  destruct (validate_checked_evidence _ _ _ _ _ _) as [[] reason]; cbn.
  - destruct (ev_kind e); cbn; try naive_solver.
    + destruct (pk !=? EXISTENTIAL) eqn:E; autorewrite with rci in E; naive_solver.
    + destruct (ev_closed_finite_universe e); cbn [andb]; [|cbn; naive_solver].
      destruct (negb (scope_closed_world scope) || _ || _) eqn:E; cbn.
      * split; [done|]. intros [_ [[? _]|(_ & _ & Hc & [h Hh] & Heq)]]; [done|].
        rewrite Hc, Heq, Hh in E. cbn in E. by rewrite bool_decide_true in E by done.
      * rewrite !orb_false_iff, negb_false_iff, is_none_false, neqb_false in E.
        destruct E as [[? [h ?]] ?]. naive_solver.
  - destruct (_ || _); cbn; naive_solver.
Qed.

Lemma rejected_Ok c reason d :
  rejected c reason = Ok d → d = MkPromotionDecision REJECTED c reason None.
Proof. unfold rejected, promotion_decision. cbn. by intros [= <-]. Qed.

Lemma rejected_not_accepted c reason d :
  rejected c reason = Ok d → pd_outcome d = ACCEPTED → False.
Proof. by intros ->%rejected_Ok. Qed.

(** Every guard an accepted promotion has passed. *)
Lemma decide_promotion_inv p d :
  decide_promotion p = Ok d → pd_outcome d = ACCEPTED →
  evidence_index (pr_evidence_records p) !! ev_id (pr_evidence p) = Some (pr_evidence p) ∧
  checker_verdict_index (pr_checker_verdicts p) !! cv_id (pr_checker_verdict p)
    = Some (pr_checker_verdict p) ∧
  (decide_evidence_warrant (pr_evidence p) (pr_checker_verdict p) (pr_relation_id p)
     (pr_proposition_kind p) (pr_scope p) (pr_authorized_checker_ids p)).1 = HARD ∧
  validate_version (promotion_version p) = Ok tt ∧
  validate_support (promotion_support p) = Ok tt ∧
  validate_join (promotion_candidate p) = Ok tt ∧
  support_graph_is_acyclic (pr_existing_lemmas p ++ [promotion_candidate p]) = true ∧
  ancestry_is_acyclic (map (λ l, (wl_id l, lv_predecessor_refs (wl_version l)))
                         (pr_existing_lemmas p ++ [promotion_candidate p])) = true ∧
  applicability_holds (pr_applicability p) (pr_current_context_ids p) = true ∧
  existsb (route_closed p) (ls_support_routes (promotion_support p)) = true ∧
  pd_lemma d = Some (promotion_candidate p) ∧ pd_warrant_class d = HARD.
Proof.
  unfold decide_promotion. intros H Ho.
  destruct (is_empty _); [by destruct (rejected_not_accepted _ _ _ H Ho)|].
  destruct (_ !=? Some (pr_evidence p)) eqn:E1; [by destruct (rejected_not_accepted _ _ _ H Ho)|].
  destruct (_ !=? Some (pr_checker_verdict p)) eqn:E2; [by destruct (rejected_not_accepted _ _ _ H Ho)|].
  destruct (decide_evidence_warrant _ _ _ _ _ _) as [wc reason].
  destruct (wc !=? HARD) eqn:E3; [by destruct (rejected_not_accepted _ _ _ H Ho)|].
  destruct (is_nil _); [by destruct (rejected_not_accepted _ _ _ H Ho)|].
  destruct (existsb _ (pr_support_routes p)); [by destruct (rejected_not_accepted _ _ _ H Ho)|].
  apply bind_ok in H as ([] & Hv & H). apply bind_ok in H as ([] & Hs & H).
  apply bind_ok in H as ([] & Hj & H). cbv zeta in H.
  destruct (support_graph_is_acyclic _) eqn:E4; [|by destruct (rejected_not_accepted _ _ _ H Ho)].
  destruct (ancestry_is_acyclic _) eqn:E5; [|by destruct (rejected_not_accepted _ _ _ H Ho)].
  destruct (applicability_holds _ _) eqn:E6; [|by destruct (rejected_not_accepted _ _ _ H Ho)].
  destruct (existsb (route_closed p) _) eqn:E7; [|by destruct (rejected_not_accepted _ _ _ H Ho)].
  cbn in H. injection H as <-.
  rewrite neqb_false in E1. rewrite neqb_false in E2. rewrite neqb_false in E3. by split_and!.
Qed.

(** The check a reference names: recorded evidence and a recorded verdict on it that
    validate exactly this proposition, in the scope of the promotion. *)
Definition checked_reference (p : PromotionRequest) (reference : CheckReference) (proposition_id : string)
    (kind : PropositionKind) : Prop :=
  ∃ e cv, e ∈ pr_evidence_records p ∧ ev_id e = ref_evidence_id reference ∧
    cv ∈ pr_checker_verdicts p ∧ cv_id cv = ref_checker_verdict_id reference ∧
    checked_evidence e cv proposition_id kind (scope_fingerprint (pr_scope p)) (pr_authorized_checker_ids p).

Lemma check_resolves_checked p reference pid kind :
  check_resolves (pr_evidence_records p) (pr_checker_verdicts p) (pr_authorized_checker_ids p)
    reference pid kind (scope_fingerprint (pr_scope p)) = true →
  checked_reference p reference pid kind.
Proof.
  unfold check_resolves. rewrite resolve_check_reference_true.
  intros (e & cv & He & Hcv & _ & Hc). exists e, cv.
  apply dict_by_Some in He as [He ?]. apply dict_by_Some in Hcv as [Hcv ?]. by split_and!.
Qed.

(** What a closed route is: [closed_routes] of [decide_promotion]. *)
Record closed_route (p : PromotionRequest) (r : SupportRoute) : Prop := {
  cr_open : route_open_dependency_ids r = [];
  cr_required : ∀ dep, dep ∈ route_required_dependency_ids r →
    Grounded (pr_evidence_records p) (pr_checker_verdicts p) (pr_authorized_checker_ids p)
      (pr_current_assumption_ids p) (pr_current_context_ids p) []
      (List.filter (same_support_class p) (pr_existing_lemmas p)) dep;
  cr_certificate : checked_reference p (route_certificate_check r) (pr_relation_id p) (pr_proposition_kind p);
  cr_realizable : checked_reference p (env_realizability_check (route_environment r))
                    (env_id (route_environment r)) EXISTENTIAL;
  cr_scope : environment_matches (route_environment r) (pr_scope p) = true;
}.

Lemma route_closed_sound p r : route_closed p r = true → closed_route p r.
Proof.
  unfold route_closed. rewrite !andb_true_iff. intros [[[[Ho Hd] Hc] He] Hm].
  split; [by destruct (route_open_dependency_ids r)| |by apply check_resolves_checked..|done].
  intros dep Hdep. apply bool_decide_eq_true in Hd.
  apply grounded_lemma_ids_iff. apply Hd. by apply elem_of_list_to_set.
Qed.

(** ** Properties *)

(** C22: An accepted promotion rests on hard, owned, independently checked
    evidence.  The evidence and its verdict are recorded by the inquiry, an
    authorised checker validated that exact artifact for the promoted relation
    in exactly this scope, and the kind of evidence is one of the two hard kinds.
    At least one minimal route of the promoted lemma is closed: it has no open
    dependency, every required dependency is grounded, its certificate check and the
    realizability check of its environment resolve to recorded evidence that an
    authorised checker validated for exactly the relation and exactly the
    environment, and its environment lies in the scope.  The dependency graph and
    the version ancestry stay acyclic, the guard of the lemma is active, and the
    lemma's own validators hold. *)
Theorem decide_promotion_sound p d :
  decide_promotion p = Ok d → pd_outcome d = ACCEPTED →
  checked_evidence (pr_evidence p) (pr_checker_verdict p) (pr_relation_id p)
    (pr_proposition_kind p) (scope_fingerprint (pr_scope p)) (pr_authorized_checker_ids p) ∧
  hard_kind (pr_evidence p) (pr_proposition_kind p) (pr_scope p) ∧
  pr_evidence p ∈ pr_evidence_records p ∧ pr_checker_verdict p ∈ pr_checker_verdicts p ∧
  applicability_holds (pr_applicability p) (pr_current_context_ids p) = true ∧
  ∃ l, pd_lemma d = Some l ∧ wl_id l = pr_lemma_id p ∧
    validate_version (wl_version l) = Ok tt ∧ validate_support (wl_support l) = Ok tt ∧
    validate_join l = Ok tt ∧ ls_warrant_class (wl_support l) = HARD ∧
    support_graph_is_acyclic (pr_existing_lemmas p ++ [l]) = true ∧
    ancestry_is_acyclic (map (λ l, (wl_id l, lv_predecessor_refs (wl_version l)))
                           (pr_existing_lemmas p ++ [l])) = true ∧
    all_support_routes (wl_support l) ≡ₚ pr_support_routes p ∧
    ∃ r, r ∈ ls_support_routes (wl_support l) ∧ closed_route p r.
Proof.
  intros H Ho.
  apply decide_promotion_inv in H as (He & Hc & Hw & Hv & Hs & Hj & Hg & Hg' & Ha & Hr & -> & _);
    [|done].
  apply decide_evidence_warrant_hard_iff in Hw as [Hce Hk].
  apply dict_by_Some in He as [He _]. apply dict_by_Some in Hc as [Hc _].
  split_and!; [done..|]. exists (promotion_candidate p).
  pose proof (partition_perm (pr_support_routes p)) as Hp.
  unfold promotion_candidate, promotion_support in *.
  destruct (partition_routes (pr_support_routes p)) as [m h].
  split_and!; try done. apply any_true in Hr as (r & Hrin & Hrc%route_closed_sound). by exists r.
Qed.

(** Evidence is warranted HARD exactly when it is independently checked and
    is an existential witness, or an exhaustive UNSAT whose closed universe is
    exactly the one the scope pins; model output never is. *)
Theorem decide_evidence_warrant_hard e cv pid pk scope auth :
  ((decide_evidence_warrant e cv pid pk scope auth).1 = HARD ↔
   checked_evidence e cv pid pk (scope_fingerprint scope) auth ∧ hard_kind e pk scope) ∧
  ((decide_evidence_warrant e cv pid pk scope auth).1 ≠ WC_NONE →
   ev_kind e ≠ MODEL_OUTPUT ∧ ev_kind e ≠ REIFICATION ∧
   checked_evidence e cv pid pk (scope_fingerprint scope) auth).
Proof.
  split; [apply decide_evidence_warrant_hard_iff|].
  unfold decide_evidence_warrant. rewrite <-validate_checked_evidence_true.
  destruct (_ || _) eqn:E; [done|]. apply orb_false_iff in E as [E1 E2].
  rewrite eqb_false in E1, E2.
  destruct (validate_checked_evidence _ _ _ _ _ _) as [[] reason]; cbn; [|done]. done.
Qed.

(** A promotion request whose routes are unique, canonical, name the lemma
    and lie inside its scope, and whose references are unique, is always
    decided: the minimal/historical split satisfies the support validator, so
    no validator raises. *)
Theorem decide_promotion_total p :
  validate_version (promotion_version p) = Ok tt →
  NoDup (map route_id (pr_support_routes p)) →
  (∀ r, r ∈ pr_support_routes p →
     NoDup (assumptions r) ∧ environment_matches (route_environment r) (pr_scope p) = true) →
  NoDup (certificate_refs p) → NoDup (pr_provenance_refs p) →
  ∃ d, decide_promotion p = Ok d ∧
       (pd_outcome d = ACCEPTED ↔ pd_lemma d = Some (promotion_candidate p)).
Proof.
  intros Hv Hnd Hr Hc Hp. unfold decide_promotion.
  assert (Hrej : ∀ c reason, ∃ d, rejected c reason = Ok d ∧
    (pd_outcome d = ACCEPTED ↔ pd_lemma d = Some (promotion_candidate p))).
  { intros c reason. eexists. by split; [reflexivity|]. }
  destruct (is_empty _) eqn:E0; [apply Hrej|].
  destruct (_ !=? Some (pr_evidence p)); [apply Hrej|].
  destruct (_ !=? Some (pr_checker_verdict p)); [apply Hrej|].
  destruct (decide_evidence_warrant _ _ _ _ _ _) as [wc reason].
  destruct (wc !=? HARD); [apply Hrej|].
  destruct (is_nil _) eqn:E1; [apply Hrej|].
  destruct (existsb _ (pr_support_routes p)) eqn:E2; [apply Hrej|].
  rewrite any_false in E2. unfold is_empty in E0. rewrite eqb_false in E0.
  assert (Hs : validate_support (promotion_support p) = Ok tt).
  { apply promotion_support_valid; [done| |done| |done].
    - intros E. by rewrite E in E1.
    - intros r Hin. split; [|by apply Hr]. specialize (E2 r Hin). by rewrite neqb_false in E2. }
  rewrite Hv, Hs.
  assert (Hj : validate_join (promotion_candidate p) = Ok tt).
  { unfold validate_join, promotion_candidate, promotion_support.
    pose proof (partition_perm (pr_support_routes p)) as Hperm.
    destruct (partition_routes (pr_support_routes p)) as [m h].
    rewrite raise_if_bind, raise_if_ok, neqb_false, any_false. split; [done|].
    intros r Hin. apply negb_false_iff. apply Hr. unfold all_support_routes in Hin.
    cbn in Hin. by rewrite Hperm in Hin. }
  rewrite Hj. cbn [mbind result_bind].
  destruct (negb (support_graph_is_acyclic _)); [apply Hrej|].
  destruct (negb (ancestry_is_acyclic _)); [apply Hrej|].
  destruct (negb (applicability_holds _ _)); [apply Hrej|].
  destruct (negb (existsb (route_closed p) _)); [apply Hrej|].
  eexists. by split; [reflexivity|].
Qed.

(** ** A concrete promotion *)

(** A verdict with a certificate of its own. *)
Definition sample_verdict (pid : string) : CheckerVerdictRecord :=
  MkCheckerVerdictRecord ("cv-" +:+ pid) ("ev-" +:+ pid) Sample.art pid EXISTENTIAL Sample.fp
    "checker" "1" VALID Sample.art (Some (MkArtifactRef ("cert-" +:+ pid) 1 None None)).

Definition sample_promotion : PromotionRequest :=
  MkPromotionRequest "L1" "p" EXISTENTIAL Sample.scope (MkApplicability "always" [])
    [Sample.route "r1" "L1" "p" ["a"] []] (Sample.evidence "p" EXISTENTIAL) (sample_verdict "p")
    Sample.evs (map sample_verdict ["p"; "env-r1"; "env-r2"]) ["checker"] "policy" [] ["c"]
    [] [] [] [].

Lemma decide_promotion_sound_witness :
  ∃ d, decide_promotion sample_promotion = Ok d ∧
    checked_evidence (pr_evidence sample_promotion) (pr_checker_verdict sample_promotion)
      "p" EXISTENTIAL (scope_fingerprint Sample.scope) ["checker"].
Proof.
  eexists. split; [vm_compute; reflexivity|].
  eapply (decide_promotion_sound sample_promotion); vm_compute; reflexivity.
Defined.

Lemma decide_promotion_total_witness :
  ∃ d, decide_promotion sample_promotion = Ok d.
Proof.
  edestruct (decide_promotion_total sample_promotion) as (d & Hd & _).
  - vm_compute. reflexivity.
  - apply uniq_true. vm_compute. reflexivity.
  - intros r ->%list_elem_of_singleton. split; [apply uniq_true|]; vm_compute; reflexivity.
  - apply uniq_true. vm_compute. reflexivity.
  - apply uniq_true. vm_compute. reflexivity.
  - exists d. exact Hd.
Defined.
