(* ===== verification/Backlog.v ===== *)
(** * Backlog reconciliation: [src/rci/backlog]

    The backlog records, the deterministic reconciliation that turns findings
    into effects, and the bounded projection that applies authorised effects.
    [by_id] is a dictionary; the final [sorted] has the unique identity in its
    key, so the dictionary's order is not observable. *)

From Stdlib Require Import Ascii.
From S2P Require Import Prelude Digest Model.

(** ** [backlog/models.py] *)

(** The UTF-8 encodings of the characters [str.strip] removes. *)
Definition utf8 (l : list N) : string :=
  foldr (λ n s, String (ascii_of_N n) s) EmptyString l.

Definition whitespace : list string :=
  map utf8
    ([[9]; [10]; [11]; [12]; [13]; [28]; [29]; [30]; [31]; [32]; [194; 133]; [194; 160];
      [225; 154; 128]; [226; 128; 168]; [226; 128; 169]; [226; 128; 175]; [226; 129; 159];
      [227; 128; 128]]
     ++ map (λ n, [226; 128; n]) [128; 129; 130; 131; 132; 133; 134; 135; 136; 137; 138])%N.

Fixpoint drop_prefix (p s : string) : option string :=
  match p, s with
  | EmptyString, _ => Some s
  | String a p, String b s => if a ==? b then drop_prefix p s else None
  | _, _ => None
  end.

Fixpoint first_match (ps : list string) (s : string) : option string :=
  match ps with
  | [] => None
  | p :: ps => match drop_prefix p s with Some r => Some r | None => first_match ps s end
  end.

Fixpoint strip_front (fuel : nat) (ps : list string) (s : string) : string :=
  match fuel with
  | O => s
  | S fuel => match first_match ps s with Some r => strip_front fuel ps r | None => s end
  end.

Fixpoint string_rev (s acc : string) : string :=
  match s with EmptyString => acc | String a s => string_rev s (String a acc) end.

(** [value.strip()] *)
Definition strip (s : string) : string :=
  let s1 := strip_front (String.length s) whitespace s in
  let s2 := strip_front (String.length s1) (map (λ w, string_rev w "") whitespace) (string_rev s1 "") in
  string_rev s2 "".

Example strip_example :
  strip (String "009" (" a b" +:+ utf8 [194; 160; 32]%N)) = "a b".
Proof. vm_compute. reflexivity. Qed.

Definition backlog_fingerprint (title protected_consequence source : string) : string :=
  Sha256.hexdigest
    (canonical_json (JList [JString (strip title); JString (strip protected_consequence);
                            JString (strip source)])).

Inductive EvidenceStatus : Type :=
| CHECKED_OPEN | CHECKED_BLOCKED | CHECKED_CLOSABLE | STALE | ES_UNKNOWN | CONTRADICTED.
#[export] Instance EvidenceStatus_eq_dec : EqDecision EvidenceStatus.
Proof. solve_decision. Defined.

Definition CHECKED_EVIDENCE_STATUSES : list EvidenceStatus :=
  [CHECKED_OPEN; CHECKED_BLOCKED; CHECKED_CLOSABLE].

Inductive BacklogEffectKind : Type := CREATE | DEDUPE | RANK | BLOCK | CLOSE.
#[export] Instance BacklogEffectKind_eq_dec : EqDecision BacklogEffectKind.
Proof. solve_decision. Defined.

Definition BacklogEffectKind_value (k : BacklogEffectKind) : string :=
  match k with
  | CREATE => "create" | DEDUPE => "dedupe" | RANK => "rank" | BLOCK => "block" | CLOSE => "close"
  end.

Definition G1_APPLICABLE_EFFECT_KINDS : list BacklogEffectKind := [CREATE; DEDUPE; RANK; BLOCK].

Record BacklogFinding : Type := MkBacklogFinding {
  bf_id : string;
  bf_title : string;
  bf_protected_consequence : string;
  bf_source : string;
  bf_evidence_status : EvidenceStatus;
  bf_evidence_digest : option string;
  bf_workspace_digest : string;
  bf_priority : Z;
  bf_recurrence_of : option string;
}.

Definition validate_finding (f : BacklogFinding) : result unit :=
  raise_if (existsb is_empty [bf_id f; bf_title f; bf_protected_consequence f; bf_source f;
                              bf_workspace_digest f])
    ValidationError "finding identity and evidence fields are required";;
  raise_if (mem (bf_evidence_status f) CHECKED_EVIDENCE_STATUSES
            && is_empty (default "" (bf_evidence_digest f)))
    ValidationError "checked findings require an exact evidence digest".

Definition finding_fingerprint (f : BacklogFinding) : string :=
  backlog_fingerprint (bf_title f) (bf_protected_consequence f) (bf_source f).

Record BacklogItem : Type := MkBacklogItem {
  bi_id : string;
  bi_fingerprint : string;
  bi_title : string;
  bi_protected_consequence : string;
  bi_source : string;
  bi_rank : Z;
  bi_blocked : bool;
  bi_closed : bool;
  bi_recurrence_of : option string;
}.
#[export] Instance BacklogItem_eq_dec : EqDecision BacklogItem.
Proof. solve_decision. Defined.

Record BacklogEffect : Type := MkBacklogEffect {
  be_id : string;
  be_kind : BacklogEffectKind;
  be_finding_id : string;
  be_target_item_id : string;
  be_fingerprint : string;
  be_title : string;
  be_protected_consequence : string;
  be_source : string;
  be_recurrence_of : option string;
  be_rank : option Z;
  be_evidence_digest : string;
  be_workspace_digest : string;
  be_reason : string;
}.
#[export] Instance BacklogEffect_eq_dec : EqDecision BacklogEffect.
Proof. solve_decision. Defined.

(** ** [backlog/reconcile.py] *)

Record BacklogPolicy : Type := MkBacklogPolicy {
  allowed_apply_effects : list BacklogEffectKind;
  proposal_only_effects : list BacklogEffectKind;
}.

Definition default_policy : BacklogPolicy := MkBacklogPolicy G1_APPLICABLE_EFFECT_KINDS [CLOSE].

Definition validate_policy (p : BacklogPolicy) : result unit :=
  raise_if (existsb (λ k, mem k (proposal_only_effects p)) (allowed_apply_effects p))
    ValidationError "an effect cannot be both applicable and proposal-only";;
  raise_if (negb (subset (allowed_apply_effects p) G1_APPLICABLE_EFFECT_KINDS))
    ValidationError "G1 policy cannot authorize apply effects";;
  raise_if (negb (mem CLOSE (proposal_only_effects p)))
    ValidationError "G1 requires close to remain proposal-only".

Definition NUL : string := String "000" "".

Definition effect_id (kind : BacklogEffectKind) (f : BacklogFinding) (target : string) :
    result string :=
  match bf_evidence_digest f with
  | None => raise ValueError "applicable backlog effects require checked evidence"
  | Some d =>
    let material := BacklogEffectKind_value kind +:+ NUL +:+ bf_id f +:+ NUL +:+ target
                    +:+ NUL +:+ d in
    Ok ("bfx_" +:+ prefix 24 (Sha256.hexdigest material))
  end.

Definition effect (kind : BacklogEffectKind) (f : BacklogFinding) (target reason : string)
    (rank : option Z) : result BacklogEffect :=
  match bf_evidence_digest f with
  | None => raise ValueError "applicable backlog effects require checked evidence"
  | Some d =>
    id ← effect_id kind f target;
    Ok (MkBacklogEffect id kind (bf_id f) target (finding_fingerprint f) (bf_title f)
          (bf_protected_consequence f) (bf_source f) (bf_recurrence_of f) rank d
          (bf_workspace_digest f) reason)
  end.

Definition is_continuation (a : ascii) : bool := in_range 128 191 a.

(** [len(value)]: the number of code points. *)
Fixpoint codepoints (s : string) : nat :=
  match s with
  | EmptyString => 0
  | String a s => (if is_continuation a then 0 else 1) + codepoints s
  end.

(** [value[-n:]]: the last [n] code points. *)
Fixpoint suffix (n : nat) (s : string) : string :=
  match s with
  | EmptyString => EmptyString
  | String a s' => if (codepoints s <=? n) && negb (is_continuation a) then s else suffix n s'
  end.

Example suffix_example : suffix 3 ("abc" +:+ utf8 [195; 169]%N) = "bc" +:+ utf8 [195; 169]%N.
Proof. vm_compute. reflexivity. Qed.

Definition with_recurrence (f : BacklogFinding) (r : option string) : BacklogFinding :=
  MkBacklogFinding (bf_id f) (bf_title f) (bf_protected_consequence f) (bf_source f)
    (bf_evidence_status f) (bf_evidence_digest f) (bf_workspace_digest f) (bf_priority f) r.

Definition effective_finding (matched closed : option BacklogItem) (f : BacklogFinding) :
    BacklogFinding :=
  match matched, closed, bf_recurrence_of f with
  | None, Some c, None => with_recurrence f (Some (bi_id c))
  | _, _, _ => f
  end.

Definition finding_target (matched closed : option BacklogItem) (f : BacklogFinding) : string :=
  match matched with
  | Some m => bi_id m
  | None =>
    if is_some (bf_recurrence_of (effective_finding matched closed f))
    then "item_" +:+ prefix 16 (finding_fingerprint f) +:+ "_" +:+ suffix 7 (bf_id f)
    else "item_" +:+ prefix 24 (finding_fingerprint f)
  end.

(** The effects of one checked finding. *)
Definition finding_effects (matched closed : option BacklogItem) (f : BacklogFinding) :
    result (list BacklogEffect) :=
  let eff := effective_finding matched closed f in
  let target := finding_target matched closed f in
  e1 ← match matched with
       | None => effect CREATE eff target
                   (if is_some closed then "linked recurrence" else "new exact fingerprint") None
       | Some _ => effect DEDUPE f target "exact fingerprint match" None
       end;
  e2 ← effect RANK f target "deterministic checked-evidence priority" (Some (bf_priority f));
  e3 ← match bf_evidence_status f with
       | CHECKED_BLOCKED =>
         e ← effect BLOCK f target "checked prerequisite is open" None; Ok [e]
       | CHECKED_CLOSABLE =>
         e ← effect CLOSE f target "fresh checked closure evidence; proposal-only in G1" None; Ok [e]
       | _ => Ok []
       end;
  Ok (e1 :: e2 :: e3).

Definition finding_item (matched closed : option BacklogItem) (f : BacklogFinding) : BacklogItem :=
  MkBacklogItem (finding_target matched closed f) (finding_fingerprint f) (bf_title f)
    (bf_protected_consequence f) (bf_source f) (bf_priority f) false false
    (bf_recurrence_of (effective_finding matched closed f)).

(** [existing.setdefault(key, value)] *)
Definition setdefault {A} (m : gmap string A) (k : string) (x : A) : gmap string A :=
  match m !! k with Some _ => m | None => <[k := x]> m end.

(** The loop over the ordered findings; [existing] grows as it runs. *)
Fixpoint reconcile_loop (closed existing : gmap string BacklogItem)
    (findings : list BacklogFinding) : result (list BacklogEffect) :=
  match findings with
  | [] => Ok []
  | f :: findings =>
    if negb (mem (bf_evidence_status f) CHECKED_EVIDENCE_STATUSES)
    then reconcile_loop closed existing findings
    else
      let matched := existing !! finding_fingerprint f in
      let prior_closed := closed !! finding_fingerprint f in
      es ← finding_effects matched prior_closed f;
      rest ← reconcile_loop closed
               (setdefault existing (finding_fingerprint f) (finding_item matched prior_closed f))
               findings;
      Ok (es ++ rest)
  end.

Definition open_items (items : list BacklogItem) : gmap string BacklogItem :=
  dict_by bi_fingerprint (List.filter (λ i, negb (bi_closed i)) items).
Definition closed_items (items : list BacklogItem) : gmap string BacklogItem :=
  dict_by bi_fingerprint (List.filter bi_closed items).

Definition reconcile (items : list BacklogItem) (findings : list BacklogFinding) :
    result (list BacklogEffect) :=
  reconcile_loop (closed_items items) (open_items items)
    (sort_by (λ f, (- bf_priority f, bf_id f)%Z) findings).

Definition with_rank (i : BacklogItem) (r : Z) : BacklogItem :=
  MkBacklogItem (bi_id i) (bi_fingerprint i) (bi_title i) (bi_protected_consequence i)
    (bi_source i) r (bi_blocked i) (bi_closed i) (bi_recurrence_of i).

Definition with_blocked (i : BacklogItem) : BacklogItem :=
  MkBacklogItem (bi_id i) (bi_fingerprint i) (bi_title i) (bi_protected_consequence i)
    (bi_source i) (bi_rank i) true (bi_closed i) (bi_recurrence_of i).

Definition new_item (e : BacklogEffect) : BacklogItem :=
  MkBacklogItem (be_target_item_id e) (be_fingerprint e) (be_title e) (be_protected_consequence e)
    (be_source e) 0 false false (be_recurrence_of e).

(** The body of the [for effect in effects] loop of [apply_effects]. *)
Definition apply_effect (policy : BacklogPolicy) (by_id : gmap string BacklogItem)
    (e : BacklogEffect) : result (gmap string BacklogItem) :=
  raise_if (negb (mem (be_kind e) (allowed_apply_effects policy)))
    PermissionError "effect is not authorized for G1 apply";;
  match be_kind e, by_id !! be_target_item_id e with
  | CREATE, None => Ok (<[be_target_item_id e := new_item e]> by_id)
  | CREATE, Some item =>
    raise_if (bi_fingerprint item !=? be_fingerprint e)
      ValueError "create effect target identity has different content";; Ok by_id
  | _, None => raise ValueError "non-create effect targets an unknown item"
  | k, Some item =>
    raise_if (bi_fingerprint item !=? be_fingerprint e)
      ValueError "effect fingerprint does not match its target item";;
    match k with
    | RANK => Ok (<[bi_id item := with_rank item (default 0%Z (be_rank e))]> by_id)
    | BLOCK => Ok (<[bi_id item := with_blocked item]> by_id)
    | DEDUPE => Ok by_id
    | _ => raise RuntimeError "unhandled authorized backlog effect"
    end
  end.

Fixpoint run_effects (policy : BacklogPolicy) (by_id : gmap string BacklogItem)
    (effects : list BacklogEffect) : result (gmap string BacklogItem) :=
  match effects with
  | [] => Ok by_id
  | e :: effects => by_id ← apply_effect policy by_id e; run_effects policy by_id effects
  end.

Definition item_key (i : BacklogItem) : Z * string := (- bi_rank i, bi_id i)%Z.

Definition apply_effects (items : list BacklogItem) (effects : list BacklogEffect)
    (policy : BacklogPolicy) : result (list BacklogItem) :=
  by_id ← run_effects policy (dict_by bi_id items) effects;
  Ok (sort_by item_key (map_to_list by_id).*2).

(** ** Application: lemmas *)

(** An item keeps its identity and content; it can be re-ranked and blocked. *)
Definition evolves (i j : BacklogItem) : Prop :=
  ∃ r b, j = MkBacklogItem (bi_id i) (bi_fingerprint i) (bi_title i) (bi_protected_consequence i)
               (bi_source i) r b (bi_closed i) (bi_recurrence_of i) ∧
         (bi_blocked i = true → b = true).

#[export] Instance evolves_refl : Reflexive evolves.
Proof. intros i. exists (bi_rank i), (bi_blocked i). by destruct i. Qed.
#[export] Instance evolves_trans : Transitive evolves.
Proof. intros i j k (r & b & -> & Hb) (r' & b' & -> & Hb'). exists r', b'. cbn in *. auto. Qed.

Lemma with_rank_evolves i r : evolves i (with_rank i r).
Proof. exists r, (bi_blocked i). auto. Qed.
Lemma with_blocked_evolves i : evolves i (with_blocked i).
Proof. exists (bi_rank i), true. auto. Qed.

Lemma evolves_id i j : evolves i j → bi_id j = bi_id i.
Proof. by intros (? & ? & -> & _). Qed.
Lemma evolves_fingerprint i j : evolves i j → bi_fingerprint j = bi_fingerprint i.
Proof. by intros (? & ? & -> & _). Qed.
Lemma evolves_closed i j : evolves i j → bi_closed j = bi_closed i.
Proof. by intros (? & ? & -> & _). Qed.

(** [by_id] maps every identity to the item that has it. *)
Definition keyed (m : gmap string BacklogItem) : Prop := ∀ k i, m !! k = Some i → bi_id i = k.

Lemma dict_by_keyed items : keyed (dict_by bi_id items).
Proof. by intros k i [_ ?]%dict_by_Some. Qed.

(** The three ways an authorised effect succeeds. *)
Lemma apply_effect_inv policy m e m' :
  keyed m → apply_effect policy m e = Ok m' →
  be_kind e ∈ allowed_apply_effects policy ∧
  ((be_kind e = CREATE ∧ m !! be_target_item_id e = None ∧
    m' = <[be_target_item_id e := new_item e]> m) ∨
   ∃ i j, m !! be_target_item_id e = Some i ∧ bi_fingerprint i = be_fingerprint e ∧
     evolves i j ∧ m' = <[be_target_item_id e := j]> m).
Proof.
  intros Hk. unfold apply_effect. intros [Ha H]%raise_if_bind.
  rewrite negb_false_iff, mem_true in Ha. split; [done|].
  destruct (m !! be_target_item_id e) as [i|] eqn:E; [right|left; by destruct (be_kind e); simplify_eq/=].
  assert (H' : bi_fingerprint i = be_fingerprint e ∧
    ∃ j, evolves i j ∧ m' = <[be_target_item_id e := j]> m).
  { pose proof (Hk _ _ E) as Hid.
    destruct (be_kind e); apply raise_if_bind in H as [Hf H];
      rewrite neqb_false in Hf; (split; [done|]); simplify_eq/=.
    - exists i. by rewrite insert_id.
    - exists i. by rewrite insert_id.
    - rewrite Hid. eexists. split; [apply with_rank_evolves|done].
    - rewrite Hid. eexists. split; [apply with_blocked_evolves|done]. }
  destruct H' as (? & j & ? & ?). eauto 10.
Qed.

Lemma apply_effect_keyed policy m e m' : keyed m → apply_effect policy m e = Ok m' → keyed m'.
Proof.
  intros Hk H. apply apply_effect_inv in H as [_ [(_ & _ & ->)|(i & j & Hi & _ & Hev & ->)]];
    [| |done]; intros k x.
  - intros [[<- <-]|[_ ?]]%lookup_insert_Some; [done|by apply Hk].
  - intros [[<- <-]|[_ ?]]%lookup_insert_Some; [|by apply Hk].
    by rewrite (evolves_id _ _ Hev), (Hk _ _ Hi).
Qed.

Lemma run_effects_app policy m es es' :
  run_effects policy m (es ++ es') = m' ← run_effects policy m es; run_effects policy m' es'.
Proof.
  revert m. induction es as [|e es IH]; intros m; [done|]. cbn.
  destruct (apply_effect policy m e); cbn; [apply IH|done].
Qed.

Lemma run_effects_keyed policy m es m' : keyed m → run_effects policy m es = Ok m' → keyed m'.
Proof.
  revert m. induction es as [|e es IH]; intros m Hk H; [by injection H as <-|].
  cbn in H. apply bind_ok in H as (m1 & H1 & H). eapply IH; [|done]. by eapply apply_effect_keyed.
Qed.

Lemma run_effects_spec policy m es m' :
  keyed m → run_effects policy m es = Ok m' →
  (∀ e, e ∈ es → be_kind e ∈ allowed_apply_effects policy) ∧
  (∀ k i, m !! k = Some i → ∃ j, m' !! k = Some j ∧ evolves i j) ∧
  (∀ k j, m' !! k = Some j → (∃ i, m !! k = Some i ∧ evolves i j) ∨
     ∃ e, e ∈ es ∧ be_kind e = CREATE ∧ be_target_item_id e = k ∧ evolves (new_item e) j).
Proof.
  revert m. induction es as [|e es IH]; intros m Hk H; cbn in H.
  { injection H as <-. split_and!.
    - by intros e ?%not_elem_of_nil.
    - intros k i Hi. by exists i.
    - intros k j Hj. left. by exists j. }
  apply bind_ok in H as (m1 & H1 & H).
  pose proof (apply_effect_keyed _ _ _ _ Hk H1) as Hk1.
  destruct (IH m1 Hk1 H) as (IHa & IHm & IHn).
  apply apply_effect_inv in H1 as [Ha H1]; [|done]. split_and!.
  - intros e' [->|?]%elem_of_cons; auto.
  - intros k i Hi. destruct H1 as [(_ & Hn & ->)|(i0 & j0 & Hi0 & _ & Hev & ->)].
    + apply IHm. rewrite lookup_insert_ne; [done|]. intros <-. congruence.
    + destruct (decide (be_target_item_id e = k)) as [<-|Hne].
      * destruct (IHm (be_target_item_id e) j0) as (j & Hj & Hev'); [by rewrite lookup_insert_eq|].
        exists j. split; [done|]. assert (i = i0) as -> by congruence. by etrans.
      * apply IHm. by rewrite lookup_insert_ne.
  - intros k j Hj. destruct (IHn k j Hj) as [(i & Hi & Hev)|(e' & He' & Hc & Ht & Hev)].
    + destruct H1 as [(Hc & Hn & ->)|(i0 & j0 & Hi0 & _ & Hev0 & ->)];
        apply lookup_insert_Some in Hi as [[<- <-]|[_ Hi]].
      * right. exists e. by split_and!; [constructor|..].
      * left. eauto.
      * left. exists i0. split; [done|]. by etrans.
      * left. eauto.
    + right. exists e'. by split_and!; [by constructor|..].
Qed.

(** The values of a keyed map, sorted, rebuild the map. *)
Lemma dict_by_values m :
  keyed m → dict_by bi_id (sort_by item_key (map_to_list m).*2) = m.
Proof.
  intros Hk. assert (Hfst : bi_id <$> (map_to_list m).*2 = (map_to_list m).*1).
  { rewrite <-list_fmap_compose. apply list_fmap_ext. intros i [k x] Hi. cbn.
    apply Hk. by apply elem_of_map_to_list, list_elem_of_lookup_2 with i. }
  assert (Hnd : NoDup (bi_id <$> sort_by item_key (map_to_list m).*2)).
  { rewrite sort_by_perm, Hfst. apply NoDup_fst_map_to_list. }
  apply map_eq. intros k. destruct (m !! k) as [i|] eqn:E.
  - rewrite <-(Hk _ _ E). apply dict_by_NoDup; [done|]. rewrite elem_of_sort_by.
    apply list_elem_of_fmap. exists (k, i). split; [done|]. by apply elem_of_map_to_list.
  - apply dict_by_None. rewrite sort_by_perm, Hfst. intros ([k' i] & -> & Hin)%list_elem_of_fmap.
    apply elem_of_map_to_list in Hin. cbn in E. congruence.
Qed.

Lemma elem_of_values m i : keyed m → i ∈ sort_by item_key (map_to_list m).*2 ↔ m !! bi_id i = Some i.
Proof.
  intros Hk. rewrite elem_of_sort_by, list_elem_of_fmap. split.
  - intros ([k x] & -> & Hin%elem_of_map_to_list). cbn. by rewrite (Hk _ _ Hin).
  - intros H. exists (bi_id i, i). split; [done|]. by apply elem_of_map_to_list.
Qed.

(** ** Reconciliation: lemmas *)

Lemma effect_Ok k f t r rank e :
  effect k f t r rank = Ok e →
  be_kind e = k ∧ be_target_item_id e = t ∧ be_fingerprint e = finding_fingerprint f ∧ be_rank e = rank.
Proof.
  unfold effect. destruct (bf_evidence_digest f) as [d|]; [|done].
  intros (id & _ & [= <-])%bind_ok. done.
Qed.

Lemma effective_finding_fingerprint m c f :
  finding_fingerprint (effective_finding m c f) = finding_fingerprint f.
Proof. unfold effective_finding. by destruct m, c, (bf_recurrence_of f). Qed.

Lemma effective_finding_digest m c f :
  bf_evidence_digest (effective_finding m c f) = bf_evidence_digest f.
Proof. unfold effective_finding. by destruct m, c, (bf_recurrence_of f). Qed.

Lemma finding_effects_total m c f :
  is_Some (bf_evidence_digest f) → ∃ es, finding_effects m c f = Ok es.
Proof.
  intros [d Hd]. unfold finding_effects, effect, effect_id.
  rewrite effective_finding_digest, Hd. cbn.
  destruct m, (bf_evidence_status f); cbn; eexists; reflexivity.
Qed.

(** The identities a finding's effects can target when nothing matches it. *)
Definition fresh_targets (f : BacklogFinding) : list string :=
  ["item_" +:+ prefix 16 (finding_fingerprint f) +:+ "_" +:+ suffix 7 (bf_id f);
   "item_" +:+ prefix 24 (finding_fingerprint f)].

Lemma finding_target_fresh c f : finding_target None c f ∈ fresh_targets f.
Proof. unfold finding_target, fresh_targets. destruct (is_some _); set_solver. Qed.

Definition applicable (e : BacklogEffect) : bool := be_kind e !=? CLOSE.

(** What an authorised effect does to a target that carries its fingerprint. *)
Lemma apply_effect_match m e j :
  keyed m → be_kind e ≠ CLOSE → m !! be_target_item_id e = Some j →
  bi_fingerprint j = be_fingerprint e →
  apply_effect default_policy m e =
    Ok match be_kind e with
       | RANK => <[be_target_item_id e := with_rank j (default 0%Z (be_rank e))]> m
       | BLOCK => <[be_target_item_id e := with_blocked j]> m
       | _ => m
       end.
Proof.
  intros Hk Hc Hj Hf. unfold apply_effect. rewrite Hj, Hf, bool_decide_true by done.
  rewrite (Hk _ _ Hj). by destruct (be_kind e).
Qed.

Lemma apply_effect_create m e :
  be_kind e = CREATE → m !! be_target_item_id e = None →
  apply_effect default_policy m e = Ok (<[be_target_item_id e := new_item e]> m).
Proof. intros Hc Hn. unfold apply_effect. by rewrite Hc, Hn. Qed.

(** The effects of a finding, proposals dropped, apply wherever its target is
    free or carries its fingerprint; then the target does carry it. *)
Lemma finding_effects_apply matched closed f es m :
  keyed m → finding_effects matched closed f = Ok es →
  match matched with
  | Some i => ∃ j, m !! bi_id i = Some j ∧ bi_fingerprint j = finding_fingerprint f
  | None => ∀ j, m !! finding_target None closed f = Some j → bi_fingerprint j = finding_fingerprint f
  end →
  ∃ m' j, run_effects default_policy m (List.filter applicable es) = Ok m' ∧
    m' !! finding_target matched closed f = Some j ∧ bi_fingerprint j = finding_fingerprint f ∧
    ∀ k, k ≠ finding_target matched closed f → m' !! k = m !! k.
Proof.
  intros Hk H Hm. unfold finding_effects in H.
  apply bind_ok in H as (e1 & He1 & H). apply bind_ok in H as (e2 & He2 & H).
  apply bind_ok in H as (e3 & He3 & [= <-]).
  set (t := finding_target matched closed f) in *.
  apply effect_Ok in He2 as (Hk2 & Ht2 & Hf2 & _).
  assert (H1 : applicable e1 = true ∧ ∃ m1 j, apply_effect default_policy m e1 = Ok m1 ∧ keyed m1 ∧
    m1 !! t = Some j ∧ bi_fingerprint j = finding_fingerprint f ∧ ∀ k, k ≠ t → m1 !! k = m !! k).
  { destruct matched as [i|]; apply effect_Ok in He1 as (Hk1 & Ht1 & Hf1 & _);
      unfold applicable; rewrite Hk1; (split; [done|]).
    - destruct Hm as (j & Hj & Hjf). exists m, j.
      rewrite (apply_effect_match m e1 j), Hk1 by (rewrite ?Hk1, ?Ht1, ?Hf1; done). done.
    - fold t in Hm. rewrite effective_finding_fingerprint in Hf1.
      destruct (m !! t) as [j|] eqn:Hj.
      + exists m, j. rewrite (apply_effect_match m e1 j), Hk1
          by (rewrite ?Hk1, ?Ht1, ?Hf1; auto).
        by split_and!; auto.
      + exists (<[t := new_item e1]> m), (new_item e1).
        rewrite apply_effect_create, Ht1 by (rewrite ?Ht1; done). split_and!.
        * done.
        * intros k x [[<- <-]|[_ ?]]%lookup_insert_Some; [cbn; by rewrite Ht1|by apply Hk].
        * by rewrite lookup_insert_eq.
        * done.
        * intros k Hne. by rewrite lookup_insert_ne. }
  destruct H1 as (Ha1 & m1 & j1 & H1 & Hk1 & Hj1 & Hf1 & Ho1).
  assert (Ha2 : applicable e2 = true) by (unfold applicable; by rewrite Hk2).
  assert (Hrun2 : apply_effect default_policy m1 e2
    = Ok (<[t := with_rank j1 (default 0%Z (be_rank e2))]> m1)).
  { rewrite (apply_effect_match m1 e2 j1), Hk2, Ht2
      by (rewrite ?Hk2, ?Ht2, ?Hf2; done). done. }
  cbn [List.filter]. rewrite Ha1, Ha2. cbn [run_effects]. rewrite H1. cbn [mbind result_bind].
  rewrite Hrun2. cbn [mbind result_bind].
  set (m2 := <[t := _]> m1).
  assert (H2 : ∃ j2, m2 !! t = Some j2 ∧ bi_id j2 = t ∧ bi_fingerprint j2 = finding_fingerprint f).
  { eexists. split; [apply lookup_insert_eq|]. cbn. by rewrite (Hk1 _ _ Hj1). }
  assert (Ho2 : ∀ k, k ≠ t → m2 !! k = m !! k).
  { intros k Hne. unfold m2. rewrite lookup_insert_ne by done. by apply Ho1. }
  destruct H2 as (j2 & Hj2 & Hid2 & Hf2').
  assert (Hdone : e3 = [] ∨ (∃ e, e3 = [e] ∧ be_kind e = CLOSE) ∨
    ∃ e, e3 = [e] ∧ be_kind e = BLOCK ∧ be_target_item_id e = t ∧ be_fingerprint e = finding_fingerprint f).
  { destruct (bf_evidence_status f); try (injection He3 as <-; auto; fail).
    - apply bind_ok in He3 as (e & (?&?&?&_)%effect_Ok & [= <-]). eauto 10.
    - apply bind_ok in He3 as (e & (?&?&?&_)%effect_Ok & [= <-]). eauto 10. }
  destruct Hdone as [->|[(e & -> & Hke)|(e & -> & Hke & Hte & Hfe)]].
  - exists m2, j2. by split_and!.
  - exists m2, j2. cbn. unfold applicable. rewrite Hke. by split_and!.
  - exists (<[t := with_blocked j2]> m2), (with_blocked j2).
    assert (Hk2' : keyed m2).
    { intros k x [[<- <-]|[_ ?]]%lookup_insert_Some; [|by apply Hk1]. cbn. by apply Hk1. }
    assert (Hae : applicable e = true) by (unfold applicable; by rewrite Hke).
    cbn [List.filter]. rewrite Hae. cbn [run_effects]. rewrite (apply_effect_match m2 e j2), Hke, Hte
      by (rewrite ?Hke, ?Hte, ?Hfe; done).
    split_and!; [done|by rewrite lookup_insert_eq|done|].
    intros k Hne. rewrite lookup_insert_ne by done. by apply Ho2.
Qed.

Section reconcile_loop.
(** [origin k fp]: identity [k] was introduced for fingerprint [fp]. *)
Context (items : list BacklogItem) (all : list BacklogFinding).

Definition origin (k fp : string) : Prop :=
  (∃ i, i ∈ items ∧ bi_id i = k ∧ bi_fingerprint i = fp) ∨
  (∃ f, f ∈ all ∧ k ∈ fresh_targets f ∧ finding_fingerprint f = fp).

(** No identity is introduced for two fingerprints. *)
Definition collision_free : Prop := ∀ k fp fp', origin k fp → origin k fp' → fp = fp'.

Definition loop_inv (existing m : gmap string BacklogItem) : Prop :=
  keyed m ∧ (∀ k j, m !! k = Some j → origin k (bi_fingerprint j)) ∧
  ∀ fp i, existing !! fp = Some i → ∃ j, m !! bi_id i = Some j ∧ bi_fingerprint j = fp.

Lemma reconcile_loop_apply closed existing findings m :
  collision_free → loop_inv existing m →
  (∀ f, f ∈ findings → f ∈ all ∧ validate_finding f = Ok tt) →
  ∃ es m', reconcile_loop closed existing findings = Ok es ∧
    run_effects default_policy m (List.filter applicable es) = Ok m'.
Proof.
  intros Hcf. revert existing m. induction findings as [|f fs IH];
    intros existing m (Hk & Hor & Hex) Hfs; [by exists [], m|]. cbn [reconcile_loop].
  destruct (Hfs f) as [Hfall Hvf]; [constructor|].
  destruct (mem _ _) eqn:Echk; cbn [negb]; [|apply IH; [done|intros; apply Hfs; by constructor]].
  assert (Hdig : is_Some (bf_evidence_digest f)).
  { unfold validate_finding in Hvf. inv_ok Hvf. rewrite raise_if_ok, Echk in Hvf. cbn in Hvf.
    destruct (bf_evidence_digest f); [by eexists|done]. }
  set (matched := existing !! finding_fingerprint f).
  set (prior := closed !! finding_fingerprint f).
  destruct (finding_effects_total matched prior f Hdig) as [es Hes].
  assert (Hpre : match matched with
    | Some i => ∃ j, m !! bi_id i = Some j ∧ bi_fingerprint j = finding_fingerprint f
    | None => ∀ j, m !! finding_target None prior f = Some j →
                   bi_fingerprint j = finding_fingerprint f
    end).
  { destruct matched as [i|] eqn:Em; [by apply Hex|]. intros j Hj.
    eapply Hcf; [by eapply Hor|]. right. exists f. split_and!; [done| |done].
    apply finding_target_fresh. }
  destruct (finding_effects_apply matched prior f es m Hk Hes Hpre) as (m1 & j1 & Hrun & Hj1 & Hf1 & Ho1).
  pose proof (run_effects_keyed _ _ _ _ Hk Hrun) as Hk1.
  destruct (IH (setdefault existing (finding_fingerprint f) (finding_item matched prior f)) m1)
    as (rest & m2 & Hrest & Hrun2).
  - split_and!; [done| |].
    + intros k j Hj. destruct (decide (k = finding_target matched prior f)) as [->|Hne].
      * rewrite Hj1 in Hj. injection Hj as <-. rewrite Hf1.
        destruct matched as [i|] eqn:Em.
        -- destruct Hpre as (j & Hj & <-). by apply Hor.
        -- right. exists f. split_and!; [done|apply finding_target_fresh|done].
      * rewrite Ho1 in Hj by done. by apply Hor.
    + intros fp i Hi. assert (Hcase : existing !! fp = Some i ∨
        (fp = finding_fingerprint f ∧ i = finding_item matched prior f)).
      { unfold setdefault in Hi. destruct (existing !! finding_fingerprint f) eqn:Em; [auto|].
        apply lookup_insert_Some in Hi as [[<- <-]|[_ ?]]; auto. }
      destruct Hcase as [Hi'|[-> ->]]; [|by exists j1].
      destruct (Hex _ _ Hi') as (j & Hj & Hjf).
      destruct (decide (bi_id i = finding_target matched prior f)) as [He|Hne].
      * exists j1. rewrite He. split; [done|]. rewrite Hf1, <-Hjf.
        assert (Hor1 : origin (bi_id i) (bi_fingerprint j)) by by apply Hor.
        eapply Hcf; [|exact Hor1]. rewrite He. destruct matched as [i'|] eqn:Em.
        -- destruct Hpre as (j' & Hj' & <-). cbn. by apply Hor.
        -- right. exists f. split_and!; [done|apply finding_target_fresh|done].
      * exists j. by rewrite Ho1.
  - intros g Hg. apply Hfs. by constructor.
  - rewrite Hes. cbn [mbind result_bind]. rewrite Hrest. cbn.
    exists (es ++ rest), m2. split; [done|].
    rewrite List.filter_app, run_effects_app, Hrun. done.
Qed.
End reconcile_loop.

Lemma loop_inv_init items all :
  NoDup (map bi_id items) → loop_inv items all (open_items items) (dict_by bi_id items).
Proof.
  intros Hnd. split_and!; [apply dict_by_keyed| |].
  - intros k j [Hj <-]%dict_by_Some. left. by exists j.
  - intros fp i [Hi <-]%dict_by_Some. apply elem_of_lfilter in Hi as [Hi _].
    exists i. split; [|done]. by apply dict_by_NoDup.
Qed.

(** ** Properties *)

(** Applying a batch of effects is applying its parts one after the other,
    errors included: the projection that [RecordBacklogEffect] rebuilds effect by
    effect is the batch projection. *)
Theorem apply_effects_batch policy items es es' :
  apply_effects items (es ++ es') policy
  = items1 ← apply_effects items es policy; apply_effects items1 es' policy.
Proof.
  unfold apply_effects. rewrite run_effects_app.
  destruct (run_effects policy (dict_by bi_id items) es) as [m|e] eqn:E; [|done]. cbn.
  rewrite dict_by_values; [done|]. eapply run_effects_keyed; [|done]. apply dict_by_keyed.
Qed.

(** Under any valid G1 policy, application never closes, drops or rewrites
    an item.  Every input item survives with its identity, content and closed
    flag, at most re-ranked or blocked; every other item is open and was created
    by a CREATE effect carrying its identity and fingerprint; identities stay
    unique; and no CLOSE effect is ever applied. *)
Theorem apply_effects_conservative policy items es items' :
  validate_policy policy = Ok tt → NoDup (map bi_id items) →
  apply_effects items es policy = Ok items' →
  (∀ e, e ∈ es → be_kind e ≠ CLOSE) ∧ NoDup (map bi_id items') ∧
  (∀ i, i ∈ items → ∃ j, j ∈ items' ∧ evolves i j) ∧
  (∀ j, j ∈ items' → (∃ i, i ∈ items ∧ evolves i j) ∨
     (bi_closed j = false ∧ ∃ e, e ∈ es ∧ be_kind e = CREATE ∧
        bi_id j = be_target_item_id e ∧ bi_fingerprint j = be_fingerprint e)).
Proof.
  intros Hp Hnd H. unfold apply_effects in H. apply bind_ok in H as (m & Hrun & [= <-]).
  pose proof (run_effects_keyed _ _ _ _ (dict_by_keyed items) Hrun) as Hk.
  apply run_effects_spec in Hrun as (Ha & Hold & Hnew); [|apply dict_by_keyed].
  unfold validate_policy in Hp. inv_ok Hp. apply nsubset_false in G0.
  split_and!.
  - intros e He Hc. specialize (G0 _ (Ha e He)). rewrite Hc in G0. unfold G1_APPLICABLE_EFFECT_KINDS in G0. set_solver.
  - change (NoDup (bi_id <$> sort_by item_key (map_to_list m).*2)). rewrite sort_by_perm.
    replace (bi_id <$> (map_to_list m).*2) with ((map_to_list m).*1); [apply NoDup_fst_map_to_list|].
    rewrite <-list_fmap_compose. apply list_fmap_ext. intros i [k x] Hi. cbn. symmetry.
    apply Hk. by apply elem_of_map_to_list, list_elem_of_lookup_2 with i.
  - intros i Hi. destruct (Hold (bi_id i) i) as (j & Hj & Hev); [by apply dict_by_NoDup|].
    exists j. split; [|done]. apply elem_of_values; [done|]. by rewrite (Hk _ _ Hj).
  - intros j Hj. apply elem_of_values in Hj; [|done].
    destruct (Hnew _ _ Hj) as [(i & [Hi _]%dict_by_Some & Hev)|(e & He & Hc & Ht & Hev)]; [eauto|].
    right. split; [by rewrite (evolves_closed _ _ Hev)|].
    exists e. split_and!; [done..|]. by rewrite (evolves_fingerprint _ _ Hev).
Qed.

(** Reconciliation is applicable.  For items with unique identities, valid
    findings and identities that no two fingerprints share, [reconcile] does not
    raise, and the effects it proposes, the proposal-only CLOSE ones aside, apply
    without error to the items they were computed from. *)
Theorem reconcile_applies items findings :
  NoDup (map bi_id items) → (∀ f, f ∈ findings → validate_finding f = Ok tt) →
  collision_free items findings →
  ∃ es items', reconcile items findings = Ok es ∧
    apply_effects items (List.filter applicable es) default_policy = Ok items'.
Proof.
  intros Hnd Hf Hcf. unfold reconcile, apply_effects.
  destruct (reconcile_loop_apply items findings (closed_items items) (open_items items)
    (sort_by (λ f, (- bf_priority f, bf_id f)%Z) findings) (dict_by bi_id items))
    as (es & m & Hes & Hrun); [done|by apply loop_inv_init| |].
  - intros f Hin. rewrite elem_of_sort_by in Hin. auto.
  - exists es. rewrite Hrun. by eexists.
Qed.

(** ** Concrete backlogs *)

Definition sample_item : BacklogItem :=
  MkBacklogItem "item_x" (backlog_fingerprint "t" "c" "s") "t" "c" "s" 5 false false None.
Definition sample_finding (id title : string) (st : EvidenceStatus) : BacklogFinding :=
  MkBacklogFinding id title "c" "s" st (Some "digest") "ws" 7 None.

Definition sample_effects : list BacklogEffect :=
  match reconcile [sample_item] [sample_finding "f1" "t" CHECKED_CLOSABLE;
                                 sample_finding "f2" "u" CHECKED_BLOCKED] with
  | Ok es => List.filter applicable es
  | Raise _ => []
  end.

Lemma apply_effects_conservative_witness :
  ∃ items', apply_effects [sample_item] sample_effects default_policy = Ok items' ∧
    length items' = 2 ∧ ∀ i, i ∈ [sample_item] → ∃ j, j ∈ items' ∧ evolves i j.
Proof.
  eexists. split; [vm_compute; reflexivity|]. split; [reflexivity|].
  refine (proj1 (proj2 (proj2 (apply_effects_conservative default_policy [sample_item]
    sample_effects _ _ _ _)))).
  - vm_compute. reflexivity.
  - apply uniq_true. vm_compute. reflexivity.
  - vm_compute. reflexivity.
Defined.

Lemma reconcile_applies_witness :
  ∃ es items', reconcile [sample_item] [sample_finding "f1" "t" CHECKED_OPEN] = Ok es ∧
    apply_effects [sample_item] (List.filter applicable es) default_policy = Ok items'.
Proof.
  apply reconcile_applies.
  - apply uniq_true. vm_compute. reflexivity.
  - intros f ->%list_elem_of_singleton. vm_compute. reflexivity.
  - assert (H : ∀ k fp, origin [sample_item] [sample_finding "f1" "t" CHECKED_OPEN] k fp →
      fp = backlog_fingerprint "t" "c" "s").
    { intros k fp [(i & ->%list_elem_of_singleton & _ & <-)|(f & ->%list_elem_of_singleton & _ & <-)];
        reflexivity. }
    intros k fp fp' H1 H2. rewrite (H k fp H1). symmetry. exact (H k fp' H2).
Defined.
