(* ===== verification/Planning.v ===== *)
(** * Step plans and the scheduler: [src/rci/core/planning.py], [orchestration/scheduler.py]

    The replay-owned plan records, whose identity is a digest of their content,
    and the deterministic bounded scheduler that selects the next obligation. *)

From S2P Require Import Prelude Digest Model Claims.

(** ** [core/planning.py] *)

Inductive PlanStatus : Type := READY | PLAN_SATISFIED | PLAN_UNKNOWN.
#[export] Instance PlanStatus_eq_dec : EqDecision PlanStatus.
Proof. solve_decision. Defined.

Definition PlanStatus_value (s : PlanStatus) : string :=
  match s with
  | READY => "ready" | PLAN_SATISFIED => "satisfied"
  | PLAN_UNKNOWN => "unknown_under_present_binding"
  end.

Inductive PlanReason : Type :=
| STEP_BUDGET_EXHAUSTED | INSUFFICIENT_EVENT_BUDGET | NO_OPEN_OBLIGATION
| UNRESOLVED_NONOPEN_OBLIGATION | DEPENDENCIES_OR_ATTEMPTS_EXHAUSTED | DETERMINISTIC_PRIORITY.
#[export] Instance PlanReason_eq_dec : EqDecision PlanReason.
Proof. solve_decision. Defined.

Definition PlanReason_value (r : PlanReason) : string :=
  match r with
  | STEP_BUDGET_EXHAUSTED => "step_budget_exhausted"
  | INSUFFICIENT_EVENT_BUDGET => "insufficient_event_budget"
  | NO_OPEN_OBLIGATION => "no_open_obligation"
  | UNRESOLVED_NONOPEN_OBLIGATION => "unresolved_nonopen_obligation"
  | DEPENDENCIES_OR_ATTEMPTS_EXHAUSTED => "dependencies_or_attempt_budget_exhausted"
  | DETERMINISTIC_PRIORITY => "deterministic_priority_order"
  end.

Record AttemptKey : Type := MkAttemptKey {
  key_obligation_fingerprint : string;
  key_contract_id : string;
  key_contract_version : string;
  key_binding_revision : string;
}.
#[export] Instance AttemptKey_eq_dec : EqDecision AttemptKey.
Proof. solve_decision. Defined.

Definition validate_key (k : AttemptKey) : result unit :=
  raise_if (existsb is_empty [key_contract_id k; key_contract_version k; key_binding_revision k])
    ValidationError "all attempt-key coordinates are required".

#[export] Instance AttemptKey_to_json : ToJson AttemptKey := λ k,
  JObject [("obligation_fingerprint", to_json (key_obligation_fingerprint k));
           ("contract_id", to_json (key_contract_id k));
           ("contract_version", to_json (key_contract_version k));
           ("binding_revision", to_json (key_binding_revision k))].

Definition step_plan_id (input_fingerprint policy_version : string) (status : PlanStatus)
    (selected_obligation_id : option string) (selected_attempt_key : option AttemptKey)
    (reason : PlanReason) (remaining_budget : Z) : string :=
  "step-plan:" +:+ content_fingerprint "rci.step-plan.v1"
    (JObject [("input_fingerprint", JString input_fingerprint);
              ("policy_version", JString policy_version);
              ("status", JString (PlanStatus_value status));
              ("selected_obligation_id", to_json selected_obligation_id);
              ("selected_attempt_key", to_json selected_attempt_key);
              ("reason", JString (PlanReason_value reason));
              ("remaining_budget", JInt remaining_budget)]).

Record StepPlan : Type := MkStepPlan {
  plan_id : string;
  plan_input_fingerprint : string;
  plan_policy_version : string;
  plan_status : PlanStatus;
  plan_selected_obligation_id : option string;
  plan_selected_attempt_key : option AttemptKey;
  plan_reason : PlanReason;
  plan_remaining_budget : Z;
}.
#[export] Instance StepPlan_eq_dec : EqDecision StepPlan.
Proof. solve_decision. Defined.

Definition plan_selected (p : StepPlan) : bool :=
  is_some (plan_selected_obligation_id p) && is_some (plan_selected_attempt_key p).

Definition validate_selection (p : StepPlan) : result unit :=
  raise_if (negb (Bool.eqb (plan_status p ==? READY) (plan_selected p)))
    ValidationError "only a ready plan selects an obligation and exact attempt key";;
  raise_if (negb (Bool.eqb (is_none (plan_selected_obligation_id p))
                           (is_none (plan_selected_attempt_key p))))
    ValidationError "selected obligation and attempt key must be present together";;
  raise_if (is_empty (plan_policy_version p))
    ValidationError "scheduler policy version is required";;
  raise_if (plan_id p !=? step_plan_id (plan_input_fingerprint p) (plan_policy_version p)
                            (plan_status p) (plan_selected_obligation_id p)
                            (plan_selected_attempt_key p) (plan_reason p)
                            (plan_remaining_budget p))
    ValidationError "step plan id does not match its complete deterministic content".

(** [Annotated[int, Field(ge=0)]] *)
Definition validate_step_plan (p : StepPlan) : result unit :=
  raise_if (plan_remaining_budget p <? 0)%Z ValidationError "remaining_budget must be nonnegative";;
  validate_selection p.

Definition build_step_plan (input_fingerprint policy_version : string) (status : PlanStatus)
    (selected_obligation_id : option string) (selected_attempt_key : option AttemptKey)
    (reason : PlanReason) (remaining_budget : Z) : result StepPlan :=
  let p := MkStepPlan (step_plan_id input_fingerprint policy_version status selected_obligation_id
                         selected_attempt_key reason remaining_budget)
             input_fingerprint policy_version status selected_obligation_id
             selected_attempt_key reason remaining_budget in
  validate_step_plan p;; Ok p.

(** ** [orchestration/scheduler.py] *)

Record ObligationEntry : Type := MkObligationEntry {
  entry_obligation : Obligation;
  entry_attempt_key : AttemptKey;
  entry_creation_sequence : Z;
  entry_dependency_depth : Z;
}.

Definition validate_order_fields (e : ObligationEntry) : result unit :=
  raise_if ((entry_creation_sequence e <? 0) || (entry_dependency_depth e <? 0))%Z
    ValidationError "scheduler order coordinates must be nonnegative";;
  raise_if (key_obligation_fingerprint (entry_attempt_key e)
            !=? obligation_fingerprint (entry_obligation e))
    ValidationError "attempt key must name the exact obligation fingerprint";;
  raise_if (key_binding_revision (entry_attempt_key e)
            !=? obl_binding_revision (entry_obligation e))
    ValidationError "attempt key and obligation binding revisions must match".

Definition SAFETY_KINDS : list ObligationKind := [LOCALIZE_CONFLICT; DISCHARGE_OPEN_DEPENDENCY].

Definition creation_key (e : ObligationEntry) : Z * string :=
  (entry_creation_sequence e, obl_id (entry_obligation e)).

Definition entry_fingerprint (e : ObligationEntry) : string :=
  obligation_fingerprint (entry_obligation e).

(** [by_fingerprint.setdefault(...)] keeps the first entry of each fingerprint. *)
Definition deduplicate_obligations (entries : list ObligationEntry) : list ObligationEntry :=
  scan_minimal (λ kept e, entry_fingerprint kept ==? entry_fingerprint e)
    (sort_by creation_key entries).

Definition priority_key (e : ObligationEntry) : Z * (list Z * (Z * (Z * string))) :=
  (if mem (obl_kind (entry_obligation e)) SAFETY_KINDS then 0%Z else 1%Z,
   (map Z.opp (obl_priority_vector (entry_obligation e)),
    (entry_dependency_depth e, (entry_creation_sequence e, obl_id (entry_obligation e))))).

#[export] Instance Obligation_to_json : ToJson Obligation := λ o,
  JObject [("id", to_json (obl_id o)); ("kind", JString (ObligationKind_value (obl_kind o)));
           ("carrier_id", to_json (obl_carrier_id o)); ("args", to_json (obl_args o));
           ("scope", to_json (obl_scope o));
           ("binding_revision", to_json (obl_binding_revision o));
           ("parent_obligation_ids", to_json (obl_parent_obligation_ids o));
           ("priority_vector", to_json (obl_priority_vector o));
           ("status", JString (ObligationStatus_value (obl_status o)))].

#[export] Instance ObligationEntry_to_json : ToJson ObligationEntry := λ e,
  JObject [("obligation", to_json (entry_obligation e));
           ("attempt_key", to_json (entry_attempt_key e));
           ("creation_sequence", to_json (entry_creation_sequence e));
           ("dependency_depth", to_json (entry_dependency_depth e))].

(** The keyword arguments of [plan_next]; [attempt_counts] lists the items of
    the mapping, [completed_obligation_ids] the members of the set. *)
Record SchedulerInput : Type := MkSchedulerInput {
  in_completed_obligation_ids : list string;
  in_attempt_counts : list (AttemptKey * Z);
  in_steps_used : Z;
  in_step_budget : Z;
  in_ready_event_cost : Z;
  in_max_attempts_per_key : Z;
  in_policy_version : string;
}.

(** [counts.get(key, 0)] *)
Definition attempt_count (i : SchedulerInput) (k : AttemptKey) : Z :=
  match first (λ kc, kc.1 ==? k) (in_attempt_counts i) with Some kc => kc.2 | None => 0%Z end.

Definition attempt_key_order (kc : AttemptKey * Z) : string * (string * (string * string)) :=
  (key_obligation_fingerprint kc.1,
   (key_contract_id kc.1, (key_contract_version kc.1, key_binding_revision kc.1))).

Definition scheduler_input_fingerprint (entries : list ObligationEntry) (i : SchedulerInput) : string :=
  content_fingerprint "rci.scheduler-input.v1"
    (JObject [("entries", to_json (sort_by creation_key entries));
              ("completed_obligation_ids", to_json (sorted_set (in_completed_obligation_ids i)));
              ("attempt_counts",
                JList (map (λ kc, JObject [("attempt_key", to_json kc.1); ("count", JInt kc.2)])
                         (sort_by attempt_key_order (in_attempt_counts i))));
              ("steps_used", JInt (in_steps_used i)); ("step_budget", JInt (in_step_budget i));
              ("ready_event_cost", JInt (in_ready_event_cost i));
              ("max_attempts_per_key", JInt (in_max_attempts_per_key i));
              ("policy_version", JString (in_policy_version i))]).

Definition is_open (e : ObligationEntry) : bool := obl_status (entry_obligation e) ==? OPEN.

Definition is_ready (i : SchedulerInput) (e : ObligationEntry) : bool :=
  subset (obl_parent_obligation_ids (entry_obligation e)) (in_completed_obligation_ids i)
  && (attempt_count i (entry_attempt_key e) <? in_max_attempts_per_key i)%Z.

Definition remaining_budget (i : SchedulerInput) : Z :=
  Z.max (in_step_budget i - in_steps_used i) 0.

Definition plan_next (entries : list ObligationEntry) (i : SchedulerInput) : result StepPlan :=
  raise_if ((in_steps_used i <? 0) || (in_step_budget i <? 1) || (in_ready_event_cost i <? 1)
            || (in_max_attempts_per_key i <? 1))%Z
    ValueError "scheduler budgets must be positive and usage nonnegative";;
  raise_if (is_empty (in_policy_version i)) ValueError "scheduler policy version is required";;
  raise_if (existsb (λ kc, kc.2 <? 0)%Z (in_attempt_counts i))
    ValueError "attempt counts must be nonnegative integers";;
  let fp := scheduler_input_fingerprint entries i in
  let pv := in_policy_version i in
  let remaining := remaining_budget i in
  if (remaining =? 0)%Z then
    build_step_plan fp pv PLAN_UNKNOWN None None STEP_BUDGET_EXHAUSTED 0
  else
    let deduplicated := deduplicate_obligations entries in
    let open_entries := List.filter is_open deduplicated in
    if is_nil open_entries then
      let unresolved_nonopen :=
        existsb (λ e, obl_status (entry_obligation e) !=? SATISFIED) deduplicated in
      build_step_plan fp pv (if unresolved_nonopen then PLAN_UNKNOWN else PLAN_SATISFIED) None None
        (if unresolved_nonopen then UNRESOLVED_NONOPEN_OBLIGATION else NO_OPEN_OBLIGATION) remaining
    else
      match List.filter (is_ready i) open_entries with
      | [] => build_step_plan fp pv PLAN_UNKNOWN None None DEPENDENCIES_OR_ATTEMPTS_EXHAUSTED remaining
      | e :: ready =>
        if (remaining <? in_ready_event_cost i)%Z then
          build_step_plan fp pv PLAN_UNKNOWN None None INSUFFICIENT_EVENT_BUDGET remaining
        else
          let selected := min_by priority_key e ready in
          build_step_plan fp pv READY (Some (obl_id (entry_obligation selected)))
            (Some (entry_attempt_key selected)) DETERMINISTIC_PRIORITY
            (remaining - in_ready_event_cost i)
      end.

(** ** Lemmas *)

(** The arguments [plan_next] accepts. *)
Definition valid_input (i : SchedulerInput) : Prop :=
  (0 ≤ in_steps_used i)%Z ∧ (1 ≤ in_step_budget i)%Z ∧ (1 ≤ in_ready_event_cost i)%Z ∧
  (1 ≤ in_max_attempts_per_key i)%Z ∧ in_policy_version i ≠ "" ∧
  ∀ k n, (k, n) ∈ in_attempt_counts i → (0 ≤ n)%Z.

(** The entries a step may select. *)
Definition ready_entries (entries : list ObligationEntry) (i : SchedulerInput) : list ObligationEntry :=
  List.filter (is_ready i) (List.filter is_open (deduplicate_obligations entries)).

Lemma build_step_plan_Ok fp pv st so sk r b :
  pv ≠ "" → (0 ≤ b)%Z →
  (st = READY ∧ is_Some so ∧ is_Some sk) ∨ (st ≠ READY ∧ so = None ∧ sk = None) →
  ∃ p, build_step_plan fp pv st so sk r b = Ok p ∧ validate_step_plan p = Ok tt ∧
    plan_status p = st ∧ plan_selected_obligation_id p = so ∧ plan_selected_attempt_key p = sk ∧
    plan_reason p = r ∧ plan_remaining_budget p = b.
Proof.
  intros Hpv Hb Hs. unfold build_step_plan. cbv zeta. set (p := MkStepPlan _ _ _ _ _ _ _ _).
  assert (Hv : validate_step_plan p = Ok tt); [|rewrite Hv; by exists p].
  unfold validate_step_plan, validate_selection, plan_selected.
  rewrite !raise_if_bind, raise_if_ok, Z.ltb_ge. cbn.
  split_and!.
  - done.
  - destruct Hs as [(-> & [? ->] & [? ->])|(Hn & -> & ->)]; [done|]. by rewrite bool_decide_false.
  - by destruct Hs as [(_ & [? ->] & [? ->])|(_ & -> & ->)].
  - unfold is_empty. by rewrite bool_decide_false.
  - by rewrite bool_decide_true.
Qed.

Lemma plan_next_guards {B} i (m : result B) :
  valid_input i →
  (raise_if ((in_steps_used i <? 0) || (in_step_budget i <? 1) || (in_ready_event_cost i <? 1)
             || (in_max_attempts_per_key i <? 1))%Z
     ValueError "scheduler budgets must be positive and usage nonnegative";;
   raise_if (is_empty (in_policy_version i)) ValueError "scheduler policy version is required";;
   raise_if (existsb (λ kc, kc.2 <? 0)%Z (in_attempt_counts i))
     ValueError "attempt counts must be nonnegative integers";; m) = m.
Proof.
  intros (H1 & H2 & H3 & H4 & H5 & H6).
  rewrite (proj2 (Z.ltb_ge _ _) H1), (proj2 (Z.ltb_ge _ _) H2), (proj2 (Z.ltb_ge _ _) H3),
    (proj2 (Z.ltb_ge _ _) H4). cbn. unfold is_empty. rewrite bool_decide_false by done. cbn.
  rewrite (proj2 (any_false _ _)); [done|]. intros [k n] Hin. apply Z.ltb_ge. by eapply H6.
Qed.

Lemma elem_of_ready entries i e :
  e ∈ ready_entries entries i →
  e ∈ entries ∧ obl_status (entry_obligation e) = OPEN ∧
  obl_parent_obligation_ids (entry_obligation e) ⊆ in_completed_obligation_ids i ∧
  (attempt_count i (entry_attempt_key e) < in_max_attempts_per_key i)%Z.
Proof.
  intros [[Hd Ho]%elem_of_lfilter Hr]%elem_of_lfilter. apply andb_true_iff in Hr as [Hp Hc].
  apply scan_minimal_elem in Hd. rewrite elem_of_sort_by in Hd.
  split_and!; [done|by apply bool_decide_eq_true in Ho|by apply subset_true|by apply Z.ltb_lt].
Qed.

(** Every entry is represented by the earliest entry of its fingerprint. *)
Lemma deduplicate_cover entries e :
  e ∈ entries → ∃ d, d ∈ deduplicate_obligations entries ∧ entry_fingerprint d = entry_fingerprint e.
Proof.
  intros He. rewrite <-(elem_of_sort_by creation_key) in He.
  destruct (scan_minimal_cover (λ k x, entry_fingerprint k ==? entry_fingerprint x) _ _ He)
    as [H|(c & Hc & Hf)]; [by exists e|]. exists c. split; [done|]. by apply bool_decide_eq_true in Hf.
Qed.

(** What a plan answers, by the state of the queue. *)
Definition plan_answer (entries : list ObligationEntry) (i : SchedulerInput) (p : StepPlan) : Prop :=
  match plan_reason p with
  | STEP_BUDGET_EXHAUSTED => plan_status p = PLAN_UNKNOWN ∧ (in_step_budget i ≤ in_steps_used i)%Z
  | NO_OPEN_OBLIGATION => plan_status p = PLAN_SATISFIED ∧
      ∀ d, d ∈ deduplicate_obligations entries → obl_status (entry_obligation d) = SATISFIED
  | UNRESOLVED_NONOPEN_OBLIGATION => plan_status p = PLAN_UNKNOWN ∧
      (∀ d, d ∈ deduplicate_obligations entries → obl_status (entry_obligation d) ≠ OPEN) ∧
      ∃ d, d ∈ deduplicate_obligations entries ∧ obl_status (entry_obligation d) ≠ SATISFIED
  | DEPENDENCIES_OR_ATTEMPTS_EXHAUSTED => plan_status p = PLAN_UNKNOWN ∧
      ready_entries entries i = [] ∧
      ∃ d, d ∈ deduplicate_obligations entries ∧ obl_status (entry_obligation d) = OPEN
  | INSUFFICIENT_EVENT_BUDGET => plan_status p = PLAN_UNKNOWN ∧ ready_entries entries i ≠ [] ∧
      (remaining_budget i < in_ready_event_cost i)%Z
  | DETERMINISTIC_PRIORITY => plan_status p = READY ∧
      (plan_remaining_budget p + in_ready_event_cost i + in_steps_used i = in_step_budget i)%Z ∧
      ∃ e, e ∈ ready_entries entries i ∧
        (∀ e', e' ∈ ready_entries entries i → key_le priority_key e e') ∧
        plan_selected_obligation_id p = Some (obl_id (entry_obligation e)) ∧
        plan_selected_attempt_key p = Some (entry_attempt_key e)
  end.

Lemma attempt_count_perm i i' k :
  NoDup (map fst (in_attempt_counts i)) → in_attempt_counts i ≡ₚ in_attempt_counts i' →
  attempt_count i k = attempt_count i' k.
Proof.
  intros Hnd Hp. unfold attempt_count.
  destruct (first _ (in_attempt_counts i)) as [[k1 n1]|] eqn:E1.
  - apply first_Some in E1 as [H1 Hk1%bool_decide_eq_true_1]. cbn in Hk1. subst k1.
    destruct (first_is_Some (λ kc : AttemptKey * Z, kc.1 ==? k) (in_attempt_counts i') (k, n1))
      as ([k2 n2] & -> & Hk2%bool_decide_eq_true_1 & H2); [by rewrite <-Hp|by apply bool_decide_eq_true|].
    cbn in Hk2. subst k2. rewrite <-Hp in H2.
    assert ((k, n1) = (k, n2)) as [= ->]; [|done].
    by eapply (key_inj_of_NoDup fst (in_attempt_counts i)).
  - rewrite first_None in E1.
    destruct (first _ (in_attempt_counts i')) as [[k2 n2]|] eqn:E2; [|done].
    apply first_Some in E2 as [H2 Hk2]. rewrite <-Hp in H2. by rewrite (E1 _ H2) in Hk2.
Qed.

Lemma lfilter_ext {A} (p q : A → bool) l :
  (∀ x, p x = q x) → List.filter p l = List.filter q l.
Proof. intros H. induction l as [|x l IH]; [done|]. cbn. by rewrite H, IH. Qed.

Lemma existsb_perm {A} (p : A → bool) l l' : l ≡ₚ l' → existsb p l = existsb p l'.
Proof.
  intros Hp. destruct (existsb p l') eqn:E.
  - apply any_true in E as (x & Hx & Hpx). apply any_true. exists x. by rewrite Hp.
  - apply any_false. intros x Hx. rewrite any_false in E. apply E. by rewrite <-Hp.
Qed.

(** ** Properties *)

(** C25: On valid arguments the scheduler always answers with a valid plan whose
    remaining budget is nonnegative, and the answer is the right one: READY
    selects an open obligation whose parents are complete and whose attempt key
    is below its bound, of least priority key among all such, charging exactly
    the event cost; every other reason states exactly why nothing was selected. *)
Theorem plan_next_correct entries i :
  valid_input i →
  ∃ p, plan_next entries i = Ok p ∧ validate_step_plan p = Ok tt ∧
       (0 ≤ plan_remaining_budget p)%Z ∧ plan_answer entries i p.
Proof.
  intros Hi. unfold plan_next. rewrite (plan_next_guards i) by done.
  destruct Hi as (Hu & Hb & Hc & Hm & Hpv & _). cbv zeta.
  assert (Hnone : ∀ st r b, st ≠ READY → (0 ≤ b)%Z →
    (∀ p, plan_status p = st → plan_reason p = r → plan_answer entries i p) →
    ∃ p, build_step_plan (scheduler_input_fingerprint entries i) (in_policy_version i) st None None r b
         = Ok p ∧ validate_step_plan p = Ok tt ∧ (0 ≤ plan_remaining_budget p)%Z ∧
         plan_answer entries i p).
  { intros st r b Hst Hb' Hans.
    destruct (build_step_plan_Ok (scheduler_input_fingerprint entries i) (in_policy_version i)
      st None None r b) as (p & Hp & Hv & H1 & _ & _ & H2 & H3); [done|done|by right|].
    exists p. split_and!; [done|done|lia|by apply Hans]. }
  destruct (remaining_budget i =? 0)%Z eqn:E0.
  { apply Hnone; [done|lia|]. intros p Hs Hr. unfold plan_answer. rewrite Hr.
    split; [done|]. apply Z.eqb_eq in E0. unfold remaining_budget in E0. lia. }
  apply Z.eqb_neq in E0. assert (Hrem : (0 < remaining_budget i)%Z) by (unfold remaining_budget in *; lia).
  fold (ready_entries entries i).
  destruct (List.filter is_open (deduplicate_obligations entries)) as [|o os] eqn:Eo; cbn [is_nil].
  { assert (Hno : ∀ d, d ∈ deduplicate_obligations entries → obl_status (entry_obligation d) ≠ OPEN).
    { intros d Hd Ho. assert (Hin : d ∈ List.filter is_open (deduplicate_obligations entries)).
      { apply elem_of_lfilter. split; [done|]. by apply bool_decide_eq_true. }
      rewrite Eo in Hin. by apply not_elem_of_nil in Hin. }
    destruct (existsb _ _) eqn:E; apply Hnone; try done; [lia| |lia|]; intros p Hs Hr;
      unfold plan_answer; rewrite Hr; (split; [done|]).
    - split; [done|]. apply any_true in E as (d & Hd & Hn). rewrite neqb_true in Hn. eauto.
    - intros d Hd. rewrite any_false in E. specialize (E d Hd). by rewrite neqb_false in E. }
  assert (Hopen : ∃ d, d ∈ deduplicate_obligations entries ∧ obl_status (entry_obligation d) = OPEN).
  { exists o. assert (Hin : o ∈ List.filter is_open (deduplicate_obligations entries))
      by (rewrite Eo; constructor). apply elem_of_lfilter in Hin as [? Ho].
    by apply bool_decide_eq_true in Ho. }
  destruct (ready_entries entries i) as [|e es] eqn:Er.
  { apply Hnone; [done|lia|]. intros p Hs Hr. unfold plan_answer. rewrite Hr. by rewrite Er. }
  destruct (remaining_budget i <? in_ready_event_cost i)%Z eqn:Ec.
  { apply Hnone; [done|lia|]. intros p Hs Hr. unfold plan_answer. rewrite Hr, Er.
    split_and!; [done|done|by apply Z.ltb_lt]. }
  apply Z.ltb_ge in Ec.
  edestruct (build_step_plan_Ok (scheduler_input_fingerprint entries i) (in_policy_version i) READY)
    as (p & Hp & Hv & H1 & H2 & H3 & H4 & H5); [done| |left; eauto|].
  2: { exists p. split_and!; [exact Hp|done|rewrite H5; lia|]. unfold plan_answer. rewrite H4, Er.
    split_and!; [done|rewrite H5; unfold remaining_budget in *; lia|].
    exists (min_by priority_key e es). split_and!; [apply min_by_elem| |done|done].
    intros e' He'. by apply min_by_le. }
  lia.
Qed.

(** The plan, its identity and its input fingerprint included, does not
    depend on the order of the entries, of the attempt counts or of the set of
    completed obligations. *)
Theorem plan_next_order_independent entries entries' i i' :
  NoDup (map creation_key entries) → entries ≡ₚ entries' →
  NoDup (map fst (in_attempt_counts i)) → in_attempt_counts i ≡ₚ in_attempt_counts i' →
  (∀ o, o ∈ in_completed_obligation_ids i ↔ o ∈ in_completed_obligation_ids i') →
  in_steps_used i = in_steps_used i' → in_step_budget i = in_step_budget i' →
  in_ready_event_cost i = in_ready_event_cost i' →
  in_max_attempts_per_key i = in_max_attempts_per_key i' →
  in_policy_version i = in_policy_version i' →
  plan_next entries i = plan_next entries' i'.
Proof.
  intros Hnd Hp Hndc Hpc Hcomp E1 E2 E3 E4 E5.
  assert (Hs : sort_by creation_key entries = sort_by creation_key entries') by by apply sort_by_unique.
  assert (Hd : deduplicate_obligations entries = deduplicate_obligations entries')
    by (unfold deduplicate_obligations; by rewrite Hs).
  assert (Hfp : scheduler_input_fingerprint entries i = scheduler_input_fingerprint entries' i').
  { unfold scheduler_input_fingerprint. rewrite Hs, E1, E2, E3, E4, E5.
    rewrite (sorted_set_ext _ _ Hcomp).
    rewrite (sort_by_unique attempt_key_order (in_attempt_counts i) (in_attempt_counts i')); [done| |done].
    apply (NoDup_fmap_1 (λ k : string * (string * (string * string)),
      MkAttemptKey k.1 k.2.1 k.2.2.1 k.2.2.2)). rewrite <-list_fmap_compose.
    replace (_ <$> in_attempt_counts i) with (map fst (in_attempt_counts i)); [done|].
    apply list_fmap_ext. by intros ? [[] ?] ?. }
  assert (Hr : ∀ e, is_ready i e = is_ready i' e).
  { intros e. unfold is_ready. rewrite (attempt_count_perm i i') by done. rewrite E4. f_equal.
    apply eq_true_iff_eq. rewrite !subset_true. unfold subseteq, list_subseteq. naive_solver. }
  unfold plan_next, remaining_budget. rewrite Hfp, Hd, E1, E2, E3, E4, E5.
  by rewrite (existsb_perm _ _ _ Hpc), (lfilter_ext _ _ _ Hr).
Qed.

(** ** A concrete queue *)

Definition sample_scope : Scope := MkScope "s" "rev" [] None None false.
Definition sample_obligation (id : string) (parents : list string) (priority : Z) : Obligation :=
  MkObligation id CHARACTERIZE "carrier" [MkBoundArgument "x" (JString id)] sample_scope "rev"
    parents [priority] OPEN.
Definition sample_entry (o : Obligation) (seq : Z) : ObligationEntry :=
  MkObligationEntry o (MkAttemptKey (obligation_fingerprint o) "c" "1" "rev") seq 0.
Definition sample_queue : list ObligationEntry :=
  [sample_entry (sample_obligation "o1" ["o9"] 9) 0; sample_entry (sample_obligation "o2" [] 1) 1;
   sample_entry (sample_obligation "o3" [] 5) 2].
Definition sample_input : SchedulerInput := MkSchedulerInput [] [] 3 10 2 3 "policy".

Lemma plan_next_correct_witness :
  ∃ p, plan_next sample_queue sample_input = Ok p ∧
       plan_selected_obligation_id p = Some "o3" ∧ plan_remaining_budget p = 5%Z.
Proof.
  destruct (plan_next_correct sample_queue sample_input) as (p & Hp & _).
  - unfold valid_input. cbn. split_and!; try lia; [discriminate|].
    intros k n H. by apply not_elem_of_nil in H.
  - exists p. split; [exact Hp|]. vm_compute in Hp. injection Hp as <-. split; reflexivity.
Defined.

Lemma plan_next_order_independent_witness :
  plan_next sample_queue sample_input = plan_next (rev sample_queue) sample_input.
Proof.
  apply plan_next_order_independent; try reflexivity.
  - apply uniq_true. vm_compute. reflexivity.
  - apply Permutation_rev.
  - constructor.
Defined.
