(* ===== verification/Effects.v ===== *)
(** * Effect requests, attempts, returns and decodes: [src/rci/core/effects.py]

    The immutable records of external work and the two validators that guard
    an attempt's and a request's lifecycle.  Timestamps are integers (their UTC
    instant); the [Identifier] and [NonEmptyText] fields are strings whose
    constraints were checked when the record was built. *)

From S2P Require Import Prelude Digest Model.

Record TransformEvidence : Type := MkTransformEvidence {
  te_id : string;
  te_version : string;
  te_input_artifact : ArtifactRef;
  te_output_artifact : ArtifactRef;
}.
#[export] Instance TransformEvidence_eq_dec : EqDecision TransformEvidence.
Proof. solve_decision. Defined.

Record RouteSnapshot : Type := MkRouteSnapshot {
  rs_id : string;
  rs_definition_id : string;
  rs_definition_version : string;
  rs_definition_artifact : ArtifactRef;
  rs_backend_id : string;
  rs_adapter_id : string;
  rs_adapter_version : string;
  rs_endpoint_or_channel : option string;
  rs_transport : option string;
  rs_execution_environment_artifact : ArtifactRef;
  rs_request_or_action_digest : string;
  rs_transform_evidence : list TransformEvidence;
}.
#[export] Instance RouteSnapshot_eq_dec : EqDecision RouteSnapshot.
Proof. solve_decision. Defined.

Definition validate_unique_transforms (r : RouteSnapshot) : result unit :=
  raise_if (negb (uniq (map te_id (rs_transform_evidence r))))
    ValidationError "route transform evidence ids must be unique and ordered".

Record EffectRequest : Type := MkEffectRequest {
  req_id : string;
  req_step_plan_id : string;
  req_effect_kind : string;
  req_adapter_id : string;
  req_input_artifact : ArtifactRef;
  req_timeout_seconds : Z;
}.
#[export] Instance EffectRequest_eq_dec : EqDecision EffectRequest.
Proof. solve_decision. Defined.

(** [Field(ge=1, le=86_400)] *)
Definition validate_timeout (r : EffectRequest) : result unit :=
  raise_if ((req_timeout_seconds r <? 1) || (86400 <? req_timeout_seconds r))%Z
    ValidationError "timeout_seconds must be between 1 and 86400".

Record EffectAttemptPlan : Type := MkEffectAttemptPlan {
  ap_id : string;
  ap_request_id : string;
  ap_route : RouteSnapshot;
}.
#[export] Instance EffectAttemptPlan_eq_dec : EqDecision EffectAttemptPlan.
Proof. solve_decision. Defined.

Inductive NoAttemptReason : Type :=
| NA_POLICY_DENIED | NA_UNSUPPORTED | NA_BUDGET_EXHAUSTED | NA_DEPENDENCIES_OPEN.
#[export] Instance NoAttemptReason_eq_dec : EqDecision NoAttemptReason.
Proof. solve_decision. Defined.

Inductive NotPresentedReason : Type := NP_POLICY_DENIED | NP_UNSUPPORTED | NP_PREFLIGHT_FAILED.
#[export] Instance NotPresentedReason_eq_dec : EqDecision NotPresentedReason.
Proof. solve_decision. Defined.

Inductive CaptureFailureReason : Type := CAPTURE_ERROR | OUTPUT_LIMIT | STORAGE_ERROR.
#[export] Instance CaptureFailureReason_eq_dec : EqDecision CaptureFailureReason.
Proof. solve_decision. Defined.

Inductive PresentationUnknownReason : Type := PU_TIMEOUT | TRANSPORT_ERROR | INTERNAL_FAILURE.
#[export] Instance PresentationUnknownReason_eq_dec : EqDecision PresentationUnknownReason.
Proof. solve_decision. Defined.

Inductive CancellationReason : Type := CALLER_CANCELLED | POLICY_CANCELLED | SHUTDOWN.
#[export] Instance CancellationReason_eq_dec : EqDecision CancellationReason.
Proof. solve_decision. Defined.

Record NoAttemptDisposition : Type := MkNoAttemptDisposition {
  na_id : string;
  na_request_id : string;
  na_step_plan_id : string;
  na_reason_kind : NoAttemptReason;
  na_diagnostics : option ArtifactRef;
}.
#[export] Instance NoAttemptDisposition_eq_dec : EqDecision NoAttemptDisposition.
Proof. solve_decision. Defined.

Record ExternalReturn : Type := MkExternalReturn {
  ret_id : string;
  ret_attempt_id : string;
  ret_route_id : string;
  ret_source_id : option string;
  ret_source_revision : option string;
  ret_capture_boundary : string;
  ret_capture_encoding : string;
  ret_captured_at : Z;
  ret_raw_payload : CapturedPayload;
}.
#[export] Instance ExternalReturn_eq_dec : EqDecision ExternalReturn.
Proof. solve_decision. Defined.

(** The terminal outcomes of an attempt. *)
Inductive AttemptOutcome : Type :=
| NotPresentedOutcome (attempt_id route_id : string) (reason : NotPresentedReason)
    (diagnostics : option ArtifactRef)
| CaptureFailedOutcome (attempt_id route_id : string) (reason : CaptureFailureReason)
    (diagnostics : ArtifactRef)
| PresentationUnknownOutcome (attempt_id route_id : string) (reason : PresentationUnknownReason)
    (diagnostics : ArtifactRef)
| CancelledOutcome (attempt_id route_id : string) (reason : CancellationReason)
    (diagnostics : option ArtifactRef)
| ReturnedOutcome (attempt_id route_id : string) (external_return : ExternalReturn).
#[export] Instance AttemptOutcome_eq_dec : EqDecision AttemptOutcome.
Proof. solve_decision. Defined.

Definition outcome_attempt_id (o : AttemptOutcome) : string :=
  match o with
  | NotPresentedOutcome a _ _ _ | CaptureFailedOutcome a _ _ _
  | PresentationUnknownOutcome a _ _ _ | CancelledOutcome a _ _ _ | ReturnedOutcome a _ _ => a
  end.

Definition outcome_route_id (o : AttemptOutcome) : string :=
  match o with
  | NotPresentedOutcome _ r _ _ | CaptureFailedOutcome _ r _ _
  | PresentationUnknownOutcome _ r _ _ | CancelledOutcome _ r _ _ | ReturnedOutcome _ r _ => r
  end.

Definition outcome_return (o : AttemptOutcome) : option ExternalReturn :=
  match o with ReturnedOutcome _ _ x => Some x | _ => None end.

Definition validate_external_return_link (o : AttemptOutcome) : result unit :=
  match o with
  | ReturnedOutcome a r x =>
    raise_if (ret_attempt_id x !=? a)
      ValidationError "external return and outcome attempt ids must match";;
    raise_if (ret_route_id x !=? r)
      ValidationError "external return and outcome route ids must match"
  | _ => Ok tt
  end.

(** [ResultBase]: the fields every canonical result has. *)
Record ResultBase : Type := MkResultBase { result_id : string; semantic_artifact : ArtifactRef }.
#[export] Instance ResultBase_eq_dec : EqDecision ResultBase.
Proof. solve_decision. Defined.

Inductive CanonicalResult : Type :=
| WitnessResult (b : ResultBase) (proposition_id : string) (witness_artifact : ArtifactRef)
| CounterexampleResult (b : ResultBase) (proposition_id : string) (counterexample_artifact : ArtifactRef)
| SeparatorResult (b : ResultBase) (left_class_id right_class_id : string) (separator_artifact : ArtifactRef)
| EquivalenceCertificateResult (b : ResultBase) (relation_id : string) (certificate_artifact : ArtifactRef)
| ConflictResult (b : ResultBase) (left_proposition_id right_proposition_id : string)
| PrerequisiteResult (b : ResultBase) (condition_id consequence_id : string) (evidence_artifact : ArtifactRef)
| ReachabilityWitnessResult (b : ResultBase) (source_id target_id : string) (path_artifact : ArtifactRef)
| UnreachabilityCertificateResult (b : ResultBase) (source_id target_id : string)
    (certificate_artifact : ArtifactRef)
| SuccessResult (b : ResultBase) (operation_id : string)
| FailureResult (b : ResultBase) (failure_kind : string) (diagnostics : option ArtifactRef)
| UnknownResult (b : ResultBase) (reason_kind : string).
#[export] Instance CanonicalResult_eq_dec : EqDecision CanonicalResult.
Proof. solve_decision. Defined.

Definition result_base (r : CanonicalResult) : ResultBase :=
  match r with
  | WitnessResult b _ _ | CounterexampleResult b _ _ | SeparatorResult b _ _ _
  | EquivalenceCertificateResult b _ _ | ConflictResult b _ _ | PrerequisiteResult b _ _ _
  | ReachabilityWitnessResult b _ _ _ | UnreachabilityCertificateResult b _ _ _
  | SuccessResult b _ | FailureResult b _ _ | UnknownResult b _ => b
  end.

(** [DecodeBase]: the fields every decode outcome has. *)
Record DecodeBase : Type := MkDecodeBase {
  decode_id : string;
  decode_external_return_id : string;
  decoder_id : string;
  decoder_version : string;
}.
#[export] Instance DecodeBase_eq_dec : EqDecision DecodeBase.
Proof. solve_decision. Defined.

Inductive DecodeOutcome : Type :=
| Decoded (b : DecodeBase) (r : CanonicalResult)
| MalformedDecode (b : DecodeBase) (diagnostics : ArtifactRef)
| UnsupportedDecode (b : DecodeBase) (reason : string)
| FailedDecode (b : DecodeBase) (diagnostics : ArtifactRef).
#[export] Instance DecodeOutcome_eq_dec : EqDecision DecodeOutcome.
Proof. solve_decision. Defined.

Definition decode_base (d : DecodeOutcome) : DecodeBase :=
  match d with
  | Decoded b _ | MalformedDecode b _ | UnsupportedDecode b _ | FailedDecode b _ => b
  end.
Definition dec_id (d : DecodeOutcome) : string := decode_id (decode_base d).
Definition dec_return_id (d : DecodeOutcome) : string := decode_external_return_id (decode_base d).

(** [isinstance(outcome, Decoded)] *)
Definition decoded_result (d : DecodeOutcome) : option CanonicalResult :=
  match d with Decoded _ r => Some r | _ => None end.

Record AttemptState : Type := MkAttemptState {
  att_plan : EffectAttemptPlan;
  att_started : bool;
  att_started_event_id : option string;
  att_started_at : option Z;
  att_outcome : option AttemptOutcome;
}.
#[export] Instance AttemptState_eq_dec : EqDecision AttemptState.
Proof. solve_decision. Defined.

Definition att_id (a : AttemptState) : string := ap_id (att_plan a).

Definition validate_attempt (a : AttemptState) : result unit :=
  raise_if (negb (Bool.eqb (att_started a)
                    (is_some (att_started_event_id a) && is_some (att_started_at a))))
    ValidationError "started attempts require complete immutable start metadata";;
  raise_if (is_some (att_outcome a) && negb (att_started a))
    ValidationError "an attempt cannot terminate before it starts".

Definition attempt_return (a : AttemptState) : option ExternalReturn :=
  o ← att_outcome a; outcome_return o.

Record EffectRequestState : Type := MkEffectRequestState {
  ers_request : EffectRequest;
  ers_attempts : list AttemptState;
  ers_no_attempt_dispositions : list NoAttemptDisposition;
  ers_decode_outcomes : list DecodeOutcome;
  ers_accepted_decoded_outcome_id : option string;
}.
#[export] Instance EffectRequestState_eq_dec : EqDecision EffectRequestState.
Proof. solve_decision. Defined.

Definition ers_id (r : EffectRequestState) : string := req_id (ers_request r).

(** [[a.outcome.external_return.id for a in attempts if isinstance(a.outcome, ReturnedOutcome)]] *)
Definition return_ids (attempts : list AttemptState) : list string :=
  map ret_id (omap attempt_return attempts).

Definition find_decode (id : string) (l : list DecodeOutcome) : option DecodeOutcome :=
  first (λ d, dec_id d ==? id) l.

Definition decode_is_accepted (l : list DecodeOutcome) (id : string) : bool :=
  match find_decode id l with Some (Decoded _ _) => true | _ => false end.

Definition validate_cardinalities (r : EffectRequestState) : result unit :=
  raise_if (negb (uniq (map att_id (ers_attempts r))))
    ValidationError "attempt ids must be unique within an effect request";;
  raise_if (negb (uniq (map na_id (ers_no_attempt_dispositions r))))
    ValidationError "no-attempt disposition ids must be unique";;
  raise_if (negb (uniq (return_ids (ers_attempts r))))
    ValidationError "external return ids must be unique";;
  raise_if (negb (uniq (map dec_id (ers_decode_outcomes r))))
    ValidationError "decode outcome ids must be unique";;
  raise_if (existsb (λ d, negb (mem (dec_return_id d) (return_ids (ers_attempts r))))
                    (ers_decode_outcomes r))
    ValidationError "each decode outcome must interpret this request's captured return";;
  match ers_accepted_decoded_outcome_id r with
  | None => Ok tt
  | Some id =>
    raise_if (negb (decode_is_accepted (ers_decode_outcomes r) id))
      ValidationError "only a successful Decoded outcome can be accepted"
  end.

Definition accepted_result (r : EffectRequestState) : option CanonicalResult :=
  id ← ers_accepted_decoded_outcome_id r;
  d ← find_decode id (ers_decode_outcomes r);
  decoded_result d.

(** ** The lifecycle steps: what [evolve] builds *)

Definition new_request (r : EffectRequest) : EffectRequestState :=
  MkEffectRequestState r [] [] [] None.

Definition planned_attempt (p : EffectAttemptPlan) : AttemptState :=
  MkAttemptState p false None None None.

Definition started_attempt (a : AttemptState) (event_id : string) (at_time : Z) : AttemptState :=
  MkAttemptState (att_plan a) true (Some event_id) (Some at_time) None.

Definition ended_attempt (a : AttemptState) (o : AttemptOutcome) : AttemptState :=
  MkAttemptState (att_plan a) (att_started a) (att_started_event_id a) (att_started_at a) (Some o).

(** [tuple(f(item) if item.plan.id == id else item for item in attempts)] *)
Definition update_attempt (id : string) (f : AttemptState → AttemptState) (l : list AttemptState) :
    list AttemptState :=
  map (λ a, if att_id a ==? id then f a else a) l.

Definition with_attempts (r : EffectRequestState) (l : list AttemptState) : EffectRequestState :=
  MkEffectRequestState (ers_request r) l (ers_no_attempt_dispositions r) (ers_decode_outcomes r)
    (ers_accepted_decoded_outcome_id r).

Definition add_no_attempt (r : EffectRequestState) (d : NoAttemptDisposition) : EffectRequestState :=
  MkEffectRequestState (ers_request r) (ers_attempts r) (ers_no_attempt_dispositions r ++ [d])
    (ers_decode_outcomes r) (ers_accepted_decoded_outcome_id r).

Definition add_decode (r : EffectRequestState) (d : DecodeOutcome) : EffectRequestState :=
  MkEffectRequestState (ers_request r) (ers_attempts r) (ers_no_attempt_dispositions r)
    (ers_decode_outcomes r ++ [d]) (ers_accepted_decoded_outcome_id r).

Definition accept_decode (r : EffectRequestState) (id : string) : EffectRequestState :=
  MkEffectRequestState (ers_request r) (ers_attempts r) (ers_no_attempt_dispositions r)
    (ers_decode_outcomes r) (Some id).
