(* ===== verification/Probes.v ===== *)
(** * Cognitive records and probe traces: [src/rci/probes]

    Probe identities and observations, prediction seals, reconstructions,
    mismatches and semantic deltas with their validators, and the trace and
    semantic-field transformations of [probes/lifecycle.py]. *)

From S2P Require Import Prelude Digest Model Claims.

(** ** [probes/models.py] *)

Record ProbeIdentity : Type := MkProbeIdentity {
  pi_question_contract_key : string;
  pi_relational_role : string;
  pi_binding_schema_id : string;
  pi_binding_revision : string;
  pi_scope_fingerprint : string;
  pi_comparison_semantics_id : string;
  pi_applicability_guard_id : string;
  pi_protected_horizon_id : string;
}.
#[export] Instance ProbeIdentity_eq_dec : EqDecision ProbeIdentity.
Proof. solve_decision. Defined.

Definition validate_identity (p : ProbeIdentity) : result unit :=
  raise_if (existsb is_empty
      [pi_question_contract_key p; pi_relational_role p; pi_binding_schema_id p;
       pi_binding_revision p; pi_scope_fingerprint p; pi_comparison_semantics_id p;
       pi_applicability_guard_id p; pi_protected_horizon_id p])
    ValidationError "all probe identity coordinates are required".

#[export] Instance ProbeIdentity_to_json : ToJson ProbeIdentity := λ p,
  JObject [("question_contract_key", to_json (pi_question_contract_key p));
           ("relational_role", to_json (pi_relational_role p));
           ("binding_schema_id", to_json (pi_binding_schema_id p));
           ("binding_revision", to_json (pi_binding_revision p));
           ("scope_fingerprint", to_json (pi_scope_fingerprint p));
           ("comparison_semantics_id", to_json (pi_comparison_semantics_id p));
           ("applicability_guard_id", to_json (pi_applicability_guard_id p));
           ("protected_horizon_id", to_json (pi_protected_horizon_id p))].

Definition probe_fingerprint (p : ProbeIdentity) : string :=
  content_fingerprint "rci.probe-identity.v1" (to_json p).

Record ComparabilityBridge : Type := MkComparabilityBridge {
  br_from_probe_fingerprint : string;
  br_to_probe_fingerprint : string;
  br_comparison_proposition_id : string;
  br_scope_fingerprint : string;
  br_warrant_lemma_id : string;
}.
#[export] Instance ComparabilityBridge_eq_dec : EqDecision ComparabilityBridge.
Proof. solve_decision. Defined.

Definition validate_bridge (b : ComparabilityBridge) : result unit :=
  raise_if (existsb is_empty
      [br_from_probe_fingerprint b; br_to_probe_fingerprint b; br_comparison_proposition_id b;
       br_scope_fingerprint b; br_warrant_lemma_id b])
    ValidationError "comparability bridges require exact proposition, scope, and warrant".

(** [{from, to} == {left, right}] *)
Definition connects (b : ComparabilityBridge) (left right : string) : bool :=
  subset [br_from_probe_fingerprint b; br_to_probe_fingerprint b] [left; right]
  && subset [left; right] [br_from_probe_fingerprint b; br_to_probe_fingerprint b].

Inductive PriorAnswerExposure : Type :=
| NOT_APPLICABLE | WITHHELD_UNTIL_CAPTURE | EXPOSED_BEFORE_CAPTURE.
#[export] Instance PriorAnswerExposure_eq_dec : EqDecision PriorAnswerExposure.
Proof. solve_decision. Defined.

Record ProbeEvent : Type := MkProbeEvent {
  pe_id : string;
  pe_probe_identity : ProbeIdentity;
  pe_bound_referents : list BoundArgument;
  pe_binding_revision : string;
  pe_state_revision : Z;
  pe_semantic_field_id : string;
  pe_generated_answer_claim_id : option string;
  pe_external_return_ids : list string;
  pe_interpretation_claim_ids : list string;
  pe_sequence_index : Z;
  pe_comparability_bridge : option ComparabilityBridge;
  pe_fresh_observation_required : bool;
  pe_prior_answer_exposure : PriorAnswerExposure;
}.

Definition probe_event_eqb (x y : ProbeEvent) : bool :=
  (pe_id x ==? pe_id y) && (pe_probe_identity x ==? pe_probe_identity y)
  && list_eqb bound_argument_eqb (pe_bound_referents x) (pe_bound_referents y)
  && (pe_binding_revision x ==? pe_binding_revision y)
  && (pe_state_revision x ==? pe_state_revision y)
  && (pe_semantic_field_id x ==? pe_semantic_field_id y)
  && (pe_generated_answer_claim_id x ==? pe_generated_answer_claim_id y)
  && (pe_external_return_ids x ==? pe_external_return_ids y)
  && (pe_interpretation_claim_ids x ==? pe_interpretation_claim_ids y)
  && (pe_sequence_index x ==? pe_sequence_index y)
  && (pe_comparability_bridge x ==? pe_comparability_bridge y)
  && (pe_fresh_observation_required x ==? pe_fresh_observation_required y)
  && (pe_prior_answer_exposure x ==? pe_prior_answer_exposure y).

Definition probe_event_wf (e : ProbeEvent) : bool :=
  forallb bound_argument_wf (pe_bound_referents e).

Definition validate_event (e : ProbeEvent) : result unit :=
  raise_if ((pe_state_revision e <? 0) || (pe_sequence_index e <? 0))%Z
    ValidationError "revision and sequence values must be nonnegative";;
  raise_if (is_empty (pe_id e) || is_empty (pe_binding_revision e) || is_empty (pe_semantic_field_id e))
    ValidationError "probe event identity, binding, and semantic field are required";;
  raise_if (negb (uniq (map arg_name (pe_bound_referents e))))
    ValidationError "probe bound referent names must be unique";;
  raise_if (negb (forallb uniq [pe_external_return_ids e; pe_interpretation_claim_ids e]))
    ValidationError "probe event references must be unique";;
  raise_if (pe_fresh_observation_required e && is_nil (pe_external_return_ids e))
    ValidationError "fresh observations require an actually captured return";;
  raise_if (pe_fresh_observation_required e
            && (pe_prior_answer_exposure e !=? WITHHELD_UNTIL_CAPTURE))
    ValidationError "fresh observation must withhold prior answers until capture".

Record ProbeTrace : Type := MkProbeTrace {
  pt_probe_fingerprint : string;
  pt_events : list ProbeEvent;
  pt_protected_horizon_id : string;
  pt_comparison_policy_id : string;
  pt_active_guard_id : string;
  pt_reopening_condition_ids : list string;
}.

Definition event_fingerprint (e : ProbeEvent) : string := probe_fingerprint (pe_probe_identity e).

Definition validate_trace (t : ProbeTrace) : result unit :=
  raise_if (existsb (λ e, event_fingerprint e !=? pt_probe_fingerprint t) (pt_events t))
    ValidationError "trace contains an event with a different probe identity";;
  raise_if (negb (canonical (map pe_sequence_index (pt_events t)))
            || negb (uniq (map pe_sequence_index (pt_events t))))
    ValidationError "probe trace events must have a strict sequence order";;
  raise_if (negb (uniq (map pe_id (pt_events t))))
    ValidationError "probe trace event ids must be unique".

Inductive RelevanceStatus : Type := ACTIVE | UNDETERMINED | IRRELEVANT.
#[export] Instance RelevanceStatus_eq_dec : EqDecision RelevanceStatus.
Proof. solve_decision. Defined.

Definition RelevanceStatus_value (r : RelevanceStatus) : string :=
  match r with ACTIVE => "active" | UNDETERMINED => "undetermined" | IRRELEVANT => "irrelevant" end.

Record SemanticItem : Type := MkSemanticItem {
  si_structure_id : string;
  si_relevance : RelevanceStatus;
  si_irrelevance_warrant_id : option string;
  si_reopening_condition_id : option string;
}.
#[export] Instance SemanticItem_eq_dec : EqDecision SemanticItem.
Proof. solve_decision. Defined.

Definition validate_item (i : SemanticItem) : result unit :=
  raise_if (is_empty (si_structure_id i))
    ValidationError "semantic structure identity is required";;
  if si_relevance i ==? IRRELEVANT then
    raise_if (is_none (si_irrelevance_warrant_id i) || is_none (si_reopening_condition_id i))
      ValidationError "irrelevant structure requires warrant and reopening condition"
  else raise_if (is_some (si_irrelevance_warrant_id i))
         ValidationError "only guarded irrelevant structure carries an irrelevance warrant".

#[export] Instance SemanticItem_to_json : ToJson SemanticItem := λ i,
  JObject [("structure_id", to_json (si_structure_id i));
           ("relevance", JString (RelevanceStatus_value (si_relevance i)));
           ("irrelevance_warrant_id", to_json (si_irrelevance_warrant_id i));
           ("reopening_condition_id", to_json (si_reopening_condition_id i))].

Record SemanticField : Type := MkSemanticField {
  sf_id : string;
  sf_probe_fingerprint : string;
  sf_protected_horizon_id : string;
  sf_items : list SemanticItem;
  sf_same_probe_history_event_ids : list string;
  sf_cross_probe_trace_ids : list string;
  sf_retrieval_result_ids : list string;
  sf_method_contract_ids : list string;
  sf_reopening_condition_ids : list string;
}.
#[export] Instance SemanticField_eq_dec : EqDecision SemanticField.
Proof. solve_decision. Defined.

Definition validate_field (f : SemanticField) : result unit :=
  raise_if (negb (uniq (map si_structure_id (sf_items f))))
    ValidationError "semantic structures must appear exactly once in the field";;
  raise_if (negb (forallb uniq [sf_same_probe_history_event_ids f; sf_cross_probe_trace_ids f;
                                sf_retrieval_result_ids f; sf_method_contract_ids f;
                                sf_reopening_condition_ids f]))
    ValidationError "semantic field reference collections must be unique".

Record CognitiveAttemptPlan : Type := MkCognitiveAttemptPlan {
  cp_id : string;
  cp_obligation_id : string;
  cp_probe_or_action_id : string;
  cp_effect_request_id : string;
  cp_effect_attempt_plan_id : option string;
  cp_source_state_revision : Z;
  cp_scope_fingerprint : string;
  cp_planned_sequence : Z;
}.
#[export] Instance CognitiveAttemptPlan_eq_dec : EqDecision CognitiveAttemptPlan.
Proof. solve_decision. Defined.

Record PredictionSeal : Type := MkPredictionSeal {
  ps_id : string;
  ps_cognitive_plan_id : string;
  ps_probe_or_action_id : string;
  ps_predicted_return_class : string;
  ps_predicted_consequence : json;
  ps_acceptable_variation : json;
  ps_scope_fingerprint : string;
  ps_basis_claim_ids : list string;
  ps_sealed_sequence : Z;
}.

Definition prediction_eqb (x y : PredictionSeal) : bool :=
  (ps_id x ==? ps_id y) && (ps_cognitive_plan_id x ==? ps_cognitive_plan_id y)
  && (ps_probe_or_action_id x ==? ps_probe_or_action_id y)
  && (ps_predicted_return_class x ==? ps_predicted_return_class y)
  && json_eqb (ps_predicted_consequence x) (ps_predicted_consequence y)
  && json_eqb (ps_acceptable_variation x) (ps_acceptable_variation y)
  && (ps_scope_fingerprint x ==? ps_scope_fingerprint y)
  && (ps_basis_claim_ids x ==? ps_basis_claim_ids y)
  && (ps_sealed_sequence x ==? ps_sealed_sequence y).

Definition prediction_wf (p : PredictionSeal) : bool :=
  json_wf (ps_predicted_consequence p) && json_wf (ps_acceptable_variation p).

Record Mismatch : Type := MkMismatch {
  mm_id : string;
  mm_prediction_id : string;
  mm_external_return_id : string;
  mm_decode_outcome_id : string;
  mm_difference_claim_id : string;
  mm_scope_fingerprint : string;
  mm_protected_consequence_changed : bool;
  mm_classification : string;
}.
#[export] Instance Mismatch_eq_dec : EqDecision Mismatch.
Proof. solve_decision. Defined.

Definition validate_mismatch (m : Mismatch) : result unit :=
  raise_if (existsb is_empty [mm_id m; mm_prediction_id m; mm_external_return_id m;
                              mm_decode_outcome_id m; mm_difference_claim_id m;
                              mm_scope_fingerprint m; mm_classification m])
    ValidationError "mismatch identity and exact lifecycle references are required".

Record Reconstruction : Type := MkReconstruction {
  rc_id : string;
  rc_prior_state_revision : Z;
  rc_external_return_id : string;
  rc_decode_outcome_ids : list string;
  rc_activated_memory_ids : list string;
  rc_candidate_claim_ids : list string;
  rc_candidate_repair_ids : list string;
  rc_residual_obligation_ids : list string;
  rc_generated_detail_ids : list string;
  rc_historical_fact_ids : list string;
  rc_reconstructed_sequence : Z;
}.
#[export] Instance Reconstruction_eq_dec : EqDecision Reconstruction.
Proof. solve_decision. Defined.

(** [set(l1) & set(l2)] is nonempty. *)
Definition intersects (l1 l2 : list string) : bool := existsb (λ x, mem x l2) l1.

Definition preserve_history_boundary (r : Reconstruction) : result unit :=
  raise_if ((rc_prior_state_revision r <? 0) || (rc_reconstructed_sequence r <? 0))%Z
    ValidationError "revision and sequence values must be nonnegative";;
  raise_if (intersects (rc_generated_detail_ids r) (rc_historical_fact_ids r))
    ValidationError "generated reconstruction detail is not historical fact".

Inductive SemanticChangeOperation : Type := ADD | REOPEN | RETIRE.
#[export] Instance SemanticChangeOperation_eq_dec : EqDecision SemanticChangeOperation.
Proof. solve_decision. Defined.

Record WarrantedChange : Type := MkWarrantedChange {
  wc_change_id : string;
  wc_proposition_id : string;
  wc_scope_fingerprint : string;
  wc_operation : SemanticChangeOperation;
  wc_warrant_lemma_id : string;
}.
#[export] Instance WarrantedChange_eq_dec : EqDecision WarrantedChange.
Proof. solve_decision. Defined.

Definition validate_change (c : WarrantedChange) : result unit :=
  raise_if (existsb is_empty [wc_change_id c; wc_proposition_id c; wc_scope_fingerprint c;
                              wc_warrant_lemma_id c])
    ValidationError "semantic changes require proposition, scope, and warrant identity".

Record SemanticDelta : Type := MkSemanticDelta {
  sd_id : string;
  sd_reconstruction_id : string;
  sd_warranted_changes : list WarrantedChange;
  sd_reopened_structure_ids : list string;
  sd_retired_structure_ids : list string;
  sd_committed_sequence : Z;
}.
#[export] Instance SemanticDelta_eq_dec : EqDecision SemanticDelta.
Proof. solve_decision. Defined.

Definition validate_delta (d : SemanticDelta) : result unit :=
  raise_if (sd_committed_sequence d <? 0)%Z
    ValidationError "commit sequence must be nonnegative";;
  raise_if (negb (uniq (map wc_change_id (sd_warranted_changes d))))
    ValidationError "semantic changes must be unique";;
  raise_if (intersects (sd_reopened_structure_ids d) (sd_retired_structure_ids d))
    ValidationError "a structure cannot be reopened and retired in one delta".

(** ** [probes/lifecycle.py] *)

(** [a or b or c] on optional bridges: a bridge object is always true. *)
Definition first_bridge (l : list (option ComparabilityBridge)) : option ComparabilityBridge :=
  foldr (λ o rest, match o with Some b => Some b | None => rest end) None l.

Definition compare_probe_events (left right : ProbeEvent) (bridge : option ComparabilityBridge) : bool :=
  let lf := event_fingerprint left in
  let rf := event_fingerprint right in
  if (lf ==? rf) && (pe_binding_revision left ==? pe_binding_revision right)
     && list_eqb bound_argument_eqb (pe_bound_referents left) (pe_bound_referents right)
  then true
  else match first_bridge [bridge; pe_comparability_bridge right; pe_comparability_bridge left] with
       | Some b => connects b lf rf
       | None => false
       end.

Definition append_probe_event (trace : ProbeTrace) (event : ProbeEvent) : result ProbeTrace :=
  raise_if (event_fingerprint event !=? pt_probe_fingerprint trace)
    ValueError "event does not belong to this recurrent probe";;
  match last (pt_events trace) with
  | Some previous =>
    raise_if (pe_sequence_index event <=? pe_sequence_index previous)%Z
      ValueError "new probe event must follow the current trace tail";;
    raise_if (negb (compare_probe_events previous event None))
      ValueError "probe observations are not comparable without a bridge"
  | None => Ok tt
  end;;
  Ok (MkProbeTrace (pt_probe_fingerprint trace) (pt_events trace ++ [event])
        (pt_protected_horizon_id trace) (pt_comparison_policy_id trace) (pt_active_guard_id trace)
        (pt_reopening_condition_ids trace)).

(** The keyword arguments of [build_semantic_field]. *)
Record FieldInputs : Type := MkFieldInputs {
  fi_probe_identity : ProbeIdentity;
  fi_protected_horizon_id : string;
  fi_items : list SemanticItem;
  fi_same_probe_history_event_ids : list string;
  fi_cross_probe_trace_ids : list string;
  fi_retrieval_result_ids : list string;
  fi_method_contract_ids : list string;
  fi_reopening_condition_ids : list string;
  fi_authorized_irrelevance_warrant_ids : list string;
}.

Definition irrelevant_ids (f : SemanticItem → option string) (items : list SemanticItem) : list string :=
  omap (λ i, if si_relevance i ==? IRRELEVANT then f i else None) items.

Definition build_semantic_field (i : FieldInputs) : result SemanticField :=
  raise_if (negb (subset (irrelevant_ids si_irrelevance_warrant_id (fi_items i))
                         (fi_authorized_irrelevance_warrant_ids i)))
    ValueError "irrelevance requires an active checked consequence-null warrant";;
  raise_if (negb (subset (irrelevant_ids si_reopening_condition_id (fi_items i))
                         (fi_reopening_condition_ids i)))
    ValueError "irrelevance reopening conditions must be pinned by the field";;
  let fp := probe_fingerprint (fi_probe_identity i) in
  let material :=
    JObject [("probe", JString fp); ("horizon", JString (fi_protected_horizon_id i));
             ("items", to_json (fi_items i)); ("history", to_json (fi_same_probe_history_event_ids i));
             ("cross_probe", to_json (fi_cross_probe_trace_ids i));
             ("retrieval", to_json (fi_retrieval_result_ids i));
             ("methods", to_json (fi_method_contract_ids i));
             ("reopening", to_json (fi_reopening_condition_ids i));
             ("authorized_irrelevance_warrants",
               to_json (sorted_set (fi_authorized_irrelevance_warrant_ids i)))] in
  let field :=
    MkSemanticField ("field_" +:+ prefix 24 (content_fingerprint "rci.semantic-field.v1" material))
      fp (fi_protected_horizon_id i) (fi_items i) (fi_same_probe_history_event_ids i)
      (fi_cross_probe_trace_ids i) (fi_retrieval_result_ids i) (fi_method_contract_ids i)
      (fi_reopening_condition_ids i) in
  validate_field field;; Ok field.

Definition reopen_semantic_item (item : SemanticItem) (condition_id : string) : result SemanticItem :=
  if si_relevance item !=? IRRELEVANT then Ok item
  else if si_reopening_condition_id item !=? Some condition_id then Ok item
  else
    let i := MkSemanticItem (si_structure_id item) UNDETERMINED None (si_reopening_condition_id item) in
    validate_item i;; Ok i.
