(* ===== verification/Dumps.v ===== *)
(** * JSON images of the recorded values

    [model_dump(mode="json")] of the records that content fingerprints are taken
    of.  Enumerations are dumped as their values, instants as ISO 8601 text, and
    absent options as [null]; the order of the fields is irrelevant, the
    canonical encoding sorts them. *)

From S2P Require Import Prelude Digest Model Claims Warrant Effects Probes.

(** ** Instants: microseconds since 1970-01-01T00:00:00Z *)

(** The civil date of a day number, in the proleptic Gregorian calendar. *)
Definition civil_from_days (days : Z) : Z * Z * Z :=
  let z := (days + 719468)%Z in
  let era := (z / 146097)%Z in
  let doe := (z - era * 146097)%Z in
  let yoe := ((doe - doe / 1460 + doe / 36524 - doe / 146096) / 365)%Z in
  let doy := (doe - (365 * yoe + yoe / 4 - yoe / 100))%Z in
  let mp := ((5 * doy + 2) / 153)%Z in
  let d := (doy - (153 * mp + 2) / 5 + 1)%Z in
  let m := (if mp <? 10 then mp + 3 else mp - 9)%Z in
  ((yoe + era * 400 + (if m <=? 2 then 1 else 0))%Z, m, d).

(** A nonnegative number in at least [n] digits. *)
Fixpoint zeros (n : nat) : string :=
  match n with O => "" | S n => "0" +:+ zeros n end.
Definition padded (n : nat) (z : Z) : string :=
  let s := pretty z in zeros (n - String.length s) +:+ s.

Definition iso_timestamp (t : Z) : string :=
  let seconds := (t / 1000000)%Z in
  let micros := (t mod 1000000)%Z in
  let '(y, m, d) := civil_from_days (seconds / 86400) in
  let s := (seconds mod 86400)%Z in
  padded 4 y +:+ "-" +:+ padded 2 m +:+ "-" +:+ padded 2 d +:+ "T"
  +:+ padded 2 (s / 3600) +:+ ":" +:+ padded 2 (s / 60 mod 60) +:+ ":" +:+ padded 2 (s mod 60)
  +:+ (if (micros =? 0)%Z then "" else "." +:+ padded 6 micros) +:+ "Z".

Example iso_timestamp_example :
  iso_timestamp 1709210096000500 = "2024-02-29T12:34:56.000500Z" ∧
  iso_timestamp 0 = "1970-01-01T00:00:00Z".
Proof. split; vm_compute; reflexivity. Qed.

(** ** Enumerations *)

Definition CheckerVerdict_value (v : CheckerVerdict) : string :=
  match v with
  | VALID => "valid" | INVALID => "invalid" | INDETERMINATE => "indeterminate"
  | TIMEOUT => "timeout" | UNSUPPORTED => "unsupported" | FAILED => "failed"
  end.
Definition WarrantClass_value (w : WarrantClass) : string :=
  match w with
  | WC_NONE => "none" | SOFT => "soft" | SOLVER_TRUSTED => "solver_trusted" | HARD => "hard"
  end.
Definition EvidenceKind_value (k : EvidenceKind) : string :=
  match k with
  | MODEL_OUTPUT => "model_output" | REIFICATION => "reification" | HEURISTIC => "heuristic"
  | RETRIEVAL => "retrieval" | EV_OBSERVATION => "observation"
  | INDEPENDENT_WITNESS => "independent_witness" | EXHAUSTIVE_UNSAT => "exhaustive_unsat"
  | Z3_UNSAT => "z3_unsat"
  end.
Definition PropositionKind_value (k : PropositionKind) : string :=
  match k with EXISTENTIAL => "existential" | UNIVERSAL => "universal" | RELATION => "relation" end.
Definition SemanticChangeOperation_value (o : SemanticChangeOperation) : string :=
  match o with ADD => "add" | REOPEN => "reopen" | RETIRE => "retire" end.
Definition PriorAnswerExposure_value (p : PriorAnswerExposure) : string :=
  match p with
  | NOT_APPLICABLE => "not_applicable" | WITHHELD_UNTIL_CAPTURE => "withheld_until_capture"
  | EXPOSED_BEFORE_CAPTURE => "exposed_before_capture"
  end.

(** ** Records *)

#[export] Instance CapturedPayload_to_json : ToJson CapturedPayload := λ p,
  JObject [("kind", JString match cap_kind p with BytesPayload => "bytes" | NullPayload => "null" end);
           ("artifact", to_json (cap_artifact p))].

#[export] Instance EffectRequest_to_json : ToJson EffectRequest := λ r,
  JObject [("id", to_json (req_id r)); ("step_plan_id", to_json (req_step_plan_id r));
           ("effect_kind", to_json (req_effect_kind r)); ("adapter_id", to_json (req_adapter_id r));
           ("input_artifact", to_json (req_input_artifact r));
           ("timeout_seconds", to_json (req_timeout_seconds r))].

#[export] Instance ExternalReturn_to_json : ToJson ExternalReturn := λ r,
  JObject [("id", to_json (ret_id r)); ("attempt_id", to_json (ret_attempt_id r));
           ("route_id", to_json (ret_route_id r)); ("source_id", to_json (ret_source_id r));
           ("source_revision", to_json (ret_source_revision r));
           ("capture_boundary", to_json (ret_capture_boundary r));
           ("capture_encoding", to_json (ret_capture_encoding r));
           ("captured_at", JString (iso_timestamp (ret_captured_at r)));
           ("raw_payload", to_json (ret_raw_payload r))].

#[export] Instance ComparabilityBridge_to_json : ToJson ComparabilityBridge := λ b,
  JObject [("from_probe_fingerprint", to_json (br_from_probe_fingerprint b));
           ("to_probe_fingerprint", to_json (br_to_probe_fingerprint b));
           ("comparison_proposition_id", to_json (br_comparison_proposition_id b));
           ("scope_fingerprint", to_json (br_scope_fingerprint b));
           ("warrant_lemma_id", to_json (br_warrant_lemma_id b))].

#[export] Instance ProbeEvent_to_json : ToJson ProbeEvent := λ e,
  JObject [("id", to_json (pe_id e)); ("probe_identity", to_json (pe_probe_identity e));
           ("bound_referents", to_json (pe_bound_referents e));
           ("binding_revision", to_json (pe_binding_revision e));
           ("state_revision", to_json (pe_state_revision e));
           ("semantic_field_id", to_json (pe_semantic_field_id e));
           ("generated_answer_claim_id", to_json (pe_generated_answer_claim_id e));
           ("external_return_ids", to_json (pe_external_return_ids e));
           ("interpretation_claim_ids", to_json (pe_interpretation_claim_ids e));
           ("sequence_index", to_json (pe_sequence_index e));
           ("comparability_bridge", to_json (pe_comparability_bridge e));
           ("fresh_observation_required", to_json (pe_fresh_observation_required e));
           ("prior_answer_exposure",
             JString (PriorAnswerExposure_value (pe_prior_answer_exposure e)))].

#[export] Instance PredictionSeal_to_json : ToJson PredictionSeal := λ p,
  JObject [("id", to_json (ps_id p)); ("cognitive_plan_id", to_json (ps_cognitive_plan_id p));
           ("probe_or_action_id", to_json (ps_probe_or_action_id p));
           ("predicted_return_class", to_json (ps_predicted_return_class p));
           ("predicted_consequence", ps_predicted_consequence p);
           ("acceptable_variation", ps_acceptable_variation p);
           ("scope_fingerprint", to_json (ps_scope_fingerprint p));
           ("basis_claim_ids", to_json (ps_basis_claim_ids p));
           ("sealed_sequence", to_json (ps_sealed_sequence p))].

#[export] Instance Reconstruction_to_json : ToJson Reconstruction := λ r,
  JObject [("id", to_json (rc_id r)); ("prior_state_revision", to_json (rc_prior_state_revision r));
           ("external_return_id", to_json (rc_external_return_id r));
           ("decode_outcome_ids", to_json (rc_decode_outcome_ids r));
           ("activated_memory_ids", to_json (rc_activated_memory_ids r));
           ("candidate_claim_ids", to_json (rc_candidate_claim_ids r));
           ("candidate_repair_ids", to_json (rc_candidate_repair_ids r));
           ("residual_obligation_ids", to_json (rc_residual_obligation_ids r));
           ("generated_detail_ids", to_json (rc_generated_detail_ids r));
           ("historical_fact_ids", to_json (rc_historical_fact_ids r));
           ("reconstructed_sequence", to_json (rc_reconstructed_sequence r))].

#[export] Instance WarrantedChange_to_json : ToJson WarrantedChange := λ c,
  JObject [("change_id", to_json (wc_change_id c)); ("proposition_id", to_json (wc_proposition_id c));
           ("scope_fingerprint", to_json (wc_scope_fingerprint c));
           ("operation", JString (SemanticChangeOperation_value (wc_operation c)));
           ("warrant_lemma_id", to_json (wc_warrant_lemma_id c))].

#[export] Instance SemanticDelta_to_json : ToJson SemanticDelta := λ d,
  JObject [("id", to_json (sd_id d)); ("reconstruction_id", to_json (sd_reconstruction_id d));
           ("warranted_changes", to_json (sd_warranted_changes d));
           ("reopened_structure_ids", to_json (sd_reopened_structure_ids d));
           ("retired_structure_ids", to_json (sd_retired_structure_ids d));
           ("committed_sequence", to_json (sd_committed_sequence d))].

#[export] Instance Applicability_to_json : ToJson Applicability := λ a,
  JObject [("condition_id", to_json (app_condition_id a));
           ("required_context_ids", to_json (app_required_context_ids a))].

#[export] Instance LemmaVersion_to_json : ToJson LemmaVersion := λ v,
  JObject [("id", to_json (lv_id v)); ("relation_id", to_json (lv_relation_id v));
           ("proposition_kind", JString (PropositionKind_value (lv_proposition_kind v)));
           ("scope", to_json (lv_scope v)); ("applicability", to_json (lv_applicability v));
           ("source_claim_ids", to_json (lv_source_claim_ids v));
           ("predecessor_refs", to_json (lv_predecessor_refs v))].

#[export] Instance CheckReference_to_json : ToJson CheckReference := λ r,
  JObject [("evidence_id", to_json (ref_evidence_id r));
           ("checker_verdict_id", to_json (ref_checker_verdict_id r))].

#[export] Instance Evidence_to_json : ToJson Evidence := λ e,
  JObject [("id", to_json (ev_id e)); ("kind", JString (EvidenceKind_value (ev_kind e)));
           ("proposition_id", to_json (ev_proposition_id e));
           ("proposition_kind", JString (PropositionKind_value (ev_proposition_kind e)));
           ("scope_fingerprint", to_json (ev_scope_fingerprint e));
           ("artifact", to_json (ev_artifact e));
           ("closed_finite_universe", to_json (ev_closed_finite_universe e));
           ("finite_universe_hash", to_json (ev_finite_universe_hash e))].

#[export] Instance CheckerVerdictRecord_to_json : ToJson CheckerVerdictRecord := λ v,
  JObject [("id", to_json (cv_id v)); ("evidence_id", to_json (cv_evidence_id v));
           ("evidence_artifact", to_json (cv_evidence_artifact v));
           ("proposition_id", to_json (cv_proposition_id v));
           ("proposition_kind", JString (PropositionKind_value (cv_proposition_kind v)));
           ("scope_fingerprint", to_json (cv_scope_fingerprint v));
           ("checker_id", to_json (cv_checker_id v));
           ("checker_version", to_json (cv_checker_version v));
           ("verdict", JString (CheckerVerdict_value (cv_verdict v)));
           ("verdict_artifact", to_json (cv_verdict_artifact v));
           ("certificate_artifact", to_json (cv_certificate_artifact v))].

#[export] Instance WarrantDecisionRecord_to_json : ToJson WarrantDecisionRecord := λ d,
  JObject [("id", to_json (wd_id d)); ("evidence_id", to_json (wd_evidence_id d));
           ("checker_verdict_id", to_json (wd_checker_verdict_id d));
           ("proposition_id", to_json (wd_proposition_id d));
           ("proposition_kind", JString (PropositionKind_value (wd_proposition_kind d)));
           ("scope_fingerprint", to_json (wd_scope_fingerprint d));
           ("warrant_class", JString (WarrantClass_value (wd_warrant_class d)));
           ("reason", to_json (wd_reason d)); ("policy_version", to_json (wd_policy_version d))].
