(* ===== verification/Memory.v ===== *)
(** * Memory records: [src/rci/memory/models.py], [references.py]

    The records of retrieval and measured reacquisition with their validators,
    the six kinds of registered retention record behind one interface (the
    protocol class of [core/state.py]), and owned references: their keys, their
    content fingerprints, and fail-closed resolution. *)

From S2P Require Import Prelude Digest Model Claims Warrant Effects Probes Dumps.

(** [_require_canonical_ids] *)
Definition require_canonical_ids (values : list string) (field_name : string) : result unit :=
  raise_if (negb (uniq values)) ValidationError (field_name +:+ " must be unique");;
  raise_if (negb (canonical values)) ValidationError (field_name +:+ " must use canonical order").

(** ** Owners and record types *)

Inductive MemoryOwner : Type :=
| EPISODIC | SEMANTIC | PROCEDURAL | RETENTION | WARRANT | ACTION | PREDICTION.
#[export] Instance MemoryOwner_eq_dec : EqDecision MemoryOwner.
Proof. solve_decision. Defined.

Definition MemoryOwner_value (o : MemoryOwner) : string :=
  match o with
  | EPISODIC => "M_E" | SEMANTIC => "M_S" | PROCEDURAL => "M_P" | RETENTION => "M_L"
  | WARRANT => "W" | ACTION => "A" | PREDICTION => "Pi"
  end.
Definition all_owners : list MemoryOwner :=
  [EPISODIC; SEMANTIC; PROCEDURAL; RETENTION; WARRANT; ACTION; PREDICTION].

Inductive OwnedRecordType : Type :=
| PROBE_EVENT | LEMMA_VERSION | SEMANTIC_DELTA | PROBE_IDENTITY | RETENTION_PACKAGE
| REACQUISITION_SCAFFOLD | RECOVERY_PROTOCOL | EVIDENCE | CHECKER_VERDICT | WARRANT_DECISION
| EFFECT_REQUEST | EXTERNAL_RETURN | RECONSTRUCTION | PREDICTION_SEAL.
#[export] Instance OwnedRecordType_eq_dec : EqDecision OwnedRecordType.
Proof. solve_decision. Defined.

Definition OwnedRecordType_value (t : OwnedRecordType) : string :=
  match t with
  | PROBE_EVENT => "probe_event" | LEMMA_VERSION => "lemma_version"
  | SEMANTIC_DELTA => "semantic_delta" | PROBE_IDENTITY => "probe_identity"
  | RETENTION_PACKAGE => "retention_package"
  | REACQUISITION_SCAFFOLD => "reacquisition_scaffold"
  | RECOVERY_PROTOCOL => "recovery_protocol" | EVIDENCE => "evidence"
  | CHECKER_VERDICT => "checker_verdict" | WARRANT_DECISION => "warrant_decision"
  | EFFECT_REQUEST => "effect_request" | EXTERNAL_RETURN => "external_return"
  | RECONSTRUCTION => "reconstruction" | PREDICTION_SEAL => "prediction_seal"
  end.
Definition all_record_types : list OwnedRecordType :=
  [PROBE_EVENT; LEMMA_VERSION; SEMANTIC_DELTA; PROBE_IDENTITY; RETENTION_PACKAGE;
   REACQUISITION_SCAFFOLD; RECOVERY_PROTOCOL; EVIDENCE; CHECKER_VERDICT; WARRANT_DECISION;
   EFFECT_REQUEST; EXTERNAL_RETURN; RECONSTRUCTION; PREDICTION_SEAL].

(** [_RECORD_OWNER] *)
Definition record_owner (t : OwnedRecordType) : MemoryOwner :=
  match t with
  | PROBE_EVENT => EPISODIC
  | LEMMA_VERSION | SEMANTIC_DELTA => SEMANTIC
  | PROBE_IDENTITY => PROCEDURAL
  | RETENTION_PACKAGE | REACQUISITION_SCAFFOLD | RECOVERY_PROTOCOL => RETENTION
  | EVIDENCE | CHECKER_VERDICT | WARRANT_DECISION => WARRANT
  | EFFECT_REQUEST | EXTERNAL_RETURN | RECONSTRUCTION => ACTION
  | PREDICTION_SEAL => PREDICTION
  end.

Record OwnedMemoryRef : Type := MkOwnedMemoryRef {
  omr_owner : MemoryOwner;
  omr_record_type : OwnedRecordType;
  omr_record_id : string;
  omr_record_schema_version : Z;
  omr_content_fingerprint : string;
}.
#[export] Instance OwnedMemoryRef_eq_dec : EqDecision OwnedMemoryRef.
Proof. solve_decision. Defined.

Definition validate_owner (r : OwnedMemoryRef) : result unit :=
  raise_if (record_owner (omr_record_type r) !=? omr_owner r)
    ValidationError "owned memory record type does not belong to the declared owner".

(** The canonical typed key. *)
Definition memory_key (owner : MemoryOwner) (t : OwnedRecordType) (id : string) (version : Z) : string :=
  MemoryOwner_value owner +:+ ":" +:+ OwnedRecordType_value t +:+ ":" +:+ id +:+ ":v" +:+ pretty version.

Definition omr_key (r : OwnedMemoryRef) : string :=
  memory_key (omr_owner r) (omr_record_type r) (omr_record_id r) (omr_record_schema_version r).

#[export] Instance OwnedMemoryRef_to_json : ToJson OwnedMemoryRef := λ r,
  JObject [("schema_version", JInt 1); ("owner", JString (MemoryOwner_value (omr_owner r)));
           ("record_type", JString (OwnedRecordType_value (omr_record_type r)));
           ("record_id", to_json (omr_record_id r));
           ("record_schema_version", to_json (omr_record_schema_version r));
           ("content_fingerprint", to_json (omr_content_fingerprint r))].

(** ** Retrieval *)

Inductive RetrievalRankComponent : Type :=
| REFERENCE_MATCH | RECORD_TYPE_MATCH | OWNER_MATCH | CUE_MATCH | TAG_MATCH.
#[export] Instance RetrievalRankComponent_eq_dec : EqDecision RetrievalRankComponent.
Proof. solve_decision. Defined.

Definition DEFAULT_RANK_COMPONENTS : list RetrievalRankComponent :=
  [REFERENCE_MATCH; RECORD_TYPE_MATCH; OWNER_MATCH; CUE_MATCH; TAG_MATCH].

(** The four [Literal[True]] fields carry no information. *)
Record StructuralRetrievalPolicy : Type := MkStructuralRetrievalPolicy {
  srp_id : string;
  srp_version : string;
  srp_max_results : Z;
  srp_rank_components : list RetrievalRankComponent;
  srp_accepted_record_types : list OwnedRecordType;
}.
#[export] Instance StructuralRetrievalPolicy_eq_dec : EqDecision StructuralRetrievalPolicy.
Proof. solve_decision. Defined.

Definition validate_policy (p : StructuralRetrievalPolicy) : result unit :=
  raise_if ((srp_max_results p <? 1) || (1000 <? srp_max_results p))%Z
    ValidationError "max_results must be between 1 and 1000";;
  raise_if (is_nil (srp_rank_components p))
    ValidationError "retrieval policy requires at least one exact rank component";;
  raise_if (negb (uniq (srp_rank_components p)))
    ValidationError "retrieval rank components must be unique";;
  require_canonical_ids (map OwnedRecordType_value (srp_accepted_record_types p))
    "accepted retrieval record types".

Record RetrievalQuery : Type := MkRetrievalQuery {
  qry_id : string;
  qry_policy_id : string;
  qry_policy_version : string;
  qry_scope_fingerprint : string;
  qry_binding_revision : string;
  qry_protected_horizon_id : string;
  qry_source_sequence : Z;
  qry_source_index_fingerprint : string;
  qry_owners : list MemoryOwner;
  qry_record_types : list OwnedRecordType;
  qry_reference_selectors : list OwnedMemoryRef;
  qry_cue_ids : list string;
  qry_tag_ids : list string;
  qry_limit : Z;
}.
#[export] Instance RetrievalQuery_eq_dec : EqDecision RetrievalQuery.
Proof. solve_decision. Defined.

Definition validate_query (q : RetrievalQuery) : result unit :=
  raise_if ((qry_limit q <? 1) || (1000 <? qry_limit q) || (qry_source_sequence q <? 0))%Z
    ValidationError "limit must be between 1 and 1000";;
  raise_if (is_nil (qry_owners q) && is_nil (qry_record_types q) && is_nil (qry_reference_selectors q)
            && is_nil (qry_cue_ids q) && is_nil (qry_tag_ids q))
    ValidationError "retrieval query requires at least one structural selector";;
  require_canonical_ids (map MemoryOwner_value (qry_owners q)) "retrieval owners";;
  require_canonical_ids (qry_cue_ids q) "retrieval cue ids";;
  require_canonical_ids (qry_tag_ids q) "retrieval tag ids";;
  require_canonical_ids (map OwnedRecordType_value (qry_record_types q)) "retrieval record types";;
  require_canonical_ids (map omr_key (qry_reference_selectors q)) "retrieval reference selectors".

Record RetrievalRank : Type := MkRetrievalRank {
  rank_reference_match_count : Z;
  rank_record_type_match_count : Z;
  rank_owner_match_count : Z;
  rank_cue_match_count : Z;
  rank_tag_match_count : Z;
}.
#[export] Instance RetrievalRank_eq_dec : EqDecision RetrievalRank.
Proof. solve_decision. Defined.

Definition component (r : RetrievalRank) (c : RetrievalRankComponent) : Z :=
  match c with
  | REFERENCE_MATCH => rank_reference_match_count r
  | RECORD_TYPE_MATCH => rank_record_type_match_count r
  | OWNER_MATCH => rank_owner_match_count r
  | CUE_MATCH => rank_cue_match_count r
  | TAG_MATCH => rank_tag_match_count r
  end.

Record RetrievalHit : Type := MkRetrievalHit {
  hit_package_id : string;
  hit_package_content_fingerprint : string;
  hit_rank : RetrievalRank;
  hit_matched_ref_keys : list string;
  hit_matched_cue_ids : list string;
  hit_matched_tag_ids : list string;
}.
#[export] Instance RetrievalHit_eq_dec : EqDecision RetrievalHit.
Proof. solve_decision. Defined.

Definition validate_hit (h : RetrievalHit) : result unit :=
  require_canonical_ids (hit_matched_ref_keys h) "matched retrieval refs";;
  require_canonical_ids (hit_matched_cue_ids h) "matched retrieval cues";;
  require_canonical_ids (hit_matched_tag_ids h) "matched retrieval tags";;
  raise_if (forallb (λ c, component (hit_rank h) c =? 0)%Z DEFAULT_RANK_COMPONENTS)
    ValidationError "retrieval hits require at least one structural match".

Record RetrievalResult : Type := MkRetrievalResult {
  rres_id : string;
  rres_query_id : string;
  rres_policy_id : string;
  rres_policy_version : string;
  rres_source_sequence : Z;
  rres_source_index_fingerprint : string;
  rres_hits : list RetrievalHit;
  rres_rejected_stale_package_ids : list string;
}.
#[export] Instance RetrievalResult_eq_dec : EqDecision RetrievalResult.
Proof. solve_decision. Defined.

Definition validate_result (r : RetrievalResult) : result unit :=
  let hit_ids := map hit_package_id (rres_hits r) in
  raise_if (negb (uniq hit_ids))
    ValidationError "retrieval result package hits must be deduplicated";;
  require_canonical_ids (rres_rejected_stale_package_ids r) "stale retrieval package ids";;
  raise_if (intersects hit_ids (rres_rejected_stale_package_ids r))
    ValidationError "a stale package cannot also be returned as a hit".

(** ** Registered retention records *)

(** [_PinnedRetentionRecord]: identity and the three pins. *)
Class PinnedRetentionRecord (A : Type) := {
  pinned_id : A → string;
  pinned_pins : A → string * string * string;
}.

(** [_ProvisionalRoute] *)
Record ProvisionalRoute : Type := MkProvisionalRoute {
  prt_id : string;
  prt_scope_fingerprint : string;
  prt_binding_revision : string;
  prt_protected_horizon_id : string;
  prt_source_refs : list OwnedMemoryRef;
  prt_provenance_refs : list string;
}.
#[export] Instance ProvisionalRoute_eq_dec : EqDecision ProvisionalRoute.
Proof. solve_decision. Defined.

Definition prt_pins (r : ProvisionalRoute) : string * string * string :=
  (prt_scope_fingerprint r, prt_binding_revision r, prt_protected_horizon_id r).

Definition validate_common_route (r : ProvisionalRoute) : result unit :=
  raise_if (is_nil (prt_source_refs r))
    ValidationError "provisional recovery routes require owned source references";;
  require_canonical_ids (map omr_key (prt_source_refs r)) "route source references";;
  raise_if (is_nil (prt_provenance_refs r))
    ValidationError "provisional recovery routes require provenance";;
  require_canonical_ids (prt_provenance_refs r) "route provenance references".

Record DirectUseRoute : Type := MkDirectUseRoute {
  dur_route : ProvisionalRoute;
  dur_present_use_contract_id : string;
}.
#[export] Instance DirectUseRoute_eq_dec : EqDecision DirectUseRoute.
Proof. solve_decision. Defined.

Record ReconstructionRoute : Type := MkReconstructionRoute {
  rcr_route : ProvisionalRoute;
  rcr_reconstruction_policy_id : string;
}.
#[export] Instance ReconstructionRoute_eq_dec : EqDecision ReconstructionRoute.
Proof. solve_decision. Defined.

Record ConsequenceEvaluationRoute : Type := MkConsequenceEvaluationRoute {
  cer_route : ProvisionalRoute;
  cer_consequence_evaluator_id : string;
}.
#[export] Instance ConsequenceEvaluationRoute_eq_dec : EqDecision ConsequenceEvaluationRoute.
Proof. solve_decision. Defined.

Record ReacquisitionRoute : Type := MkReacquisitionRoute {
  rar_route : ProvisionalRoute;
  rar_recovery_protocol_id : string;
  rar_reacquisition_scaffold_id : string;
}.
#[export] Instance ReacquisitionRoute_eq_dec : EqDecision ReacquisitionRoute.
Proof. solve_decision. Defined.

#[export] Instance DirectUseRoute_pinned : PinnedRetentionRecord DirectUseRoute :=
  {| pinned_id r := prt_id (dur_route r); pinned_pins r := prt_pins (dur_route r) |}.
#[export] Instance ReconstructionRoute_pinned : PinnedRetentionRecord ReconstructionRoute :=
  {| pinned_id r := prt_id (rcr_route r); pinned_pins r := prt_pins (rcr_route r) |}.
#[export] Instance ConsequenceEvaluationRoute_pinned : PinnedRetentionRecord ConsequenceEvaluationRoute :=
  {| pinned_id r := prt_id (cer_route r); pinned_pins r := prt_pins (cer_route r) |}.
#[export] Instance ReacquisitionRoute_pinned : PinnedRetentionRecord ReacquisitionRoute :=
  {| pinned_id r := prt_id (rar_route r); pinned_pins r := prt_pins (rar_route r) |}.

Record ReacquisitionScaffold : Type := MkReacquisitionScaffold {
  scf_id : string;
  scf_scope_fingerprint : string;
  scf_binding_revision : string;
  scf_protected_horizon_id : string;
  scf_cue_refs : list OwnedMemoryRef;
  scf_ordered_probe_ids : list string;
  scf_boundary_refs : list OwnedMemoryRef;
  scf_failure_refs : list OwnedMemoryRef;
  scf_provenance_refs : list string;
}.
#[export] Instance ReacquisitionScaffold_eq_dec : EqDecision ReacquisitionScaffold.
Proof. solve_decision. Defined.
#[export] Instance ReacquisitionScaffold_pinned : PinnedRetentionRecord ReacquisitionScaffold :=
  {| pinned_id := scf_id;
     pinned_pins r := (scf_scope_fingerprint r, scf_binding_revision r, scf_protected_horizon_id r) |}.

Definition validate_scaffold (s : ReacquisitionScaffold) : result unit :=
  raise_if (is_nil (scf_cue_refs s) && is_nil (scf_ordered_probe_ids s)
            && is_nil (scf_boundary_refs s) && is_nil (scf_failure_refs s))
    ValidationError "reacquisition scaffold cannot be structurally empty";;
  require_canonical_ids (map omr_key (scf_cue_refs s)) "scaffold cues";;
  require_canonical_ids (map omr_key (scf_boundary_refs s)) "scaffold boundaries";;
  require_canonical_ids (map omr_key (scf_failure_refs s)) "scaffold failures";;
  raise_if (negb (uniq (scf_ordered_probe_ids s)))
    ValidationError "ordered scaffold probes must be unique";;
  raise_if (is_nil (scf_provenance_refs s))
    ValidationError "reacquisition scaffold requires provenance";;
  require_canonical_ids (scf_provenance_refs s) "scaffold provenance references".

#[export] Instance ReacquisitionScaffold_to_json : ToJson ReacquisitionScaffold := λ s,
  JObject [("schema_version", JInt 1); ("id", to_json (scf_id s));
           ("scope_fingerprint", to_json (scf_scope_fingerprint s));
           ("binding_revision", to_json (scf_binding_revision s));
           ("protected_horizon_id", to_json (scf_protected_horizon_id s));
           ("cue_refs", to_json (scf_cue_refs s));
           ("ordered_probe_ids", to_json (scf_ordered_probe_ids s));
           ("boundary_refs", to_json (scf_boundary_refs s));
           ("failure_refs", to_json (scf_failure_refs s));
           ("provenance_refs", to_json (scf_provenance_refs s))].

(** ** Costs and recovery pins *)

Record CostAxis : Type := MkCostAxis { axis_id : string; axis_unit_id : string }.
#[export] Instance CostAxis_eq_dec : EqDecision CostAxis.
Proof. solve_decision. Defined.

#[export] Instance CostAxis_to_json : ToJson CostAxis := λ a,
  JObject [("schema_version", JInt 1); ("id", to_json (axis_id a));
           ("unit_id", to_json (axis_unit_id a)); ("direction", JString "lower_is_better")].

Record CostCoordinate : Type := MkCostCoordinate {
  cost_axis : CostAxis;
  cost_numerator : Z;
  cost_denominator : Z;
}.
#[export] Instance CostCoordinate_eq_dec : EqDecision CostCoordinate.
Proof. solve_decision. Defined.

Definition require_reduced_fraction (c : CostCoordinate) : result unit :=
  raise_if ((cost_numerator c <? 0) || (cost_denominator c <=? 0))%Z
    ValidationError "costs are nonnegative over a positive denominator";;
  raise_if ((cost_numerator c =? 0) && negb (cost_denominator c =? 1))%Z
    ValidationError "zero costs use canonical denominator one";;
  raise_if (negb (cost_numerator c =? 0) && negb (Z.gcd (cost_numerator c) (cost_denominator c) =? 1))%Z
    ValidationError "exact costs must use reduced rational form".

#[export] Instance CostCoordinate_to_json : ToJson CostCoordinate := λ c,
  JObject [("schema_version", JInt 1); ("axis", to_json (cost_axis c));
           ("numerator", to_json (cost_numerator c)); ("denominator", to_json (cost_denominator c))].

Record CostVector : Type := MkCostVector { vec_coordinates : list CostCoordinate }.
#[export] Instance CostVector_eq_dec : EqDecision CostVector.
Proof. solve_decision. Defined.

Definition coordinate_axis_id (c : CostCoordinate) : string := axis_id (cost_axis c).

Definition validate_vector (v : CostVector) : result unit :=
  raise_if (is_nil (vec_coordinates v))
    ValidationError "cost vectors require at least one named axis";;
  require_canonical_ids (map coordinate_axis_id (vec_coordinates v)) "cost-vector axes".

(** The schema version of an axis is 1 throughout. *)
Definition axis_key (a : CostAxis) : string * string * Z := (axis_id a, axis_unit_id a, 1%Z).
Definition axis_signature (v : CostVector) : list (string * string * Z) :=
  map (λ c, axis_key (cost_axis c)) (vec_coordinates v).

#[export] Instance CostVector_to_json : ToJson CostVector := λ v,
  JObject [("schema_version", JInt 1); ("coordinates", to_json (vec_coordinates v))].

Record RecoveryPins : Type := MkRecoveryPins {
  pins_scope_fingerprint : string;
  pins_target_competence_id : string;
  pins_finite_universe_hash : string;
  pins_binding_revision : string;
  pins_protected_horizon_id : string;
  pins_evaluator_id : string;
  pins_evaluator_version : string;
  pins_evidence_access_id : string;
  pins_evidence_access_version : string;
  pins_budget_id : string;
  pins_budget_version : string;
  pins_budget : CostVector;
  pins_recovery_protocol_id : string;
  pins_recovery_protocol_version : string;
  pins_comparison_policy_id : string;
  pins_comparison_policy_version : string;
}.
#[export] Instance RecoveryPins_eq_dec : EqDecision RecoveryPins.
Proof. solve_decision. Defined.

#[export] Instance RecoveryPins_to_json : ToJson RecoveryPins := λ p,
  JObject [("schema_version", JInt 1); ("scope_fingerprint", to_json (pins_scope_fingerprint p));
           ("target_competence_id", to_json (pins_target_competence_id p));
           ("finite_universe_hash", to_json (pins_finite_universe_hash p));
           ("binding_revision", to_json (pins_binding_revision p));
           ("protected_horizon_id", to_json (pins_protected_horizon_id p));
           ("evaluator_id", to_json (pins_evaluator_id p));
           ("evaluator_version", to_json (pins_evaluator_version p));
           ("evidence_access_id", to_json (pins_evidence_access_id p));
           ("evidence_access_version", to_json (pins_evidence_access_version p));
           ("budget_id", to_json (pins_budget_id p)); ("budget_version", to_json (pins_budget_version p));
           ("budget", to_json (pins_budget p));
           ("recovery_protocol_id", to_json (pins_recovery_protocol_id p));
           ("recovery_protocol_version", to_json (pins_recovery_protocol_version p));
           ("comparison_policy_id", to_json (pins_comparison_policy_id p));
           ("comparison_policy_version", to_json (pins_comparison_policy_version p))].

Record RecoveryProtocol : Type := MkRecoveryProtocol {
  rpt_id : string;
  rpt_version : string;
  rpt_scope_fingerprint : string;
  rpt_target_competence_id : string;
  rpt_finite_universe_hash : string;
  rpt_binding_revision : string;
  rpt_protected_horizon_id : string;
  rpt_evaluator_id : string;
  rpt_evaluator_version : string;
  rpt_evidence_access_id : string;
  rpt_evidence_access_version : string;
  rpt_budget_id : string;
  rpt_budget_version : string;
  rpt_budget : CostVector;
  rpt_comparison_policy_id : string;
  rpt_comparison_policy_version : string;
  rpt_cost_axes : list CostAxis;
}.
#[export] Instance RecoveryProtocol_eq_dec : EqDecision RecoveryProtocol.
Proof. solve_decision. Defined.
#[export] Instance RecoveryProtocol_pinned : PinnedRetentionRecord RecoveryProtocol :=
  {| pinned_id := rpt_id;
     pinned_pins r := (rpt_scope_fingerprint r, rpt_binding_revision r, rpt_protected_horizon_id r) |}.

Definition validate_protocol (p : RecoveryProtocol) : result unit :=
  raise_if (is_nil (rpt_cost_axes p))
    ValidationError "recovery protocol requires at least one declared cost axis";;
  require_canonical_ids (map axis_id (rpt_cost_axes p)) "recovery protocol cost axes";;
  raise_if (axis_signature (rpt_budget p) !=? map axis_key (rpt_cost_axes p))
    ValidationError "recovery budget axes must exactly match protocol cost axes".

(** [RecoveryProtocol.pins] *)
Definition protocol_pins (p : RecoveryProtocol) : RecoveryPins :=
  MkRecoveryPins (rpt_scope_fingerprint p) (rpt_target_competence_id p)
    (rpt_finite_universe_hash p) (rpt_binding_revision p) (rpt_protected_horizon_id p)
    (rpt_evaluator_id p) (rpt_evaluator_version p) (rpt_evidence_access_id p)
    (rpt_evidence_access_version p) (rpt_budget_id p) (rpt_budget_version p) (rpt_budget p)
    (rpt_id p) (rpt_version p) (rpt_comparison_policy_id p) (rpt_comparison_policy_version p).

#[export] Instance RecoveryProtocol_to_json : ToJson RecoveryProtocol := λ p,
  JObject [("schema_version", JInt 1); ("id", to_json (rpt_id p)); ("version", to_json (rpt_version p));
           ("scope_fingerprint", to_json (rpt_scope_fingerprint p));
           ("target_competence_id", to_json (rpt_target_competence_id p));
           ("finite_universe_hash", to_json (rpt_finite_universe_hash p));
           ("binding_revision", to_json (rpt_binding_revision p));
           ("protected_horizon_id", to_json (rpt_protected_horizon_id p));
           ("evaluator_id", to_json (rpt_evaluator_id p));
           ("evaluator_version", to_json (rpt_evaluator_version p));
           ("evidence_access_id", to_json (rpt_evidence_access_id p));
           ("evidence_access_version", to_json (rpt_evidence_access_version p));
           ("budget_id", to_json (rpt_budget_id p)); ("budget_version", to_json (rpt_budget_version p));
           ("budget", to_json (rpt_budget p));
           ("comparison_policy_id", to_json (rpt_comparison_policy_id p));
           ("comparison_policy_version", to_json (rpt_comparison_policy_version p));
           ("cost_axes", to_json (rpt_cost_axes p))].

(** ** Packages *)

Record RetentionPackage : Type := MkRetentionPackage {
  pkg_id : string;
  pkg_scope_fingerprint : string;
  pkg_binding_revision : string;
  pkg_protected_horizon_id : string;
  pkg_owned_refs : list OwnedMemoryRef;
  pkg_cue_ids : list string;
  pkg_tag_ids : list string;
  pkg_direct_use_route_ids : list string;
  pkg_reconstruction_route_ids : list string;
  pkg_consequence_evaluation_route_ids : list string;
  pkg_reacquisition_route_ids : list string;
  pkg_scaffold_ids : list string;
  pkg_recovery_protocol_ids : list string;
  pkg_provenance_refs : list string;
}.
#[export] Instance RetentionPackage_eq_dec : EqDecision RetentionPackage.
Proof. solve_decision. Defined.

Definition pkg_pins (p : RetentionPackage) : string * string * string :=
  (pkg_scope_fingerprint p, pkg_binding_revision p, pkg_protected_horizon_id p).

#[export] Instance RetentionPackage_to_json : ToJson RetentionPackage := λ p,
  JObject [("schema_version", JInt 1); ("id", to_json (pkg_id p));
           ("scope_fingerprint", to_json (pkg_scope_fingerprint p));
           ("binding_revision", to_json (pkg_binding_revision p));
           ("protected_horizon_id", to_json (pkg_protected_horizon_id p));
           ("owned_refs", to_json (pkg_owned_refs p)); ("cue_ids", to_json (pkg_cue_ids p));
           ("tag_ids", to_json (pkg_tag_ids p));
           ("direct_use_route_ids", to_json (pkg_direct_use_route_ids p));
           ("reconstruction_route_ids", to_json (pkg_reconstruction_route_ids p));
           ("consequence_evaluation_route_ids", to_json (pkg_consequence_evaluation_route_ids p));
           ("reacquisition_route_ids", to_json (pkg_reacquisition_route_ids p));
           ("scaffold_ids", to_json (pkg_scaffold_ids p));
           ("recovery_protocol_ids", to_json (pkg_recovery_protocol_ids p));
           ("provenance_refs", to_json (pkg_provenance_refs p))].

Definition package_fingerprint (p : RetentionPackage) : string :=
  content_fingerprint "rci.retention-package.v1" (to_json p).

Definition package_route_ids (p : RetentionPackage) : list string :=
  pkg_direct_use_route_ids p ++ pkg_reconstruction_route_ids p
  ++ pkg_consequence_evaluation_route_ids p ++ pkg_reacquisition_route_ids p.

Definition validate_package (p : RetentionPackage) : result unit :=
  raise_if (is_nil (pkg_owned_refs p))
    ValidationError "retention package requires owned typed references";;
  require_canonical_ids (map omr_key (pkg_owned_refs p)) "retention package owned references";;
  raise_if (is_nil (package_route_ids p))
    ValidationError "retention package requires at least one provisional route";;
  require_canonical_ids (pkg_cue_ids p) "retention cues";;
  require_canonical_ids (pkg_tag_ids p) "retention tags";;
  require_canonical_ids (pkg_direct_use_route_ids p) "direct-use routes";;
  require_canonical_ids (pkg_reconstruction_route_ids p) "reconstruction routes";;
  require_canonical_ids (pkg_consequence_evaluation_route_ids p) "consequence-evaluation routes";;
  require_canonical_ids (pkg_reacquisition_route_ids p) "reacquisition routes";;
  require_canonical_ids (pkg_scaffold_ids p) "reacquisition scaffolds";;
  require_canonical_ids (pkg_recovery_protocol_ids p) "recovery protocols";;
  require_canonical_ids (pkg_provenance_refs p) "retention provenance references";;
  raise_if (negb (uniq (package_route_ids p)))
    ValidationError "provisional route kinds must remain separately identified";;
  raise_if (is_nil (pkg_provenance_refs p))
    ValidationError "retention package requires provenance".

Record RetentionRegistration : Type := MkRetentionRegistration {
  reg_package : RetentionPackage;
  reg_direct_use_routes : list DirectUseRoute;
  reg_reconstruction_routes : list ReconstructionRoute;
  reg_consequence_evaluation_routes : list ConsequenceEvaluationRoute;
  reg_reacquisition_routes : list ReacquisitionRoute;
  reg_scaffolds : list ReacquisitionScaffold;
  reg_recovery_protocols : list RecoveryProtocol;
}.
#[export] Instance RetentionRegistration_eq_dec : EqDecision RetentionRegistration.
Proof. solve_decision. Defined.

Definition exactly_registered `{PinnedRetentionRecord A} (ids : list string) (l : list A)
    (label : string) : result unit :=
  raise_if (map pinned_id l !=? ids)
    ValidationError ("registered " +:+ label +:+ " must exactly match package references").

Definition all_pinned `{PinnedRetentionRecord A} (pins : string * string * string) (l : list A) : bool :=
  forallb (λ r, pinned_pins r ==? pins) l.

Definition registration_source_refs (r : RetentionRegistration) : list (list OwnedMemoryRef) :=
  map (λ x, prt_source_refs (dur_route x)) (reg_direct_use_routes r)
  ++ map (λ x, prt_source_refs (rcr_route x)) (reg_reconstruction_routes r)
  ++ map (λ x, prt_source_refs (cer_route x)) (reg_consequence_evaluation_routes r)
  ++ map (λ x, prt_source_refs (rar_route x)) (reg_reacquisition_routes r).

Definition scaffold_refs (s : ReacquisitionScaffold) : list OwnedMemoryRef :=
  scf_cue_refs s ++ scf_boundary_refs s ++ scf_failure_refs s.

Definition check_scaffold_sources (p : RetentionPackage) (s : ReacquisitionScaffold) : result unit :=
  raise_if (negb (subset (map omr_key (scaffold_refs s)) (map omr_key (pkg_owned_refs p))))
    ValidationError "scaffold sources must be among package-owned references";;
  let procedural := List.filter (λ r, omr_owner r ==? PROCEDURAL) (pkg_owned_refs p) in
  raise_if (negb (subset (scf_ordered_probe_ids s) (map omr_record_id procedural)))
    ValidationError "ordered scaffold probes must resolve to package-owned procedural refs".

Definition validate_registration (r : RetentionRegistration) : result unit :=
  let p := reg_package r in
  exactly_registered (pkg_direct_use_route_ids p) (reg_direct_use_routes r) "direct-use routes";;
  exactly_registered (pkg_reconstruction_route_ids p) (reg_reconstruction_routes r)
    "reconstruction routes";;
  exactly_registered (pkg_consequence_evaluation_route_ids p) (reg_consequence_evaluation_routes r)
    "consequence-evaluation routes";;
  exactly_registered (pkg_reacquisition_route_ids p) (reg_reacquisition_routes r)
    "reacquisition routes";;
  exactly_registered (pkg_scaffold_ids p) (reg_scaffolds r) "reacquisition scaffolds";;
  exactly_registered (pkg_recovery_protocol_ids p) (reg_recovery_protocols r) "recovery protocols";;
  raise_if (negb (all_pinned (pkg_pins p) (reg_direct_use_routes r)
                  && all_pinned (pkg_pins p) (reg_reconstruction_routes r)
                  && all_pinned (pkg_pins p) (reg_consequence_evaluation_routes r)
                  && all_pinned (pkg_pins p) (reg_reacquisition_routes r)
                  && all_pinned (pkg_pins p) (reg_scaffolds r)
                  && all_pinned (pkg_pins p) (reg_recovery_protocols r)))
    ValidationError "registered retention records require exact package pins";;
  raise_if (negb (forallb (λ refs, subset (map omr_key refs) (map omr_key (pkg_owned_refs p)))
                    (registration_source_refs r)))
    ValidationError "route sources must be among package-owned references";;
  for_each (check_scaffold_sources p) (reg_scaffolds r);;
  for_each (λ x,
    raise_if (negb (mem (rar_reacquisition_scaffold_id x) (map scf_id (reg_scaffolds r))))
      ValidationError "reacquisition route references an unregistered scaffold";;
    raise_if (negb (mem (rar_recovery_protocol_id x) (map rpt_id (reg_recovery_protocols r))))
      ValidationError "reacquisition route references an unregistered protocol")
    (reg_reacquisition_routes r).

(** ** Reconstruction sets *)

Record MemoryReconstructionCandidate : Type := MkMemoryReconstructionCandidate {
  mrc_id : string;
  mrc_rank : Z;
  mrc_retention_package_ids : list string;
  mrc_generated_working_structure : json;
  mrc_protected_consequence_class_id : string;
  mrc_historical_fact_ids : list string;
  mrc_generated_detail_ids : list string;
}.

Definition reconstruction_candidate_eqb (x y : MemoryReconstructionCandidate) : bool :=
  (mrc_id x ==? mrc_id y) && (mrc_rank x ==? mrc_rank y)
  && (mrc_retention_package_ids x ==? mrc_retention_package_ids y)
  && json_eqb (mrc_generated_working_structure x) (mrc_generated_working_structure y)
  && (mrc_protected_consequence_class_id x ==? mrc_protected_consequence_class_id y)
  && (mrc_historical_fact_ids x ==? mrc_historical_fact_ids y)
  && (mrc_generated_detail_ids x ==? mrc_generated_detail_ids y).

Definition validate_reconstruction_candidate (c : MemoryReconstructionCandidate) : result unit :=
  raise_if (mrc_rank c <? 0)%Z ValidationError "rank must be nonnegative";;
  raise_if (is_nil (mrc_retention_package_ids c))
    ValidationError "memory reconstruction requires a retention package source";;
  require_canonical_ids (mrc_retention_package_ids c) "reconstruction package ids";;
  require_canonical_ids (mrc_historical_fact_ids c) "reconstruction historical facts";;
  require_canonical_ids (mrc_generated_detail_ids c) "reconstruction generated details";;
  raise_if (intersects (mrc_historical_fact_ids c) (mrc_generated_detail_ids c))
    ValidationError "generated reconstruction detail is not historical fact".

Record MemoryReconstructionSet : Type := MkMemoryReconstructionSet {
  mrs_id : string;
  mrs_cue_ids : list string;
  mrs_scope_fingerprint : string;
  mrs_binding_revision : string;
  mrs_protected_horizon_id : string;
  mrs_candidates : list MemoryReconstructionCandidate;
}.

Definition candidate_rank_key (c : MemoryReconstructionCandidate) : Z * string := (mrc_rank c, mrc_id c).

Definition validate_set (s : MemoryReconstructionSet) : result unit :=
  require_canonical_ids (mrs_cue_ids s) "reconstruction cues";;
  raise_if (negb (canonical (map candidate_rank_key (mrs_candidates s))))
    ValidationError "memory reconstruction candidates require stable rank/id order";;
  raise_if (negb (uniq (map mrc_id (mrs_candidates s))))
    ValidationError "memory reconstruction candidates must be deduplicated".

Definition ambiguous (s : MemoryReconstructionSet) : bool := (1 <? length (mrs_candidates s))%nat.

(** ** Reacquisition *)

Inductive RecoveryBranch : Type := BASELINE | RETAINED.
#[export] Instance RecoveryBranch_eq_dec : EqDecision RecoveryBranch.
Proof. solve_decision. Defined.
Definition RecoveryBranch_value (b : RecoveryBranch) : string :=
  match b with BASELINE => "baseline" | RETAINED => "retained" end.

Record ReacquisitionRequest : Type := MkReacquisitionRequest {
  rreq_id : string;
  rreq_parent_inquiry_id : string;
  rreq_child_inquiry_id : string;
  rreq_branch : RecoveryBranch;
  rreq_pins : RecoveryPins;
  rreq_child_manifest_artifact : ArtifactRef;
  rreq_child_inquiry_manifest_artifact : ArtifactRef;
  rreq_child_context_digest : string;
  rreq_child_policy_version : string;
  rreq_retention_package_id : option string;
  rreq_scaffold_id : option string;
}.
#[export] Instance ReacquisitionRequest_eq_dec : EqDecision ReacquisitionRequest.
Proof. solve_decision. Defined.

Definition validate_request (r : ReacquisitionRequest) : result unit :=
  raise_if (rreq_parent_inquiry_id r ==? rreq_child_inquiry_id r)
    ValidationError "reacquisition child inquiry must be distinct from its parent";;
  raise_if ((rreq_branch r ==? BASELINE)
            && (is_some (rreq_retention_package_id r) || is_some (rreq_scaffold_id r)))
    ValidationError "baseline reacquisition cannot use retained package or scaffold";;
  raise_if ((rreq_branch r ==? RETAINED)
            && negb (is_some (rreq_retention_package_id r) && is_some (rreq_scaffold_id r)))
    ValidationError "retained reacquisition requires package and scaffold".

Record ReacquisitionChildManifest : Type := MkReacquisitionChildManifest {
  rcm_parent_inquiry_id : string;
  rcm_request_id : string;
  rcm_child_inquiry_id : string;
  rcm_pins : RecoveryPins;
  rcm_context_digest : string;
  rcm_policy_version : string;
  rcm_inquiry_manifest_artifact : ArtifactRef;
}.
#[export] Instance ReacquisitionChildManifest_eq_dec : EqDecision ReacquisitionChildManifest.
Proof. solve_decision. Defined.

Definition validate_manifest (m : ReacquisitionChildManifest) : result unit :=
  raise_if (rcm_parent_inquiry_id m ==? rcm_child_inquiry_id m)
    ValidationError "reacquisition child manifest must identify a distinct child".

Record ReacquisitionInquiryLink : Type := MkReacquisitionInquiryLink {
  rlk_id : string;
  rlk_request_id : string;
  rlk_parent_inquiry_id : string;
  rlk_child_inquiry_id : string;
  rlk_child_start_event_id : string;
  rlk_child_start_event_digest : string;
  rlk_child_prefix_sequence : Z;
  rlk_child_prefix_digest : string;
  rlk_child_manifest_artifact : ArtifactRef;
  rlk_child_context_digest : string;
}.
#[export] Instance ReacquisitionInquiryLink_eq_dec : EqDecision ReacquisitionInquiryLink.
Proof. solve_decision. Defined.

Definition validate_inquiry_link (l : ReacquisitionInquiryLink) : result unit :=
  raise_if (rlk_parent_inquiry_id l ==? rlk_child_inquiry_id l)
    ValidationError "reacquisition link must name a distinct child inquiry".

Record RecoveryObservation : Type := MkRecoveryObservation {
  robs_id : string;
  robs_branch : RecoveryBranch;
  robs_reacquisition_request_id : string;
  robs_child_inquiry_id : string;
  robs_child_prefix_sequence : Z;
  robs_child_prefix_digest : string;
  robs_retention_package_id : option string;
  robs_pins : RecoveryPins;
  robs_costs : CostVector;
  robs_logical_probe_ids : list string;
  robs_effect_request_ids : list string;
  robs_measurement_check : CheckReference;
  robs_competence_established : bool;
  robs_competence_check : option CheckReference;
}.
#[export] Instance RecoveryObservation_eq_dec : EqDecision RecoveryObservation.
Proof. solve_decision. Defined.

Definition exceeds_budget (observed budget : CostCoordinate) : bool :=
  (cost_numerator budget * cost_denominator observed
   <? cost_numerator observed * cost_denominator budget)%Z.

(** The exact-count axes must equal the number of cited child records. *)
Definition miscounted (o : RecoveryObservation) (c : CostCoordinate) : bool :=
  let differs (n : nat) :=
    negb (cost_denominator c =? 1)%Z || negb (cost_numerator c =? Z.of_nat n)%Z in
  if coordinate_axis_id c ==? "effects" then differs (length (robs_effect_request_ids o))
  else if coordinate_axis_id c ==? "logical_probes" then differs (length (robs_logical_probe_ids o))
  else false.

Definition validate_observation (o : RecoveryObservation) : result unit :=
  raise_if ((robs_branch o ==? BASELINE) && is_some (robs_retention_package_id o))
    ValidationError "baseline recovery observation cannot name retained material";;
  raise_if ((robs_branch o ==? RETAINED) && is_none (robs_retention_package_id o))
    ValidationError "retained recovery observation requires a retention package";;
  raise_if (robs_competence_established o && is_none (robs_competence_check o))
    ValidationError "established competence requires an independent check reference";;
  raise_if (is_nil (robs_logical_probe_ids o) && is_nil (robs_effect_request_ids o))
    ValidationError "reacquisition observations require measured probe or effect work";;
  require_canonical_ids (robs_logical_probe_ids o) "measured logical probe ids";;
  require_canonical_ids (robs_effect_request_ids o) "measured effect request ids";;
  raise_if (axis_signature (robs_costs o) !=? axis_signature (pins_budget (robs_pins o)))
    ValidationError "observed costs must use the exact recovery-budget axes";;
  raise_if (existsb (λ cb, exceeds_budget cb.1 cb.2)
              (zip (vec_coordinates (robs_costs o)) (vec_coordinates (pins_budget (robs_pins o)))))
    ValidationError "observed recovery cost exceeds the pinned budget";;
  raise_if (existsb (miscounted o) (vec_coordinates (robs_costs o)))
    ValidationError "axis cost must equal its exact cited child-record count".

(** Every field but [measurement_check]. *)
Definition measurement_proposition_id (o : RecoveryObservation) : string :=
  content_fingerprint "rci.recovery-observation-measurement.v1"
    (JObject [("schema_version", JInt 1); ("id", to_json (robs_id o));
              ("branch", JString (RecoveryBranch_value (robs_branch o)));
              ("reacquisition_request_id", to_json (robs_reacquisition_request_id o));
              ("child_inquiry_id", to_json (robs_child_inquiry_id o));
              ("child_prefix_sequence", to_json (robs_child_prefix_sequence o));
              ("child_prefix_digest", to_json (robs_child_prefix_digest o));
              ("retention_package_id", to_json (robs_retention_package_id o));
              ("pins", to_json (robs_pins o)); ("costs", to_json (robs_costs o));
              ("logical_probe_ids", to_json (robs_logical_probe_ids o));
              ("effect_request_ids", to_json (robs_effect_request_ids o));
              ("competence_established", to_json (robs_competence_established o));
              ("competence_check", to_json (robs_competence_check o))]).

(** ** Frontiers and comparisons *)

Record RecoveryFrontierPoint : Type := MkRecoveryFrontierPoint {
  rfp_observation_id : string;
  rfp_costs : CostVector;
}.
#[export] Instance RecoveryFrontierPoint_eq_dec : EqDecision RecoveryFrontierPoint.
Proof. solve_decision. Defined.

Record RecoveryFrontier : Type := MkRecoveryFrontier {
  rfr_branch : RecoveryBranch;
  rfr_pins : RecoveryPins;
  rfr_source_observation_ids : list string;
  rfr_points : list RecoveryFrontierPoint;
}.
#[export] Instance RecoveryFrontier_eq_dec : EqDecision RecoveryFrontier.
Proof. solve_decision. Defined.

Definition validate_frontier (f : RecoveryFrontier) : result unit :=
  require_canonical_ids (rfr_source_observation_ids f) "frontier source observations";;
  raise_if (negb (uniq (map rfp_observation_id (rfr_points f))))
    ValidationError "frontier points must be deduplicated";;
  raise_if (negb (subset (map rfp_observation_id (rfr_points f)) (rfr_source_observation_ids f)))
    ValidationError "frontier points must refer to source observations".

Inductive RecoveryComparisonOutcome : Type := STRICT_ADVANTAGE | NO_ADVANTAGE | RC_INCOMPARABLE.
#[export] Instance RecoveryComparisonOutcome_eq_dec : EqDecision RecoveryComparisonOutcome.
Proof. solve_decision. Defined.
Definition RecoveryComparisonOutcome_value (o : RecoveryComparisonOutcome) : string :=
  match o with
  | STRICT_ADVANTAGE => "strict_advantage" | NO_ADVANTAGE => "no_advantage"
  | RC_INCOMPARABLE => "incomparable"
  end.

Record FrontierCoverage : Type := MkFrontierCoverage {
  fcov_baseline_observation_id : string;
  fcov_retained_observation_id : string;
  fcov_strict : bool;
}.
#[export] Instance FrontierCoverage_eq_dec : EqDecision FrontierCoverage.
Proof. solve_decision. Defined.

(** The standing is the constant [provisional_soft]. *)
Record RecoveryComparison : Type := MkRecoveryComparison {
  rcmp_id : string;
  rcmp_baseline_frontier : RecoveryFrontier;
  rcmp_retained_frontier : RecoveryFrontier;
  rcmp_outcome : RecoveryComparisonOutcome;
  rcmp_coverage : list FrontierCoverage;
  rcmp_comparison_check : CheckReference;
}.
#[export] Instance RecoveryComparison_eq_dec : EqDecision RecoveryComparison.
Proof. solve_decision. Defined.

#[export] Instance RecoveryFrontierPoint_to_json : ToJson RecoveryFrontierPoint := λ p,
  JObject [("schema_version", JInt 1); ("observation_id", to_json (rfp_observation_id p));
           ("costs", to_json (rfp_costs p))].
#[export] Instance RecoveryFrontier_to_json : ToJson RecoveryFrontier := λ f,
  JObject [("schema_version", JInt 1); ("branch", JString (RecoveryBranch_value (rfr_branch f)));
           ("pins", to_json (rfr_pins f));
           ("source_observation_ids", to_json (rfr_source_observation_ids f));
           ("points", to_json (rfr_points f))].
#[export] Instance FrontierCoverage_to_json : ToJson FrontierCoverage := λ c,
  JObject [("schema_version", JInt 1);
           ("baseline_observation_id", to_json (fcov_baseline_observation_id c));
           ("retained_observation_id", to_json (fcov_retained_observation_id c));
           ("strict", to_json (fcov_strict c))].

(** Every field but [comparison_check]. *)
Definition comparison_proposition_id (c : RecoveryComparison) : string :=
  content_fingerprint "rci.recovery-comparison.v1"
    (JObject [("schema_version", JInt 1); ("id", to_json (rcmp_id c));
              ("baseline_frontier", to_json (rcmp_baseline_frontier c));
              ("retained_frontier", to_json (rcmp_retained_frontier c));
              ("outcome", JString (RecoveryComparisonOutcome_value (rcmp_outcome c)));
              ("coverage", to_json (rcmp_coverage c)); ("standing", JString "provisional_soft")]).
