(* ===== verification/Recovery.v ===== *)
(** * Measured recovery: [src/rci/memory/recovery.py], [checks.py], [reconstruction.py]

    Exact Pareto arithmetic on cost vectors, the frontier of successful recovery
    observations, the comparison of two frontiers, and the checker that recomputes
    the comparison with arithmetic of its own.  Theorems: a derived frontier is
    exactly the set of nondominated successes, whatever the order of the
    observations; the two implementations agree, so that a comparison the builder
    makes is always accepted; and a strict advantage means what it says. *)

From S2P Require Import Prelude Digest Model Claims Warrant Effects Probes Dumps Memory.

(** ** [recovery.py] *)

Inductive CostRelation : Type :=
| LEFT_STRICTLY_BETTER | RIGHT_STRICTLY_BETTER | CR_EQUAL | CR_INCOMPARABLE.
#[export] Instance CostRelation_eq_dec : EqDecision CostRelation.
Proof. solve_decision. Defined.

Definition incompatible {A} (msg : string) : result A := raise RecoveryCompatibilityError msg.

(** -1, 0 or 1, by integer cross multiplication *)
Definition sign_of (left right : Z) : Z :=
  ((if right <? left then 1 else 0) - (if left <? right then 1 else 0))%Z.

Definition compare_cost_coordinates (left right : CostCoordinate) : result Z :=
  raise_if (cost_axis left !=? cost_axis right)
    RecoveryCompatibilityError "cost coordinates use different typed axes";;
  Ok (sign_of (cost_numerator left * cost_denominator right)
              (cost_numerator right * cost_denominator left)).

Definition compare_cost_vectors (left right : CostVector) : result CostRelation :=
  raise_if (axis_signature left !=? axis_signature right)
    RecoveryCompatibilityError "cost vectors use different named axes";;
  directions ← traverse (λ lr, compare_cost_coordinates lr.1 lr.2)
                 (zip (vec_coordinates left) (vec_coordinates right));
  let left_no_worse := forallb (λ d, d <=? 0)%Z directions in
  let right_no_worse := forallb (λ d, 0 <=? d)%Z directions in
  Ok (if left_no_worse && right_no_worse then CR_EQUAL
      else if left_no_worse then LEFT_STRICTLY_BETTER
      else if right_no_worse then RIGHT_STRICTLY_BETTER
      else CR_INCOMPARABLE).

(** The first nonzero direction. *)
Fixpoint first_direction (l : list (CostCoordinate * CostCoordinate)) : result Z :=
  match l with
  | [] => Ok 0%Z
  | (a, b) :: l =>
    d ← compare_cost_coordinates a b; if (d =? 0)%Z then first_direction l else Ok d
  end.

Definition compare_vectors_lexicographically (left right : CostVector) : result Z :=
  raise_if (axis_signature left !=? axis_signature right)
    RecoveryCompatibilityError "cannot order vectors with different axes";;
  first_direction (zip (vec_coordinates left) (vec_coordinates right)).

(** [(a > b) - (a < b)] on strings *)
Definition string_sign (a b : string) : Z :=
  match compare a b with Lt => -1 | Eq => 0 | Gt => 1 end.

Definition compare_points (left right : RecoveryFrontierPoint) : result Z :=
  d ← compare_vectors_lexicographically (rfp_costs left) (rfp_costs right);
  Ok (if (d =? 0)%Z then string_sign (rfp_observation_id left) (rfp_observation_id right) else d).

(** The sort key of [cmp_to_key(_compare_points)].  Every list the code sorts this
    way holds points of one axis signature, on which the comparison cannot raise. *)
Definition points_leb (left right : RecoveryFrontierPoint) : bool :=
  match compare_points left right with Ok d => (d <=? 0)%Z | Raise _ => true end.

Definition collect_observations : list RecoveryObservation → result (gmap string RecoveryObservation) :=
  collect_by robs_id (λ prior o, prior ==? o)
    (Exn RecoveryCompatibilityError "recovery observation identity has conflicting contents") ∅.

Definition deduplicate_observations (l : list RecoveryObservation) : result (list RecoveryObservation) :=
  by_id ← collect_observations l; Ok (values_by robs_id by_id).

Definition point_of (o : RecoveryObservation) : RecoveryFrontierPoint :=
  MkRecoveryFrontierPoint (robs_id o) (robs_costs o).

Definition relation_is (r : CostRelation) (a b : CostVector) : result bool :=
  x ← compare_cost_vectors a b; Ok (x ==? r).

(** [any(f(x) for x in l)], for an [f] that may raise *)
Fixpoint any_result {A} (f : A → result bool) (l : list A) : result bool :=
  match l with
  | [] => Ok false
  | x :: l => b ← f x; if b : bool then Ok true else any_result f l
  end.

(** [unique_points]: the first point of each cost vector *)
Fixpoint unique_points (kept l : list RecoveryFrontierPoint) : result (list RecoveryFrontierPoint) :=
  match l with
  | [] => Ok kept
  | p :: l =>
    duplicate ← any_result (λ prior, relation_is CR_EQUAL (rfp_costs p) (rfp_costs prior)) kept;
    unique_points (if duplicate : bool then kept else kept ++ [p]) l
  end.

Definition dominated_by (p other : RecoveryFrontierPoint) : result bool :=
  if rfp_observation_id other ==? rfp_observation_id p then Ok false
  else relation_is LEFT_STRICTLY_BETTER (rfp_costs other) (rfp_costs p).

Fixpoint nondominated (all l : list RecoveryFrontierPoint) : result (list RecoveryFrontierPoint) :=
  match l with
  | [] => Ok []
  | p :: l =>
    dominated ← any_result (dominated_by p) all;
    rest ← nondominated all l;
    Ok (if dominated : bool then rest else p :: rest)
  end.

Definition check_compatible (branch : RecoveryBranch) (pins : RecoveryPins) (o : RecoveryObservation) :
    result unit :=
  raise_if (robs_branch o !=? branch)
    RecoveryCompatibilityError "frontier observations have different branches";;
  raise_if (robs_pins o !=? pins)
    RecoveryCompatibilityError "frontier observations have different recovery pins";;
  raise_if (axis_signature (robs_costs o) !=? axis_signature (pins_budget pins))
    RecoveryCompatibilityError "frontier observation axes differ from budget axes".

Definition derive_recovery_frontier (branch : RecoveryBranch) (pins : RecoveryPins)
    (observations : list RecoveryObservation) : result RecoveryFrontier :=
  deduplicated ← deduplicate_observations observations;
  for_each (check_compatible branch pins) deduplicated;;
  let successful := map point_of (List.filter robs_competence_established deduplicated) in
  unique ← unique_points [] (sort_by rfp_observation_id successful);
  points ← nondominated unique unique;
  let frontier := MkRecoveryFrontier branch pins (map robs_id deduplicated) (sort_with points_leb points) in
  validate_frontier frontier;; Ok frontier.

(** Does some later pair fail to be incomparable? *)
Fixpoint comparable_points (l : list RecoveryFrontierPoint) : result bool :=
  match l with
  | [] => Ok false
  | p :: l =>
    here ← any_result (λ q, b ← relation_is CR_INCOMPARABLE (rfp_costs p) (rfp_costs q); Ok (negb b)) l;
    if here : bool then Ok true else comparable_points l
  end.

Definition on_budget_axes (f : RecoveryFrontier) : bool :=
  forallb (λ p, axis_signature (rfp_costs p) ==? axis_signature (pins_budget (rfr_pins f))) (rfr_points f).

Definition check_recovery_frontier (f : RecoveryFrontier) : result (bool * string) :=
  if negb (on_budget_axes f) then Ok (false, "frontier point axes differ from pinned budget axes")
  else if sort_with points_leb (rfr_points f) !=? rfr_points f then
    Ok (false, "frontier points are not in canonical exact order")
  else
    bad ← comparable_points (rfr_points f);
    Ok (if bad : bool then (false, "frontier contains equal or dominated points")
        else (true, "frontier points are exact, canonical, and pairwise nondominated")).

(** The inner loop: the first retained point that is no worse, whether it is
    strictly better, and whether an incomparable one was met before it. *)
Fixpoint find_cover (b : RecoveryFrontierPoint) (retained : list RecoveryFrontierPoint) :
    result (option (RecoveryFrontierPoint * bool) * bool) :=
  match retained with
  | [] => Ok (None, false)
  | r :: retained =>
    relation ← compare_cost_vectors (rfp_costs r) (rfp_costs b);
    match relation with
    | LEFT_STRICTLY_BETTER => Ok (Some (r, true), false)
    | CR_EQUAL => Ok (Some (r, false), false)
    | CR_INCOMPARABLE => rest ← find_cover b retained; Ok (rest.1, true)
    | RIGHT_STRICTLY_BETTER => find_cover b retained
    end
  end.

Definition covering (b r : RecoveryFrontierPoint) (strict : bool) : FrontierCoverage :=
  MkFrontierCoverage (rfp_observation_id b) (rfp_observation_id r) strict.

(** The outer loop: the coverage and whether an incomparable pair was met. *)
Fixpoint cover_all (baseline retained : list RecoveryFrontierPoint) : result (list FrontierCoverage * bool) :=
  match baseline with
  | [] => Ok ([], false)
  | b :: baseline =>
    found ← find_cover b retained;
    rest ← cover_all baseline retained;
    Ok (match found.1 with Some (r, strict) => covering b r strict :: rest.1 | None => rest.1 end,
        found.2 || rest.2)
  end.

(** [outcome, coverage] from the completed loops *)
Definition outcome_of (baseline : list RecoveryFrontierPoint) (coverage : list FrontierCoverage)
    (observed_incomparability : bool) : RecoveryComparisonOutcome * list FrontierCoverage :=
  let complete := negb (is_nil baseline) && (length coverage =? length baseline)%nat in
  if complete && existsb fcov_strict coverage then (STRICT_ADVANTAGE, coverage)
  else if observed_incomparability then (RC_INCOMPARABLE, [])
  else (NO_ADVANTAGE, []).

Definition evaluate_frontiers (baseline retained : RecoveryFrontier) :
    result (RecoveryComparisonOutcome * list FrontierCoverage) :=
  raise_if (rfr_branch baseline !=? BASELINE)
    RecoveryCompatibilityError "baseline frontier has the wrong branch";;
  raise_if (rfr_branch retained !=? RETAINED)
    RecoveryCompatibilityError "retained frontier has the wrong branch";;
  raise_if (rfr_pins baseline !=? rfr_pins retained)
    RecoveryCompatibilityError "recovery frontier pins do not match exactly";;
  for_each (λ f, r ← check_recovery_frontier f; raise_if (negb r.1) RecoveryCompatibilityError r.2)
    [baseline; retained];;
  c ← cover_all (rfr_points baseline) (rfr_points retained);
  Ok (outcome_of (rfr_points baseline) c.1 c.2).

(** ** [checks.py]: the independent checker *)

Inductive Relation : Type := RETAINED_BETTER | REL_EQUAL | BASELINE_BETTER | REL_INCOMPARABLE.
#[export] Instance Relation_eq_dec : EqDecision Relation.
Proof. solve_decision. Defined.

(** The loop over the coordinates, with its two flags. *)
Fixpoint relation_flags (l : list (CostCoordinate * CostCoordinate)) (retained_ok baseline_ok : bool) :
    result (bool * bool) :=
  match l with
  | [] => Ok (retained_ok, baseline_ok)
  | (r, b) :: l =>
    raise_if (cost_axis r !=? cost_axis b)
      ValueError "independent checker found mismatched typed axes";;
    let retained_scaled := (cost_numerator r * cost_denominator b)%Z in
    let baseline_scaled := (cost_numerator b * cost_denominator r)%Z in
    relation_flags l (if (baseline_scaled <? retained_scaled)%Z then false else retained_ok)
                     (if (retained_scaled <? baseline_scaled)%Z then false else baseline_ok)
  end.

Definition vector_relation (retained baseline : CostVector) : result Relation :=
  raise_if (axis_signature retained !=? axis_signature baseline)
    ValueError "independent checker found mismatched cost axes";;
  flags ← relation_flags (zip (vec_coordinates retained) (vec_coordinates baseline)) true true;
  Ok (if flags.1 && flags.2 then REL_EQUAL
      else if flags.1 then RETAINED_BETTER
      else if flags.2 then BASELINE_BETTER
      else REL_INCOMPARABLE).

Fixpoint first_difference (l : list (CostCoordinate * CostCoordinate)) : option Z :=
  match l with
  | [] => None
  | (a, b) :: l =>
    let left_scaled := (cost_numerator a * cost_denominator b)%Z in
    let right_scaled := (cost_numerator b * cost_denominator a)%Z in
    if (left_scaled =? right_scaled)%Z then first_difference l
    else Some (if (left_scaled <? right_scaled)%Z then -1 else 1)%Z
  end.

Definition point_order (left right : RecoveryFrontierPoint) : result Z :=
  raise_if (axis_signature (rfp_costs left) !=? axis_signature (rfp_costs right))
    ValueError "independent checker cannot order mismatched cost axes";;
  Ok match first_difference (zip (vec_coordinates (rfp_costs left)) (vec_coordinates (rfp_costs right))) with
     | Some d => d
     | None => string_sign (rfp_observation_id left) (rfp_observation_id right)
     end.

Definition order_leb (left right : RecoveryFrontierPoint) : bool :=
  match point_order left right with Ok d => (d <=? 0)%Z | Raise _ => true end.

Fixpoint related_points (l : list RecoveryFrontierPoint) : result bool :=
  match l with
  | [] => Ok false
  | p :: l =>
    here ← any_result (λ q, r ← vector_relation (rfp_costs p) (rfp_costs q); Ok (r !=? REL_INCOMPARABLE)) l;
    if here : bool then Ok true else related_points l
  end.

Definition check_frontier (f : RecoveryFrontier) : result (bool * string) :=
  if negb (on_budget_axes f) then
    Ok (false, "independent checker found frontier axes outside the pinned budget")
  else if sort_with order_leb (rfr_points f) !=? rfr_points f then
    Ok (false, "independent checker found noncanonical frontier ordering")
  else
    bad ← related_points (rfr_points f);
    Ok (if bad : bool then (false, "independent checker found equal or dominated frontier points")
        else (true, "frontier is canonical and pairwise nondominated")).

Fixpoint find_witness (b : RecoveryFrontierPoint) (retained : list RecoveryFrontierPoint) :
    result (option (RecoveryFrontierPoint * bool) * bool) :=
  match retained with
  | [] => Ok (None, false)
  | r :: retained =>
    relation ← vector_relation (rfp_costs r) (rfp_costs b);
    match relation with
    | RETAINED_BETTER => Ok (Some (r, true), false)
    | REL_EQUAL => Ok (Some (r, false), false)
    | REL_INCOMPARABLE => rest ← find_witness b retained; Ok (rest.1, true)
    | BASELINE_BETTER => find_witness b retained
    end
  end.

Fixpoint expected_coverage (baseline retained : list RecoveryFrontierPoint) :
    result (list FrontierCoverage * bool) :=
  match baseline with
  | [] => Ok ([], false)
  | b :: baseline =>
    found ← find_witness b retained;
    rest ← expected_coverage baseline retained;
    Ok (match found.1 with Some (r, strict) => covering b r strict :: rest.1 | None => rest.1 end,
        found.2 || rest.2)
  end.

(** The [try]/[except ValueError] around the relation answers instead of raising. *)
Definition check_recovery_comparison (c : RecoveryComparison) : result (bool * string) :=
  let baseline := rcmp_baseline_frontier c in
  let retained := rcmp_retained_frontier c in
  if rfr_branch baseline !=? BASELINE then
    Ok (false, "independent checker found the wrong baseline branch")
  else if rfr_branch retained !=? RETAINED then
    Ok (false, "independent checker found the wrong retained branch")
  else if rfr_pins baseline !=? rfr_pins retained then
    Ok (false, "independent checker found mismatched recovery pins")
  else
    vb ← check_frontier baseline;
    if negb vb.1 then Ok vb
    else
      vr ← check_frontier retained;
      if negb vr.1 then Ok vr
      else
        match expected_coverage (rfr_points baseline) (rfr_points retained) with
        | Raise x => if is_value_error (exn_class x) then Ok (false, exn_message x) else Raise x
        | Ok e =>
          let (expected_outcome, coverage) := outcome_of (rfr_points baseline) e.1 e.2 in
          if rcmp_outcome c !=? expected_outcome then
            Ok (false, "independent checker found a contradictory comparison outcome")
          else if rcmp_coverage c !=? coverage then
            Ok (false, "independent checker found contradictory frontier coverage")
          else Ok (true, "independent integer checker validated the provisional comparison")
        end.

(** [RecoveryComparison]'s validator runs the independent checker. *)
Definition validate_comparison_shape (c : RecoveryComparison) : result unit :=
  raise_if (rfr_branch (rcmp_baseline_frontier c) !=? BASELINE)
    ValidationError "comparison baseline frontier has the wrong branch";;
  raise_if (rfr_branch (rcmp_retained_frontier c) !=? RETAINED)
    ValidationError "comparison retained frontier has the wrong branch";;
  let baseline_ids := map rfp_observation_id (rfr_points (rcmp_baseline_frontier c)) in
  let retained_ids := map rfp_observation_id (rfr_points (rcmp_retained_frontier c)) in
  raise_if (negb (uniq (map fcov_baseline_observation_id (rcmp_coverage c))))
    ValidationError "each baseline frontier point may have one coverage witness";;
  raise_if (existsb (λ x, negb (mem (fcov_baseline_observation_id x) baseline_ids)
                          || negb (mem (fcov_retained_observation_id x) retained_ids))
                    (rcmp_coverage c))
    ValidationError "comparison coverage must refer to its frontier points";;
  v ← check_recovery_comparison c;
  raise_if (negb v.1) ValidationError v.2.

Definition compare_recovery_frontiers (comparison_id : string) (baseline retained : RecoveryFrontier)
    (comparison_check : CheckReference) : result RecoveryComparison :=
  e ← evaluate_frontiers baseline retained;
  let c := MkRecoveryComparison comparison_id baseline retained e.1 e.2 comparison_check in
  validate_comparison_shape c;; Ok c.

(** ** [reconstruction.py] *)

Definition collect_candidates :
    list MemoryReconstructionCandidate → result (gmap string MemoryReconstructionCandidate) :=
  collect_by mrc_id reconstruction_candidate_eqb
    (Exn ReconstructionConflictError "memory reconstruction candidate has conflicting contents") ∅.

Definition build_memory_reconstruction_set (id : string) (cue_ids : list string)
    (scope_fingerprint binding_revision protected_horizon_id : string)
    (candidates : list MemoryReconstructionCandidate) : result MemoryReconstructionSet :=
  by_id ← collect_candidates candidates;
  let s := MkMemoryReconstructionSet id cue_ids scope_fingerprint binding_revision
             protected_horizon_id (sort_by candidate_rank_key (map_to_list by_id).*2) in
  validate_set s;; Ok s.

(** ** The order on cost vectors *)

Definition coordinate_leb (x y : CostCoordinate) : bool :=
  (cost_numerator x * cost_denominator y <=? cost_numerator y * cost_denominator x)%Z.

(** No coordinate of [a] costs more than [b]'s. *)
Definition no_worse (a b : CostVector) : bool :=
  forallb (λ xy, coordinate_leb xy.1 xy.2) (zip (vec_coordinates a) (vec_coordinates b)).

Definition relation_of (left_no_worse right_no_worse : bool) : CostRelation :=
  if left_no_worse && right_no_worse then CR_EQUAL
  else if left_no_worse then LEFT_STRICTLY_BETTER
  else if right_no_worse then RIGHT_STRICTLY_BETTER
  else CR_INCOMPARABLE.

Definition same_axes (a b : CostVector) : Prop := axis_signature a = axis_signature b.

Lemma axis_key_inj a b : axis_key a = axis_key b → a = b.
Proof. destruct a, b. unfold axis_key. cbn. by intros [= -> ->]. Qed.

(** Equal signatures pair up coordinates of equal axes. *)
Lemma same_axes_zip a b :
  same_axes a b →
  Forall (λ xy, cost_axis xy.1 = cost_axis xy.2) (zip (vec_coordinates a) (vec_coordinates b)).
Proof.
  unfold same_axes, axis_signature. generalize (vec_coordinates a) (vec_coordinates b).
  induction l as [|x l IH]; intros [|y k]; cbn [map zip]; try done; try by constructor.
  intros H. injection H as H1 H2 H3. constructor; [|by apply IH].
  apply axis_key_inj. unfold axis_key. cbn. by rewrite H1, H2.
Qed.

Lemma sign_of_le l r : (sign_of l r <=? 0)%Z = (l <=? r)%Z.
Proof. unfold sign_of. destruct (Z.ltb_spec r l), (Z.ltb_spec l r), (Z.leb_spec l r); cbn; lia. Qed.
Lemma sign_of_ge l r : (0 <=? sign_of l r)%Z = (r <=? l)%Z.
Proof. unfold sign_of. destruct (Z.ltb_spec r l), (Z.ltb_spec l r), (Z.leb_spec r l); cbn; lia. Qed.

Definition direction_of (xy : CostCoordinate * CostCoordinate) : Z :=
  sign_of (cost_numerator xy.1 * cost_denominator xy.2) (cost_numerator xy.2 * cost_denominator xy.1).

Lemma compare_cost_coordinates_same x y :
  cost_axis x = cost_axis y → compare_cost_coordinates x y = Ok (direction_of (x, y)).
Proof. intros H. unfold compare_cost_coordinates. by rewrite (proj2 (neqb_false _ _) H). Qed.

Lemma forallb_swap a b :
  forallb (λ xy, coordinate_leb xy.2 xy.1) (zip (vec_coordinates a) (vec_coordinates b)) = no_worse b a.
Proof.
  unfold no_worse. generalize (vec_coordinates a) (vec_coordinates b).
  induction l as [|x l IH]; intros [|y k]; cbn; try done. by rewrite IH.
Qed.

Lemma forallb_eq {A} (p q : A → bool) l : (∀ x, p x = q x) → forallb p l = forallb q l.
Proof. intros H. induction l as [|x l IH]; cbn; [done|]. by rewrite H, IH. Qed.

Lemma forallb_map {A B} (f : A → B) (p : B → bool) l : forallb p (map f l) = forallb (λ x, p (f x)) l.
Proof. induction l as [|x l IH]; cbn; congruence. Qed.

Lemma compare_cost_vectors_spec a b :
  same_axes a b → compare_cost_vectors a b = Ok (relation_of (no_worse a b) (no_worse b a)).
Proof.
  intros Hs. unfold compare_cost_vectors. rewrite (proj2 (neqb_false _ _) Hs). cbn -[zip].
  rewrite (traverse_map _ direction_of).
  2:{ eapply Forall_impl; [by apply same_axes_zip|]. intros [x y] Hxy.
      by apply compare_cost_coordinates_same. }
  cbn -[zip]. rewrite <-(forallb_swap a b), !forallb_map. unfold no_worse, relation_of, direction_of.
  assert (∀ l, forallb (λ xy : CostCoordinate * CostCoordinate,
      sign_of (cost_numerator xy.1 * cost_denominator xy.2) (cost_numerator xy.2 * cost_denominator xy.1) <=? 0)%Z l
      = forallb (λ xy, coordinate_leb xy.1 xy.2) l) as ->
    by (intros l; apply forallb_eq; intros xy; apply sign_of_le).
  assert (∀ l, forallb (λ xy : CostCoordinate * CostCoordinate,
      0 <=? sign_of (cost_numerator xy.1 * cost_denominator xy.2) (cost_numerator xy.2 * cost_denominator xy.1))%Z l
      = forallb (λ xy, coordinate_leb xy.2 xy.1) l) as ->
    by (intros l; apply forallb_eq; intros xy; apply sign_of_ge).
  done.
Qed.

Lemma relation_flags_spec l r b :
  Forall (λ xy : CostCoordinate * CostCoordinate, cost_axis xy.1 = cost_axis xy.2) l →
  relation_flags l r b = Ok (r && forallb (λ xy, coordinate_leb xy.1 xy.2) l,
                             b && forallb (λ xy, coordinate_leb xy.2 xy.1) l).
Proof.
  intros Hl. revert r b. induction Hl as [|[x y] l Hx Hl IH]; intros r b; cbn.
  - by rewrite !andb_true_r.
  - cbn in Hx. rewrite (proj2 (neqb_false _ _) Hx). cbn. rewrite IH. unfold coordinate_leb.
    do 2 f_equal.
    + destruct (Z.ltb_spec (cost_numerator y * cost_denominator x) (cost_numerator x * cost_denominator y)),
        (Z.leb_spec (cost_numerator x * cost_denominator y) (cost_numerator y * cost_denominator x));
        try lia; by destruct r.
    + destruct (Z.ltb_spec (cost_numerator x * cost_denominator y) (cost_numerator y * cost_denominator x)),
        (Z.leb_spec (cost_numerator y * cost_denominator x) (cost_numerator x * cost_denominator y));
        try lia; by destruct b.
Qed.

(** The checker's relation, read as the builder's. *)
Definition as_cost_relation (r : Relation) : CostRelation :=
  match r with
  | RETAINED_BETTER => LEFT_STRICTLY_BETTER | REL_EQUAL => CR_EQUAL
  | BASELINE_BETTER => RIGHT_STRICTLY_BETTER | REL_INCOMPARABLE => CR_INCOMPARABLE
  end.

Lemma vector_relation_spec a b :
  same_axes a b →
  ∃ r, vector_relation a b = Ok r ∧ as_cost_relation r = relation_of (no_worse a b) (no_worse b a).
Proof.
  intros Hs. unfold vector_relation. rewrite (proj2 (neqb_false _ _) Hs). cbn -[zip].
  rewrite relation_flags_spec by (by apply same_axes_zip). cbn -[zip].
  rewrite (forallb_swap a b). fold (no_worse a b). eexists; split; [done|].
  by destruct (no_worse a b), (no_worse b a).
Qed.

Lemma vector_relation_agrees a b r :
  vector_relation a b = Ok r ↔ compare_cost_vectors a b = Ok (as_cost_relation r).
Proof.
  destruct (axis_signature a ==? axis_signature b) eqn:E.
  - apply bool_decide_eq_true in E. destruct (vector_relation_spec a b E) as (r' & -> & Hr').
    rewrite compare_cost_vectors_spec by done. rewrite <-Hr'. split; [by intros [= ->]|].
    intros [= H]. by destruct r, r'.
  - unfold vector_relation, compare_cost_vectors. rewrite E. done.
Qed.

(** ** The order on frontier points *)

Lemma first_difference_direction l :
  Forall (λ xy : CostCoordinate * CostCoordinate, cost_axis xy.1 = cost_axis xy.2) l →
  first_direction l = Ok (default 0%Z (first_difference l)) ∧ first_difference l ≠ Some 0%Z.
Proof.
  induction 1 as [|[x y] l Hx Hl IH]; [done|]. cbn in Hx |- *.
  rewrite compare_cost_coordinates_same by done. unfold direction_of. cbn -[Z.mul].
  unfold sign_of.
  destruct (Z.ltb_spec (cost_numerator y * cost_denominator x) (cost_numerator x * cost_denominator y)),
    (Z.ltb_spec (cost_numerator x * cost_denominator y) (cost_numerator y * cost_denominator x)),
    (Z.eqb_spec (cost_numerator x * cost_denominator y) (cost_numerator y * cost_denominator x));
    try lia; cbn; by try exact IH.
Qed.

Lemma point_order_agrees p q :
  is_ok (point_order p q) = is_ok (compare_points p q) ∧
  ∀ d, point_order p q = Ok d ↔ compare_points p q = Ok d.
Proof.
  unfold point_order, compare_points, compare_vectors_lexicographically.
  destruct (axis_signature (rfp_costs p) ==? axis_signature (rfp_costs q)) eqn:E; cbn -[zip]; [|done].
  apply bool_decide_eq_true in E. destruct (first_difference_direction _ (same_axes_zip _ _ E)) as [-> H0].
  destruct (first_difference _) as [d|] eqn:Ed; cbn; [|done].
  destruct (Z.eqb_spec d 0) as [->|]; [by destruct H0|]. done.
Qed.

Lemma order_leb_agrees p q : order_leb p q = points_leb p q.
Proof.
  unfold order_leb, points_leb. destruct (point_order_agrees p q) as [Ho Hd].
  destruct (point_order p q) as [d|e] eqn:E.
  - by rewrite (proj1 (Hd d) eq_refl).
  - destruct (compare_points p q); done.
Qed.

(** ** Computations that answer alike, whatever error they raise *)

Definition same_answer {A} : relation (result A) := λ m n, ∀ x, m = Ok x ↔ n = Ok x.
Infix "≈" := same_answer (at level 70).

#[export] Instance same_answer_equiv {A} : Equivalence (@same_answer A).
Proof.
  split.
  - by intros m x.
  - intros m n H x. by rewrite (H x).
  - intros m n k H1 H2 x. by rewrite (H1 x).
Qed.

#[export] Instance bind_same_answer {A B} :
  Proper (pointwise_relation A same_answer ==> same_answer ==> same_answer) (mbind (M := result) (B := B)).
Proof.
  intros f g Hfg m n Hmn y. rewrite !bind_ok. setoid_rewrite (Hmn _). split.
  - intros (x & Hx & Hy). exists x. split; [done|]. by apply (Hfg x).
  - intros (x & Hx & Hy). exists x. split; [done|]. by apply (Hfg x).
Qed.

Lemma raise_same_answer {A} e e' : Raise (A := A) e ≈ Raise e'.
Proof. by intros x. Qed.

(** One computation answers a translation of the other's answer. *)
Lemma bind_translated {A B C} (f : A → B) (m : result A) (n : result B) (g : A → result C) (h : B → result C) :
  (∀ x, m = Ok x ↔ n = Ok (f x)) → (∀ y, n = Ok y → ∃ x, y = f x) → (∀ x, g x ≈ h (f x)) →
  (m ≫= g) ≈ (n ≫= h).
Proof.
  intros Hmn Hf Hg z. rewrite !bind_ok. split.
  - intros (x & Hx & Hz). exists (f x). split; [by apply Hmn|by apply Hg].
  - intros (y & Hy & Hz). destruct (Hf y Hy) as [x ->]. exists x. split; [by apply Hmn|by apply Hg].
Qed.

Lemma as_cost_relation_onto r : ∃ x, r = as_cost_relation x.
Proof.
  destruct r; [by exists RETAINED_BETTER|by exists BASELINE_BETTER|by exists REL_EQUAL|by exists REL_INCOMPARABLE].
Qed.

Lemma relation_bind {C} a b (g : Relation → result C) (h : CostRelation → result C) :
  (∀ r, g r ≈ h (as_cost_relation r)) →
  (vector_relation a b ≫= g) ≈ (compare_cost_vectors a b ≫= h).
Proof.
  apply bind_translated; [intros x; apply vector_relation_agrees|]. intros y _. apply as_cost_relation_onto.
Qed.

Lemma bind_result_assoc {A B C} (m : result A) (f : A → result B) (g : B → result C) :
  (m ≫= f) ≫= g = m ≫= (λ x, f x ≫= g).
Proof. by destruct m. Qed.

Lemma bind_same {A B} (m n : result A) (f g : A → result B) :
  m ≈ n → (∀ x, f x ≈ g x) → (m ≫= f) ≈ (n ≫= g).
Proof. intros Hm Hf. by apply bind_same_answer. Qed.

Lemma any_result_same {A} (f g : A → result bool) l :
  (∀ x, f x ≈ g x) → any_result f l ≈ any_result g l.
Proof.
  intros Hfg. induction l as [|x l IH]; cbn [any_result]; [done|].
  apply bind_same; [apply Hfg|]. intros []; [done|exact IH].
Qed.

Lemma related_points_agrees l : related_points l ≈ comparable_points l.
Proof.
  induction l as [|p l IH]; cbn [related_points comparable_points]; [done|].
  apply bind_same; [|intros []; [done|exact IH]].
  apply any_result_same. intros q. unfold relation_is. rewrite bind_result_assoc.
  apply relation_bind. by intros [].
Qed.

Lemma find_witness_agrees b l : find_witness b l ≈ find_cover b l.
Proof.
  induction l as [|r l IH]; cbn [find_witness find_cover]; [done|].
  apply relation_bind. intros []; cbn [as_cost_relation]; try done.
  apply bind_same; [exact IH|done].
Qed.

Lemma expected_coverage_agrees bs l : expected_coverage bs l ≈ cover_all bs l.
Proof.
  induction bs as [|b bs IH]; cbn [expected_coverage cover_all]; [done|].
  apply bind_same; [apply find_witness_agrees|]. intros found. apply bind_same; [exact IH|done].
Qed.

Definition approves (m : result (bool * string)) : Prop := ∃ msg, m = Ok (true, msg).

Lemma sort_with_ext {A} (f g : A → A → bool) l : (∀ x y, f x y = g x y) → sort_with f l = sort_with g l.
Proof.
  intros Hfg. assert (∀ x k, insert_with f x k = insert_with g x k) as Hi.
  { intros x k. induction k as [|y k IH]; cbn; [done|]. by rewrite Hfg, IH. }
  unfold sort_with. induction l as [|x l IH]; cbn; [done|]. by rewrite IH, Hi.
Qed.

Lemma approves_bind (m : result bool) a b :
  approves (bad ← m; Ok (if bad : bool then (false, a) else (true, b))) ↔ m = Ok false.
Proof. split; [by intros (msg & ([] & -> & ?)%bind_ok)|intros ->; by eexists]. Qed.

Lemma check_frontier_agrees f : approves (check_frontier f) ↔ approves (check_recovery_frontier f).
Proof.
  unfold check_frontier, check_recovery_frontier.
  rewrite (sort_with_ext order_leb points_leb) by apply order_leb_agrees.
  destruct (negb (on_budget_axes f)); [by split; intros [? ?]|].
  destruct (_ !=? _); [by split; intros [? ?]|].
  rewrite !approves_bind. apply related_points_agrees.
Qed.

Lemma frontier_guard f :
  (r ← check_recovery_frontier f; raise_if (negb r.1) RecoveryCompatibilityError r.2) = Ok tt
  ↔ approves (check_recovery_frontier f).
Proof.
  rewrite bind_ok. split.
  - intros ([[] msg] & H & Hr); [by exists msg|done].
  - intros [msg H]. exists (true, msg). by rewrite H.
Qed.

Lemma evaluate_frontiers_ok b r o cov :
  evaluate_frontiers b r = Ok (o, cov) ↔
  rfr_branch b = BASELINE ∧ rfr_branch r = RETAINED ∧ rfr_pins b = rfr_pins r ∧
  approves (check_recovery_frontier b) ∧ approves (check_recovery_frontier r) ∧
  ∃ c, cover_all (rfr_points b) (rfr_points r) = Ok c ∧ outcome_of (rfr_points b) c.1 c.2 = (o, cov).
Proof.
  unfold evaluate_frontiers. rewrite !raise_if_bind, !neqb_false, seq_ok, for_each_ok, bind_ok.
  rewrite <-!frontier_guard. split.
  - intros (? & ? & ? & Hf & c & Hc & [= Ho]). split_and!; try done; [apply Hf; set_solver..|eauto].
  - intros (? & ? & ? & Hb & Hr & c & Hc & Ho). split_and!; try done.
    + intros f. rewrite elem_of_cons, list_elem_of_singleton. by intros [->| ->].
    + exists c. by rewrite Ho.
Qed.

Lemma reject_or_continue (c : bool) msg m : approves (if c then Ok (false, msg) else m) ↔ c = false ∧ approves m.
Proof. destruct c; [by split; [intros [? ?]|intros [? _]]|naive_solver]. Qed.

Lemma continue_if_approved m k : approves (v ← m; if negb v.1 then Ok v else k) ↔ approves m ∧ approves k.
Proof.
  split.
  - intros (msg & ([[] w] & -> & Hk)%bind_ok); [|done]. by split; eexists.
  - by intros [[w ->] Hk].
Qed.

Lemma check_recovery_comparison_ok c :
  approves (check_recovery_comparison c) ↔
  evaluate_frontiers (rcmp_baseline_frontier c) (rcmp_retained_frontier c) = Ok (rcmp_outcome c, rcmp_coverage c).
Proof.
  unfold check_recovery_comparison. rewrite evaluate_frontiers_ok, !reject_or_continue, !neqb_false.
  rewrite !continue_if_approved, !check_frontier_agrees.
  do 5 (apply and_iff_compat_l). set (bs := rfr_points _). set (rs := rfr_points (rcmp_retained_frontier c)).
  destruct (expected_coverage bs rs) as [e|x] eqn:E.
  - rewrite (expected_coverage_agrees bs rs e) in E.
    destruct (outcome_of bs e.1 e.2) as [o cov] eqn:Eo. rewrite !reject_or_continue, !neqb_false. split.
    + intros (-> & -> & _). by exists e.
    + intros (e' & He & Ho). rewrite E in He. injection He as <-. rewrite Eo in Ho. injection Ho as -> ->.
      split_and!; [done..|by eexists].
  - split.
    + destruct (is_value_error _); by intros [? ?].
    + intros (e & He & _). apply expected_coverage_agrees in He. by rewrite He in E.
Qed.

(** ** What the loops compute *)

Definition positive (v : CostVector) : Prop := Forall (λ c, (0 < cost_denominator c)%Z) (vec_coordinates v).

Lemma same_axes_length a b : same_axes a b → length (vec_coordinates a) = length (vec_coordinates b).
Proof. intros H%(f_equal length). unfold axis_signature in H. by rewrite !length_map in H. Qed.

Lemma coordinate_leb_trans x y z :
  (0 < cost_denominator x)%Z → (0 < cost_denominator y)%Z → (0 < cost_denominator z)%Z →
  coordinate_leb x y = true → coordinate_leb y z = true → coordinate_leb x z = true.
Proof. unfold coordinate_leb. rewrite !Z.leb_le. intros. nia. Qed.

Lemma no_worse_trans a b c :
  same_axes a b → same_axes b c → positive a → positive b → positive c →
  no_worse a b = true → no_worse b c = true → no_worse a c = true.
Proof.
  intros Hab%same_axes_length Hbc%same_axes_length. revert Hab Hbc. unfold positive, no_worse.
  generalize (vec_coordinates a) (vec_coordinates b) (vec_coordinates c).
  induction l as [|x l IH]; intros [|y k] [|z m]; cbn; try done.
  intros [= Hl] [= Hk]. rewrite !Forall_cons, !andb_true_iff.
  intros [Hx Pl] [Hy Pk] [Hz Pm] [Hxy Hl'] [Hyz Hk']. split.
  - by apply (coordinate_leb_trans x y z).
  - by apply (IH k m).
Qed.

Lemma no_worse_refl a : no_worse a a = true.
Proof.
  unfold no_worse. induction (vec_coordinates a) as [|x l IH]; cbn; [done|].
  unfold coordinate_leb at 1. rewrite Z.leb_refl. exact IH.
Qed.

Section frontiers.
Context (sig : list (string * string * Z)).

(** Every frontier a comparison sees has one signature and valid vectors. *)
Definition measured (p : RecoveryFrontierPoint) : Prop :=
axis_signature (rfp_costs p) = sig ∧ positive (rfp_costs p).

Lemma measured_same p q : measured p → measured q → same_axes (rfp_costs p) (rfp_costs q).
Proof. intros [Hp _] [Hq _]. unfold same_axes. congruence. Qed.

Notation better p q := (no_worse (rfp_costs p) (rfp_costs q)).

Lemma better_trans p q r :
measured p → measured q → measured r → better p q = true → better q r = true → better p r = true.
Proof. intros Hp Hq Hr. apply no_worse_trans; [by apply measured_same..|apply Hp|apply Hq|apply Hr]. Qed.

Lemma relation_is_spec r p q :
measured p → measured q →
relation_is r (rfp_costs p) (rfp_costs q) = Ok (relation_of (better p q) (better q p) ==? r).
Proof. intros Hp Hq. unfold relation_is. by rewrite compare_cost_vectors_spec by (by apply measured_same). Qed.

Lemma any_result_pure {A} (f : A → result bool) (g : A → bool) l :
(∀ x, x ∈ l → f x = Ok (g x)) → any_result f l = Ok (existsb g l).
Proof.
  induction l as [|x l IH]; intros Hf; cbn; [done|].
  rewrite Hf by (by left). cbn. destruct (g x); [done|]. apply IH. intros y Hy. apply Hf. by right.
Qed.

Lemma comparable_points_spec l :
(∀ p, p ∈ l → measured p) →
comparable_points l = Ok false ↔ ForallOrdPairs (λ p q, better p q = false ∧ better q p = false) l.
Proof.
  induction l as [|p l IH]; intros Hl; cbn [comparable_points]; [split; [constructor|done]|].
  rewrite (any_result_pure _ (λ q, better p q || better q p)).
  2:{ intros q Hq. rewrite relation_is_spec by (apply Hl; rewrite ?elem_of_cons; auto).
      cbn. unfold relation_of. by destruct (better p q), (better q p). }
  cbn. destruct (existsb _ l) eqn:E.
  - split; [done|]. intros H. inversion H as [|? ? Hp _]; subst.
    apply any_true in E as (q & Hq & Hb). rewrite Forall_forall in Hp. destruct (Hp q Hq) as [H1 H2].
    by rewrite H1, H2 in Hb.
  - rewrite IH by (intros q Hq; apply Hl; by right). split.
    + intros H. constructor; [|done]. rewrite Forall_forall. intros q Hq.
      rewrite any_false in E. specialize (E q Hq). by apply orb_false_iff in E.
    + intros H. by inversion H.
Qed.

Lemma incomparable_points l p q :
ForallOrdPairs (λ p q, better p q = false ∧ better q p = false) l →
p ∈ l → q ∈ l → better p q = true → p = q.
Proof.
  induction 1 as [|a l Ha Hl IH]; [by intros ?%not_elem_of_nil|]. rewrite Forall_forall in Ha.
  rewrite !elem_of_cons. intros [->|Hp] [->|Hq] Hb; [done|..].
  - destruct (Ha q Hq). congruence.
  - destruct (Ha p Hp). congruence.
  - by apply IH.
Qed.

Definition cover_in (l : list RecoveryFrontierPoint) (b : RecoveryFrontierPoint) : option FrontierCoverage :=
(λ q, covering b q (negb (better b q))) <$> first (λ q, better q b) l.

Lemma find_cover_spec b l :
measured b → (∀ q, q ∈ l → measured q) →
∃ flag, find_cover b l = Ok ((λ q, (q, negb (better b q))) <$> first (λ q, better q b) l, flag).
Proof.
  intros Hb. induction l as [|r l IH]; intros Hl; cbn; [by eexists|].
  rewrite compare_cost_vectors_spec by (apply measured_same; [apply Hl; by left|done]).
  destruct IH as [flag IH]; [intros q Hq; apply Hl; by right|].
  unfold relation_of. destruct (better r b), (better b r) eqn:E; cbn; rewrite ?E; try by eexists.
  all: rewrite IH; by eexists.
Qed.

Lemma cover_all_spec bs l :
(∀ p, p ∈ bs → measured p) → (∀ q, q ∈ l → measured q) →
∃ flag, cover_all bs l = Ok (omap (cover_in l) bs, flag).
Proof.
  intros Hbs Hl. induction bs as [|b bs IH]; cbn [cover_all]; [by eexists|].
  destruct (find_cover_spec b l) as [flag ->]; [apply Hbs; by left|done|].
  destruct IH as [flag' ->]; [intros q Hq; apply Hbs; by right|]. exists (flag || flag').
  cbn. generalize (omap (cover_in l) bs) as rest. intros rest. unfold cover_in. by destruct (first _ l).
Qed.
End frontiers.

Lemma omap_length_full {A B} (f : A → option B) l :
  length (omap f l) = length l ↔ ∀ x, x ∈ l → is_Some (f x).
Proof.
  assert (∀ k, length (omap f k) ≤ length k) as Hle.
  { induction k as [|x k IH]; cbn; [done|]. destruct (f x); cbn; lia. }
  induction l as [|x l IH]; cbn; [split; [by intros _ ? ?%not_elem_of_nil|done]|].
  setoid_rewrite elem_of_cons. destruct (f x) as [y|] eqn:E; cbn.
  - rewrite Nat.succ_inj_wd, IH. split; [intros H z [->|Hz]; eauto|naive_solver].
  - split; [specialize (Hle l); lia|]. intros H. destruct (H x) as [y Hy]; [by left|congruence].
Qed.

(** ** Properties *)

Definition measured_frontier (f : RecoveryFrontier) : Prop :=
  ∀ p, p ∈ rfr_points f → measured (axis_signature (pins_budget (rfr_pins f))) p.

Lemma approved_frontier f :
  measured_frontier f → approves (check_recovery_frontier f) →
  ForallOrdPairs (λ p q, no_worse (rfp_costs p) (rfp_costs q) = false
                       ∧ no_worse (rfp_costs q) (rfp_costs p) = false) (rfr_points f).
Proof.
  intros Hm. unfold check_recovery_frontier. rewrite !reject_or_continue, approves_bind.
  intros (_ & _ & H). by eapply comparable_points_spec.
Qed.

(** A comparison is a strict advantage exactly when the baseline frontier is
    not empty, every baseline point is met at no greater cost on any axis by a
    retained point, and some retained point is strictly cheaper than some baseline
    point; anything weaker is not reported as an advantage and carries no coverage. *)
Theorem strict_advantage_meaning (baseline retained : RecoveryFrontier) outcome coverage
  (Hb : measured_frontier baseline) (Hr : measured_frontier retained)
  (Heval : evaluate_frontiers baseline retained = Ok (outcome, coverage)) :
  (outcome = STRICT_ADVANTAGE ↔
     rfr_points baseline ≠ [] ∧
     (∀ b, b ∈ rfr_points baseline →
        ∃ r, r ∈ rfr_points retained ∧ no_worse (rfp_costs r) (rfp_costs b) = true) ∧
     (∃ b r, b ∈ rfr_points baseline ∧ r ∈ rfr_points retained ∧
        no_worse (rfp_costs r) (rfp_costs b) = true ∧ no_worse (rfp_costs b) (rfp_costs r) = false)) ∧
  (outcome ≠ STRICT_ADVANTAGE → coverage = []).
Proof.
  apply evaluate_frontiers_ok in Heval as (_ & _ & Hpins & _ & Hrok & c & Hc & Ho).
  unfold measured_frontier in Hb, Hr. rewrite Hpins in Hb.
  pose proof (approved_frontier retained Hr Hrok) as Hinc. clear Hrok.
  set (sig := axis_signature _) in *. set (bs := rfr_points baseline) in *.
  set (rs := rfr_points retained) in *.
  destruct (cover_all_spec sig bs rs Hb Hr) as [flag Hc']. rewrite Hc in Hc'. injection Hc' as ->.
  unfold outcome_of in Ho. cbn [fst snd] in Ho.
  split.
  2:{ intros Hne. destruct (_ && existsb _ _), flag; by injection Ho as <- <-. }
  transitivity (negb (is_nil bs) && (length (omap (cover_in rs) bs) =? length bs)%nat
                && existsb fcov_strict (omap (cover_in rs) bs) = true).
  { destruct (_ && existsb _ _), flag; injection Ho as <- _; by split. }
  rewrite !andb_true_iff, negb_true_iff, Nat.eqb_eq, omap_length_full, any_true.
  assert (∀ b r, first (λ q, no_worse (rfp_costs q) (rfp_costs b)) rs = Some r →
    cover_in rs b = Some (covering b r (negb (no_worse (rfp_costs b) (rfp_costs r))))) as Hcov.
  { intros b r Hf. unfold cover_in. by rewrite Hf. }
  split.
  - intros [[Hnil Hall] (x & Hx & Hs)]. split_and!.
    + by intros Hn; rewrite Hn in Hnil.
    + intros b Hbb. destruct (Hall b Hbb) as [y Hy]. unfold cover_in in Hy.
      destruct (first _ rs) as [r|] eqn:E; [|done]. apply first_Some in E. by exists r.
    + apply list_elem_of_omap in Hx as (b & Hbb & Hy). unfold cover_in in Hy.
      destruct (first _ rs) as [r|] eqn:E; [|done]. injection Hy as <-. cbn in Hs.
      apply first_Some in E as [Hrr E]. apply negb_true_iff in Hs. by exists b, r.
  - intros (Hn & Hall & b & r & Hbb & Hrr & Hle & Hlt). split_and!.
    + by destruct bs.
    + intros b' Hb'. destruct (Hall b' Hb') as (r' & Hr' & Hle').
      destruct (first_is_Some (λ q, no_worse (rfp_costs q) (rfp_costs b')) rs r' Hr' Hle') as (q & Hq & _).
      rewrite (Hcov _ _ Hq). by eexists.
    + destruct (first_is_Some (λ q, no_worse (rfp_costs q) (rfp_costs b)) rs r Hrr Hle) as (q & Hq & Hqb & Hqr).
      exists (covering b q (negb (no_worse (rfp_costs b) (rfp_costs q)))). split.
      { apply list_elem_of_omap. exists b. split; [done|]. by apply Hcov. }
      cbn. apply negb_true_iff, not_true_is_false. intros Hbq.
      assert (r = q) as ->; [|congruence].
      eapply incomparable_points; [exact Hinc|done..|]. by eapply (better_trans sig r b q); eauto.
Qed.

(** ** The derived frontier *)

Section derived.
Context (sig : list (string * string * Z)).
Notation measured := (measured sig).
Notation better p q := (no_worse (rfp_costs p) (rfp_costs q)).

Definition equivalent (p q : RecoveryFrontierPoint) : bool := better p q && better q p.
Definition strictly_better (p q : RecoveryFrontierPoint) : bool := better p q && negb (better q p).

Lemma unique_points_spec kept l :
(∀ p, p ∈ kept → measured p) → (∀ p, p ∈ l → measured p) →
unique_points kept l = Ok (foldl (scan_step equivalent) kept l).
Proof.
  revert kept. induction l as [|p l IH]; intros kept Hk Hl; cbn; [done|].
  assert (measured p) as Hp by (apply Hl; by left).
  rewrite (any_result_pure _ (λ prior, equivalent prior p)).
  2:{ intros q Hq. rewrite (relation_is_spec sig) by eauto. unfold relation_of, equivalent.
      by destruct (better p q), (better q p). }
  cbn. apply IH; [|intros q Hq; apply Hl; by right].
  unfold scan_step. destruct (existsb _ kept); [done|]. intros q. rewrite elem_of_app, list_elem_of_singleton.
  by intros [Hq| ->]; [apply Hk|].
Qed.

Definition undominated (all : list RecoveryFrontierPoint) (p : RecoveryFrontierPoint) : bool :=
negb (existsb (λ o, (rfp_observation_id o !=? rfp_observation_id p) && strictly_better o p) all).

Lemma nondominated_spec all l :
(∀ p, p ∈ all → measured p) → (∀ p, p ∈ l → measured p) →
nondominated all l = Ok (List.filter (undominated all) l).
Proof.
  intros Ha. induction l as [|p l IH]; intros Hl; cbn; [done|].
  assert (measured p) as Hp by (apply Hl; by left).
  rewrite (any_result_pure _ (λ o, (rfp_observation_id o !=? rfp_observation_id p) && strictly_better o p)).
  2:{ intros q Hq. unfold dominated_by. destruct (_ ==? _); [done|]. cbn.
      rewrite (relation_is_spec sig) by auto. unfold relation_of, strictly_better.
      by destruct (better q p), (better p q). }
  cbn. rewrite IH by (intros q Hq; apply Hl; by right). cbn.
  generalize (List.filter (undominated all) l) as rest. intros rest. unfold undominated.
  by destruct (existsb _ all).
Qed.

(** Below every point lies one that nothing is strictly below. *)
Lemma strictly_better_trans p q r :
measured p → measured q → measured r →
strictly_better p q = true → better q r = true → strictly_better p r = true.
Proof.
  intros Hp Hq Hr. unfold strictly_better. rewrite !andb_true_iff, !negb_true_iff. intros [Hpq Hqp] Hqr. split.
  - by apply (better_trans sig p q r).
  - apply not_true_is_false. intros Hrp. by rewrite (better_trans sig q r p) in Hqp.
Qed.

Lemma strictly_better_asym p q : strictly_better p q = true → strictly_better q p = false.
Proof. unfold strictly_better. by destruct (better p q), (better q p). Qed.
Lemma strictly_better_le p q : strictly_better p q = true → better p q = true.
Proof. unfold strictly_better. by intros [? _]%andb_true_iff. Qed.

Lemma least_below (l : list RecoveryFrontierPoint) p :
(∀ q, q ∈ l → measured q) → p ∈ l →
∃ m, m ∈ l ∧ better m p = true ∧ ∀ q, q ∈ l → strictly_better q m = false.
Proof.
  intros Hl Hp. destruct (minimal_below strictly_better measured l p) as (m & Hm & Hmp & Hmin); [| |done..|].
  - intros q. unfold strictly_better. by destruct (better q q).
  - intros a b c Ha Hb Hc Hab Hbc. apply (strictly_better_trans a b c); [done..|]. by apply strictly_better_le.
  - exists m. split_and!; [done| |done]. destruct Hmp as [->|Hmp]; [apply no_worse_refl|by apply strictly_better_le].
Qed.

(** The points of the derivation: unique up to equal costs, then undominated. *)
Definition frontier_points (l : list RecoveryFrontierPoint) : list RecoveryFrontierPoint :=
List.filter (undominated (scan_minimal equivalent l)) (scan_minimal equivalent l).

Lemma frontier_points_elem l p : p ∈ frontier_points l → p ∈ scan_minimal equivalent l ∧ p ∈ l.
Proof.
  unfold frontier_points. rewrite elem_of_lfilter. intros [Hp _]. split; [done|]. by eapply scan_minimal_elem.
Qed.

Lemma frontier_points_cover l p :
NoDup (map rfp_observation_id l) → (∀ q, q ∈ l → measured q) → p ∈ l →
∃ q, q ∈ frontier_points l ∧ better q p = true.
Proof.
  intros Hnd Hl Hp. set (u := scan_minimal equivalent l).
  assert (∀ q, q ∈ u → measured q) as Hu by (intros q Hq; apply Hl; by eapply scan_minimal_elem).
  assert (∃ c, c ∈ u ∧ better c p = true) as (c & Hc & Hcp).
  { destruct (scan_minimal_cover equivalent l p Hp) as [Hpu|(c & Hc & Heq)].
    - exists p. split; [done|]. apply no_worse_refl.
    - exists c. split; [done|]. by apply andb_true_iff in Heq as [? _]. }
  destruct (least_below u c Hu Hc) as (m & Hm & Hmc & Hmin). exists m. split.
  - apply elem_of_lfilter. split; [done|]. apply negb_true_iff, any_false. intros o Ho.
    apply andb_false_iff. right. by apply Hmin.
  - apply (better_trans sig m c p); auto.
Qed.

Lemma frontier_points_incomparable l p q :
NoDup (map rfp_observation_id l) → p ∈ frontier_points l → q ∈ frontier_points l → p ≠ q →
better p q = false.
Proof.
  intros Hnd. set (u := scan_minimal equivalent l). unfold frontier_points. fold u.
  rewrite !elem_of_lfilter. intros [Hp _] [Hq Hun] Hne. apply not_true_is_false. intros Hpq.
  assert (NoDup (map rfp_observation_id u)) as Hndu by (by apply scan_minimal_NoDup).
  assert (rfp_observation_id p ≠ rfp_observation_id q) as Hid.
  { intros H. apply Hne. by apply (key_inj_of_NoDup rfp_observation_id u). }
  destruct (better q p) eqn:Hqp.
  - apply list_elem_of_lookup in Hp as [i Hi]. apply list_elem_of_lookup in Hq as [j Hj].
    assert (equivalent p q = true ∧ equivalent q p = true) as [E1 E2].
    { unfold equivalent. by rewrite Hpq, Hqp. }
    destruct (lt_eq_lt_dec i j) as [[Hij| ->]|Hij].
    + by rewrite (scan_minimal_pairwise equivalent l i j p q) in E1.
    + congruence.
    + by rewrite (scan_minimal_pairwise equivalent l j i q p) in E2.
  - apply negb_true_iff in Hun. rewrite any_false in Hun. specialize (Hun p Hp).
    apply andb_false_iff in Hun as [H|H].
    + rewrite neqb_false in H. done.
    + unfold strictly_better in H. by rewrite Hpq, Hqp in H.
Qed.

(** [points_leb] is total on measured points. *)
Lemma compare_points_anti p q d :
measured p → measured q → compare_points p q = Ok d → compare_points q p = Ok (- d)%Z.
Proof.
  intros Hp Hq. pose proof (measured_same sig p q Hp Hq) as Hs. revert Hs.
  unfold compare_points, compare_vectors_lexicographically, same_axes. intros Hs.
  rewrite (proj2 (neqb_false _ _) Hs), (proj2 (neqb_false _ _) (eq_sym Hs)). cbn -[zip].
  pose proof (same_axes_zip _ _ Hs) as Hz. revert Hz. clear Hs Hp Hq.
  generalize (vec_coordinates (rfp_costs p)) (vec_coordinates (rfp_costs q)).
  induction l as [|x l IH]; intros [|y k] Hz; cbn.
  1-3: intros [= <-]; unfold string_sign; rewrite (compare_anti (rfp_observation_id p)); by destruct (compare _ _).
  apply Forall_cons in Hz as [Hx Hz]. cbn in Hx. rewrite !compare_cost_coordinates_same by done.
  assert (direction_of (y, x) = - direction_of (x, y))%Z as ->.
  { unfold direction_of, sign_of. cbn -[Z.mul]. lia. }
  cbn -[zip]. destruct (Z.eqb_spec (direction_of (x, y)) 0) as [E|E],
    (Z.eqb_spec (- direction_of (x, y)) 0) as [E'|E']; try lia.
  - by apply IH.
  - cbn. rewrite (proj2 (Z.eqb_neq _ _) E), (proj2 (Z.eqb_neq _ _) E'). by intros [= <-].
Qed.

Lemma compare_points_ok p q : measured p → measured q → ∃ d, compare_points p q = Ok d.
Proof.
  intros Hp Hq. pose proof (measured_same sig p q Hp Hq) as Hs.
  unfold compare_points, compare_vectors_lexicographically. rewrite (proj2 (neqb_false _ _) Hs). cbn -[zip].
  destruct (first_difference_direction _ (same_axes_zip _ _ Hs)) as [-> _]. cbn. by eexists.
Qed.

Lemma points_leb_total p q : measured p → measured q → points_leb p q = false → points_leb q p = true.
Proof.
  intros Hp Hq. unfold points_leb. destruct (compare_points_ok p q Hp Hq) as [d Hd].
  rewrite Hd, (compare_points_anti p q d Hp Hq Hd). rewrite Z.leb_gt, Z.leb_le. lia.
Qed.
End derived.

Lemma ordered_pairs {A} (R : A → A → Prop) l :
  NoDup l → (∀ x y, x ∈ l → y ∈ l → x ≠ y → R x y) → ForallOrdPairs R l.
Proof.
  induction 1 as [|x l Hx Hl IH]; intros HR; constructor.
  - rewrite Forall_forall. intros y Hy. apply HR; [by left|by right|]. by intros ->.
  - apply IH. intros y z Hy Hz. apply HR; by right.
Qed.

Definition compatible_observations (branch : RecoveryBranch) (pins : RecoveryPins)
    (l : list RecoveryObservation) : Prop :=
  ∀ o, o ∈ l → check_compatible branch pins o = Ok tt ∧ positive (robs_costs o).

(** Any two points of a derived frontier are incomparable, so the builder's own
    check of its frontier passes. *)
Lemma frontier_approved branch pins ids l :
  let sig := axis_signature (pins_budget pins) in
  let points := sort_with points_leb (frontier_points l) in
  NoDup (map rfp_observation_id l) → (∀ p, p ∈ l → measured sig p) →
  approves (check_recovery_frontier (MkRecoveryFrontier branch pins ids points)).
Proof.
  intros sig points Hnd Hl.
  assert (∀ p, p ∈ points → p ∈ frontier_points l) as Hsub by (intros p; unfold points; by rewrite elem_of_sort_with).
  assert (∀ p, p ∈ points → measured sig p) as Hm by (intros p Hp; by apply Hl, frontier_points_elem, Hsub).
  unfold check_recovery_frontier. cbn [rfr_points]. rewrite !reject_or_continue, approves_bind. split_and!.
  - apply negb_false_iff, all_true. intros p Hp. apply eqb_true. apply (Hm p Hp).
  - apply neqb_false. apply sort_with_id.
    apply (sort_with_sorted _ _ (measured sig)); [apply points_leb_total|].
    intros p Hp. by apply Hl, frontier_points_elem.
  - apply (comparable_points_spec sig _ Hm). apply ordered_pairs.
    + unfold points. rewrite sort_with_perm. eapply NoDup_fmap_1.
      eapply sublist_NoDup; [|apply fmap_sublist, lfilter_sublist]. by apply scan_minimal_NoDup.
    + intros p q Hp Hq Hne. split; eapply frontier_points_incomparable; eauto.
Qed.

(** C27: from compatible observations that never reuse an identity, the derivation
    always answers; the frontier it answers consists of established observations
    only, leaves no established observation uncovered, passes its own check, which
    admits no two comparable points, and does not depend on the order in which the
    observations were given. *)
Theorem derive_recovery_frontier_exact branch pins (observations : list RecoveryObservation)
  (Hcompat : compatible_observations branch pins observations)
  (Hids : consistent robs_id observations) :
  ∃ f, (∀ l, l ≡ₚ observations → derive_recovery_frontier branch pins l = Ok f) ∧
    rfr_branch f = branch ∧ rfr_pins f = pins ∧
    (∀ p, p ∈ rfr_points f →
       ∃ o, o ∈ observations ∧ robs_competence_established o = true ∧ p = point_of o) ∧
    (∀ o, o ∈ observations → robs_competence_established o = true →
       ∃ p, p ∈ rfr_points f ∧ no_worse (rfp_costs p) (robs_costs o) = true) ∧
    (∃ msg, check_recovery_frontier f = Ok (true, msg)).
Proof.
  destruct (collect_values_spec robs_id
    (Exn RecoveryCompatibilityError "recovery observation identity has conflicting contents") _ Hids)
    as (k & Hk & _ & Hmem & Hnd & Hcan).
  set (sig := axis_signature (pins_budget pins)).
  set (l := sort_by rfp_observation_id (map point_of (List.filter robs_competence_established k))).
  set (points := sort_with points_leb (frontier_points l)).
  assert (∀ p, p ∈ l ↔ ∃ o, o ∈ observations ∧ robs_competence_established o = true ∧ p = point_of o) as Hl.
  { intros p. unfold l. rewrite elem_of_sort_by, elem_of_map. setoid_rewrite elem_of_lfilter.
    setoid_rewrite Hmem. naive_solver. }
  assert (∀ p, p ∈ l → measured sig p) as Hm.
  { intros p (o & Ho & _ & ->)%Hl. destruct (Hcompat o Ho) as [Hc Hpos]. split; [|done].
    unfold check_compatible in Hc. rewrite !raise_if_bind, !raise_if_ok, !neqb_false in Hc. by destruct Hc as (_ & _ & ?). }
  assert (NoDup (map rfp_observation_id l)) as Hndl.
  { unfold l. rewrite sort_by_perm, map_map. cbn.
    eapply sublist_NoDup; [exact Hnd|]. apply fmap_sublist, lfilter_sublist. }
  assert (∀ p, p ∈ points ↔ p ∈ frontier_points l) as Hpts by (intros p; apply elem_of_sort_with).
  exists (MkRecoveryFrontier branch pins (map robs_id k) points).
  cbn [rfr_branch rfr_pins rfr_points]. split_and!; [|done|done|..].
  - intros l' Hl'. unfold derive_recovery_frontier.
    rewrite (Hk l' Hl' : deduplicate_observations l' = Ok k).
    cbn [mbind result_bind]. rewrite (proj2 (for_each_ok _ _)) by (intros o Ho; by apply Hcompat, Hmem).
    cbn [mbind result_bind]. fold l.
    rewrite (unique_points_spec sig) by (done || by intros ? ?%not_elem_of_nil). cbn [mbind result_bind].
    rewrite (nondominated_spec sig) by (intros p Hp; apply Hm; by eapply scan_minimal_elem).
    cbn [mbind result_bind]. fold (scan_minimal equivalent l). fold (frontier_points l). fold points.
    unfold validate_frontier, require_canonical_ids. cbn [rfr_source_observation_ids rfr_points].
    rewrite (proj2 (nuniq_false _) Hnd), Hcan. cbn -[points].
    assert (map rfp_observation_id points ⊆ map robs_id k) as Hsub.
    { intros x Hx. apply elem_of_map in Hx as (p & Hp & ->). rewrite Hpts in Hp.
      apply frontier_points_elem in Hp as [_ Hp]. apply Hl in Hp as (o & Ho & _ & ->).
      apply elem_of_map. exists o. split; [by apply Hmem|done]. }
    assert (NoDup (rfp_observation_id <$> points)) as Hndp.
    { unfold points. rewrite sort_with_perm.
      eapply sublist_NoDup; [|apply fmap_sublist, lfilter_sublist]. by apply scan_minimal_NoDup. }
    by rewrite (proj2 (nuniq_false _) Hndp), (proj2 (nsubset_false _ _) Hsub).
  - intros p Hp. by apply Hl, frontier_points_elem, Hpts.
  - intros o Ho Hest. destruct (frontier_points_cover sig l (point_of o)) as (q & Hq & Hle); [done..| |].
    + apply Hl. eauto.
    + exists q. split; [by apply Hpts|done].
  - by apply frontier_approved.
Qed.

(** ** Building a comparison *)

Lemma find_cover_elem b l x : find_cover b l = Ok x → ∀ r, x.1 = Some r → r.1 ∈ l.
Proof.
  revert x. induction l as [|q l IH]; intros x; cbn; [by intros [= <-]|].
  intros (rel & _ & H)%bind_ok r Hr. destruct rel.
  - injection H as <-. injection Hr as <-. by left.
  - right. by eapply IH.
  - injection H as <-. injection Hr as <-. by left.
  - apply bind_ok in H as (rest & Hrest & [= <-]). right. by eapply IH.
Qed.

Lemma cover_all_elem bs l c :
  cover_all bs l = Ok c →
  map fcov_baseline_observation_id c.1 `sublist_of` map rfp_observation_id bs ∧
  ∀ x, x ∈ c.1 → fcov_retained_observation_id x ∈ map rfp_observation_id l.
Proof.
  revert c. induction bs as [|b bs IH]; intros c; cbn [cover_all].
  - intros [= <-]. split; [done|]. by intros x ?%not_elem_of_nil.
  - intros (found & Hf & H)%bind_ok. apply bind_ok in H as (rest & Hrest & [= <-]).
    destruct (IH _ Hrest) as [Hsub Hmem]. cbn [fst].
    destruct (found.1) as [[r strict]|] eqn:E; cbn [map]; split.
    + by apply sublist_skip.
    + intros x [->|Hx]%elem_of_cons; [|by apply Hmem].
      change (rfp_observation_id r ∈ map rfp_observation_id l). apply elem_of_map_1.
      by apply (find_cover_elem _ _ _ Hf (r, strict)).
    + by apply sublist_cons.
    + done.
Qed.

Lemma outcome_of_coverage bs cov flag o k : outcome_of bs cov flag = (o, k) → k = cov ∨ k = [].
Proof. unfold outcome_of. destruct (_ && _), flag; intros [= _ <-]; auto. Qed.

Lemma built_comparison_valid id b r check o cov :
  validate_frontier b = Ok tt → validate_frontier r = Ok tt → evaluate_frontiers b r = Ok (o, cov) →
  validate_comparison_shape (MkRecoveryComparison id b r o cov check) = Ok tt.
Proof.
  intros Hvb Hvr He. pose proof He as He0.
  apply evaluate_frontiers_ok in He as (Hb & Hr & _ & _ & _ & c & Hc & Ho).
  unfold validate_comparison_shape. cbn [rcmp_baseline_frontier rcmp_retained_frontier rcmp_coverage].
  rewrite Hb, Hr. cbn [bool_decide].
  assert (NoDup (map rfp_observation_id (rfr_points b))) as Hnd.
  { unfold validate_frontier in Hvb. rewrite seq_ok, raise_if_bind, nuniq_false in Hvb. by destruct Hvb as (_ & ? & _). }
  destruct (cover_all_elem _ _ _ Hc) as [Hsub Hmem].
  assert (map fcov_baseline_observation_id cov `sublist_of` map rfp_observation_id (rfr_points b) ∧
          ∀ x, x ∈ cov → fcov_retained_observation_id x ∈ map rfp_observation_id (rfr_points r)) as [Hsub' Hmem'].
  { destruct (outcome_of_coverage _ _ _ _ _ Ho) as [->| ->]; [done|]. split; [apply sublist_nil_l|].
    by intros x ?%not_elem_of_nil. }
  rewrite !bool_decide_eq_true_2 by done. cbn [negb raise_if].
  rewrite (proj2 (nuniq_false _)) by (by eapply sublist_NoDup).
  rewrite (proj2 (any_false _ _)).
  2:{ intros x Hx. rewrite orb_false_iff, !negb_false_iff, !mem_true. split; [|by apply Hmem'].
      eapply elem_of_sublist; [|exact Hsub']. by apply elem_of_map_1. }
  destruct (proj2 (check_recovery_comparison_ok (MkRecoveryComparison id b r o cov check)) He0) as [msg Hmsg].
  cbn. by rewrite Hmsg.
Qed.

(** The independent checker accepts a comparison exactly when the arithmetic
    that builds comparisons computes the same outcome and the same coverage from
    its two frontiers; so building a comparison of valid frontiers fails only where
    the frontiers themselves are refused, and never because of the checker that the
    record runs on itself. *)
Theorem builder_and_checker_agree id (baseline retained : RecoveryFrontier) check
  (Hb : validate_frontier baseline = Ok tt) (Hr : validate_frontier retained = Ok tt) :
  (∀ outcome coverage,
     (∃ msg, check_recovery_comparison (MkRecoveryComparison id baseline retained outcome coverage check)
             = Ok (true, msg)) ↔
     evaluate_frontiers baseline retained = Ok (outcome, coverage)) ∧
  compare_recovery_frontiers id baseline retained check =
    (e ← evaluate_frontiers baseline retained;
     Ok (MkRecoveryComparison id baseline retained e.1 e.2 check)).
Proof.
  split.
  - intros outcome coverage. apply check_recovery_comparison_ok.
  - unfold compare_recovery_frontiers. destruct (evaluate_frontiers baseline retained) as [[o cov]|x] eqn:E; [|done].
    cbn [mbind result_bind fst snd]. by rewrite (built_comparison_valid id baseline retained check o cov).
Qed.

(** ** A concrete comparison *)

Definition example_vector (effects probes : Z) : CostVector :=
  MkCostVector [MkCostCoordinate (MkCostAxis "effects" "count") effects 1;
                MkCostCoordinate (MkCostAxis "logical_probes" "count") probes 1].
Definition example_pins : RecoveryPins :=
  MkRecoveryPins "scope" "competence" "universe" "binding" "horizon" "evaluator" "1" "access" "1"
    "budget" "1" (example_vector 9 9) "protocol" "1" "policy" "1".
Definition example_check : CheckReference := MkCheckReference "evidence" "verdict".
Definition example_observation (id : string) (branch : RecoveryBranch) (effects probes : Z)
    (established : bool) : RecoveryObservation :=
  MkRecoveryObservation id branch "request" "child" 1 "digest"
    (if branch ==? RETAINED then Some "package" else None) example_pins (example_vector effects probes)
    [] [] example_check established (Some example_check).
Definition example_baseline : list RecoveryObservation :=
  [example_observation "b2" BASELINE 5 3 true; example_observation "b1" BASELINE 3 5 true;
   example_observation "b3" BASELINE 6 6 true; example_observation "b4" BASELINE 1 1 false].
Definition example_frontier (branch : RecoveryBranch) (points : list (string * (Z * Z))) (ids : list string) :
    RecoveryFrontier :=
  MkRecoveryFrontier branch example_pins ids
    (map (λ p, MkRecoveryFrontierPoint p.1 (example_vector p.2.1 p.2.2)) points).
Definition example_b : RecoveryFrontier :=
  example_frontier BASELINE [("b1", (3, 5)); ("b2", (5, 3))]%Z ["b1"; "b2"; "b3"; "b4"].
Definition example_r : RecoveryFrontier := example_frontier RETAINED [("r1", (3, 3))]%Z ["r1"].

Example example_b_derived :
  derive_recovery_frontier BASELINE example_pins example_baseline = Ok example_b.
Proof. vm_compute. reflexivity. Qed.

Lemma derive_recovery_frontier_exact_witness :
  ∃ f, derive_recovery_frontier BASELINE example_pins example_baseline = Ok f ∧
    ∃ msg, check_recovery_frontier f = Ok (true, msg).
Proof.
  destruct (derive_recovery_frontier_exact BASELINE example_pins example_baseline) as (f & Hf & _ & _ & _ & _ & Hc).
  - intros o Ho. unfold example_baseline in Ho. rewrite !elem_of_cons in Ho.
    destruct Ho as [->|[->|[->|[->|Ho]]]];
      [split; [vm_compute; reflexivity|repeat constructor]..|by apply not_elem_of_nil in Ho].
  - intros x y Hx Hy. unfold example_baseline in Hx, Hy. rewrite !elem_of_cons in Hx, Hy.
    destruct Hx as [->|[->|[->|[->|Hx]]]]; try (by apply not_elem_of_nil in Hx);
    destruct Hy as [->|[->|[->|[->|Hy]]]]; try (by apply not_elem_of_nil in Hy); done.
  - exists f. split; [by apply Hf|exact Hc].
Defined.

Lemma measured_example branch points ids : measured_frontier (example_frontier branch points ids).
Proof.
  intros p Hp. apply elem_of_map in Hp as (x & _ & ->). split; [done|]. repeat constructor.
Qed.

Lemma strict_advantage_meaning_witness :
  evaluate_frontiers example_b example_r = Ok (STRICT_ADVANTAGE, [MkFrontierCoverage "b1" "r1" true; MkFrontierCoverage "b2" "r1" true]) ∧
  (STRICT_ADVANTAGE ≠ STRICT_ADVANTAGE → [MkFrontierCoverage "b1" "r1" true; MkFrontierCoverage "b2" "r1" true] = []).
Proof.
  split; [vm_compute; reflexivity|].
  apply (strict_advantage_meaning example_b example_r STRICT_ADVANTAGE); [apply measured_example..|].
  vm_compute; reflexivity.
Defined.

Lemma builder_and_checker_agree_witness :
  compare_recovery_frontiers "c" example_b example_r example_check =
    Ok (MkRecoveryComparison "c" example_b example_r STRICT_ADVANTAGE
          [MkFrontierCoverage "b1" "r1" true; MkFrontierCoverage "b2" "r1" true] example_check).
Proof.
  destruct (builder_and_checker_agree "c" example_b example_r example_check) as [_ ->];
    [vm_compute; reflexivity..|]. vm_compute; reflexivity.
Defined.
