(* ===== verification/Retrieval.v ===== *)
(** * Structural retrieval: [src/rci/memory/references.py], [retrieval.py]

    The records a memory package may reference, exact resolution of a reference,
    and deterministic retrieval over the packages of an inquiry.  Theorems: a
    retrieval answers within its bound, returns only fresh packages that match
    every selector of the query, orders them by rank and then identity, and does
    not depend on the order of the packages. *)

From S2P Require Import Prelude Digest Model Claims Warrant Effects Probes Dumps Memory.

(** ** [references.py] *)

(** The aggregate records a reference can name. *)
Inductive OwnedRecord : Type :=
| OwnedProbeEvent (e : ProbeEvent)
| OwnedLemmaVersion (v : LemmaVersion)
| OwnedSemanticDelta (d : SemanticDelta)
| OwnedProbeIdentity (p : ProbeIdentity)
| OwnedRetentionPackage (p : RetentionPackage)
| OwnedScaffold (s : ReacquisitionScaffold)
| OwnedProtocol (p : RecoveryProtocol)
| OwnedEvidence (e : Evidence)
| OwnedCheckerVerdict (v : CheckerVerdictRecord)
| OwnedWarrantDecision (d : WarrantDecisionRecord)
| OwnedEffectRequest (r : EffectRequest)
| OwnedExternalReturn (r : ExternalReturn)
| OwnedReconstruction (r : Reconstruction)
| OwnedPredictionSeal (p : PredictionSeal).

(** [getattr(record, "id", None)], or the fingerprint of a record without an id *)
Definition exposed_identity (r : OwnedRecord) : string :=
  match r with
  | OwnedProbeEvent e => pe_id e | OwnedLemmaVersion v => lv_id v
  | OwnedSemanticDelta d => sd_id d | OwnedProbeIdentity p => probe_fingerprint p
  | OwnedRetentionPackage p => pkg_id p | OwnedScaffold s => scf_id s
  | OwnedProtocol p => rpt_id p | OwnedEvidence e => ev_id e
  | OwnedCheckerVerdict v => cv_id v | OwnedWarrantDecision d => wd_id d
  | OwnedEffectRequest r => req_id r | OwnedExternalReturn r => ret_id r
  | OwnedReconstruction r => rc_id r | OwnedPredictionSeal p => ps_id p
  end.

Definition record_type (r : OwnedRecord) : OwnedRecordType :=
  match r with
  | OwnedProbeEvent _ => PROBE_EVENT | OwnedLemmaVersion _ => LEMMA_VERSION
  | OwnedSemanticDelta _ => SEMANTIC_DELTA | OwnedProbeIdentity _ => PROBE_IDENTITY
  | OwnedRetentionPackage _ => RETENTION_PACKAGE | OwnedScaffold _ => REACQUISITION_SCAFFOLD
  | OwnedProtocol _ => RECOVERY_PROTOCOL | OwnedEvidence _ => EVIDENCE
  | OwnedCheckerVerdict _ => CHECKER_VERDICT | OwnedWarrantDecision _ => WARRANT_DECISION
  | OwnedEffectRequest _ => EFFECT_REQUEST | OwnedExternalReturn _ => EXTERNAL_RETURN
  | OwnedReconstruction _ => RECONSTRUCTION | OwnedPredictionSeal _ => PREDICTION_SEAL
  end.

#[export] Instance OwnedRecord_to_json : ToJson OwnedRecord := λ r,
  match r with
  | OwnedProbeEvent e => to_json e | OwnedLemmaVersion v => to_json v
  | OwnedSemanticDelta d => to_json d | OwnedProbeIdentity p => to_json p
  | OwnedRetentionPackage p => to_json p | OwnedScaffold s => to_json s
  | OwnedProtocol p => to_json p | OwnedEvidence e => to_json e
  | OwnedCheckerVerdict v => to_json v | OwnedWarrantDecision d => to_json d
  | OwnedEffectRequest r => to_json r | OwnedExternalReturn r => to_json r
  | OwnedReconstruction r => to_json r | OwnedPredictionSeal p => to_json p
  end.

(** [==] between records; records of different classes differ. *)
Definition owned_record_eqb (x y : OwnedRecord) : bool :=
  match x, y with
  | OwnedProbeEvent a, OwnedProbeEvent b => probe_event_eqb a b
  | OwnedLemmaVersion a, OwnedLemmaVersion b => a ==? b
  | OwnedSemanticDelta a, OwnedSemanticDelta b => a ==? b
  | OwnedProbeIdentity a, OwnedProbeIdentity b => a ==? b
  | OwnedRetentionPackage a, OwnedRetentionPackage b => a ==? b
  | OwnedScaffold a, OwnedScaffold b => a ==? b
  | OwnedProtocol a, OwnedProtocol b => a ==? b
  | OwnedEvidence a, OwnedEvidence b => a ==? b
  | OwnedCheckerVerdict a, OwnedCheckerVerdict b => a ==? b
  | OwnedWarrantDecision a, OwnedWarrantDecision b => a ==? b
  | OwnedEffectRequest a, OwnedEffectRequest b => a ==? b
  | OwnedExternalReturn a, OwnedExternalReturn b => a ==? b
  | OwnedReconstruction a, OwnedReconstruction b => a ==? b
  | OwnedPredictionSeal a, OwnedPredictionSeal b => prediction_eqb a b
  | _, _ => false
  end.

Definition owned_record_content_fingerprint (owner : MemoryOwner) (t : OwnedRecordType)
    (version : Z) (r : OwnedRecord) : result string :=
  raise_if (version <? 1)%Z ValueError "owned record schema versions must be positive";;
  Ok (content_fingerprint
        ("rci.owned-memory-record.v1/" +:+ MemoryOwner_value owner +:+ "/"
         +:+ OwnedRecordType_value t +:+ "/v" +:+ pretty version) (to_json r)).

Definition make_owned_memory_ref (owner : MemoryOwner) (t : OwnedRecordType) (id : string)
    (version : Z) (r : OwnedRecord) : result OwnedMemoryRef :=
  fp ← owned_record_content_fingerprint owner t version r;
  let ref := MkOwnedMemoryRef owner t id version fp in
  validate_owner ref;; Ok ref.

Definition validate_owned_memory_ref (ref : OwnedMemoryRef) (r : OwnedRecord) : result (bool * string) :=
  if exposed_identity r !=? omr_record_id ref then
    Ok (false, "owned record identity does not match the reference")
  else
    actual ← owned_record_content_fingerprint (omr_owner ref) (omr_record_type ref)
               (omr_record_schema_version ref) r;
    Ok (if actual !=? omr_content_fingerprint ref
        then (false, "owned record content fingerprint does not match the reference")
        else (true, "owned record identity, type, schema, owner, and content match exactly")).

Definition resolve_owned_memory_ref (ref : OwnedMemoryRef) (owned_records : gmap string OwnedRecord) :
    result (bool * string) :=
  match owned_records !! omr_key ref with
  | None => Ok (false, "owned memory reference does not resolve")
  | Some r => validate_owned_memory_ref ref r
  end.

(** ** [retrieval.py] *)

Definition STRUCTURAL_EXACT_V1 : StructuralRetrievalPolicy :=
  MkStructuralRetrievalPolicy "structural-exact-v1" "1" 100 DEFAULT_RANK_COMPONENTS
    (sort_by OwnedRecordType_value all_record_types).

Definition resolve_structural_retrieval_policy (policy_id policy_version : string) :
    result StructuralRetrievalPolicy :=
  if (policy_id ==? srp_id STRUCTURAL_EXACT_V1) && (policy_version ==? srp_version STRUCTURAL_EXACT_V1)
  then Ok STRUCTURAL_EXACT_V1
  else raise KeyError "unsupported structural retrieval policy".

Definition collect_packages : list RetentionPackage → result (gmap string RetentionPackage) :=
  collect_by pkg_id (λ prior p, prior ==? p)
    (Exn RetrievalConflictError "retention package identity has conflicting contents") ∅.

Definition deduplicate_packages (l : list RetentionPackage) : result (list RetentionPackage) :=
  by_id ← collect_packages l; Ok (values_by pkg_id by_id).

Definition structural_index_fingerprint (packages : list RetentionPackage)
    (owned_fingerprints : gmap string string) : result string :=
  deduplicated ← deduplicate_packages packages;
  Ok (content_fingerprint "rci.structural-retrieval-index.v1"
        (JObject [("packages", JList (map (λ p,
                     JObject [("id", JString (pkg_id p)); ("fingerprint", JString (package_fingerprint p))])
                     deduplicated));
                  ("owned_fingerprints", JList (map (λ kv,
                     JObject [("key", JString kv.1); ("fingerprint", JString kv.2)])
                     (sort_by fst (map_to_list owned_fingerprints))))])).

Definition reference_is_fresh (owned_fingerprints : gmap string string) (r : OwnedMemoryRef) : bool :=
  owned_fingerprints !! omr_key r ==? Some (omr_content_fingerprint r).

Definition has_stale_reference (p : RetentionPackage) (owned_fingerprints : gmap string string) : bool :=
  existsb (λ r, negb (reference_is_fresh owned_fingerprints r)) (pkg_owned_refs p).

(** The selectors of a query, each ignored when absent. *)
Definition reference_matches (q : RetrievalQuery) (policy : StructuralRetrievalPolicy)
    (r : OwnedMemoryRef) : bool :=
  let query_ref_by_key := dict_by omr_key (qry_reference_selectors q) in
  (is_nil (srp_accepted_record_types policy) || mem (omr_record_type r) (srp_accepted_record_types policy))
  && (is_nil (qry_owners q) || mem (omr_owner r) (qry_owners q))
  && (is_nil (qry_record_types q) || mem (omr_record_type r) (qry_record_types q))
  && (is_nil (qry_reference_selectors q) || (query_ref_by_key !! omr_key r ==? Some r)).

Definition matching_references (p : RetentionPackage) (q : RetrievalQuery)
    (policy : StructuralRetrievalPolicy) : list OwnedMemoryRef :=
  List.filter (reference_matches q policy) (pkg_owned_refs p).

(** [len(set(l1) & set(l2))] and [sorted(set(l1) & set(l2))] *)
Definition common `{EqDecision A} (l1 l2 : list A) : list A :=
  List.filter (λ x, mem x l2) (remove_dups l1).
Definition count_common `{EqDecision A} (l1 l2 : list A) : Z := Z.of_nat (length (common l1 l2)).

Definition package_rank (p : RetentionPackage) (q : RetrievalQuery) : RetrievalRank :=
  MkRetrievalRank
    (count_common (map omr_key (pkg_owned_refs p)) (map omr_key (qry_reference_selectors q)))
    (count_common (map omr_record_type (pkg_owned_refs p)) (qry_record_types q))
    (count_common (map omr_owner (pkg_owned_refs p)) (qry_owners q))
    (count_common (pkg_cue_ids p) (qry_cue_ids q))
    (count_common (pkg_tag_ids p) (qry_tag_ids q)).

Definition has_reference_selectors (q : RetrievalQuery) : bool :=
  negb (is_nil (qry_owners q)) || negb (is_nil (qry_record_types q))
  || negb (is_nil (qry_reference_selectors q)).

Definition rank_package (p : RetentionPackage) (q : RetrievalQuery) (policy : StructuralRetrievalPolicy) :
    option (RetrievalRank * list string * list string * list string) :=
  let matching := matching_references p q policy in
  let cues := sorted (common (pkg_cue_ids p) (qry_cue_ids q)) in
  let tags := sorted (common (pkg_tag_ids p) (qry_tag_ids q)) in
  if has_reference_selectors q && is_nil matching then None
  else if negb (is_nil (qry_cue_ids q)) && is_nil cues then None
  else if negb (is_nil (qry_tag_ids q)) && is_nil tags then None
  else
    let rank := package_rank p q in
    if forallb (λ c, component rank c =? 0)%Z (srp_rank_components policy) then None
    else Some (rank, sorted (map omr_key matching), cues, tags).

Definition pinned_to_query (p : RetentionPackage) (q : RetrievalQuery) : bool :=
  (pkg_scope_fingerprint p ==? qry_scope_fingerprint q)
  && (pkg_binding_revision p ==? qry_binding_revision q)
  && (pkg_protected_horizon_id p ==? qry_protected_horizon_id q).

(** The loop over the packages: the hits and the stale identities, in order. *)
Fixpoint scan_packages (owned_fingerprints : gmap string string) (q : RetrievalQuery)
    (policy : StructuralRetrievalPolicy) (l : list RetentionPackage) :
    result (list RetrievalHit * list string) :=
  match l with
  | [] => Ok ([], [])
  | p :: l =>
    let next := scan_packages owned_fingerprints q policy l in
    if negb (pinned_to_query p q) then next
    else
      match rank_package p q policy with
      | None => next
      | Some (rank, refs, cues, tags) =>
        if has_stale_reference p owned_fingerprints then
          rest ← next; Ok (rest.1, pkg_id p :: rest.2)
        else
          let hit := MkRetrievalHit (pkg_id p) (package_fingerprint p) rank refs cues tags in
          validate_hit hit;;
          rest ← next; Ok (hit :: rest.1, rest.2)
      end
  end.

Definition hit_key (policy : StructuralRetrievalPolicy) (h : RetrievalHit) : list Z * string :=
  (map (λ c, - component (hit_rank h) c)%Z (srp_rank_components policy), hit_package_id h).

Definition check_retrieval (q : RetrievalQuery) (policy : StructuralRetrievalPolicy)
    (owned_fingerprints : gmap string string) : result unit :=
  raise_if ((qry_policy_id q !=? srp_id policy) || (qry_policy_version q !=? srp_version policy))
    ValueError "retrieval query and policy identity/version do not match";;
  raise_if (srp_max_results policy <? qry_limit q)%Z
    ValueError "retrieval query limit exceeds the policy bound";;
  raise_if (negb (is_nil (srp_accepted_record_types policy))
            && negb (subset (qry_record_types q) (srp_accepted_record_types policy)))
    ValueError "retrieval query asks for a record type outside policy";;
  raise_if (existsb (λ r, negb (reference_is_fresh owned_fingerprints r)) (qry_reference_selectors q))
    ValueError "retrieval query contains a stale exact reference selector".

Definition retrieve (result_id : string) (q : RetrievalQuery) (policy : StructuralRetrievalPolicy)
    (packages : list RetentionPackage) (owned_fingerprints : gmap string string) :
    result RetrievalResult :=
  check_retrieval q policy owned_fingerprints;;
  deduplicated ← deduplicate_packages packages;
  index ← structural_index_fingerprint deduplicated owned_fingerprints;
  raise_if (qry_source_index_fingerprint q !=? index)
    ValueError "retrieval query does not pin the current structural index";;
  scanned ← scan_packages owned_fingerprints q policy deduplicated;
  let hits := sort_by (hit_key policy) scanned.1 in
  let r := MkRetrievalResult result_id (qry_id q) (srp_id policy) (srp_version policy)
             (qry_source_sequence q) (qry_source_index_fingerprint q)
             (take (Z.to_nat (qry_limit q)) hits) (sorted scanned.2) in
  validate_result r;; Ok r.

(** ** Properties *)

Section retrieval.
Context (owned_fingerprints : gmap string string) (q : RetrievalQuery) (policy : StructuralRetrievalPolicy).

Definition hit_of (p : RetentionPackage) : option RetrievalHit :=
if negb (pinned_to_query p q) then None
else match rank_package p q policy with
     | Some (rank, refs, cues, tags) =>
       Some (MkRetrievalHit (pkg_id p) (package_fingerprint p) rank refs cues tags)
     | None => None
     end.

(** A package is a hit when it is pinned as the query, matches its selectors and
    has no stale reference; one that only fails the last is reported stale. *)
Definition fresh_hit (p : RetentionPackage) : option RetrievalHit :=
if has_stale_reference p owned_fingerprints then None else hit_of p.
Definition stale_hit (p : RetentionPackage) : bool :=
has_stale_reference p owned_fingerprints && is_some (hit_of p).

Lemma hit_of_id p h : hit_of p = Some h → hit_package_id h = pkg_id p.
Proof.
  unfold hit_of. destruct (negb _); [done|]. destruct (rank_package p q policy) as [[[[r k] c] t]|]; [|done].
  by intros [= <-].
Qed.

Lemma fresh_hit_of p h : fresh_hit p = Some h → hit_of p = Some h ∧ has_stale_reference p owned_fingerprints = false.
Proof. unfold fresh_hit. by destruct (has_stale_reference p owned_fingerprints). Qed.

Lemma require_canonical_sorted l name : NoDup l → require_canonical_ids (sorted l) name = Ok tt.
Proof.
  intros Hnd. unfold require_canonical_ids. rewrite canonical_sorted.
  rewrite (proj2 (nuniq_false _)); [done|]. unfold sorted. by rewrite sort_by_perm.
Qed.

Lemma NoDup_common `{EqDecision A} (l k : list A) : NoDup (common l k).
Proof. unfold common. eapply sublist_NoDup; [|apply lfilter_sublist]. apply NoDup_remove_dups. Qed.

Lemma valid_package_keys p : validate_package p = Ok tt → NoDup (map omr_key (pkg_owned_refs p)).
Proof.
  unfold validate_package, require_canonical_ids. rewrite raise_if_bind, !seq_ok, raise_if_ok, nuniq_false. tauto.
Qed.

(** No hit the scan builds is refused. *)
Lemma hit_valid p h : validate_package p = Ok tt → hit_of p = Some h → validate_hit h = Ok tt.
Proof.
  intros Hp%valid_package_keys. unfold hit_of. destruct (negb _); [done|].
  unfold rank_package. destruct (_ && _); [done|]. destruct (_ && _); [done|]. destruct (_ && _); [done|].
  destruct (forallb _ _) eqn:E; [done|]. intros [= <-]. unfold validate_hit. cbn [hit_matched_ref_keys hit_matched_cue_ids hit_matched_tag_ids hit_rank].
  rewrite !require_canonical_sorted; cbn [mbind result_bind].
  - apply raise_if_ok. apply all_false in E as (c & _ & Hc). apply all_false. exists c. split; [|done].
    unfold DEFAULT_RANK_COMPONENTS. destruct c; set_solver.
  - eapply sublist_NoDup; [exact Hp|]. apply fmap_sublist, lfilter_sublist.
  - apply NoDup_common.
  - apply NoDup_common.
Qed.

Lemma scan_packages_spec l :
(∀ p, p ∈ l → validate_package p = Ok tt) →
scan_packages owned_fingerprints q policy l = Ok (omap fresh_hit l, map pkg_id (List.filter stale_hit l)).
Proof.
  induction l as [|p l IH]; intros Hl; cbn; [done|].
  rewrite IH by (intros p' Hp'; apply Hl; by right).
  assert (∀ h, hit_of p = Some h → validate_hit h = Ok tt) as Hv by (intros h; apply hit_valid, Hl; by left).
  clear IH. generalize (omap fresh_hit l) (List.filter stale_hit l). intros hits stale.
  unfold fresh_hit, stale_hit. unfold hit_of in Hv |- *.
  destruct (negb (pinned_to_query p q)); [by destruct (has_stale_reference p owned_fingerprints)|].
  destruct (rank_package p q policy) as [[[[r k] c] t]|]; [|by destruct (has_stale_reference p owned_fingerprints)].
  destruct (has_stale_reference p owned_fingerprints); cbn; [done|]. by rewrite (Hv _ eq_refl).
Qed.
End retrieval.

Lemma omap_keys {A B K} (f : A → option B) (ka : A → K) (kb : B → K) l :
  (∀ x y, f x = Some y → kb y = ka x) → map kb (omap f l) `sublist_of` map ka l.
Proof.
  intros Hf. induction l as [|x l IH]; cbn; [done|]. destruct (f x) as [y|] eqn:E; cbn.
  - rewrite (Hf _ _ E). by apply sublist_skip.
  - by apply sublist_cons.
Qed.

Lemma take_sorted {A} (R : A → A → Prop) n l x y :
  StronglySorted R l → x ∈ take n l → y ∈ drop n l → R x y.
Proof.
  intros Hs. rewrite <-(take_drop n l) in Hs at 1. revert Hs. generalize (take n l) (drop n l).
  induction l0 as [|a k IH]; intros m Hs; [by intros ?%not_elem_of_nil|].
  cbn in Hs. apply StronglySorted_inv in Hs as [Hs Ha]. rewrite Forall_forall in Ha.
  intros [->|Hx]%elem_of_cons Hy; [|by eapply IH]. apply Ha. set_solver.
Qed.

Definition lawful_query (q : RetrievalQuery) (policy : StructuralRetrievalPolicy)
    (packages : list RetentionPackage) (owned_fingerprints : gmap string string) : Prop :=
  (0 <= qry_limit q)%Z ∧
  check_retrieval q policy owned_fingerprints = Ok tt ∧
  structural_index_fingerprint packages owned_fingerprints = Ok (qry_source_index_fingerprint q).

(** C28: over valid packages of distinct identity, a query that pins the current index
    is always answered, and alike for every order of the packages: with at most
    [limit] hits in the order of the policy's rank and then of identity, each hit a
    package that is pinned as the query, matches it and has only fresh references;
    a fresh match is left out only when the bound is reached by hits ordered before
    it; and exactly the matching packages with a stale reference are reported. *)
Theorem retrieve_exact result_id q policy packages owned_fingerprints
  (Hq : lawful_query q policy packages owned_fingerprints)
  (Hvalid : ∀ p, p ∈ packages → validate_package p = Ok tt)
  (Hids : consistent pkg_id packages) :
  ∃ r, (∀ l, l ≡ₚ packages → retrieve result_id q policy l owned_fingerprints = Ok r) ∧
    (Z.of_nat (length (rres_hits r)) <= qry_limit q)%Z ∧
    StronglySorted (key_le (hit_key policy)) (rres_hits r) ∧
    (∀ h, h ∈ rres_hits r → ∃ p, p ∈ packages ∧ fresh_hit owned_fingerprints q policy p = Some h) ∧
    (∀ p h, p ∈ packages → fresh_hit owned_fingerprints q policy p = Some h →
       h ∈ rres_hits r ∨
       (Z.of_nat (length (rres_hits r)) = qry_limit q ∧
        ∀ h', h' ∈ rres_hits r → key_le (hit_key policy) h' h)) ∧
    (∀ id, id ∈ rres_rejected_stale_package_ids r ↔
       ∃ p, p ∈ packages ∧ pkg_id p = id ∧ stale_hit owned_fingerprints q policy p = true).
Proof.
  destruct Hq as (Hlim & Hcheck & Hindex).
  destruct (collect_values_spec pkg_id
    (Exn RetrievalConflictError "retention package identity has conflicting contents") _ Hids)
    as (k & Hk & Hkk & Hmem & Hnd & _).

  set (found := omap (fresh_hit owned_fingerprints q policy) k).
  set (hits := sort_by (hit_key policy) found).
  set (stale := map pkg_id (List.filter (stale_hit owned_fingerprints q policy) k)).
  set (n := Z.to_nat (qry_limit q)).
  assert (∀ h, h ∈ hits ↔ ∃ p, p ∈ packages ∧ fresh_hit owned_fingerprints q policy p = Some h) as Hhits.
  { intros h. unfold hits, found. rewrite elem_of_sort_by, list_elem_of_omap. by setoid_rewrite Hmem. }
  assert (∀ p h, fresh_hit owned_fingerprints q policy p = Some h → hit_package_id h = pkg_id p) as Hid.
  { intros p h [H _]%fresh_hit_of. by eapply hit_of_id. }
  assert (NoDup (map hit_package_id found)) as Hndf.
  { eapply sublist_NoDup; [exact Hnd|]. by apply (omap_keys _ pkg_id). }
  assert (NoDup (hit_package_id <$> hits)) as Hndh by (unfold hits; by rewrite sort_by_perm).
  assert (∀ id, id ∈ sorted stale ↔
     ∃ p, p ∈ packages ∧ pkg_id p = id ∧ stale_hit owned_fingerprints q policy p = true) as Hstale.
  { intros id. rewrite elem_of_sorted. unfold stale. rewrite elem_of_map. setoid_rewrite elem_of_lfilter.
    setoid_rewrite Hmem. naive_solver. }
  exists (MkRetrievalResult result_id (qry_id q) (srp_id policy) (srp_version policy)
            (qry_source_sequence q) (qry_source_index_fingerprint q) (take n hits) (sorted stale)).
  cbn [rres_hits rres_rejected_stale_package_ids]. split_and!; [| | | | |done].
  - intros l Hl. unfold retrieve. rewrite Hcheck. cbn [mbind result_bind].
    rewrite (Hk l Hl : deduplicate_packages l = Ok k). cbn [mbind result_bind].
    assert (structural_index_fingerprint k owned_fingerprints = Ok (qry_source_index_fingerprint q)) as ->.
    { rewrite <-Hindex. unfold structural_index_fingerprint. rewrite (Hkk : deduplicate_packages k = Ok k).
      by rewrite (Hk packages (reflexivity _) : deduplicate_packages packages = Ok k). }
    cbn [mbind result_bind]. rewrite bool_decide_eq_true_2 by done. cbn [negb raise_if mbind result_bind].
    rewrite scan_packages_spec by (intros p Hp; by apply Hvalid, Hmem). cbn [mbind result_bind fst snd].
    fold found. fold hits. fold stale. fold n.
    unfold validate_result. cbn [rres_hits rres_rejected_stale_package_ids].
    rewrite (proj2 (nuniq_false _)) by (eapply sublist_NoDup; [exact Hndh|apply fmap_sublist, sublist_take]).
    rewrite require_canonical_sorted by (eapply sublist_NoDup; [exact Hnd|apply fmap_sublist, lfilter_sublist]).
    cbn [mbind result_bind raise_if]. destruct (intersects _ _) eqn:E; [|done]. exfalso.
    unfold intersects in E. apply any_true in E as (id & Hin & Hs). rewrite mem_true, Hstale in Hs.
    apply elem_of_map in Hin as (h & Hh & ->). destruct Hs as (p & Hp & Hpid & Hs).
    eapply elem_of_sublist in Hh; [|apply sublist_take]. apply Hhits in Hh as (p' & Hp' & Hh).
    assert (p' = p) as ->.
    { apply Hids; [done..|]. by rewrite Hpid, (Hid _ _ Hh). }
    apply fresh_hit_of in Hh as [_ Hh]. unfold stale_hit in Hs. by rewrite Hh in Hs.
  - rewrite length_take. lia.
  - pose proof (sort_by_sorted (hit_key policy) found) as Hs. fold hits in Hs.
    rewrite <-(take_drop n hits) in Hs. by apply StronglySorted_app_1_l in Hs.
  - intros h Hh. apply Hhits. eapply elem_of_sublist; [exact Hh|apply sublist_take].
  - intros p h Hp Hh. assert (h ∈ hits) as Hin by (apply Hhits; eauto).
    rewrite <-(take_drop n hits) in Hin. apply elem_of_app in Hin as [Hin|Hin]; [by left|right]. split.
    + rewrite length_take. assert (n < length hits); [|lia].
      destruct (decide (n < length hits)); [done|]. rewrite drop_ge in Hin by lia. by apply not_elem_of_nil in Hin.
    + intros h' Hh'. eapply take_sorted; [apply (sort_by_sorted (hit_key policy) found)|exact Hh'|exact Hin].
Qed.

(** ** A concrete retrieval: one fresh match, one stale *)

Definition example_ref (id fingerprint : string) : OwnedMemoryRef :=
  MkOwnedMemoryRef SEMANTIC LEMMA_VERSION id 1 fingerprint.
Definition example_package (id ref fingerprint : string) : RetentionPackage :=
  MkRetentionPackage id "scope" "binding" "horizon" [example_ref ref fingerprint] ["cue"] []
    ["route-" +:+ id] [] [] [] [] [] ["provenance"].
Definition example_packages : list RetentionPackage :=
  [example_package "p2" "lemma-2" "old"; example_package "p1" "lemma-1" "current"].
Definition example_fingerprints : gmap string string :=
  <[omr_key (example_ref "lemma-1" "current") := "current"]>
  (<[omr_key (example_ref "lemma-2" "current") := "current"]> ∅).
Definition example_query (index : string) : RetrievalQuery :=
  MkRetrievalQuery "q" "structural-exact-v1" "1" "scope" "binding" "horizon" 7 index
    [] [] [] ["cue"] [] 5.

Lemma example_packages_deduplicated :
  deduplicate_packages example_packages =
  Ok [example_package "p1" "lemma-1" "current"; example_package "p2" "lemma-2" "old"].
Proof. vm_compute. reflexivity. Qed.

Lemma example_packages_valid p : p ∈ example_packages → validate_package p = Ok tt.
Proof.
  unfold example_packages. rewrite !elem_of_cons.
  intros [->|[->|Hp]]; [vm_compute; reflexivity..|by apply not_elem_of_nil in Hp].
Qed.

Lemma example_packages_consistent : consistent pkg_id example_packages.
Proof.
  intros x y. unfold example_packages. rewrite !elem_of_cons.
  intros [->|[->|Hx]] [->|[->|Hy]]; try (by apply not_elem_of_nil in Hx); try (by apply not_elem_of_nil in Hy); done.
Qed.

Lemma retrieve_exact_witness :
  ∃ index r, retrieve "r" (example_query index) STRUCTURAL_EXACT_V1 example_packages example_fingerprints = Ok r ∧
    (Z.of_nat (length (rres_hits r)) <= 5)%Z ∧ "p2" ∈ rres_rejected_stale_package_ids r.
Proof.
  assert (∃ index, structural_index_fingerprint example_packages example_fingerprints = Ok index) as [index Hi].
  { unfold structural_index_fingerprint. rewrite example_packages_deduplicated. eexists. reflexivity. }
  exists index.
  destruct (retrieve_exact "r" (example_query index) STRUCTURAL_EXACT_V1 example_packages example_fingerprints)
    as (r & Hr & Hlen & _ & _ & _ & Hstale);
    [split_and!; [done|vm_compute; reflexivity|exact Hi]|apply example_packages_valid|apply example_packages_consistent|].
  exists r. split_and!; [by apply Hr|exact Hlen|].
  apply Hstale. exists (example_package "p2" "lemma-2" "old").
  split_and!; [by left|reflexivity|].
  unfold stale_hit, hit_of. replace (rank_package _ _ _)
    with (Some (MkRetrievalRank 0 0 0 1 0, ["M_S:lemma_version:lemma-2:v1"], ["cue"], @nil string))
    by (vm_compute; reflexivity).
  reflexivity.
Defined.
