(* ===== verification/Learning.v ===== *)
(** * Consolidation and learned probes: [src/rci/learning/models.py], [policies.py]

    Checkpoints, candidates, memory patches, field evaluations, representation
    gaps, learned probes and their evaluation, with every validator, and the pure
    policies that compute them.  The literal fields of the policies ([Literal[4]]
    and the like) are constants.  Theorems: a checkpoint the policy selects is
    valid and within the policy's limits; a stratified split is a partition of the
    samples that keeps every consequence class on both sides; an evaluation the
    policy builds is valid. *)

From S2P Require Import Prelude Digest Model Claims Warrant Effects Probes Dumps Memory Retrieval.

(** [_canonical] *)
Definition learning_canonical (values : list string) (name : string) : result unit :=
  raise_if (negb (uniq values) || negb (canonical values))
    ValidationError (name +:+ " must be unique and canonically sorted").

(** ** Consolidation *)

Inductive ConsolidationSourceRole : Type := RECENT_EPISODE | OLDER_EXCEPTION | ROLE_COUNTEREXAMPLE.
#[export] Instance ConsolidationSourceRole_eq_dec : EqDecision ConsolidationSourceRole.
Proof. solve_decision. Defined.

Inductive ConsolidationStatus : Type := CONSOLIDATION_READY | INSUFFICIENT_DIVERSITY.
#[export] Instance ConsolidationStatus_eq_dec : EqDecision ConsolidationStatus.
Proof. solve_decision. Defined.

(** [ConsolidationPolicy] has only literal fields. *)
Definition recent_limit : nat := 4.
Definition exception_limit : nat := 4.
Definition counterexample_limit : nat := 4.
Definition minimum_distinct_episodes : nat := 2.

Record ConsolidationSource : Type := MkConsolidationSource {
  cs_role : ConsolidationSourceRole;
  cs_reference : OwnedMemoryRef;
  cs_semantic_sequence : Z;
}.
#[export] Instance ConsolidationSource_eq_dec : EqDecision ConsolidationSource.
Proof. solve_decision. Defined.

Record ConsolidationCheckpoint : Type := MkConsolidationCheckpoint {
  ccp_id : string;
  ccp_source_sequence : Z;
  ccp_source_index_fingerprint : string;
  ccp_scope_fingerprint : string;
  ccp_binding_revision : string;
  ccp_protected_horizon_id : string;
  ccp_sources : list ConsolidationSource;
  ccp_status : ConsolidationStatus;
}.
#[export] Instance ConsolidationCheckpoint_eq_dec : EqDecision ConsolidationCheckpoint.
Proof. solve_decision. Defined.

Definition is_episode (s : ConsolidationSource) : bool :=
  match cs_role s with RECENT_EPISODE | OLDER_EXCEPTION => true | ROLE_COUNTEREXAMPLE => false end.

Definition episode_status (sources : list ConsolidationSource) : ConsolidationStatus :=
  if (minimum_distinct_episodes <=? length (List.filter is_episode sources))%nat
  then CONSOLIDATION_READY else INSUFFICIENT_DIVERSITY.

Definition validate_checkpoint (c : ConsolidationCheckpoint) : result unit :=
  raise_if (negb (uniq (map (λ s, omr_key (cs_reference s)) (ccp_sources c))))
    ValidationError "consolidation sources must be deduplicated";;
  raise_if (ccp_status c !=? episode_status (ccp_sources c))
    ValidationError "consolidation status does not match source diversity".

Record CandidateSupportBoundary : Type := MkCandidateSupportBoundary {
  csb_scope : Scope;
  csb_applicability_guard_id : string;
  csb_assumption_ids : list string;
  csb_required_dependency_ids : list string;
  csb_open_dependency_obligation_ids : list string;
}.
#[export] Instance CandidateSupportBoundary_eq_dec : EqDecision CandidateSupportBoundary.
Proof. solve_decision. Defined.

Definition validate_boundary (b : CandidateSupportBoundary) : result unit :=
  learning_canonical (csb_assumption_ids b) "candidate assumptions";;
  learning_canonical (csb_required_dependency_ids b) "candidate dependencies";;
  learning_canonical (csb_open_dependency_obligation_ids b) "candidate open dependencies";;
  raise_if (is_empty (csb_applicability_guard_id b))
    ValidationError "candidate applicability guard is required".

Record ConsolidationCandidate : Type := MkConsolidationCandidate {
  ccd_id : string;
  ccd_checkpoint_id : string;
  ccd_generalization_claim_id : string;
  ccd_boundary : CandidateSupportBoundary;
  ccd_challenge_obligation_ids : list string;
}.
#[export] Instance ConsolidationCandidate_eq_dec : EqDecision ConsolidationCandidate.
Proof. solve_decision. Defined.

Definition validate_consolidation_candidate (c : ConsolidationCandidate) : result unit :=
  learning_canonical (ccd_challenge_obligation_ids c) "consolidation challenges";;
  raise_if (is_nil (ccd_challenge_obligation_ids c))
    ValidationError "consolidation requires an explicit challenge obligation".

(** ** Memory patches *)

Inductive MemoryPatchKind : Type := GUARD_CHANGE | RELATION_CHANGE | SPLIT | REBIND.
#[export] Instance MemoryPatchKind_eq_dec : EqDecision MemoryPatchKind.
Proof. solve_decision. Defined.

Inductive DependencyDispositionKind : Type := TRANSPORTED | HARD_DISCHARGED.
#[export] Instance DependencyDispositionKind_eq_dec : EqDecision DependencyDispositionKind.
Proof. solve_decision. Defined.

Record DependencyDisposition : Type := MkDependencyDisposition {
  dd_dependency_id : string;
  dd_kind : DependencyDispositionKind;
  dd_warrant_decision_id : option string;
}.
#[export] Instance DependencyDisposition_eq_dec : EqDecision DependencyDisposition.
Proof. solve_decision. Defined.

Definition validate_dependency_disposition (d : DependencyDisposition) : result unit :=
  match dd_kind d with
  | HARD_DISCHARGED => raise_if (is_none (dd_warrant_decision_id d))
      ValidationError "hard dependency discharge requires a warrant decision"
  | TRANSPORTED => raise_if (is_some (dd_warrant_decision_id d))
      ValidationError "transported dependencies do not carry a discharge warrant"
  end.

Record MemoryPatchCandidate : Type := MkMemoryPatchCandidate {
  mpc_id : string;
  mpc_target_lemma_id : string;
  mpc_triggering_mismatch_id : string;
  mpc_triggering_return_id : string;
  mpc_proposed_claim_id : string;
  mpc_patch_kind : MemoryPatchKind;
  mpc_predecessor_support_route_ids : list string;
  mpc_dependency_dispositions : list DependencyDisposition;
  mpc_challenge_obligation_ids : list string;
  mpc_scope_fingerprint : string;
}.
#[export] Instance MemoryPatchCandidate_eq_dec : EqDecision MemoryPatchCandidate.
Proof. solve_decision. Defined.

Definition validate_patch (c : MemoryPatchCandidate) : result unit :=
  learning_canonical (mpc_predecessor_support_route_ids c) "predecessor support routes";;
  learning_canonical (mpc_challenge_obligation_ids c) "patch challenges";;
  learning_canonical (map dd_dependency_id (mpc_dependency_dispositions c)) "dependency dispositions";;
  raise_if (is_nil (mpc_predecessor_support_route_ids c) || is_nil (mpc_challenge_obligation_ids c))
    ValidationError "memory patch requires predecessor support and challenge obligations".

Record ReconsolidationLink : Type := MkReconsolidationLink {
  rlink_id : string;
  rlink_memory_patch_id : string;
  rlink_predecessor_lemma_id : string;
  rlink_successor_lemma_id : string;
  rlink_correction_id : string;
  rlink_warrant_decision_id : string;
}.
#[export] Instance ReconsolidationLink_eq_dec : EqDecision ReconsolidationLink.
Proof. solve_decision. Defined.

(** ** Field evaluations *)

(** [SemanticFieldPolicy] has only literal fields. *)
Definition maximum_items : nat := 32.

Inductive SemanticFieldEvaluationStatus : Type := FIELD_VALID | FIELD_INCOMPLETE | FIELD_INVALID.
#[export] Instance SemanticFieldEvaluationStatus_eq_dec : EqDecision SemanticFieldEvaluationStatus.
Proof. solve_decision. Defined.

Record SemanticFieldEvaluation : Type := MkSemanticFieldEvaluation {
  sfe_id : string;
  sfe_field_id : string;
  sfe_field_fingerprint : string;
  sfe_field : SemanticField;
  sfe_source_sequence : Z;
  sfe_source_index_fingerprint : string;
  sfe_probe_fingerprint : string;
  sfe_required_structure_ids : list string;
  sfe_included_structure_ids : list string;
  sfe_overflow_structure_ids : list string;
  sfe_irrelevant_structure_ids : list string;
  sfe_status : SemanticFieldEvaluationStatus;
}.
#[export] Instance SemanticFieldEvaluation_eq_dec : EqDecision SemanticFieldEvaluation.
Proof. solve_decision. Defined.

(** [model_dump_json()]: compact JSON in the order the fields are declared. *)
Fixpoint compact_json (j : json) : string :=
  match j with
  | JList l => "[" +:+ join "," (map compact_json l) +:+ "]"
  | JObject o => "{" +:+ join "," (map (λ kv, quote kv.1 (":" +:+ compact_json kv.2)) o) +:+ "}"
  | _ => canonical_json j
  end.

#[export] Instance SemanticField_to_json : ToJson SemanticField := λ f,
  JObject [("id", to_json (sf_id f)); ("probe_fingerprint", to_json (sf_probe_fingerprint f));
           ("protected_horizon_id", to_json (sf_protected_horizon_id f));
           ("items", to_json (sf_items f));
           ("same_probe_history_event_ids", to_json (sf_same_probe_history_event_ids f));
           ("cross_probe_trace_ids", to_json (sf_cross_probe_trace_ids f));
           ("retrieval_result_ids", to_json (sf_retrieval_result_ids f));
           ("method_contract_ids", to_json (sf_method_contract_ids f));
           ("reopening_condition_ids", to_json (sf_reopening_condition_ids f))].

Definition field_digest (f : SemanticField) : string := Sha256.hexdigest (compact_json (to_json f)).

(** The status of exact coverage. *)
Definition coverage_status (required included overflow : list string) : SemanticFieldEvaluationStatus :=
  if negb (subset required included) || negb (is_nil overflow) then FIELD_INCOMPLETE else FIELD_VALID.

Definition validate_evaluation (e : SemanticFieldEvaluation) : result unit :=
  raise_if (sf_id (sfe_field e) !=? sfe_field_id e)
    ValidationError "semantic-field evaluation must embed its exact derived field";;
  raise_if (field_digest (sfe_field e) !=? sfe_field_fingerprint e)
    ValidationError "semantic-field fingerprint does not match the embedded field";;
  raise_if (sf_probe_fingerprint (sfe_field e) !=? sfe_probe_fingerprint e)
    ValidationError "semantic field and evaluation must name the same probe";;
  learning_canonical (sfe_required_structure_ids e) "required structures";;
  learning_canonical (sfe_included_structure_ids e) "included structures";;
  learning_canonical (sfe_overflow_structure_ids e) "overflow structures";;
  learning_canonical (sfe_irrelevant_structure_ids e) "irrelevant structures";;
  raise_if (intersects (sfe_included_structure_ids e) (sfe_overflow_structure_ids e))
    ValidationError "field items cannot be both included and overflow";;
  raise_if (sfe_status e !=? coverage_status (sfe_required_structure_ids e)
              (sfe_included_structure_ids e) (sfe_overflow_structure_ids e))
    ValidationError "field status does not match exact coverage".

(** ** Representation gaps and learned probes *)

Inductive RepresentationGapKind : Type :=
| NO_SEPARATOR | BINDING_INADEQUATE | PROBE_BASIS_INADEQUATE | LANGUAGE_INADEQUATE.
#[export] Instance RepresentationGapKind_eq_dec : EqDecision RepresentationGapKind.
Proof. solve_decision. Defined.

Record RepresentationGap : Type := MkRepresentationGap {
  gap_id : string;
  gap_obligation_id : string;
  gap_state_or_claim_ids : list string;
  gap_protected_consequence_difference_id : string;
  gap_failed_probe_fingerprints : list string;
  gap_kind : RepresentationGapKind;
  gap_scope_fingerprint : string;
  gap_binding_revision : string;
  gap_protected_horizon_id : string;
}.
#[export] Instance RepresentationGap_eq_dec : EqDecision RepresentationGap.
Proof. solve_decision. Defined.

Definition validate_gap (g : RepresentationGap) : result unit :=
  learning_canonical (gap_state_or_claim_ids g) "gap source ids";;
  learning_canonical (gap_failed_probe_fingerprints g) "failed probes";;
  raise_if (is_nil (gap_failed_probe_fingerprints g))
    ValidationError "representation gap requires at least one failed probe".

Record LearnedProbeCandidate : Type := MkLearnedProbeCandidate {
  lpc_id : string;
  lpc_representation_gap_id : string;
  lpc_probe_identity : ProbeIdentity;
  lpc_generated_payload : json;
  lpc_challenge_obligation_ids : list string;
}.

Definition learned_probe_eqb (x y : LearnedProbeCandidate) : bool :=
  (lpc_id x ==? lpc_id y) && (lpc_representation_gap_id x ==? lpc_representation_gap_id y)
  && (lpc_probe_identity x ==? lpc_probe_identity y)
  && json_eqb (lpc_generated_payload x) (lpc_generated_payload y)
  && (lpc_challenge_obligation_ids x ==? lpc_challenge_obligation_ids y).

Definition validate_probe_candidate (c : LearnedProbeCandidate) : result unit :=
  raise_if (pi_question_contract_key (lpc_probe_identity c) !=? "learned-recurrent-probe@1.0.0")
    ValidationError "learned probes use the fixed inert learned-probe contract";;
  learning_canonical (lpc_challenge_obligation_ids c) "probe challenges";;
  raise_if (is_nil (lpc_challenge_obligation_ids c))
    ValidationError "learned probe requires attack obligations".

Record ProbeSample : Type := MkProbeSample {
  smp_observation_id : string;
  smp_protected_consequence_class_id : string;
  smp_existing_basis_class_id : string;
  smp_candidate_value_id : string;
}.
#[export] Instance ProbeSample_eq_dec : EqDecision ProbeSample.
Proof. solve_decision. Defined.

#[export] Instance ProbeSample_to_json : ToJson ProbeSample := λ s,
  JObject [("observation_id", to_json (smp_observation_id s));
           ("protected_consequence_class_id", to_json (smp_protected_consequence_class_id s));
           ("existing_basis_class_id", to_json (smp_existing_basis_class_id s));
           ("candidate_value_id", to_json (smp_candidate_value_id s))].

(** [ProbeSample.fingerprint] *)
Definition sample_fingerprint (s : ProbeSample) : string :=
  content_fingerprint "rci.probe-sample.v1" (to_json s).

(** [ProbeEvaluationProtocol] has only literal fields. *)
Definition holdout_denominator : nat := 4.
Definition protocol_json : json :=
  JObject [("schema_version", JInt 1); ("id", JString "finite-stratified-holdout-v1");
           ("version", JString "1"); ("holdout_denominator", JInt 4)].

Record ProbeEvaluation : Type := MkProbeEvaluation {
  pev_id : string;
  pev_candidate_probe_id : string;
  pev_sample_index_fingerprint : string;
  pev_samples : list ProbeSample;
  pev_training_observation_ids : list string;
  pev_holdout_observation_ids : list string;
  pev_training_discrimination_gain : Z;
  pev_holdout_discrimination_gain : Z;
  pev_protected_error_count : Z;
  pev_redundancy_check : CheckReference;
  pev_protected_behavior_check : CheckReference;
  pev_evaluation_proposition_id : string;
}.
#[export] Instance ProbeEvaluation_eq_dec : EqDecision ProbeEvaluation.
Proof. solve_decision. Defined.

Definition validate_probe_evaluation (e : ProbeEvaluation) : result unit :=
  learning_canonical (pev_training_observation_ids e) "training observations";;
  learning_canonical (pev_holdout_observation_ids e) "holdout observations";;
  raise_if (intersects (pev_training_observation_ids e) (pev_holdout_observation_ids e))
    ValidationError "training and holdout observations must be disjoint";;
  raise_if (is_nil (pev_training_observation_ids e) || is_nil (pev_holdout_observation_ids e))
    ValidationError "probe evaluation requires training and holdout observations";;
  let sample_ids := sorted (map smp_observation_id (pev_samples e)) in
  raise_if (negb (uniq sample_ids)
            || (sample_ids !=? sorted (pev_training_observation_ids e ++ pev_holdout_observation_ids e)))
    ValidationError "probe samples must exactly cover training and holdout ids".

Inductive ProbeAdmissionOutcome : Type := PROBE_ADMIT | PROBE_REJECT | PROBE_INCONCLUSIVE.
#[export] Instance ProbeAdmissionOutcome_eq_dec : EqDecision ProbeAdmissionOutcome.
Proof. solve_decision. Defined.

Record ProbeAdmissionDecision : Type := MkProbeAdmissionDecision {
  pad_id : string;
  pad_candidate_probe_id : string;
  pad_evaluation_id : string;
  pad_outcome : ProbeAdmissionOutcome;
  pad_controller_id : string;
}.
#[export] Instance ProbeAdmissionDecision_eq_dec : EqDecision ProbeAdmissionDecision.
Proof. solve_decision. Defined.

(** ** [policies.py] *)

Definition newline : string := String (Ascii.ascii_of_nat 10) "".

Definition line_digest (sequence : Z) (lines : list string) : string :=
  Sha256.hexdigest (pretty sequence +:+ newline +:+ join newline lines).

(** [_source_index_fingerprint] *)
Definition source_index_fingerprint (references : list OwnedMemoryRef) (sequence : Z) : string :=
  line_digest sequence (sorted (map omr_key references)).

(** [l[-n:]], for a positive [n] *)
Definition last_n {A} (n : nat) (l : list A) : list A := drop (length l - n) l.

Definition pinned_observation (scope_fingerprint binding_revision protected_horizon_id : string)
    (e : ProbeEvent) : bool :=
  (pi_scope_fingerprint (pe_probe_identity e) ==? scope_fingerprint)
  && (pe_binding_revision e ==? binding_revision)
  && (pi_protected_horizon_id (pe_probe_identity e) ==? protected_horizon_id).

Definition in_conflict (id : string) (k : Conflict) : bool :=
  ((conflict_claim_ids k).1 ==? id) || ((conflict_claim_ids k).2 ==? id).

(** The nested [is_exception]. *)
Definition is_exception (claims : list Claim) (conflicts : list Conflict) (mismatches : list Mismatch)
    (e : ProbeEvent) : bool :=
  let claims_by_id := dict_by claim_id claims in
  let associated := omap (λ id, claims_by_id !! id) (pe_interpretation_claim_ids e) in
  existsb (λ r, mem r (map mm_external_return_id mismatches)) (pe_external_return_ids e)
  || existsb (λ c, existsb (λ k, in_conflict (claim_id c) k) conflicts
                   || (claim_assessment c ==? CONTESTED) || (claim_assessment c ==? REFUTED)) associated.

Definition episode_source (role : ConsolidationSourceRole) (e : ProbeEvent) : result ConsolidationSource :=
  ref ← make_owned_memory_ref EPISODIC PROBE_EVENT (pe_id e) 1 (OwnedProbeEvent e);
  Ok (MkConsolidationSource role ref (pe_sequence_index e)).

(** The record of an effect request has no [schema_version], so building the
    reference of an accepted counterexample raises. *)
Definition counterexample_source (r : EffectRequestState) : result (option ConsolidationSource) :=
  match accepted_result r with
  | Some (CounterexampleResult _ _ _) =>
    raise AttributeError "'EffectRequest' object has no attribute 'schema_version'"
  | _ => Ok None
  end.

(** [seen = set(); for x in l: if key(x) not in seen: kept.append(x); seen.add(key(x))] *)
Fixpoint keep_first `{EqDecision K} {A} (key : A → K) (seen : list K) (l : list A) : list A :=
  match l with
  | [] => []
  | x :: l => if mem (key x) seen then keep_first key seen l else x :: keep_first key (key x :: seen) l
  end.

Definition event_order (e : ProbeEvent) : Z * string := (pe_sequence_index e, pe_id e).

Definition recent_observations (observations : list ProbeEvent) : list ProbeEvent :=
  last_n recent_limit observations.

Definition older_exceptions (exceptional : ProbeEvent → bool) (observations : list ProbeEvent) :
    list ProbeEvent :=
  last_n exception_limit
    (List.filter (λ e, negb (mem (pe_id e) (map pe_id (recent_observations observations))) && exceptional e)
       observations).

Definition select_consolidation_checkpoint (checkpoint_id : string) (source_sequence : Z)
    (scope_fingerprint binding_revision protected_horizon_id : string)
    (probe_observations : list ProbeEvent) (claims : list Claim) (conflicts : list Conflict)
    (mismatches : list Mismatch) (requests : list EffectRequestState) : result ConsolidationCheckpoint :=
  let observations := sort_by event_order
    (List.filter (pinned_observation scope_fingerprint binding_revision protected_horizon_id)
       probe_observations) in
  let recent := recent_observations observations in
  let older := older_exceptions (is_exception claims conflicts mismatches) observations in
  recent_sources ← traverse (episode_source RECENT_EPISODE) (reverse recent);
  older_sources ← traverse (episode_source OLDER_EXCEPTION) (reverse older);
  counterexamples ← traverse counterexample_source
    (take counterexample_limit (values_by ers_id (dict_by ers_id requests)));
  let sources := keep_first (λ s, omr_key (cs_reference s)) []
    (recent_sources ++ older_sources ++ omap id counterexamples) in
  let c := MkConsolidationCheckpoint checkpoint_id source_sequence
    (source_index_fingerprint (map cs_reference sources) source_sequence)
    scope_fingerprint binding_revision protected_horizon_id sources (episode_status sources) in
  validate_checkpoint c;; Ok c.

(** [derive_conservative_field]: the field, the required and the overflowing
    structures, and the digest of the source index. *)
Definition ordered_structures (safety exception dependency retrieval : list string) : list string :=
  keep_first id [] (sorted_set safety ++ sorted_set exception ++ sorted_set dependency
                    ++ sorted_set retrieval).

Definition active_item (id : string) : SemanticItem := MkSemanticItem id ACTIVE None None.

Definition derive_conservative_field (probe_identity : ProbeIdentity) (source_sequence : Z)
    (safety exception dependency retrieval : list string) :
    result (SemanticField * list string * list string * string) :=
  let ordered := ordered_structures safety exception dependency retrieval in
  let required := sorted_set (safety ++ exception ++ dependency) in
  let included := take maximum_items ordered in
  let overflow := sorted (drop maximum_items ordered) in
  for_each (λ id, validate_item (active_item id)) included;;
  field ← build_semantic_field
    (MkFieldInputs probe_identity (pi_protected_horizon_id probe_identity) (map active_item included)
       [] [] (sorted_set retrieval) [] [] []);
  Ok (field, required, overflow, line_digest source_sequence ordered).

Definition evaluate_conservative_field (evaluation_id : string) (field : SemanticField)
    (source_sequence : Z) (source_index_fingerprint probe_fingerprint : string)
    (required_structure_ids overflow_structure_ids : list string) : result SemanticFieldEvaluation :=
  let included := sorted (map si_structure_id (sf_items field)) in
  let irrelevant := sorted (map si_structure_id
    (List.filter (λ i, si_relevance i ==? IRRELEVANT) (sf_items field))) in
  let required := sorted_set required_structure_ids in
  let overflow := sorted_set overflow_structure_ids in
  let e := MkSemanticFieldEvaluation evaluation_id (sf_id field) (field_digest field) field
    source_sequence source_index_fingerprint probe_fingerprint required included overflow irrelevant
    (coverage_status required included overflow) in
  validate_evaluation e;; Ok e.

Definition semantic_field_overflow_residual (e : SemanticFieldEvaluation) (scope : Scope) :
    result (option Residual) :=
  if is_nil (sfe_overflow_structure_ids e) then Ok None
  else
    let identity := content_fingerprint "rci.semantic-field-overflow-residual.v1"
      (JObject [("evaluation_id", JString (sfe_id e));
                ("overflow", to_json (sfe_overflow_structure_ids e));
                ("scope", JString (scope_fingerprint scope))]) in
    let r := MkResidual ("residual_" +:+ prefix 24 identity) (sfe_field_id e)
      (PayloadJson (JObject [("kind", JString "semantic_field_overflow");
                             ("structure_ids", to_json (sfe_overflow_structure_ids e))]))
      scope (MkProvenance "derived_policy" (sfe_id e) None) [] in
    validate_provenance (resid_provenance r);;
    validate_residual r;; Ok (Some r).

(** Does the candidate value tell apart two samples the existing basis does not? *)
Definition separates (left right : ProbeSample) : bool :=
  (smp_protected_consequence_class_id left !=? smp_protected_consequence_class_id right)
  && (smp_existing_basis_class_id left ==? smp_existing_basis_class_id right)
  && (smp_candidate_value_id left !=? smp_candidate_value_id right).

Fixpoint pair_gain (samples : list ProbeSample) : Z :=
  match samples with
  | [] => 0
  | x :: samples => Z.of_nat (length (List.filter (separates x) samples)) + pair_gain samples
  end%Z.

Definition sample_order (s : ProbeSample) : string * string := (sample_fingerprint s, smp_observation_id s).

(** [max(1, ceil(n / holdout_denominator))] *)
Definition holdout_count (n : nat) : nat :=
  Nat.max 1 ((n + (holdout_denominator - 1)) / holdout_denominator).

Definition class_group (samples : list ProbeSample) (class_id : string) : list ProbeSample :=
  sort_by sample_order
    (List.filter (λ s, smp_protected_consequence_class_id s ==? class_id) samples).

(** One class: its training and its holdout samples. *)
Definition split_group (group : list ProbeSample) : result (list ProbeSample * list ProbeSample) :=
  raise_if (length group <? 2)%nat
    ValueError "each consequence class requires training and holdout samples";;
  let n := holdout_count (length group) in
  raise_if (length group <=? n)%nat
    ValueError "holdout split must leave a training sample in each class";;
  Ok (take (length group - n) group, last_n n group).

Definition stratified_probe_split (samples : list ProbeSample) :
    result (list ProbeSample * list ProbeSample) :=
  groups ← traverse (λ class_id, split_group (class_group samples class_id))
             (sorted_set (map smp_protected_consequence_class_id samples));
  Ok (concat (map fst groups), concat (map snd groups)).

Definition probe_evaluation_proposition_id (candidate_probe_id : string) (samples : list ProbeSample)
    (training_observation_ids holdout_observation_ids : list string)
    (training_discrimination_gain holdout_discrimination_gain protected_error_count : Z) : string :=
  "probe-evaluation:" +:+ Sha256.hexdigest (canonical_json
    (JObject [("candidate_probe_id", JString candidate_probe_id);
              ("holdout_discrimination_gain", JInt holdout_discrimination_gain);
              ("holdout_observation_ids", to_json holdout_observation_ids);
              ("protected_error_count", JInt protected_error_count);
              ("protocol", protocol_json);
              ("samples", to_json (sort_by smp_observation_id samples));
              ("training_discrimination_gain", JInt training_discrimination_gain);
              ("training_observation_ids", to_json training_observation_ids)])).

Definition build_probe_evaluation (evaluation_id candidate_probe_id : string) (samples : list ProbeSample)
    (redundancy_check protected_behavior_check : CheckReference) : result ProbeEvaluation :=
  split ← stratified_probe_split samples;
  let training_ids := sorted (map smp_observation_id split.1) in
  let holdout_ids := sorted (map smp_observation_id split.2) in
  let e := MkProbeEvaluation evaluation_id candidate_probe_id
    (Sha256.hexdigest (join newline (sorted (map sample_fingerprint samples))))
    (sort_by smp_observation_id samples) training_ids holdout_ids
    (pair_gain split.1) (pair_gain split.2) 0 redundancy_check protected_behavior_check
    (probe_evaluation_proposition_id candidate_probe_id samples training_ids holdout_ids
       (pair_gain split.1) (pair_gain split.2) 0) in
  validate_probe_evaluation e;; Ok e.

Definition unresolved_obligation_ids (obligations : list Obligation) : list string :=
  remove_dups (map obl_id (List.filter (λ o, obl_status o !=? SATISFIED) obligations)).

(** ** Properties *)

(** Grouping a sequence by a key loses nothing. *)
Lemma concat_groups_cons {A K} `{EqDecision K} (f : A → K) (h : K → list A) x keys :
  NoDup keys → f x ∈ keys →
  concat (map (λ k, if f x ==? k then x :: h k else h k) keys) ≡ₚ x :: concat (map h keys).
Proof.
  induction 1 as [|k keys Hk Hnd IH]; [by intros ?%not_elem_of_nil|]. cbn [map concat].
  destruct (f x ==? k) eqn:E.
  - apply bool_decide_eq_true in E as <-. intros _. cbn. apply Permutation_skip, Permutation_app; [done|].
    erewrite (map_ext_in _ h); [done|]. intros k' Hk'%list_elem_of_In. rewrite bool_decide_eq_false_2; [done|].
    by intros <-.
  - apply bool_decide_eq_false in E. intros [Hx|Hx]%elem_of_cons; [done|]. rewrite (IH Hx).
    by rewrite Permutation_middle.
Qed.

Lemma concat_groups {A K} `{EqDecision K} (f : A → K) keys l :
  NoDup keys → (∀ x, x ∈ l → f x ∈ keys) →
  concat (map (λ k, List.filter (λ x, f x ==? k) l) keys) ≡ₚ l.
Proof.
  intros Hnd. induction l as [|x l IH]; intros Hl.
  - induction keys as [|k keys IHk]; [done|]. cbn. apply IHk; [by inversion Hnd|]. by intros x ?%not_elem_of_nil.
  - cbn [List.filter]. rewrite concat_groups_cons; [|done|apply Hl; by left].
    rewrite IH; [done|]. intros y Hy. apply Hl. by right.
Qed.

Lemma concat_perm {A B} (f g : A → list B) l :
  (∀ x, x ∈ l → f x ≡ₚ g x) → concat (map f l) ≡ₚ concat (map g l).
Proof.
  induction l as [|x l IH]; intros Hl; cbn; [done|]. rewrite (Hl x) by (by left).
  rewrite IH; [done|]. intros y Hy. apply Hl. by right.
Qed.

Lemma concat_split {A B} (f g : A → list B) l :
  concat (map f l) ++ concat (map g l) ≡ₚ concat (map (λ x, f x ++ g x) l).
Proof.
  induction l as [|x l IH]; cbn; [done|]. rewrite <-IH, <-!app_assoc. apply Permutation_app_head.
  rewrite !app_assoc. apply Permutation_app_tail, Permutation_app_comm.
Qed.

(** A class of two or more always keeps a training sample. *)
Lemma holdout_count_lt n : 2 ≤ n → 1 ≤ holdout_count n < n.
Proof.
  intros Hn. unfold holdout_count. change (holdout_denominator - 1) with 3. change holdout_denominator with 4.
  pose proof (Nat.div_lt_upper_bound (n + 3) 4 n). lia.
Qed.

Definition training_part (group : list ProbeSample) : list ProbeSample :=
  take (length group - holdout_count (length group)) group.
Definition holdout_part (group : list ProbeSample) : list ProbeSample :=
  last_n (holdout_count (length group)) group.

Lemma split_group_spec group :
  2 ≤ length group →
  split_group group = Ok (training_part group, holdout_part group) ∧
  training_part group ++ holdout_part group = group ∧ training_part group ≠ [] ∧ holdout_part group ≠ [].
Proof.
  intros Hn. pose proof (holdout_count_lt _ Hn) as Hh. unfold split_group.
  rewrite (proj2 (Nat.ltb_ge _ _)) by done. rewrite (proj2 (Nat.leb_gt _ _)) by lia.
  split_and!; [done|apply take_drop|..]; intros H%(f_equal length);
    unfold training_part, holdout_part, last_n in H; rewrite ?length_take, ?length_drop in H; cbn in H; lia.
Qed.

Lemma split_group_small group : length group < 2 → is_ok (split_group group) = false.
Proof. intros Hn. unfold split_group. by rewrite (proj2 (Nat.ltb_lt _ _) Hn). Qed.

Notation class_of := smp_protected_consequence_class_id.

Definition sample_classes (samples : list ProbeSample) : list string := sorted_set (map class_of samples).

(** Every consequence class has at least two samples. *)
Definition replicated (samples : list ProbeSample) : Prop :=
  ∀ s, s ∈ samples → 2 ≤ length (class_group samples (class_of s)).

Lemma elem_of_concat_map {A B} (f : A → list B) l x y : y ∈ l → x ∈ f y → x ∈ concat (map f l).
Proof. intros Hy Hx. rewrite <-flat_map_concat_map. apply elem_of_flat_map. eauto. Qed.

Lemma class_group_elem samples c s : s ∈ class_group samples c ↔ s ∈ samples ∧ class_of s = c.
Proof. unfold class_group. by rewrite elem_of_sort_by, elem_of_lfilter, eqb_true. Qed.

Lemma elem_of_sample_classes samples c : c ∈ sample_classes samples ↔ ∃ s, s ∈ samples ∧ class_of s = c.
Proof. unfold sample_classes. rewrite elem_of_sorted_set, elem_of_map. naive_solver. Qed.

Lemma stratified_probe_split_spec samples :
  replicated samples →
  stratified_probe_split samples =
    Ok (concat (map (λ c, training_part (class_group samples c)) (sample_classes samples)),
        concat (map (λ c, holdout_part (class_group samples c)) (sample_classes samples))).
Proof.
  intros Hr. unfold stratified_probe_split. fold (sample_classes samples).
  rewrite (traverse_map _ (λ c, (training_part (class_group samples c), holdout_part (class_group samples c)))).
  - cbn. by rewrite !map_map.
  - apply Forall_forall. intros c (s & Hs & <-)%elem_of_sample_classes. by apply split_group_spec, Hr.
Qed.

Lemma split_partition samples tr ho :
  replicated samples → stratified_probe_split samples = Ok (tr, ho) →
  tr ++ ho ≡ₚ samples ∧
  ∀ s, s ∈ samples → (∃ t, t ∈ tr ∧ class_of t = class_of s) ∧ (∃ h, h ∈ ho ∧ class_of h = class_of s).
Proof.
  intros Hr. rewrite stratified_probe_split_spec by done. intros [= <- <-]. split.
  - rewrite concat_split.
    rewrite (concat_perm _ (λ c, List.filter (λ s, class_of s ==? c) samples)).
    + apply concat_groups; [apply NoDup_sorted_set|]. intros s Hs. apply elem_of_sample_classes. eauto.
    + intros c (s & Hs & <-)%elem_of_sample_classes.
      destruct (split_group_spec _ (Hr s Hs)) as (_ & -> & _). apply sort_by_perm.
  - intros s Hs. destruct (split_group_spec _ (Hr s Hs)) as (_ & Happ & Ht & Hh).
    assert (class_of s ∈ sample_classes samples) as Hc by (apply elem_of_sample_classes; eauto).
    assert (∀ x, x ∈ training_part (class_group samples (class_of s)) ++ holdout_part (class_group samples (class_of s))
            → class_of x = class_of s) as Hx.
    { intros x. rewrite Happ. by intros [_ ?]%class_group_elem. }
    split.
    + destruct (training_part (class_group samples (class_of s))) as [|t k] eqn:E; [done|]. exists t. split.
      * apply (elem_of_concat_map _ _ _ (class_of s)); [done|]. rewrite E. by left.
      * apply Hx. by left.
    + destruct (holdout_part (class_group samples (class_of s))) as [|t k] eqn:E; [done|]. exists t. split.
      * apply (elem_of_concat_map _ _ _ (class_of s)); [done|]. rewrite E. by left.
      * apply Hx. set_solver.
Qed.

Lemma class_group_perm samples samples' c :
  NoDup (map smp_observation_id samples) → samples' ≡ₚ samples → class_group samples' c = class_group samples c.
Proof.
  intros Hnd Hp. unfold class_group. symmetry. apply sort_by_unique.
  - apply (NoDup_fmap_1 snd). rewrite <-list_fmap_compose. eapply sublist_NoDup; [exact Hnd|].
    apply (fmap_sublist smp_observation_id), lfilter_sublist.
  - symmetry. by apply lfilter_perm.
Qed.

Lemma split_perm samples samples' :
  NoDup (map smp_observation_id samples) → samples' ≡ₚ samples →
  stratified_probe_split samples' = stratified_probe_split samples.
Proof.
  intros Hnd Hp. unfold stratified_probe_split. fold (sample_classes samples') (sample_classes samples).
  assert (sample_classes samples' = sample_classes samples) as ->.
  { apply sorted_set_ext. intros c. rewrite !elem_of_map. by setoid_rewrite Hp. }
  assert (∀ l, traverse (λ c, split_group (class_group samples' c)) l
             = traverse (λ c, split_group (class_group samples c)) l) as ->; [|done].
  induction l as [|c l IH]; cbn; [done|]. by rewrite (class_group_perm samples samples' c), IH.
Qed.

Lemma learning_canonical_sorted l name : NoDup l → learning_canonical (sorted l) name = Ok tt.
Proof.
  intros Hnd. unfold learning_canonical. rewrite canonical_sorted.
  rewrite (proj2 (nuniq_false _)); [done|]. unfold sorted. by rewrite sort_by_perm.
Qed.

(** What the builder answers, once every class is replicated. *)
Lemma build_probe_evaluation_ok id probe samples redundancy behavior :
  samples ≠ [] → NoDup (map smp_observation_id samples) → replicated samples →
  ∃ e tr ho, build_probe_evaluation id probe samples redundancy behavior = Ok e ∧
    stratified_probe_split samples = Ok (tr, ho) ∧
    pev_training_observation_ids e = sorted (map smp_observation_id tr) ∧
    pev_holdout_observation_ids e = sorted (map smp_observation_id ho).
Proof.
  intros Hne Hnd Hr. unfold build_probe_evaluation.
  destruct (stratified_probe_split samples) as [[tr ho]|] eqn:E; [|by rewrite stratified_probe_split_spec in E].
  destruct (split_partition _ _ _ Hr E) as [Hp Hboth]. cbn [mbind result_bind fst snd].
  assert (map smp_observation_id tr ++ map smp_observation_id ho ≡ₚ map smp_observation_id samples) as Hids.
  { rewrite <-map_app. by apply (fmap_Permutation smp_observation_id). }
  assert (NoDup (map smp_observation_id tr ++ map smp_observation_id ho)) as Hnd' by (by rewrite Hids).
  pose proof Hnd' as (Hndt & Hdisj & Hndh)%NoDup_app.
  destruct samples as [|s samples]; [done|]. destruct (Hboth s) as [(t & Ht & _) (h & Hh & _)]; [by left|].
  unfold validate_probe_evaluation. cbn [pev_training_observation_ids pev_holdout_observation_ids pev_samples].
  rewrite !learning_canonical_sorted by done. cbn [mbind result_bind].
  unfold intersects. rewrite (proj2 (any_false _ _)).
  2:{ intros x Hx. rewrite mem_false, elem_of_sorted. rewrite elem_of_sorted in Hx. by apply Hdisj. }
  assert (∀ l x, x ∈ l → is_nil (sorted (map smp_observation_id l)) = false) as Hnil.
  { intros l x Hx. destruct (sorted (map smp_observation_id l)) eqn:El; [|done].
    assert (smp_observation_id x ∈ sorted (map smp_observation_id l)) as H
      by (apply elem_of_sorted; by apply elem_of_map_1).
    rewrite El in H. by apply not_elem_of_nil in H. }
  rewrite (Hnil tr t Ht), (Hnil ho h Hh). cbn [orb raise_if mbind result_bind].
  assert (map smp_observation_id (sort_by smp_observation_id (s :: samples)) ≡ₚ map smp_observation_id (s :: samples)) as Hs
    by apply (fmap_Permutation smp_observation_id), sort_by_perm.
  rewrite (proj2 (nuniq_false _)) by (unfold sorted; by rewrite sort_by_perm, Hs).
  rewrite (proj2 (neqb_false _ _)); [cbn; by eexists _, tr, ho|].
  apply sort_by_unique; [by rewrite list_fmap_id, Hs|].
  rewrite Hs. unfold sorted. by rewrite !sort_by_perm.
Qed.

Lemma build_probe_evaluation_perm id probe samples samples' redundancy behavior :
  NoDup (map smp_observation_id samples) → samples' ≡ₚ samples →
  build_probe_evaluation id probe samples' redundancy behavior =
  build_probe_evaluation id probe samples redundancy behavior.
Proof.
  intros Hnd Hp. unfold build_probe_evaluation, probe_evaluation_proposition_id.
  assert (sort_by smp_observation_id samples' = sort_by smp_observation_id samples) as ->.
  { symmetry. by apply sort_by_unique. }
  assert (sorted (map sample_fingerprint samples') = sorted (map sample_fingerprint samples)) as ->.
  { apply (StronglySorted_unique_strong (key_le (λ x : string, x))); [|apply sort_by_sorted..|].
    - intros x y _ _. apply key_le_antisym.
    - unfold sorted. rewrite !sort_by_perm. by apply (fmap_Permutation sample_fingerprint). }
  by rewrite (split_perm samples samples' Hnd Hp).
Qed.

Lemma build_needs_replication id probe samples redundancy behavior :
  is_ok (build_probe_evaluation id probe samples redundancy behavior) = true → replicated samples.
Proof.
  intros Hok s Hs. destruct (le_lt_dec 2 (length (class_group samples (class_of s)))) as [|Hlt]; [done|].
  exfalso. revert Hok. unfold build_probe_evaluation, stratified_probe_split. fold (sample_classes samples).
  pose proof (traverse_fails (λ c, split_group (class_group samples c)) (sample_classes samples) (class_of s)
    (proj2 (elem_of_sample_classes _ _) (ex_intro _ s (conj Hs eq_refl))) (split_group_small _ Hlt)) as Hf.
  by destruct (traverse _ _).
Qed.

(** Over samples of distinct observations, a probe evaluation is built exactly
    when every protected consequence class has at least two samples (a class of one
    sample makes the builder raise); its training
    and holdout observations then partition the samples, every class is represented
    on both sides, and the evaluation does not depend on the order in which the
    samples came. *)
Theorem build_probe_evaluation_exact id probe (samples : list ProbeSample) redundancy behavior
  (Hne : samples ≠ []) (Hnd : NoDup (map smp_observation_id samples)) :
  (is_ok (build_probe_evaluation id probe samples redundancy behavior) = true ↔ replicated samples) ∧
  ∀ e, build_probe_evaluation id probe samples redundancy behavior = Ok e →
    (∀ samples', samples' ≡ₚ samples →
       build_probe_evaluation id probe samples' redundancy behavior = Ok e) ∧
    pev_training_observation_ids e ++ pev_holdout_observation_ids e ≡ₚ map smp_observation_id samples ∧
    (∀ s, s ∈ samples →
       (∃ t, t ∈ samples ∧ smp_observation_id t ∈ pev_training_observation_ids e ∧
             smp_protected_consequence_class_id t = smp_protected_consequence_class_id s) ∧
       (∃ h, h ∈ samples ∧ smp_observation_id h ∈ pev_holdout_observation_ids e ∧
             smp_protected_consequence_class_id h = smp_protected_consequence_class_id s)).
Proof.
  split; [split; [apply build_needs_replication|]|].
  - intros Hr. destruct (build_probe_evaluation_ok id probe samples redundancy behavior Hne Hnd Hr)
      as (e & tr & ho & He & _). by rewrite He.
  - intros e He. assert (replicated samples) as Hr by (eapply build_needs_replication; by rewrite He).
    destruct (build_probe_evaluation_ok id probe samples redundancy behavior Hne Hnd Hr)
      as (e' & tr & ho & He' & Hsplit & Htr & Hho). rewrite He in He'. injection He' as <-. rewrite Htr, Hho.
    destruct (split_partition _ _ _ Hr Hsplit) as [Hp Hboth].
    split_and!.
    + intros samples' Hp'. by rewrite (build_probe_evaluation_perm id probe samples).
    + unfold sorted. rewrite !sort_by_perm, <-map_app. by apply (fmap_Permutation smp_observation_id).
    + intros s Hs. destruct (Hboth s Hs) as [(t & Ht & Htc) (h & Hh & Hhc)].
      split; [exists t|exists h]; (split_and!; [rewrite <-Hp; set_solver| |done]);
        apply elem_of_sorted; by apply elem_of_map_1.
Qed.

Definition example_samples : list ProbeSample :=
  [MkProbeSample "o1" "red" "basis" "v1"; MkProbeSample "o2" "blue" "basis" "v2";
   MkProbeSample "o3" "red" "basis" "v1"; MkProbeSample "o4" "blue" "basis" "v2"].

Lemma build_probe_evaluation_exact_witness :
  ∃ e, build_probe_evaluation "evaluation" "probe" example_samples (MkCheckReference "e1" "v1")
         (MkCheckReference "e2" "v2") = Ok e ∧
    pev_training_observation_ids e ++ pev_holdout_observation_ids e ≡ₚ ["o1"; "o2"; "o3"; "o4"].
Proof.
  destruct (build_probe_evaluation_exact "evaluation" "probe" example_samples (MkCheckReference "e1" "v1")
         (MkCheckReference "e2" "v2")) as [Hok Hspec]; [done|apply (bool_decide_eq_true_1 _); reflexivity|].
  assert (replicated example_samples) as Hr.
  { intros s Hs. unfold class_group. rewrite length_sort_by.
    unfold example_samples in Hs. rewrite !elem_of_cons in Hs.
    destruct Hs as [->|[->|[->|[->|Hs]]]]; [vm_compute; lia..|by apply not_elem_of_nil in Hs]. }
  apply Hok in Hr. apply is_ok_true in Hr as [e He]. exists e. split; [exact He|]. by apply (Hspec e He).
Defined.

(** ** Semantic fields *)

Lemma elem_of_keep_first `{EqDecision K} {A} (key : A → K) seen l k :
  k ∈ map key (keep_first key seen l) ↔ k ∈ map key l ∧ k ∉ seen.
Proof.
  revert seen. induction l as [|x l IH]; intros seen; cbn [keep_first].
  - split; [by intros ?%not_elem_of_nil|by intros [?%not_elem_of_nil _]].
  - destruct (mem (key x) seen) eqn:E; cbn [map]; rewrite ?elem_of_cons, IH.
    + rewrite mem_true in E. split; [naive_solver|]. intros [[->|?] ?]; naive_solver.
    + rewrite mem_false in E. rewrite not_elem_of_cons. split; [intros [->|(?&?&?)]; auto|].
      intros [[->|Hk] Hn]; [by left|]. destruct (decide (k = key x)) as [->|]; [by left|by right].
Qed.

Lemma NoDup_keep_first `{EqDecision K} {A} (key : A → K) seen l : NoDup (map key (keep_first key seen l)).
Proof.
  revert seen. induction l as [|x l IH]; intros seen; cbn [keep_first]; [constructor|].
  destruct (mem (key x) seen); [done|]. cbn [map]. constructor; [|done].
  rewrite elem_of_keep_first. intros [_ Hn]. apply Hn. by left.
Qed.

Lemma elem_of_ordered_structures s e d r id :
  id ∈ ordered_structures s e d r ↔ id ∈ s ++ e ++ d ++ r.
Proof.
  unfold ordered_structures. rewrite <-(list_fmap_id (keep_first _ _ _)).
  change (list_fmap _ _ Datatypes.id ?l) with (map (@Datatypes.id string) l).
  rewrite elem_of_keep_first. rewrite (map_id (_ ++ _)). rewrite !elem_of_app, !elem_of_sorted_set.
  split; [tauto|]. intros H. split; [tauto|apply not_elem_of_nil].
Qed.

Lemma NoDup_ordered_structures s e d r : NoDup (ordered_structures s e d r).
Proof. unfold ordered_structures. rewrite <-(map_id (keep_first _ _ _)). apply NoDup_keep_first. Qed.

Lemma build_active_field probe ids retrieval :
  NoDup ids →
  ∃ f, build_semantic_field (MkFieldInputs probe (pi_protected_horizon_id probe) (map active_item ids)
         [] [] (sorted_set retrieval) [] [] []) = Ok f ∧
       sf_items f = map active_item ids ∧ sf_probe_fingerprint f = probe_fingerprint probe.
Proof.
  intros Hnd. unfold build_semantic_field. cbn [fi_items fi_authorized_irrelevance_warrant_ids fi_reopening_condition_ids].
  assert (∀ g, irrelevant_ids g (map active_item ids) = []) as Hirr.
  { intros g. unfold irrelevant_ids. clear Hnd. induction ids as [|x ids IH]; cbn; [done|]. exact IH. }
  rewrite !Hirr. cbn [subset forallb negb raise_if mbind result_bind].
  unfold validate_field. cbn [sf_items sf_same_probe_history_event_ids sf_cross_probe_trace_ids
    sf_retrieval_result_ids sf_method_contract_ids sf_reopening_condition_ids fi_same_probe_history_event_ids
    fi_cross_probe_trace_ids fi_retrieval_result_ids fi_method_contract_ids fi_reopening_condition_ids fi_items].
  assert (map si_structure_id (map active_item ids) = ids) as ->.
  { rewrite map_map. cbn. apply map_id. }
  rewrite (proj2 (nuniq_false _) Hnd). cbn [raise_if mbind result_bind forallb].
  rewrite (proj2 (uniq_true (sorted_set retrieval)) (NoDup_sorted_set _)). cbn.
  by eexists.
Qed.

(** A conservatively derived field loses no structure: every structure named for
    safety, as an exception, as a dependency or by retrieval is an item of the field
    or is reported as overflow, never both, and nothing else is; the field holds at
    most 32 items; deriving succeeds whenever the identities are not empty; and the
    evaluation of a derived field is accepted, and valid exactly when nothing
    overflowed. *)
Theorem derived_field_loses_nothing probe sequence (safety exception dependency retrieval : list string) evaluation_id
  (Hids : ∀ id, id ∈ safety ++ exception ++ dependency ++ retrieval → id ≠ "") :
  ∃ field required overflow index,
    derive_conservative_field probe sequence safety exception dependency retrieval
      = Ok (field, required, overflow, index) ∧
    length (sf_items field) ≤ 32 ∧
    (∀ id, id ∈ safety ++ exception ++ dependency ++ retrieval ↔
           id ∈ map si_structure_id (sf_items field) ∨ id ∈ overflow) ∧
    (∀ id, id ∈ map si_structure_id (sf_items field) → id ∉ overflow) ∧
    ∃ e, evaluate_conservative_field evaluation_id field sequence index (probe_fingerprint probe)
           required overflow = Ok e ∧
         (sfe_status e = FIELD_VALID ↔ overflow = []).
Proof.
  set (ordered := ordered_structures safety exception dependency retrieval).
  assert (NoDup ordered) as Hnd by apply NoDup_ordered_structures.
  assert (∀ id, id ∈ ordered ↔ id ∈ safety ++ exception ++ dependency ++ retrieval) as Hmem
    by (intros id; apply elem_of_ordered_structures).
  rewrite <-(take_drop maximum_items ordered) in Hnd. apply NoDup_app in Hnd as (Hndi & Hdisj & Hndo).
  assert (∀ id, id ∈ ordered ↔ id ∈ take maximum_items ordered ∨ id ∈ drop maximum_items ordered) as Hsplit.
  { intros id. rewrite <-elem_of_app. by rewrite take_drop. }
  destruct (build_active_field probe (take maximum_items ordered) retrieval Hndi) as (f & Hf & Hitems & Hfp).
  assert (map si_structure_id (sf_items f) = take maximum_items ordered) as Hstr.
  { rewrite Hitems, map_map. cbn. apply map_id. }
  eexists f, _, _, _. split_and!.
  - unfold derive_conservative_field. fold ordered. rewrite (proj2 (for_each_ok _ _)).
    { cbn [mbind result_bind]. unfold ordered in Hf |- *. rewrite Hf. reflexivity. }
    intros id Hid. unfold validate_item, is_empty. cbn [si_structure_id active_item].
    rewrite (bool_decide_eq_false_2 (id = "")); [reflexivity|].
    apply Hids, Hmem, Hsplit. by left.
  - rewrite Hitems, length_map, length_take. unfold maximum_items. lia.
  - intros id. rewrite <-Hmem, Hsplit, Hstr, elem_of_sorted. done.
  - intros id. rewrite Hstr, elem_of_sorted. apply Hdisj.
  - unfold evaluate_conservative_field. rewrite Hstr. unfold validate_evaluation.
    cbn [sfe_field sfe_field_id sfe_field_fingerprint sfe_probe_fingerprint sfe_required_structure_ids
      sfe_included_structure_ids sfe_overflow_structure_ids sfe_irrelevant_structure_ids sfe_status].
    rewrite Hfp, !bool_decide_eq_true_2 by done. cbn [negb raise_if mbind result_bind].
    assert (∀ l name, learning_canonical (sorted_set l) name = Ok tt) as Hcan.
    { intros l name. apply learning_canonical_sorted, NoDup_remove_dups. }
    rewrite !Hcan, (learning_canonical_sorted (take maximum_items ordered)) by done. cbn [mbind result_bind].
    rewrite learning_canonical_sorted.
    2:{ eapply sublist_NoDup; [|apply fmap_sublist, lfilter_sublist]. change (NoDup (map si_structure_id (sf_items f))). by rewrite Hstr. }
    cbn [mbind result_bind]. fold ordered.
    assert (intersects (sorted (take maximum_items ordered)) (sorted_set (sorted (drop maximum_items ordered))) = false) as ->.
    { apply any_false. intros id. rewrite elem_of_sorted, mem_false, elem_of_sorted_set, elem_of_sorted. apply Hdisj. }
    cbn [raise_if mbind result_bind]. eexists. split; [reflexivity|]. cbn [sfe_status]. unfold coverage_status.
    assert (drop maximum_items ordered = [] →
      subset (sorted_set (sorted_set (safety ++ exception ++ dependency))) (sorted (take maximum_items ordered)) = true) as Hsub.
    { intros Hnil. apply subset_true. intros id. rewrite !elem_of_sorted_set, elem_of_sorted. intros Hid.
      assert (id ∈ ordered) as Ho by (apply Hmem; set_solver).
      apply Hsplit in Ho as [Ho|Ho]; [done|]. rewrite Hnil in Ho. by apply not_elem_of_nil in Ho. }
    assert (∀ l : list string, l = [] ↔ is_nil (sorted_set (sorted l)) = true) as Hnil.
    { intros l. split; [by intros ->|]. intros Hn. destruct l as [|x l]; [done|].
      assert (x ∈ sorted_set (sorted (x :: l))) as Hx by (rewrite elem_of_sorted_set, elem_of_sorted; by left).
      destruct (sorted_set (sorted (x :: l))); [by apply not_elem_of_nil in Hx|done]. }
    assert (∀ l : list string, sorted l = [] ↔ l = []) as Hsn.
    { intros l. split; [|by intros ->]. intros Hn. destruct l as [|x l]; [done|].
      assert (x ∈ sorted (x :: l)) as Hx by (apply elem_of_sorted; by left). rewrite Hn in Hx. by apply not_elem_of_nil in Hx. }
    rewrite Hsn, (Hnil (drop maximum_items ordered)). destruct (is_nil (sorted_set (sorted (drop _ _)))) eqn:E.
    + rewrite Hsub by (by apply Hnil). done.
    + rewrite orb_true_r. done.
Qed.

Definition example_probe : ProbeIdentity :=
  MkProbeIdentity "contract" "role" "schema" "binding" "scope" "comparison" "guard" "horizon".

Lemma derived_field_loses_nothing_witness :
  ("s1" ≠ "" ∧ "r1" ≠ "") ∧
  ∃ field required overflow index,
    derive_conservative_field example_probe 3 ["s1"] [] ["s1"] ["r1"] = Ok (field, required, overflow, index) ∧
    "r1" ∈ map si_structure_id (sf_items field) ++ overflow.
Proof.
  split; [by split|].
  destruct (derived_field_loses_nothing example_probe 3 ["s1"] [] ["s1"] ["r1"] "evaluation")
    as (field & required & overflow & index & Hd & _ & Hmem & _).
  - intros id. rewrite !elem_of_app, !list_elem_of_singleton, elem_of_nil. by intros [->|[[]|[->| ->]]].
  - exists field, required, overflow, index. split; [exact Hd|]. rewrite elem_of_app. apply Hmem.
    rewrite !elem_of_app, !list_elem_of_singleton. auto.
Defined.

(** ** Checkpoints *)

(** One accepted counterexample among the first four requests and no checkpoint
    can be selected: its reference reads a field effect requests do not have. *)
Lemma counterexample_stops_selection id sequence scope binding horizon observations claims conflicts mismatches
    requests r b p a :
  r ∈ take counterexample_limit (values_by ers_id (dict_by ers_id requests)) →
  accepted_result r = Some (CounterexampleResult b p a) →
  is_ok (select_consolidation_checkpoint id sequence scope binding horizon observations claims conflicts
           mismatches requests) = false.
Proof.
  intros Hr Ha. unfold select_consolidation_checkpoint.
  destruct (traverse (episode_source RECENT_EPISODE) _); [|done]. cbn [mbind result_bind].
  destruct (traverse (episode_source OLDER_EXCEPTION) _); [|done]. cbn [mbind result_bind].
  assert (is_ok (counterexample_source r) = false) as Hf by (unfold counterexample_source; by rewrite Ha).
  pose proof (traverse_fails counterexample_source _ r Hr Hf) as H.
  by destruct (traverse counterexample_source _).
Qed.

(** The episodes of a selection: at most four recent ones and four older
    exceptions, each the exact reference of a pinned observation. *)
Lemma episode_source_ok role e :
  episode_source role e = Ok (MkConsolidationSource role
    (MkOwnedMemoryRef EPISODIC PROBE_EVENT (pe_id e) 1
       (content_fingerprint "rci.owned-memory-record.v1/M_E/probe_event/v1" (to_json e)))
    (pe_sequence_index e)).
Proof. reflexivity. Qed.

Definition episode_of (role : ConsolidationSourceRole) (e : ProbeEvent) : ConsolidationSource :=
  MkConsolidationSource role
    (MkOwnedMemoryRef EPISODIC PROBE_EVENT (pe_id e) 1
       (content_fingerprint "rci.owned-memory-record.v1/M_E/probe_event/v1" (to_json e)))
    (pe_sequence_index e).

Lemma keep_first_sublist `{EqDecision K} {A} (key : A → K) seen l : keep_first key seen l `sublist_of` l.
Proof.
  revert seen. induction l as [|x l IH]; intros seen; cbn; [done|].
  destruct (mem (key x) seen); [by apply sublist_cons|by apply sublist_skip].
Qed.

Lemma length_last_n {A} n (l : list A) : length (last_n n l) ≤ n.
Proof. unfold last_n. rewrite length_drop. lia. Qed.

(** Without an accepted counterexample the policy always selects: at most four
    recent episodes and four older exceptions, no reference twice, and each of the
    four latest pinned observations among the sources. *)
Lemma selection_succeeds id sequence scope binding horizon observations claims conflicts mismatches requests :
  (∀ r b p a, r ∈ take counterexample_limit (values_by ers_id (dict_by ers_id requests)) →
     accepted_result r ≠ Some (CounterexampleResult b p a)) →
  let pinned := sort_by event_order (List.filter (pinned_observation scope binding horizon) observations) in
  ∃ c, select_consolidation_checkpoint id sequence scope binding horizon observations claims conflicts
         mismatches requests = Ok c ∧
    validate_checkpoint c = Ok tt ∧ length (ccp_sources c) ≤ recent_limit + exception_limit ∧
    (∀ e, e ∈ recent_observations pinned →
       omr_key (cs_reference (episode_of RECENT_EPISODE e)) ∈ map (λ s, omr_key (cs_reference s)) (ccp_sources c)) ∧
    (∀ s, s ∈ ccp_sources c → ∃ role e, e ∈ pinned ∧ s = episode_of role e).
Proof.
  intros Hno pinned. unfold select_consolidation_checkpoint. fold pinned.
  assert (∀ role l, traverse (episode_source role) l = Ok (map (episode_of role) l)) as Hsrc.
  { intros role l. apply traverse_map, Forall_forall. intros e _. apply episode_source_ok. }
  rewrite !Hsrc. cbn [mbind result_bind].
  rewrite (traverse_map _ (λ _, None)).
  2:{ apply Forall_forall. intros r Hr. unfold counterexample_source.
      destruct (accepted_result r) as [[]|] eqn:E; try done. by destruct (Hno _ _ _ _ Hr E). }
  cbn [mbind result_bind]. set (older := older_exceptions _ pinned).
  assert (∀ l : list EffectRequestState, omap Datatypes.id (map (λ _, @None ConsolidationSource) l) = []) as ->.
  { intros l. induction l as [|x l IH]; cbn; done. }
  rewrite app_nil_r. set (all := map _ _ ++ map _ _).
  set (kept := keep_first _ [] all).
  assert (∀ c, ccp_sources c = kept → ccp_status c = episode_status kept → validate_checkpoint c = Ok tt) as Hv.
  { intros c Hc Hs. unfold validate_checkpoint. rewrite Hc, Hs.
    rewrite (proj2 (nuniq_false _)) by apply (NoDup_keep_first (λ s, omr_key (cs_reference s))).
    by rewrite bool_decide_eq_true_2. }
  eexists. rewrite Hv by done. split_and!; [reflexivity|by apply Hv|..]; cbn [ccp_sources].
  - etransitivity; [apply sublist_length, keep_first_sublist|]. unfold all.
    rewrite length_app, !length_map, !length_reverse.
    pose proof (length_last_n recent_limit pinned). unfold recent_observations.
    assert (length older ≤ exception_limit) by apply length_last_n. lia.
  - intros e He. apply elem_of_keep_first. split; [|apply not_elem_of_nil].
    unfold all. rewrite map_app, elem_of_app. left. rewrite map_map.
    apply (elem_of_map_1 (λ x, omr_key (cs_reference (episode_of RECENT_EPISODE x)))). by apply elem_of_reverse.
  - intros s Hs. eapply elem_of_sublist in Hs; [|apply keep_first_sublist].
    assert (∀ n (l : list ProbeEvent) e, e ∈ last_n n l → e ∈ l) as Hlast.
    { intros n l e He. unfold last_n in He. rewrite <-(take_drop (length l - n) l), elem_of_app. by right. }
    unfold all in Hs. rewrite elem_of_app, !elem_of_map in Hs.
    destruct Hs as [(e & He & ->)|(e & He & ->)]; rewrite elem_of_reverse in He; eexists _, e; (split; [|done]).
    + by eapply Hlast.
    + apply Hlast in He. by apply elem_of_lfilter in He as [? _].
Qed.
