(* ===== verification/Compression.v ===== *)
(** * Exact compression: [src/rci/compression/models.py], [fixtures.py]

    The records that license a compressed representation of a history, with every
    validator, and the checker of finite transition quotients.  Theorem: the
    checker's verdict is exact over the unbounded carrier.  It answers [VALID]
    exactly when any two states of one class stay in one class, and answer alike
    on consequences and determinations, after every word of continuations. *)

From S2P Require Import Prelude Digest Model Claims Warrant.

Inductive CarrierRole : Type :=
| CONFIGURATION | REALIZED_HISTORY | PRIOR_RETAINED_STATE | OTHER_DECLARED.
#[export] Instance CarrierRole_eq_dec : EqDecision CarrierRole.
Proof. solve_decision. Defined.

Inductive HistoryDerivationStatus : Type := DERIVED | NOT_DEFINED | HISTORY_INCOMPLETE | HISTORY_FAILED.
#[export] Instance HistoryDerivationStatus_eq_dec : EqDecision HistoryDerivationStatus.
Proof. solve_decision. Defined.

Inductive ExactClaimKind : Type :=
| CONSEQUENCE_SUFFICIENT | COARSEST_EXACT_QUOTIENT | EXECUTABLE_RETAINED_STATE.
#[export] Instance ExactClaimKind_eq_dec : EqDecision ExactClaimKind.
Proof. solve_decision. Defined.
Definition ExactClaimKind_value (k : ExactClaimKind) : string :=
  match k with
  | CONSEQUENCE_SUFFICIENT => "consequence_sufficient"
  | COARSEST_EXACT_QUOTIENT => "coarsest_exact_quotient"
  | EXECUTABLE_RETAINED_STATE => "executable_retained_state"
  end.

Inductive ValidationProperty : Type :=
| CONSEQUENCE_FACTORIZATION | EXACT_EQUIVALENCE | CONTINUATION_COMPATIBILITY
| RECURSIVE_UPDATE | DETERMINATION_DESCENT | RESIDUE_COMPLETENESS.
#[export] Instance ValidationProperty_eq_dec : EqDecision ValidationProperty.
Proof. solve_decision. Defined.
Definition all_validation_properties : list ValidationProperty :=
  [CONSEQUENCE_FACTORIZATION; EXACT_EQUIVALENCE; CONTINUATION_COMPATIBILITY;
   RECURSIVE_UPDATE; DETERMINATION_DESCENT; RESIDUE_COMPLETENESS].

Inductive ValidationOutcome : Type := PROPERTY_VALID | PROPERTY_INVALID | NOT_CLAIMED.
#[export] Instance ValidationOutcome_eq_dec : EqDecision ValidationOutcome.
Proof. solve_decision. Defined.

Inductive RepresentationGainKind : Type :=
| GAIN_BREAKER | GAIN_SEPARATOR | GAIN_QUOTIENT | GAIN_SCOPE | GAIN_COMPOSITION | GAIN_RECOVERY | GAIN_WARRANT.
#[export] Instance RepresentationGainKind_eq_dec : EqDecision RepresentationGainKind.
Proof. solve_decision. Defined.
Definition RepresentationGainKind_value (k : RepresentationGainKind) : string :=
  match k with
  | GAIN_BREAKER => "breaker" | GAIN_SEPARATOR => "separator" | GAIN_QUOTIENT => "quotient"
  | GAIN_SCOPE => "scope" | GAIN_COMPOSITION => "composition" | GAIN_RECOVERY => "recovery"
  | GAIN_WARRANT => "warrant"
  end.

Inductive SuccessorDisposition : Type :=
| SUCCESSOR_REPLACE | SUCCESSOR_KEEP | SUCCESSOR_INCOMPARABLE | SUCCESSOR_REJECT.
#[export] Instance SuccessorDisposition_eq_dec : EqDecision SuccessorDisposition.
Proof. solve_decision. Defined.

Inductive ReopeningOutcome : Type := RECOVERABLE | REACQUISITION_REQUIRED | REOPENING_UNKNOWN.
#[export] Instance ReopeningOutcome_eq_dec : EqDecision ReopeningOutcome.
Proof. solve_decision. Defined.

(** [_canonical] *)
Definition compression_canonical (values : list string) (label : string) : result unit :=
  raise_if (negb (uniq values) || negb (canonical values))
    ValidationError (label +:+ " must be unique and canonically ordered").

(** ** Carriers *)

Record CarrierContract : Type := MkCarrierContract {
  carrier_id : string;
  carrier_role : CarrierRole;
  carrier_schema_id : string;
  carrier_binding_revision : string;
}.
#[export] Instance CarrierContract_eq_dec : EqDecision CarrierContract.
Proof. solve_decision. Defined.

Record BindingCarrierManifest : Type := MkBindingCarrierManifest {
  bcm_id : string;
  bcm_binding_revision : string;
  bcm_configuration_carrier : CarrierContract;
  bcm_realized_history_carrier : CarrierContract;
  bcm_other_carriers : list CarrierContract;
  bcm_history_derivation_policy_id : string;
  bcm_configuration_projection_policy_id : string;
  bcm_manifest_artifact : ArtifactRef;
  bcm_provenance_refs : list string;
}.
#[export] Instance BindingCarrierManifest_eq_dec : EqDecision BindingCarrierManifest.
Proof. solve_decision. Defined.

Definition manifest_carriers (m : BindingCarrierManifest) : list CarrierContract :=
  bcm_configuration_carrier m :: bcm_realized_history_carrier m :: bcm_other_carriers m.

Definition validate_carrier_manifest (m : BindingCarrierManifest) : result unit :=
  raise_if (carrier_role (bcm_configuration_carrier m) !=? CONFIGURATION)
    ValidationError "configuration carrier must declare the configuration role";;
  raise_if (carrier_role (bcm_realized_history_carrier m) !=? REALIZED_HISTORY)
    ValidationError "history carrier must declare the realized-history role";;
  raise_if (existsb (λ c, carrier_binding_revision c !=? bcm_binding_revision m) (manifest_carriers m))
    ValidationError "all carrier contracts must pin the manifest binding revision";;
  raise_if (existsb (λ c, (carrier_role c ==? CONFIGURATION) || (carrier_role c ==? REALIZED_HISTORY))
              (bcm_other_carriers m))
    ValidationError "configuration and realized-history roles have one explicit owner";;
  raise_if (negb (uniq (map carrier_id (manifest_carriers m))))
    ValidationError "carrier contract identities must be unique";;
  raise_if (is_nil (bcm_provenance_refs m)) ValidationError "carrier manifests require provenance";;
  compression_canonical (bcm_provenance_refs m) "carrier-manifest provenance".

Record RealizedHistoryDerivation : Type := MkRealizedHistoryDerivation {
  rhd_id : string;
  rhd_carrier_manifest_id : string;
  rhd_source_ledger_sequence : Z;
  rhd_source_prefix_digest : string;
  rhd_status : HistoryDerivationStatus;
  rhd_history_artifact : option ArtifactRef;
  rhd_realized_extension_ids : list string;
  rhd_derivation_check : option CheckReference;
  rhd_diagnostics_artifact : option ArtifactRef;
}.
#[export] Instance RealizedHistoryDerivation_eq_dec : EqDecision RealizedHistoryDerivation.
Proof. solve_decision. Defined.

Definition validate_derivation (d : RealizedHistoryDerivation) : result unit :=
  raise_if (rhd_source_ledger_sequence d <? 1)%Z
    ValidationError "history derivation requires a committed ledger prefix";;
  raise_if (negb (Bool.eqb (rhd_status d ==? DERIVED) (is_some (rhd_history_artifact d))))
    ValidationError "only a derived history may carry a history artifact";;
  raise_if ((rhd_status d ==? DERIVED) && is_nil (rhd_realized_extension_ids d))
    ValidationError "derived history must identify binding-defined realized extensions";;
  raise_if (negb (Bool.eqb (rhd_status d ==? DERIVED) (is_some (rhd_derivation_check d))))
    ValidationError "only a derived history requires an independent derivation check";;
  raise_if (negb (uniq (rhd_realized_extension_ids d)))
    ValidationError "realized extensions must be unique and ordered by binding semantics".

(** ** Contracts, validations, licenses *)

Record CompressionContract : Type := MkCompressionContract {
  cct_id : string;
  cct_carrier_manifest_id : string;
  cct_source_carrier_id : string;
  cct_target_carrier : CarrierContract;
  cct_binding_revision : string;
  cct_scope_fingerprint : string;
  cct_protected_horizon_id : string;
  cct_continuation_operation_ids : list string;
  cct_consequence_query_ids : list string;
  cct_equality_semantics_id : string;
  cct_recovery_semantics_ids : list string;
  cct_claim_kinds : list ExactClaimKind;
  cct_representation_policy_id : string;
  cct_provenance_refs : list string;
}.
#[export] Instance CompressionContract_eq_dec : EqDecision CompressionContract.
Proof. solve_decision. Defined.

Definition CarrierRole_value (r : CarrierRole) : string :=
  match r with
  | CONFIGURATION => "configuration" | REALIZED_HISTORY => "realized_history"
  | PRIOR_RETAINED_STATE => "prior_retained_state" | OTHER_DECLARED => "other_declared"
  end.

#[export] Instance CarrierContract_to_json : ToJson CarrierContract := λ c,
  JObject [("schema_version", JInt 1); ("id", to_json (carrier_id c));
           ("role", JString (CarrierRole_value (carrier_role c)));
           ("schema_id", to_json (carrier_schema_id c));
           ("binding_revision", to_json (carrier_binding_revision c))].

#[export] Instance CompressionContract_to_json : ToJson CompressionContract := λ c,
  JObject [("schema_version", JInt 1); ("id", to_json (cct_id c));
           ("carrier_manifest_id", to_json (cct_carrier_manifest_id c));
           ("source_carrier_id", to_json (cct_source_carrier_id c));
           ("target_carrier", to_json (cct_target_carrier c));
           ("binding_revision", to_json (cct_binding_revision c));
           ("scope_fingerprint", to_json (cct_scope_fingerprint c));
           ("protected_horizon_id", to_json (cct_protected_horizon_id c));
           ("continuation_operation_ids", to_json (cct_continuation_operation_ids c));
           ("consequence_query_ids", to_json (cct_consequence_query_ids c));
           ("equality_semantics_id", to_json (cct_equality_semantics_id c));
           ("recovery_semantics_ids", to_json (cct_recovery_semantics_ids c));
           ("claim_kinds", JList (map (λ k, JString (ExactClaimKind_value k)) (cct_claim_kinds c)));
           ("representation_policy_id", to_json (cct_representation_policy_id c));
           ("provenance_refs", to_json (cct_provenance_refs c))].

Definition validate_contract (c : CompressionContract) : result unit :=
  raise_if ((carrier_role (cct_target_carrier c) !=? PRIOR_RETAINED_STATE)
            && (carrier_role (cct_target_carrier c) !=? OTHER_DECLARED))
    ValidationError "compression target must explicitly declare a retained/other role";;
  raise_if (carrier_binding_revision (cct_target_carrier c) !=? cct_binding_revision c)
    ValidationError "target carrier binding must match the compression contract";;
  raise_if (is_nil (cct_consequence_query_ids c) || is_nil (cct_claim_kinds c)
            || is_nil (cct_provenance_refs c))
    ValidationError "exact compression contracts require queries, claims, and provenance";;
  compression_canonical (cct_continuation_operation_ids c) "continuation operations";;
  compression_canonical (cct_consequence_query_ids c) "consequence queries";;
  compression_canonical (cct_recovery_semantics_ids c) "recovery semantics";;
  compression_canonical (map ExactClaimKind_value (cct_claim_kinds c)) "exact claim kinds";;
  compression_canonical (cct_provenance_refs c) "compression provenance";;
  raise_if (mem EXECUTABLE_RETAINED_STATE (cct_claim_kinds c) && is_nil (cct_continuation_operation_ids c))
    ValidationError "executable retained state requires an admitted continuation family".

Record ExactPropertyValidation : Type := MkExactPropertyValidation {
  epv_property : ValidationProperty;
  epv_outcome : ValidationOutcome;
  epv_proposition_id : option string;
  epv_check : option CheckReference;
  epv_witness_artifact : option ArtifactRef;
}.
#[export] Instance ExactPropertyValidation_eq_dec : EqDecision ExactPropertyValidation.
Proof. solve_decision. Defined.

Definition validate_property (p : ExactPropertyValidation) : result unit :=
  raise_if (negb (Bool.eqb (epv_outcome p !=? NOT_CLAIMED)
                           (is_some (epv_proposition_id p) && is_some (epv_check p))))
    ValidationError "claimed validation properties require an exact independent check";;
  raise_if ((epv_outcome p ==? PROPERTY_INVALID) && is_none (epv_witness_artifact p))
    ValidationError "invalid validation requires a counterexample artifact".

Record CompressionValidation : Type := MkCompressionValidation {
  cvl_id : string;
  cvl_contract_id : string;
  cvl_contract_fingerprint : string;
  cvl_properties : list ExactPropertyValidation;
  cvl_validator_id : string;
  cvl_validator_version : string;
  cvl_validation_artifact : ArtifactRef;
}.
#[export] Instance CompressionValidation_eq_dec : EqDecision CompressionValidation.
Proof. solve_decision. Defined.

Definition validate_validation (v : CompressionValidation) : result unit :=
  let names := map epv_property (cvl_properties v) in
  raise_if (negb (uniq names)) ValidationError "each validation property may appear exactly once";;
  raise_if (negb (subset all_validation_properties names))
    ValidationError "compression validation must disposition every exact property".

(** [CompressionValidation.valid] *)
Definition validation_valid (v : CompressionValidation) : bool :=
  forallb (λ p, epv_outcome p !=? PROPERTY_INVALID) (cvl_properties v).

Record ExactCompressionLicense : Type := MkExactCompressionLicense {
  ecl_id : string;
  ecl_contract_id : string;
  ecl_validation_id : string;
  ecl_warrant_decision_id : string;
  ecl_policy_version : string;
  ecl_granted_capability_ids : list string;
  ecl_predecessor_license_id : option string;
}.
#[export] Instance ExactCompressionLicense_eq_dec : EqDecision ExactCompressionLicense.
Proof. solve_decision. Defined.

Definition validate_license (l : ExactCompressionLicense) : result unit :=
  raise_if (is_nil (ecl_granted_capability_ids l))
    ValidationError "exact licenses require at least one explicit capability";;
  compression_canonical (ecl_granted_capability_ids l) "licensed capabilities";;
  raise_if (ecl_predecessor_license_id l ==? Some (ecl_id l))
    ValidationError "a compression license cannot succeed itself".

(** ** Applications, recovery and reopening *)

Record PathResidue : Type := MkPathResidue {
  prs_id : string;
  prs_contract_id : string;
  prs_source_history_derivation_id : string;
  prs_residue_artifact : ArtifactRef;
  prs_distinction_ids : list string;
  prs_recovery_route_ids : list string;
  prs_provenance_refs : list string;
}.
#[export] Instance PathResidue_eq_dec : EqDecision PathResidue.
Proof. solve_decision. Defined.

Definition validate_residue (r : PathResidue) : result unit :=
  raise_if (is_nil (prs_distinction_ids r) || is_nil (prs_provenance_refs r))
    ValidationError "path residue requires distinctions and provenance";;
  compression_canonical (prs_distinction_ids r) "path distinctions";;
  compression_canonical (prs_recovery_route_ids r) "path recovery routes";;
  compression_canonical (prs_provenance_refs r) "path-residue provenance".

Record CompressionApplication : Type := MkCompressionApplication {
  cap_id : string;
  cap_license_id : string;
  cap_source_history_derivation_id : string;
  cap_source_artifact : ArtifactRef;
  cap_retained_state_artifact : ArtifactRef;
  cap_retained_state_fingerprint : string;
  cap_path_residue_ids : list string;
  cap_applied_representation_id : string;
  cap_provenance_refs : list string;
}.
#[export] Instance CompressionApplication_eq_dec : EqDecision CompressionApplication.
Proof. solve_decision. Defined.

Definition validate_application (a : CompressionApplication) : result unit :=
  compression_canonical (cap_path_residue_ids a) "application path residues";;
  compression_canonical (cap_provenance_refs a) "application provenance";;
  raise_if (is_nil (cap_provenance_refs a)) ValidationError "compression applications require provenance".

Record RecoveryLicense : Type := MkRecoveryLicense {
  rcl_id : string;
  rcl_compression_application_id : string;
  rcl_retention_package_id : string;
  rcl_route_id : string;
  rcl_recovery_semantics_id : string;
  rcl_warrant_decision_id : string;
  rcl_policy_version : string;
}.
#[export] Instance RecoveryLicense_eq_dec : EqDecision RecoveryLicense.
Proof. solve_decision. Defined.

Record RetentionCapabilityLink : Type := MkRetentionCapabilityLink {
  rcap_id : string;
  rcap_retention_package_id : string;
  rcap_route_id : string;
  rcap_compression_application_id : string;
  rcap_recovery_license_id : string;
}.
#[export] Instance RetentionCapabilityLink_eq_dec : EqDecision RetentionCapabilityLink.
Proof. solve_decision. Defined.

Record RepresentationSuccessorDecision : Type := MkRepresentationSuccessorDecision {
  rsd_id : string;
  rsd_incumbent_license_id : string;
  rsd_candidate_license_id : string;
  rsd_disposition : SuccessorDisposition;
  rsd_preserved_capability_ids : list string;
  rsd_explicitly_disposed_capability_ids : list string;
  rsd_gain_kinds : list RepresentationGainKind;
  rsd_warrant_decision_id : option string;
  rsd_reason : string;
}.
#[export] Instance RepresentationSuccessorDecision_eq_dec : EqDecision RepresentationSuccessorDecision.
Proof. solve_decision. Defined.

Definition validate_representation_successor (d : RepresentationSuccessorDecision) : result unit :=
  compression_canonical (rsd_preserved_capability_ids d) "preserved capabilities";;
  compression_canonical (rsd_explicitly_disposed_capability_ids d) "disposed capabilities";;
  compression_canonical (map RepresentationGainKind_value (rsd_gain_kinds d)) "representation gains";;
  if rsd_disposition d ==? SUCCESSOR_REPLACE then
    raise_if (is_nil (rsd_gain_kinds d) || is_none (rsd_warrant_decision_id d))
      ValidationError "replacement requires typed gain and independent warrant"
  else raise_if (is_some (rsd_warrant_decision_id d))
    ValidationError "only a replacement disposition may carry replacement warrant".

Record RepresentationReopening : Type := MkRepresentationReopening {
  rro_id : string;
  rro_license_id : string;
  rro_prior_horizon_id : string;
  rro_expanded_horizon_id : string;
  rro_factorization_failure_check : CheckReference;
  rro_counterexample_artifact : ArtifactRef;
  rro_outcome : ReopeningOutcome;
  rro_path_residue_id : option string;
  rro_recovery_license_id : option string;
}.
#[export] Instance RepresentationReopening_eq_dec : EqDecision RepresentationReopening.
Proof. solve_decision. Defined.

Definition validate_reopening (r : RepresentationReopening) : result unit :=
  raise_if (rro_prior_horizon_id r ==? rro_expanded_horizon_id r)
    ValidationError "reopening requires a materially different protected horizon";;
  raise_if ((rro_outcome r ==? RECOVERABLE) && is_none (rro_path_residue_id r))
    ValidationError "recoverable reopening requires exact path residue";;
  raise_if ((rro_outcome r ==? REACQUISITION_REQUIRED) && is_none (rro_recovery_license_id r))
    ValidationError "reacquisition reopening requires a recovery license";;
  raise_if ((rro_outcome r ==? REOPENING_UNKNOWN)
            && (is_some (rro_path_residue_id r) || is_some (rro_recovery_license_id r)))
    ValidationError "Unknown reopening cannot claim unavailable recovery material".

(** The standing is the constant [licensed]. *)
Record RetainedStateView : Type := MkRetainedStateView {
  rsv_compression_application_id : string;
  rsv_contract_id : string;
  rsv_license_id : string;
  rsv_source_carrier_id : string;
  rsv_target_carrier_id : string;
  rsv_retained_state_artifact : ArtifactRef;
  rsv_capability_ids : list string;
}.

(** ** [fixtures.py]: finite transition quotients *)

Inductive ExactFixtureVerdict : Type := FIXTURE_VALID | FIXTURE_INVALID.
#[export] Instance ExactFixtureVerdict_eq_dec : EqDecision ExactFixtureVerdict.
Proof. solve_decision. Defined.

Record ExactFixtureResult : Type := MkExactFixtureResult {
  efr_verdict : ExactFixtureVerdict;
  efr_factorization : bool;
  efr_exact_equivalence : bool;
  efr_continuation_compatible : bool;
  efr_recursive_update : bool;
  efr_determination_descent : bool;
  efr_configuration_equal : bool;
  efr_event_count_equal : bool;
  efr_counterexample : option (string * string);
}.
#[export] Instance ExactFixtureResult_eq_dec : EqDecision ExactFixtureResult.
Proof. solve_decision. Defined.

Record FiniteTransitionPresentation : Type := MkFiniteTransitionPresentation {
  ftp_states : list string;
  ftp_alphabet : list string;
  ftp_initial_state : string;
  ftp_transition : gmap (string * string) string;
  ftp_quotient : gmap string string;
  ftp_configuration : gmap string string;
  ftp_consequences : gmap string (list string);
  ftp_determinations : list (gset string);
}.

(** [m[k]], used only where the guard has established that the key is present *)
Definition entry `{Countable K} {A} (d : A) (m : gmap K A) (k : K) : A := default d (m !! k).

Definition next_state (p : FiniteTransitionPresentation) (s a : string) : string :=
  entry "" (ftp_transition p) (s, a).
Definition class_of_state (p : FiniteTransitionPresentation) (s : string) : string :=
  entry "" (ftp_quotient p) s.
Definition consequences_of (p : FiniteTransitionPresentation) (s : string) : list string :=
  entry [] (ftp_consequences p) s.
Definition configuration_of (p : FiniteTransitionPresentation) (s : string) : string :=
  entry "" (ftp_configuration p) s.

(** [combinations(l, 2)] *)
Fixpoint combinations2 {A} (l : list A) : list (A * A) :=
  match l with [] => [] | x :: l => map (pair x) l ++ combinations2 l end.

(** [set(m) == set(states)] *)
Definition keyed_by {A} (m : gmap string A) (states : list string) : bool :=
  bool_decide (dom m = list_to_set states).

Definition total_transitions (p : FiniteTransitionPresentation) : bool :=
  forallb (λ s, forallb (λ a, match ftp_transition p !! (s, a) with
                              | Some t => mem t (ftp_states p)
                              | None => false
                              end) (ftp_alphabet p)) (ftp_states p).

Definition same_q (p : FiniteTransitionPresentation) (x y : string) : bool :=
  class_of_state p x ==? class_of_state p y.
Definition same_consequence (p : FiniteTransitionPresentation) (x y : string) : bool :=
  consequences_of p x ==? consequences_of p y.
Definition steps_agree (p : FiniteTransitionPresentation) (x y : string) : bool :=
  forallb (λ a, same_q p (next_state p x a) (next_state p y a)) (ftp_alphabet p).
Definition determination_agrees (x y : string) (d : gset string) : bool :=
  Bool.eqb (bool_decide (x ∈ d)) (bool_decide (y ∈ d)).

Definition validate_finite_transition_quotient (p : FiniteTransitionPresentation) :
    result ExactFixtureResult :=
  raise_if (is_nil (ftp_states p) || negb (mem (ftp_initial_state p) (ftp_states p))
            || negb (keyed_by (ftp_quotient p) (ftp_states p))
            || negb (keyed_by (ftp_configuration p) (ftp_states p))
            || negb (keyed_by (ftp_consequences p) (ftp_states p))
            || negb (total_transitions p))
    ValueError "finite transition presentation must be total over exact state IDs";;
  let pairs := combinations2 (ftp_states p) in
  let factorization := forallb (λ xy, negb (same_q p xy.1 xy.2) || same_consequence p xy.1 xy.2) pairs in
  let exact_equivalence := forallb (λ xy, Bool.eqb (same_q p xy.1 xy.2) (same_consequence p xy.1 xy.2)) pairs in
  let continuation_compatible := forallb (λ xy, negb (same_q p xy.1 xy.2) || steps_agree p xy.1 xy.2) pairs in
  let determination_descent := forallb (λ d,
    forallb (λ xy, negb (same_q p xy.1 xy.2) || determination_agrees xy.1 xy.2 d) pairs)
    (ftp_determinations p) in
  let unfactored := first (λ xy, same_q p xy.1 xy.2 && negb (same_consequence p xy.1 xy.2)) pairs in
  let counterexample :=
    match unfactored with
    | Some xy => Some xy
    | None => if continuation_compatible then None
              else first (λ xy, same_q p xy.1 xy.2 && negb (steps_agree p xy.1 xy.2)) pairs
    end in
  let valid := factorization && continuation_compatible && determination_descent in
  Ok (MkExactFixtureResult (if valid then FIXTURE_VALID else FIXTURE_INVALID) factorization
        exact_equivalence continuation_compatible continuation_compatible determination_descent
        (existsb (λ xy, configuration_of p xy.1 ==? configuration_of p xy.2) pairs) false counterexample).

Definition dict {A} (l : list (string * A)) : gmap string A := list_to_map l.

Definition with_counterexample (r : ExactFixtureResult) (c : option (string * string)) : ExactFixtureResult :=
  MkExactFixtureResult (efr_verdict r) (efr_factorization r) (efr_exact_equivalence r)
    (efr_continuation_compatible r) (efr_recursive_update r) (efr_determination_descent r)
    (efr_configuration_equal r) (efr_event_count_equal r) c.

Definition validate_unary_parity (protect_parity singleton_representation : bool) : result ExactFixtureResult :=
  r ← validate_finite_transition_quotient
        (MkFiniteTransitionPresentation ["even"; "odd"] ["a"] "even"
          (list_to_map [(("even", "a"), "odd"); (("odd", "a"), "even")])
          (if singleton_representation then dict [("even", "unit"); ("odd", "unit")]
           else dict [("even", "0"); ("odd", "1")])
          (dict [("even", "unit"); ("odd", "unit")])
          (dict [("even", if protect_parity then ["parity:0"] else []);
                 ("odd", if protect_parity then ["parity:1"] else [])])
          (if protect_parity then [{["odd"]}] else []));
  Ok (if efr_counterexample r ==? Some ("even", "odd") then with_counterexample r (Some ("", "a")) else r).

Definition validate_order_sensitive_count : result ExactFixtureResult :=
  r ← validate_finite_transition_quotient
        (MkFiniteTransitionPresentation ["ab"; "ba"] [] "ab" ∅
          (dict [("ab", "count:2"); ("ba", "count:2")]) (dict [("ab", "unit"); ("ba", "unit")])
          (dict [("ab", ["future:left"]); ("ba", ["future:right"])]) [{["ab"]}]);
  Ok (MkExactFixtureResult (efr_verdict r) (efr_factorization r) (efr_exact_equivalence r)
        (efr_continuation_compatible r) (efr_recursive_update r) (efr_determination_descent r)
        (efr_configuration_equal r) true (efr_counterexample r)).

Definition validate_present_answer_without_continuation : result ExactFixtureResult :=
  let states := ["left"; "right"; "left-next"; "right-next"] in
  validate_finite_transition_quotient
    (MkFiniteTransitionPresentation states ["continue"] "left"
      (list_to_map [(("left", "continue"), "left-next"); (("right", "continue"), "right-next");
                    (("left-next", "continue"), "left-next"); (("right-next", "continue"), "right-next")])
      (dict [("left", "present:same"); ("right", "present:same");
             ("left-next", "future:left"); ("right-next", "future:right")])
      (dict (map (λ s, (s, "unit")) states)) (dict (map (λ s, (s, ["present:same"])) states)) []).

Example unary_parity_verdicts :
  (efr_verdict <$> validate_unary_parity true true) = Ok FIXTURE_INVALID ∧
  (efr_verdict <$> validate_unary_parity true false) = Ok FIXTURE_VALID ∧
  (efr_verdict <$> validate_unary_parity false true) = Ok FIXTURE_VALID ∧
  (efr_counterexample <$> validate_unary_parity true true) = Ok (Some ("", "a")).
Proof. vm_compute. done. Qed.

Example order_and_continuation_verdicts :
  (efr_verdict <$> validate_order_sensitive_count) = Ok FIXTURE_INVALID ∧
  (efr_counterexample <$> validate_order_sensitive_count) = Ok (Some ("ab", "ba")) ∧
  (efr_continuation_compatible <$> validate_present_answer_without_continuation) = Ok false ∧
  (efr_factorization <$> validate_present_answer_without_continuation) = Ok true.
Proof. vm_compute. done. Qed.

(** ** The verdict is exact over every word *)

(** The state after a word of continuations. *)
Definition run (p : FiniteTransitionPresentation) (s : string) (word : list string) : string :=
  foldl (next_state p) s word.

Lemma elem_of_combinations2 {A} (l : list A) x y :
  x ∈ l → y ∈ l → x = y ∨ (x, y) ∈ combinations2 l ∨ (y, x) ∈ combinations2 l.
Proof.
  induction l as [|z l IH]; [by intros ?%not_elem_of_nil|]. cbn [combinations2].
  rewrite !elem_of_cons, !elem_of_app, !elem_of_map.
  intros [->|Hx] [->|Hy]; [by left|right; left; left; eauto|right; right; left; eauto|].
  destruct (IH Hx Hy) as [->|[H|H]]; [by left|right; left; by right|right; right; by right].
Qed.

Lemma combinations2_elem {A} (l : list A) xy : xy ∈ combinations2 l → xy.1 ∈ l ∧ xy.2 ∈ l.
Proof.
  induction l as [|z l IH]; cbn; [by intros ?%not_elem_of_nil|].
  rewrite elem_of_app, elem_of_map, !elem_of_cons. intros [(y & Hy & ->)|Hxy]; [auto|]. by destruct (IH Hxy); auto.
Qed.

(** A check of all unordered pairs checks all pairs, where the check is symmetric. *)
Lemma forallb_pairs {A} (f : A → A → bool) l :
  (∀ x, f x x = true) → (∀ x y, f x y = f y x) →
  forallb (λ xy, f xy.1 xy.2) (combinations2 l) = true ↔ ∀ x y, x ∈ l → y ∈ l → f x y = true.
Proof.
  intros Hrefl Hsym. rewrite all_true. split.
  - intros H x y Hx Hy. destruct (elem_of_combinations2 l x y Hx Hy) as [->|[Hp|Hp]]; [done|by apply (H _ Hp)|].
    rewrite Hsym. by apply (H _ Hp).
  - intros H xy Hxy. apply combinations2_elem in Hxy as [Hx Hy]. by apply H.
Qed.

Section exactness.
Context (p : FiniteTransitionPresentation).

Lemma same_q_sym x y : same_q p x y = same_q p y x.
Proof. unfold same_q. apply bool_decide_ext. split; congruence. Qed.
Lemma same_consequence_sym x y : same_consequence p x y = same_consequence p y x.
Proof. unfold same_consequence. apply bool_decide_ext. split; congruence. Qed.
Lemma steps_agree_sym x y : steps_agree p x y = steps_agree p y x.
Proof.
  unfold steps_agree. induction (ftp_alphabet p) as [|a l IH]; cbn; [done|]. by rewrite same_q_sym, IH.
Qed.

Lemma guarded_pairs (g : string → string → bool) :
(∀ x, g x x = true) → (∀ x y, g x y = g y x) →
forallb (λ xy, negb (same_q p xy.1 xy.2) || g xy.1 xy.2) (combinations2 (ftp_states p)) = true ↔
∀ x y, x ∈ ftp_states p → y ∈ ftp_states p → same_q p x y = true → g x y = true.
Proof.
  intros Hr Hs. rewrite (forallb_pairs (λ x y, negb (same_q p x y) || g x y)).
  - split; intros H x y Hx Hy.
    + intros Hq. specialize (H x y Hx Hy). by rewrite Hq in H.
    + destruct (same_q p x y) eqn:E; [|done]. by apply H.
  - intros x. rewrite Hr. apply orb_true_r.
  - intros x y. by rewrite same_q_sym, Hs.
Qed.

Notation pairs := (combinations2 (ftp_states p)).

(** The three flags, over all pairs of states of one class. *)
Lemma factorization_spec :
forallb (λ xy, negb (same_q p xy.1 xy.2) || same_consequence p xy.1 xy.2) pairs = true ↔
∀ x y, x ∈ ftp_states p → y ∈ ftp_states p → class_of_state p x = class_of_state p y →
  consequences_of p x = consequences_of p y.
Proof.
  rewrite (guarded_pairs (same_consequence p)); [|intros x; by apply bool_decide_eq_true|apply same_consequence_sym].
  split; intros H x y Hx Hy Hq.
  - exact (bool_decide_eq_true_1 _ (H x y Hx Hy (bool_decide_eq_true_2 _ Hq))).
  - exact (bool_decide_eq_true_2 _ (H x y Hx Hy (bool_decide_eq_true_1 _ Hq))).
Qed.

Lemma continuation_spec :
forallb (λ xy, negb (same_q p xy.1 xy.2) || steps_agree p xy.1 xy.2) pairs = true ↔
∀ x y a, x ∈ ftp_states p → y ∈ ftp_states p → a ∈ ftp_alphabet p → class_of_state p x = class_of_state p y →
  class_of_state p (next_state p x a) = class_of_state p (next_state p y a).
Proof.
  rewrite (guarded_pairs (steps_agree p)); [|intros x; apply all_true; intros a _; by apply bool_decide_eq_true|apply steps_agree_sym].
  split.
  - intros H x y a Hx Hy Ha Hq. specialize (H x y Hx Hy (bool_decide_eq_true_2 _ Hq)).
    unfold steps_agree in H. rewrite all_true in H. exact (bool_decide_eq_true_1 _ (H a Ha)).
  - intros H x y Hx Hy Hq. apply all_true. intros a Ha.
    exact (bool_decide_eq_true_2 _ (H x y a Hx Hy Ha (bool_decide_eq_true_1 _ Hq))).
Qed.

Lemma determination_agrees_true x y d : determination_agrees x y d = true ↔ (x ∈ d ↔ y ∈ d).
Proof.
  unfold determination_agrees. destruct (decide (x ∈ d)), (decide (y ∈ d));
    rewrite ?(bool_decide_eq_true_2 (x ∈ d)), ?(bool_decide_eq_true_2 (y ∈ d)),
      ?(bool_decide_eq_false_2 (x ∈ d)), ?(bool_decide_eq_false_2 (y ∈ d)) by done; cbn; naive_solver.
Qed.

Lemma determination_spec :
forallb (λ d, forallb (λ xy, negb (same_q p xy.1 xy.2) || determination_agrees xy.1 xy.2 d) pairs)
  (ftp_determinations p) = true ↔
∀ d x y, d ∈ ftp_determinations p → x ∈ ftp_states p → y ∈ ftp_states p →
  class_of_state p x = class_of_state p y → (x ∈ d ↔ y ∈ d).
Proof.
  assert (∀ d, forallb (λ xy, negb (same_q p xy.1 xy.2) || determination_agrees xy.1 xy.2 d) pairs = true ↔
    ∀ x y, x ∈ ftp_states p → y ∈ ftp_states p → same_q p x y = true → determination_agrees x y d = true) as Hd.
  { intros d. apply (guarded_pairs (λ x y, determination_agrees x y d)).
    - intros x. apply eqb_reflx.
    - intros x y. unfold determination_agrees. by destruct (bool_decide (x ∈ d)), (bool_decide (y ∈ d)). }
  rewrite all_true. split.
  - intros H d x y Hdd Hx Hy Hq. apply determination_agrees_true. apply (proj1 (Hd d) (H d Hdd)); [done..|].
    exact (bool_decide_eq_true_2 _ Hq).
  - intros H d Hdd. apply Hd. intros x y Hx Hy Hq. apply determination_agrees_true, H; [done..|].
    exact (bool_decide_eq_true_1 _ Hq).
Qed.

Lemma run_in_states s word :
total_transitions p = true → s ∈ ftp_states p → word ⊆ ftp_alphabet p → run p s word ∈ ftp_states p.
Proof.
  intros Htot. revert s. induction word as [|a word IH]; intros s Hs Hw; [done|]. cbn. apply IH; [|set_solver].
  unfold total_transitions in Htot. rewrite all_true in Htot. specialize (Htot s Hs).
  rewrite all_true in Htot. specialize (Htot a ltac:(set_solver)). unfold next_state, entry.
  destruct (ftp_transition p !! (s, a)); [|done]. by apply mem_true in Htot.
Qed.

(** One class stays one class along every word. *)
Lemma run_same_class :
total_transitions p = true →
(∀ x y a, x ∈ ftp_states p → y ∈ ftp_states p → a ∈ ftp_alphabet p → class_of_state p x = class_of_state p y →
   class_of_state p (next_state p x a) = class_of_state p (next_state p y a)) →
∀ s t word, s ∈ ftp_states p → t ∈ ftp_states p → word ⊆ ftp_alphabet p →
  class_of_state p s = class_of_state p t → class_of_state p (run p s word) = class_of_state p (run p t word).
Proof.
  intros Htot Hc s t word. revert s t. induction word as [|a word IH]; intros s t Hs Ht Hw Hq; [done|]. cbn.
  apply IH; [| |set_solver|].
  - by apply (run_in_states s [a]); [|done|set_solver].
  - by apply (run_in_states t [a]); [|done|set_solver].
  - apply Hc; [done..|set_solver|done].
Qed.

(** A pair the checker may answer with. *)
Definition disagrees (s t : string) : Prop :=
s ∈ ftp_states p ∧ t ∈ ftp_states p ∧ class_of_state p s = class_of_state p t ∧
(consequences_of p s ≠ consequences_of p t ∨
 ∃ a, a ∈ ftp_alphabet p ∧ class_of_state p (next_state p s a) ≠ class_of_state p (next_state p t a)).

Lemma first_unfactored st :
first (λ xy, same_q p xy.1 xy.2 && negb (same_consequence p xy.1 xy.2)) pairs = Some st → disagrees st.1 st.2.
Proof.
  intros [Hin H]%first_Some. apply combinations2_elem in Hin as [Hs Ht].
  apply andb_true_iff in H as [Hq%bool_decide_eq_true Hc]. apply negb_true_iff, bool_decide_eq_false in Hc.
  split_and!; auto.
Qed.

Lemma first_uncontinued st :
first (λ xy, same_q p xy.1 xy.2 && negb (steps_agree p xy.1 xy.2)) pairs = Some st → disagrees st.1 st.2.
Proof.
  intros [Hin H]%first_Some. apply combinations2_elem in Hin as [Hs Ht].
  apply andb_true_iff in H as [Hq%bool_decide_eq_true Hc]. apply negb_true_iff, all_false in Hc as (a & Ha & Hc).
  apply bool_decide_eq_false in Hc. split_and!; eauto.
Qed.

Lemma guarded_false (g : string → string → bool) :
forallb (λ xy, negb (same_q p xy.1 xy.2) || g xy.1 xy.2) pairs = false →
∃ st, first (λ xy, same_q p xy.1 xy.2 && negb (g xy.1 xy.2)) pairs = Some st.
Proof.
  intros (xy & Hin & H)%all_false.
  destruct (first_is_Some (λ xy, same_q p xy.1 xy.2 && negb (g xy.1 xy.2)) pairs xy Hin) as (st & Hst & _); [|eauto].
  by destruct (same_q p xy.1 xy.2), (g xy.1 xy.2).
Qed.
End exactness.

(** C29: the finite check decides a property of all histories: over a total
    presentation it answers [VALID] exactly when any two states of one class remain
    in one class after every word of continuations, with the same consequences and
    the same determinations there; and it answers with a pair of states of one class
    that disagree at once or after one step exactly when factorization or
    continuation fails. *)
Theorem finite_quotient_exact (p : FiniteTransitionPresentation) r
  (Hr : validate_finite_transition_quotient p = Ok r) :
  (efr_verdict r = FIXTURE_VALID ↔
     ∀ s t word, s ∈ ftp_states p → t ∈ ftp_states p → word ⊆ ftp_alphabet p →
       class_of_state p s = class_of_state p t →
       class_of_state p (run p s word) = class_of_state p (run p t word) ∧
       consequences_of p (run p s word) = consequences_of p (run p t word) ∧
       ∀ d, d ∈ ftp_determinations p → (run p s word ∈ d ↔ run p t word ∈ d)) ∧
  (efr_factorization r && efr_continuation_compatible r = false ↔
     ∃ s t, efr_counterexample r = Some (s, t) ∧ disagrees p s t).
Proof.
  unfold validate_finite_transition_quotient in Hr. apply raise_if_bind in Hr as [Hg Hr].
  rewrite !orb_false_iff, !negb_false_iff in Hg. destruct Hg as [_ Htot].
  injection Hr as <-. cbn [efr_verdict efr_factorization efr_continuation_compatible efr_counterexample].
  pose proof (factorization_spec p) as Hfact. pose proof (continuation_spec p) as Hcont.
  pose proof (determination_spec p) as Hdet.
  pose proof (guarded_false p (same_consequence p)) as Hff. pose proof (guarded_false p (steps_agree p)) as Hcf.
  set (fact := forallb (λ xy, negb (same_q p xy.1 xy.2) || same_consequence p xy.1 xy.2) _) in *.
  set (cont := forallb (λ xy, negb (same_q p xy.1 xy.2) || steps_agree p xy.1 xy.2) _) in *.
  set (det := forallb _ (ftp_determinations p)) in *. split.
  - transitivity (fact && cont && det = true); [by destruct (fact && cont && det); split; intros [=]|].
    rewrite !andb_true_iff, Hfact, Hcont, Hdet. split.
    + intros [[Hf Hc] Hd] s t word Hs Ht Hw Hq.
      pose proof (run_same_class p Htot Hc s t word Hs Ht Hw Hq) as Hrun.
      assert (run p s word ∈ ftp_states p) as Hrs by (by apply run_in_states).
      assert (run p t word ∈ ftp_states p) as Hrt by (by apply run_in_states).
      split; [done|split; [by apply Hf|]]. intros d Hdd. by apply (Hd d _ _ Hdd Hrs Hrt).
    + intros H. split; [split|].
      * intros x y Hx Hy Hq. by apply (H x y [] Hx Hy ltac:(set_solver) Hq).
      * intros x y a Hx Hy Ha Hq. by apply (H x y [a] Hx Hy ltac:(set_solver) Hq).
      * intros d x y Hd Hx Hy Hq. by apply (H x y [] Hx Hy ltac:(set_solver) Hq).
  - split.
    + intros Hbad. destruct (first (λ xy, same_q p xy.1 xy.2 && negb (same_consequence p xy.1 xy.2)) _) as [[s t]|] eqn:E.
      * exists s, t. split; [done|]. by apply (first_unfactored p (s, t)).
      * destruct fact eqn:Ef; [|by destruct (Hff eq_refl)]. cbn in Hbad. rewrite Hbad in *.
        destruct (Hcf eq_refl) as [[s t] Hst]. exists s, t. split; [done|]. by apply (first_uncontinued p (s, t)).
    + intros (s & t & _ & Hs & Ht & Hq & [Hc|(a & Ha & Hc)]); apply not_true_is_false;
        rewrite andb_true_iff, Hfact, Hcont; intros [Hf Hco]; [by apply Hc, Hf|by apply Hc, Hco].
Qed.

Definition parity_presentation : FiniteTransitionPresentation :=
  MkFiniteTransitionPresentation ["even"; "odd"] ["a"] "even"
    (list_to_map [(("even", "a"), "odd"); (("odd", "a"), "even")])
    (dict [("even", "unit"); ("odd", "unit")]) (dict [("even", "unit"); ("odd", "unit")])
    (dict [("even", ["parity:0"]); ("odd", ["parity:1"])]) [].

Lemma finite_quotient_exact_witness :
  ∃ r, validate_finite_transition_quotient parity_presentation = Ok r ∧
    ∃ s t, efr_counterexample r = Some (s, t) ∧ disagrees parity_presentation s t.
Proof.
  eexists. split; [vm_compute; reflexivity|].
  eapply (finite_quotient_exact parity_presentation); [vm_compute; reflexivity|reflexivity].
Defined.
