(* ===== verification/Questions.v ===== *)
(** * Question contracts: [src/rci/questions/models.py], [catalog.py]

    Contracts, profiles and catalogs with their validators, the rendering of a
    template, the binding of an answer, and the sealed catalog itself.  Theorem:
    rendering substitutes exactly the fields a template names and copies every
    binding verbatim, so nothing in a binding is ever interpreted; a template with a
    positional field, which [_render_fields] lets through, never renders. *)

From S2P Require Import Prelude Digest Model Claims.

Inductive ContractMaturity : Type :=
| MATURITY_DRAFT | MATURITY_EXPERIMENTAL | MATURITY_STABLE | MATURITY_DEPRECATED.
#[export] Instance ContractMaturity_eq_dec : EqDecision ContractMaturity.
Proof. solve_decision. Defined.
Definition ContractMaturity_value (m : ContractMaturity) : string :=
  match m with
  | MATURITY_DRAFT => "draft" | MATURITY_EXPERIMENTAL => "experimental"
  | MATURITY_STABLE => "stable" | MATURITY_DEPRECATED => "deprecated"
  end.

(** [AnswerShape] has one member, [OPAQUE_L0_INERT]. *)
Inductive AnswerShape : Type := OPAQUE_L0_INERT.
#[export] Instance AnswerShape_eq_dec : EqDecision AnswerShape.
Proof. solve_decision. Defined.

Record QuestionContract : Type := MkQuestionContract {
  qc_id : string;
  qc_version : string;
  qc_family : string;
  qc_input_roles : list string;
  qc_output_claim_role : ClaimRole;
  qc_precondition_policy_id : string;
  qc_render_template : string;
  qc_answer_shape : AnswerShape;
  qc_answer_schema_id : string;
  qc_bind_policy_id : string;
  qc_reifier_id : option string;
  qc_verifier_id : option string;
  qc_update_rule_id : string;
  qc_next_obligation_rule_ids : list string;
  qc_maturity : ContractMaturity;
  qc_recurrent_probe : bool;
  qc_comparison_semantics_id : option string;
  qc_canonical_probe_rendering : option string;
  qc_applicability_guard_id : option string;
  qc_history_policy_id : option string;
}.
#[export] Instance QuestionContract_eq_dec : EqDecision QuestionContract.
Proof. solve_decision. Defined.

Definition validate_question_contract (c : QuestionContract) : result unit :=
  raise_if (is_empty (qc_id c) || is_empty (qc_version c) || is_empty (qc_family c)
            || is_empty (qc_answer_schema_id c))
    ValidationError "question id, version, family, and answer schema are required";;
  raise_if (negb (uniq (qc_input_roles c))) ValidationError "question input roles must be unique";;
  raise_if (qc_recurrent_probe c
            && (is_none (qc_comparison_semantics_id c) || is_none (qc_applicability_guard_id c)
                || is_none (qc_history_policy_id c)))
    ValidationError "recurrent probes require comparison, guard, and history policy".

(** [QuestionContract.key] *)
Definition qc_key (c : QuestionContract) : string := qc_id c +:+ "@" +:+ qc_version c.

Record QuestionProfile : Type := MkQuestionProfile {
  qp_id : string;
  qp_version : string;
  qp_contract_keys : list string;
}.
#[export] Instance QuestionProfile_eq_dec : EqDecision QuestionProfile.
Proof. solve_decision. Defined.

Definition validate_profile (p : QuestionProfile) : result unit :=
  raise_if (negb (uniq (qp_contract_keys p))) ValidationError "profile contract keys must be unique".

Record QuestionCatalog : Type := MkQuestionCatalog {
  qcat_id : string;
  qcat_version : string;
  qcat_contracts : list QuestionContract;
  qcat_profiles : list QuestionProfile;
}.
#[export] Instance QuestionCatalog_eq_dec : EqDecision QuestionCatalog.
Proof. solve_decision. Defined.

Definition deprecated_keys (c : QuestionCatalog) : list string :=
  map qc_key (List.filter (λ k, qc_maturity k ==? MATURITY_DEPRECATED) (qcat_contracts c)).

Definition validate_catalog (c : QuestionCatalog) : result unit :=
  let keys := map qc_key (qcat_contracts c) in
  raise_if (negb (uniq keys)) ValidationError "catalog contract keys must be unique";;
  for_each (λ p,
    raise_if (negb (subset (qp_contract_keys p) keys))
      ValidationError "profile references unknown contracts";;
    raise_if (existsb (λ k, mem k (deprecated_keys c)) (qp_contract_keys p))
      ValidationError "deprecated contracts cannot be newly scheduled") (qcat_profiles c);;
  raise_if (negb (uniq (map (λ p, (qp_id p, qp_version p)) (qcat_profiles c))))
    ValidationError "catalog profile versions must be unique".

(** [QuestionCatalog.schedulable_contracts] *)
Definition schedulable_contracts (c : QuestionCatalog) (profile_id version : string) :
    result (list QuestionContract) :=
  match first (λ p, (qp_id p ==? profile_id) && (qp_version p ==? version)) (qcat_profiles c) with
  | None => raise KeyError "unknown question profile"
  | Some p =>
    let by_key := dict_by qc_key (qcat_contracts c) in
    traverse (λ k, match by_key !! k with Some q => Ok q | None => raise KeyError k end)
      (qp_contract_keys p)
  end.

(** ** Rendering

    [string.Formatter().parse] on the templates the code accepts.  Every other
    template is refused with a [ValueError], by the parser (an unmatched brace) or
    by [_render_fields] (an indexed, converted, formatted or unnamed field).  The
    parser reports the NUL character after [!] as no conversion, so [_render_fields]
    accepts it. *)

Inductive template_piece : Type := Literal (text : string) | Field (name : string).

Definition bad_template {A} : result A := raise ValueError "templates may reference only direct named fields".

Definition open_brace : Ascii.ascii := Ascii.ascii_of_nat 123.
Definition close_brace : Ascii.ascii := Ascii.ascii_of_nat 125.
Definition is_char (n : nat) (a : Ascii.ascii) : bool := (Ascii.nat_of_ascii a =? n)%nat.

(** The remaining text, read outside a field ([None]) or inside one with the name
    so far. *)
Fixpoint parse_template (field : option string) (s : string) : result (list template_piece) :=
  match field, s with
  | None, EmptyString => Ok []
  | Some _, EmptyString => bad_template
  | None, String a s' =>
    if is_char 123 a then
      match s' with
      | String b s'' =>
        if is_char 123 b then pieces ← parse_template None s''; Ok (Literal (String a "") :: pieces)
        else parse_template (Some "") s'
      | EmptyString => bad_template
      end
    else if is_char 125 a then
      match s' with
      | String b s'' =>
        if is_char 125 b then pieces ← parse_template None s''; Ok (Literal (String a "") :: pieces)
        else bad_template
      | EmptyString => bad_template
      end
    else pieces ← parse_template None s'; Ok (Literal (String a "") :: pieces)
  | Some name, String a s' =>
    if is_char 125 a then
      if is_empty name then bad_template
      else pieces ← parse_template None s'; Ok (Field name :: pieces)
    else if is_char 58 a then
      match s' with
      | String b s'' =>
        if is_char 125 b && negb (is_empty name) then
          pieces ← parse_template None s''; Ok (Field name :: pieces)
        else bad_template
      | EmptyString => bad_template
      end
    else if is_char 33 a then
      match s' with
      | String n (String b s'') =>
        if negb (is_char 0 n) || is_empty name then bad_template
        else if is_char 125 b then pieces ← parse_template None s''; Ok (Field name :: pieces)
        else if is_char 58 b then
          match s'' with
          | String d rest =>
            if is_char 125 d then pieces ← parse_template None rest; Ok (Field name :: pieces)
            else bad_template
          | EmptyString => bad_template
          end
        else bad_template
      | _ => bad_template
      end
    else if is_char 46 a || is_char 91 a || is_char 123 a then bad_template
    else parse_template (Some (name +:+ String a "")) s'
  end.

Definition piece_fields (pieces : list template_piece) : list string :=
  omap (λ p, match p with Field name => Some name | Literal _ => None end) pieces.

(** [_render_fields] *)
Definition render_fields (template : string) : result (list string) :=
  pieces ← parse_template None template; Ok (piece_fields pieces).

(** The characters of a text, from their UTF-8 bytes: the character begun so far and
    the number of bytes it still needs. *)
Fixpoint decode_utf8 (begun : N) (needs : nat) (s : string) : list N :=
  match s with
  | EmptyString => []
  | String a s =>
    let b := Ascii.N_of_ascii a in
    match needs with
    | S O => (begun * 64 + b mod 64)%N :: decode_utf8 0 0 s
    | S needs => decode_utf8 (begun * 64 + b mod 64) needs s
    | O =>
      if (b <? 128)%N then b :: decode_utf8 0 0 s
      else if (b <? 224)%N then decode_utf8 (b mod 32) 1 s
      else if (b <? 240)%N then decode_utf8 (b mod 16) 2 s
      else decode_utf8 (b mod 8) 3 s
    end
  end.

(** The decimal digits of Unicode 15, the version of Python 3.12: each of these is
    the zero of a run of ten. *)
Definition DECIMAL_ZEROS : list N :=
  [48; 1632; 1776; 1984; 2406; 2534; 2662; 2790; 2918; 3046; 3174; 3302; 3430; 3558; 3664; 3792; 3872;
   4160; 4240; 6112; 6160; 6470; 6608; 6784; 6800; 6992; 7088; 7232; 7248; 42528; 43216; 43264; 43472;
   43504; 43600; 44016; 65296; 66720; 68912; 69734; 69872; 69942; 70096; 70384; 70736; 70864; 71248;
   71360; 71472; 71904; 72016; 72784; 73040; 73120; 73552; 92768; 92864; 93008; 120782; 120792; 120802;
   120812; 120822; 123200; 123632; 124144; 125264; 130032]%N.
Definition decimal (c : N) : option N :=
  (λ zero, (c - zero)%N) <$> first (λ zero, (zero <=? c)%N && (c <? zero + 10)%N) DECIMAL_ZEROS.

Definition SSIZE_MAX : N := 9223372036854775807.

(** The integer [format_map] takes a field name for: a name of decimal digits only is
    positional, and one that overflows before its first other character raises. *)
Fixpoint get_integer (accumulated : N) (name : list N) : result (option N) :=
  match name with
  | [] => Ok (Some accumulated)
  | c :: name =>
    match decimal c with
    | None => Ok None
    | Some d =>
      raise_if ((SSIZE_MAX - d) / 10 <? accumulated)%N ValueError "Too many decimal digits in format string";;
      get_integer (accumulated * 10 + d) name
    end
  end.
Definition field_index (name : string) : result (option N) := get_integer 0 (decode_utf8 0 0 name).

Definition render_piece (bindings : gmap string string) (p : template_piece) : result string :=
  match p with
  | Literal text => Ok text
  | Field name =>
    index ← field_index name;
    raise_if (is_some index) ValueError "Format string contains positional fields";;
    match bindings !! name with Some text => Ok text | None => raise KeyError name end
  end.

(** [template.format_map(bindings)] *)
Definition format_map (bindings : gmap string string) (pieces : list template_piece) : result string :=
  texts ← traverse (render_piece bindings) pieces; Ok (join "" texts).

Definition render_question (c : QuestionContract) (bindings : gmap string string) : result string :=
  pieces ← parse_template None (qc_render_template c);
  raise_if (negb (bool_decide ((list_to_set (piece_fields pieces) : gset string) = dom bindings)))
    ValueError "render bindings mismatch";;
  format_map bindings pieces.

(** The answer shape has one member, so its guard never fires. *)
Definition bind_answer (c : QuestionContract) (answer : InertPayload) (bound_args : list BoundArgument)
    (scope : Scope) (provenance : Provenance) : result Claim :=
  raise_if (qc_answer_shape c !=? OPAQUE_L0_INERT) ValueError "unregistered answer shape";;
  raise_if (qc_answer_schema_id c !=? "rci.inert-payload.v1") ValueError "unregistered answer schema";;
  raise_if (qc_bind_policy_id c !=? "bind-l0-v1") ValueError "unregistered bind policy";;
  bind_l0_answer (qc_key c) (qc_output_claim_role c) answer bound_args scope provenance None.

(** ** The sealed catalog: [catalog.py] *)

(** [_contract] *)
Definition contract_of (id family : string) (role : ClaimRole) (template : string)
    (maturity : ContractMaturity) (next_rules : list string) : QuestionContract :=
  MkQuestionContract id "1.0.0" family ["carrier"] role "carrier-present-v1" template OPAQUE_L0_INERT
    "rci.inert-payload.v1" "bind-l0-v1" None None "append-provisional-claim-v1" next_rules maturity
    false None None None None.

Definition CORE_CONTRACTS : list QuestionContract :=
  [contract_of "obligation-characterization" "present-obligation" CHARACTERIZATION
     "What exact relation must be established for {carrier}?" MATURITY_STABLE [];
   contract_of "same-class-variation" "stretch-positive" VARIATION
     "What variation of {carrier} preserves the protected consequence?" MATURITY_STABLE [];
   contract_of "minimal-boundary-crossing" "squeeze-positive-to-negative" BOUNDARY
     "What smallest change to {carrier} crosses the protected boundary?" MATURITY_STABLE [];
   contract_of "factor-proposal" "factor" FACTOR
     "Which factor best explains the consequential variation in {carrier}?" MATURITY_STABLE [];
   contract_of "necessity-counterexample" "necessity" NECESSITY
     "Can the consequence hold without {carrier}?" MATURITY_STABLE
     ["retain-counterexample-or-record-unknown-v1"];
   contract_of "sufficiency-counterexample" "sufficiency" SUFFICIENCY
     "Can {carrier} hold while the consequence fails?" MATURITY_STABLE
     ["retain-counterexample-or-record-unknown-v1"];
   contract_of "conflict-localization" "contradiction-repair" LOCALIZATION
     "Where is the smallest explicit conflict involving {carrier}?" MATURITY_STABLE [];
   contract_of "residual-characterization" "residual" RESIDUAL
     "What consequential uncertainty remains for {carrier}?" MATURITY_STABLE []].

Definition DRAFT_FAMILIES : list (string * string * ClaimRole) :=
  [("binding", "binding", CHARACTERIZATION); ("consequence", "consequence", CHARACTERIZATION);
   ("distinction", "distinction", BOUNDARY); ("equivalence", "equivalence", GENERALIZATION);
   ("second-distinction", "second-distinction-tetrad", BOUNDARY); ("arrangement", "arrangement", PATTERN);
   ("succession", "succession", PATTERN); ("stretch-negative", "stretch-negative", VARIATION);
   ("squeeze-negative-positive", "squeeze-negative-to-positive", BOUNDARY);
   ("extreme-reversal", "extreme-reversal", VARIATION);
   ("problem-reconstruction", "problem-non-problem", CHARACTERIZATION);
   ("abstraction", "abstraction", GENERALIZATION);
   ("description-control", "description-control", PREREQUISITE);
   ("actualization", "actualization", ACTUALIZATION); ("prerequisite", "prerequisite", PREREQUISITE);
   ("discharge-selection", "discharge-selection", CHARACTERIZATION);
   ("warrant", "warrant", CHARACTERIZATION); ("success-localization", "success-localization", LOCALIZATION);
   ("failure-localization", "failure-localization", LOCALIZATION);
   ("generalization", "generalization", GENERALIZATION);
   ("conditional-learning", "conditional-learning", GENERALIZATION); ("reopening", "reopening", RESIDUAL);
   ("compression", "compression", RESIDUAL); ("intermediate-lawfulness", "intermediate-lawfulness", INVARIANT);
   ("question-selection", "question-selection", CHARACTERIZATION); ("progress", "progress", CHARACTERIZATION);
   ("stopping", "stopping", CHARACTERIZATION); ("recurrent-perception", "recurrent-perceptual", PATTERN)].

Definition DRAFT_CONTRACTS : list QuestionContract :=
  map (λ x, contract_of ("draft-" +:+ x.1.1) x.1.2 x.2
              ("What does the " +:+ x.1.2 +:+ " relation reveal about {carrier}?") MATURITY_DRAFT [])
    DRAFT_FAMILIES.

Definition CORE_V1 : QuestionProfile := MkQuestionProfile "core-v1" "1.0.0" (map qc_key CORE_CONTRACTS).

Definition CATALOG_V0_3 : QuestionCatalog :=
  MkQuestionCatalog "rci-question-catalog" "0.3.0" (CORE_CONTRACTS ++ DRAFT_CONTRACTS) [CORE_V1].

Definition LEARNED_RECURRENT_PROBE : QuestionContract :=
  MkQuestionContract "learned-recurrent-probe" "1.0.0" "learned-recurrent-perceptual" ["carrier"] PATTERN
    "admitted-learned-probe-v1" "What protected distinction does the admitted probe reveal for {carrier}?"
    OPAQUE_L0_INERT "rci.inert-payload.v1" "bind-l0-v1" None None "append-provisional-claim-v1"
    ["retain-provisional-pattern-or-record-unknown-v1"] MATURITY_STABLE true
    (Some "candidate-bound-exact-v1") (Some "learned-recurrent-probe-v1") (Some "always")
    (Some "fresh-before-history-v1").

Definition G2B_COGNITIVE_V1 : QuestionProfile :=
  MkQuestionProfile "g2b-cognitive-v1" "1.0.0" [qc_key LEARNED_RECURRENT_PROBE].

Definition CATALOG_V0_4 : QuestionCatalog :=
  MkQuestionCatalog "rci-question-catalog" "0.4.0"
    (qcat_contracts CATALOG_V0_3 ++ [LEARNED_RECURRENT_PROBE])
    (qcat_profiles CATALOG_V0_3 ++ [G2B_COGNITIVE_V1]).

Definition get_contract (id version : string) : result QuestionContract :=
  match first (λ c, (qc_id c ==? id) && (qc_version c ==? version)) (qcat_contracts CATALOG_V0_4) with
  | Some c => Ok c
  | None => raise KeyError "unknown question contract"
  end.

(** The sealed catalogs pass their own validators, and every contract of them
    renders for its one role. *)
Example sealed_catalogs_valid :
  validate_catalog CATALOG_V0_3 = Ok tt ∧ validate_catalog CATALOG_V0_4 = Ok tt ∧
  Forall (λ c, validate_question_contract c = Ok tt ∧
               is_ok (render_question c (list_to_map [("carrier", "x")])) = true) (qcat_contracts CATALOG_V0_4).
Proof. split_and!; [vm_compute; reflexivity..|]. repeat constructor. Qed.

(** ** Printing and parsing templates *)

Definition is_brace (a : Ascii.ascii) : bool := is_char 123 a || is_char 125 a.

(** A character a field name may hold: not one of [{ } : ! . [. *)
Definition is_field_char (a : Ascii.ascii) : bool :=
  negb (is_char 125 a || is_char 58 a || is_char 33 a || is_char 46 a || is_char 91 a || is_char 123 a).

(** The pieces the parser answers with: single characters and proper names. *)
Definition proper_piece (p : template_piece) : Prop :=
  match p with
  | Literal (String _ "") => True
  | Literal _ => False
  | Field name => name ≠ "" ∧ string_all is_field_char name = true
  end.

(** The template of a sequence of pieces. *)
Definition print_piece (p : template_piece) (rest : string) : string :=
  match p with
  | Literal (String a "") => if is_brace a then String a (String a rest) else String a rest
  | Literal text => text +:+ rest
  | Field name => String open_brace (name +:+ String close_brace rest)
  end.
Definition print_template (pieces : list template_piece) : string := foldr print_piece "" pieces.

Lemma is_char_true n a : is_char n a = true ↔ Ascii.nat_of_ascii a = n.
Proof. apply Nat.eqb_eq. Qed.

Lemma parse_field_name acc name rest :
  string_all is_field_char name = true → acc +:+ name ≠ "" →
  parse_template (Some acc) (name +:+ String close_brace rest) =
  (pieces ← parse_template None rest; Ok (Field (acc +:+ name) :: pieces)).
Proof.
  revert acc. induction name as [|a name IH]; intros acc Hall Hne.
  - rewrite string_app_nil_r in *. change ("" +:+ String close_brace rest) with (String close_brace rest).
    cbn [parse_template]. change (is_char 125 close_brace) with true. cbn beta iota.
    unfold is_empty. by rewrite (bool_decide_eq_false_2 (acc = "")).
  - cbn [string_all] in Hall. apply andb_true_iff in Hall as [Ha Hall].
    unfold is_field_char in Ha. rewrite negb_true_iff, !orb_false_iff in Ha.
    destruct Ha as [[[[[H1 H2] H3] H4] H5] H6].
    change (String a name +:+ String close_brace rest) with (String a (name +:+ String close_brace rest)).
    cbn [parse_template]. rewrite H1, H2, H3, H4, H5, H6. cbn [orb].
    change (acc +:+ String a name) with (acc +:+ (String a "" +:+ name)) in Hne |- *.
    rewrite <-string_app_assoc in Hne |- *. by apply IH.
Qed.

Lemma parse_open b s :
  is_char 123 b = false →
  parse_template None (String open_brace (String b s)) = parse_template (Some "") (String b s).
Proof. intros Hb. cbn [parse_template]. change (is_char 123 open_brace) with true. cbn beta iota. by rewrite Hb. Qed.

Lemma parse_print_piece p rest :
  proper_piece p →
  parse_template None (print_piece p rest) = (pieces ← parse_template None rest; Ok (p :: pieces)).
Proof.
  destruct p as [[|a [|]]|name]; try done; intros Hp.
  - cbn [print_piece]. unfold is_brace. destruct (is_char 123 a) eqn:E1; cbn [orb parse_template].
    + by rewrite !E1.
    + destruct (is_char 125 a) eqn:E2; cbn [parse_template]; by rewrite ?E1, ?E2.
  - destruct Hp as [Hne Hall]. cbn [print_piece].
    destruct name as [|a name]; [done|].
    assert (is_char 123 a = false) as Ha.
    { cbn [string_all] in Hall. apply andb_true_iff in Hall as [Ha _].
      unfold is_field_char in Ha. rewrite negb_true_iff, !orb_false_iff in Ha. tauto. }
    change (String a name +:+ String close_brace rest) with (String a (name +:+ String close_brace rest)).
    rewrite parse_open by done.
    change (String a (name +:+ String close_brace rest)) with (String a name +:+ String close_brace rest).
    by rewrite (parse_field_name "" (String a name)).
Qed.

(** The pieces with every field replaced by its binding. *)
Definition substitute (bindings : gmap string string) (pieces : list template_piece) : string :=
  join "" (map (λ p, match p with Literal text => text | Field name => default "" (bindings !! name) end) pieces).

(** A name [format_map] looks up, and does not take for a position. *)
Definition named_field (name : string) : Prop := field_index name = Ok None.
#[export] Instance named_field_dec name : Decision (named_field name).
Proof. unfold named_field. destruct (field_index name) as [[i|]|e]; [by right|by left|by right]. Defined.

Lemma elem_of_piece_fields pieces name : name ∈ piece_fields pieces ↔ Field name ∈ pieces.
Proof.
  unfold piece_fields. rewrite list_elem_of_omap. split.
  - intros ([|n] & Hp & Hn); [done|]. by injection Hn as ->.
  - intros Hp. by exists (Field name).
Qed.

Lemma get_integer_raises acc l e : get_integer acc l = Raise e → exn_class e = ValueError.
Proof.
  revert acc. induction l as [|c l IH]; intros acc; [done|]. cbn [get_integer].
  destruct (decimal c); [|done]. destruct (_ <? _)%N; cbn; [by intros [= <-]|apply IH].
Qed.

Lemma render_piece_named bindings name text :
  named_field name → bindings !! name = Some text → render_piece bindings (Field name) = Ok text.
Proof. intros Hn Hb. cbn [render_piece]. rewrite Hn. cbn. by rewrite Hb. Qed.

Lemma format_map_named bindings pieces :
  (∀ name, Field name ∈ pieces → named_field name ∧ is_Some (bindings !! name)) →
  format_map bindings pieces = Ok (substitute bindings pieces).
Proof.
  intros H. unfold format_map, substitute.
  assert (traverse (render_piece bindings) pieces = Ok (map (λ p, match p with
    | Literal text => text | Field name => default "" (bindings !! name) end) pieces)) as ->; [|done].
  induction pieces as [|p pieces IH]; [done|]. cbn [traverse map].
  rewrite IH by (intros name Hin; apply H; by right). destruct p as [text|name]; [done|].
  destruct (H name) as [Hn [text Hb]]; [by left|]. by rewrite (render_piece_named _ _ text), Hb.
Qed.

Lemma format_map_positional bindings pieces name :
  (∀ n, Field n ∈ pieces → is_Some (bindings !! n)) → Field name ∈ pieces → ¬ named_field name →
  ∃ e, format_map bindings pieces = Raise e ∧ exn_class e = ValueError.
Proof.
  intros Hb Hin Hn. unfold format_map.
  enough (∃ e, traverse (render_piece bindings) pieces = Raise e ∧ exn_class e = ValueError) as (e & -> & He) by eauto.
  induction pieces as [|p pieces IH]; [by apply not_elem_of_nil in Hin|]. cbn [traverse].
  assert (Hstep : (∃ text, render_piece bindings p = Ok text)
                  ∨ ∃ e, render_piece bindings p = Raise e ∧ exn_class e = ValueError).
  { destruct p as [text|n]; [by left; eexists|]. destruct (Hb n) as [text Ht]; [by left|]. cbn [render_piece].
    destruct (field_index n) as [[i|]|e] eqn:Hi; cbn; [by right; eexists|rewrite Ht; by left; eexists|].
    right. exists e. split; [done|]. by eapply get_integer_raises. }
  destruct Hstep as [[text Ht]|(e & -> & He)]; [|by exists e].
  rewrite Ht. cbn. apply elem_of_cons in Hin as [<-|Hin].
  - exfalso. apply Hn. unfold named_field. cbn [render_piece] in Ht.
    by destruct (field_index name) as [[i|]|e] eqn:Hi.
  - destruct IH as (e & -> & He); [intros n ?; apply Hb; by right|done|by exists e].
Qed.

(** Rendering the pieces of a template: exactly when it succeeds, with what, and how
    it fails. *)
Lemma render_exact pieces :
  (∀ bindings text,
     (raise_if (negb (bool_decide ((list_to_set (piece_fields pieces) : gset string) = dom bindings)))
        ValueError "render bindings mismatch";; format_map bindings pieces) = Ok text ↔
     (list_to_set (piece_fields pieces) : gset string) = dom bindings
     ∧ (∀ name, Field name ∈ pieces → named_field name) ∧ text = substitute bindings pieces) ∧
  (∀ bindings e,
     (raise_if (negb (bool_decide ((list_to_set (piece_fields pieces) : gset string) = dom bindings)))
        ValueError "render bindings mismatch";; format_map bindings pieces) = Raise e → exn_class e = ValueError).
Proof.
  assert (Hbound : ∀ bindings : gmap string string,
    (list_to_set (piece_fields pieces) : gset string) = dom bindings →
    ∀ name, Field name ∈ pieces → is_Some (bindings !! name)).
  { intros bindings Hd name Hin. rewrite <-elem_of_dom, <-Hd, elem_of_list_to_set. by apply elem_of_piece_fields. }
  assert (Hdec : (∀ name, Field name ∈ pieces → named_field name)
                 ∨ ∃ name, Field name ∈ pieces ∧ ¬ named_field name).
  { destruct (decide (Forall named_field (piece_fields pieces))) as [Hf|Hf].
    - left. intros name Hin. rewrite Forall_forall in Hf. by apply Hf, elem_of_piece_fields.
    - right. apply neg_Forall_Exists_neg in Hf; [|apply named_field_dec]. apply Exists_exists in Hf as (name & Hin & Hn).
      exists name. by rewrite <-elem_of_piece_fields. }
  split; intros bindings; case_bool_decide as Hd; cbn.
  - destruct Hdec as [Hn|(name & Hin & Hn)].
    + intros text. rewrite format_map_named by auto. naive_solver.
    + destruct (format_map_positional bindings pieces name) as (e & -> & _); [by apply Hbound|done|done|].
      intros text. split; [done|]. intros (_ & H & _). by destruct Hn; apply H.
  - intros text. split; [done|]. tauto.
  - intros e. destruct Hdec as [Hn|(name & Hin & Hn)].
    + by rewrite format_map_named by auto.
    + destruct (format_map_positional bindings pieces name) as (e' & -> & He); [by apply Hbound|done|done|].
      by intros [= <-].
  - by intros e [= <-].
Qed.

(** C40: Printing and parsing question templates round-trips: a template printed from
    single characters (braces doubled) and proper field names parses back to exactly
    those pieces.  With a binding for exactly its fields it renders, when every field
    is named, by copying the characters and each binding verbatim, so braces and field
    names inside a binding are never interpreted; and a template with a positional
    field such as [{0}], or with bindings of other names, raises [ValueError]. *)
Theorem template_roundtrip (c : QuestionContract) pieces
  (Hproper : ∀ p, p ∈ pieces → proper_piece p)
  (Htemplate : qc_render_template c = print_template pieces) :
  parse_template None (qc_render_template c) = Ok pieces ∧
  (∀ bindings text, render_question c bindings = Ok text ↔
     (list_to_set (piece_fields pieces) : gset string) = dom bindings
     ∧ (∀ name, Field name ∈ pieces → named_field name) ∧ text = substitute bindings pieces) ∧
  (∀ bindings e, render_question c bindings = Raise e → exn_class e = ValueError).
Proof.
  assert (parse_template None (qc_render_template c) = Ok pieces) as Hparse.
  { rewrite Htemplate. clear Htemplate. induction pieces as [|p pieces IH]; [done|].
    cbn [print_template foldr]. rewrite parse_print_piece by (apply Hproper; by left).
    change (foldr print_piece "" pieces) with (print_template pieces).
    rewrite IH; [done|]. intros q Hq. apply Hproper. by right. }
  split; [done|]. unfold render_question. rewrite Hparse. cbn [mbind result_bind].
  apply render_exact.
Qed.

Definition example_contract : QuestionContract :=
  contract_of "example" "family" PATTERN "a{{{carrier}" MATURITY_DRAFT [].

Lemma template_roundtrip_witness :
  render_question example_contract {["carrier" := "{x}"]} = Ok "a{{x}".
Proof.
  refine (proj2 (proj1 (proj2 (template_roundtrip example_contract [Literal "a"; Literal "{"; Field "carrier"] _ _))
                   {["carrier" := "{x}"]} "a{{x}") _).
  - intros p. rewrite !elem_of_cons. intros [->|[->|[->|Hp]]]; [done|done|by split|by apply not_elem_of_nil in Hp].
  - reflexivity.
  - split_and!; [vm_compute; reflexivity| |vm_compute; reflexivity].
    intros name. rewrite !elem_of_cons, elem_of_nil. intros [Hp|[Hp|[Hp|[]]]]; [done|done|].
    injection Hp as ->. vm_compute. reflexivity.
Defined.

(** A template the field check lets through, and Python cannot render. *)
Example positional_template :
  let c := contract_of "example" "family" PATTERN "a{0}" MATURITY_DRAFT [] in
  render_fields (qc_render_template c) = Ok ["0"]
  ∧ render_question c {["0" := "x"]} = raise ValueError "Format string contains positional fields".
Proof. vm_compute. by split. Qed.
