(* ===== verification/Project.v ===== *)
(** * Recursive project inquiry: [src/rci/project/models.py], [selection.py]

    The records of a development argument with their validators, and the
    selection of a capability frontier.  Fields the code pins to one literal
    ([clean], [status], versions) carry no information and are left out.
    Theorem: a derived frontier keeps exactly the candidates no other dominates,
    covers every candidate, does not depend on the order of its input, and selects
    a discriminator only where one is cheapest on every axis. *)

From S2P Require Import Prelude Digest Model Claims Questions.

(** [_canonical] *)
Definition project_canonical (values : list string) (label : string) : result unit :=
  raise_if (negb (uniq values) || negb (canonical values))
    ValidationError (label +:+ " must be unique and canonically ordered").
Definition project_canonical_nonempty (values : list string) (label : string) : result unit :=
  raise_if (is_nil values) ValidationError (label +:+ " must not be empty");;
  project_canonical values label.

(** ** Repository paths *)

(** [s.split(c)] *)
Fixpoint split_on (c : nat) (s : string) : list string :=
  match s with
  | EmptyString => [""]
  | String a s =>
    if is_char c a then "" :: split_on c s
    else match split_on c s with [] => [String a ""] | x :: l => String a x :: l end
  end.

(** A path equals its [as_posix()] exactly when no component is empty or a dot. *)
Definition repository_relative_path (value label : string) : result unit :=
  let parts := split_on 47 value in
  raise_if (negb (string_all (λ a, negb (is_char 92 a)) value)
            || existsb (λ p, is_empty p || (p ==? ".") || (p ==? "..")) parts)
    ValidationError (label +:+ " must be a normalized repository-relative path").

(** ** Kinds and outcomes *)

Inductive LimitationKind : Type :=
| LIMIT_THEORY | LIMIT_QUESTION | LIMIT_PROBE | LIMIT_REPRESENTATION | LIMIT_METHOD | LIMIT_EVIDENCE
| LIMIT_IMPLEMENTATION | LIMIT_AUTHORITY.
#[export] Instance LimitationKind_eq_dec : EqDecision LimitationKind.
Proof. solve_decision. Defined.
Definition LimitationKind_value (k : LimitationKind) : string :=
  match k with
  | LIMIT_THEORY => "theory" | LIMIT_QUESTION => "question" | LIMIT_PROBE => "probe"
  | LIMIT_REPRESENTATION => "representation" | LIMIT_METHOD => "method" | LIMIT_EVIDENCE => "evidence"
  | LIMIT_IMPLEMENTATION => "implementation" | LIMIT_AUTHORITY => "authority"
  end.

Inductive SuccessorKind : Type :=
| SUCC_THEORY | SUCC_QUESTION_REPERTOIRE | SUCC_PROBE_REPERTOIRE | SUCC_REPRESENTATION
| SUCC_METHOD_REPERTOIRE | SUCC_IMPLEMENTATION | SUCC_GOAL_DECOMPOSITION.
#[export] Instance SuccessorKind_eq_dec : EqDecision SuccessorKind.
Proof. solve_decision. Defined.
Definition SuccessorKind_value (k : SuccessorKind) : string :=
  match k with
  | SUCC_THEORY => "theory" | SUCC_QUESTION_REPERTOIRE => "question_repertoire"
  | SUCC_PROBE_REPERTOIRE => "probe_repertoire" | SUCC_REPRESENTATION => "representation"
  | SUCC_METHOD_REPERTOIRE => "method_repertoire" | SUCC_IMPLEMENTATION => "implementation"
  | SUCC_GOAL_DECOMPOSITION => "goal_decomposition"
  end.

Inductive ProjectGainKind : Type :=
| REPAIRED_FAILURE | NEW_SEPARATOR | EXECUTABLE_RELATION | COMPLEXITY_REDUCTION
| DEVELOPMENT_RECOVERY | SCOPE_EXTENSION | NEW_METHOD | INDEPENDENT_CHECKABILITY.
#[export] Instance ProjectGainKind_eq_dec : EqDecision ProjectGainKind.
Proof. solve_decision. Defined.
Definition ProjectGainKind_value (k : ProjectGainKind) : string :=
  match k with
  | REPAIRED_FAILURE => "repaired_failure" | NEW_SEPARATOR => "new_separator"
  | EXECUTABLE_RELATION => "executable_relation" | COMPLEXITY_REDUCTION => "complexity_reduction"
  | DEVELOPMENT_RECOVERY => "development_recovery" | SCOPE_EXTENSION => "scope_extension"
  | NEW_METHOD => "new_method" | INDEPENDENT_CHECKABILITY => "independent_checkability"
  end.

Inductive AdmissionOutcome : Type := OUTCOME_ADMIT | OUTCOME_REJECT | OUTCOME_INCONCLUSIVE.
#[export] Instance AdmissionOutcome_eq_dec : EqDecision AdmissionOutcome.
Proof. solve_decision. Defined.
Definition AdmissionOutcome_value (o : AdmissionOutcome) : string :=
  match o with
  | OUTCOME_ADMIT => "admit" | OUTCOME_REJECT => "reject" | OUTCOME_INCONCLUSIVE => "inconclusive"
  end.

Inductive DevelopmentEvidenceKind : Type :=
| DEV_REPRODUCTION | DEV_TEST | DEV_STATIC_CHECK | DEV_PROPERTY_CHECK | DEV_BENCHMARK | DEV_SOLVER
| DEV_REFERENCE_IMPLEMENTATION | DEV_BUILD | DEV_CI | DEV_RESEARCH.
#[export] Instance DevelopmentEvidenceKind_eq_dec : EqDecision DevelopmentEvidenceKind.
Proof. solve_decision. Defined.

Inductive EvidenceOutcome : Type := EVIDENCE_PASS | EVIDENCE_FAIL | EVIDENCE_INDETERMINATE | EVIDENCE_UNSUPPORTED.
#[export] Instance EvidenceOutcome_eq_dec : EqDecision EvidenceOutcome.
Proof. solve_decision. Defined.

Inductive ReviewOutcome : Type := REVIEW_VALID | REVIEW_INVALID | REVIEW_INDETERMINATE.
#[export] Instance ReviewOutcome_eq_dec : EqDecision ReviewOutcome.
Proof. solve_decision. Defined.

Inductive ProjectDisposition : Type := PROJECT_REPLACE | PROJECT_KEEP | PROJECT_FRONTIER | PROJECT_REJECT.
#[export] Instance ProjectDisposition_eq_dec : EqDecision ProjectDisposition.
Proof. solve_decision. Defined.

Inductive PromotionOutcome : Type :=
| PROMOTION_PROPOSED | PROMOTION_MERGED | PROMOTION_REJECTED | REVERT_REQUIRED.
#[export] Instance PromotionOutcome_eq_dec : EqDecision PromotionOutcome.
Proof. solve_decision. Defined.

Inductive CyclePhase : Type :=
| ANCHORED | LIMITATION_RECORDED | BASIS_TESTED | FRONTIER_CONSTRUCTED | GOAL_SEALED
| CANDIDATE_DEVELOPED | LOCALLY_VERIFIED | INDEPENDENTLY_REVIEWED | PR_VERIFIED | CYCLE_MERGED
| POSTMERGE_VERIFIED | CYCLE_RETAINED.
#[export] Instance CyclePhase_eq_dec : EqDecision CyclePhase.
Proof. solve_decision. Defined.

Inductive StopReason : Type :=
| NO_CONSEQUENTIAL_RESIDUE | NO_DISCRIMINATOR | REPEATED_BLOCKER | AUTHORITY_EXPANSION_REQUIRED
| STOP_EVIDENCE_INVALID | STOP_EVIDENCE_INDETERMINATE | STOP_UNKNOWN.
#[export] Instance StopReason_eq_dec : EqDecision StopReason.
Proof. solve_decision. Defined.

(** ** Anchors, limitations, questions, methods *)

(** [clean] is the constant [True]. *)
Record ProjectAnchor : Type := MkProjectAnchor {
  anc_id : string;
  anc_repository : string;
  anc_protected_branch : string;
  anc_commit_sha : string;
  anc_tree_digest : string;
  anc_authority_digest : string;
  anc_gate_digest : string;
}.
#[export] Instance ProjectAnchor_eq_dec : EqDecision ProjectAnchor.
Proof. solve_decision. Defined.

Record CapabilityLimitation : Type := MkCapabilityLimitation {
  lim_id : string;
  lim_anchor_id : string;
  lim_kind : LimitationKind;
  lim_current_capability : string;
  lim_missing_capability : string;
  lim_consequential_boundary : string;
  lim_protected_consequence_ids : list string;
  lim_observed_evidence : list ArtifactRef;
  lim_existing_question_contract_keys : list string;
  lim_blocked_dependency_ids : list string;
}.
#[export] Instance CapabilityLimitation_eq_dec : EqDecision CapabilityLimitation.
Proof. solve_decision. Defined.

Definition validate_limitation (l : CapabilityLimitation) : result unit :=
  project_canonical_nonempty (lim_protected_consequence_ids l) "protected consequences";;
  project_canonical (lim_existing_question_contract_keys l) "existing question contracts";;
  project_canonical (lim_blocked_dependency_ids l) "blocked dependencies";;
  raise_if (is_nil (lim_observed_evidence l))
    ValidationError "a project limitation requires preserved observation evidence".

Record ConsequentialReturn : Type := MkConsequentialReturn {
  cret_return_class_id : string;
  cret_downstream_state_id : string;
  cret_downstream_obligation_kind : LimitationKind;
}.
#[export] Instance ConsequentialReturn_eq_dec : EqDecision ConsequentialReturn.
Proof. solve_decision. Defined.

Record QuestionContractCandidate : Type := MkQuestionContractCandidate {
  qcc_id : string;
  qcc_limitation_id : string;
  qcc_contract : QuestionContract;
  qcc_typed_referent_ids : list string;
  qcc_precondition_ids : list string;
  qcc_possible_returns : list ConsequentialReturn;
  qcc_comparison_policy_id : string;
  qcc_downstream_consumer_ids : list string;
  qcc_falsifying_attack_ids : list string;
}.
#[export] Instance QuestionContractCandidate_eq_dec : EqDecision QuestionContractCandidate.
Proof. solve_decision. Defined.

Definition validate_question_candidate (c : QuestionContractCandidate) : result unit :=
  project_canonical_nonempty (qcc_typed_referent_ids c) "question referents";;
  project_canonical (qcc_precondition_ids c) "question preconditions";;
  project_canonical_nonempty (qcc_downstream_consumer_ids c) "question consumers";;
  project_canonical_nonempty (qcc_falsifying_attack_ids c) "question attacks";;
  raise_if (length (remove_dups (map cret_downstream_state_id (qcc_possible_returns c))) <? 2)%nat
    ValidationError "a new question must expose two consequentially distinct returns";;
  raise_if (qc_maturity (qcc_contract c) ==? MATURITY_STABLE)
    ValidationError "generated question candidates cannot declare themselves stable".

(** The admitted profile, when there is one, is [recursive-project-v1]. *)
Record QuestionRepertoireDecision : Type := MkQuestionRepertoireDecision {
  qrd_id : string;
  qrd_candidate_id : string;
  qrd_outcome : AdmissionOutcome;
  qrd_controller_policy_version : string;
  qrd_evidence_ids : list string;
  qrd_admitted_profile_id : option string;
}.
#[export] Instance QuestionRepertoireDecision_eq_dec : EqDecision QuestionRepertoireDecision.
Proof. solve_decision. Defined.

Definition validate_question_decision (d : QuestionRepertoireDecision) : result unit :=
  project_canonical_nonempty (qrd_evidence_ids d) "question admission evidence";;
  raise_if (negb (Bool.eqb (qrd_outcome d ==? OUTCOME_ADMIT) (is_some (qrd_admitted_profile_id d))))
    ValidationError "only admission may name the confined recursive project profile".

Record MethodBindingCandidate : Type := MkMethodBindingCandidate {
  mbc_id : string;
  mbc_limitation_id : string;
  mbc_relation_id : string;
  mbc_native_field : string;
  mbc_method_id : string;
  mbc_primary_source_urls : list string;
  mbc_source_artifacts : list ArtifactRef;
  mbc_assumption_ids : list string;
  mbc_applicability_check_ids : list string;
  mbc_license_id : string;
  mbc_adapter_required : bool;
}.
#[export] Instance MethodBindingCandidate_eq_dec : EqDecision MethodBindingCandidate.
Proof. solve_decision. Defined.

Definition validate_method (c : MethodBindingCandidate) : result unit :=
  raise_if (is_nil (mbc_primary_source_urls c) || is_nil (mbc_source_artifacts c))
    ValidationError "method binding requires preserved primary sources";;
  project_canonical_nonempty (mbc_assumption_ids c) "method assumptions";;
  project_canonical_nonempty (mbc_applicability_check_ids c) "method applicability checks".

Record MethodAdmissionDecision : Type := MkMethodAdmissionDecision {
  mad_id : string;
  mad_candidate_id : string;
  mad_outcome : AdmissionOutcome;
  mad_method_policy_version : string;
  mad_evidence_ids : list string;
  mad_implementation_goal_id : option string;
}.
#[export] Instance MethodAdmissionDecision_eq_dec : EqDecision MethodAdmissionDecision.
Proof. solve_decision. Defined.

Definition validate_method_decision (d : MethodAdmissionDecision) : result unit :=
  project_canonical_nonempty (mad_evidence_ids d) "method admission evidence".

(** ** Successors and frontiers *)

Record ProjectCost : Type := MkProjectCost { pcost_axis : string; pcost_value : option Z }.
#[export] Instance ProjectCost_eq_dec : EqDecision ProjectCost.
Proof. solve_decision. Defined.

Definition validate_cost (c : ProjectCost) : result unit :=
  raise_if (match pcost_value c with Some v => (v <? 0)%Z | None => false end)
    ValidationError "project costs are nonnegative".

Record CapabilitySuccessorCandidate : Type := MkCapabilitySuccessorCandidate {
  succ_id : string;
  succ_anchor_id : string;
  succ_limitation_id : string;
  succ_kind : SuccessorKind;
  succ_current_state : string;
  succ_desired_state : string;
  succ_preserved_capability_ids : list string;
  succ_explicitly_disposed_capability_ids : list string;
  succ_gain_kinds : list ProjectGainKind;
  succ_discriminator_id : option string;
  succ_evidence_mechanism_ids : list string;
  succ_estimated_costs : list ProjectCost;
  succ_reversible : bool;
}.
#[export] Instance CapabilitySuccessorCandidate_eq_dec : EqDecision CapabilitySuccessorCandidate.
Proof. solve_decision. Defined.

Definition validate_successor (c : CapabilitySuccessorCandidate) : result unit :=
  project_canonical_nonempty (succ_preserved_capability_ids c) "preserved capabilities";;
  project_canonical (succ_explicitly_disposed_capability_ids c) "disposed capabilities";;
  project_canonical_nonempty (map ProjectGainKind_value (succ_gain_kinds c)) "project gains";;
  project_canonical_nonempty (succ_evidence_mechanism_ids c) "evidence mechanisms";;
  project_canonical_nonempty (map pcost_axis (succ_estimated_costs c)) "cost axes";;
  raise_if (existsb (λ x, mem x (succ_explicitly_disposed_capability_ids c)) (succ_preserved_capability_ids c))
    ValidationError "a predecessor capability cannot be preserved and disposed".

Inductive FrontierStatus : Type := FRONTIER_READY | FRONTIER_UNKNOWN.
#[export] Instance FrontierStatus_eq_dec : EqDecision FrontierStatus.
Proof. solve_decision. Defined.
Definition FrontierStatus_value (s : FrontierStatus) : string :=
  match s with FRONTIER_READY => "ready" | FRONTIER_UNKNOWN => "unknown" end.

Record CapabilityFrontier : Type := MkCapabilityFrontier {
  frt_id : string;
  frt_anchor_id : string;
  frt_limitation_id : string;
  frt_candidate_ids : list string;
  frt_nondominated_candidate_ids : list string;
  frt_incomparable_pairs : list (string * string);
  frt_selected_discriminator_candidate_id : option string;
  frt_status : FrontierStatus;
}.
#[export] Instance CapabilityFrontier_eq_dec : EqDecision CapabilityFrontier.
Proof. solve_decision. Defined.

Definition validate_capability_frontier (f : CapabilityFrontier) : result unit :=
  project_canonical_nonempty (frt_candidate_ids f) "frontier candidates";;
  project_canonical_nonempty (frt_nondominated_candidate_ids f) "nondominated candidates";;
  raise_if (negb (subset (frt_nondominated_candidate_ids f) (frt_candidate_ids f)))
    ValidationError "nondominated candidates must belong to the frontier";;
  raise_if ((frt_status f ==? FRONTIER_READY) && is_none (frt_selected_discriminator_candidate_id f))
    ValidationError "a ready frontier must select the smallest discriminator";;
  raise_if ((frt_status f ==? FRONTIER_UNKNOWN) && is_some (frt_selected_discriminator_candidate_id f))
    ValidationError "an unknown frontier cannot fabricate a discriminator".

(** ** Goals *)

Record ImplementationGoalContract : Type := MkImplementationGoalContract {
  goal_id : string;
  goal_cycle_id : string;
  goal_anchor_id : string;
  goal_frontier_id : string;
  goal_candidate_id : string;
  goal_current : string;
  goal_desired : string;
  goal_separator : string;
  goal_expected_incumbent_return : string;
  goal_expected_candidate_return : string;
  goal_preserve_capability_ids : list string;
  goal_acceptance_commands : list string;
  goal_allowed_mutation_roots : list string;
  goal_forbidden_authority_roots : list string;
  goal_assumption_ids : list string;
  goal_incumbent_gate_digest : string;
  goal_proposed_gate_digest : string;
  goal_rollback_condition : string;
  goal_reopening_condition : string;
}.
#[export] Instance ImplementationGoalContract_eq_dec : EqDecision ImplementationGoalContract.
Proof. solve_decision. Defined.

(** [allowed == forbidden or allowed.startswith(f"{forbidden}/")] *)
Definition enters_root (allowed forbidden : string) : bool :=
  (allowed ==? forbidden) || String.prefix (forbidden +:+ "/") allowed.

Definition validate_goal (g : ImplementationGoalContract) : result unit :=
  project_canonical_nonempty (goal_preserve_capability_ids g) "goal preserved capabilities";;
  project_canonical_nonempty (goal_acceptance_commands g) "goal acceptance commands";;
  project_canonical_nonempty (goal_allowed_mutation_roots g) "allowed mutation roots";;
  project_canonical_nonempty (goal_forbidden_authority_roots g) "forbidden authority roots";;
  project_canonical_nonempty (goal_assumption_ids g) "goal assumptions";;
  for_each (λ v, repository_relative_path v "goal mutation root")
    (goal_allowed_mutation_roots g ++ goal_forbidden_authority_roots g);;
  for_each (λ a,
    raise_if (existsb (enters_root a) (goal_forbidden_authority_roots g))
      ValidationError "allowed mutation roots cannot enter forbidden authority roots")
    (goal_allowed_mutation_roots g).

Record ImplementationGoalCandidate : Type := MkImplementationGoalCandidate {
  gcd_id : string;
  gcd_question_candidate_id : string;
  gcd_question_candidate_fingerprint : string;
  gcd_question_decision_id : string;
  gcd_question_decision_fingerprint : string;
  gcd_compiled_question_id : string;
  gcd_compiled_question_fingerprint : string;
  gcd_source_obligation_id : string;
  gcd_source_obligation_fingerprint : string;
  gcd_effect_request_id : string;
  gcd_accepted_decode_id : string;
  gcd_accepted_decode_fingerprint : string;
  gcd_source_claim_id : string;
  gcd_source_claim_fingerprint : string;
  gcd_downstream_obligation_id : string;
  gcd_downstream_obligation_fingerprint : string;
  gcd_anchor_id : string;
  gcd_anchor_fingerprint : string;
  gcd_limitation_id : string;
  gcd_limitation_fingerprint : string;
  gcd_frontier_id : string;
  gcd_frontier_fingerprint : string;
  gcd_selected_candidate_id : string;
  gcd_selected_candidate_fingerprint : string;
  gcd_binding_revision : string;
  gcd_scope_fingerprint : string;
  gcd_protected_horizon_id : string;
  gcd_goal : ImplementationGoalContract;
  gcd_goal_fingerprint : string;
}.
#[export] Instance ImplementationGoalCandidate_eq_dec : EqDecision ImplementationGoalCandidate.
Proof. solve_decision. Defined.

Definition validate_goal_candidate (c : ImplementationGoalCandidate) : result unit :=
  raise_if ((goal_anchor_id (gcd_goal c) !=? gcd_anchor_id c)
            || (goal_frontier_id (gcd_goal c) !=? gcd_frontier_id c)
            || (goal_candidate_id (gcd_goal c) !=? gcd_selected_candidate_id c))
    ValidationError "derived Goal must preserve its exact project inputs".

Record GoalAdmissionDecision : Type := MkGoalAdmissionDecision {
  gad_id : string;
  gad_candidate_id : string;
  gad_candidate_fingerprint : string;
  gad_outcome : AdmissionOutcome;
  gad_evidence_record_ids : list string;
  gad_admitted_goal_id : option string;
}.
#[export] Instance GoalAdmissionDecision_eq_dec : EqDecision GoalAdmissionDecision.
Proof. solve_decision. Defined.

Definition validate_goal_decision (d : GoalAdmissionDecision) : result unit :=
  project_canonical_nonempty (gad_evidence_record_ids d) "Goal admission evidence";;
  raise_if (negb (Bool.eqb (gad_outcome d ==? OUTCOME_ADMIT) (is_some (gad_admitted_goal_id d))))
    ValidationError "only Goal admission may name the derived Goal".

(** ** Development, review, promotion *)

Record CandidateEnvironmentManifest : Type := MkCandidateEnvironmentManifest {
  cem_id : string;
  cem_goal_id : string;
  cem_developer_id : string;
  cem_base_commit_sha : string;
  cem_candidate_branch : string;
  cem_worktree_path : string;
  cem_initial_tree_digest : string;
  cem_toolchain_artifact : ArtifactRef;
  cem_toolchain_digest : string;
}.
#[export] Instance CandidateEnvironmentManifest_eq_dec : EqDecision CandidateEnvironmentManifest.
Proof. solve_decision. Defined.

Record DevelopmentEvidence : Type := MkDevelopmentEvidence {
  dev_id : string;
  dev_goal_id : string;
  dev_candidate_environment_id : string;
  dev_kind : DevelopmentEvidenceKind;
  dev_command_or_method : string;
  dev_outcome : EvidenceOutcome;
  dev_observed_return : ArtifactRef;
  dev_base_commit_sha : string;
  dev_candidate_commit_sha : string;
  dev_gate_digest : string;
}.
#[export] Instance DevelopmentEvidence_eq_dec : EqDecision DevelopmentEvidence.
Proof. solve_decision. Defined.

Record IndependentReview : Type := MkIndependentReview {
  rev_id : string;
  rev_goal_id : string;
  rev_candidate_environment_id : string;
  rev_reviewer_id : string;
  rev_reviewer_context_digest : string;
  rev_reviewed_commit_sha : string;
  rev_evidence_ids : list string;
  rev_outcome : ReviewOutcome;
  rev_findings_artifact : ArtifactRef;
}.
#[export] Instance IndependentReview_eq_dec : EqDecision IndependentReview.
Proof. solve_decision. Defined.

Definition validate_review (r : IndependentReview) : result unit :=
  project_canonical_nonempty (rev_evidence_ids r) "review evidence".

Record ProjectSuccessorDecision : Type := MkProjectSuccessorDecision {
  psd_id : string;
  psd_goal_id : string;
  psd_candidate_id : string;
  psd_candidate_environment_id : string;
  psd_review_id : string;
  psd_evidence_ids : list string;
  psd_disposition : ProjectDisposition;
  psd_preserved_capability_ids : list string;
  psd_explicitly_disposed_capability_ids : list string;
  psd_gain_kinds : list ProjectGainKind;
  psd_reason : string;
}.
#[export] Instance ProjectSuccessorDecision_eq_dec : EqDecision ProjectSuccessorDecision.
Proof. solve_decision. Defined.

Definition validate_successor_decision (d : ProjectSuccessorDecision) : result unit :=
  project_canonical_nonempty (psd_evidence_ids d) "successor evidence";;
  project_canonical_nonempty (psd_preserved_capability_ids d) "successor preserved capabilities";;
  project_canonical (psd_explicitly_disposed_capability_ids d) "successor disposed capabilities";;
  project_canonical (map ProjectGainKind_value (psd_gain_kinds d)) "successor gains";;
  raise_if ((psd_disposition d ==? PROJECT_REPLACE) && is_nil (psd_gain_kinds d))
    ValidationError "implementation replacement requires a typed strict gain".

Inductive CheckResult : Type := CHECK_SUCCESS | CHECK_FAILURE | CHECK_CANCELLED | CHECK_SKIPPED.
#[export] Instance CheckResult_eq_dec : EqDecision CheckResult.
Proof. solve_decision. Defined.

Record CheckConclusion : Type := MkCheckConclusion {
  chk_context : string;
  chk_conclusion : CheckResult;
}.
#[export] Instance CheckConclusion_eq_dec : EqDecision CheckConclusion.
Proof. solve_decision. Defined.

Record PromotionDecision : Type := MkPromotionDecision {
  prd_id : string;
  prd_successor_decision_id : string;
  prd_candidate_commit_sha : string;
  prd_pull_request_url : string;
  prd_required_checks : list CheckConclusion;
  prd_outcome : PromotionOutcome;
  prd_merged_commit_sha : option string;
}.
#[export] Instance PromotionDecision_eq_dec : EqDecision PromotionDecision.
Proof. solve_decision. Defined.

Definition validate_promotion (d : PromotionDecision) : result unit :=
  project_canonical_nonempty (map chk_context (prd_required_checks d)) "promotion checks";;
  if prd_outcome d ==? PROMOTION_MERGED then
    raise_if (is_none (prd_merged_commit_sha d)
              || existsb (λ c, chk_conclusion c !=? CHECK_SUCCESS) (prd_required_checks d))
      ValidationError "merged promotion requires an exact merge SHA and all checks passing"
  else raise_if (is_some (prd_merged_commit_sha d))
    ValidationError "only a merged promotion may name a merge SHA".

Record RecursiveCycleCheckpoint : Type := MkRecursiveCycleCheckpoint {
  rcc_id : string;
  rcc_cycle_id : string;
  rcc_phase : CyclePhase;
  rcc_predecessor_id : option string;
  rcc_record_ids : list string;
  rcc_report_artifact : ArtifactRef;
}.
#[export] Instance RecursiveCycleCheckpoint_eq_dec : EqDecision RecursiveCycleCheckpoint.
Proof. solve_decision. Defined.

Definition validate_cycle_checkpoint (c : RecursiveCycleCheckpoint) : result unit :=
  project_canonical_nonempty (rcc_record_ids c) "cycle checkpoint records";;
  raise_if (rcc_predecessor_id c ==? Some (rcc_id c))
    ValidationError "cycle checkpoint cannot succeed itself".

Record RecursiveStopDisposition : Type := MkRecursiveStopDisposition {
  stop_id : string;
  stop_cycle_id : string;
  stop_reason : StopReason;
  stop_consequential_residual_ids : list string;
  stop_blocked_dependency_ids : list string;
  stop_evidence_artifact : ArtifactRef;
}.
#[export] Instance RecursiveStopDisposition_eq_dec : EqDecision RecursiveStopDisposition.
Proof. solve_decision. Defined.

Definition validate_stop (d : RecursiveStopDisposition) : result unit :=
  project_canonical (stop_consequential_residual_ids d) "stop residuals";;
  project_canonical (stop_blocked_dependency_ids d) "stop dependencies";;
  raise_if ((stop_reason d ==? NO_CONSEQUENTIAL_RESIDUE) && negb (is_nil (stop_consequential_residual_ids d)))
    ValidationError "no-residue stop cannot retain consequential residue".

(** ** [selection.py] *)

(** [{item.axis: item.value for item in costs}] *)
Definition cost_map (c : CapabilitySuccessorCandidate) : gmap string (option Z) :=
  pcost_value <$> dict_by pcost_axis (succ_estimated_costs c).

Definition all_known (m : gmap string (option Z)) : bool :=
  forallb (λ kv, is_some kv.2) (map_to_list m).

Definition cost_at (m : gmap string (option Z)) (axis : string) : Z := default 0%Z (m !!! axis).

Definition comparable_costs (l r : gmap string (option Z)) : bool :=
  bool_decide (dom l = dom r) && all_known l && all_known r.

(** [set(l) > set(r)] *)
Definition proper_superset `{EqDecision A} (l r : list A) : bool := subset r l && negb (subset l r).

Definition axes (m : gmap string (option Z)) : list string := (map_to_list m).*1.

Definition cost_no_worse (l r : gmap string (option Z)) : bool :=
  forallb (λ a, cost_at l a <=? cost_at r a)%Z (axes l).
Definition cost_strict (l r : gmap string (option Z)) : bool :=
  existsb (λ a, cost_at l a <? cost_at r a)%Z (axes l).

Definition candidate_dominates (l r : CapabilitySuccessorCandidate) : bool :=
  if negb ((succ_anchor_id l ==? succ_anchor_id r) && (succ_limitation_id l ==? succ_limitation_id r)) then false
  else if negb (comparable_costs (cost_map l) (cost_map r)) then false
  else
    subset (succ_preserved_capability_ids r) (succ_preserved_capability_ids l)
    && subset (succ_gain_kinds r) (succ_gain_kinds l)
    && cost_no_worse (cost_map l) (cost_map r)
    && (proper_superset (succ_preserved_capability_ids l) (succ_preserved_capability_ids r)
        || proper_superset (succ_gain_kinds l) (succ_gain_kinds r)
        || cost_strict (cost_map l) (cost_map r)).

Definition undominated_candidates (l : list CapabilitySuccessorCandidate) : list CapabilitySuccessorCandidate :=
  List.filter (λ c, negb (existsb (λ o, (succ_id o !=? succ_id c) && candidate_dominates o c) l)) l.

Fixpoint incomparable_pairs (l : list CapabilitySuccessorCandidate) : list (string * string) :=
  match l with
  | [] => []
  | x :: l =>
    map (λ y, (succ_id x, succ_id y))
      (List.filter (λ y, negb (candidate_dominates x y) && negb (candidate_dominates y x)) l)
    ++ incomparable_pairs l
  end.

Definition selectable (c : CapabilitySuccessorCandidate) : bool :=
  succ_reversible c && is_some (succ_discriminator_id c).

(** All costs known and one set of axes throughout. *)
Definition jointly_comparable (l : list CapabilitySuccessorCandidate) : bool :=
  match l with
  | [] => false
  | c :: _ => forallb (λ x, all_known (cost_map x)) l
              && forallb (λ x, bool_decide (dom (cost_map x) = dom (cost_map c))) l
  end.

Definition cost_minima (l : list CapabilitySuccessorCandidate) : list CapabilitySuccessorCandidate :=
  if jointly_comparable l
  then List.filter (λ c, forallb (λ o, cost_no_worse (cost_map c) (cost_map o)) l) l
  else [].

Definition select_discriminator (nondominated : list CapabilitySuccessorCandidate) :
    option CapabilitySuccessorCandidate :=
  match cost_minima (List.filter selectable nondominated) with
  | [] => None
  | c :: l => Some (min_by succ_id c l)
  end.

Definition derive_capability_frontier (frontier_id : string) (candidates : list CapabilitySuccessorCandidate) :
    result CapabilityFrontier :=
  let ordered := sort_by succ_id candidates in
  match ordered with
  | [] => raise ValueError "a capability frontier requires candidates"
  | c :: _ =>
    raise_if (existsb (λ x, negb ((succ_anchor_id x ==? succ_anchor_id c)
                                  && (succ_limitation_id x ==? succ_limitation_id c))) ordered)
      ValueError "frontier candidates must share an exact anchor and limitation";;
    raise_if (negb (uniq (map succ_id ordered))) ValueError "frontier candidate identities must be unique";;
    let nondominated := undominated_candidates ordered in
    let selected := select_discriminator nondominated in
    let f := MkCapabilityFrontier frontier_id (succ_anchor_id c) (succ_limitation_id c)
      (map succ_id ordered) (map succ_id nondominated) (incomparable_pairs nondominated)
      (succ_id <$> selected) (if selected then FRONTIER_READY else FRONTIER_UNKNOWN) in
    validate_capability_frontier f;; Ok f
  end.

(** ** Domination is a strict order *)

Lemma cost_no_worse_spec (l r : gmap string (option Z)) :
  cost_no_worse l r = true ↔ ∀ a, a ∈ dom l → (cost_at l a <= cost_at r a)%Z.
Proof.
  unfold cost_no_worse. rewrite all_true. split; intros H a Ha.
  - apply Z.leb_le, H. apply elem_of_dom in Ha as [v Hv]. apply list_elem_of_fmap.
    exists (a, v). split; [done|]. by apply elem_of_map_to_list.
  - apply Z.leb_le, H. apply list_elem_of_fmap in Ha as ([k v] & -> & Hv%elem_of_map_to_list).
    apply elem_of_dom. eauto.
Qed.

Lemma cost_strict_spec (l r : gmap string (option Z)) :
  cost_strict l r = true ↔ ∃ a, a ∈ dom l ∧ (cost_at l a < cost_at r a)%Z.
Proof.
  unfold cost_strict. rewrite any_true. split.
  - intros (a & Ha & H%Z.ltb_lt). exists a. split; [|done].
    apply list_elem_of_fmap in Ha as ([k v] & -> & Hv%elem_of_map_to_list). apply elem_of_dom. eauto.
  - intros (a & Ha & H%Z.ltb_lt). exists a. split; [|done]. apply elem_of_dom in Ha as [v Hv].
    apply list_elem_of_fmap. exists (a, v). split; [done|]. by apply elem_of_map_to_list.
Qed.

Lemma proper_superset_spec `{EqDecision A} (l r : list A) : proper_superset l r = true ↔ r ⊆ l ∧ ¬ l ⊆ r.
Proof. unfold proper_superset. by rewrite andb_true_iff, negb_true_iff, <-not_true_iff_false, !subset_true. Qed.

(** What domination says of two candidates. *)
Lemma candidate_dominates_spec l r :
  candidate_dominates l r = true ↔
  succ_anchor_id l = succ_anchor_id r ∧ succ_limitation_id l = succ_limitation_id r ∧
  comparable_costs (cost_map l) (cost_map r) = true ∧
  succ_preserved_capability_ids r ⊆ succ_preserved_capability_ids l ∧
  succ_gain_kinds r ⊆ succ_gain_kinds l ∧
  cost_no_worse (cost_map l) (cost_map r) = true ∧
  (¬ succ_preserved_capability_ids l ⊆ succ_preserved_capability_ids r ∨
   ¬ succ_gain_kinds l ⊆ succ_gain_kinds r ∨
   cost_strict (cost_map l) (cost_map r) = true).
Proof.
  unfold candidate_dominates.
  destruct ((succ_anchor_id l ==? succ_anchor_id r) && (succ_limitation_id l ==? succ_limitation_id r)) eqn:E1; cbn [negb].
  - apply andb_true_iff in E1 as [H1%bool_decide_eq_true H2%bool_decide_eq_true].
    destruct (comparable_costs _ _); cbn [negb]; [|naive_solver].
    rewrite !andb_true_iff, !orb_true_iff, !subset_true, !proper_superset_spec. tauto.
  - split; [done|]. intros (H1 & H2 & _). by rewrite H1, H2, !bool_decide_eq_true_2 in E1.
Qed.

Lemma dominates_irrefl c : candidate_dominates c c = false.
Proof.
  apply not_true_is_false. rewrite candidate_dominates_spec, cost_strict_spec.
  intros (_ & _ & _ & _ & _ & _ & [H|[H|(a & _ & H)]]); [by destruct H|by destruct H|lia].
Qed.

Lemma comparable_costs_spec (l r : gmap string (option Z)) :
  comparable_costs l r = true ↔ dom l = dom r ∧ all_known l = true ∧ all_known r = true.
Proof. unfold comparable_costs. rewrite !andb_true_iff, bool_decide_eq_true. tauto. Qed.

Lemma dominates_trans a b c :
  candidate_dominates a b = true → candidate_dominates b c = true → candidate_dominates a c = true.
Proof.
  rewrite !candidate_dominates_spec, !comparable_costs_spec, !cost_no_worse_spec, !cost_strict_spec.
  intros (A1 & A2 & (A3 & A4 & A5) & A6 & A7 & A8 & A9) (B1 & B2 & (B3 & B4 & B5) & B6 & B7 & B8 & B9).
  assert (∀ x, x ∈ dom (cost_map a) → (cost_at (cost_map b) x <= cost_at (cost_map c) x)%Z) as B8'.
  { intros x. rewrite A3. apply B8. }
  split_and!; [congruence|congruence|congruence|done|done|by etransitivity|by etransitivity| |].
  - intros x Hx. specialize (A8 x Hx). specialize (B8' x Hx). lia.
  - destruct A9 as [A9|[A9|(x & Hx & A9)]].
    + left. intros H. apply A9. by etransitivity.
    + right; left. intros H. apply A9. by etransitivity.
    + right; right. exists x. split; [done|]. specialize (B8' x Hx). lia.
Qed.

(** ** The derived frontier *)

Lemma elem_of_undominated l c :
  NoDup (map succ_id l) →
  c ∈ undominated_candidates l ↔ c ∈ l ∧ ∀ o, o ∈ l → candidate_dominates o c = false.
Proof.
  intros Hnd. unfold undominated_candidates. rewrite elem_of_lfilter, negb_true_iff, any_false. split.
  - intros [Hc H]. split; [done|]. intros o Ho. specialize (H o Ho).
    apply andb_false_iff in H as [H|H]; [|done]. rewrite neqb_false in H.
    rewrite (key_inj_of_NoDup succ_id l o c Hnd Ho Hc H). apply dominates_irrefl.
  - intros [Hc H]. split; [done|]. intros o Ho. by rewrite (H o Ho), andb_false_r.
Qed.

Lemma undominated_cover l c :
  NoDup (map succ_id l) → c ∈ l →
  ∃ m, m ∈ undominated_candidates l ∧ (m = c ∨ candidate_dominates m c = true).
Proof.
  intros Hnd Hc.
  destruct (minimal_below candidate_dominates (λ _, True) l c) as (m & Hm & Hmc & Hmin);
    [apply dominates_irrefl|intros a b d _ _ _; apply dominates_trans|done|done|].
  exists m. split; [|done]. by apply elem_of_undominated.
Qed.

Lemma select_discriminator_spec l c :
  select_discriminator l = Some c →
  c ∈ l ∧ selectable c = true ∧
  ∀ o, o ∈ l → selectable o = true →
    cost_no_worse (cost_map c) (cost_map o) = true ∧ comparable_costs (cost_map c) (cost_map o) = true.
Proof.
  unfold select_discriminator. set (k := List.filter selectable l). unfold cost_minima.
  destruct (jointly_comparable k) eqn:Ej; [|done].
  destruct (List.filter _ k) as [|m ms] eqn:Em; [done|]. intros [= <-].
  assert (min_by succ_id m ms ∈ List.filter (λ c, forallb (λ o, cost_no_worse (cost_map c) (cost_map o)) k) k) as Hin.
  { rewrite Em. apply min_by_elem. }
  apply elem_of_lfilter in Hin as [Hin Hmin]. rewrite all_true in Hmin.
  pose proof (proj1 (elem_of_lfilter _ _ _) Hin) as [Hl Hs]. split_and!; [done|done|].
  intros o Ho Hos. assert (o ∈ k) as Hok by (by apply elem_of_lfilter). split; [by apply Hmin|].
  apply comparable_costs_spec. destruct k as [|x k']; [by apply not_elem_of_nil in Hok|].
  unfold jointly_comparable in Ej. rewrite andb_true_iff, !all_true in Ej. destruct Ej as [Hknown Hdom].
  assert (∀ y, y ∈ x :: k' → dom (cost_map y) = dom (cost_map x)) as Hd.
  { intros y Hy. exact (bool_decide_eq_true_1 _ (Hdom y Hy)). }
  split_and!; [by rewrite (Hd o Hok), (Hd _ Hin)|by apply Hknown|by apply Hknown].
Qed.

Lemma project_canonical_ok values label : values ≠ [] → NoDup values → canonical values = true →
  project_canonical_nonempty values label = Ok tt.
Proof.
  intros Hne Hnd Hc. unfold project_canonical_nonempty, project_canonical.
  rewrite (proj2 (nuniq_false _) Hnd), Hc. by destruct values.
Qed.

(** A subsequence of a sequence in the order of its keys is in that order. *)
Lemma canonical_sublist (l k : list string) : l `sublist_of` k → canonical k = true → canonical l = true.
Proof.
  rewrite !canonical_true. intros Hsub Hk. apply sort_by_id.
  assert (StronglySorted (key_le (λ x : string, x)) k) as Hs by (rewrite <-Hk; apply sort_by_sorted).
  clear Hk. revert Hs. induction Hsub as [|x l k Hsub IH|x l k Hsub IH]; intros Hs; [constructor|..];
    apply StronglySorted_inv in Hs as [Hs Hx]; [|by apply IH].
  constructor; [by apply IH|]. rewrite Forall_forall in Hx |- *. intros y Hy. apply Hx.
  by eapply elem_of_sublist.
Qed.

Lemma derive_ok frontier_id anchor limitation candidates l :
  candidates ≠ [] →
  (∀ c, c ∈ candidates → succ_anchor_id c = anchor ∧ succ_limitation_id c = limitation) →
  NoDup (map succ_id candidates) → l ≡ₚ candidates →
  let ordered := sort_by succ_id candidates in
  let kept := undominated_candidates ordered in
  derive_capability_frontier frontier_id l =
    Ok (MkCapabilityFrontier frontier_id anchor limitation (map succ_id ordered) (map succ_id kept)
          (incomparable_pairs kept) (succ_id <$> select_discriminator kept)
          (if select_discriminator kept then FRONTIER_READY else FRONTIER_UNKNOWN)).
Proof.
  intros Hne Hshare Hnd Hl ordered kept. unfold derive_capability_frontier.
  assert (sort_by succ_id l = ordered) as -> by (symmetry; by apply sort_by_unique). fold kept.
  assert (∀ c, c ∈ ordered ↔ c ∈ candidates) as Hmem by (intros c; apply elem_of_sort_by).
  assert (NoDup (map succ_id ordered)) as Hndo.
  { change (NoDup (succ_id <$> ordered)). unfold ordered. by rewrite sort_by_perm. }
  assert (canonical (map succ_id ordered) = true) as Hcan by apply canonical_map_sort_by.
  assert (map succ_id kept `sublist_of` map succ_id ordered) as Hsub
    by apply (fmap_sublist succ_id), lfilter_sublist.
  assert (kept ≠ []) as Hk.
  { destruct candidates as [|x k]; [done|].
    destruct (undominated_cover ordered x Hndo) as (m & Hm & _); [apply Hmem; left|].
    fold kept in Hm. intros Hn. rewrite Hn in Hm. by apply not_elem_of_nil in Hm. }
  clearbody kept. assert (ordered ≠ []) as Ho by (intros Hn; rewrite Hn in Hsub; by destruct kept; inversion Hsub).
  clearbody ordered. destruct ordered as [|c rest]; [done|].
  destruct (Hshare c) as [Ha Hlim]; [apply Hmem; by left|]. rewrite Ha, Hlim.
  rewrite (proj2 (any_false _ _)).
  2:{ intros x Hx. apply Hmem, Hshare in Hx as [-> ->]. by rewrite !bool_decide_eq_true_2. }
  rewrite (proj2 (nuniq_false _) Hndo). cbn [raise_if mbind result_bind].
  unfold validate_capability_frontier. cbn [frt_candidate_ids frt_nondominated_candidate_ids
    frt_selected_discriminator_candidate_id frt_status].
  rewrite (project_canonical_ok (map succ_id (c :: rest))); [|discriminate|exact Hndo|exact Hcan].
  rewrite (project_canonical_ok (map succ_id kept)); [|destruct kept; [by destruct Hk|done]|by eapply sublist_NoDup|by eapply canonical_sublist].
  rewrite (proj2 (nsubset_false _ _)) by (intros x Hx; by eapply elem_of_sublist).
  by destruct (select_discriminator kept).
Qed.

(** From candidates of distinct identity that share an anchor and a limitation the
    frontier is always derived, and alike for every order of the candidates: it keeps
    exactly the candidates that no candidate dominates, every candidate is kept or
    dominated by one that is, and it is ready exactly when it selects a candidate,
    which is then reversible, has a discriminator, and costs no more on any axis than
    any other such candidate of the frontier. *)
Theorem derive_capability_frontier_exact frontier_id anchor limitation (candidates : list CapabilitySuccessorCandidate)
  (Hne : candidates ≠ [])
  (Hshare : ∀ c, c ∈ candidates → succ_anchor_id c = anchor ∧ succ_limitation_id c = limitation)
  (Hnd : NoDup (map succ_id candidates)) :
  ∃ f, (∀ l, l ≡ₚ candidates → derive_capability_frontier frontier_id l = Ok f) ∧
    (∀ id, id ∈ frt_candidate_ids f ↔ id ∈ map succ_id candidates) ∧
    (∀ c, c ∈ candidates → (succ_id c ∈ frt_nondominated_candidate_ids f ↔
       ∀ o, o ∈ candidates → candidate_dominates o c = false)) ∧
    (∀ c, c ∈ candidates → ∃ m, m ∈ candidates ∧ succ_id m ∈ frt_nondominated_candidate_ids f ∧
       (m = c ∨ candidate_dominates m c = true)) ∧
    (frt_status f = FRONTIER_READY ↔ frt_selected_discriminator_candidate_id f ≠ None) ∧
    (∀ id, frt_selected_discriminator_candidate_id f = Some id →
       ∃ c, c ∈ candidates ∧ succ_id c = id ∧ id ∈ frt_nondominated_candidate_ids f ∧ selectable c = true ∧
         ∀ o, o ∈ candidates → succ_id o ∈ frt_nondominated_candidate_ids f → selectable o = true →
           cost_no_worse (cost_map c) (cost_map o) = true).
Proof.
  set (ordered := sort_by succ_id candidates). set (kept := undominated_candidates ordered).
  assert (∀ c, c ∈ ordered ↔ c ∈ candidates) as Hmem by (intros c; apply elem_of_sort_by).
  assert (NoDup (succ_id <$> ordered)) as Hndo by (unfold ordered; by rewrite sort_by_perm).
  assert (∀ c, c ∈ kept ↔ c ∈ candidates ∧ ∀ o, o ∈ candidates → candidate_dominates o c = false) as Hkept.
  { intros c. unfold kept. rewrite elem_of_undominated by done. rewrite Hmem. by setoid_rewrite Hmem. }
  assert (∀ c, c ∈ candidates → (succ_id c ∈ map succ_id kept ↔ c ∈ kept)) as Hidk.
  { intros c Hc. split; [|apply elem_of_map_1]. intros (k & Hk & Hid)%elem_of_map.
    rewrite (key_inj_of_NoDup succ_id candidates c k Hnd Hc (proj1 (proj1 (Hkept k) Hk)) Hid). done. }
  exists (MkCapabilityFrontier frontier_id anchor limitation (map succ_id ordered) (map succ_id kept)
            (incomparable_pairs kept) (succ_id <$> select_discriminator kept)
            (if select_discriminator kept then FRONTIER_READY else FRONTIER_UNKNOWN)).
  cbn [frt_candidate_ids frt_nondominated_candidate_ids frt_selected_discriminator_candidate_id frt_status].
  split_and!.
  - intros l Hl. by apply (derive_ok frontier_id anchor limitation candidates).
  - intros id. rewrite !elem_of_map. by setoid_rewrite Hmem.
  - intros c Hc. rewrite (Hidk c Hc), Hkept. naive_solver.
  - intros c Hc. destruct (undominated_cover ordered c Hndo) as (m & Hm & Hmc); [by apply Hmem|].
    exists m. split_and!; [by apply Hkept|by apply elem_of_map_1|done].
  - destruct (select_discriminator kept); cbn; [done|]. by split.
  - intros id Hsel. destruct (select_discriminator kept) as [c|] eqn:E; [|done]. injection Hsel as <-.
    apply select_discriminator_spec in E as (Hc & Hs & Hmin). exists c.
    split_and!; [by apply Hkept|done|by apply elem_of_map_1|done|].
    intros o Ho Hok Hos. apply Hmin; [by apply Hidk|done].
Qed.

Definition example_successor (id : string) (effort : Z) (gains : list ProjectGainKind) : CapabilitySuccessorCandidate :=
  MkCapabilitySuccessorCandidate id "anchor" "limitation" SUCC_IMPLEMENTATION "current" "desired"
    ["capability"] [] gains (Some "discriminator") ["mechanism"] [MkProjectCost "effort" (Some effort)] true.
Definition example_successors : list CapabilitySuccessorCandidate :=
  [example_successor "s3" 2 [NEW_METHOD]; example_successor "s1" 1 [NEW_METHOD];
   example_successor "s2" 3 [NEW_SEPARATOR]].

Lemma derive_capability_frontier_exact_witness :
  ∃ f, derive_capability_frontier "frontier" example_successors = Ok f ∧
    ("s3" ∈ frt_nondominated_candidate_ids f ↔
       ∀ o, o ∈ example_successors → candidate_dominates o (example_successor "s3" 2 [NEW_METHOD]) = false).
Proof.
  destruct (derive_capability_frontier_exact "frontier" "anchor" "limitation" example_successors)
    as (f & Hf & _ & Hnd & _).
  - done.
  - intros c. unfold example_successors. rewrite !elem_of_cons.
    intros [->|[->|[->|Hc]]]; [done..|by apply not_elem_of_nil in Hc].
  - apply (bool_decide_eq_true_1 _). vm_compute. reflexivity.
  - exists f. split; [by apply Hf|]. apply (Hnd (example_successor "s3" 2 [NEW_METHOD])). by left.
Defined.

Example example_successors_frontier :
  (frt_nondominated_candidate_ids <$> derive_capability_frontier "frontier" example_successors) = Ok ["s1"; "s2"] ∧
  (frt_selected_discriminator_candidate_id <$> derive_capability_frontier "frontier" example_successors) = Ok (Some "s1").
Proof. vm_compute. done. Qed.
