(* ===== verification/State.v ===== *)
(** * The aggregate state: [src/rci/core/state.py]

    [InquiryState]: its collections, grouped in ledgers by the component that
    owns them, and its derived views: lookups, the warranted lemmas and active
    theory, the index of the records memory may reference, and the retained
    states.  Its validator is in [Lifecycle]. *)

From S2P Require Import Prelude Digest Dumps Memory Retrieval Learning Compression Questions Project Model Claims Warrant Support Policy Planning Backlog Effects Probes.

Inductive InquiryStatus : Type := NOT_STARTED | STATUS_ACTIVE.
#[export] Instance InquiryStatus_eq_dec : EqDecision InquiryStatus.
Proof. solve_decision. Defined.

Record EffectLedger : Type := MkEffectLedger {
  l_backlog_effects : list BacklogEffect;
  l_step_plans : list StepPlan;
  l_effect_requests : list EffectRequestState;
}.

Record ClaimLedger : Type := MkClaimLedger {
  l_claims : list Claim;
  l_conflicts : list Conflict;
  l_obligations : list Obligation;
  l_obligation_dispositions : list ObligationDisposition;
  l_candidates : list Candidate;
  l_residuals : list Residual;
  l_corrections : list Correction;
  l_guard_changes : list GuardChange;
}.

Record WarrantLedger : Type := MkWarrantLedger {
  l_nogoods : list Nogood;
  l_route_changes : list SupportRouteStandingChange;
  l_nogood_changes : list NogoodStandingChange;
  l_evidence_records : list Evidence;
  l_checker_verdicts : list CheckerVerdictRecord;
  l_warrant_decisions : list WarrantDecisionRecord;
  l_lemma_versions : list LemmaVersion;
  l_lemma_supports : list LemmaSupport;
  l_promotion_links : list PromotionLink;
}.

Record CognitionLedger : Type := MkCognitionLedger {
  l_admitted_probes : list ProbeIdentity;
  l_cognitive_plans : list CognitiveAttemptPlan;
  l_predictions : list PredictionSeal;
  l_probe_observations : list ProbeEvent;
  l_reconstructions : list Reconstruction;
  l_mismatches : list Mismatch;
  l_semantic_deltas : list SemanticDelta;
}.

Record RetentionLedger : Type := MkRetentionLedger {
  l_direct_use_routes : list DirectUseRoute;
  l_reconstruction_routes : list ReconstructionRoute;
  l_consequence_evaluation_routes : list ConsequenceEvaluationRoute;
  l_reacquisition_routes : list ReacquisitionRoute;
  l_reacquisition_scaffolds : list ReacquisitionScaffold;
  l_recovery_protocols : list RecoveryProtocol;
  l_retention_packages : list RetentionPackage;
  l_retrieval_policies : list StructuralRetrievalPolicy;
  l_retrieval_queries : list RetrievalQuery;
  l_retrieval_results : list RetrievalResult;
  l_reacquisition_requests : list ReacquisitionRequest;
  l_reacquisition_inquiry_links : list ReacquisitionInquiryLink;
  l_recovery_observations : list RecoveryObservation;
  l_recovery_comparisons : list RecoveryComparison;
}.

Record LearningLedger : Type := MkLearningLedger {
  l_consolidation_checkpoints : list ConsolidationCheckpoint;
  l_consolidation_candidates : list ConsolidationCandidate;
  l_memory_patch_candidates : list MemoryPatchCandidate;
  l_reconsolidation_links : list ReconsolidationLink;
  l_semantic_field_evaluations : list SemanticFieldEvaluation;
  l_representation_gaps : list RepresentationGap;
  l_learned_probe_candidates : list LearnedProbeCandidate;
  l_probe_evaluations : list ProbeEvaluation;
  l_probe_admission_decisions : list ProbeAdmissionDecision;
}.

Record CompressionLedger : Type := MkCompressionLedger {
  l_binding_carrier_manifests : list BindingCarrierManifest;
  l_realized_history_derivations : list RealizedHistoryDerivation;
  l_compression_contracts : list CompressionContract;
  l_compression_validations : list CompressionValidation;
  l_exact_compression_licenses : list ExactCompressionLicense;
  l_path_residues : list PathResidue;
  l_compression_applications : list CompressionApplication;
  l_recovery_licenses : list RecoveryLicense;
  l_retention_capability_links : list RetentionCapabilityLink;
  l_representation_successor_decisions : list RepresentationSuccessorDecision;
  l_representation_reopenings : list RepresentationReopening;
}.

Record ProjectLedger : Type := MkProjectLedger {
  l_project_anchors : list ProjectAnchor;
  l_capability_limitations : list CapabilityLimitation;
  l_question_contract_candidates : list QuestionContractCandidate;
  l_question_repertoire_decisions : list QuestionRepertoireDecision;
  l_method_binding_candidates : list MethodBindingCandidate;
  l_method_admission_decisions : list MethodAdmissionDecision;
  l_capability_successor_candidates : list CapabilitySuccessorCandidate;
  l_capability_frontiers : list CapabilityFrontier;
  l_implementation_goal_candidates : list ImplementationGoalCandidate;
  l_goal_admission_decisions : list GoalAdmissionDecision;
  l_implementation_goals : list ImplementationGoalContract;
  l_candidate_environments : list CandidateEnvironmentManifest;
  l_development_evidence : list DevelopmentEvidence;
  l_independent_reviews : list IndependentReview;
  l_project_successor_decisions : list ProjectSuccessorDecision;
  l_promotion_decisions : list Project.PromotionDecision;
  l_recursive_cycle_checkpoints : list RecursiveCycleCheckpoint;
  l_recursive_stop_dispositions : list RecursiveStopDisposition;
}.

(** The ledgers of the extensions: memory, learning, compression, project. *)
Record ExtensionLedger : Type := MkExtensionLedger {
  x_retention : RetentionLedger;
  x_learning : LearningLedger;
  x_compression : CompressionLedger;
  x_project : ProjectLedger;
}.

Record InquiryState : Type := MkInquiryState {
  st_status : InquiryStatus;
  st_inquiry_id : option string;
  st_sequence : Z;
  st_manifest_artifact : option ArtifactRef;
  st_policy_version : option string;
  st_context : option InquiryContext;
  st_effects : EffectLedger;
  st_claims : ClaimLedger;
  st_warrant : WarrantLedger;
  st_cognition : CognitionLedger;
  st_extensions : ExtensionLedger;
}.

(** ** The collections by their names in the code *)

Definition backlog_effects s := l_backlog_effects (st_effects s).
Definition step_plans s := l_step_plans (st_effects s).
Definition effect_requests s := l_effect_requests (st_effects s).
Definition claims s := l_claims (st_claims s).
Definition conflicts s := l_conflicts (st_claims s).
Definition obligations s := l_obligations (st_claims s).
Definition obligation_dispositions s := l_obligation_dispositions (st_claims s).
Definition candidates s := l_candidates (st_claims s).
Definition residuals s := l_residuals (st_claims s).
Definition corrections s := l_corrections (st_claims s).
Definition guard_changes s := l_guard_changes (st_claims s).
Definition nogoods s := l_nogoods (st_warrant s).
Definition support_route_standing_changes s := l_route_changes (st_warrant s).
Definition nogood_standing_changes s := l_nogood_changes (st_warrant s).
Definition evidence_records s := l_evidence_records (st_warrant s).
Definition checker_verdicts s := l_checker_verdicts (st_warrant s).
Definition warrant_decisions s := l_warrant_decisions (st_warrant s).
Definition lemma_versions s := l_lemma_versions (st_warrant s).
Definition lemma_supports s := l_lemma_supports (st_warrant s).
Definition promotion_links s := l_promotion_links (st_warrant s).
Definition admitted_probes s := l_admitted_probes (st_cognition s).
Definition cognitive_plans s := l_cognitive_plans (st_cognition s).
Definition predictions s := l_predictions (st_cognition s).
Definition probe_observations s := l_probe_observations (st_cognition s).
Definition reconstructions s := l_reconstructions (st_cognition s).
Definition mismatches s := l_mismatches (st_cognition s).
Definition semantic_deltas s := l_semantic_deltas (st_cognition s).

Definition direct_use_routes s := l_direct_use_routes (x_retention (st_extensions s)).
Definition reconstruction_routes s := l_reconstruction_routes (x_retention (st_extensions s)).
Definition consequence_evaluation_routes s := l_consequence_evaluation_routes (x_retention (st_extensions s)).
Definition reacquisition_routes s := l_reacquisition_routes (x_retention (st_extensions s)).
Definition reacquisition_scaffolds s := l_reacquisition_scaffolds (x_retention (st_extensions s)).
Definition recovery_protocols s := l_recovery_protocols (x_retention (st_extensions s)).
Definition retention_packages s := l_retention_packages (x_retention (st_extensions s)).
Definition retrieval_policies s := l_retrieval_policies (x_retention (st_extensions s)).
Definition retrieval_queries s := l_retrieval_queries (x_retention (st_extensions s)).
Definition retrieval_results s := l_retrieval_results (x_retention (st_extensions s)).
Definition reacquisition_requests s := l_reacquisition_requests (x_retention (st_extensions s)).
Definition reacquisition_inquiry_links s := l_reacquisition_inquiry_links (x_retention (st_extensions s)).
Definition recovery_observations s := l_recovery_observations (x_retention (st_extensions s)).
Definition recovery_comparisons s := l_recovery_comparisons (x_retention (st_extensions s)).
Definition consolidation_checkpoints s := l_consolidation_checkpoints (x_learning (st_extensions s)).
Definition consolidation_candidates s := l_consolidation_candidates (x_learning (st_extensions s)).
Definition memory_patch_candidates s := l_memory_patch_candidates (x_learning (st_extensions s)).
Definition reconsolidation_links s := l_reconsolidation_links (x_learning (st_extensions s)).
Definition semantic_field_evaluations s := l_semantic_field_evaluations (x_learning (st_extensions s)).
Definition representation_gaps s := l_representation_gaps (x_learning (st_extensions s)).
Definition learned_probe_candidates s := l_learned_probe_candidates (x_learning (st_extensions s)).
Definition probe_evaluations s := l_probe_evaluations (x_learning (st_extensions s)).
Definition probe_admission_decisions s := l_probe_admission_decisions (x_learning (st_extensions s)).
Definition binding_carrier_manifests s := l_binding_carrier_manifests (x_compression (st_extensions s)).
Definition realized_history_derivations s := l_realized_history_derivations (x_compression (st_extensions s)).
Definition compression_contracts s := l_compression_contracts (x_compression (st_extensions s)).
Definition compression_validations s := l_compression_validations (x_compression (st_extensions s)).
Definition exact_compression_licenses s := l_exact_compression_licenses (x_compression (st_extensions s)).
Definition path_residues s := l_path_residues (x_compression (st_extensions s)).
Definition compression_applications s := l_compression_applications (x_compression (st_extensions s)).
Definition recovery_licenses s := l_recovery_licenses (x_compression (st_extensions s)).
Definition retention_capability_links s := l_retention_capability_links (x_compression (st_extensions s)).
Definition representation_successor_decisions s := l_representation_successor_decisions (x_compression (st_extensions s)).
Definition representation_reopenings s := l_representation_reopenings (x_compression (st_extensions s)).
Definition project_anchors s := l_project_anchors (x_project (st_extensions s)).
Definition capability_limitations s := l_capability_limitations (x_project (st_extensions s)).
Definition question_contract_candidates s := l_question_contract_candidates (x_project (st_extensions s)).
Definition question_repertoire_decisions s := l_question_repertoire_decisions (x_project (st_extensions s)).
Definition method_binding_candidates s := l_method_binding_candidates (x_project (st_extensions s)).
Definition method_admission_decisions s := l_method_admission_decisions (x_project (st_extensions s)).
Definition capability_successor_candidates s := l_capability_successor_candidates (x_project (st_extensions s)).
Definition capability_frontiers s := l_capability_frontiers (x_project (st_extensions s)).
Definition implementation_goal_candidates s := l_implementation_goal_candidates (x_project (st_extensions s)).
Definition goal_admission_decisions s := l_goal_admission_decisions (x_project (st_extensions s)).
Definition implementation_goals s := l_implementation_goals (x_project (st_extensions s)).
Definition candidate_environments s := l_candidate_environments (x_project (st_extensions s)).
Definition development_evidence s := l_development_evidence (x_project (st_extensions s)).
Definition independent_reviews s := l_independent_reviews (x_project (st_extensions s)).
Definition project_successor_decisions s := l_project_successor_decisions (x_project (st_extensions s)).
Definition promotion_decisions s := l_promotion_decisions (x_project (st_extensions s)).
Definition recursive_cycle_checkpoints s := l_recursive_cycle_checkpoints (x_project (st_extensions s)).
Definition recursive_stop_dispositions s := l_recursive_stop_dispositions (x_project (st_extensions s)).

Definition empty_effects : EffectLedger := MkEffectLedger [] [] [].
Definition empty_claims : ClaimLedger := MkClaimLedger [] [] [] [] [] [] [] [].
Definition empty_warrant : WarrantLedger := MkWarrantLedger [] [] [] [] [] [] [] [] [].
Definition empty_cognition : CognitionLedger := MkCognitionLedger [] [] [] [] [] [] [].
Definition empty_retention : RetentionLedger := MkRetentionLedger [] [] [] [] [] [] [] [] [] [] [] [] [] [].
Definition empty_learning : LearningLedger := MkLearningLedger [] [] [] [] [] [] [] [] [].
Definition empty_compression : CompressionLedger := MkCompressionLedger [] [] [] [] [] [] [] [] [] [] [].
Definition empty_project : ProjectLedger := MkProjectLedger [] [] [] [] [] [] [] [] [] [] [] [] [] [] [] [] [] [].
Definition empty_extensions : ExtensionLedger :=
  MkExtensionLedger empty_retention empty_learning empty_compression empty_project.

(** Appending to the extension ledgers: an event's records follow
    the recorded ones, collection by collection. *)
Definition retention_plus (l d : RetentionLedger) : RetentionLedger :=
  MkRetentionLedger (l_direct_use_routes l ++ l_direct_use_routes d)
    (l_reconstruction_routes l ++ l_reconstruction_routes d)
    (l_consequence_evaluation_routes l ++ l_consequence_evaluation_routes d)
    (l_reacquisition_routes l ++ l_reacquisition_routes d)
    (l_reacquisition_scaffolds l ++ l_reacquisition_scaffolds d)
    (l_recovery_protocols l ++ l_recovery_protocols d)
    (l_retention_packages l ++ l_retention_packages d)
    (l_retrieval_policies l ++ l_retrieval_policies d) (l_retrieval_queries l ++ l_retrieval_queries d)
    (l_retrieval_results l ++ l_retrieval_results d)
    (l_reacquisition_requests l ++ l_reacquisition_requests d)
    (l_reacquisition_inquiry_links l ++ l_reacquisition_inquiry_links d)
    (l_recovery_observations l ++ l_recovery_observations d)
    (l_recovery_comparisons l ++ l_recovery_comparisons d).
Definition learning_plus (l d : LearningLedger) : LearningLedger :=
  MkLearningLedger (l_consolidation_checkpoints l ++ l_consolidation_checkpoints d)
    (l_consolidation_candidates l ++ l_consolidation_candidates d)
    (l_memory_patch_candidates l ++ l_memory_patch_candidates d)
    (l_reconsolidation_links l ++ l_reconsolidation_links d)
    (l_semantic_field_evaluations l ++ l_semantic_field_evaluations d)
    (l_representation_gaps l ++ l_representation_gaps d)
    (l_learned_probe_candidates l ++ l_learned_probe_candidates d)
    (l_probe_evaluations l ++ l_probe_evaluations d)
    (l_probe_admission_decisions l ++ l_probe_admission_decisions d).
Definition compression_plus (l d : CompressionLedger) : CompressionLedger :=
  MkCompressionLedger (l_binding_carrier_manifests l ++ l_binding_carrier_manifests d)
    (l_realized_history_derivations l ++ l_realized_history_derivations d)
    (l_compression_contracts l ++ l_compression_contracts d)
    (l_compression_validations l ++ l_compression_validations d)
    (l_exact_compression_licenses l ++ l_exact_compression_licenses d)
    (l_path_residues l ++ l_path_residues d)
    (l_compression_applications l ++ l_compression_applications d)
    (l_recovery_licenses l ++ l_recovery_licenses d)
    (l_retention_capability_links l ++ l_retention_capability_links d)
    (l_representation_successor_decisions l ++ l_representation_successor_decisions d)
    (l_representation_reopenings l ++ l_representation_reopenings d).
Definition project_plus (l d : ProjectLedger) : ProjectLedger :=
  MkProjectLedger (l_project_anchors l ++ l_project_anchors d)
    (l_capability_limitations l ++ l_capability_limitations d)
    (l_question_contract_candidates l ++ l_question_contract_candidates d)
    (l_question_repertoire_decisions l ++ l_question_repertoire_decisions d)
    (l_method_binding_candidates l ++ l_method_binding_candidates d)
    (l_method_admission_decisions l ++ l_method_admission_decisions d)
    (l_capability_successor_candidates l ++ l_capability_successor_candidates d)
    (l_capability_frontiers l ++ l_capability_frontiers d)
    (l_implementation_goal_candidates l ++ l_implementation_goal_candidates d)
    (l_goal_admission_decisions l ++ l_goal_admission_decisions d)
    (l_implementation_goals l ++ l_implementation_goals d)
    (l_candidate_environments l ++ l_candidate_environments d)
    (l_development_evidence l ++ l_development_evidence d)
    (l_independent_reviews l ++ l_independent_reviews d)
    (l_project_successor_decisions l ++ l_project_successor_decisions d)
    (l_promotion_decisions l ++ l_promotion_decisions d)
    (l_recursive_cycle_checkpoints l ++ l_recursive_cycle_checkpoints d)
    (l_recursive_stop_dispositions l ++ l_recursive_stop_dispositions d).
Definition extension_plus (l d : ExtensionLedger) : ExtensionLedger :=
  MkExtensionLedger (retention_plus (x_retention l) (x_retention d)) (learning_plus (x_learning l) (x_learning d))
    (compression_plus (x_compression l) (x_compression d)) (project_plus (x_project l) (x_project d)).

(** [initial_state()] *)
Definition initial_state : InquiryState :=
  MkInquiryState NOT_STARTED None 0 None None None
    empty_effects empty_claims empty_warrant empty_cognition empty_extensions.

(** ** Lookups *)

(** [changes[-1] if changes else None] over the matching records *)
Definition latest {A} (p : A → bool) (l : list A) : option A := last (List.filter p l).

Definition request_by_id (s : InquiryState) (id : string) : option EffectRequestState :=
  first (λ r, ers_id r ==? id) (effect_requests s).
Definition backlog_effect_by_id (s : InquiryState) (id : string) : option BacklogEffect :=
  first (λ e, be_id e ==? id) (backlog_effects s).
Definition step_plan_by_id (s : InquiryState) (id : string) : option StepPlan :=
  first (λ p, plan_id p ==? id) (step_plans s).
Definition claim_by_id (s : InquiryState) (id : string) : option Claim :=
  first (λ c, claim_id c ==? id) (claims s).
Definition obligation_by_id (s : InquiryState) (id : string) : option Obligation :=
  first (λ o, obl_id o ==? id) (obligations s).
Definition disposition_by_id (s : InquiryState) (id : string) : option ObligationDisposition :=
  first (λ d, disp_id d ==? id) (obligation_dispositions s).

Definition disposition_history (s : InquiryState) (obligation : string) : list ObligationDisposition :=
  List.filter (λ d, disp_obligation_id d ==? obligation) (obligation_dispositions s).

Definition current_obligation_status (s : InquiryState) (id : string) : option ObligationStatus :=
  o ← obligation_by_id s id;
  Some match last (disposition_history s id) with
       | Some d => disp_status d
       | None => obl_status o
       end.

Definition latest_guard_change (s : InquiryState) (condition : string) : option GuardChange :=
  latest (λ g, guard_condition_id g ==? condition) (guard_changes s).
Definition nogood_by_id (s : InquiryState) (id : string) : option Nogood :=
  first (λ n, ng_id n ==? id) (nogoods s).
Definition all_routes (supports : list LemmaSupport) : list SupportRoute :=
  flat_map all_support_routes supports.
Definition support_route_by_id (s : InquiryState) (id : string) : option SupportRoute :=
  first (λ r, route_id r ==? id) (all_routes (lemma_supports s)).
Definition latest_support_route_standing_change (s : InquiryState) (route : string) :
    option SupportRouteStandingChange :=
  latest (λ c, rsc_support_route_id c ==? route) (support_route_standing_changes s).
Definition latest_nogood_standing_change (s : InquiryState) (nogood : string) :
    option NogoodStandingChange :=
  latest (λ c, nsc_nogood_id c ==? nogood) (nogood_standing_changes s).

Definition standing_context_ids (s : InquiryState) : list string :=
  map fst (List.filter (λ kc, guard_standing kc.2 ==? GUARD_STANDING)
             (map_to_list (dict_by guard_condition_id (guard_changes s)))).

Definition evidence_by_id (s : InquiryState) (id : string) : option Evidence :=
  first (λ e, ev_id e ==? id) (evidence_records s).
Definition warrant_decision_by_id (s : InquiryState) (id : string) : option WarrantDecisionRecord :=
  first (λ d, wd_id d ==? id) (warrant_decisions s).
Definition checker_verdict_by_id (s : InquiryState) (id : string) : option CheckerVerdictRecord :=
  first (λ v, cv_id v ==? id) (checker_verdicts s).
Definition cognitive_plan_by_id (s : InquiryState) (id : string) : option CognitiveAttemptPlan :=
  first (λ p, cp_id p ==? id) (cognitive_plans s).

(** [supports[version.id]] raises [KeyError]; the join runs its validator. *)
Fixpoint join_lemmas (supports : gmap string LemmaSupport) (versions : list LemmaVersion) :
    result (list WarrantedLemma) :=
  match versions with
  | [] => Ok []
  | v :: versions =>
    match supports !! lv_id v with
    | None => raise KeyError (lv_id v)
    | Some sup =>
      let l := MkWarrantedLemma v sup in
      validate_join l;; ls ← join_lemmas supports versions; Ok (l :: ls)
    end
  end.

Definition warranted_lemmas (s : InquiryState) : result (list WarrantedLemma) :=
  join_lemmas (dict_by ls_lemma_version_id (lemma_supports s)) (lemma_versions s).

Definition current_theory_selector (s : InquiryState) : result (option TheorySelector) :=
  match st_context s with
  | None => Ok None
  | Some c =>
    let sel := MkTheorySelector (ctx_scope_fingerprint c) (ctx_binding_revision c)
                 (ctx_finite_universe_hash c) (ctx_warrant_policy_version c)
                 (sorted (ctx_assumption_ids c)) (sorted (standing_context_ids s)) in
    validate_selector sel;; Ok (Some sel)
  end.

Definition active_theory (s : InquiryState) : result (list ActiveLemmaView) :=
  sel ← current_theory_selector s;
  match sel, st_context s with
  | Some sel, Some c =>
    lemmas ← warranted_lemmas s;
    select_active_theory (evidence_records s) (checker_verdicts s) (ctx_discharge_mechanism_ids c)
      lemmas sel (nogoods s) (support_route_standing_changes s) (nogood_standing_changes s)
  | _, _ => Ok []
  end.

Definition all_attempts (requests : list EffectRequestState) : list AttemptState :=
  flat_map ers_attempts requests.
Definition all_decodes (requests : list EffectRequestState) : list DecodeOutcome :=
  flat_map ers_decode_outcomes requests.

Definition captured_external_return_ids (s : InquiryState) : list string :=
  return_ids (all_attempts (effect_requests s)).
Definition recorded_decode_outcome_ids (s : InquiryState) : list string :=
  map dec_id (all_decodes (effect_requests s)).

(** ** Derived views of the extensions *)

(** The view of one application; the ones without an owned license and contract
    are left out. *)
Definition retained_state_view (s : InquiryState) (a : CompressionApplication) :
    option RetainedStateView :=
  l ← dict_by ecl_id (exact_compression_licenses s) !! cap_license_id a;
  c ← dict_by cct_id (compression_contracts s) !! ecl_contract_id l;
  let links := List.filter (λ k, rcap_compression_application_id k ==? cap_id a)
                 (retention_capability_links s) in
  Some (MkRetainedStateView (cap_id a) (cct_id c) (ecl_id l) (cct_source_carrier_id c)
          (carrier_id (cct_target_carrier c)) (cap_retained_state_artifact a)
          (sorted_set (flat_map (λ _, ecl_granted_capability_ids l) links))).

Definition retained_state_views (s : InquiryState) : list RetainedStateView :=
  sort_by rsv_compression_application_id (omap (retained_state_view s) (compression_applications s)).

(** The records memory may reference, in the order they are added. *)
Definition addressable_records (s : InquiryState) : list OwnedRecord :=
  map OwnedProbeEvent (probe_observations s)
  ++ map OwnedLemmaVersion (lemma_versions s)
  ++ map OwnedSemanticDelta (semantic_deltas s)
  ++ map OwnedProbeIdentity (admitted_probes s)
  ++ map OwnedRetentionPackage (retention_packages s)
  ++ map OwnedScaffold (reacquisition_scaffolds s)
  ++ map OwnedProtocol (recovery_protocols s)
  ++ map OwnedEvidence (evidence_records s)
  ++ map OwnedCheckerVerdict (checker_verdicts s)
  ++ map OwnedWarrantDecision (warrant_decisions s)
  ++ flat_map (λ r, OwnedEffectRequest (ers_request r)
                    :: map OwnedExternalReturn (omap attempt_return (ers_attempts r)))
       (effect_requests s)
  ++ map OwnedReconstruction (reconstructions s)
  ++ map OwnedPredictionSeal (predictions s).

(** The typed key of a record; every record has schema version 1. *)
Definition owned_record_key (r : OwnedRecord) : string :=
  memory_key (record_owner (record_type r)) (record_type r) (exposed_identity r) 1.

Definition owned_memory_records (s : InquiryState) : result (gmap string OwnedRecord) :=
  collect_by owned_record_key owned_record_eqb
    (Exn ValueError "owned memory record key has conflicting immutable contents")
    ∅ (addressable_records s).

(** The owner, type and version in a key are the ones it was built from. *)
Definition owned_memory_fingerprints (s : InquiryState) : result (gmap string string) :=
  records ← owned_memory_records s;
  entries ← traverse (λ kr,
      fp ← owned_record_content_fingerprint (record_owner (record_type kr.2)) (record_type kr.2) 1 kr.2;
      Ok (kr.1, fp)) (map_to_list records);
  Ok (list_to_map entries).

(** ** Construction of successor states *)

Definition with_effects (s : InquiryState) (l : EffectLedger) : InquiryState :=
  MkInquiryState (st_status s) (st_inquiry_id s) (st_sequence s) (st_manifest_artifact s)
    (st_policy_version s) (st_context s) l (st_claims s) (st_warrant s) (st_cognition s) (st_extensions s).
Definition with_claims (s : InquiryState) (l : ClaimLedger) : InquiryState :=
  MkInquiryState (st_status s) (st_inquiry_id s) (st_sequence s) (st_manifest_artifact s)
    (st_policy_version s) (st_context s) (st_effects s) l (st_warrant s) (st_cognition s) (st_extensions s).
Definition with_warrant (s : InquiryState) (l : WarrantLedger) : InquiryState :=
  MkInquiryState (st_status s) (st_inquiry_id s) (st_sequence s) (st_manifest_artifact s)
    (st_policy_version s) (st_context s) (st_effects s) (st_claims s) l (st_cognition s) (st_extensions s).
Definition with_cognition (s : InquiryState) (l : CognitionLedger) : InquiryState :=
  MkInquiryState (st_status s) (st_inquiry_id s) (st_sequence s) (st_manifest_artifact s)
    (st_policy_version s) (st_context s) (st_effects s) (st_claims s) (st_warrant s) l (st_extensions s).
Definition with_extensions (s : InquiryState) (l : ExtensionLedger) : InquiryState :=
  MkInquiryState (st_status s) (st_inquiry_id s) (st_sequence s) (st_manifest_artifact s)
    (st_policy_version s) (st_context s) (st_effects s) (st_claims s) (st_warrant s) (st_cognition s) l.
Definition next_sequence (s : InquiryState) : InquiryState :=
  MkInquiryState (st_status s) (st_inquiry_id s) (st_sequence s + 1) (st_manifest_artifact s)
    (st_policy_version s) (st_context s) (st_effects s) (st_claims s) (st_warrant s) (st_cognition s) (st_extensions s).

