(* ===== verification/Goals.v ===== *)
(** * Generated questions and Goal synthesis: [src/rci/questions/generated.py], [project/goal_synthesis.py]

    The pure compilers over the aggregate: an admitted question candidate becomes
    an executable contract, and an admitted return becomes an inert Goal
    candidate.  Both answer only when the exact owned chain of records is
    present.  [GeneratedQuestionCompilationError] is a [ValueError]. *)

From Stdlib Require Import Ascii.
From S2P Require Import Prelude Digest Dumps Memory Learning Questions Project Model Claims Warrant Effects Planning State.

(** ** JSON images of the project records *)

#[export] Instance QuestionContract_to_json : ToJson QuestionContract := λ c,
  JObject [("id", to_json (qc_id c)); ("version", to_json (qc_version c)); ("family", to_json (qc_family c));
           ("input_roles", to_json (qc_input_roles c));
           ("output_claim_role", JString (ClaimRole_value (qc_output_claim_role c)));
           ("precondition_policy_id", to_json (qc_precondition_policy_id c));
           ("render_template", to_json (qc_render_template c));
           ("answer_shape", JString "opaque_l0_inert");
           ("answer_schema_id", to_json (qc_answer_schema_id c));
           ("bind_policy_id", to_json (qc_bind_policy_id c)); ("reifier_id", to_json (qc_reifier_id c));
           ("verifier_id", to_json (qc_verifier_id c)); ("update_rule_id", to_json (qc_update_rule_id c));
           ("next_obligation_rule_ids", to_json (qc_next_obligation_rule_ids c));
           ("maturity", JString (ContractMaturity_value (qc_maturity c)));
           ("recurrent_probe", to_json (qc_recurrent_probe c));
           ("comparison_semantics_id", to_json (qc_comparison_semantics_id c));
           ("canonical_probe_rendering", to_json (qc_canonical_probe_rendering c));
           ("applicability_guard_id", to_json (qc_applicability_guard_id c));
           ("history_policy_id", to_json (qc_history_policy_id c))].

#[export] Instance ConsequentialReturn_to_json : ToJson ConsequentialReturn := λ r,
  JObject [("return_class_id", to_json (cret_return_class_id r));
           ("downstream_state_id", to_json (cret_downstream_state_id r));
           ("downstream_obligation_kind", JString (LimitationKind_value (cret_downstream_obligation_kind r)))].

#[export] Instance QuestionContractCandidate_to_json : ToJson QuestionContractCandidate := λ c,
  JObject [("schema_version", JInt 1); ("id", to_json (qcc_id c));
           ("limitation_id", to_json (qcc_limitation_id c)); ("contract", to_json (qcc_contract c));
           ("typed_referent_ids", to_json (qcc_typed_referent_ids c));
           ("precondition_ids", to_json (qcc_precondition_ids c));
           ("possible_returns", to_json (qcc_possible_returns c));
           ("comparison_policy_id", to_json (qcc_comparison_policy_id c));
           ("downstream_consumer_ids", to_json (qcc_downstream_consumer_ids c));
           ("falsifying_attack_ids", to_json (qcc_falsifying_attack_ids c));
           ("status", JString "inert_candidate")].

#[export] Instance QuestionRepertoireDecision_to_json : ToJson QuestionRepertoireDecision := λ d,
  JObject [("schema_version", JInt 1); ("id", to_json (qrd_id d));
           ("candidate_id", to_json (qrd_candidate_id d));
           ("outcome", JString (AdmissionOutcome_value (qrd_outcome d)));
           ("controller_policy_version", to_json (qrd_controller_policy_version d));
           ("evidence_ids", to_json (qrd_evidence_ids d));
           ("admitted_profile_id", to_json (qrd_admitted_profile_id d))].

#[export] Instance ProjectAnchor_to_json : ToJson ProjectAnchor := λ a,
  JObject [("schema_version", JInt 1); ("id", to_json (anc_id a)); ("repository", to_json (anc_repository a));
           ("protected_branch", to_json (anc_protected_branch a)); ("commit_sha", to_json (anc_commit_sha a));
           ("tree_digest", to_json (anc_tree_digest a)); ("authority_digest", to_json (anc_authority_digest a));
           ("gate_digest", to_json (anc_gate_digest a)); ("clean", JBool true)].

#[export] Instance CapabilityLimitation_to_json : ToJson CapabilityLimitation := λ l,
  JObject [("schema_version", JInt 1); ("id", to_json (lim_id l)); ("anchor_id", to_json (lim_anchor_id l));
           ("kind", JString (LimitationKind_value (lim_kind l)));
           ("current_capability", to_json (lim_current_capability l));
           ("missing_capability", to_json (lim_missing_capability l));
           ("consequential_boundary", to_json (lim_consequential_boundary l));
           ("protected_consequence_ids", to_json (lim_protected_consequence_ids l));
           ("observed_evidence", to_json (lim_observed_evidence l));
           ("existing_question_contract_keys", to_json (lim_existing_question_contract_keys l));
           ("blocked_dependency_ids", to_json (lim_blocked_dependency_ids l))].

#[export] Instance ProjectCost_to_json : ToJson ProjectCost := λ c,
  JObject [("axis", to_json (pcost_axis c)); ("value", to_json (pcost_value c))].

#[export] Instance CapabilitySuccessorCandidate_to_json : ToJson CapabilitySuccessorCandidate := λ c,
  JObject [("schema_version", JInt 1); ("id", to_json (succ_id c)); ("anchor_id", to_json (succ_anchor_id c));
           ("limitation_id", to_json (succ_limitation_id c));
           ("kind", JString (SuccessorKind_value (succ_kind c)));
           ("current_state", to_json (succ_current_state c)); ("desired_state", to_json (succ_desired_state c));
           ("preserved_capability_ids", to_json (succ_preserved_capability_ids c));
           ("explicitly_disposed_capability_ids", to_json (succ_explicitly_disposed_capability_ids c));
           ("gain_kinds", to_json (map ProjectGainKind_value (succ_gain_kinds c)));
           ("discriminator_id", to_json (succ_discriminator_id c));
           ("evidence_mechanism_ids", to_json (succ_evidence_mechanism_ids c));
           ("estimated_costs", to_json (succ_estimated_costs c)); ("reversible", to_json (succ_reversible c))].

#[export] Instance CapabilityFrontier_to_json : ToJson CapabilityFrontier := λ f,
  JObject [("schema_version", JInt 1); ("id", to_json (frt_id f)); ("anchor_id", to_json (frt_anchor_id f));
           ("limitation_id", to_json (frt_limitation_id f)); ("candidate_ids", to_json (frt_candidate_ids f));
           ("nondominated_candidate_ids", to_json (frt_nondominated_candidate_ids f));
           ("incomparable_pairs", JList (map (λ p, JList [JString p.1; JString p.2]) (frt_incomparable_pairs f)));
           ("selected_discriminator_candidate_id", to_json (frt_selected_discriminator_candidate_id f));
           ("selection_policy_version", JString "project-frontier-v1");
           ("status", JString (FrontierStatus_value (frt_status f)))].

#[export] Instance ImplementationGoalContract_to_json : ToJson ImplementationGoalContract := λ g,
  JObject [("schema_version", JInt 1); ("id", to_json (goal_id g)); ("cycle_id", to_json (goal_cycle_id g));
           ("anchor_id", to_json (goal_anchor_id g)); ("frontier_id", to_json (goal_frontier_id g));
           ("candidate_id", to_json (goal_candidate_id g)); ("current", to_json (goal_current g));
           ("desired", to_json (goal_desired g)); ("separator", to_json (goal_separator g));
           ("expected_incumbent_return", to_json (goal_expected_incumbent_return g));
           ("expected_candidate_return", to_json (goal_expected_candidate_return g));
           ("preserve_capability_ids", to_json (goal_preserve_capability_ids g));
           ("acceptance_commands", to_json (goal_acceptance_commands g));
           ("allowed_mutation_roots", to_json (goal_allowed_mutation_roots g));
           ("forbidden_authority_roots", to_json (goal_forbidden_authority_roots g));
           ("assumption_ids", to_json (goal_assumption_ids g));
           ("incumbent_gate_digest", to_json (goal_incumbent_gate_digest g));
           ("proposed_gate_digest", to_json (goal_proposed_gate_digest g));
           ("rollback_condition", to_json (goal_rollback_condition g));
           ("reopening_condition", to_json (goal_reopening_condition g))].

#[export] Instance ImplementationGoalCandidate_to_json : ToJson ImplementationGoalCandidate := λ c,
  JObject [("schema_version", JInt 1); ("id", to_json (gcd_id c));
           ("compiler_version", JString "implementation-goal-compiler-v1"); ("status", JString "inert_candidate");
           ("question_candidate_id", to_json (gcd_question_candidate_id c));
           ("question_candidate_fingerprint", to_json (gcd_question_candidate_fingerprint c));
           ("question_decision_id", to_json (gcd_question_decision_id c));
           ("question_decision_fingerprint", to_json (gcd_question_decision_fingerprint c));
           ("compiled_question_id", to_json (gcd_compiled_question_id c));
           ("compiled_question_fingerprint", to_json (gcd_compiled_question_fingerprint c));
           ("source_obligation_id", to_json (gcd_source_obligation_id c));
           ("source_obligation_fingerprint", to_json (gcd_source_obligation_fingerprint c));
           ("effect_request_id", to_json (gcd_effect_request_id c));
           ("accepted_decode_id", to_json (gcd_accepted_decode_id c));
           ("accepted_decode_fingerprint", to_json (gcd_accepted_decode_fingerprint c));
           ("source_claim_id", to_json (gcd_source_claim_id c));
           ("source_claim_fingerprint", to_json (gcd_source_claim_fingerprint c));
           ("downstream_obligation_id", to_json (gcd_downstream_obligation_id c));
           ("downstream_obligation_fingerprint", to_json (gcd_downstream_obligation_fingerprint c));
           ("matched_return_class_id", JString "goal-derivation-required");
           ("anchor_id", to_json (gcd_anchor_id c)); ("anchor_fingerprint", to_json (gcd_anchor_fingerprint c));
           ("limitation_id", to_json (gcd_limitation_id c));
           ("limitation_fingerprint", to_json (gcd_limitation_fingerprint c));
           ("frontier_id", to_json (gcd_frontier_id c));
           ("frontier_fingerprint", to_json (gcd_frontier_fingerprint c));
           ("selected_candidate_id", to_json (gcd_selected_candidate_id c));
           ("selected_candidate_fingerprint", to_json (gcd_selected_candidate_fingerprint c));
           ("binding_revision", to_json (gcd_binding_revision c));
           ("scope_fingerprint", to_json (gcd_scope_fingerprint c));
           ("protected_horizon_id", to_json (gcd_protected_horizon_id c));
           ("acceptance_registry_version", JString "project-gate-registry-v1");
           ("mutation_registry_version", JString "project-mutation-registry-v1");
           ("goal", to_json (gcd_goal c)); ("goal_fingerprint", to_json (gcd_goal_fingerprint c))].

Definition ClaimStatus_value (x : ClaimStatus) : string :=
  match x with PROVISIONAL => "provisional" | SUSPENDED => "suspended" | SUPERSEDED => "superseded" end.
Definition ClaimAssessment_value (x : ClaimAssessment) : string :=
  match x with
  | UNASSESSED => "unassessed" | SUPPORTED => "supported" | CONTESTED => "contested"
  | REFUTED => "refuted" | ASSESSMENT_UNKNOWN => "unknown"
  end.
Definition RepresentationLevel_value (x : RepresentationLevel) : string :=
  match x with
  | L0_OPAQUE => "l0_opaque" | L1_STRUCTURED => "l1_structured" | L2_FORMAL => "l2_formal"
  | L3_PROMOTED_VIEW => "l3_promoted_view"
  end.
Definition Polarity_value (x : Polarity) : string :=
  match x with POSITIVE => "positive" | NEGATIVE => "negative" | UNSPECIFIED => "unspecified" end.

#[export] Instance Claim_to_json : ToJson Claim := λ c,
  JObject [("id", to_json (claim_id c)); ("role", JString (ClaimRole_value (claim_role c)));
           ("bound_args", to_json (claim_bound_args c)); ("payload", to_json (claim_payload c));
           ("scope", to_json (claim_scope c)); ("provenance", to_json (claim_provenance c));
           ("status", JString (ClaimStatus_value (claim_status c)));
           ("assessment", JString (ClaimAssessment_value (claim_assessment c)));
           ("representation_level", JString (RepresentationLevel_value (claim_representation_level c)));
           ("parent_ids", to_json (claim_parent_ids c)); ("proposition_id", to_json (claim_proposition_id c));
           ("polarity", JString (Polarity_value (claim_polarity c)))].

(** A decoded success: the only accepted return a Goal is derived from. *)
Definition decoded_success_json (b : DecodeBase) (r : ResultBase) (operation_id : string) : json :=
  JObject [("id", to_json (decode_id b)); ("external_return_id", to_json (decode_external_return_id b));
           ("decoder_id", to_json (decoder_id b)); ("decoder_version", to_json (decoder_version b));
           ("kind", JString "decoded");
           ("result", JObject [("id", to_json (result_id r));
                               ("semantic_artifact", to_json (semantic_artifact r));
                               ("kind", JString "success"); ("operation_id", JString operation_id)])].

(** ** [model_dump_json()] of a claim

    Compact, in field order.  Its numbers are laid out by another rule than
    [repr]: the same digits, positional down to the fifth decimal, and exponents
    without sign or padding. *)

Fixpoint strip_zeros (s : string) : string :=
  match s with String "0"%char (String _ _ as s') => strip_zeros s' | _ => s end.

Definition exponent_text (s : string) : string :=
  match s with
  | String "+"%char s => strip_zeros s
  | String "-"%char s => "-" +:+ strip_zeros s
  | _ => s
  end.

Definition without_dot (s : string) : string := join "" (split_on 46 s).

Definition dump_float (repr : string) : string :=
  match split_on 101 repr with
  | [mantissa; exponent] =>
    let e := exponent_text exponent in
    if e ==? "-5" then
      match mantissa with
      | String "-"%char m => "-0.0000" +:+ without_dot m
      | _ => "0.0000" +:+ without_dot mantissa
      end
    else mantissa +:+ "e" +:+ e
  | _ => repr
  end.

Example dump_float_examples :
  map dump_float ["1.5"; "1e+16"; "1.234e-05"; "-2e-05"; "2.5e-07"; "1e-100"]
  = ["1.5"; "1e16"; "0.00001234"; "-0.00002"; "2.5e-7"; "1e-100"].
Proof. vm_compute. reflexivity. Qed.

Fixpoint model_dump_json (j : json) : string :=
  match j with
  | JFloat f => dump_float (float_repr f)
  | JList l => "[" +:+ join "," (map model_dump_json l) +:+ "]"
  | JObject o => "{" +:+ join "," (map (λ kv, quote kv.1 (":" +:+ model_dump_json kv.2)) o) +:+ "}"
  | _ => canonical_json j
  end.

(** ** [questions/generated.py] *)

Definition GENERATED_QUESTION_PROFILE_ID : string := "recursive-project-v1".
Definition GENERATED_QUESTION_POLICY_VERSION : string := "recursive-question-policy-v1".
Definition GENERATED_QUESTION_COMPILER_VERSION : string := "generated-question-compiler-v1".
Definition GENERATED_QUESTION_PRECONDITION_POLICY : string := "owned-project-limitation-v1".
Definition GENERATED_QUESTION_COMPARISON_POLICY : string := "consequence-distinction-v1".
Definition GENERATED_QUESTION_CONSUMERS : list string := ["frontier-builder"].

Definition not_compiled {A} (msg : string) : result A := raise GeneratedQuestionCompilationError msg.

Record CompiledReferent : Type := MkCompiledReferent {
  cref_record_type : string;
  cref_record_id : string;
}.
#[export] Instance CompiledReferent_eq_dec : EqDecision CompiledReferent.
Proof. solve_decision. Defined.

Definition referent_key (r : CompiledReferent) : string * string := (cref_record_type r, cref_record_id r).

(** The version fields are literals. *)
Record CompiledQuestionContract : Type := MkCompiledQuestionContract {
  cqc_id : string;
  cqc_candidate_id : string;
  cqc_candidate_fingerprint : string;
  cqc_decision_id : string;
  cqc_decision_fingerprint : string;
  cqc_limitation_id : string;
  cqc_anchor_id : string;
  cqc_anchor_commit_sha : string;
  cqc_binding_revision : string;
  cqc_scope_fingerprint : string;
  cqc_protected_horizon_id : string;
  cqc_comparison_policy_id : string;
  cqc_contract : QuestionContract;
  cqc_referents : list CompiledReferent;
  cqc_possible_returns : list ConsequentialReturn;
  cqc_downstream_consumer_ids : list string;
}.

#[export] Instance CompiledReferent_to_json : ToJson CompiledReferent := λ r,
  JObject [("record_type", to_json (cref_record_type r)); ("record_id", to_json (cref_record_id r))].

#[export] Instance CompiledQuestionContract_to_json : ToJson CompiledQuestionContract := λ c,
  JObject [("schema_version", JInt 1); ("id", to_json (cqc_id c));
           ("compiler_version", JString GENERATED_QUESTION_COMPILER_VERSION);
           ("profile_id", JString GENERATED_QUESTION_PROFILE_ID);
           ("candidate_id", to_json (cqc_candidate_id c));
           ("candidate_fingerprint", to_json (cqc_candidate_fingerprint c));
           ("decision_id", to_json (cqc_decision_id c));
           ("decision_fingerprint", to_json (cqc_decision_fingerprint c));
           ("limitation_id", to_json (cqc_limitation_id c)); ("anchor_id", to_json (cqc_anchor_id c));
           ("anchor_commit_sha", to_json (cqc_anchor_commit_sha c));
           ("binding_revision", to_json (cqc_binding_revision c));
           ("scope_fingerprint", to_json (cqc_scope_fingerprint c));
           ("protected_horizon_id", to_json (cqc_protected_horizon_id c));
           ("comparison_policy_id", to_json (cqc_comparison_policy_id c));
           ("controller_policy_version", JString GENERATED_QUESTION_POLICY_VERSION);
           ("contract", to_json (cqc_contract c)); ("referents", to_json (cqc_referents c));
           ("possible_returns", to_json (cqc_possible_returns c));
           ("downstream_consumer_ids", to_json (cqc_downstream_consumer_ids c))].

Definition validate_compilation (c : CompiledQuestionContract) : result unit :=
  raise_if (sort_by referent_key (cqc_referents c) !=? cqc_referents c)
    ValidationError "compiled referents must be canonically ordered";;
  raise_if (sort_by cret_return_class_id (cqc_possible_returns c) !=? cqc_possible_returns c)
    ValidationError "compiled return classes must be canonically ordered".

(** [_project_referent_index]: every project record by its identity, with its type. *)
Definition project_records (s : InquiryState) : list (string * string) :=
  map (λ x, (anc_id x, "project_anchor")) (project_anchors s)
  ++ map (λ x, (lim_id x, "capability_limitation")) (capability_limitations s)
  ++ map (λ x, (qcc_id x, "question_contract_candidate")) (question_contract_candidates s)
  ++ map (λ x, (qrd_id x, "question_repertoire_decision")) (question_repertoire_decisions s)
  ++ map (λ x, (mbc_id x, "method_binding_candidate")) (method_binding_candidates s)
  ++ map (λ x, (mad_id x, "method_admission_decision")) (method_admission_decisions s)
  ++ map (λ x, (succ_id x, "capability_successor_candidate")) (capability_successor_candidates s)
  ++ map (λ x, (frt_id x, "capability_frontier")) (capability_frontiers s)
  ++ map (λ x, (goal_id x, "implementation_goal")) (implementation_goals s)
  ++ map (λ x, (cem_id x, "candidate_environment")) (candidate_environments s)
  ++ map (λ x, (dev_id x, "development_evidence")) (development_evidence s)
  ++ map (λ x, (rev_id x, "independent_review")) (independent_reviews s)
  ++ map (λ x, (psd_id x, "project_successor_decision")) (project_successor_decisions s)
  ++ map (λ x, (prd_id x, "promotion_decision")) (promotion_decisions s)
  ++ map (λ x, (rcc_id x, "recursive_cycle_checkpoint")) (recursive_cycle_checkpoints s)
  ++ map (λ x, (stop_id x, "recursive_stop_disposition")) (recursive_stop_dispositions s).

Definition referent_types (s : InquiryState) (record_id : string) : list string :=
  sorted (map snd (List.filter (λ r, r.1 ==? record_id) (project_records s))).

Definition compile_referent (s : InquiryState) (record_id : string) : result CompiledReferent :=
  match referent_types s record_id with
  | [t] => Ok (MkCompiledReferent t record_id)
  | _ => not_compiled "generated question referents must resolve to one exact owned project record"
  end.

Definition compile_referents (s : InquiryState) (c : QuestionContractCandidate) :
    result (list CompiledReferent) :=
  raise_if (negb (mem (qcc_limitation_id c) (qcc_typed_referent_ids c)))
    GeneratedQuestionCompilationError "generated question must explicitly reference its exact limitation";;
  refs ← traverse (compile_referent s) (qcc_typed_referent_ids c);
  Ok (sort_by referent_key refs).

(** The seams of the contract that would carry authority. *)
Definition inert_contract (c : QuestionContract) : bool :=
  (qc_precondition_policy_id c ==? GENERATED_QUESTION_PRECONDITION_POLICY)
  && (qc_answer_shape c ==? OPAQUE_L0_INERT) && (qc_answer_schema_id c ==? "rci.inert-payload.v1")
  && (qc_bind_policy_id c ==? "bind-l0-v1") && (qc_update_rule_id c ==? "append-provisional-claim-v1")
  && is_none (qc_reifier_id c) && is_none (qc_verifier_id c) && negb (qc_recurrent_probe c)
  && is_nil (qc_next_obligation_rule_ids c).

Definition check_rendering (c : QuestionContract) : result unit :=
  match render_question c (list_to_map (map (λ r, (r, r)) (qc_input_roles c))) with
  | Ok _ => Ok tt
  | Raise x =>
    if is_value_error (exn_class x)
    then not_compiled "generated question template and typed input roles do not match" else Raise x
  end.

Definition validate_safe_contract (candidate : QuestionContractCandidate) : result unit :=
  let c := qcc_contract candidate in
  raise_if (qc_family c !=? "recursive-project") GeneratedQuestionCompilationError
    "generated question is outside the recursive-project family";;
  raise_if (negb ((qc_maturity c ==? MATURITY_DRAFT) || (qc_maturity c ==? MATURITY_EXPERIMENTAL)))
    GeneratedQuestionCompilationError "generated question must remain draft or experimental";;
  raise_if (qc_input_roles c !=? ["limitation"]) GeneratedQuestionCompilationError
    "generated question compiler v1 accepts only the exact limitation input role";;
  raise_if (mem (qc_key c) (map qc_key (qcat_contracts CATALOG_V0_4))) GeneratedQuestionCompilationError
    "generated question cannot shadow a sealed catalog contract";;
  raise_if (negb (inert_contract c)) GeneratedQuestionCompilationError
    "generated question requests an unimplemented or authority-bearing contract seam";;
  check_rendering c;;
  raise_if (qcc_precondition_ids candidate !=? ["owned-limitation"]) GeneratedQuestionCompilationError
    "generated question has an unknown precondition policy input";;
  raise_if (qcc_comparison_policy_id candidate !=? GENERATED_QUESTION_COMPARISON_POLICY)
    GeneratedQuestionCompilationError "generated question comparison policy is stale";;
  raise_if (negb (subset (qcc_downstream_consumer_ids candidate) GENERATED_QUESTION_CONSUMERS))
    GeneratedQuestionCompilationError "generated question names an unimplemented downstream consumer";;
  raise_if (negb (uniq (map cret_return_class_id (qcc_possible_returns candidate))))
    GeneratedQuestionCompilationError "generated return-class identities must be unique".

Definition is_active_admission (d : QuestionRepertoireDecision) : bool :=
  (qrd_outcome d ==? OUTCOME_ADMIT) && (qrd_admitted_profile_id d ==? Some GENERATED_QUESTION_PROFILE_ID)
  && (qrd_controller_policy_version d ==? GENERATED_QUESTION_POLICY_VERSION).

Definition active_decision (s : InquiryState) (candidate_id : string) : result QuestionRepertoireDecision :=
  match List.filter (λ d, qrd_candidate_id d ==? candidate_id) (question_repertoire_decisions s) with
  | [d] =>
    if is_active_admission d then Ok d
    else not_compiled "generated question requires one exact active admission decision"
  | _ => not_compiled "generated question requires one exact active admission decision"
  end.

Definition question_candidate_by_id (s : InquiryState) (id : string) : option QuestionContractCandidate :=
  first (λ c, qcc_id c ==? id) (question_contract_candidates s).
Definition limitation_by_id (s : InquiryState) (id : string) : option CapabilityLimitation :=
  first (λ l, lim_id l ==? id) (capability_limitations s).
Definition anchor_by_id (s : InquiryState) (id : string) : option ProjectAnchor :=
  first (λ a, anc_id a ==? id) (project_anchors s).

(** [next(...)] that must succeed, with the error the code raises otherwise. *)
Definition or_raise {A} (o : option A) (k : exn_kind) (msg : string) : result A :=
  match o with Some x => Ok x | None => raise k msg end.

Definition compile_admitted_question (s : InquiryState) (candidate_id : string) :
    result CompiledQuestionContract :=
  ctx ← or_raise (st_context s) GeneratedQuestionCompilationError
          "generated question requires a started inquiry";
  candidate ← or_raise (question_candidate_by_id s candidate_id) GeneratedQuestionCompilationError
          "generated question candidate is not owned";
  decision ← active_decision s (qcc_id candidate);
  limitation ← or_raise (limitation_by_id s (qcc_limitation_id candidate))
          GeneratedQuestionCompilationError "generated question limitation is not owned";
  anchor ← or_raise (anchor_by_id s (lim_anchor_id limitation)) GeneratedQuestionCompilationError
          "generated question requires its clean anchor";
  validate_safe_contract candidate;;
  referents ← compile_referents s candidate;
  let returns := sort_by cret_return_class_id (qcc_possible_returns candidate) in
  let candidate_fp := content_fingerprint "rci.question-candidate.v1" (to_json candidate) in
  let decision_fp := content_fingerprint "rci.question-decision.v1" (to_json decision) in
  let compilation_fp := content_fingerprint "rci.generated-question.v1"
    (JObject [("candidate_fingerprint", JString candidate_fp); ("decision_fingerprint", JString decision_fp);
              ("anchor_commit_sha", JString (anc_commit_sha anchor));
              ("binding_revision", JString (ctx_binding_revision ctx));
              ("scope_fingerprint", JString (ctx_scope_fingerprint ctx));
              ("protected_horizon_id", JString (ctx_protected_horizon_id ctx));
              ("comparison_policy_id", JString (qcc_comparison_policy_id candidate));
              ("compiler_version", JString GENERATED_QUESTION_COMPILER_VERSION)]) in
  let c := MkCompiledQuestionContract ("compiled-question-" +:+ prefix 24 compilation_fp)
    (qcc_id candidate) candidate_fp (qrd_id decision) decision_fp (lim_id limitation) (anc_id anchor)
    (anc_commit_sha anchor) (ctx_binding_revision ctx) (ctx_scope_fingerprint ctx)
    (ctx_protected_horizon_id ctx) (qcc_comparison_policy_id candidate) (qcc_contract candidate)
    referents returns (qcc_downstream_consumer_ids candidate) in
  validate_compilation c;; Ok c.

(** The questions that compile, in the order of their candidates. *)
Fixpoint compile_each (s : InquiryState) (ids : list string) : result (list CompiledQuestionContract) :=
  match ids with
  | [] => Ok []
  | id :: ids =>
    match compile_admitted_question s id with
    | Ok c => cs ← compile_each s ids; Ok (c :: cs)
    | Raise x =>
      if exn_class x ==? GeneratedQuestionCompilationError then compile_each s ids else Raise x
    end
  end.

Definition generated_question_registry (s : InquiryState) : result (list CompiledQuestionContract) :=
  let active := sorted_set (map qrd_candidate_id
                  (List.filter is_active_admission (question_repertoire_decisions s))) in
  candidates ← compile_each s active;
  Ok (List.filter (λ c, (length (List.filter (λ d, qc_key (cqc_contract d) ==? qc_key (cqc_contract c))
                                   candidates) =? 1)%nat) candidates).

(** ** [project/goal_synthesis.py] *)

Definition GOAL_COMPILER_VERSION : string := "implementation-goal-compiler-v1".
Definition GOAL_ACCEPTANCE_REGISTRY_VERSION : string := "project-gate-registry-v1".
Definition GOAL_MUTATION_REGISTRY_VERSION : string := "project-mutation-registry-v1".

(** A command with a double-quoted argument. *)
Definition quoted (before argument : string) : string :=
  before +:+ String "034"%char (argument +:+ String "034"%char "").

Definition PREDECESSOR_GATE_COMMANDS : list string :=
  ["uv lock --check"; "uv sync --dev"; quoted "uv run python -c " "import rci";
   quoted "uv run pytest -q -m " "not optional"; "uv sync --all-extras --dev";
   "uv run ruff format --check ."; "uv run ruff check ."; "uv run mypy src/rci tests";
   "uv run pytest -q"; "uv run pytest -q tests/acceptance";
   "uv run pytest -q tests/acceptance/test_g2a_retrieval_recovery.py";
   "uv run pytest -q tests/acceptance/test_g2b_consolidation_plasticity.py";
   "uv run pytest -q tests/acceptance/test_g3a_history_state.py";
   "uv run pytest -q tests/acceptance/test_recursive_project_inquiry.py";
   "uv run pytest -q tests/acceptance/test_regenerative_questions.py"; "uv run rci --help"; "uv build"].
Definition GOAL_SYNTHESIS_COMMAND : string := "uv run pytest -q tests/acceptance/test_goal_synthesis.py".
Definition PROPOSED_GATE_COMMANDS : list string := PREDECESSOR_GATE_COMMANDS ++ [GOAL_SYNTHESIS_COMMAND].

Definition ALLOWED_MUTATION_ROOTS : list string :=
  ["src/rci/cli"; "src/rci/core"; "src/rci/project"; "src/rci/sdk.py"; "tests"].
Definition FORBIDDEN_AUTHORITY_ROOTS : list string :=
  [".git"; ".github"; ".rci/config.toml"; "AGENTS.md"; "PLAN.md"; "RCI_Project_Spec.tex"; "docs/adr";
   "docs/goals"; "docs/requirements-matrix.md"].
Definition GOAL_ASSUMPTIONS : list string :=
  ["existing-effect-protocol-sufficient"; "generated-return-is-provisional";
   "manual-goal-bypass-remains-external"; "registry-confined-goal-shape-sufficient"].

(** A compiled candidate, or [GoalSynthesisUnknown(reason)]. *)
Inductive GoalSynthesis : Type :=
| GoalCompiled (c : ImplementationGoalCandidate)
| GoalUnknown (reason : string).

(** [_argument]: the one string value of a name. *)
Definition argument (o : Obligation) (name : string) : option string :=
  match List.filter (λ a, arg_name a ==? name) (obl_args o) with
  | [MkBoundArgument _ (JString v)] => Some v
  | _ => None
  end.

Definition gate_digest (commands : list string) : string :=
  content_fingerprint "rci.project-gate.v1" (to_json commands).

Definition goal_admission_evidence_ids (c : ImplementationGoalCandidate) : list string :=
  sorted_set [gcd_question_candidate_id c; gcd_question_decision_id c; gcd_source_obligation_id c;
              gcd_accepted_decode_id c; gcd_source_claim_id c; gcd_downstream_obligation_id c;
              gcd_anchor_id c; gcd_limitation_id c; gcd_frontier_id c; gcd_selected_candidate_id c].

(** [content_fingerprint("rci.implementation-goal-candidate.v1", candidate)] *)
Definition goal_candidate_fingerprint (c : ImplementationGoalCandidate) : string :=
  content_fingerprint "rci.implementation-goal-candidate.v1" (to_json c).

Definition frontier_by_id (s : InquiryState) (id : string) : option CapabilityFrontier :=
  first (λ f, frt_id f ==? id) (capability_frontiers s).
Definition successor_by_id (s : InquiryState) (id : string) : option CapabilitySuccessorCandidate :=
  first (λ c, succ_id c ==? id) (capability_successor_candidates s).

(** The pins of the two obligations agree with the compiled question. *)
Definition question_context_matches (source downstream : Obligation) (q : CompiledQuestionContract) : bool :=
  (argument source "__rci_generated_question_decision_id" ==? Some (cqc_decision_id q))
  && (argument source "__rci_generated_question_compilation_id" ==? Some (cqc_id q))
  && (obl_carrier_id source ==? cqc_limitation_id q)
  && (obl_binding_revision source ==? cqc_binding_revision q)
  && (scope_fingerprint (obl_scope source) ==? cqc_scope_fingerprint q)
  && (obl_binding_revision downstream ==? cqc_binding_revision q)
  && (scope_fingerprint (obl_scope downstream) ==? cqc_scope_fingerprint q).

(** The resolved requests whose plan selected the obligation. *)
Definition accepted_requests_for (s : InquiryState) (obligation_id : string) : list EffectRequestState :=
  List.filter (λ r,
    match dict_by plan_id (step_plans s) !! req_step_plan_id (ers_request r) with
    | Some p => (plan_selected_obligation_id p ==? Some obligation_id)
                && is_some (ers_accepted_decoded_outcome_id r)
    | None => false
    end) (effect_requests s).

(** The accepted decode of a request, when it is a success. *)
Definition accepted_success (r : EffectRequestState) : option (DecodeBase * ResultBase * string) :=
  id ← ers_accepted_decoded_outcome_id r;
  d ← find_decode id (ers_decode_outcomes r);
  match d with Decoded b (SuccessResult rb op) => Some (b, rb, op) | _ => None end.

Definition claim_matches_decode (c : Claim) (b : DecodeBase) (rb : ResultBase) : bool :=
  (claim_status c ==? PROVISIONAL) && (claim_representation_level c ==? L0_OPAQUE)
  && (prov_source_id (claim_provenance c) ==? decode_external_return_id b)
  && (Sha256.hexdigest (model_dump_json (to_json c)) ==? art_digest (semantic_artifact rb)).

Definition frontier_profile_applies (f : CapabilityFrontier) (a : ProjectAnchor) (l : CapabilityLimitation)
    (c : CapabilitySuccessorCandidate) : bool :=
  (frt_status f ==? FRONTIER_READY) && (frt_anchor_id f ==? anc_id a)
  && (frt_limitation_id f ==? lim_id l) && (succ_anchor_id c ==? anc_id a)
  && (succ_limitation_id c ==? lim_id l)
  && (succ_discriminator_id c ==? Some "goal-synthesis-acceptance")
  && (anc_gate_digest a ==? gate_digest PREDECESSOR_GATE_COMMANDS).

(** The material a Goal's identity is derived from. *)
Definition goal_material (q : CompiledQuestionContract) (b : DecodeBase) (c : Claim) (downstream : Obligation)
    (a : ProjectAnchor) (l : CapabilityLimitation) (f : CapabilityFrontier)
    (sel : CapabilitySuccessorCandidate) : list (string * json) :=
  [("compiled_question_id", JString (cqc_id q)); ("accepted_decode_id", JString (decode_id b));
   ("source_claim_id", JString (claim_id c)); ("downstream_obligation_id", JString (obl_id downstream));
   ("anchor_id", JString (anc_id a)); ("limitation_id", JString (lim_id l));
   ("frontier_id", JString (frt_id f)); ("selected_candidate_id", JString (succ_id sel));
   ("compiler_version", JString GOAL_COMPILER_VERSION);
   ("acceptance_registry_version", JString GOAL_ACCEPTANCE_REGISTRY_VERSION);
   ("mutation_registry_version", JString GOAL_MUTATION_REGISTRY_VERSION)].

Definition synthesized_goal (material_fp : string) (a : ProjectAnchor) (l : CapabilityLimitation)
    (f : CapabilityFrontier) (sel : CapabilitySuccessorCandidate) : ImplementationGoalContract :=
  MkImplementationGoalContract ("goal:" +:+ material_fp) ("cycle:" +:+ material_fp) (anc_id a) (frt_id f)
    (succ_id sel) (succ_current_state sel) (succ_desired_state sel) (lim_consequential_boundary l)
    "No replayable implementation-Goal candidate is derivable."
    "One exact admitted return compiles to an inert, controller-admissible Goal candidate."
    (succ_preserved_capability_ids sel) (sorted PROPOSED_GATE_COMMANDS) (sorted ALLOWED_MUTATION_ROOTS)
    (sorted FORBIDDEN_AUTHORITY_ROOTS) (sorted GOAL_ASSUMPTIONS) (gate_digest PREDECESSOR_GATE_COMMANDS)
    (gate_digest PROPOSED_GATE_COMMANDS)
    "Any protected predecessor command fails or authority expands."
    "A lawful return requires a Goal shape, check, or mutation root outside the registries.".

(** The last part of the compiler: everything has been found and agrees. *)
Definition assemble_goal_candidate (s : InquiryState) (ctx : InquiryContext) (source downstream : Obligation)
    (q : CompiledQuestionContract) (request : EffectRequestState) (b : DecodeBase) (rb : ResultBase)
    (op : string) (c : Claim) (a : ProjectAnchor) (l : CapabilityLimitation) (f : CapabilityFrontier)
    (sel : CapabilitySuccessorCandidate) : result GoalSynthesis :=
  let material := goal_material q b c downstream a l f sel in
  let goal := synthesized_goal (content_fingerprint "rci.implementation-goal-material.v1" (JObject material))
                a l f sel in
  validate_goal goal;;
  let goal_fp := content_fingerprint "rci.implementation-goal.v1" (to_json goal) in
  let candidate_fp := content_fingerprint "rci.implementation-goal-candidate.v1"
    (JObject (material ++ [("goal_fingerprint", JString goal_fp);
                           ("binding_revision", JString (ctx_binding_revision ctx));
                           ("scope_fingerprint", JString (ctx_scope_fingerprint ctx));
                           ("protected_horizon_id", JString (ctx_protected_horizon_id ctx))])) in
  question ← or_raise (question_candidate_by_id s (cqc_candidate_id q)) StopIteration "";
  decision ← or_raise (first (λ d, qrd_id d ==? cqc_decision_id q) (question_repertoire_decisions s))
               StopIteration "";
  let candidate := MkImplementationGoalCandidate ("goal-candidate:" +:+ candidate_fp)
    (qcc_id question) (content_fingerprint "rci.question-candidate.v1" (to_json question))
    (qrd_id decision) (content_fingerprint "rci.question-decision.v1" (to_json decision))
    (cqc_id q) (content_fingerprint "rci.compiled-question.v1" (to_json q))
    (obl_id source) (obligation_fingerprint source) (ers_id request)
    (decode_id b) (content_fingerprint "rci.decode-outcome.v1" (decoded_success_json b rb op))
    (claim_id c) (content_fingerprint "rci.claim.v1" (to_json c))
    (obl_id downstream) (obligation_fingerprint downstream)
    (anc_id a) (content_fingerprint "rci.project-anchor.v1" (to_json a))
    (lim_id l) (content_fingerprint "rci.capability-limitation.v1" (to_json l))
    (frt_id f) (content_fingerprint "rci.capability-frontier.v1" (to_json f))
    (succ_id sel) (content_fingerprint "rci.capability-successor.v1" (to_json sel))
    (ctx_binding_revision ctx) (ctx_scope_fingerprint ctx) (ctx_protected_horizon_id ctx)
    goal goal_fp in
  validate_goal_candidate candidate;; Ok (GoalCompiled candidate).

Definition unknown (reason : string) : result GoalSynthesis := Ok (GoalUnknown reason).

(** The middle part: the accepted return, its claim, and the frontier. *)
Definition compile_from_question (s : InquiryState) (ctx : InquiryContext) (source downstream : Obligation)
    (frontier : CapabilityFrontier) (q : CompiledQuestionContract) : result GoalSynthesis :=
  match accepted_requests_for s (obl_id source) with
  | [request] =>
    match accepted_success request with
    | None => unknown "accepted-return-not-success"
    | Some (b, rb, op) =>
      match List.filter (λ c, Some (claim_id c) ==? argument downstream "source_claim_id") (claims s) with
      | [claim] =>
        if negb (claim_matches_decode claim b rb) then unknown "source-claim-decode-mismatch"
        else
          match limitation_by_id s (cqc_limitation_id q) with
          | None => unknown "frontier-profile-not-applicable"
          | Some limitation =>
            match anchor_by_id s (lim_anchor_id limitation),
                  frt_selected_discriminator_candidate_id frontier ≫= successor_by_id s with
            | Some anchor, Some selected =>
              if frontier_profile_applies frontier anchor limitation selected
              then assemble_goal_candidate s ctx source downstream q request b rb op claim anchor
                     limitation frontier selected
              else unknown "frontier-profile-not-applicable"
            | _, _ => unknown "frontier-profile-not-applicable"
            end
          end
      | _ => unknown "source-claim-not-unique"
      end
    end
  | _ => unknown "accepted-return-not-unique"
  end.

Definition compile_implementation_goal_candidate (s : InquiryState)
    (source_obligation_id downstream_obligation_id frontier_id : string) : result GoalSynthesis :=
  match st_context s with
  | None => unknown "inquiry-not-started"
  | Some ctx =>
    match obligation_by_id s source_obligation_id, obligation_by_id s downstream_obligation_id,
          frontier_by_id s frontier_id with
    | Some source, Some downstream, Some frontier =>
      if obl_parent_obligation_ids downstream !=? [obl_id source] then unknown "downstream-parent-mismatch"
      else if argument downstream "generated_return_class_id" !=? Some "goal-derivation-required"
      then unknown "return-class-not-goal-derivation"
      else
        match argument source "__rci_generated_question_candidate_id" with
        | None => unknown "question-source-mismatch"
        | Some question_candidate_id =>
          if argument downstream "source_question_candidate_id" !=? Some question_candidate_id
          then unknown "question-source-mismatch"
          else
            match compile_admitted_question s question_candidate_id with
            | Raise x => if is_value_error (exn_class x) then unknown "question-compilation-not-active"
                         else Raise x
            | Ok q =>
              if negb (question_context_matches source downstream q) then unknown "question-context-mismatch"
              else if negb (length (List.filter (λ r, (cret_return_class_id r ==? "goal-derivation-required")
                                                      && (cret_downstream_state_id r ==? obl_carrier_id downstream))
                                      (cqc_possible_returns q)) =? 1)%nat
              then unknown "return-mapping-ambiguous"
              else compile_from_question s ctx source downstream frontier q
            end
        end
    | _, _, _ => unknown "source-record-not-owned"
    end
  end.
