(* ===== verification/Extensions.v ===== *)
(** * The aggregate's validator, the extensions: [src/rci/core/state.py]

    The checks [validate_lifecycle] makes of the learning, retention, recovery,
    compression and project ledgers, one definition per block of the code. *)

From S2P Require Import Prelude Digest Dumps Memory Retrieval Recovery Learning Compression Questions Project Model Claims Warrant Support Effects Probes State Goals.

(** A computation run inside the validator: a [ValueError] raised there reaches
    the caller as a [ValidationError]. *)
Definition in_validator {A} (m : result A) : result A :=
  match m with
  | Ok a => Ok a
  | Raise x => if is_value_error (exn_class x) then raise ValidationError (exn_message x) else Raise x
  end.

Definition refuse (c : bool) (msg : string) : result unit := raise_if c ValidationError msg.

(** [set(l1) == set(l2)] *)
Definition same_set `{EqDecision A} (l1 l2 : list A) : bool := subset l1 l2 && subset l2 l1.

(** ** Learning *)

Definition obligation_ids (s : InquiryState) : list string := map obl_id (obligations s).
Definition lemma_ids (s : InquiryState) : list string := map lv_id (lemma_versions s).

Definition owned_consolidation (s : InquiryState) (c : ConsolidationCandidate) : bool :=
  mem (ccd_checkpoint_id c) (map ccp_id (consolidation_checkpoints s))
  && mem (ccd_generalization_claim_id c) (map claim_id (claims s))
  && subset (ccd_challenge_obligation_ids c ++ csb_open_dependency_obligation_ids (ccd_boundary c))
       (obligation_ids s).

Definition owned_patch (s : InquiryState) (p : MemoryPatchCandidate) : bool :=
  mem (mpc_target_lemma_id p) (lemma_ids s)
  && mem (mpc_triggering_mismatch_id p) (map mm_id (mismatches s))
  && mem (mpc_triggering_return_id p) (captured_external_return_ids s)
  && mem (mpc_proposed_claim_id p) (map claim_id (claims s))
  && subset (mpc_predecessor_support_route_ids p) (map route_id (all_routes (lemma_supports s)))
  && subset (mpc_challenge_obligation_ids p) (obligation_ids s).

Definition owned_reconsolidation (s : InquiryState) (l : ReconsolidationLink) : bool :=
  mem (rlink_memory_patch_id l) (map mpc_id (memory_patch_candidates s))
  && mem (rlink_predecessor_lemma_id l) (lemma_ids s)
  && mem (rlink_successor_lemma_id l) (lemma_ids s)
  && mem (rlink_correction_id l) (map corr_id (corrections s))
  && mem (rlink_warrant_decision_id l) (map wd_id (warrant_decisions s)).

Definition owned_probe_candidate (s : InquiryState) (c : LearnedProbeCandidate) : bool :=
  mem (lpc_representation_gap_id c) (map gap_id (representation_gaps s))
  && subset (lpc_challenge_obligation_ids c) (obligation_ids s).

Definition owned_probe_evaluation (s : InquiryState) (e : ProbeEvaluation) : bool :=
  mem (pev_candidate_probe_id e) (map lpc_id (learned_probe_candidates s))
  && subset (pev_training_observation_ids e ++ pev_holdout_observation_ids e)
       (map pe_id (probe_observations s)).

Definition owned_probe_decision (s : InquiryState) (d : ProbeAdmissionDecision) : bool :=
  mem (pad_candidate_probe_id d) (map lpc_id (learned_probe_candidates s))
  && mem (pad_evaluation_id d) (map pev_id (probe_evaluations s)).

(** The learning block. *)
Definition check_learning (s : InquiryState) : result unit :=
  refuse (negb (forallb (owned_consolidation s) (consolidation_candidates s)))
    "consolidation candidates require owned source records";;
  refuse (negb (forallb (owned_patch s) (memory_patch_candidates s)))
    "memory patches require owned immutable predecessors";;
  refuse (negb (forallb (owned_reconsolidation s) (reconsolidation_links s)))
    "reconsolidation links require owned succession evidence";;
  refuse (negb (forallb (λ g, mem (gap_obligation_id g) (obligation_ids s)) (representation_gaps s)))
    "representation gaps require an owned obligation";;
  refuse (negb (forallb (owned_probe_candidate s) (learned_probe_candidates s)))
    "learned-probe candidates require owned gaps and attacks";;
  refuse (negb (forallb (owned_probe_evaluation s) (probe_evaluations s)))
    "probe evaluations require owned candidates and observations";;
  refuse (negb (forallb (owned_probe_decision s) (probe_admission_decisions s)))
    "probe admission decisions require owned evaluations".

(** ** Retention packages *)

Definition check_owned_ref (owned : gmap string OwnedRecord) (r : OwnedMemoryRef) : result unit :=
  verdict ← in_validator (resolve_owned_memory_ref r owned);
  refuse (negb verdict.1) ("retention package has an invalid owned reference: " +:+ verdict.2).

Definition check_owned_refs (s : InquiryState) : result unit :=
  owned ← in_validator (owned_memory_records s);
  for_each (check_owned_ref owned) (flat_map pkg_owned_refs (retention_packages s)).

(** One registration group: the records and the ids the packages name. *)
Definition check_registration_group (registered referenced : list string) (label : string) : result unit :=
  refuse (negb (uniq referenced))
    ("registered " +:+ label +:+ " cannot be owned by multiple packages");;
  refuse (negb (same_set registered referenced))
    ("registered " +:+ label +:+ " must be owned by a retention package").

Definition check_registrations (s : InquiryState) : result unit :=
  let named ids := flat_map ids (retention_packages s) in
  check_registration_group (map pinned_id (direct_use_routes s)) (named pkg_direct_use_route_ids)
    "direct-use routes";;
  check_registration_group (map pinned_id (reconstruction_routes s)) (named pkg_reconstruction_route_ids)
    "reconstruction routes";;
  check_registration_group (map pinned_id (consequence_evaluation_routes s))
    (named pkg_consequence_evaluation_route_ids) "consequence-evaluation routes";;
  check_registration_group (map pinned_id (reacquisition_routes s)) (named pkg_reacquisition_route_ids)
    "reacquisition routes";;
  check_registration_group (map pinned_id (reacquisition_scaffolds s)) (named pkg_scaffold_ids)
    "reacquisition scaffolds";;
  check_registration_group (map pinned_id (recovery_protocols s)) (named pkg_recovery_protocol_ids)
    "recovery protocols".

(** The records a package names carry its pins. *)
Definition named_pinned `{PinnedRetentionRecord A} (ids : list string) (pins : string * string * string)
    (l : list A) : bool :=
  all_pinned pins (List.filter (λ r, mem (pinned_id r) ids) l).

Definition package_pinned (s : InquiryState) (p : RetentionPackage) : bool :=
  named_pinned (pkg_direct_use_route_ids p) (pkg_pins p) (direct_use_routes s)
  && named_pinned (pkg_reconstruction_route_ids p) (pkg_pins p) (reconstruction_routes s)
  && named_pinned (pkg_consequence_evaluation_route_ids p) (pkg_pins p) (consequence_evaluation_routes s)
  && named_pinned (pkg_reacquisition_route_ids p) (pkg_pins p) (reacquisition_routes s)
  && named_pinned (pkg_scaffold_ids p) (pkg_pins p) (reacquisition_scaffolds s)
  && named_pinned (pkg_recovery_protocol_ids p) (pkg_pins p) (recovery_protocols s).

Definition check_packages (s : InquiryState) : result unit :=
  check_owned_refs s;;
  check_registrations s;;
  refuse (negb (forallb (package_pinned s) (retention_packages s)))
    "retention package records must preserve exact package pins".

(** ** Retrieval *)

Definition query_policy_key (q : RetrievalQuery) : string * string :=
  (qry_policy_id q, qry_policy_version q).
Definition policy_key (p : StructuralRetrievalPolicy) : string * string := (srp_id p, srp_version p).

Definition result_pins (r : RetrievalResult) : string * string * Z * string :=
  (rres_policy_id r, rres_policy_version r, rres_source_sequence r, rres_source_index_fingerprint r).
Definition query_pins (q : RetrievalQuery) : string * string * Z * string :=
  (qry_policy_id q, qry_policy_version q, qry_source_sequence q, qry_source_index_fingerprint q).

Definition hit_owned (packages : gmap string RetentionPackage) (h : RetrievalHit) : bool :=
  match packages !! hit_package_id h with
  | Some p => package_fingerprint p ==? hit_package_content_fingerprint h
  | None => false
  end.

Definition check_retrieval_result (s : InquiryState) (r : RetrievalResult) : result unit :=
  q ← or_raise (dict_by qry_id (retrieval_queries s) !! rres_query_id r) KeyError (rres_query_id r);
  refuse (result_pins r !=? query_pins q) "retrieval result must preserve its exact query source pins";;
  refuse (negb (mem (query_policy_key q) (map policy_key (retrieval_policies s))))
    "retrieval query must preserve its resolved policy snapshot";;
  refuse (st_sequence s <=? qry_source_sequence q)%Z
    "retrieval query source must precede its completion event";;
  refuse (negb (forallb (hit_owned (dict_by pkg_id (retention_packages s))) (rres_hits r)))
    "retrieval hit must pin an owned retention package version".

Definition check_retrievals (s : InquiryState) : result unit :=
  refuse (negb (same_set (map rres_query_id (retrieval_results s)) (map qry_id (retrieval_queries s))))
    "each retrieval query must have exactly one persisted result";;
  refuse (negb (length (retrieval_results s) =? length (retrieval_queries s))%nat)
    "retrieval query/result cardinality must remain one-to-one";;
  for_each (check_retrieval_result s) (retrieval_results s);;
  refuse (negb (same_set (map query_policy_key (retrieval_queries s))
                         (map policy_key (retrieval_policies s))))
    "folded retrieval policies must be exact snapshots used by queries".

(** ** Reacquisition and recovery *)

(** The four pins a request shares with its parent's context. *)
Definition pins_in_context (p : RecoveryPins) (c : InquiryContext) : bool :=
  (pins_scope_fingerprint p ==? ctx_scope_fingerprint c)
  && (pins_binding_revision p ==? ctx_binding_revision c)
  && (pins_protected_horizon_id p ==? ctx_protected_horizon_id c)
  && (Some (pins_finite_universe_hash p) ==? ctx_finite_universe_hash c).

(** One package owns the scaffold, the protocol and the route that joins them. *)
Definition retained_route_owned (s : InquiryState) (p : RetentionPackage) (protocol scaffold : string) : bool :=
  mem scaffold (pkg_scaffold_ids p) && mem protocol (pkg_recovery_protocol_ids p)
  && existsb (λ r, mem (pinned_id r) (pkg_reacquisition_route_ids p)
                   && (rar_recovery_protocol_id r ==? protocol)
                   && (rar_reacquisition_scaffold_id r ==? scaffold)) (reacquisition_routes s).

Definition retained_request_owned (s : InquiryState) (r : ReacquisitionRequest) (protocol : string) : bool :=
  match rreq_retention_package_id r with
  | None => true
  | Some package =>
    match dict_by pkg_id (retention_packages s) !! package,
          dict_by scf_id (reacquisition_scaffolds s) !! default "" (rreq_scaffold_id r) with
    | Some p, Some scaffold => retained_route_owned s p protocol (scf_id scaffold)
    | _, _ => false
    end
  end.

Definition check_reacquisition_request (s : InquiryState) (c : InquiryContext) (r : ReacquisitionRequest) :
    result unit :=
  refuse (Some (rreq_parent_inquiry_id r) !=? st_inquiry_id s)
    "reacquisition request parent must be this inquiry";;
  refuse (negb (pins_in_context (rreq_pins r) c))
    "reacquisition request pins must match its parent context";;
  match dict_by rpt_id (recovery_protocols s) !! pins_recovery_protocol_id (rreq_pins r) with
  | None => raise ValidationError "reacquisition request requires an owned protocol version"
  | Some p =>
    refuse (rpt_version p !=? pins_recovery_protocol_version (rreq_pins r))
      "reacquisition request requires an owned protocol version";;
    refuse (protocol_pins p !=? rreq_pins r)
      "reacquisition request pins must equal its recovery protocol";;
    refuse (negb (retained_request_owned s r (rpt_id p)))
      "retained reacquisition must use one package-owned scaffold/protocol"
  end.

Definition check_requests (s : InquiryState) : result unit :=
  refuse (negb (uniq (map rreq_child_inquiry_id (reacquisition_requests s))))
    "each reacquisition request must own a distinct child inquiry";;
  match st_context s with
  | Some c => for_each (check_reacquisition_request s c) (reacquisition_requests s)
  | None => Ok tt
  end.

Definition link_pins (l : ReacquisitionInquiryLink) : string * string * ArtifactRef * string :=
  (rlk_parent_inquiry_id l, rlk_child_inquiry_id l, rlk_child_manifest_artifact l, rlk_child_context_digest l).
Definition request_link_pins (r : ReacquisitionRequest) : string * string * ArtifactRef * string :=
  (rreq_parent_inquiry_id r, rreq_child_inquiry_id r, rreq_child_manifest_artifact r,
   rreq_child_context_digest r).

(** The loop over the links, with the dict it builds. *)
Fixpoint check_links (s : InquiryState) (seen : gmap string ReacquisitionInquiryLink)
    (l : list ReacquisitionInquiryLink) : result (gmap string ReacquisitionInquiryLink) :=
  match l with
  | [] => Ok seen
  | k :: l =>
    match dict_by rreq_id (reacquisition_requests s) !! rlk_request_id k with
    | None => raise ValidationError "reacquisition link must reference an owned request"
    | Some r =>
      refuse (is_some (seen !! rlk_request_id k))
        "a reacquisition request can link only one child inquiry";;
      refuse (link_pins k !=? request_link_pins r)
        "reacquisition link must preserve its exact request pins";;
      check_links s (<[rlk_request_id k := k]> seen) l
    end
  end.

(** [require_independent_check] *)
Definition require_independent_check (s : InquiryState) (reference : CheckReference)
    (proposition_id scope_fingerprint : string) : result unit :=
  match st_context s with
  | None => raise ValidationError "independent checks require an inquiry context"
  | Some c =>
    let verdict := resolve_check_reference reference (dict_by ev_id (evidence_records s))
                     (dict_by cv_id (checker_verdicts s)) proposition_id RELATION scope_fingerprint
                     (ctx_discharge_mechanism_ids c) in
    refuse (negb verdict.1) ("G2A record requires an independent valid check: " +:+ verdict.2)
  end.

Definition observation_pins (o : RecoveryObservation) : RecoveryBranch * string * option string * RecoveryPins :=
  (robs_branch o, robs_child_inquiry_id o, robs_retention_package_id o, robs_pins o).
Definition request_pins (r : ReacquisitionRequest) : RecoveryBranch * string * option string * RecoveryPins :=
  (rreq_branch r, rreq_child_inquiry_id r, rreq_retention_package_id r, rreq_pins r).

Definition check_observation (s : InquiryState) (o : RecoveryObservation) (r : ReacquisitionRequest)
    (k : ReacquisitionInquiryLink) : result unit :=
  refuse (observation_pins o !=? request_pins r)
    "recovery observation must preserve exact request pins";;
  refuse (robs_child_prefix_sequence o <? rlk_child_prefix_sequence k)%Z
    "recovery observation cannot precede the linked child prefix";;
  require_independent_check s (robs_measurement_check o) (measurement_proposition_id o)
    (pins_scope_fingerprint (robs_pins o));;
  refuse (negb (robs_competence_established o) && is_some (robs_competence_check o))
    "unsuccessful recovery cannot carry a competence check";;
  match robs_competence_check o with
  | Some c => require_independent_check s c (pins_target_competence_id (robs_pins o))
                (pins_scope_fingerprint (robs_pins o))
  | None => Ok tt
  end.

Fixpoint check_observations (s : InquiryState) (links : gmap string ReacquisitionInquiryLink)
    (seen : list string) (l : list RecoveryObservation) : result unit :=
  match l with
  | [] => Ok tt
  | o :: l =>
    match dict_by rreq_id (reacquisition_requests s) !! robs_reacquisition_request_id o,
          links !! robs_reacquisition_request_id o with
    | Some r, Some k =>
      refuse (mem (robs_reacquisition_request_id o) seen)
        "a reacquisition request can yield only one observation";;
      check_observation s o r k;;
      check_observations s links (robs_reacquisition_request_id o :: seen) l
    | _, _ => raise ValidationError "recovery observation requires a linked reacquisition child"
    end
  end.

(** The owned observations among the ids, in their order. *)
Definition observations_of (s : InquiryState) (ids : list string) : list RecoveryObservation :=
  omap (λ id, dict_by robs_id (recovery_observations s) !! id) ids.

(** The comparison derived anew from the owned observations. *)
Definition derived_comparison (s : InquiryState) (c : RecoveryComparison) : result RecoveryComparison :=
  let frontier f := derive_recovery_frontier (rfr_branch f) (rfr_pins f)
                      (observations_of s (rfr_source_observation_ids f)) in
  baseline ← frontier (rcmp_baseline_frontier c);
  retained ← frontier (rcmp_retained_frontier c);
  compare_recovery_frontiers (rcmp_id c) baseline retained (rcmp_comparison_check c).

Definition frontier_owned (s : InquiryState) (f : RecoveryFrontier) : bool :=
  (length (observations_of s (rfr_source_observation_ids f))
   =? length (rfr_source_observation_ids f))%nat.

Definition check_comparison (s : InquiryState) (c : RecoveryComparison) : result unit :=
  refuse (negb (frontier_owned s (rcmp_baseline_frontier c))
          || negb (frontier_owned s (rcmp_retained_frontier c)))
    "recovery comparison frontiers require owned observations";;
  expected ← match derived_comparison s c with
             | Ok e => Ok e
             | Raise x => if exn_class x ==? RecoveryCompatibilityError
                          then raise ValidationError "recovery comparison has incompatible exact pins"
                          else in_validator (Raise x)
             end;
  refuse (expected !=? c) "recovery comparison must equal its pure derived frontier check";;
  require_independent_check s (rcmp_comparison_check c) (comparison_proposition_id c)
    (pins_scope_fingerprint (rfr_pins (rcmp_baseline_frontier c))).

Definition check_recovery (s : InquiryState) : result unit :=
  check_requests s;;
  links ← check_links s ∅ (reacquisition_inquiry_links s);
  check_observations s links [] (recovery_observations s);;
  for_each (check_comparison s) (recovery_comparisons s).

(** ** Compression *)

Definition compression_identities (s : InquiryState) : list (list string) :=
  [map bcm_id (binding_carrier_manifests s); map rhd_id (realized_history_derivations s);
   map cct_id (compression_contracts s); map cvl_id (compression_validations s);
   map ecl_id (exact_compression_licenses s); map prs_id (path_residues s);
   map cap_id (compression_applications s); map rcl_id (recovery_licenses s);
   map rcap_id (retention_capability_links s); map rsd_id (representation_successor_decisions s);
   map rro_id (representation_reopenings s)].

Definition application_owned (s : InquiryState) (a : CompressionApplication) : bool :=
  mem (cap_license_id a) (map ecl_id (exact_compression_licenses s))
  && mem (cap_source_history_derivation_id a) (map rhd_id (realized_history_derivations s))
  && subset (cap_path_residue_ids a) (map prs_id (path_residues s)).

Definition check_compression (s : InquiryState) : result unit :=
  let manifests := map bcm_id (binding_carrier_manifests s) in
  let contracts := map cct_id (compression_contracts s) in
  let validations := map cvl_id (compression_validations s) in
  let applications := map cap_id (compression_applications s) in
  let packages := map pkg_id (retention_packages s) in
  refuse (negb (forallb uniq (compression_identities s)))
    "G3A record identities must be unique within their owner";;
  refuse (negb (forallb (λ c, mem (cct_carrier_manifest_id c) manifests) (compression_contracts s)))
    "compression contracts require an owned carrier manifest";;
  refuse (negb (forallb (λ d, mem (rhd_carrier_manifest_id d) manifests) (realized_history_derivations s)))
    "history derivations require an owned carrier manifest";;
  refuse (negb (forallb (λ v, mem (cvl_contract_id v) contracts) (compression_validations s)))
    "compression validations require an owned contract";;
  refuse (negb (forallb (λ l, mem (ecl_contract_id l) contracts && mem (ecl_validation_id l) validations)
                        (exact_compression_licenses s)))
    "exact licenses require an owned contract and validation";;
  refuse (negb (forallb (application_owned s) (compression_applications s)))
    "compression applications require owned license, history, and residue";;
  refuse (negb (forallb (λ l, mem (rcl_compression_application_id l) applications
                              && mem (rcl_retention_package_id l) packages) (recovery_licenses s)))
    "recovery licenses require owned application and package";;
  refuse (negb (forallb (λ k, mem (rcap_compression_application_id k) applications
                              && mem (rcap_recovery_license_id k) (map rcl_id (recovery_licenses s))
                              && mem (rcap_retention_package_id k) packages)
                        (retention_capability_links s)))
    "retention capability links require owned records".

(** ** Project governance *)

Definition project_identities (s : InquiryState) : list (list string) :=
  [map anc_id (project_anchors s); map lim_id (capability_limitations s);
   map qcc_id (question_contract_candidates s); map qrd_id (question_repertoire_decisions s);
   map mbc_id (method_binding_candidates s); map mad_id (method_admission_decisions s);
   map succ_id (capability_successor_candidates s); map frt_id (capability_frontiers s);
   map gcd_id (implementation_goal_candidates s); map gad_id (goal_admission_decisions s);
   map goal_id (implementation_goals s); map cem_id (candidate_environments s);
   map dev_id (development_evidence s); map rev_id (independent_reviews s);
   map psd_id (project_successor_decisions s); map prd_id (promotion_decisions s);
   map rcc_id (recursive_cycle_checkpoints s); map stop_id (recursive_stop_dispositions s)].

Definition goals_by_id (s : InquiryState) : gmap string ImplementationGoalContract :=
  dict_by goal_id (implementation_goals s).
Definition successors_by_id (s : InquiryState) : gmap string CapabilitySuccessorCandidate :=
  dict_by succ_id (capability_successor_candidates s).
Definition evidence_of (s : InquiryState) (ids : list string) : list DevelopmentEvidence :=
  omap (λ id, dict_by dev_id (development_evidence s) !! id) ids.

(** The limitation a Goal's candidate addresses. *)
Definition goal_limitation (s : InquiryState) (goal : string) : option string :=
  g ← goals_by_id s !! goal;
  succ_limitation_id <$> successors_by_id s !! goal_candidate_id g.

(** Every piece of evidence addresses the limitation. *)
Definition evidence_on_limitation (s : InquiryState) (limitation : string) (l : list DevelopmentEvidence) :
    bool :=
  forallb (λ e, goal_limitation s (dev_goal_id e) ==? Some limitation) l.

Definition passed (l : list DevelopmentEvidence) : bool :=
  forallb (λ e, dev_outcome e ==? EVIDENCE_PASS) l.

(** Some valid review names exactly this evidence. *)
Definition reviewed (s : InquiryState) (ids : list string) : bool :=
  existsb (λ r, (rev_outcome r ==? REVIEW_VALID) && (rev_evidence_ids r ==? ids)) (independent_reviews s).

Definition evidence_ids (s : InquiryState) : list string := map dev_id (development_evidence s).

Definition check_question_decision (s : InquiryState) (d : QuestionRepertoireDecision) : result unit :=
  let candidate := dict_by qcc_id (question_contract_candidates s) !! qrd_candidate_id d in
  let evidence := evidence_of s (qrd_evidence_ids d) in
  refuse (match candidate with
          | Some c => negb (evidence_on_limitation s (qcc_limitation_id c) evidence)
          | None => false
          end) "question decision evidence must address its exact limitation";;
  refuse ((qrd_outcome d ==? OUTCOME_ADMIT)
          && (match candidate with
              | Some c => qc_family (qcc_contract c) !=? "recursive-project"
              | None => true
              end || negb (passed evidence) || negb (reviewed s (qrd_evidence_ids d))))
    "question admission requires exact independently reviewed evidence".

Definition check_questions (s : InquiryState) : result unit :=
  refuse (negb (forallb (λ l, mem (lim_anchor_id l) (map anc_id (project_anchors s)))
                        (capability_limitations s)))
    "project limitations require an owned project anchor";;
  refuse (negb (forallb (λ c, mem (qcc_limitation_id c) (map lim_id (capability_limitations s)))
                        (question_contract_candidates s)))
    "question candidates require an owned project limitation";;
  refuse (negb (forallb (λ d, mem (qrd_candidate_id d) (map qcc_id (question_contract_candidates s))
                              && subset (qrd_evidence_ids d) (evidence_ids s))
                        (question_repertoire_decisions s)))
    "question decisions require owned candidates and evidence";;
  for_each (check_question_decision s) (question_repertoire_decisions s).

Definition check_method_decision (s : InquiryState) (d : MethodAdmissionDecision) : result unit :=
  let candidate := dict_by mbc_id (method_binding_candidates s) !! mad_candidate_id d in
  let evidence := evidence_of s (mad_evidence_ids d) in
  refuse (match candidate with
          | Some c => negb (evidence_on_limitation s (mbc_limitation_id c) evidence)
          | None => false
          end) "method decision evidence must address its exact limitation";;
  refuse ((mad_outcome d ==? OUTCOME_ADMIT)
          && (is_none candidate || negb (passed evidence) || negb (reviewed s (mad_evidence_ids d))))
    "method admission requires exact independently reviewed evidence";;
  refuse (match candidate with
          | Some c => (mad_outcome d ==? OUTCOME_ADMIT) && mbc_adapter_required c
                      && ((mad_implementation_goal_id d ≫= goal_limitation s)
                          !=? Some (mbc_limitation_id c))
          | None => false
          end) "method adapter admission requires an exact sealed Goal".

Definition check_methods (s : InquiryState) : result unit :=
  refuse (negb (forallb (λ c, mem (mbc_limitation_id c) (map lim_id (capability_limitations s)))
                        (method_binding_candidates s)))
    "method candidates require an owned project limitation";;
  refuse (negb (forallb (λ d, mem (mad_candidate_id d) (map mbc_id (method_binding_candidates s))
                              && subset (mad_evidence_ids d) (evidence_ids s)
                              && match mad_implementation_goal_id d with
                                 | Some g => mem g (map goal_id (implementation_goals s))
                                 | None => true
                                 end)
                        (method_admission_decisions s)))
    "method decisions require owned candidates, evidence, and Goals";;
  for_each (check_method_decision s) (method_admission_decisions s).

Definition frontier_owned_inputs (s : InquiryState) (f : CapabilityFrontier) : bool :=
  mem (frt_anchor_id f) (map anc_id (project_anchors s))
  && mem (frt_limitation_id f) (map lim_id (capability_limitations s))
  && subset (frt_candidate_ids f) (map succ_id (capability_successor_candidates s))
  && forallb (λ c, (succ_anchor_id c ==? frt_anchor_id f)
                   && (succ_limitation_id c ==? frt_limitation_id f))
       (omap (λ id, successors_by_id s !! id) (frt_candidate_ids f)).

Definition check_frontiers (s : InquiryState) : result unit :=
  refuse (negb (forallb (λ c, mem (succ_anchor_id c) (map anc_id (project_anchors s))
                              && mem (succ_limitation_id c) (map lim_id (capability_limitations s)))
                        (capability_successor_candidates s)))
    "project successor candidates require owned anchor and limitation";;
  refuse (negb (forallb (frontier_owned_inputs s) (capability_frontiers s)))
    "project frontiers require owned anchors, limitations, and candidates".

Definition check_goal_candidate (s : InquiryState) (c : ImplementationGoalCandidate) : result unit :=
  recomputed ← in_validator (compile_implementation_goal_candidate s (gcd_source_obligation_id c)
                               (gcd_downstream_obligation_id c) (gcd_frontier_id c));
  match recomputed with
  | GoalCompiled r => refuse (r !=? c) "implementation Goal candidate must equal pure compilation"
  | GoalUnknown _ => raise ValidationError "implementation Goal candidate must equal pure compilation"
  end.

Definition check_goal_decision (s : InquiryState) (d : GoalAdmissionDecision) : result unit :=
  refuse (match dict_by gcd_id (implementation_goal_candidates s) !! gad_candidate_id d with
          | None => true
          | Some c =>
            (gad_candidate_fingerprint d !=? goal_candidate_fingerprint c)
            || (gad_evidence_record_ids d !=? goal_admission_evidence_ids c)
            || ((gad_outcome d ==? OUTCOME_ADMIT)
                && (gad_admitted_goal_id d !=? Some (goal_id (gcd_goal c))))
          end) "Goal admission requires its exact owned candidate and evidence".

Definition goal_inputs_owned (s : InquiryState) (g : ImplementationGoalContract) : bool :=
  mem (goal_anchor_id g) (map anc_id (project_anchors s))
  && mem (goal_candidate_id g) (map succ_id (capability_successor_candidates s))
  && match dict_by frt_id (capability_frontiers s) !! goal_frontier_id g with
     | None => false
     | Some f => (frt_anchor_id f ==? goal_anchor_id g)
                 && (frt_selected_discriminator_candidate_id f ==? Some (goal_candidate_id g))
     end.

(** A Goal some candidate generated is the exact Goal of that candidate, admitted. *)
Definition goal_admitted (s : InquiryState) (g : ImplementationGoalContract) : bool :=
  match List.filter (λ c, goal_id (gcd_goal c) ==? goal_id g) (implementation_goal_candidates s) with
  | [] => true
  | [c] => (gcd_goal c ==? g)
           && existsb (λ d, (gad_candidate_id d ==? gcd_id c) && (gad_outcome d ==? OUTCOME_ADMIT)
                            && (gad_admitted_goal_id d ==? Some (goal_id g)))
                (goal_admission_decisions s)
  | _ => false
  end.

Definition check_goals (s : InquiryState) : result unit :=
  for_each (check_goal_candidate s) (implementation_goal_candidates s);;
  refuse (negb (uniq (map gad_candidate_id (goal_admission_decisions s))))
    "each Goal candidate permits one total admission decision";;
  for_each (check_goal_decision s) (goal_admission_decisions s);;
  refuse (negb (forallb (goal_inputs_owned s) (implementation_goals s)))
    "implementation goals require owned frontier inputs";;
  refuse (negb (forallb (goal_admitted s) (implementation_goals s)))
    "generated implementation Goals require exact admission".

(** The commit an environment's Goal starts from: the anchor of a sealed Goal is
    owned by the preceding check. *)
Definition goal_commit (s : InquiryState) (goal : string) : option string :=
  g ← goals_by_id s !! goal;
  anc_commit_sha <$> dict_by anc_id (project_anchors s) !! goal_anchor_id g.

Definition environment_of (s : InquiryState) (id : string) : option CandidateEnvironmentManifest :=
  dict_by cem_id (candidate_environments s) !! id.

Definition evidence_owned (s : InquiryState) (e : DevelopmentEvidence) : bool :=
  mem (dev_goal_id e) (map goal_id (implementation_goals s))
  && match environment_of s (dev_candidate_environment_id e) with
     | None => false
     | Some env => (cem_goal_id env ==? dev_goal_id e)
                   && (cem_base_commit_sha env ==? dev_base_commit_sha e)
     end.

Definition review_owned (s : InquiryState) (r : IndependentReview) : bool :=
  let evidence := evidence_of s (rev_evidence_ids r) in
  mem (rev_goal_id r) (map goal_id (implementation_goals s))
  && subset (rev_evidence_ids r) (evidence_ids s)
  && match environment_of s (rev_candidate_environment_id r) with
     | None => false
     | Some env => (cem_goal_id env ==? rev_goal_id r) && (cem_developer_id env !=? rev_reviewer_id r)
     end
  && forallb (λ e, (dev_goal_id e ==? rev_goal_id r)
                   && (dev_candidate_environment_id e ==? rev_candidate_environment_id r)) evidence
  && forallb (λ e, dev_candidate_commit_sha e ==? rev_reviewed_commit_sha r) evidence
  && ((rev_outcome r !=? REVIEW_VALID) || passed evidence).

Definition successor_decision_owned (s : InquiryState) (d : ProjectSuccessorDecision) : bool :=
  mem (psd_goal_id d) (map goal_id (implementation_goals s))
  && mem (psd_candidate_id d) (map succ_id (capability_successor_candidates s))
  && mem (psd_candidate_environment_id d) (map cem_id (candidate_environments s))
  && subset (psd_evidence_ids d) (evidence_ids s)
  && match dict_by rev_id (independent_reviews s) !! psd_review_id d with
     | None => false
     | Some r => (rev_goal_id r ==? psd_goal_id d)
                 && (rev_candidate_environment_id r ==? psd_candidate_environment_id d)
                 && (rev_evidence_ids r ==? psd_evidence_ids d)
     end.

Definition check_development (s : InquiryState) : result unit :=
  refuse (negb (forallb (λ e, goal_commit s (cem_goal_id e) ==? Some (cem_base_commit_sha e))
                        (candidate_environments s)))
    "candidate environments require an owned sealed goal";;
  refuse (negb (forallb (evidence_owned s) (development_evidence s)))
    "development evidence requires owned goal and candidate environment";;
  refuse (negb (forallb (review_owned s) (independent_reviews s)))
    "independent reviews require exact owned candidate evidence";;
  refuse (negb (forallb (successor_decision_owned s) (project_successor_decisions s)))
    "project successor decisions require their exact owned proof chain";;
  refuse (negb (forallb (λ p, mem (prd_successor_decision_id p) (map psd_id (project_successor_decisions s)))
                        (promotion_decisions s)))
    "promotion decisions require an owned project successor decision".

(** [list(CyclePhase).index(phase)] *)
Definition all_phases : list CyclePhase :=
  [ANCHORED; LIMITATION_RECORDED; BASIS_TESTED; FRONTIER_CONSTRUCTED; GOAL_SEALED; CANDIDATE_DEVELOPED;
   LOCALLY_VERIFIED; INDEPENDENTLY_REVIEWED; PR_VERIFIED; CYCLE_MERGED; POSTMERGE_VERIFIED; CYCLE_RETAINED].
Definition phase_index (p : CyclePhase) : nat :=
  default 0%nat (fst <$> list_find (p =.) all_phases).

(** The loop over the checkpoints, with the tail of each cycle. *)
Fixpoint check_cycles (tails : gmap string RecursiveCycleCheckpoint) (l : list RecursiveCycleCheckpoint) :
    result unit :=
  match l with
  | [] => Ok tt
  | c :: l =>
    match tails !! rcc_cycle_id c with
    | None => refuse (is_some (rcc_predecessor_id c)) "first cycle checkpoint cannot name a predecessor"
    | Some p => refuse ((rcc_predecessor_id c !=? Some (rcc_id p))
                        || (phase_index (rcc_phase c) <=? phase_index (rcc_phase p))%nat)
                  "cycle checkpoint history must be exact and monotone"
    end;;
    check_cycles (<[rcc_cycle_id c := c]> tails) l
  end.

Definition check_project (s : InquiryState) : result unit :=
  refuse (negb (forallb uniq (project_identities s)))
    "G3R record identities must be unique within their owner";;
  check_questions s;;
  check_methods s;;
  check_frontiers s;;
  check_goals s;;
  check_development s;;
  refuse (existsb (λ c, mem (rcc_id c) (rcc_record_ids c)
                        || negb (subset (rcc_record_ids c) (concat (project_identities s))))
                  (recursive_cycle_checkpoints s))
    "cycle checkpoints require owned project records";;
  check_cycles ∅ (recursive_cycle_checkpoints s);;
  refuse (negb (forallb (λ d, mem (stop_cycle_id d) (map rcc_cycle_id (recursive_cycle_checkpoints s))
                              && subset (stop_consequential_residual_ids d) (map lim_id (capability_limitations s)))
                        (recursive_stop_dispositions s)))
    "recursive stops require an owned cycle and limitation residue".

(** The blocks that follow the support checks, in their order. *)
Definition check_extensions (s : InquiryState) : result unit :=
  check_packages s;; check_retrievals s;; check_recovery s;; check_compression s;; check_project s.
