(* ===== verification/Lifecycle.v ===== *)
(** * The aggregate's validator: [src/rci/core/state.py]

    [validate_lifecycle] is the sequence of the checks the code makes of every
    state it builds, in order, one definition per block.  A [ValueError] raised
    inside the validator reaches the caller as a [ValidationError]. *)

From S2P Require Import Prelude Digest Dumps Memory Retrieval Recovery Learning Compression Questions Project Model Claims Warrant Support Policy Planning Backlog Effects Probes State Goals Extensions.

(** [f"{item.id}:{item.version}"] *)
Definition policy_key_text (p : StructuralRetrievalPolicy) : string := srp_id p +:+ ":" +:+ srp_version p.

(** ** [validate_lifecycle] *)

Definition has_started_fields (s : InquiryState) : bool :=
  is_some (st_inquiry_id s) || is_some (st_manifest_artifact s)
  || is_some (st_policy_version s) || is_some (st_context s).

Definition lacks_started_fields (s : InquiryState) : bool :=
  is_none (st_inquiry_id s) || is_none (st_manifest_artifact s)
  || is_none (st_policy_version s) || is_none (st_context s).

(** The collections of the extensions, without the Goal candidates and decisions,
    which the code does not list. *)
Definition has_extension_records (s : InquiryState) : bool :=
  negb (is_nil (direct_use_routes s)) || negb (is_nil (reconstruction_routes s))
  || negb (is_nil (consequence_evaluation_routes s)) || negb (is_nil (reacquisition_routes s))
  || negb (is_nil (reacquisition_scaffolds s)) || negb (is_nil (recovery_protocols s))
  || negb (is_nil (retention_packages s)) || negb (is_nil (retrieval_policies s))
  || negb (is_nil (retrieval_queries s)) || negb (is_nil (retrieval_results s))
  || negb (is_nil (reacquisition_requests s)) || negb (is_nil (reacquisition_inquiry_links s))
  || negb (is_nil (recovery_observations s)) || negb (is_nil (recovery_comparisons s))
  || negb (is_nil (consolidation_checkpoints s)) || negb (is_nil (consolidation_candidates s))
  || negb (is_nil (memory_patch_candidates s)) || negb (is_nil (reconsolidation_links s))
  || negb (is_nil (semantic_field_evaluations s)) || negb (is_nil (representation_gaps s))
  || negb (is_nil (learned_probe_candidates s)) || negb (is_nil (probe_evaluations s))
  || negb (is_nil (probe_admission_decisions s)) || negb (is_nil (binding_carrier_manifests s))
  || negb (is_nil (realized_history_derivations s)) || negb (is_nil (compression_contracts s))
  || negb (is_nil (compression_validations s)) || negb (is_nil (exact_compression_licenses s))
  || negb (is_nil (path_residues s)) || negb (is_nil (compression_applications s))
  || negb (is_nil (recovery_licenses s)) || negb (is_nil (retention_capability_links s))
  || negb (is_nil (representation_successor_decisions s)) || negb (is_nil (representation_reopenings s))
  || negb (is_nil (project_anchors s)) || negb (is_nil (capability_limitations s))
  || negb (is_nil (question_contract_candidates s)) || negb (is_nil (question_repertoire_decisions s))
  || negb (is_nil (method_binding_candidates s)) || negb (is_nil (method_admission_decisions s))
  || negb (is_nil (capability_successor_candidates s)) || negb (is_nil (capability_frontiers s))
  || negb (is_nil (implementation_goals s)) || negb (is_nil (candidate_environments s))
  || negb (is_nil (development_evidence s)) || negb (is_nil (independent_reviews s))
  || negb (is_nil (project_successor_decisions s)) || negb (is_nil (promotion_decisions s))
  || negb (is_nil (recursive_cycle_checkpoints s)) || negb (is_nil (recursive_stop_dispositions s)).

Definition has_domain_records (s : InquiryState) : bool :=
  negb (is_nil (claims s)) || negb (is_nil (conflicts s)) || negb (is_nil (obligations s))
  || negb (is_nil (obligation_dispositions s)) || negb (is_nil (candidates s))
  || negb (is_nil (residuals s)) || negb (is_nil (corrections s))
  || negb (is_nil (guard_changes s)) || negb (is_nil (nogoods s))
  || negb (is_nil (support_route_standing_changes s)) || negb (is_nil (nogood_standing_changes s))
  || negb (is_nil (evidence_records s)) || negb (is_nil (checker_verdicts s))
  || negb (is_nil (warrant_decisions s)) || negb (is_nil (lemma_versions s))
  || negb (is_nil (lemma_supports s)) || negb (is_nil (promotion_links s))
  || negb (is_nil (admitted_probes s)) || negb (is_nil (cognitive_plans s))
  || negb (is_nil (predictions s)) || negb (is_nil (probe_observations s))
  || negb (is_nil (reconstructions s)) || negb (is_nil (mismatches s))
  || negb (is_nil (semantic_deltas s)) || has_extension_records s.

Definition check_status (s : InquiryState) : result unit :=
  match st_status s with
  | NOT_STARTED =>
    raise_if (negb (st_sequence s =? 0)%Z || has_started_fields s)
      ValidationError "an unstarted inquiry cannot contain started state";;
    raise_if (negb (is_nil (backlog_effects s)) || negb (is_nil (step_plans s))
              || negb (is_nil (effect_requests s)))
      ValidationError "an unstarted inquiry cannot contain backlog effects, plans, or requests";;
    raise_if (has_domain_records s)
      ValidationError "an unstarted inquiry cannot contain domain records"
  | STATUS_ACTIVE =>
    raise_if (lacks_started_fields s)
      ValidationError "an active inquiry requires identity, manifest, and policy"
  end.

Definition check_effects (s : InquiryState) : result unit :=
  raise_if (negb (uniq (map ers_id (effect_requests s))))
    ValidationError "effect request ids must be unique";;
  raise_if (negb (uniq (map be_id (backlog_effects s))))
    ValidationError "backlog effect ids must be unique";;
  raise_if (negb (uniq (map plan_id (step_plans s))))
    ValidationError "step plan ids must be unique";;
  raise_if (existsb (λ r, negb (mem (req_step_plan_id (ers_request r)) (map plan_id (step_plans s))))
                    (effect_requests s))
    ValidationError "effect requests must reference owned step plans";;
  raise_if (negb (uniq (map att_id (all_attempts (effect_requests s)))))
    ValidationError "attempt ids must be unique within an inquiry";;
  raise_if (negb (uniq (captured_external_return_ids s)))
    ValidationError "external return ids must be unique within an inquiry";;
  raise_if (negb (uniq (recorded_decode_outcome_ids s)))
    ValidationError "decode outcome ids must be unique within an inquiry";;
  raise_if (negb (uniq (map (λ r, result_id (result_base r))
                          (omap accepted_result (effect_requests s)))))
    ValidationError "accepted result ids must be unique within an inquiry".

(** [identified_collections] *)
Definition identified_collections (s : InquiryState) : list (list string) :=
  [map claim_id (claims s); map conflict_id (conflicts s); map obl_id (obligations s);
   map disp_id (obligation_dispositions s); map cand_id (candidates s);
   map resid_id (residuals s); map corr_id (corrections s); map guard_id (guard_changes s);
   map ng_id (nogoods s); map rsc_id (support_route_standing_changes s);
   map nsc_id (nogood_standing_changes s); map ev_id (evidence_records s);
   map cv_id (checker_verdicts s); map wd_id (warrant_decisions s);
   map lv_id (lemma_versions s); map pl_id (promotion_links s);
   map cp_id (cognitive_plans s); map ps_id (predictions s); map pe_id (probe_observations s);
   map rc_id (reconstructions s); map mm_id (mismatches s); map sd_id (semantic_deltas s);
   map pinned_id (direct_use_routes s); map pinned_id (reconstruction_routes s);
   map pinned_id (consequence_evaluation_routes s); map pinned_id (reacquisition_routes s);
   map scf_id (reacquisition_scaffolds s); map rpt_id (recovery_protocols s);
   map pkg_id (retention_packages s); map policy_key_text (retrieval_policies s);
   map qry_id (retrieval_queries s); map rres_id (retrieval_results s);
   map rreq_id (reacquisition_requests s); map rlk_id (reacquisition_inquiry_links s);
   map robs_id (recovery_observations s); map rcmp_id (recovery_comparisons s);
   map ccp_id (consolidation_checkpoints s); map ccd_id (consolidation_candidates s);
   map mpc_id (memory_patch_candidates s); map rlink_id (reconsolidation_links s);
   map sfe_id (semantic_field_evaluations s); map gap_id (representation_gaps s);
   map lpc_id (learned_probe_candidates s); map pev_id (probe_evaluations s);
   map pad_id (probe_admission_decisions s)].

Definition check_identities (s : InquiryState) : result unit :=
  raise_if (negb (forallb uniq (identified_collections s)))
    ValidationError "domain record identities must be unique per owner";;
  raise_if (negb (uniq (map probe_fingerprint (admitted_probes s))))
    ValidationError "admitted recurrent probe identities must be unique".

Definition check_claims (s : InquiryState) : result unit :=
  raise_if (existsb (λ c, negb (subset [(conflict_claim_ids c).1; (conflict_claim_ids c).2]
                                       (map claim_id (claims s)))) (conflicts s))
    ValidationError "conflicts must reference recorded claims";;
  raise_if (existsb (λ d, negb (mem (disp_obligation_id d) (map obl_id (obligations s))))
                    (obligation_dispositions s))
    ValidationError "obligation dispositions must reference recorded obligations".

Definition attempt_key_matches (k : AttemptKey) (o : Obligation) : bool :=
  (key_obligation_fingerprint k ==? obligation_fingerprint o)
  && (key_binding_revision k ==? obl_binding_revision o).

(** The body of [for plan in self.step_plans]. *)
Definition check_step_plan (s : InquiryState) (plan : StepPlan) : result unit :=
  match st_context s with
  | None => raise ValidationError "step plan policy must match the inquiry context"
  | Some c =>
    raise_if (plan_policy_version plan !=? ctx_scheduler_policy_version c)
      ValidationError "step plan policy must match the inquiry context"
  end;;
  if plan_status plan !=? READY then Ok tt
  else
    match obligation_by_id s (default "" (plan_selected_obligation_id plan)),
          plan_selected_attempt_key plan with
    | Some o, Some k =>
      raise_if (negb (attempt_key_matches k o))
        ValidationError "step plan attempt key must match its exact obligation"
    | _, _ => raise ValidationError "ready step plans must select an owned obligation"
    end.

Definition check_lemmas (s : InquiryState) : result unit :=
  let version_ids := map lv_id (lemma_versions s) in
  let support_ids := map ls_lemma_version_id (lemma_supports s) in
  raise_if (negb (uniq support_ids))
    ValidationError "a lemma version can have only one authoritative support owner";;
  raise_if (negb (same_set version_ids support_ids)
            || negb (same_set version_ids (map pl_lemma_version_id (promotion_links s))))
    ValidationError "semantic versions, warrant support, and promotion links must align";;
  raise_if (negb (uniq (map route_id (all_routes (lemma_supports s)))))
    ValidationError "support-route identities must be unique within an inquiry";;
  lemmas ← warranted_lemmas s;
  raise_if (negb (support_graph_is_acyclic lemmas))
    ValidationError "active positive support topology must remain acyclic";;
  raise_if (negb (ancestry_is_acyclic (map (λ v, (lv_id v, lv_predecessor_refs v)) (lemma_versions s))))
    ValidationError "semantic version ancestry must remain owned and acyclic".

Definition verdict_pins_match (v : CheckerVerdictRecord) (e : Evidence) : bool :=
  (cv_evidence_artifact v ==? ev_artifact e) && (cv_proposition_id v ==? ev_proposition_id e)
  && (cv_proposition_kind v ==? ev_proposition_kind e)
  && (cv_scope_fingerprint v ==? ev_scope_fingerprint e).

Definition check_verdict (s : InquiryState) (v : CheckerVerdictRecord) : result unit :=
  match dict_by ev_id (evidence_records s) !! cv_evidence_id v with
  | None => raise ValidationError "checker verdicts must reference owned evidence"
  | Some e => raise_if (negb (verdict_pins_match v e))
                ValidationError "checker verdict pins must match their exact evidence record"
  end.

Definition decision_pins_match (d : WarrantDecisionRecord) (e : Evidence) (v : CheckerVerdictRecord) :
    bool :=
  (cv_evidence_id v ==? ev_id e) && (wd_proposition_id d ==? ev_proposition_id e)
  && (wd_proposition_kind d ==? ev_proposition_kind e)
  && (wd_scope_fingerprint d ==? ev_scope_fingerprint e)
  && (cv_proposition_id v ==? wd_proposition_id d)
  && (cv_proposition_kind v ==? wd_proposition_kind d)
  && (cv_scope_fingerprint v ==? wd_scope_fingerprint d).

Definition check_decision (s : InquiryState) (d : WarrantDecisionRecord) : result unit :=
  match dict_by ev_id (evidence_records s) !! wd_evidence_id d,
        dict_by cv_id (checker_verdicts s) !! wd_checker_verdict_id d with
  | Some e, Some v =>
    raise_if (negb (decision_pins_match d e v))
      ValidationError "warrant decision pins must match its evidence and checker record"
  | _, _ => raise ValidationError "warrant decisions must reference owned evidence and checks"
  end.

Definition reference_owned (s : InquiryState) (r : CheckReference) : bool :=
  is_some (dict_by ev_id (evidence_records s) !! ref_evidence_id r)
  && match dict_by cv_id (checker_verdicts s) !! ref_checker_verdict_id r with
     | Some v => cv_evidence_id v ==? ref_evidence_id r
     | None => false
     end.

Definition route_references (r : SupportRoute) : list CheckReference :=
  [route_certificate_check r; env_realizability_check (route_environment r)].

(** The policy of the support must be the policy of the decision. *)
Definition check_link (s : InquiryState) (l : PromotionLink) : result unit :=
  match dict_by ls_lemma_version_id (lemma_supports s) !! pl_lemma_version_id l,
        dict_by wd_id (warrant_decisions s) !! pl_warrant_decision_id l with
  | Some sup, Some d =>
    raise_if (ls_policy_version sup !=? wd_policy_version d)
      ValidationError "lemma support policy must match its exact warrant decision"
  | _, _ => raise KeyError (pl_lemma_version_id l)
  end.

Definition check_warrants (s : InquiryState) : result unit :=
  for_each (check_verdict s) (checker_verdicts s);;
  for_each (check_decision s) (warrant_decisions s);;
  raise_if (negb (forallb (reference_owned s)
                    (flat_map route_references (all_routes (lemma_supports s)))))
    ValidationError "support checks must reference owned evidence and verdicts";;
  raise_if (existsb (λ l, negb (mem (pl_warrant_decision_id l) (map wd_id (warrant_decisions s))))
                    (promotion_links s))
    ValidationError "promotion links must reference owned warrant decisions";;
  raise_if (existsb (λ l, negb (subset (pl_source_claim_ids l) (map claim_id (claims s))))
                    (promotion_links s))
    ValidationError "promotion links must preserve recorded source claims";;
  for_each (check_link s) (promotion_links s).

(** A standing history: each change extends the tail of its object's history
    and alternates its standing, which starts as standing. *)
Section standing_history.
Context {A : Type} (object change_id : A → string) (predecessor : A → option string)
        (standing : A → SupportStanding) (kind : string).

Definition check_change (owned : list string) (tails : gmap string A) (c : A) :
    result (gmap string A) :=
  raise_if (negb (mem (object c) owned))
    ValidationError (kind +:+ " standing changes must reference an owned record");;
  raise_if (predecessor c !=? (change_id <$> tails !! object c))
    ValidationError (kind +:+ " standing history must extend its exact tail");;
  raise_if (standing c ==? default STANDING (standing <$> tails !! object c))
    ValidationError (kind +:+ " standing histories must change standing");;
  Ok (<[object c := c]> tails).

Fixpoint check_history (owned : list string) (tails : gmap string A) (l : list A) : result unit :=
  match l with
  | [] => Ok tt
  | c :: l => tails ← check_change owned tails c; check_history owned tails l
  end.
End standing_history.

Definition check_route_history (s : InquiryState) : result unit :=
  check_history rsc_support_route_id rsc_id rsc_predecessor_id rsc_standing "support-route"
    (map route_id (all_routes (lemma_supports s))) ∅ (support_route_standing_changes s).

Definition check_nogood_history (s : InquiryState) : result unit :=
  check_history nsc_nogood_id nsc_id nsc_predecessor_id nsc_standing "nogood"
    (map ng_id (nogoods s)) ∅ (nogood_standing_changes s).

Definition nogood_in_support_class (n : Nogood) (c : InquiryContext) : bool :=
  (ng_scope_fingerprint n ==? ctx_scope_fingerprint c)
  && (ng_binding_revision n ==? ctx_binding_revision c)
  && (ng_finite_universe_hash n ==? ctx_finite_universe_hash c)
  && (ng_policy_version n ==? ctx_warrant_policy_version c).

Definition nogood_decision_matches (n : Nogood) (d : WarrantDecisionRecord) : bool :=
  (wd_warrant_class d ==? HARD) && (wd_evidence_id d ==? ref_evidence_id (ng_check n))
  && (wd_checker_verdict_id d ==? ref_checker_verdict_id (ng_check n))
  && (wd_proposition_id d ==? ng_id n) && (wd_proposition_kind d ==? EXISTENTIAL)
  && (wd_scope_fingerprint d ==? ng_scope_fingerprint n)
  && (wd_policy_version d ==? ng_policy_version n).

Definition check_nogood (s : InquiryState) (n : Nogood) : result unit :=
  raise_if (negb (reference_owned s (ng_check n)))
    ValidationError "nogoods must reference owned evidence and checker verdicts";;
  match dict_by wd_id (warrant_decisions s) !! ng_warrant_decision_id n with
  | None => raise ValidationError "nogoods require an exact owned hard warrant decision"
  | Some d => raise_if (negb (nogood_decision_matches n d))
                ValidationError "nogoods require an exact owned hard warrant decision"
  end;;
  match st_context s with
  | None => raise ValidationError "nogoods must match the inquiry's exact support class"
  | Some c => raise_if (negb (nogood_in_support_class n c))
                ValidationError "nogoods must match the inquiry's exact support class"
  end.

Definition check_delta (s : InquiryState) (d : SemanticDelta) : result unit :=
  raise_if (negb (mem (sd_reconstruction_id d) (map rc_id (reconstructions s))))
    ValidationError "semantic deltas must reference an owned reconstruction";;
  raise_if (existsb (λ c, negb (mem (wc_warrant_lemma_id c) (map lv_id (lemma_versions s))))
                    (sd_warranted_changes d))
    ValidationError "semantic changes must reference owned warranted lemmas".


Definition validate_lifecycle (s : InquiryState) : result unit :=
  check_status s;;
  check_effects s;;
  check_identities s;;
  check_learning s;;
  check_claims s;;
  for_each (check_step_plan s) (step_plans s);;
  check_lemmas s;;
  check_warrants s;;
  check_route_history s;;
  check_nogood_history s;;
  for_each (check_nogood s) (nogoods s);;
  for_each (check_delta s) (semantic_deltas s);;
  check_extensions s.

(** [advance]: the next sequence number, re-validated. *)
Definition advance (s : InquiryState) : result InquiryState :=
  let s' := next_sequence s in
  validate_lifecycle s';; Ok s'.
