(* ===== verification/Guards.v ===== *)
(** * The guards the command handlers share: [src/rci/core/transitions.py]

    Errors of the domain, the replay guard every handler opens with, and the
    two evidence checks of the memory and the project handlers. *)

From S2P Require Import Prelude Digest Dumps Memory Retrieval Recovery Learning Compression Questions Project Model Claims Warrant Support Effects Probes State Goals Extensions Lifecycle.

Definition invalid_command {A} (msg : string) : result A := raise InvalidCommandError msg.
Definition identity_conflict {A} (msg : string) : result A := raise IdentityConflictError msg.
Definition lifecycle_error {A} (msg : string) : result A := raise EffectLifecycleError msg.

(** [if c: raise InvalidCommandError(msg)] *)
Definition reject (c : bool) (msg : string) : result unit := raise_if c InvalidCommandError msg.
Definition reused (c : bool) (msg : string) : result unit := raise_if c IdentityConflictError msg.

(** [if existing is not None: if existing == record: return (); raise ...] *)
Definition unless_recorded {A B} (eqb : A → A → bool) (existing : option A) (record : A)
    (msg : string) (k : result (list B)) : result (list B) :=
  match existing with
  | Some x => if eqb x record then Ok [] else identity_conflict msg
  | None => k
  end.

(** [==] on records without JSON payloads *)
Definition same `{EqDecision A} (x y : A) : bool := x ==? y.

(** The replay guard on a collection of records with an identity. *)
Definition unless_owned `{EqDecision A} {B} (id : A → string) (l : list A) (record : A)
    (msg : string) (k : result (list B)) : result (list B) :=
  unless_recorded same (first (λ x, id x ==? id record) l) record msg k.

Definition current_active_lemma_ids (s : InquiryState) : result (list string) :=
  views ← active_theory s; Ok (map view_lemma_version_id views).

(** [_require_g2a_check] *)
Definition require_g2a_check (s : InquiryState) (reference : CheckReference)
    (proposition_id scope_fingerprint : string) : result unit :=
  match st_context s with
  | None => invalid_command "G2A checks require an inquiry context"
  | Some c =>
    let verdict := resolve_check_reference reference (dict_by ev_id (evidence_records s))
                     (dict_by cv_id (checker_verdicts s)) proposition_id RELATION scope_fingerprint
                     (ctx_discharge_mechanism_ids c) in
    reject (negb verdict.1) ("G2A record requires an independent valid check: " +:+ verdict.2)
  end.

(** [_require_project_admission_evidence] *)
Definition require_project_admission_evidence (s : InquiryState) (ids : list string) (limitation : string)
    (require_valid_review : bool) : result unit :=
  reject (negb (subset ids (evidence_ids s))) "repertoire decision requires owned development evidence";;
  let evidence := evidence_of s ids in
  reject (negb (evidence_on_limitation s limitation evidence))
    "repertoire evidence must address the exact limitation";;
  reject (require_valid_review && negb (passed evidence)) "repertoire admission requires passing evidence";;
  reject (require_valid_review && negb (reviewed s ids))
    "repertoire admission requires exact independent review".

(** [dict[id]] inside the code's own [try] or after its guard. *)
Definition owned {A} (id : A → string) (l : list A) (k : string) (msg : string) : result A :=
  or_raise (first (λ x, id x ==? k) l) InvalidCommandError msg.
