(* ===== verification/Retention.v ===== *)
(** * Retention, retrieval and recovery commands: [src/rci/core/transitions.py]

    The memory handlers of [decide] and the branches of [evolve] that answer
    them: registering packages, structural retrieval, reacquisition requests and
    links, recovery observations and comparisons. *)

From S2P Require Import Prelude Digest Dumps Memory Retrieval Recovery Model Claims Warrant Support Effects Probes State Goals Extensions Lifecycle Guards.

Inductive RetentionCommand : Type :=
| RegisterRetentionPackage (registration : RetentionRegistration)
| RunRetrieval (result_id : string) (query : RetrievalQuery)
| RequestReacquisition (request : ReacquisitionRequest)
| LinkReacquisitionInquiry (link : ReacquisitionInquiryLink)
| RecordRecoveryObservation (observation : RecoveryObservation)
| RecordRecoveryComparison (comparison : RecoveryComparison).

Inductive RetentionEvent : Type :=
| RetentionPackageRegistered (registration : RetentionRegistration)
| RetrievalCompleted (policy : StructuralRetrievalPolicy) (query : RetrievalQuery) (res : RetrievalResult)
| ReacquisitionRequested (request : ReacquisitionRequest)
| ReacquisitionInquiryLinked (link : ReacquisitionInquiryLink)
| RecoveryObservationRecorded (observation : RecoveryObservation)
| RecoveryComparisonRecorded (comparison : RecoveryComparison).
#[export] Instance RetentionEvent_eq_dec : EqDecision RetentionEvent.
Proof. solve_decision. Defined.

Abbreviation retention_events := (result (list RetentionEvent)).

(** The registered package, exactly: the package and each of its records. *)
Definition exactly_owned (s : InquiryState) (package : RetentionPackage) (r : RetentionRegistration) : bool :=
  (package ==? reg_package r)
  && subset (reg_direct_use_routes r) (direct_use_routes s)
  && subset (reg_reconstruction_routes r) (reconstruction_routes s)
  && subset (reg_consequence_evaluation_routes r) (consequence_evaluation_routes s)
  && subset (reg_reacquisition_routes r) (reacquisition_routes s)
  && subset (reg_scaffolds r) (reacquisition_scaffolds s)
  && subset (reg_recovery_protocols r) (recovery_protocols s).

Definition shares_id `{PinnedRetentionRecord A} (owned proposed : list A) : bool :=
  intersects (map pinned_id owned) (map pinned_id proposed).

Definition reuses_owned_id (s : InquiryState) (r : RetentionRegistration) : bool :=
  shares_id (direct_use_routes s) (reg_direct_use_routes r)
  || shares_id (reconstruction_routes s) (reg_reconstruction_routes r)
  || shares_id (consequence_evaluation_routes s) (reg_consequence_evaluation_routes r)
  || shares_id (reacquisition_routes s) (reg_reacquisition_routes r)
  || shares_id (reacquisition_scaffolds s) (reg_scaffolds r)
  || shares_id (recovery_protocols s) (reg_recovery_protocols r).

Definition context_pins (c : InquiryContext) : string * string * string :=
  (ctx_scope_fingerprint c, ctx_binding_revision c, ctx_protected_horizon_id c).

Definition check_package_reference (s : InquiryState) (r : OwnedMemoryRef) : result unit :=
  records ← owned_memory_records s;
  verdict ← resolve_owned_memory_ref r records;
  reject (negb verdict.1)
    ("retention package has an invalid pre-existing reference: " +:+ verdict.2).

Definition decide_register_package (s : InquiryState) (r : RetentionRegistration) : retention_events :=
  match first (λ p, pkg_id p ==? pkg_id (reg_package r)) (retention_packages s) with
  | Some p => if exactly_owned s p r then Ok [] else identity_conflict "retention package identity was reused"
  | None =>
    reject (match st_context s with
            | None => true
            | Some c => pkg_pins (reg_package r) !=? context_pins c
            end) "retention package pins must match the inquiry context";;
    reject (reuses_owned_id s r) "a new retention package cannot take ownership of an existing route";;
    for_each (check_package_reference s) (pkg_owned_refs (reg_package r));;
    Ok [RetentionPackageRegistered r]
  end.

(** [except (KeyError, RetrievalConflictError, ValueError)] *)
Definition retrieval_error (k : exn_kind) : bool := (k ==? KeyError) || is_value_error k.

Definition decide_run_retrieval (s : InquiryState) (result_id : string) (q : RetrievalQuery) :
    retention_events :=
  match first (λ r, rres_id r ==? result_id) (retrieval_results s),
        first (λ x, qry_id x ==? qry_id q) (retrieval_queries s) with
  | None, None =>
    reject (negb (qry_source_sequence q =? st_sequence s)%Z)
      "retrieval query must pin the current committed sequence";;
    fingerprints ← owned_memory_fingerprints s;
    index ← structural_index_fingerprint (retention_packages s) fingerprints;
    reject (qry_source_index_fingerprint q !=? index)
      "retrieval query must pin the current structural index";;
    match policy ← resolve_structural_retrieval_policy (qry_policy_id q) (qry_policy_version q);
          res ← retrieve result_id q policy (retention_packages s) fingerprints;
          Ok (policy, res) with
    | Ok pr => Ok [RetrievalCompleted pr.1 q pr.2]
    | Raise x => if retrieval_error (exn_class x) then invalid_command (exn_message x) else Raise x
    end
  | Some r, Some x =>
    if (x ==? q) && (rres_query_id r ==? qry_id q) then Ok []
    else identity_conflict "retrieval query or result identity was reused"
  | _, _ => identity_conflict "retrieval query or result identity was reused"
  end.

(** The retained branch names one package that owns its scaffold and protocol. *)
Definition retained_reacquisition (s : InquiryState) (r : ReacquisitionRequest) (protocol : string) : bool :=
  match rreq_retention_package_id r with
  | None => true
  | Some package =>
    match first (λ p, pkg_id p ==? package) (retention_packages s), rreq_scaffold_id r with
    | Some p, Some scaffold => retained_route_owned s p protocol scaffold
    | _, _ => false
    end
  end.

Definition decide_request_reacquisition (s : InquiryState) (r : ReacquisitionRequest) : retention_events :=
  unless_owned rreq_id (reacquisition_requests s) r "reacquisition request identity was reused"
    (reused (mem (rreq_child_inquiry_id r) (map rreq_child_inquiry_id (reacquisition_requests s)))
       "reacquisition child inquiry identity was reused";;
     match st_context s with
     | None => invalid_command "reacquisition request must belong to this inquiry"
     | Some c =>
       reject (Some (rreq_parent_inquiry_id r) !=? st_inquiry_id s)
         "reacquisition request must belong to this inquiry";;
       reject (negb (pins_in_context (rreq_pins r) c))
         "reacquisition request pins differ from inquiry context"
     end;;
     match first (λ p, (rpt_id p ==? pins_recovery_protocol_id (rreq_pins r))
                       && (rpt_version p ==? pins_recovery_protocol_version (rreq_pins r)))
             (recovery_protocols s) with
     | None => invalid_command "reacquisition request requires an exact owned protocol"
     | Some p =>
       reject (protocol_pins p !=? rreq_pins r)
         "reacquisition request requires an exact owned protocol";;
       reject (negb (retained_reacquisition s r (rpt_id p)))
         "retained reacquisition requires one package-owned scaffold and protocol"
     end;;
     Ok [ReacquisitionRequested r]).

Definition decide_link_reacquisition (s : InquiryState) (k : ReacquisitionInquiryLink) : retention_events :=
  unless_owned rlk_id (reacquisition_inquiry_links s) k "reacquisition link identity was reused"
    (r ← owned rreq_id (reacquisition_requests s) (rlk_request_id k)
           "reacquisition link requires an owned request";
     reused (mem (rlk_request_id k) (map rlk_request_id (reacquisition_inquiry_links s)))
       "reacquisition request is already linked";;
     reject (link_pins k !=? request_link_pins r) "reacquisition link differs from its request pins";;
     Ok [ReacquisitionInquiryLinked k]).

Definition check_competence (s : InquiryState) (o : RecoveryObservation) : result unit :=
  match robs_competence_check o with
  | Some c => require_g2a_check s c (pins_target_competence_id (robs_pins o))
                (pins_scope_fingerprint (robs_pins o))
  | None => Ok tt
  end.

Definition decide_record_recovery_observation (s : InquiryState) (o : RecoveryObservation) :
    retention_events :=
  unless_owned robs_id (recovery_observations s) o "recovery observation identity was reused"
    match first (λ r, rreq_id r ==? robs_reacquisition_request_id o) (reacquisition_requests s),
          first (λ k, rlk_request_id k ==? robs_reacquisition_request_id o) (reacquisition_inquiry_links s) with
    | Some r, Some k =>
      reused (mem (robs_reacquisition_request_id o)
                (map robs_reacquisition_request_id (recovery_observations s)))
        "reacquisition request already has an observation";;
      reject (observation_pins o !=? request_pins r) "recovery observation differs from request pins";;
      reject (robs_child_prefix_sequence o <? rlk_child_prefix_sequence k)%Z
        "recovery observation predates its child linkage";;
      reject (negb (robs_competence_established o) && is_some (robs_competence_check o))
        "unsuccessful recovery cannot carry a competence check";;
      require_g2a_check s (robs_measurement_check o) (measurement_proposition_id o)
        (pins_scope_fingerprint (robs_pins o));;
      check_competence s o;;
      Ok [RecoveryObservationRecorded o]
    | _, _ => invalid_command "recovery observation requires a linked child inquiry"
    end.

Definition decide_record_recovery_comparison (s : InquiryState) (c : RecoveryComparison) : retention_events :=
  unless_owned rcmp_id (recovery_comparisons s) c "recovery comparison identity was reused"
    (reject (negb (frontier_owned s (rcmp_baseline_frontier c))
             || negb (frontier_owned s (rcmp_retained_frontier c)))
       "recovery comparison references an unknown observation";;
     expected ← match derived_comparison s c with
                | Ok e => Ok e
                | Raise x => if exn_class x ==? RecoveryCompatibilityError
                             then invalid_command (exn_message x) else Raise x
                end;
     reject (expected !=? c) "recovery comparison is not the exact derived result";;
     require_g2a_check s (rcmp_comparison_check c) (comparison_proposition_id c)
       (pins_scope_fingerprint (rfr_pins (rcmp_baseline_frontier c)));;
     Ok [RecoveryComparisonRecorded c]).

Definition decide_retention (s : InquiryState) (c : RetentionCommand) : retention_events :=
  match c with
  | RegisterRetentionPackage r => decide_register_package s r
  | RunRetrieval id q => decide_run_retrieval s id q
  | RequestReacquisition r => decide_request_reacquisition s r
  | LinkReacquisitionInquiry k => decide_link_reacquisition s k
  | RecordRecoveryObservation o => decide_record_recovery_observation s o
  | RecordRecoveryComparison c => decide_record_recovery_comparison s c
  end.

(** The command an event answers. *)
Definition retention_command (e : RetentionEvent) : RetentionCommand :=
  match e with
  | RetentionPackageRegistered r => RegisterRetentionPackage r
  | RetrievalCompleted _ q r => RunRetrieval (rres_id r) q
  | ReacquisitionRequested r => RequestReacquisition r
  | ReacquisitionInquiryLinked k => LinkReacquisitionInquiry k
  | RecoveryObservationRecorded o => RecordRecoveryObservation o
  | RecoveryComparisonRecorded c => RecordRecoveryComparison c
  end.

(** The records an event adds. *)
Definition retention_records (e : RetentionEvent) : RetentionLedger :=
  match e with
  | RetentionPackageRegistered r =>
    MkRetentionLedger (reg_direct_use_routes r) (reg_reconstruction_routes r)
      (reg_consequence_evaluation_routes r) (reg_reacquisition_routes r) (reg_scaffolds r)
      (reg_recovery_protocols r) [reg_package r] [] [] [] [] [] [] []
  | RetrievalCompleted p q r => MkRetentionLedger [] [] [] [] [] [] [] [p] [q] [r] [] [] [] []
  | ReacquisitionRequested r => MkRetentionLedger [] [] [] [] [] [] [] [] [] [] [r] [] [] []
  | ReacquisitionInquiryLinked k => MkRetentionLedger [] [] [] [] [] [] [] [] [] [] [] [k] [] []
  | RecoveryObservationRecorded o => MkRetentionLedger [] [] [] [] [] [] [] [] [] [] [] [] [o] []
  | RecoveryComparisonRecorded c => MkRetentionLedger [] [] [] [] [] [] [] [] [] [] [] [] [] [c]
  end.
