(* ===== verification/Consolidation.v ===== *)
(** * Consolidation and learned-probe commands: [src/rci/core/transitions.py]

    The learning handlers of [decide] and the branches of [evolve] that answer
    them: consolidation checkpoints and candidates, memory patches and their
    reconsolidation, semantic-field evaluations, representation gaps, and the
    admission of learned probes. *)

From S2P Require Import Prelude Digest Dumps Memory Retrieval Learning Model Claims Warrant Support Effects Probes State Goals Extensions Lifecycle Guards Retention.

Inductive LearningCommand : Type :=
| RecordConsolidationCheckpoint (checkpoint : ConsolidationCheckpoint)
| RecordConsolidationCandidate (candidate : ConsolidationCandidate)
| RecordMemoryPatchCandidate (candidate : MemoryPatchCandidate)
| RecordReconsolidationLink (link : ReconsolidationLink)
| RecordSemanticFieldEvaluation (evaluation : SemanticFieldEvaluation) (overflow_residual : option Residual)
| RecordRepresentationGap (gap : RepresentationGap)
| RecordLearnedProbeCandidate (candidate : LearnedProbeCandidate)
| RecordProbeEvaluation (evaluation : ProbeEvaluation)
| RecordProbeAdmissionDecision (decision : ProbeAdmissionDecision).

Inductive LearningEvent : Type :=
| ConsolidationCheckpointRecorded (checkpoint : ConsolidationCheckpoint)
| ConsolidationCandidateRecorded (candidate : ConsolidationCandidate)
| MemoryPatchCandidateRecorded (candidate : MemoryPatchCandidate)
| ReconsolidationLinked (link : ReconsolidationLink)
| SemanticFieldEvaluationRecorded (evaluation : SemanticFieldEvaluation) (overflow_residual : option Residual)
| RepresentationGapRecorded (gap : RepresentationGap)
| LearnedProbeCandidateRecorded (candidate : LearnedProbeCandidate)
| ProbeEvaluationRecorded (evaluation : ProbeEvaluation)
| ProbeAdmissionDecisionRecorded (decision : ProbeAdmissionDecision).

Definition option_eqb {A} (eqb : A → A → bool) (x y : option A) : bool :=
  match x, y with Some a, Some b => eqb a b | None, None => true | _, _ => false end.

(** Python's [==] on the events: payloads compare as JSON values. *)
Definition learning_event_eqb (x y : LearningEvent) : bool :=
  match x, y with
  | ConsolidationCheckpointRecorded a, ConsolidationCheckpointRecorded b => a ==? b
  | ConsolidationCandidateRecorded a, ConsolidationCandidateRecorded b => a ==? b
  | MemoryPatchCandidateRecorded a, MemoryPatchCandidateRecorded b => a ==? b
  | ReconsolidationLinked a, ReconsolidationLinked b => a ==? b
  | SemanticFieldEvaluationRecorded a r, SemanticFieldEvaluationRecorded b q =>
    (a ==? b) && option_eqb residual_eqb r q
  | RepresentationGapRecorded a, RepresentationGapRecorded b => a ==? b
  | LearnedProbeCandidateRecorded a, LearnedProbeCandidateRecorded b => learned_probe_eqb a b
  | ProbeEvaluationRecorded a, ProbeEvaluationRecorded b => a ==? b
  | ProbeAdmissionDecisionRecorded a, ProbeAdmissionDecisionRecorded b => a ==? b
  | _, _ => false
  end.

Abbreviation learning_events := (result (list LearningEvent)).

Definition in_context (s : InquiryState) (pins : string * string * string) : bool :=
  match st_context s with Some c => pins ==? context_pins c | None => false end.

Definition all_open (s : InquiryState) (ids : list string) : bool :=
  forallb (λ id, current_obligation_status s id ==? Some OPEN) ids.
Definition all_satisfied (s : InquiryState) (ids : list string) : bool :=
  forallb (λ id, current_obligation_status s id ==? Some SATISFIED) ids.

Definition checkpoint_pins (c : ConsolidationCheckpoint) : string * string * string :=
  (ccp_scope_fingerprint c, ccp_binding_revision c, ccp_protected_horizon_id c).

Definition decide_consolidation_checkpoint (s : InquiryState) (c : ConsolidationCheckpoint) : learning_events :=
  unless_owned ccp_id (consolidation_checkpoints s) c "consolidation checkpoint identity was reused"
    (reject (negb (in_context s (checkpoint_pins c)))
       "consolidation checkpoint pins differ from inquiry context";;
     expected ← select_consolidation_checkpoint (ccp_id c) (st_sequence s) (ccp_scope_fingerprint c)
                  (ccp_binding_revision c) (ccp_protected_horizon_id c) (probe_observations s) (claims s)
                  (conflicts s) (mismatches s) (effect_requests s);
     reject (c !=? expected) "consolidation checkpoint is not the exact policy selection";;
     Ok [ConsolidationCheckpointRecorded c]).

Definition decide_consolidation_candidate (s : InquiryState) (c : ConsolidationCandidate) : learning_events :=
  unless_owned ccd_id (consolidation_candidates s) c "consolidation candidate identity was reused"
    (let boundary := ccd_boundary c in
     reject ((ccp_status <$> first (λ k, ccp_id k ==? ccd_checkpoint_id c) (consolidation_checkpoints s))
             !=? Some CONSOLIDATION_READY) "consolidation requires a ready checkpoint";;
     match claim_by_id s (ccd_generalization_claim_id c) with
     | None => invalid_command "consolidation output must be an ordinary generalization claim"
     | Some claim =>
       reject (claim_role claim !=? GENERALIZATION)
         "consolidation output must be an ordinary generalization claim";;
       reject ((csb_scope boundary !=? claim_scope claim)
               || (Some (scope_fingerprint (csb_scope boundary)) !=? (ctx_scope_fingerprint <$> st_context s)))
         "consolidation boundary must preserve exact claim scope"
     end;;
     reject (negb (all_open s (ccd_challenge_obligation_ids c ++ csb_open_dependency_obligation_ids boundary)))
       "consolidation challenges and dependencies must be open";;
     Ok [ConsolidationCandidateRecorded c]).

(** The dependencies of the predecessor's routes the patch names. *)
Definition patch_dependencies (p : MemoryPatchCandidate) (support : LemmaSupport) : list string :=
  flat_map route_required_dependency_ids
    (List.filter (λ r, mem (route_id r) (mpc_predecessor_support_route_ids p)) (all_support_routes support)).

(** A transported dependency, or an exact hard decision on a discharged one. *)
Definition dependency_discharged (s : InquiryState) (d : DependencyDisposition) : bool :=
  (dd_kind d ==? TRANSPORTED)
  || match dict_by wd_id (warrant_decisions s) !! default "" (dd_warrant_decision_id d),
           dict_by lv_id (lemma_versions s) !! dd_dependency_id d with
     | Some w, Some v =>
       (wd_warrant_class w ==? HARD) && (wd_proposition_id w ==? lv_relation_id v)
       && (wd_scope_fingerprint w ==? scope_fingerprint (lv_scope v))
     | _, _ => false
     end.

Definition check_patch_support (s : InquiryState) (p : MemoryPatchCandidate) (v : LemmaVersion) : result unit :=
  match first (λ x, ls_lemma_version_id x ==? lv_id v) (lemma_supports s) with
  | None => invalid_command "memory patch support routes are not owned by its predecessor"
  | Some support =>
    reject (negb (subset (mpc_predecessor_support_route_ids p) (map route_id (all_support_routes support))))
      "memory patch support routes are not owned by its predecessor";;
    reject (negb (same_set (map dd_dependency_id (mpc_dependency_dispositions p)) (patch_dependencies p support)))
      "memory patch must explicitly transport or discharge every dependency"
  end;;
  reject (negb (forallb (λ kd, dependency_discharged s kd.2)
                  (map_to_list (dict_by dd_dependency_id (mpc_dependency_dispositions p)))))
    "dependency discharge requires an exact hard decision".

Definition decide_memory_patch (s : InquiryState) (p : MemoryPatchCandidate) : learning_events :=
  unless_owned mpc_id (memory_patch_candidates s) p "memory patch identity was reused"
    match first (λ v, lv_id v ==? mpc_target_lemma_id p) (lemma_versions s) with
    | None => invalid_command "memory patch requires an active predecessor lemma"
    | Some v =>
      active ← current_active_lemma_ids s;
      reject (negb (mem (lv_id v) active)) "memory patch requires an active predecessor lemma";;
      reject ((mm_external_return_id <$> first (λ m, mm_id m ==? mpc_triggering_mismatch_id p) (mismatches s))
              !=? Some (mpc_triggering_return_id p)) "memory patch must pin its exact mismatch and return";;
      reject (((λ c, scope_fingerprint (claim_scope c)) <$> claim_by_id s (mpc_proposed_claim_id p))
              !=? Some (mpc_scope_fingerprint p)) "memory patch must name an owned in-scope proposed claim";;
      check_patch_support s p v;;
      reject (negb (all_open s (mpc_challenge_obligation_ids p))) "memory patch challenges must remain open";;
      Ok [MemoryPatchCandidateRecorded p]
    end.

Definition check_succession (s : InquiryState) (k : ReconsolidationLink) (p : MemoryPatchCandidate)
    (predecessor successor : LemmaVersion) (c : Correction) : result unit :=
  reject ((mpc_target_lemma_id p !=? lv_id predecessor)
          || negb (mem (lv_id predecessor) (lv_predecessor_refs successor)))
    "reconsolidation successor must preserve predecessor ancestry";;
  reject ((corr_target_id c !=? lv_id predecessor) || negb (mem (lv_id successor) (corr_related_ids c)))
    "reconsolidation correction must link predecessor to successor";;
  reject ((pl_warrant_decision_id
             <$> first (λ l, pl_lemma_version_id l ==? rlink_successor_lemma_id k) (promotion_links s))
          !=? Some (rlink_warrant_decision_id k))
    "reconsolidation successor requires its exact promotion warrant";;
  reject (negb (all_satisfied s (mpc_challenge_obligation_ids p)))
    "reconsolidation cannot apply before all attacks are discharged".

Definition decide_reconsolidation_link (s : InquiryState) (k : ReconsolidationLink) : learning_events :=
  unless_owned rlink_id (reconsolidation_links s) k "reconsolidation link identity was reused"
    match first (λ p, mpc_id p ==? rlink_memory_patch_id k) (memory_patch_candidates s),
          first (λ v, lv_id v ==? rlink_predecessor_lemma_id k) (lemma_versions s),
          first (λ v, lv_id v ==? rlink_successor_lemma_id k) (lemma_versions s),
          first (λ c, corr_id c ==? rlink_correction_id k) (corrections s) with
    | Some p, Some predecessor, Some successor, Some c =>
      check_succession s k p predecessor successor c;;
      Ok [ReconsolidationLinked k]
    | _, _, _, _ => invalid_command "reconsolidation link requires owned patch and succession records"
    end.

(** The scope of the inquiry's context, as the handler builds it. *)
Definition context_scope (c : InquiryContext) : Scope :=
  MkScope (ctx_scope_id c) (ctx_binding_revision c) (ctx_assumption_ids c) (ctx_guard_condition_id c)
    (ctx_finite_universe_hash c) (ctx_closed_world c).

(** The ids of the active versions; without versions the theory is not selected. *)
Definition active_version_ids (s : InquiryState) : result (list string) :=
  if is_nil (lemma_versions s) then Ok [] else current_active_lemma_ids s.

(** An irrelevant item names an active version that states its null consequence. *)
Definition irrelevance_warranted (s : InquiryState) (active : list string) (i : SemanticItem) : bool :=
  (si_relevance i !=? IRRELEVANT)
  || ((lv_relation_id <$> dict_by lv_id (List.filter (λ v, mem (lv_id v) active) (lemma_versions s))
                            !! default "" (si_irrelevance_warrant_id i))
      ==? Some ("consequence-null:" +:+ si_structure_id i)).

Definition decide_semantic_field (s : InquiryState) (e : SemanticFieldEvaluation) (r : option Residual) :
    learning_events :=
  unless_owned sfe_id (semantic_field_evaluations s) e "semantic-field evaluation identity was reused"
    (reject (negb (sfe_source_sequence e =? st_sequence s)%Z)
       "semantic-field evaluation must pin current source sequence";;
     expected ← evaluate_conservative_field (sfe_id e) (sfe_field e) (sfe_source_sequence e)
                  (sfe_source_index_fingerprint e) (sfe_probe_fingerprint e)
                  (sfe_required_structure_ids e) (sfe_overflow_structure_ids e);
     reject (expected !=? e) "semantic-field diagnostic is not exactly recomputed";;
     c ← or_raise (st_context s) InvalidCommandError "semantic-field evaluation requires inquiry context";
     validate_scope (context_scope c);;
     residual ← semantic_field_overflow_residual e (context_scope c);
     reject (negb (option_eqb residual_eqb r residual))
       "semantic-field overflow must preserve its exact residual";;
     active ← active_version_ids s;
     reject (negb (forallb (irrelevance_warranted s active) (sf_items (sfe_field e))))
       "irrelevance requires an active exact hard consequence-null lemma";;
     Ok [SemanticFieldEvaluationRecorded e r]).

Definition gap_pins (g : RepresentationGap) : string * string * string :=
  (gap_scope_fingerprint g, gap_binding_revision g, gap_protected_horizon_id g).
Definition probe_pins (p : ProbeIdentity) : string * string * string :=
  (pi_scope_fingerprint p, pi_binding_revision p, pi_protected_horizon_id p).

Definition decide_representation_gap (s : InquiryState) (g : RepresentationGap) : learning_events :=
  unless_owned gap_id (representation_gaps s) g "representation-gap identity was reused"
    (reject (negb (in_context s (gap_pins g))) "representation gap pins differ from inquiry context";;
     reject (is_none (obligation_by_id s (gap_obligation_id g)))
       "representation gap requires an owned obligation";;
     reject (negb (subset (gap_failed_probe_fingerprints g) (map probe_fingerprint (admitted_probes s))))
       "representation gap references a probe not admitted by policy";;
     Ok [RepresentationGapRecorded g]).

Definition probe_candidate_by_id (s : InquiryState) (id : string) : option LearnedProbeCandidate :=
  first (λ c, lpc_id c ==? id) (learned_probe_candidates s).

Definition decide_learned_probe_candidate (s : InquiryState) (c : LearnedProbeCandidate) : learning_events :=
  unless_recorded learned_probe_eqb (probe_candidate_by_id s (lpc_id c)) c
    "learned-probe candidate identity was reused"
    (reject (negb (mem (lpc_representation_gap_id c) (map gap_id (representation_gaps s)))
             || negb (in_context s (probe_pins (lpc_probe_identity c))))
       "learned-probe candidate requires an exact owned gap and context";;
     reject (negb (all_open s (lpc_challenge_obligation_ids c)))
       "learned-probe attacks must be open obligations";;
     Ok [LearnedProbeCandidateRecorded c]).

Definition decide_probe_evaluation (s : InquiryState) (e : ProbeEvaluation) : learning_events :=
  unless_owned pev_id (probe_evaluations s) e "probe-evaluation identity was reused"
    (candidate ← or_raise (probe_candidate_by_id s (pev_candidate_probe_id e)) InvalidCommandError
                   "probe evaluation requires an owned candidate";
     expected ← build_probe_evaluation (pev_id e) (pev_candidate_probe_id e) (pev_samples e)
                  (pev_redundancy_check e) (pev_protected_behavior_check e);
     reject (expected !=? e) "probe evaluation is not the exact deterministic result";;
     reject (negb (subset (pev_training_observation_ids e ++ pev_holdout_observation_ids e)
                     (map pe_id (probe_observations s))))
       "probe evaluation references unknown observations";;
     for_each (λ r, require_g2a_check s r (pev_evaluation_proposition_id e)
                      (pi_scope_fingerprint (lpc_probe_identity candidate)))
       [pev_redundancy_check e; pev_protected_behavior_check e];;
     Ok [ProbeEvaluationRecorded e]).

(** The admission policy: all attacks met, gains on both parts, no protected error. *)
Definition probe_qualifies (s : InquiryState) (c : LearnedProbeCandidate) (e : ProbeEvaluation) : bool :=
  all_satisfied s (lpc_challenge_obligation_ids c)
  && (0 <? pev_training_discrimination_gain e)%Z && (0 <? pev_holdout_discrimination_gain e)%Z
  && (pev_protected_error_count e =? 0)%Z.

Definition decide_probe_admission (s : InquiryState) (d : ProbeAdmissionDecision) : learning_events :=
  unless_owned pad_id (probe_admission_decisions s) d "probe-admission decision identity was reused"
    match probe_candidate_by_id s (pad_candidate_probe_id d),
          first (λ e, pev_id e ==? pad_evaluation_id d) (probe_evaluations s) with
    | Some c, Some e =>
      reject (pev_candidate_probe_id e !=? lpc_id c)
        "probe admission requires its exact candidate evaluation";;
      reject ((pad_outcome d ==? PROBE_ADMIT) && negb (probe_qualifies s c e))
        "learned probe does not satisfy controller admission policy";;
      reused ((pad_outcome d ==? PROBE_ADMIT)
              && mem (probe_fingerprint (lpc_probe_identity c)) (map probe_fingerprint (admitted_probes s)))
        "learned probe identity is already admitted";;
      Ok [ProbeAdmissionDecisionRecorded d]
    | _, _ => invalid_command "probe admission requires its exact candidate evaluation"
    end.

Definition decide_learning (s : InquiryState) (c : LearningCommand) : learning_events :=
  match c with
  | RecordConsolidationCheckpoint c => decide_consolidation_checkpoint s c
  | RecordConsolidationCandidate c => decide_consolidation_candidate s c
  | RecordMemoryPatchCandidate p => decide_memory_patch s p
  | RecordReconsolidationLink k => decide_reconsolidation_link s k
  | RecordSemanticFieldEvaluation e r => decide_semantic_field s e r
  | RecordRepresentationGap g => decide_representation_gap s g
  | RecordLearnedProbeCandidate c => decide_learned_probe_candidate s c
  | RecordProbeEvaluation e => decide_probe_evaluation s e
  | RecordProbeAdmissionDecision d => decide_probe_admission s d
  end.

(** The command an event answers. *)
Definition learning_command (e : LearningEvent) : LearningCommand :=
  match e with
  | ConsolidationCheckpointRecorded c => RecordConsolidationCheckpoint c
  | ConsolidationCandidateRecorded c => RecordConsolidationCandidate c
  | MemoryPatchCandidateRecorded p => RecordMemoryPatchCandidate p
  | ReconsolidationLinked k => RecordReconsolidationLink k
  | SemanticFieldEvaluationRecorded e r => RecordSemanticFieldEvaluation e r
  | RepresentationGapRecorded g => RecordRepresentationGap g
  | LearnedProbeCandidateRecorded c => RecordLearnedProbeCandidate c
  | ProbeEvaluationRecorded e => RecordProbeEvaluation e
  | ProbeAdmissionDecisionRecorded d => RecordProbeAdmissionDecision d
  end.

(** The records an event adds to the learning ledger... *)
Definition learning_records (e : LearningEvent) : LearningLedger :=
  match e with
  | ConsolidationCheckpointRecorded c => MkLearningLedger [c] [] [] [] [] [] [] [] []
  | ConsolidationCandidateRecorded c => MkLearningLedger [] [c] [] [] [] [] [] [] []
  | MemoryPatchCandidateRecorded p => MkLearningLedger [] [] [p] [] [] [] [] [] []
  | ReconsolidationLinked k => MkLearningLedger [] [] [] [k] [] [] [] [] []
  | SemanticFieldEvaluationRecorded e _ => MkLearningLedger [] [] [] [] [e] [] [] [] []
  | RepresentationGapRecorded g => MkLearningLedger [] [] [] [] [] [g] [] [] []
  | LearnedProbeCandidateRecorded c => MkLearningLedger [] [] [] [] [] [] [c] [] []
  | ProbeEvaluationRecorded e => MkLearningLedger [] [] [] [] [] [] [] [e] []
  | ProbeAdmissionDecisionRecorded d => MkLearningLedger [] [] [] [] [] [] [] [] [d]
  end.

(** ... to the residuals ... *)
Definition overflow_residuals (e : LearningEvent) : list Residual :=
  match e with SemanticFieldEvaluationRecorded _ (Some r) => [r] | _ => [] end.

(** ... and to the admitted probes: the probe of the admitted candidate. *)
Definition learned_probes (s : InquiryState) (e : LearningEvent) : list ProbeIdentity :=
  match e with
  | ProbeAdmissionDecisionRecorded d =>
    match probe_candidate_by_id s (pad_candidate_probe_id d) with
    | Some c => if pad_outcome d ==? PROBE_ADMIT then [lpc_probe_identity c] else []
    | None => []
    end
  | _ => []
  end.

(** [next(...)] of the admission's branch. *)
Definition admission_candidate_exists (s : InquiryState) (e : LearningEvent) : result unit :=
  match e with
  | ProbeAdmissionDecisionRecorded d =>
    raise_if (is_none (probe_candidate_by_id s (pad_candidate_probe_id d))) StopIteration ""
  | _ => Ok tt
  end.
