(* ===== verification/Licensing.v ===== *)
(** * Compression commands: [src/rci/core/transitions.py]

    The exact-compression handlers of [decide] and the branches of [evolve] that
    answer them: carrier manifests, realized histories, contracts and their
    validations, licenses, applications with their residues, recovery licenses,
    succession of representations and their reopening. *)

From S2P Require Import Prelude Digest Dumps Memory Retrieval Compression Model Claims Warrant Support Effects Probes State Goals Extensions Lifecycle Guards Retention.

Inductive CompressionCommand : Type :=
| RegisterBindingCarrierManifest (manifest : BindingCarrierManifest)
| RecordRealizedHistoryDerivation (derivation : RealizedHistoryDerivation)
| RegisterCompressionContract (contract : CompressionContract)
| RecordCompressionValidation (validation : CompressionValidation)
| GrantExactCompressionLicense (license : ExactCompressionLicense)
| RecordCompressionApplication (application : CompressionApplication) (path_residues : list PathResidue)
| GrantRecoveryLicense (license : RecoveryLicense)
| LinkRetentionCapability (link : RetentionCapabilityLink)
| DecideRepresentationSuccessor (decision : RepresentationSuccessorDecision)
| ReopenRepresentation (reopening : RepresentationReopening).

Inductive CompressionEvent : Type :=
| BindingCarrierManifestRegistered (manifest : BindingCarrierManifest)
| RealizedHistoryDerivationRecorded (derivation : RealizedHistoryDerivation)
| CompressionContractRegistered (contract : CompressionContract)
| CompressionValidationRecorded (validation : CompressionValidation)
| ExactCompressionLicenseGranted (license : ExactCompressionLicense)
| CompressionApplicationRecorded (application : CompressionApplication) (path_residues : list PathResidue)
| RecoveryLicenseGranted (license : RecoveryLicense)
| RetentionCapabilityLinked (link : RetentionCapabilityLink)
| RepresentationSuccessorDecided (decision : RepresentationSuccessorDecision)
| RepresentationReopened (reopening : RepresentationReopening).
#[export] Instance CompressionEvent_eq_dec : EqDecision CompressionEvent.
Proof. solve_decision. Defined.

Abbreviation compression_events := (result (list CompressionEvent)).

Definition contract_by_id (s : InquiryState) (id : string) : option CompressionContract :=
  first (λ c, cct_id c ==? id) (compression_contracts s).
Definition license_by_id (s : InquiryState) (id : string) : option ExactCompressionLicense :=
  first (λ l, ecl_id l ==? id) (exact_compression_licenses s).
Definition application_by_id (s : InquiryState) (id : string) : option CompressionApplication :=
  first (λ a, cap_id a ==? id) (compression_applications s).

Definition decide_carrier_manifest (s : InquiryState) (m : BindingCarrierManifest) : compression_events :=
  unless_owned bcm_id (binding_carrier_manifests s) m "carrier-manifest identity was reused"
    match st_context s with
    | None => invalid_command "carrier manifest must match the inquiry binding revision"
    | Some c =>
      reject (bcm_binding_revision m !=? ctx_binding_revision c)
        "carrier manifest must match the inquiry binding revision";;
      reject (negb (mem (carrier_schema_id (bcm_configuration_carrier m)) (ctx_carrier_schema_ids c)))
        "configuration carrier schema is not pinned by the inquiry";;
      reject (negb (mem (carrier_schema_id (bcm_realized_history_carrier m)) (ctx_carrier_schema_ids c)))
        "history carrier schema is not pinned by the inquiry";;
      Ok [BindingCarrierManifestRegistered m]
    end.

(** [assert derivation.derivation_check is not None; assert state.context is not None] *)
Definition check_derivation (s : InquiryState) (d : RealizedHistoryDerivation) : result unit :=
  if rhd_status d ==? DERIVED then
    check ← or_raise (rhd_derivation_check d) AssertionError "";
    c ← or_raise (st_context s) AssertionError "";
    require_g2a_check s check ("history-derivation:" +:+ rhd_id d) (ctx_scope_fingerprint c)
  else Ok tt.

Definition decide_history_derivation (s : InquiryState) (d : RealizedHistoryDerivation) : compression_events :=
  unless_owned rhd_id (realized_history_derivations s) d "history-derivation identity was reused"
    (reject (negb (mem (rhd_carrier_manifest_id d) (map bcm_id (binding_carrier_manifests s))))
       "history derivation requires an owned carrier manifest";;
     reject (negb (rhd_source_ledger_sequence d =? st_sequence s)%Z)
       "history derivation must pin the current committed prefix";;
     check_derivation s d;;
     Ok [RealizedHistoryDerivationRecorded d]).

Definition contract_pins (c : CompressionContract) : string * string * string :=
  (cct_scope_fingerprint c, cct_binding_revision c, cct_protected_horizon_id c).

Definition decide_compression_contract (s : InquiryState) (c : CompressionContract) : compression_events :=
  unless_owned cct_id (compression_contracts s) c "compression-contract identity was reused"
    match first (λ m, bcm_id m ==? cct_carrier_manifest_id c) (binding_carrier_manifests s), st_context s with
    | Some m, Some ctx =>
      reject (negb (mem (cct_source_carrier_id c) (map carrier_id (manifest_carriers m))))
        "compression source carrier is not explicitly declared";;
      reject (contract_pins c !=? context_pins ctx) "compression contract pins must match inquiry context";;
      Ok [CompressionContractRegistered c]
    | _, _ => invalid_command "compression contract requires its carrier manifest"
    end.

(** [sha256_digest(canonical_json_bytes(contract))] *)
Definition contract_fingerprint (c : CompressionContract) : string :=
  Sha256.hexdigest (canonical_json (to_json c)).

Definition ValidationProperty_value (p : ValidationProperty) : string :=
  match p with
  | CONSEQUENCE_FACTORIZATION => "consequence_factorization" | EXACT_EQUIVALENCE => "exact_equivalence"
  | CONTINUATION_COMPATIBILITY => "continuation_compatibility" | RECURSIVE_UPDATE => "recursive_update"
  | DETERMINATION_DESCENT => "determination_descent" | RESIDUE_COMPLETENESS => "residue_completeness"
  end.

(** The properties a contract's claims require. *)
Definition required_properties (c : CompressionContract) : list ValidationProperty :=
  [CONSEQUENCE_FACTORIZATION; RESIDUE_COMPLETENESS]
  ++ (if mem COARSEST_EXACT_QUOTIENT (cct_claim_kinds c) then [EXACT_EQUIVALENCE] else [])
  ++ (if mem EXECUTABLE_RETAINED_STATE (cct_claim_kinds c)
      then [CONTINUATION_COMPATIBILITY; RECURSIVE_UPDATE] else []).

(** [by_property[kind].outcome is ValidationOutcome.NOT_CLAIMED] *)
Definition check_required (v : CompressionValidation) (kind : ValidationProperty) : result unit :=
  match last (List.filter (λ p, epv_property p ==? kind) (cvl_properties v)) with
  | None => raise KeyError (ValidationProperty_value kind)
  | Some p => reject (epv_outcome p ==? NOT_CLAIMED)
                ("compression claim requires a disposition for " +:+ ValidationProperty_value kind)
  end.

Definition property_proposition (c : CompressionContract) (kind : ValidationProperty) : string :=
  "compression-property:" +:+ cct_id c +:+ ":" +:+ ValidationProperty_value kind.

Definition check_property (s : InquiryState) (c : CompressionContract) (p : ExactPropertyValidation) :
    result unit :=
  if epv_outcome p ==? NOT_CLAIMED then Ok tt
  else
    check ← or_raise (epv_check p) AssertionError "";
    proposition ← or_raise (epv_proposition_id p) AssertionError "";
    reject (proposition !=? property_proposition c (epv_property p))
      "compression property check is not bound to its exact contract property";;
    require_g2a_check s check proposition (cct_scope_fingerprint c).

Definition decide_compression_validation (s : InquiryState) (v : CompressionValidation) : compression_events :=
  unless_owned cvl_id (compression_validations s) v "compression-validation identity was reused"
    (c ← or_raise (contract_by_id s (cvl_contract_id v)) InvalidCommandError
           "compression validation requires an owned contract";
     reject (cvl_contract_fingerprint v !=? contract_fingerprint c)
       "compression validation does not pin the exact contract";;
     for_each (check_required v) (required_properties c);;
     for_each (check_property s c) (cvl_properties v);;
     Ok [CompressionValidationRecorded v]).

(** An exact hard decision on the proposition, in the scope. *)
Definition hard_warrant (d : option WarrantDecisionRecord) (proposition scope : string) : bool :=
  match d with
  | Some w => (wd_warrant_class w ==? HARD) && (wd_proposition_id w ==? proposition)
              && (wd_scope_fingerprint w ==? scope)
  | None => false
  end.

Definition active_policy (s : InquiryState) (policy : string) : bool :=
  (ctx_warrant_policy_version <$> st_context s) ==? Some policy.

Definition decide_exact_license (s : InquiryState) (l : ExactCompressionLicense) : compression_events :=
  unless_owned ecl_id (exact_compression_licenses s) l "exact-license identity was reused"
    match contract_by_id s (ecl_contract_id l),
          first (λ v, cvl_id v ==? ecl_validation_id l) (compression_validations s) with
    | Some c, Some v =>
      let decision := warrant_decision_by_id s (ecl_warrant_decision_id l) in
      reject (cvl_contract_id v !=? cct_id c) "exact license requires its exact contract validation";;
      reject (negb (validation_valid v)) "invalid compression validation cannot be licensed";;
      reject (negb (active_policy s (ecl_policy_version l)))
        "exact license must use the active warrant policy";;
      reject (negb (hard_warrant decision ("compression-license:" +:+ cvl_id v) (cct_scope_fingerprint c))
              || ((wd_policy_version <$> decision) !=? Some (ecl_policy_version l)))
        "exact license requires an exact active hard warrant";;
      reject (match ecl_predecessor_license_id l with
              | Some p => is_none (license_by_id s p)
              | None => false
              end) "compression-license predecessor is not owned";;
      Ok [ExactCompressionLicenseGranted l]
    | _, _ => invalid_command "exact license requires its exact contract validation"
    end.

(** The residues an application brings: every named one, of its contract and its
    history, and none already owned. *)
Definition check_residues (s : InquiryState) (a : CompressionApplication) (l : ExactCompressionLicense)
    (d : RealizedHistoryDerivation) (residues : list PathResidue) : result unit :=
  reject (negb (same_set (cap_path_residue_ids a) (map prs_id residues)))
    "application must atomically provide every named path residue";;
  match contract_by_id s (ecl_contract_id l) with
  | None => invalid_command "path residue must belong to the applied contract"
  | Some c => reject (negb (forallb (λ r, prs_contract_id r ==? cct_id c) residues))
                "path residue must belong to the applied contract"
  end;;
  reject (negb (forallb (λ r, prs_source_history_derivation_id r ==? rhd_id d) residues))
    "path residue must belong to the applied history";;
  reject (existsb (λ r, mem (prs_id r) (map prs_id (path_residues s))) residues)
    "path-residue identity is already owned".

Definition decide_application (s : InquiryState) (a : CompressionApplication) (residues : list PathResidue) :
    compression_events :=
  match application_by_id s (cap_id a) with
  | Some x => if (x ==? a) && subset residues (path_residues s) then Ok []
              else identity_conflict "compression-application identity was reused"
  | None =>
    match license_by_id s (cap_license_id a),
          first (λ d, rhd_id d ==? cap_source_history_derivation_id a) (realized_history_derivations s) with
    | Some l, Some d =>
      reject ((rhd_status d !=? DERIVED) || (rhd_history_artifact d !=? Some (cap_source_artifact a)))
        "compression application must consume its exact derived history";;
      reject (cap_retained_state_fingerprint a !=? art_digest (cap_retained_state_artifact a))
        "retained-state fingerprint must pin the exact CAS bytes";;
      check_residues s a l d residues;;
      Ok [CompressionApplicationRecorded a residues]
    | _, _ => invalid_command "compression application requires license and history"
    end
  end.

Definition recovery_route_ids (p : RetentionPackage) : list string :=
  pkg_direct_use_route_ids p ++ pkg_reconstruction_route_ids p
  ++ pkg_consequence_evaluation_route_ids p ++ pkg_reacquisition_route_ids p.

Definition decide_recovery_license (s : InquiryState) (l : RecoveryLicense) : compression_events :=
  unless_owned rcl_id (recovery_licenses s) l "recovery-license identity was reused"
    match application_by_id s (rcl_compression_application_id l),
          first (λ p, pkg_id p ==? rcl_retention_package_id l) (retention_packages s) with
    | Some _, Some p =>
      reject (negb (mem (rcl_route_id l) (recovery_route_ids p)))
        "recovery license requires exact application/package route";;
      reject (negb (active_policy s (rcl_policy_version l)))
        "recovery license must use the active warrant policy";;
      reject (negb (hard_warrant (warrant_decision_by_id s (rcl_warrant_decision_id l))
                      ("recovery-license:" +:+ rcl_id l) (pkg_scope_fingerprint p)))
        "recovery license requires an exact active hard warrant";;
      Ok [RecoveryLicenseGranted l]
    | _, _ => invalid_command "recovery license requires exact application/package route"
    end.

Definition recovery_triple (l : RecoveryLicense) : string * string * string :=
  (rcl_compression_application_id l, rcl_retention_package_id l, rcl_route_id l).
Definition capability_triple (k : RetentionCapabilityLink) : string * string * string :=
  (rcap_compression_application_id k, rcap_retention_package_id k, rcap_route_id k).

Definition decide_retention_capability (s : InquiryState) (k : RetentionCapabilityLink) : compression_events :=
  unless_owned rcap_id (retention_capability_links s) k "retention-capability link identity was reused"
    (reject ((recovery_triple <$> first (λ l, rcl_id l ==? rcap_recovery_license_id k) (recovery_licenses s))
             !=? Some (capability_triple k)) "retention capability link must match its recovery license";;
     Ok [RetentionCapabilityLinked k]).

(** A replacement names its predecessor and rests on its own hard warrant. *)
Definition check_replacement (s : InquiryState) (d : RepresentationSuccessorDecision)
    (incumbent candidate : ExactCompressionLicense) (c : CompressionContract) : result unit :=
  if rsd_disposition d ==? SUCCESSOR_REPLACE then
    reject (ecl_predecessor_license_id candidate !=? Some (ecl_id incumbent))
      "replacement candidate must name its exact predecessor";;
    let warrant := warrant_decision_by_id s (default "" (rsd_warrant_decision_id d)) in
    reject (negb (hard_warrant warrant ("representation-successor:" +:+ rsd_id d) (cct_scope_fingerprint c))
            || ((wd_policy_version <$> warrant) !=? Some (ecl_policy_version candidate)))
      "replacement requires exact independent hard warrant"
  else Ok tt.

Definition decide_representation_successor (s : InquiryState) (d : RepresentationSuccessorDecision) :
    compression_events :=
  unless_owned rsd_id (representation_successor_decisions s) d "representation-successor identity was reused"
    (let licenses := dict_by ecl_id (exact_compression_licenses s) in
     match licenses !! rsd_incumbent_license_id d, licenses !! rsd_candidate_license_id d with
     | Some incumbent, Some candidate =>
       reject (ecl_id incumbent ==? ecl_id candidate)
         "successor decision requires two distinct owned licenses";;
       c ← or_raise (contract_by_id s (ecl_contract_id candidate)) InvalidCommandError
             "successor candidate lacks its owned compression contract";
       reject (negb (subset (ecl_granted_capability_ids incumbent)
                      (rsd_preserved_capability_ids d ++ rsd_explicitly_disposed_capability_ids d)))
         "successor must preserve or disposition every predecessor capability";;
       check_replacement s d incumbent candidate c;;
       Ok [RepresentationSuccessorDecided d]
     | _, _ => invalid_command "successor decision requires two distinct owned licenses"
     end).

(** The recovery license of a reopening was granted for the licensed state. *)
Definition recovery_of_license (s : InquiryState) (recovery license : string) : bool :=
  match l ← first (λ l, rcl_id l ==? recovery) (recovery_licenses s);
        application_by_id s (rcl_compression_application_id l) with
  | Some a => cap_license_id a ==? license
  | None => false
  end.

Definition decide_reopening (s : InquiryState) (r : RepresentationReopening) : compression_events :=
  unless_owned rro_id (representation_reopenings s) r "representation-reopening identity was reused"
    (l ← or_raise (license_by_id s (rro_license_id r)) InvalidCommandError
           "reopening requires an owned exact license";
     c ← or_raise (contract_by_id s (ecl_contract_id l)) InvalidCommandError
           "reopening requires the licensed contract";
     reject (rro_prior_horizon_id r !=? cct_protected_horizon_id c)
       "reopening prior horizon must match the licensed contract";;
     require_g2a_check s (rro_factorization_failure_check r)
       ("representation-reopening:" +:+ rro_id r) (cct_scope_fingerprint c);;
     reject (match rro_path_residue_id r with
             | Some id => (prs_contract_id <$> first (λ x, prs_id x ==? id) (path_residues s))
                          !=? Some (cct_id c)
             | None => false
             end) "reopening path residue is not owned by the contract";;
     reject (match rro_recovery_license_id r with
             | Some id => negb (recovery_of_license s id (ecl_id l))
             | None => false
             end) "reopening recovery route is not licensed for this state";;
     reject ((rro_outcome r ==? REOPENING_UNKNOWN)
             && (is_some (rro_path_residue_id r) || is_some (rro_recovery_license_id r)))
       "Unknown reopening cannot claim a recovery path";;
     Ok [RepresentationReopened r]).

Definition decide_compression (s : InquiryState) (c : CompressionCommand) : compression_events :=
  match c with
  | RegisterBindingCarrierManifest m => decide_carrier_manifest s m
  | RecordRealizedHistoryDerivation d => decide_history_derivation s d
  | RegisterCompressionContract c => decide_compression_contract s c
  | RecordCompressionValidation v => decide_compression_validation s v
  | GrantExactCompressionLicense l => decide_exact_license s l
  | RecordCompressionApplication a rs => decide_application s a rs
  | GrantRecoveryLicense l => decide_recovery_license s l
  | LinkRetentionCapability k => decide_retention_capability s k
  | DecideRepresentationSuccessor d => decide_representation_successor s d
  | ReopenRepresentation r => decide_reopening s r
  end.

(** The command an event answers. *)
Definition compression_command (e : CompressionEvent) : CompressionCommand :=
  match e with
  | BindingCarrierManifestRegistered m => RegisterBindingCarrierManifest m
  | RealizedHistoryDerivationRecorded d => RecordRealizedHistoryDerivation d
  | CompressionContractRegistered c => RegisterCompressionContract c
  | CompressionValidationRecorded v => RecordCompressionValidation v
  | ExactCompressionLicenseGranted l => GrantExactCompressionLicense l
  | CompressionApplicationRecorded a rs => RecordCompressionApplication a rs
  | RecoveryLicenseGranted l => GrantRecoveryLicense l
  | RetentionCapabilityLinked k => LinkRetentionCapability k
  | RepresentationSuccessorDecided d => DecideRepresentationSuccessor d
  | RepresentationReopened r => ReopenRepresentation r
  end.

(** The records an event adds. *)
Definition compression_records (e : CompressionEvent) : CompressionLedger :=
  match e with
  | BindingCarrierManifestRegistered m => MkCompressionLedger [m] [] [] [] [] [] [] [] [] [] []
  | RealizedHistoryDerivationRecorded d => MkCompressionLedger [] [d] [] [] [] [] [] [] [] [] []
  | CompressionContractRegistered c => MkCompressionLedger [] [] [c] [] [] [] [] [] [] [] []
  | CompressionValidationRecorded v => MkCompressionLedger [] [] [] [v] [] [] [] [] [] [] []
  | ExactCompressionLicenseGranted l => MkCompressionLedger [] [] [] [] [l] [] [] [] [] [] []
  | CompressionApplicationRecorded a rs => MkCompressionLedger [] [] [] [] [] rs [a] [] [] [] []
  | RecoveryLicenseGranted l => MkCompressionLedger [] [] [] [] [] [] [] [l] [] [] []
  | RetentionCapabilityLinked k => MkCompressionLedger [] [] [] [] [] [] [] [] [k] [] []
  | RepresentationSuccessorDecided d => MkCompressionLedger [] [] [] [] [] [] [] [] [] [d] []
  | RepresentationReopened r => MkCompressionLedger [] [] [] [] [] [] [] [] [] [] [r]
  end.
