(* ===== verification/Governance.v ===== *)
(** * Project commands: [src/rci/core/transitions.py]

    The recursive-project handlers of [decide] and the branches of [evolve] that
    answer them: anchors and limitations, question and method admission, the
    capability frontier, Goal candidates, their admission and sealing, candidate
    environments, evidence, independent review, succession, promotion, cycle
    checkpoints and stops. *)

From S2P Require Import Prelude Digest Dumps Memory Retrieval Questions Project Model Claims Warrant Support Effects Probes State Goals Extensions Lifecycle Guards.

Inductive ProjectCommand : Type :=
| RecordProjectAnchor (anchor : ProjectAnchor)
| RecordCapabilityLimitation (limitation : CapabilityLimitation)
| RecordQuestionContractCandidate (candidate : QuestionContractCandidate)
| DecideQuestionRepertoire (decision : QuestionRepertoireDecision)
| RecordMethodBindingCandidate (candidate : MethodBindingCandidate)
| DecideMethodAdmission (decision : MethodAdmissionDecision)
| RecordCapabilitySuccessorCandidate (candidate : CapabilitySuccessorCandidate)
| RecordCapabilityFrontier (frontier : CapabilityFrontier)
| RecordImplementationGoalCandidate (candidate : ImplementationGoalCandidate)
| DecideGoalAdmission (decision : GoalAdmissionDecision)
| SealImplementationGoal (goal : ImplementationGoalContract)
| RecordCandidateEnvironment (manifest : CandidateEnvironmentManifest)
| RecordDevelopmentEvidence (evidence : DevelopmentEvidence)
| RecordIndependentReview (review : IndependentReview)
| DecideProjectSuccessor (decision : ProjectSuccessorDecision)
| RecordPromotionDecision (decision : Project.PromotionDecision)
| RecordRecursiveCycleCheckpoint (checkpoint : RecursiveCycleCheckpoint)
| RecordRecursiveStopDisposition (disposition : RecursiveStopDisposition).

Inductive ProjectEvent : Type :=
| ProjectAnchorRecorded (anchor : ProjectAnchor)
| CapabilityLimitationRecorded (limitation : CapabilityLimitation)
| QuestionContractCandidateRecorded (candidate : QuestionContractCandidate)
| QuestionRepertoireDecided (decision : QuestionRepertoireDecision)
| MethodBindingCandidateRecorded (candidate : MethodBindingCandidate)
| MethodAdmissionDecided (decision : MethodAdmissionDecision)
| CapabilitySuccessorCandidateRecorded (candidate : CapabilitySuccessorCandidate)
| CapabilityFrontierRecorded (frontier : CapabilityFrontier)
| ImplementationGoalCandidateRecorded (candidate : ImplementationGoalCandidate)
| GoalAdmissionDecided (decision : GoalAdmissionDecision)
| ImplementationGoalSealed (goal : ImplementationGoalContract)
| CandidateEnvironmentRecorded (manifest : CandidateEnvironmentManifest)
| DevelopmentEvidenceRecorded (evidence : DevelopmentEvidence)
| IndependentReviewRecorded (review : IndependentReview)
| ProjectSuccessorDecided (decision : ProjectSuccessorDecision)
| PromotionDecisionRecorded (decision : Project.PromotionDecision)
| RecursiveCycleCheckpointRecorded (checkpoint : RecursiveCycleCheckpoint)
| RecursiveStopDispositionRecorded (disposition : RecursiveStopDisposition).
#[export] Instance ProjectEvent_eq_dec : EqDecision ProjectEvent.
Proof. solve_decision. Defined.

Abbreviation project_events := (result (list ProjectEvent)).

Definition goal_by_id (s : InquiryState) (id : string) : option ImplementationGoalContract :=
  first (λ g, goal_id g ==? id) (implementation_goals s).
Definition environment_by_id (s : InquiryState) (id : string) : option CandidateEnvironmentManifest :=
  first (λ e, cem_id e ==? id) (candidate_environments s).
Definition review_by_id (s : InquiryState) (id : string) : option IndependentReview :=
  first (λ r, rev_id r ==? id) (independent_reviews s).
Definition limitation_owned (s : InquiryState) (id : string) : bool :=
  mem id (map lim_id (capability_limitations s)).
Definition anchor_owned (s : InquiryState) (id : string) : bool := mem id (map anc_id (project_anchors s)).

(** ** Limitations, questions and methods *)

Definition decide_project_anchor (s : InquiryState) (a : ProjectAnchor) : project_events :=
  unless_owned anc_id (project_anchors s) a "project-anchor identity was reused" (Ok [ProjectAnchorRecorded a]).

Definition decide_limitation (s : InquiryState) (l : CapabilityLimitation) : project_events :=
  unless_owned lim_id (capability_limitations s) l "capability-limitation identity was reused"
    (reject (negb (anchor_owned s (lim_anchor_id l))) "capability limitation requires an owned clean anchor";;
     Ok [CapabilityLimitationRecorded l]).

Definition decide_question_candidate (s : InquiryState) (c : QuestionContractCandidate) : project_events :=
  unless_owned qcc_id (question_contract_candidates s) c "question-candidate identity was reused"
    (reject (negb (limitation_owned s (qcc_limitation_id c))) "question candidate requires an owned limitation";;
     Ok [QuestionContractCandidateRecorded c]).

Definition decide_question_repertoire (s : InquiryState) (d : QuestionRepertoireDecision) : project_events :=
  unless_owned qrd_id (question_repertoire_decisions s) d "question-decision identity was reused"
    (c ← or_raise (question_candidate_by_id s (qrd_candidate_id d)) InvalidCommandError
           "question decision requires its inert candidate";
     reject ((qrd_outcome d ==? OUTCOME_ADMIT) && (qc_family (qcc_contract c) !=? "recursive-project"))
       "generated admission is confined to recursive-project";;
     require_project_admission_evidence s (qrd_evidence_ids d) (qcc_limitation_id c)
       (qrd_outcome d ==? OUTCOME_ADMIT);;
     Ok [QuestionRepertoireDecided d]).

Definition decide_method_candidate (s : InquiryState) (c : MethodBindingCandidate) : project_events :=
  unless_owned mbc_id (method_binding_candidates s) c "method-candidate identity was reused"
    (reject (negb (limitation_owned s (mbc_limitation_id c))) "method binding requires an owned limitation";;
     Ok [MethodBindingCandidateRecorded c]).

(** An adapter is admitted only through a sealed Goal on the same limitation. *)
Definition check_adapter (s : InquiryState) (d : MethodAdmissionDecision) (c : MethodBindingCandidate) :
    result unit :=
  if (mad_outcome d ==? OUTCOME_ADMIT) && mbc_adapter_required c then
    g ← or_raise (mad_implementation_goal_id d ≫= goal_by_id s) InvalidCommandError
          "a missing method adapter must open a sealed goal";
    reject ((succ_limitation_id <$> successor_by_id s (goal_candidate_id g)) !=? Some (mbc_limitation_id c))
      "method adapter goal must address the exact limitation"
  else Ok tt.

Definition decide_method_admission (s : InquiryState) (d : MethodAdmissionDecision) : project_events :=
  unless_owned mad_id (method_admission_decisions s) d "method-decision identity was reused"
    (c ← or_raise (first (λ c, mbc_id c ==? mad_candidate_id d) (method_binding_candidates s))
           InvalidCommandError "method decision requires its inert candidate";
     require_project_admission_evidence s (mad_evidence_ids d) (mbc_limitation_id c)
       (mad_outcome d ==? OUTCOME_ADMIT);;
     check_adapter s d c;;
     Ok [MethodAdmissionDecided d]).

(** ** Frontiers and Goals *)

Definition decide_successor_candidate (s : InquiryState) (c : CapabilitySuccessorCandidate) : project_events :=
  unless_owned succ_id (capability_successor_candidates s) c
    "project-successor candidate identity was reused"
    (reject (negb (anchor_owned s (succ_anchor_id c)) || negb (limitation_owned s (succ_limitation_id c)))
       "project successor requires owned anchor and limitation";;
     Ok [CapabilitySuccessorCandidateRecorded c]).

(** [tuple(candidates_by_id[item] for item in ids)] *)
Definition candidates_of (s : InquiryState) (ids : list string) : result (list CapabilitySuccessorCandidate) :=
  traverse (λ id, or_raise (successors_by_id s !! id) KeyError id) ids.

Definition decide_frontier (s : InquiryState) (f : CapabilityFrontier) : project_events :=
  unless_owned frt_id (capability_frontiers s) f "capability-frontier identity was reused"
    (expected ← match cs ← candidates_of s (frt_candidate_ids f); derive_capability_frontier (frt_id f) cs with
                | Ok e => Ok e
                | Raise x => if (exn_class x ==? KeyError) || is_value_error (exn_class x)
                             then invalid_command "frontier references invalid successor candidates"
                             else Raise x
                end;
     reject (expected !=? f) "capability frontier must equal pure deterministic selection";;
     Ok [CapabilityFrontierRecorded f]).

Definition decide_goal_candidate (s : InquiryState) (c : ImplementationGoalCandidate) : project_events :=
  unless_owned gcd_id (implementation_goal_candidates s) c "implementation-Goal candidate identity was reused"
    (recomputed ← compile_implementation_goal_candidate s (gcd_source_obligation_id c)
                    (gcd_downstream_obligation_id c) (gcd_frontier_id c);
     reject (match recomputed with GoalCompiled r => r !=? c | GoalUnknown _ => true end)
       "implementation-Goal candidate must equal pure deterministic compilation";;
     Ok [ImplementationGoalCandidateRecorded c]).

(** One decision per candidate: the prior one is found by its candidate. *)
Definition decide_goal_admission (s : InquiryState) (d : GoalAdmissionDecision) : project_events :=
  match first (λ x, gad_candidate_id x ==? gad_candidate_id d) (goal_admission_decisions s) with
  | Some x => if x ==? d then Ok []
              else identity_conflict "a Goal candidate permits one total admission decision"
  | None =>
    reject (match first (λ c, gcd_id c ==? gad_candidate_id d) (implementation_goal_candidates s) with
            | None => true
            | Some c =>
              (gad_candidate_fingerprint d !=? goal_candidate_fingerprint c)
              || (gad_evidence_record_ids d !=? goal_admission_evidence_ids c)
              || ((gad_outcome d ==? OUTCOME_ADMIT)
                  && (gad_admitted_goal_id d !=? Some (goal_id (gcd_goal c))))
            end) "Goal admission must reference the exact derived candidate";;
    Ok [GoalAdmissionDecided d]
  end.

Definition frontier_selects (s : InquiryState) (g : ImplementationGoalContract) : bool :=
  match frontier_by_id s (goal_frontier_id g) with
  | Some f => (frt_status f ==? FRONTIER_READY)
              && (frt_selected_discriminator_candidate_id f ==? Some (goal_candidate_id g))
  | None => false
  end.

Definition decide_seal_goal (s : InquiryState) (g : ImplementationGoalContract) : project_events :=
  unless_owned goal_id (implementation_goals s) g "sealed implementation goal is immutable"
    (reject (negb (frontier_selects s g)) "goal must seal the frontier-selected discriminator candidate";;
     reject (negb (goal_admitted s g)) "generated Goal requires its exact admission decision";;
     Ok [ImplementationGoalSealed g]).

(** ** Development of a candidate *)

Definition decide_candidate_environment (s : InquiryState) (m : CandidateEnvironmentManifest) : project_events :=
  unless_owned cem_id (candidate_environments s) m "candidate-environment identity was reused"
    (reject ((g ← goal_by_id s (cem_goal_id m); anc_commit_sha <$> anchor_by_id s (goal_anchor_id g))
             !=? Some (cem_base_commit_sha m)) "candidate environment must start from its sealed anchor";;
     Ok [CandidateEnvironmentRecorded m]).

Definition decide_development_evidence (s : InquiryState) (e : DevelopmentEvidence) : project_events :=
  unless_owned dev_id (development_evidence s) e "development-evidence identity was reused"
    match goal_by_id s (dev_goal_id e), environment_by_id s (dev_candidate_environment_id e) with
    | Some g, Some env =>
      reject (cem_goal_id env !=? goal_id g) "development evidence requires its sealed candidate environment";;
      reject ((dev_base_commit_sha e !=? cem_base_commit_sha env)
              || negb (mem (dev_gate_digest e) [goal_incumbent_gate_digest g; goal_proposed_gate_digest g]))
        "development evidence must preserve base and sealed gate pins";;
      Ok [DevelopmentEvidenceRecorded e]
    | _, _ => invalid_command "development evidence requires its sealed candidate environment"
    end.

(** The evidence is about the reviewed goal, environment and commit. *)
Definition review_bound (r : IndependentReview) (env : CandidateEnvironmentManifest)
    (l : list DevelopmentEvidence) : bool :=
  (cem_goal_id env ==? rev_goal_id r) && (rev_reviewer_id r !=? cem_developer_id env)
  && forallb (λ e, dev_goal_id e ==? rev_goal_id r) l
  && forallb (λ e, dev_candidate_environment_id e ==? rev_candidate_environment_id r) l
  && forallb (λ e, dev_candidate_commit_sha e ==? rev_reviewed_commit_sha r) l.

Definition decide_independent_review (s : InquiryState) (r : IndependentReview) : project_events :=
  unless_owned rev_id (independent_reviews s) r "independent-review identity was reused"
    (reject (negb (subset (rev_evidence_ids r) (evidence_ids s)))
       "review references unknown development evidence";;
     let evidence := evidence_of s (rev_evidence_ids r) in
     reject (match environment_by_id s (rev_candidate_environment_id r) with
             | Some env => negb (review_bound r env evidence)
             | None => true
             end) "review must be fresh, independent, and exact-head bound";;
     reject ((rev_outcome r ==? REVIEW_VALID) && negb (passed evidence))
       "a valid review cannot bless failing or unknown evidence";;
     Ok [IndependentReviewRecorded r]).

(** The goal, the environment and the review name one candidate. *)
Definition proof_chain (d : ProjectSuccessorDecision) (g : ImplementationGoalContract)
    (c : CapabilitySuccessorCandidate) (r : IndependentReview) (env : CandidateEnvironmentManifest) : bool :=
  (goal_candidate_id g ==? succ_id c) && (cem_goal_id env ==? goal_id g) && (rev_goal_id r ==? goal_id g)
  && (rev_candidate_environment_id r ==? cem_id env).

Definition check_project_replacement (s : InquiryState) (d : ProjectSuccessorDecision)
    (c : CapabilitySuccessorCandidate) (r : IndependentReview) : result unit :=
  if psd_disposition d ==? PROJECT_REPLACE then
    reject ((rev_outcome r !=? REVIEW_VALID) || negb (passed (evidence_of s (psd_evidence_ids d))))
      "replacement requires valid independent review and evidence";;
    reject (negb (subset (succ_preserved_capability_ids c) (psd_preserved_capability_ids d))
            || (succ_gain_kinds c !=? psd_gain_kinds d))
      "replacement must preserve and gain exactly as proposed"
  else Ok tt.

Definition decide_project_successor (s : InquiryState) (d : ProjectSuccessorDecision) : project_events :=
  unless_owned psd_id (project_successor_decisions s) d "project-successor decision identity was reused"
    (reject (negb (subset (psd_evidence_ids d) (evidence_ids s)))
       "successor decision references unknown evidence";;
     match goal_by_id s (psd_goal_id d), successor_by_id s (psd_candidate_id d),
           review_by_id s (psd_review_id d), environment_by_id s (psd_candidate_environment_id d) with
     | Some g, Some c, Some r, Some env =>
       reject (negb (proof_chain d g c r env)) "successor proof chain does not name one sealed candidate";;
       reject (psd_evidence_ids d !=? rev_evidence_ids r)
         "successor decision must use exactly the reviewed evidence";;
       check_project_replacement s d c r;;
       Ok [ProjectSuccessorDecided d]
     | _, _, _, _ => invalid_command "successor decision requires its complete owned proof chain"
     end).

Definition decide_promotion_record (s : InquiryState) (d : Project.PromotionDecision) : project_events :=
  unless_owned prd_id (promotion_decisions s) d "promotion-decision identity was reused"
    match first (λ x, psd_id x ==? prd_successor_decision_id d) (project_successor_decisions s) with
    | None => invalid_command "promotion requires an owned independently reviewed successor"
    | Some p =>
      r ← or_raise (review_by_id s (psd_review_id p)) InvalidCommandError
            "promotion requires an owned independently reviewed successor";
      reject ((prd_outcome d ==? PROMOTION_MERGED)
              && ((psd_disposition p !=? PROJECT_REPLACE) || (rev_outcome r !=? REVIEW_VALID)
                  || (prd_candidate_commit_sha d !=? rev_reviewed_commit_sha r)))
        "merged promotion must match the validated successor head";;
      Ok [PromotionDecisionRecorded d]
    end.

(** ** Cycles *)

(** The collections of this handler: Goal candidates and decisions are not listed. *)
Definition cycle_record_ids (s : InquiryState) : list string :=
  map anc_id (project_anchors s) ++ map lim_id (capability_limitations s)
  ++ map qcc_id (question_contract_candidates s) ++ map qrd_id (question_repertoire_decisions s)
  ++ map mbc_id (method_binding_candidates s) ++ map mad_id (method_admission_decisions s)
  ++ map succ_id (capability_successor_candidates s) ++ map frt_id (capability_frontiers s)
  ++ map goal_id (implementation_goals s) ++ map cem_id (candidate_environments s)
  ++ map dev_id (development_evidence s) ++ map rev_id (independent_reviews s)
  ++ map psd_id (project_successor_decisions s) ++ map prd_id (promotion_decisions s)
  ++ map rcc_id (recursive_cycle_checkpoints s) ++ map stop_id (recursive_stop_dispositions s).

Definition cycle_tail (s : InquiryState) (cycle : string) : option RecursiveCycleCheckpoint :=
  latest (λ c, rcc_cycle_id c ==? cycle) (recursive_cycle_checkpoints s).

Definition decide_cycle_checkpoint (s : InquiryState) (c : RecursiveCycleCheckpoint) : project_events :=
  unless_owned rcc_id (recursive_cycle_checkpoints s) c "cycle-checkpoint identity was reused"
    (match cycle_tail s (rcc_cycle_id c) with
     | Some p =>
       reject (rcc_predecessor_id c !=? Some (rcc_id p))
         "cycle checkpoint must succeed the exact current tail";;
       reject (phase_index (rcc_phase c) <=? phase_index (rcc_phase p))%nat
         "cycle checkpoints must advance monotonically"
     | None => reject (is_some (rcc_predecessor_id c)) "first cycle checkpoint cannot name a predecessor"
     end;;
     reject (negb (subset (rcc_record_ids c) (cycle_record_ids s)))
       "cycle checkpoint may reference only owned project records";;
     Ok [RecursiveCycleCheckpointRecorded c]).

Definition decide_stop (s : InquiryState) (d : RecursiveStopDisposition) : project_events :=
  unless_owned stop_id (recursive_stop_dispositions s) d "recursive-stop identity was reused"
    (reject (negb (mem (stop_cycle_id d) (map rcc_cycle_id (recursive_cycle_checkpoints s))))
       "recursive stop requires an owned cycle checkpoint";;
     reject (negb (subset (stop_consequential_residual_ids d) (map lim_id (capability_limitations s))))
       "recursive stop residuals must name owned limitations";;
     Ok [RecursiveStopDispositionRecorded d]).

Definition decide_project (s : InquiryState) (c : ProjectCommand) : project_events :=
  match c with
  | RecordProjectAnchor a => decide_project_anchor s a
  | RecordCapabilityLimitation l => decide_limitation s l
  | RecordQuestionContractCandidate c => decide_question_candidate s c
  | DecideQuestionRepertoire d => decide_question_repertoire s d
  | RecordMethodBindingCandidate c => decide_method_candidate s c
  | DecideMethodAdmission d => decide_method_admission s d
  | RecordCapabilitySuccessorCandidate c => decide_successor_candidate s c
  | RecordCapabilityFrontier f => decide_frontier s f
  | RecordImplementationGoalCandidate c => decide_goal_candidate s c
  | DecideGoalAdmission d => decide_goal_admission s d
  | SealImplementationGoal g => decide_seal_goal s g
  | RecordCandidateEnvironment m => decide_candidate_environment s m
  | RecordDevelopmentEvidence e => decide_development_evidence s e
  | RecordIndependentReview r => decide_independent_review s r
  | DecideProjectSuccessor d => decide_project_successor s d
  | RecordPromotionDecision d => decide_promotion_record s d
  | RecordRecursiveCycleCheckpoint c => decide_cycle_checkpoint s c
  | RecordRecursiveStopDisposition d => decide_stop s d
  end.

(** The command an event answers. *)
Definition project_command (e : ProjectEvent) : ProjectCommand :=
  match e with
  | ProjectAnchorRecorded a => RecordProjectAnchor a
  | CapabilityLimitationRecorded l => RecordCapabilityLimitation l
  | QuestionContractCandidateRecorded c => RecordQuestionContractCandidate c
  | QuestionRepertoireDecided d => DecideQuestionRepertoire d
  | MethodBindingCandidateRecorded c => RecordMethodBindingCandidate c
  | MethodAdmissionDecided d => DecideMethodAdmission d
  | CapabilitySuccessorCandidateRecorded c => RecordCapabilitySuccessorCandidate c
  | CapabilityFrontierRecorded f => RecordCapabilityFrontier f
  | ImplementationGoalCandidateRecorded c => RecordImplementationGoalCandidate c
  | GoalAdmissionDecided d => DecideGoalAdmission d
  | ImplementationGoalSealed g => SealImplementationGoal g
  | CandidateEnvironmentRecorded m => RecordCandidateEnvironment m
  | DevelopmentEvidenceRecorded e => RecordDevelopmentEvidence e
  | IndependentReviewRecorded r => RecordIndependentReview r
  | ProjectSuccessorDecided d => DecideProjectSuccessor d
  | PromotionDecisionRecorded d => RecordPromotionDecision d
  | RecursiveCycleCheckpointRecorded c => RecordRecursiveCycleCheckpoint c
  | RecursiveStopDispositionRecorded d => RecordRecursiveStopDisposition d
  end.

(** The records an event adds. *)
Definition governance_records (e : ProjectEvent) : ProjectLedger :=
  match e with
  | ProjectAnchorRecorded a => MkProjectLedger [a] [] [] [] [] [] [] [] [] [] [] [] [] [] [] [] [] []
  | CapabilityLimitationRecorded l => MkProjectLedger [] [l] [] [] [] [] [] [] [] [] [] [] [] [] [] [] [] []
  | QuestionContractCandidateRecorded c => MkProjectLedger [] [] [c] [] [] [] [] [] [] [] [] [] [] [] [] [] [] []
  | QuestionRepertoireDecided d => MkProjectLedger [] [] [] [d] [] [] [] [] [] [] [] [] [] [] [] [] [] []
  | MethodBindingCandidateRecorded c => MkProjectLedger [] [] [] [] [c] [] [] [] [] [] [] [] [] [] [] [] [] []
  | MethodAdmissionDecided d => MkProjectLedger [] [] [] [] [] [d] [] [] [] [] [] [] [] [] [] [] [] []
  | CapabilitySuccessorCandidateRecorded c => MkProjectLedger [] [] [] [] [] [] [c] [] [] [] [] [] [] [] [] [] [] []
  | CapabilityFrontierRecorded f => MkProjectLedger [] [] [] [] [] [] [] [f] [] [] [] [] [] [] [] [] [] []
  | ImplementationGoalCandidateRecorded c => MkProjectLedger [] [] [] [] [] [] [] [] [c] [] [] [] [] [] [] [] [] []
  | GoalAdmissionDecided d => MkProjectLedger [] [] [] [] [] [] [] [] [] [d] [] [] [] [] [] [] [] []
  | ImplementationGoalSealed g => MkProjectLedger [] [] [] [] [] [] [] [] [] [] [g] [] [] [] [] [] [] []
  | CandidateEnvironmentRecorded m => MkProjectLedger [] [] [] [] [] [] [] [] [] [] [] [m] [] [] [] [] [] []
  | DevelopmentEvidenceRecorded e => MkProjectLedger [] [] [] [] [] [] [] [] [] [] [] [] [e] [] [] [] [] []
  | IndependentReviewRecorded r => MkProjectLedger [] [] [] [] [] [] [] [] [] [] [] [] [] [r] [] [] [] []
  | ProjectSuccessorDecided d => MkProjectLedger [] [] [] [] [] [] [] [] [] [] [] [] [] [] [d] [] [] []
  | PromotionDecisionRecorded d => MkProjectLedger [] [] [] [] [] [] [] [] [] [] [] [] [] [] [] [d] [] []
  | RecursiveCycleCheckpointRecorded c => MkProjectLedger [] [] [] [] [] [] [] [] [] [] [] [] [] [] [] [] [c] []
  | RecursiveStopDispositionRecorded d => MkProjectLedger [] [] [] [] [] [] [] [] [] [] [] [] [] [] [] [] [] [d]
  end.
