(* ===== verification/Decide.v ===== *)
(** * Commands, events and [decide]: [src/rci/core/commands.py], [events.py], [transitions.py]

    One definition per command handler of [decide], with the guards in the
    order of the code.  A handler returns the event bodies of the code's tuple of
    events; [decide] stamps them with the command's event identity, inquiry and
    time, as every handler does.  The handlers of the extension ledgers are in
    Retention, Consolidation, Licensing and Governance; they are dispatched here.
    Dynamic parts of error messages are left out. *)

From S2P Require Import Prelude Digest Memory Model Claims Warrant Support Policy Planning Backlog Effects Probes State Lifecycle Guards Retention Consolidation Licensing Governance.

(** ** Commands and events *)

(** [CommandBase] and [EventMetadata] *)
Record Meta : Type := MkMeta {
  meta_event_id : string;
  meta_inquiry_id : string;
  meta_occurred_at : Z;
}.
#[export] Instance Meta_eq_dec : EqDecision Meta.
Proof. solve_decision. Defined.

Record WarrantEvaluation : Type := MkWarrantEvaluation {
  we_decision_id : string;
  we_evidence_id : string;
  we_checker_verdict_id : string;
  we_proposition_id : string;
  we_proposition_kind : PropositionKind;
  we_scope : Scope;
}.

Record Promotion : Type := MkPromotion {
  pm_promotion_id : string;
  pm_lemma_id : string;
  pm_relation_id : string;
  pm_proposition_kind : PropositionKind;
  pm_scope : Scope;
  pm_applicability : Applicability;
  pm_support_routes : list SupportRoute;
  pm_warrant_decision_id : string;
  pm_provenance_refs : list string;
  pm_source_claim_ids : list string;
  pm_predecessor_refs : list string;
}.

(** The commands and events of the extension ledgers. *)
Inductive ExtensionCommand : Type :=
| RetentionStep (c : RetentionCommand)
| LearningStep (c : LearningCommand)
| CompressionStep (c : CompressionCommand)
| ProjectStep (c : ProjectCommand).

Inductive ExtensionEvent : Type :=
| RetentionFact (e : RetentionEvent)
| LearningFact (e : LearningEvent)
| CompressionFact (e : CompressionEvent)
| ProjectFact (e : ProjectEvent).

Inductive CommandBody : Type :=
| StartInquiry (manifest_artifact : ArtifactRef) (policy_version : string) (context : InquiryContext)
| RecordBacklogEffect (effect : BacklogEffect)
| RecordStepPlan (plan : StepPlan)
| RequestEffect (request : EffectRequest)
| PlanEffectAttempt (plan : EffectAttemptPlan)
| StartEffectAttempt (attempt_id : string)
| RecordNoAttemptDisposition (disposition : NoAttemptDisposition)
| RecordAttemptOutcome (request_id : string) (outcome : AttemptOutcome)
| RecordDecodeOutcome (request_id : string) (outcome : DecodeOutcome)
| AcceptEffectResult (request_id decoded_outcome_id : string)
| AdmitClaim (claim : Claim)
| OpenObligation (obligation : Obligation)
| RecordObligationDisposition (disposition : ObligationDisposition)
| RecordCandidate (candidate : Candidate)
| RecordResidual (residual : Residual)
| AppendCorrection (correction : Correction)
| ChangeGuardStanding (change : GuardChange)
| RecordNogood (nogood : Nogood)
| ChangeSupportRouteStanding (change : SupportRouteStandingChange)
| ChangeNogoodStanding (change : NogoodStandingChange)
| RecordEvidence (evidence : Evidence)
| RecordCheckerVerdict (checker_verdict : CheckerVerdictRecord)
| EvaluateWarrant (evaluation : WarrantEvaluation)
| PromoteClaim (promotion : Promotion)
| AdmitProbe (probe : ProbeIdentity)
| RecordCognitivePlan (plan : CognitiveAttemptPlan)
| SealPrediction (prediction : PredictionSeal)
| RecordProbeObservation (observation : ProbeEvent)
| RecordReconstruction (reconstruction : Reconstruction)
| RecordMismatch (mismatch : Mismatch)
| CommitSemanticDelta (delta : SemanticDelta)
| Extend (command : ExtensionCommand).

Record DomainCommand : Type := MkCommand { cmd_meta : Meta; cmd_body : CommandBody }.

Inductive EventBody : Type :=
| InquiryStarted (manifest_artifact : ArtifactRef) (policy_version : string) (context : InquiryContext)
| BacklogEffectRecorded (effect : BacklogEffect)
| StepPlanRecorded (plan : StepPlan)
| EffectRequested (request : EffectRequest)
| EffectAttemptPlanned (plan : EffectAttemptPlan)
| EffectAttemptStarted (attempt_id : string)
| EffectNoAttemptDispositionRecorded (disposition : NoAttemptDisposition)
| EffectAttemptOutcomeRecorded (request_id : string) (outcome : AttemptOutcome)
| EffectDecodeOutcomeRecorded (request_id : string) (outcome : DecodeOutcome)
| EffectResultAccepted (request_id decoded_outcome_id : string)
| ClaimAdmitted (claim : Claim) (derived_conflicts : list Conflict)
    (derived_obligations : list Obligation)
| ObligationOpened (obligation : Obligation)
| ObligationDispositionRecorded (disposition : ObligationDisposition)
| CandidateRecorded (candidate : Candidate)
| ResidualRecorded (residual : Residual)
| CorrectionAppended (correction : Correction)
| GuardStandingChanged (change : GuardChange)
| NogoodRecorded (nogood : Nogood)
| SupportRouteStandingChanged (change : SupportRouteStandingChange)
| NogoodStandingChanged (change : NogoodStandingChange)
| EvidenceRecorded (evidence : Evidence)
| CheckerVerdictRecorded (checker_verdict : CheckerVerdictRecord)
| WarrantDecisionRecorded (scope : Scope) (decision : WarrantDecisionRecord)
| LemmaPromoted (version : LemmaVersion) (support : LemmaSupport) (link : PromotionLink)
| ProbeAdmitted (probe : ProbeIdentity)
| CognitivePlanRecorded (plan : CognitiveAttemptPlan)
| PredictionSealed (prediction : PredictionSeal)
| ProbeObservationRecorded (observation : ProbeEvent)
| ReconstructionRecorded (reconstruction : Reconstruction)
| MismatchRecorded (mismatch : Mismatch)
| SemanticDeltaCommitted (delta : SemanticDelta)
| Extended (event : ExtensionEvent).

Record DomainEvent : Type := MkEvent { evt_meta : Meta; evt_body : EventBody }.

(** ** Guards shared by the handlers *)

Abbreviation bodies := (result (list EventBody)).

Definition require_active (s : InquiryState) (inquiry_id : string) : result unit :=
  raise_if (st_status s !=? STATUS_ACTIVE) InvalidCommandError "the inquiry has not been started";;
  raise_if (st_inquiry_id s !=? Some inquiry_id)
    InvalidCommandError "the command inquiry id does not match the aggregate".

Definition require_request (s : InquiryState) (request_id : string) : result EffectRequestState :=
  match request_by_id s request_id with
  | Some r => Ok r
  | None => invalid_command "unknown effect request"
  end.

Definition scope_matches_context (s : InquiryState) (scope : Scope) : bool :=
  match st_context s with
  | None => false
  | Some c =>
    (scope_id scope ==? ctx_scope_id c) && (scope_fingerprint scope ==? ctx_scope_fingerprint c)
    && (scope_binding_revision scope ==? ctx_binding_revision c)
    && (scope_assumption_ids scope ==? ctx_assumption_ids c)
    && (scope_applicability_guard_id scope ==? ctx_guard_condition_id c)
    && (scope_finite_universe_hash scope ==? ctx_finite_universe_hash c)
    && (scope_closed_world scope ==? ctx_closed_world c)
  end.

Definition known_entity_ids (s : InquiryState) : list string :=
  map claim_id (claims s) ++ map conflict_id (conflicts s) ++ map obl_id (obligations s)
  ++ map cand_id (candidates s) ++ map resid_id (residuals s) ++ map lv_id (lemma_versions s)
  ++ map rc_id (reconstructions s).

Definition claim_attack_is_exactly_discharged (s : InquiryState) (claim : Claim) : result bool :=
  match claim_proposition_id claim with
  | None => Ok false
  | Some p =>
    active ← current_active_lemma_ids s;
    Ok (existsb (λ v, mem (lv_id v) active && (lv_relation_id v ==? p)
                      && (scope_fingerprint (lv_scope v) ==? scope_fingerprint (claim_scope claim)))
          (lemma_versions s))
  end.

(** The conflicts of a new claim with the recorded ones, first seen first. *)
Fixpoint new_conflicts (known : list string) (existing : list Claim) (claim : Claim) :
    result (list Conflict) :=
  match existing with
  | [] => Ok []
  | x :: existing =>
    c ← structural_conflict x claim;
    match c with
    | Some c =>
      if mem (conflict_id c) known then new_conflicts known existing claim
      else cs ← new_conflicts (conflict_id c :: known) existing claim; Ok (c :: cs)
    | None => new_conflicts known existing claim
    end
  end.

Fixpoint conflict_obligations (cs : list Conflict) : result (list Obligation) :=
  match cs with
  | [] => Ok []
  | c :: cs => o ← conflict_obligation c; os ← conflict_obligations cs; Ok (o :: os)
  end.

(** Keep the first obligation of every fingerprint not yet known. *)
Fixpoint new_obligations (known : list string) (candidates : list Obligation) : list Obligation :=
  match candidates with
  | [] => []
  | o :: os =>
    if mem (obligation_fingerprint o) known then new_obligations known os
    else o :: new_obligations (obligation_fingerprint o :: known) os
  end.

Definition derive_claim_consequences (s : InquiryState) (claim : Claim) :
    result (list Conflict * list Obligation) :=
  cs ← new_conflicts (map conflict_id (conflicts s)) (claims s) claim;
  let cs := sort_by conflict_id cs in
  attack ← mandatory_attack_obligation claim;
  attack ← match attack with
           | None => Ok []
           | Some o =>
             discharged ← claim_attack_is_exactly_discharged s claim;
             Ok (if discharged : bool then [] else [o])
           end;
  os ← conflict_obligations cs;
  Ok (cs, sort_by obl_id (new_obligations (map obligation_fingerprint (obligations s)) (attack ++ os))).

(** ** Inquiry, backlog and plans *)

Definition decide_start_inquiry (s : InquiryState) (m : Meta) (manifest : ArtifactRef)
    (policy : string) (context : InquiryContext) : bodies :=
  if st_status s ==? NOT_STARTED then Ok [InquiryStarted manifest policy context]
  else if (st_inquiry_id s ==? Some (meta_inquiry_id m))
          && (st_manifest_artifact s ==? Some manifest)
          && (st_policy_version s ==? Some policy) && (st_context s ==? Some context) then Ok []
  else identity_conflict "the inquiry identity is already bound to different data".

(** The projection of the recorded effects, applied one at a time. *)
Fixpoint project_backlog (items : list BacklogItem) (effects : list BacklogEffect) :
    result (list BacklogItem) :=
  match effects with
  | [] => Ok items
  | e :: effects => items ← apply_effects items [e] default_policy; project_backlog items effects
  end.

Definition decide_record_backlog_effect (s : InquiryState) (e : BacklogEffect) : bodies :=
  raise_if (negb (mem (be_kind e) G1_APPLICABLE_EFFECT_KINDS))
    InvalidCommandError "backlog effect is proposal-only in G1";;
  unless_recorded same (backlog_effect_by_id s (be_id e)) e
    "backlog effect id was reused for different content"
    match items ← project_backlog [] (backlog_effects s); apply_effects items [e] default_policy with
    | Ok _ => Ok [BacklogEffectRecorded e]
    | Raise x =>
      if (exn_class x ==? PermissionError) || is_value_error (exn_class x)
      then invalid_command "invalid backlog effect sequence" else Raise x
    end.

Definition decide_record_step_plan (s : InquiryState) (plan : StepPlan) : bodies :=
  unless_recorded same (step_plan_by_id s (plan_id plan)) plan "step plan id was reused"
    (match st_context s with
     | None => invalid_command "step plan policy does not match the inquiry context"
     | Some c => raise_if (plan_policy_version plan !=? ctx_scheduler_policy_version c)
                   InvalidCommandError "step plan policy does not match the inquiry context"
     end;;
     if plan_status plan ==? READY then
       match obligation_by_id s (default "" (plan_selected_obligation_id plan)),
             plan_selected_attempt_key plan with
       | Some o, Some k =>
         raise_if (current_obligation_status s (obl_id o) !=? Some OPEN)
           InvalidCommandError "ready step plan must select an open obligation";;
         raise_if (negb (attempt_key_matches k o))
           InvalidCommandError "step plan attempt key does not match the exact obligation";;
         Ok [StepPlanRecorded plan]
       | _, _ => invalid_command "ready step plan must select an owned obligation"
       end
     else Ok [StepPlanRecorded plan]).

(** ** The effect lifecycle *)

Definition decide_request_effect (s : InquiryState) (request : EffectRequest) : bodies :=
  unless_recorded same (ers_request <$> request_by_id s (req_id request)) request
    "effect request id was reused for different content"
    match step_plan_by_id s (req_step_plan_id request) with
    | None => lifecycle_error "an effect request requires a persisted step plan"
    | Some plan =>
      raise_if (plan_status plan !=? READY)
        EffectLifecycleError "an effect request requires a ready step plan";;
      match obligation_by_id s (default "" (plan_selected_obligation_id plan)),
            plan_selected_attempt_key plan with
      | Some o, Some k =>
        raise_if (negb (attempt_key_matches k o)) EffectLifecycleError
          "effect request step plan does not own an exact obligation and attempt key";;
        Ok [EffectRequested request]
      | _, _ => lifecycle_error
                  "effect request step plan does not own an exact obligation and attempt key"
      end
    end.

Definition attempt_by_id (s : InquiryState) (id : string) : option AttemptState :=
  first (λ a, att_id a ==? id) (all_attempts (effect_requests s)).

Definition decide_plan_effect_attempt (s : InquiryState) (plan : EffectAttemptPlan) : bodies :=
  request ← require_request s (ap_request_id plan);
  unless_recorded same (att_plan <$> attempt_by_id s (ap_id plan)) plan
    "attempt id was reused for a different plan"
    (raise_if (is_some (ers_accepted_decoded_outcome_id request))
       EffectLifecycleError "a resolved request cannot plan another attempt";;
     Ok [EffectAttemptPlanned plan]).

(** The first request that has the attempt, with the attempt. *)
Definition containing_request (s : InquiryState) (attempt_id : string) :
    option (EffectRequestState * AttemptState) :=
  r ← first (λ r, existsb (λ a, att_id a ==? attempt_id) (ers_attempts r)) (effect_requests s);
  a ← first (λ a, att_id a ==? attempt_id) (ers_attempts r);
  Some (r, a).

Definition decide_start_effect_attempt (s : InquiryState) (attempt_id : string) : bodies :=
  match containing_request s attempt_id with
  | None => lifecycle_error "an attempt start requires a persisted attempt plan"
  | Some (request, attempt) =>
    if att_started attempt then Ok []
    else
      raise_if (is_some (ers_accepted_decoded_outcome_id request))
        EffectLifecycleError "a resolved request cannot start another attempt";;
      raise_if (is_some (att_outcome attempt))
        EffectLifecycleError "an attempt cannot start after a terminal outcome";;
      Ok [EffectAttemptStarted attempt_id]
  end.

Definition all_no_attempts (s : InquiryState) : list NoAttemptDisposition :=
  flat_map ers_no_attempt_dispositions (effect_requests s).

Definition decide_record_no_attempt (s : InquiryState) (d : NoAttemptDisposition) : bodies :=
  request ← require_request s (na_request_id d);
  raise_if (na_step_plan_id d !=? req_step_plan_id (ers_request request)) EffectLifecycleError
    "a no-attempt disposition must reference its request's persisted step plan";;
  unless_recorded same (first (λ x, na_id x ==? na_id d) (all_no_attempts s)) d
    "no-attempt disposition id was reused"
    (raise_if (is_some (ers_accepted_decoded_outcome_id request)) EffectLifecycleError
       "a resolved request cannot record a new no-attempt disposition";;
     Ok [EffectNoAttemptDispositionRecorded d]).

Definition decide_record_attempt_outcome (s : InquiryState) (request_id : string)
    (outcome : AttemptOutcome) : bodies :=
  request ← require_request s request_id;
  match first (λ a, att_id a ==? outcome_attempt_id outcome) (ers_attempts request) with
  | None => lifecycle_error "an outcome requires a persisted attempt plan"
  | Some attempt =>
    raise_if (negb (att_started attempt))
      EffectLifecycleError "an attempt must start before a terminal outcome";;
    raise_if (rs_id (ap_route (att_plan attempt)) !=? outcome_route_id outcome)
      EffectLifecycleError "outcome route does not match the attempt plan";;
    match att_outcome attempt with
    | Some o => if o ==? outcome then Ok []
                else lifecycle_error "an attempt can have only one terminal outcome"
    | None =>
      match outcome_return outcome with
      | Some ret =>
        raise_if (mem (ret_id ret) (captured_external_return_ids s))
          IdentityConflictError "external return id was already captured"
      | None => Ok tt
      end;;
      Ok [EffectAttemptOutcomeRecorded request_id outcome]
    end
  end.

Definition decide_record_decode_outcome (s : InquiryState) (request_id : string)
    (outcome : DecodeOutcome) : bodies :=
  request ← require_request s request_id;
  unless_recorded same (find_decode (dec_id outcome) (all_decodes (effect_requests s))) outcome
    "decode outcome id was reused"
    (raise_if (negb (mem (dec_return_id outcome) (return_ids (ers_attempts request))))
       EffectLifecycleError "a decode outcome requires this request's captured return";;
     Ok [EffectDecodeOutcomeRecorded request_id outcome]).

Definition decide_accept_effect_result (s : InquiryState) (request_id decoded_outcome_id : string) :
    bodies :=
  request ← require_request s request_id;
  match ers_accepted_decoded_outcome_id request with
  | Some id => if id ==? decoded_outcome_id then Ok []
               else lifecycle_error "an effect request can accept at most one result"
  | None =>
    raise_if (negb (decode_is_accepted (ers_decode_outcomes request) decoded_outcome_id))
      EffectLifecycleError "only a recorded successful Decoded outcome can be accepted";;
    Ok [EffectResultAccepted request_id decoded_outcome_id]
  end.

(** ** Claims and obligations *)

Definition decide_admit_claim (s : InquiryState) (claim : Claim) : bodies :=
  unless_recorded claim_eqb (claim_by_id s (claim_id claim)) claim
    "claim id was reused for different content"
    (raise_if (claim_status claim !=? PROVISIONAL)
       InvalidCommandError "new question-derived claims must begin provisional";;
     raise_if (negb (scope_matches_context s (claim_scope claim)))
       InvalidCommandError "claim scope does not match the inquiry context";;
     derived ← derive_claim_consequences s claim;
     Ok [ClaimAdmitted claim derived.1 derived.2]).

Definition decide_open_obligation (s : InquiryState) (o : Obligation) : bodies :=
  unless_recorded obligation_eqb (obligation_by_id s (obl_id o)) o
    "obligation id was reused for different content"
    (if existsb (λ x, obligation_fingerprint x ==? obligation_fingerprint o) (obligations s)
     then Ok []
     else
       raise_if (obl_status o !=? OPEN) InvalidCommandError "new obligations must begin open";;
       raise_if (negb (scope_matches_context s (obl_scope o)))
         InvalidCommandError "obligation scope does not match the inquiry context";;
       raise_if (negb (subset (obl_parent_obligation_ids o) (map obl_id (obligations s))))
         InvalidCommandError "obligation parent references must already exist";;
       Ok [ObligationOpened o]).

(** The transitions [lawful] lists. *)
Definition lawful (current : ObligationStatus) : list ObligationStatus :=
  match current with
  | OPEN => [BLOCKED; SATISFIED; IMPOSSIBLE; STATUS_UNKNOWN]
  | BLOCKED => [OPEN; SATISFIED; STATUS_UNKNOWN]
  | STATUS_UNKNOWN => [OPEN]
  | SATISFIED => [OPEN]
  | IMPOSSIBLE => [OPEN]
  end.

Definition hard_decision_ids (s : InquiryState) (o : Obligation) : list string :=
  map wd_id (List.filter (λ d, (wd_warrant_class d ==? HARD) && (wd_proposition_id d ==? obl_carrier_id o)
                               && (wd_scope_fingerprint d ==? scope_fingerprint (obl_scope o)))
               (warrant_decisions s)).

(** The plan selects the obligation with its exact attempt key. *)
Definition plan_selects (plan : StepPlan) (o : Obligation) : bool :=
  (plan_status plan ==? READY) && (plan_selected_obligation_id plan ==? Some (obl_id o))
  && match plan_selected_attempt_key plan with
     | Some k => attempt_key_matches k o
     | None => false
     end.

Definition accepted_decode_ids (s : InquiryState) (o : Obligation) : list string :=
  omap (λ r, id ← ers_accepted_decoded_outcome_id r;
             plan ← step_plan_by_id s (req_step_plan_id (ers_request r));
             if plan_selects plan o then Some id else None)
       (effect_requests s).

Definition decide_record_obligation_disposition (s : InquiryState) (d : ObligationDisposition) :
    bodies :=
  match obligation_by_id s (disp_obligation_id d) with
  | None => invalid_command "obligation disposition references an unknown obligation"
  | Some o =>
    unless_recorded same (disposition_by_id s (disp_id d)) d "obligation disposition id was reused"
      (let tail := last (disposition_history s (obl_id o)) in
       raise_if (disp_predecessor_id d !=? (disp_id <$> tail))
         InvalidCommandError "obligation disposition must extend the current history tail";;
       let current := match tail with Some x => disp_status x | None => obl_status o end in
       raise_if (disp_status d ==? current)
         InvalidCommandError "obligation disposition must change standing";;
       raise_if (disp_status d ==? IMPOSSIBLE) InvalidCommandError
         "generic dispositions cannot establish impossibility; use a typed checked discharge";;
       raise_if ((disp_status d ==? SATISFIED)
                 && (is_nil (disp_evidence_refs d)
                     || negb (subset (disp_evidence_refs d)
                                (hard_decision_ids s o ++ accepted_decode_ids s o))))
         InvalidCommandError
         "satisfied obligations require owned evidence tied to the exact obligation and scope";;
       raise_if (negb (mem (disp_status d) (lawful current)))
         InvalidCommandError "illegal obligation status transition";;
       Ok [ObligationDispositionRecorded d])
  end.

Definition decide_record_candidate (s : InquiryState) (c : Candidate) : bodies :=
  unless_recorded candidate_eqb (first (λ x, cand_id x ==? cand_id c) (candidates s)) c
    "candidate id was reused"
    (raise_if (negb (scope_matches_context s (cand_scope c)))
       InvalidCommandError "candidate scope does not match the inquiry context";;
     Ok [CandidateRecorded c]).

Definition decide_record_residual (s : InquiryState) (r : Residual) : bodies :=
  unless_recorded residual_eqb (first (λ x, resid_id x ==? resid_id r) (residuals s)) r
    "residual id was reused"
    (raise_if (negb (scope_matches_context s (resid_scope r)))
       InvalidCommandError "residual scope does not match the inquiry context";;
     raise_if (negb (subset (resid_source_obligation_ids r) (map obl_id (obligations s))))
       InvalidCommandError "residual references an unknown obligation";;
     Ok [ResidualRecorded r]).

Definition decide_append_correction (s : InquiryState) (c : Correction) : bodies :=
  unless_recorded same (first (λ x, corr_id x ==? corr_id c) (corrections s)) c
    "correction id was reused"
    (raise_if (negb (scope_matches_context s (corr_scope c)))
       InvalidCommandError "correction scope does not match the inquiry context";;
     raise_if (negb (mem (corr_target_id c) (known_entity_ids s)))
       InvalidCommandError "correction target is not recorded";;
     raise_if (negb (subset (corr_related_ids c) (known_entity_ids s)))
       InvalidCommandError "correction relation references an unknown record";;
     Ok [CorrectionAppended c]).

(** ** Guards, nogoods and standing *)

Definition decide_change_guard_standing (s : InquiryState) (g : GuardChange) : bodies :=
  unless_recorded same (first (λ x, guard_id x ==? guard_id g) (guard_changes s)) g
    "guard-change id was reused"
    (raise_if ((ctx_scope_fingerprint <$> st_context s) !=? Some (guard_scope_fingerprint g))
       InvalidCommandError "guard change scope does not match the inquiry context";;
     let tail := latest_guard_change s (guard_condition_id g) in
     raise_if (guard_predecessor_id g !=? (guard_id <$> tail))
       InvalidCommandError "guard change must extend the current history tail";;
     raise_if ((guard_standing <$> tail) ==? Some (guard_standing g))
       InvalidCommandError "guard change must change standing";;
     Ok [GuardStandingChanged g]).

Definition decide_record_nogood (s : InquiryState) (n : Nogood) : bodies :=
  unless_recorded same (nogood_by_id s (ng_id n)) n "nogood id was reused"
    match st_context s with
    | None => invalid_command "nogood does not match the current support class"
    | Some c =>
      raise_if (negb (nogood_in_support_class n c))
        InvalidCommandError "nogood does not match the current support class";;
      match warrant_decision_by_id s (ng_warrant_decision_id n) with
      | None => invalid_command "nogood requires an exact recorded hard warrant decision"
      | Some d =>
        raise_if (negb (nogood_decision_matches n d))
          InvalidCommandError "nogood requires an exact recorded hard warrant decision";;
        raise_if (negb (check_resolves (evidence_records s) (checker_verdicts s)
                          (ctx_discharge_mechanism_ids c) (ng_check n) (ng_id n) EXISTENTIAL
                          (ng_scope_fingerprint n)))
          InvalidCommandError "nogood check is not independently valid";;
        Ok [NogoodRecorded n]
      end
    end.

Definition decide_change_route_standing (s : InquiryState) (c : SupportRouteStandingChange) : bodies :=
  unless_recorded same (first (λ x, rsc_id x ==? rsc_id c) (support_route_standing_changes s)) c
    "support-route standing-change id was reused"
    (raise_if (is_none (support_route_by_id s (rsc_support_route_id c)))
       InvalidCommandError "support-route standing change references an unknown route";;
     let tail := latest_support_route_standing_change s (rsc_support_route_id c) in
     raise_if (rsc_predecessor_id c !=? (rsc_id <$> tail))
       InvalidCommandError "support-route standing change must extend its exact tail";;
     raise_if (rsc_standing c ==? default STANDING (rsc_standing <$> tail))
       InvalidCommandError "support-route standing change must change standing";;
     Ok [SupportRouteStandingChanged c]).

Definition decide_change_nogood_standing (s : InquiryState) (c : NogoodStandingChange) : bodies :=
  unless_recorded same (first (λ x, nsc_id x ==? nsc_id c) (nogood_standing_changes s)) c
    "nogood standing-change id was reused"
    (raise_if (is_none (nogood_by_id s (nsc_nogood_id c)))
       InvalidCommandError "nogood standing change references an unknown nogood";;
     let tail := latest_nogood_standing_change s (nsc_nogood_id c) in
     raise_if (nsc_predecessor_id c !=? (nsc_id <$> tail))
       InvalidCommandError "nogood standing change must extend its exact tail";;
     raise_if (nsc_standing c ==? default STANDING (nsc_standing <$> tail))
       InvalidCommandError "nogood standing change must change standing";;
     Ok [NogoodStandingChanged c]).

(** ** Evidence, warrant, promotion *)

Definition decide_record_evidence (s : InquiryState) (e : Evidence) : bodies :=
  raise_if ((ctx_scope_fingerprint <$> st_context s) !=? Some (ev_scope_fingerprint e))
    InvalidCommandError "evidence scope does not match the inquiry context";;
  unless_recorded same (evidence_by_id s (ev_id e)) e "evidence id was reused"
    (Ok [EvidenceRecorded e]).

Definition decide_record_checker_verdict (s : InquiryState) (v : CheckerVerdictRecord) : bodies :=
  match evidence_by_id s (cv_evidence_id v) with
  | None => invalid_command "checker verdict requires recorded evidence"
  | Some e =>
    raise_if (negb (verdict_pins_match v e))
      InvalidCommandError "checker verdict does not match the exact evidence record";;
    unless_recorded same (checker_verdict_by_id s (cv_id v)) v "checker verdict id was reused"
      (Ok [CheckerVerdictRecorded v])
  end.

Definition decide_evaluate_warrant (s : InquiryState) (w : WarrantEvaluation) : bodies :=
  raise_if (negb (scope_matches_context s (we_scope w)))
    InvalidCommandError "warrant scope does not match the inquiry context";;
  match evidence_by_id s (we_evidence_id w), checker_verdict_by_id s (we_checker_verdict_id w) with
  | Some e, Some v =>
    raise_if (cv_evidence_id v !=? ev_id e)
      InvalidCommandError "warrant evidence and checker verdict do not align";;
    match st_context s with
    | None => invalid_command "an active inquiry requires warrant policy context"
    | Some c =>
      let (warrant_class, reason) :=
        decide_evidence_warrant e v (we_proposition_id w) (we_proposition_kind w) (we_scope w)
          (ctx_discharge_mechanism_ids c) in
      let decision :=
        MkWarrantDecisionRecord (we_decision_id w) (ev_id e) (cv_id v) (we_proposition_id w)
          (we_proposition_kind w) (scope_fingerprint (we_scope w)) warrant_class reason
          (ctx_warrant_policy_version c) in
      validate_warrant_decision decision;;
      unless_recorded same (warrant_decision_by_id s (we_decision_id w)) decision
        "warrant decision id was reused"
        (Ok [WarrantDecisionRecorded (we_scope w) decision])
    end
  | _, _ => invalid_command "warrant evaluation requires recorded evidence and check"
  end.

(** [tuple(state.claim_by_id(item) for item in ids)], if none is [None] *)
Definition source_claims (s : InquiryState) (ids : list string) : option (list Claim) :=
  mapM (claim_by_id s) ids.

Definition promotion_decision_matches (p : Promotion) (d : WarrantDecisionRecord) : bool :=
  (wd_warrant_class d ==? HARD) && (wd_proposition_id d ==? pm_relation_id p)
  && (wd_proposition_kind d ==? pm_proposition_kind p)
  && (wd_scope_fingerprint d ==? scope_fingerprint (pm_scope p)).

Definition promotion_request (s : InquiryState) (c : InquiryContext) (p : Promotion)
    (e : Evidence) (v : CheckerVerdictRecord) (lemmas : list WarrantedLemma) : PromotionRequest :=
  MkPromotionRequest (pm_lemma_id p) (pm_relation_id p) (pm_proposition_kind p) (pm_scope p)
    (pm_applicability p) (pm_support_routes p) e v (evidence_records s) (checker_verdicts s)
    (ctx_discharge_mechanism_ids c) (ctx_warrant_policy_version c) (pm_provenance_refs p)
    (pm_source_claim_ids p) (pm_predecessor_refs p) lemmas (ctx_assumption_ids c)
    (sorted (standing_context_ids s)).

(** The guards before the promotion policy runs. *)
Definition promotion_inputs (s : InquiryState) (p : Promotion) :
    result (WarrantDecisionRecord * Evidence * CheckerVerdictRecord) :=
  match source_claims s (pm_source_claim_ids p) with
  | None => invalid_command "promotion must preserve recorded source claims"
  | Some sources =>
    raise_if (is_nil (pm_source_claim_ids p))
      InvalidCommandError "promotion must preserve recorded source claims";;
    raise_if (existsb (λ c, scope_fingerprint (claim_scope c) !=? scope_fingerprint (pm_scope p)) sources)
      InvalidCommandError "promotion scope differs from its source claim";;
    raise_if (existsb (λ c, is_some (claim_proposition_id c)
                            && (claim_proposition_id c !=? Some (pm_relation_id p))) sources)
      InvalidCommandError "promotion proposition differs from its source claim"
  end;;
  raise_if (negb (scope_matches_context s (pm_scope p)))
    InvalidCommandError "promotion scope does not match the inquiry context";;
  raise_if (negb (subset (pm_predecessor_refs p) (map lv_id (lemma_versions s))))
    InvalidCommandError "promotion ancestry references an unknown lemma version";;
  match warrant_decision_by_id s (pm_warrant_decision_id p) with
  | None => invalid_command "promotion requires a recorded warrant decision"
  | Some d =>
    raise_if (negb (promotion_decision_matches p d))
      InvalidCommandError "promotion requires an exact hard warrant decision";;
    match evidence_by_id s (wd_evidence_id d), checker_verdict_by_id s (wd_checker_verdict_id d) with
    | Some e, Some v =>
      raise_if (existsb (λ r, negb (mem (wd_id d) (route_warrant_refs r))) (pm_support_routes p))
        InvalidCommandError "every support route must bind the warrant decision";;
      Ok (d, e, v)
    | _, _ => invalid_command "promotion warrant evidence or check is unavailable"
    end
  end.

Definition decide_promote_claim (s : InquiryState) (p : Promotion) : bodies :=
  inputs ← promotion_inputs s p;
  let '(d, e, v) := inputs in
  match st_context s with
  | None => raise RuntimeError "assert state.context is not None"
  | Some c =>
    lemmas ← warranted_lemmas s;
    promotion ← decide_promotion (promotion_request s c p e v lemmas);
    match pd_outcome promotion, pd_lemma promotion with
    | ACCEPTED, Some l =>
      let link := MkPromotionLink (pm_promotion_id p) (wl_id l) (pm_source_claim_ids p) (wd_id d) in
      validate_link link;;
      let existing_version := first (λ x, lv_id x ==? wl_id l) (lemma_versions s) in
      let existing_link := first (λ x, pl_id x ==? pl_id link) (promotion_links s) in
      if is_some existing_version || is_some existing_link then
        if (existing_version ==? Some (wl_version l)) && (existing_link ==? Some link)
           && (first (λ x, ls_lemma_version_id x ==? wl_id l) (lemma_supports s)
               ==? Some (wl_support l))
        then Ok [] else identity_conflict "lemma or promotion identity was reused"
      else Ok [LemmaPromoted (wl_version l) (wl_support l) link]
    | _, _ => invalid_command (pd_reason promotion)
    end
  end.

(** ** Cognition *)

Definition learned_probe_key : string := "learned-recurrent-probe@1.0.0".

Definition decide_admit_probe (s : InquiryState) (p : ProbeIdentity) : bodies :=
  unless_recorded same
    (first (λ x, probe_fingerprint x ==? probe_fingerprint p) (admitted_probes s)) p
    "probe fingerprint was reused"
    (raise_if (pi_question_contract_key p ==? learned_probe_key) InvalidCommandError
       "learned probes require a recorded evaluation and controller admission decision";;
     match st_context s with
     | None => invalid_command "probe binding does not match the inquiry context"
     | Some c =>
       raise_if ((pi_binding_revision p !=? ctx_binding_revision c)
                 || negb (mem (pi_binding_schema_id p) (ctx_carrier_schema_ids c))
                 || (pi_scope_fingerprint p !=? ctx_scope_fingerprint c))
         InvalidCommandError "probe binding does not match the inquiry context";;
       Ok [ProbeAdmitted p]
     end).

Definition decide_record_cognitive_plan (s : InquiryState) (p : CognitiveAttemptPlan) : bodies :=
  unless_recorded same (cognitive_plan_by_id s (cp_id p)) p "cognitive plan id was reused"
    match obligation_by_id s (cp_obligation_id p), request_by_id s (cp_effect_request_id p) with
    | Some o, Some request =>
      raise_if ((step_plan_by_id s (req_step_plan_id (ers_request request)) ≫= plan_selected_obligation_id)
                !=? Some (cp_obligation_id p))
        InvalidCommandError "effect request scheduler plan does not select this cognitive obligation";;
      raise_if (scope_fingerprint (obl_scope o) !=? cp_scope_fingerprint p)
        InvalidCommandError "cognitive plan scope differs from its obligation";;
      raise_if (st_sequence s <? cp_source_state_revision p)%Z
        InvalidCommandError "cognitive plan cannot reference a future state";;
      raise_if (negb (cp_planned_sequence p =? st_sequence s + 1)%Z)
        InvalidCommandError "cognitive plan sequence must match its event position";;
      match cp_effect_attempt_plan_id p ≫= attempt_by_id s with
      | Some a => raise_if (ap_request_id (att_plan a) !=? ers_id request)
                    InvalidCommandError "cognitive plan references another request's attempt"
      | None => Ok tt
      end;;
      Ok [CognitivePlanRecorded p]
    | _, _ => invalid_command "cognitive plan requires an obligation and effect request"
    end.

Definition prediction_by_id (s : InquiryState) (id : string) : option PredictionSeal :=
  first (λ p, ps_id p ==? id) (predictions s).

Definition decide_seal_prediction (s : InquiryState) (p : PredictionSeal) : bodies :=
  unless_recorded prediction_eqb (prediction_by_id s (ps_id p)) p "prediction id was reused"
    match cognitive_plan_by_id s (ps_cognitive_plan_id p) with
    | None => invalid_command "prediction requires a recorded cognitive plan"
    | Some cp =>
      raise_if ((ps_probe_or_action_id p !=? cp_probe_or_action_id cp)
                || (ps_scope_fingerprint p !=? cp_scope_fingerprint cp))
        InvalidCommandError "prediction does not match its cognitive plan";;
      raise_if (negb (subset (ps_basis_claim_ids p) (map claim_id (claims s))))
        InvalidCommandError "prediction basis references an unknown claim";;
      raise_if (negb (ps_sealed_sequence p =? st_sequence s + 1)%Z)
        InvalidCommandError "prediction seal sequence must match its event position";;
      raise_if (is_some ((cp_effect_attempt_plan_id cp ≫= attempt_by_id s) ≫= att_outcome))
        InvalidCommandError "prediction must be sealed before an attempt returns";;
      Ok [PredictionSealed p]
    end.

(** The lemma a comparability bridge cites, if it is active. *)
Definition check_observation_bridge (s : InquiryState) (c : InquiryContext) (b : ComparabilityBridge) :
    result unit :=
  active ← current_active_lemma_ids s;
  match first (λ v, (lv_id v ==? br_warrant_lemma_id b) && mem (lv_id v) active) (lemma_versions s) with
  | None => invalid_command "probe comparison bridge requires an active hard lemma"
  | Some v =>
    raise_if ((br_comparison_proposition_id b !=? lv_relation_id v)
              || (br_scope_fingerprint b !=? scope_fingerprint (lv_scope v))
              || (br_scope_fingerprint b !=? ctx_scope_fingerprint c))
      InvalidCommandError "probe comparison bridge warrant does not match its proposition and scope"
  end.

Definition observation_trace (s : InquiryState) (o : ProbeEvent) : ProbeTrace :=
  MkProbeTrace (event_fingerprint o)
    (List.filter (λ x, event_fingerprint x ==? event_fingerprint o) (probe_observations s))
    (pi_protected_horizon_id (pe_probe_identity o)) (pi_comparison_semantics_id (pe_probe_identity o))
    (pi_applicability_guard_id (pe_probe_identity o)) [].

Definition decide_record_probe_observation (s : InquiryState) (o : ProbeEvent) : bodies :=
  unless_recorded probe_event_eqb (first (λ x, pe_id x ==? pe_id o) (probe_observations s)) o
    "probe observation id was reused"
    (raise_if (negb (mem (event_fingerprint o) (map probe_fingerprint (admitted_probes s))))
       InvalidCommandError "probe observation requires an admitted probe identity";;
     match st_context s with
     | None => invalid_command "probe observation binding does not match the inquiry"
     | Some c =>
       raise_if ((pe_binding_revision o !=? ctx_binding_revision c)
                 || (pi_binding_revision (pe_probe_identity o) !=? ctx_binding_revision c)
                 || (pi_scope_fingerprint (pe_probe_identity o) !=? ctx_scope_fingerprint c))
         InvalidCommandError "probe observation binding does not match the inquiry";;
       raise_if (st_sequence s <? pe_state_revision o)%Z
         InvalidCommandError "probe observation cannot reference a future state";;
       raise_if (negb (subset (pe_external_return_ids o) (captured_external_return_ids s)))
         InvalidCommandError "probe observation references an unknown raw return";;
       raise_if (negb (subset (pe_interpretation_claim_ids o ++ option_list (pe_generated_answer_claim_id o))
                          (map claim_id (claims s))))
         InvalidCommandError "probe observation references an unknown claim";;
       match pe_comparability_bridge o with
       | Some b => check_observation_bridge s c b
       | None => Ok tt
       end;;
       let trace := observation_trace s o in
       validate_trace trace;;
       match append_probe_event trace o with
       | Ok _ => Ok [ProbeObservationRecorded o]
       | Raise x => if is_value_error (exn_class x) then invalid_command (exn_message x) else Raise x
       end
     end).

Definition decide_record_reconstruction (s : InquiryState) (r : Reconstruction) : bodies :=
  unless_recorded same (first (λ x, rc_id x ==? rc_id r) (reconstructions s)) r
    "reconstruction id was reused"
    (raise_if (negb (mem (rc_external_return_id r) (captured_external_return_ids s)))
       InvalidCommandError "reconstruction requires an owned raw return";;
     let decode_by_id := dict_by dec_id (all_decodes (effect_requests s)) in
     raise_if (negb (subset (rc_decode_outcome_ids r) (recorded_decode_outcome_ids s)))
       InvalidCommandError "reconstruction references an unknown decode outcome";;
     raise_if (existsb (λ id, (dec_return_id <$> decode_by_id !! id) !=? Some (rc_external_return_id r))
                       (rc_decode_outcome_ids r))
       InvalidCommandError "reconstruction decode does not belong to its raw return";;
     raise_if (negb (subset (rc_candidate_claim_ids r) (map claim_id (claims s))))
       InvalidCommandError "reconstruction references an unknown candidate claim";;
     raise_if (st_sequence s <? rc_prior_state_revision r)%Z
       InvalidCommandError "reconstruction cannot reference a future state";;
     raise_if (negb (rc_reconstructed_sequence r =? st_sequence s + 1)%Z)
       InvalidCommandError "reconstruction sequence must match its event position";;
     Ok [ReconstructionRecorded r]).

(** Some attempt of the predicted plan returned exactly this return. *)
Definition returned_from_plan (s : InquiryState) (attempt_plan_id return_id : string) : bool :=
  existsb (λ a, (att_id a ==? attempt_plan_id) && ((ret_id <$> attempt_return a) ==? Some return_id))
    (all_attempts (effect_requests s)).

Definition decide_record_mismatch (s : InquiryState) (m : Mismatch) : bodies :=
  unless_recorded same (first (λ x, mm_id x ==? mm_id m) (mismatches s)) m "mismatch id was reused"
    match prediction_by_id s (mm_prediction_id m) with
    | None => invalid_command "mismatch requires a sealed prediction"
    | Some p =>
      raise_if (mm_scope_fingerprint m !=? ps_scope_fingerprint p)
        InvalidCommandError "mismatch scope differs from its prediction";;
      raise_if (((λ c, scope_fingerprint (claim_scope c)) <$> claim_by_id s (mm_difference_claim_id m))
                !=? Some (mm_scope_fingerprint m))
        InvalidCommandError "mismatch difference claim is absent or out of scope";;
      match find_decode (mm_decode_outcome_id m) (all_decodes (effect_requests s)) with
      | Some (Decoded b _) =>
        raise_if (decode_external_return_id b !=? mm_external_return_id m)
          InvalidCommandError "mismatch decode and raw return do not match";;
        match cognitive_plan_by_id s (ps_cognitive_plan_id p) ≫= cp_effect_attempt_plan_id with
        | None => invalid_command "mismatch prediction lacks an effect attempt"
        | Some attempt =>
          raise_if (negb (returned_from_plan s attempt (mm_external_return_id m)))
            InvalidCommandError "mismatch return did not arise from the predicted attempt";;
          Ok [MismatchRecorded m]
        end
      | _ => invalid_command "mismatch requires a successfully decoded observation"
      end
    end.

Definition expected_operation (d : SemanticDelta) (change_id : string) : SemanticChangeOperation :=
  if mem change_id (sd_reopened_structure_ids d) then REOPEN
  else if mem change_id (sd_retired_structure_ids d) then RETIRE else ADD.

(** The body of [for change in command.delta.warranted_changes]. *)
Definition check_warranted_change (s : InquiryState) (c : InquiryContext) (active : list string)
    (d : SemanticDelta) (change : WarrantedChange) : result unit :=
  match dict_by lv_id (lemma_versions s) !! wc_warrant_lemma_id change with
  | None => invalid_command "semantic delta requires an active hard warrant lemma"
  | Some v =>
    raise_if (negb (mem (wc_warrant_lemma_id change) active))
      InvalidCommandError "semantic delta requires an active hard warrant lemma";;
    raise_if ((lv_relation_id v !=? wc_proposition_id change)
              || (scope_fingerprint (lv_scope v) !=? wc_scope_fingerprint change)
              || (wc_scope_fingerprint change !=? ctx_scope_fingerprint c))
      InvalidCommandError "semantic change exceeds its exact warrant proposition";;
    raise_if (wc_operation change !=? expected_operation d (wc_change_id change))
      InvalidCommandError "semantic change operation does not match the delta"
  end.

Definition decide_commit_semantic_delta (s : InquiryState) (d : SemanticDelta) : bodies :=
  unless_recorded same (first (λ x, sd_id x ==? sd_id d) (semantic_deltas s)) d
    "semantic delta id was reused"
    match first (λ r, rc_id r ==? sd_reconstruction_id d) (reconstructions s) with
    | None => invalid_command "semantic delta requires an owned reconstruction"
    | Some r =>
      raise_if (negb (sd_committed_sequence d =? st_sequence s + 1)%Z)
        InvalidCommandError "semantic delta sequence must match its event position";;
      raise_if (sd_committed_sequence d <=? rc_reconstructed_sequence r)%Z
        InvalidCommandError "semantic delta must follow its reconstruction";;
      match st_context s with
      | None => invalid_command "semantic delta requires inquiry context"
      | Some c =>
        active ← current_active_lemma_ids s;
        for_each (check_warranted_change s c active d) (sd_warranted_changes d);;
        Ok [SemanticDeltaCommitted d]
      end
    end.

(** ** [decide] *)

Definition decide_extension (s : InquiryState) (c : ExtensionCommand) : result (list ExtensionEvent) :=
  match c with
  | RetentionStep c => map RetentionFact <$> decide_retention s c
  | LearningStep c => map LearningFact <$> decide_learning s c
  | CompressionStep c => map CompressionFact <$> decide_compression s c
  | ProjectStep c => map ProjectFact <$> decide_project s c
  end.

Definition decide_body (s : InquiryState) (m : Meta) (c : CommandBody) : bodies :=
  match c with
  | StartInquiry manifest policy context => decide_start_inquiry s m manifest policy context
  | _ =>
    require_active s (meta_inquiry_id m);;
    match c with
    | StartInquiry _ _ _ => Ok []
    | RecordBacklogEffect e => decide_record_backlog_effect s e
    | RecordStepPlan p => decide_record_step_plan s p
    | RequestEffect r => decide_request_effect s r
    | PlanEffectAttempt p => decide_plan_effect_attempt s p
    | StartEffectAttempt id => decide_start_effect_attempt s id
    | RecordNoAttemptDisposition d => decide_record_no_attempt s d
    | RecordAttemptOutcome r o => decide_record_attempt_outcome s r o
    | RecordDecodeOutcome r o => decide_record_decode_outcome s r o
    | AcceptEffectResult r id => decide_accept_effect_result s r id
    | AdmitClaim c => decide_admit_claim s c
    | OpenObligation o => decide_open_obligation s o
    | RecordObligationDisposition d => decide_record_obligation_disposition s d
    | RecordCandidate c => decide_record_candidate s c
    | RecordResidual r => decide_record_residual s r
    | AppendCorrection c => decide_append_correction s c
    | ChangeGuardStanding g => decide_change_guard_standing s g
    | RecordNogood n => decide_record_nogood s n
    | ChangeSupportRouteStanding c => decide_change_route_standing s c
    | ChangeNogoodStanding c => decide_change_nogood_standing s c
    | RecordEvidence e => decide_record_evidence s e
    | RecordCheckerVerdict v => decide_record_checker_verdict s v
    | EvaluateWarrant w => decide_evaluate_warrant s w
    | PromoteClaim p => decide_promote_claim s p
    | AdmitProbe p => decide_admit_probe s p
    | RecordCognitivePlan p => decide_record_cognitive_plan s p
    | SealPrediction p => decide_seal_prediction s p
    | RecordProbeObservation o => decide_record_probe_observation s o
    | RecordReconstruction r => decide_record_reconstruction s r
    | RecordMismatch m => decide_record_mismatch s m
    | CommitSemanticDelta d => decide_commit_semantic_delta s d
    | Extend c => map Extended <$> decide_extension s c
    end
  end.

Definition decide (s : InquiryState) (c : DomainCommand) : result (list DomainEvent) :=
  bs ← decide_body s (cmd_meta c) (cmd_body c);
  Ok (map (MkEvent (cmd_meta c)) bs).
