(* ===== verification/Evolve.v ===== *)
(** * [evolve] and replay: [src/rci/core/transitions.py], [replay.py]

    The reducer, one definition per event branch.  Effect events check their own
    preconditions; every other event is accepted only if [decide], run on the
    command the event answers, yields exactly that event.  Each branch ends by
    validating the whole successor state. *)

From S2P Require Import Prelude Digest Memory Model Claims Warrant Support Policy Planning Backlog Effects Probes State Lifecycle Guards Retention Consolidation Licensing Governance Decide.

(** ** Python's [==] on events *)

Definition obligations_eqb : list Obligation → list Obligation → bool := list_eqb obligation_eqb.

Definition extension_event_eqb (x y : ExtensionEvent) : bool :=
  match x, y with
  | RetentionFact a, RetentionFact b => a ==? b
  | LearningFact a, LearningFact b => learning_event_eqb a b
  | CompressionFact a, CompressionFact b => a ==? b
  | ProjectFact a, ProjectFact b => a ==? b
  | _, _ => false
  end.

Definition body_eqb (x y : EventBody) : bool :=
  match x, y with
  | InquiryStarted a b c, InquiryStarted a' b' c' => (a ==? a') && (b ==? b') && (c ==? c')
  | BacklogEffectRecorded a, BacklogEffectRecorded b => a ==? b
  | StepPlanRecorded a, StepPlanRecorded b => a ==? b
  | EffectRequested a, EffectRequested b => a ==? b
  | EffectAttemptPlanned a, EffectAttemptPlanned b => a ==? b
  | EffectAttemptStarted a, EffectAttemptStarted b => a ==? b
  | EffectNoAttemptDispositionRecorded a, EffectNoAttemptDispositionRecorded b => a ==? b
  | EffectAttemptOutcomeRecorded r a, EffectAttemptOutcomeRecorded q b => (r ==? q) && (a ==? b)
  | EffectDecodeOutcomeRecorded r a, EffectDecodeOutcomeRecorded q b => (r ==? q) && (a ==? b)
  | EffectResultAccepted r a, EffectResultAccepted q b => (r ==? q) && (a ==? b)
  | ClaimAdmitted a cs os, ClaimAdmitted b ds ps =>
    claim_eqb a b && (cs ==? ds) && obligations_eqb os ps
  | ObligationOpened a, ObligationOpened b => obligation_eqb a b
  | ObligationDispositionRecorded a, ObligationDispositionRecorded b => a ==? b
  | CandidateRecorded a, CandidateRecorded b => candidate_eqb a b
  | ResidualRecorded a, ResidualRecorded b => residual_eqb a b
  | CorrectionAppended a, CorrectionAppended b => a ==? b
  | GuardStandingChanged a, GuardStandingChanged b => a ==? b
  | NogoodRecorded a, NogoodRecorded b => a ==? b
  | SupportRouteStandingChanged a, SupportRouteStandingChanged b => a ==? b
  | NogoodStandingChanged a, NogoodStandingChanged b => a ==? b
  | EvidenceRecorded a, EvidenceRecorded b => a ==? b
  | CheckerVerdictRecorded a, CheckerVerdictRecorded b => a ==? b
  | WarrantDecisionRecorded s a, WarrantDecisionRecorded t b => (s ==? t) && (a ==? b)
  | LemmaPromoted v s l, LemmaPromoted v' s' l' => (v ==? v') && (s ==? s') && (l ==? l')
  | ProbeAdmitted a, ProbeAdmitted b => a ==? b
  | CognitivePlanRecorded a, CognitivePlanRecorded b => a ==? b
  | PredictionSealed a, PredictionSealed b => prediction_eqb a b
  | ProbeObservationRecorded a, ProbeObservationRecorded b => probe_event_eqb a b
  | ReconstructionRecorded a, ReconstructionRecorded b => a ==? b
  | MismatchRecorded a, MismatchRecorded b => a ==? b
  | SemanticDeltaCommitted a, SemanticDeltaCommitted b => a ==? b
  | Extended a, Extended b => extension_event_eqb a b
  | _, _ => false
  end.

Definition event_eqb (x y : DomainEvent) : bool :=
  (evt_meta x ==? evt_meta y) && body_eqb (evt_body x) (evt_body y).

(** ** [_require_matching_decision] *)

(** [except DomainError] *)
Definition is_domain_error (k : exn_kind) : bool :=
  match k with
  | InvalidCommandError | InvalidTransitionError | IdentityConflictError | EffectLifecycleError => true
  | _ => false
  end.

Definition invalid_transition {A} (msg : string) : result A := raise InvalidTransitionError msg.

Definition require_matching_decision (s : InquiryState) (e : DomainEvent) (c : DomainCommand) :
    result unit :=
  match decide s c with
  | Ok expected =>
    raise_if (negb (list_eqb event_eqb expected [e]))
      InvalidTransitionError "domain event does not match the lawful command consequence"
  | Raise x => if is_domain_error (exn_class x) then invalid_transition (exn_message x) else Raise x
  end.

(** The command is built from the event's own metadata. *)
Definition matching (s : InquiryState) (e : DomainEvent) (b : CommandBody) : result unit :=
  require_matching_decision s e (MkCommand (evt_meta e) b).

(** ** Effect ledger branches *)

Definition set_requests (s : InquiryState) (l : list EffectRequestState) : InquiryState :=
  with_effects s (MkEffectLedger (backlog_effects s) (step_plans s) l).

Definition replace_request (s : InquiryState) (replacement : EffectRequestState) :
    list EffectRequestState :=
  map (λ r, if ers_id r ==? ers_id replacement then replacement else r) (effect_requests s).

(** [EffectRequestState(...)] runs its validator before the aggregate's. *)
Definition advance_request (s : InquiryState) (replacement : EffectRequestState) : result InquiryState :=
  validate_cardinalities replacement;;
  advance (set_requests s (replace_request s replacement)).

Definition evolve_inquiry_started (s : InquiryState) (e : DomainEvent) (manifest : ArtifactRef)
    (policy : string) (context : InquiryContext) : result InquiryState :=
  raise_if (st_status s !=? NOT_STARTED)
    InvalidTransitionError "InquiryStarted can only evolve an empty aggregate";;
  let s' := MkInquiryState STATUS_ACTIVE (Some (meta_inquiry_id (evt_meta e))) 1 (Some manifest)
              (Some policy) (Some context) empty_effects empty_claims empty_warrant empty_cognition empty_extensions in
  validate_lifecycle s';; Ok s'.

Definition evolve_backlog_effect_recorded (s : InquiryState) (e : DomainEvent) (x : BacklogEffect) :=
  matching s e (RecordBacklogEffect x);;
  advance (with_effects s (MkEffectLedger (backlog_effects s ++ [x]) (step_plans s) (effect_requests s))).

Definition evolve_step_plan_recorded (s : InquiryState) (e : DomainEvent) (p : StepPlan) :=
  matching s e (RecordStepPlan p);;
  advance (with_effects s (MkEffectLedger (backlog_effects s) (step_plans s ++ [p]) (effect_requests s))).

Definition evolve_effect_requested (s : InquiryState) (r : EffectRequest) : result InquiryState :=
  raise_if (is_some (request_by_id s (req_id r)))
    InvalidTransitionError "duplicate effect request event";;
  raise_if (is_none (step_plan_by_id s (req_step_plan_id r)))
    InvalidTransitionError "effect request references an unknown step plan";;
  advance (set_requests s (effect_requests s ++ [new_request r])).

Definition evolve_attempt_planned (s : InquiryState) (p : EffectAttemptPlan) : result InquiryState :=
  match request_by_id s (ap_request_id p) with
  | None => invalid_transition "attempt plan references an unknown request"
  | Some request =>
    raise_if (is_some (attempt_by_id s (ap_id p)))
      InvalidTransitionError "duplicate attempt plan event";;
    raise_if (is_some (ers_accepted_decoded_outcome_id request))
      InvalidTransitionError "resolved requests cannot gain attempts";;
    validate_attempt (planned_attempt p);;
    advance_request s (with_attempts request (ers_attempts request ++ [planned_attempt p]))
  end.

Definition evolve_attempt_started (s : InquiryState) (e : DomainEvent) (attempt_id : string) :
    result InquiryState :=
  match containing_request s attempt_id with
  | None => invalid_transition "attempt start references an unknown attempt"
  | Some (request, attempt) =>
    raise_if (att_started attempt) InvalidTransitionError "attempt already has start metadata";;
    raise_if (is_some (ers_accepted_decoded_outcome_id request))
      InvalidTransitionError "a resolved request cannot start another attempt";;
    let start a := started_attempt a (meta_event_id (evt_meta e)) (meta_occurred_at (evt_meta e)) in
    validate_attempt (start attempt);;
    advance_request s (with_attempts request (update_attempt attempt_id start (ers_attempts request)))
  end.

Definition evolve_no_attempt_recorded (s : InquiryState) (d : NoAttemptDisposition) :
    result InquiryState :=
  match request_by_id s (na_request_id d) with
  | None => invalid_transition "no-attempt disposition references an unknown request"
  | Some request =>
    raise_if (na_step_plan_id d !=? req_step_plan_id (ers_request request))
      InvalidTransitionError "no-attempt disposition references a different persisted step plan";;
    raise_if (mem (na_id d) (map na_id (all_no_attempts s)))
      InvalidTransitionError "duplicate no-attempt disposition event";;
    raise_if (is_some (ers_accepted_decoded_outcome_id request))
      InvalidTransitionError "resolved requests cannot gain no-attempt dispositions";;
    advance_request s (add_no_attempt request d)
  end.

Definition evolve_attempt_outcome (s : InquiryState) (request_id : string) (o : AttemptOutcome) :
    result InquiryState :=
  match request_by_id s request_id with
  | None => invalid_transition "attempt outcome references an unknown request"
  | Some request =>
    match first (λ a, att_id a ==? outcome_attempt_id o) (ers_attempts request) with
    | None => invalid_transition "attempt outcome references an unknown attempt"
    | Some attempt =>
      raise_if (negb (att_started attempt))
        InvalidTransitionError "attempt outcome precedes attempt start";;
      raise_if (is_some (att_outcome attempt))
        InvalidTransitionError "an attempt already has an outcome";;
      raise_if (rs_id (ap_route (att_plan attempt)) !=? outcome_route_id o)
        InvalidTransitionError "attempt outcome route mismatch";;
      validate_attempt (ended_attempt attempt o);;
      advance_request s (with_attempts request
        (update_attempt (att_id attempt) (λ a, ended_attempt a o) (ers_attempts request)))
    end
  end.

Definition evolve_decode_outcome (s : InquiryState) (request_id : string) (d : DecodeOutcome) :
    result InquiryState :=
  match request_by_id s request_id with
  | None => invalid_transition "decode outcome references an unknown request"
  | Some request =>
    raise_if (mem (dec_id d) (recorded_decode_outcome_ids s))
      InvalidTransitionError "duplicate decode outcome event";;
    raise_if (negb (mem (dec_return_id d) (return_ids (ers_attempts request))))
      InvalidTransitionError "decode outcome has no captured external return";;
    advance_request s (add_decode request d)
  end.

Definition evolve_result_accepted (s : InquiryState) (request_id decoded_outcome_id : string) :
    result InquiryState :=
  match request_by_id s request_id with
  | None => invalid_transition "accepted result references an unknown request"
  | Some request =>
    raise_if (is_some (ers_accepted_decoded_outcome_id request))
      InvalidTransitionError "an effect request already accepted a result";;
    raise_if (negb (decode_is_accepted (ers_decode_outcomes request) decoded_outcome_id))
      InvalidTransitionError "accepted result must reference a successful decode";;
    advance_request s (accept_decode request decoded_outcome_id)
  end.

(** ** Claim ledger branches *)

Definition evolve_claim_admitted (s : InquiryState) (e : DomainEvent) (c : Claim)
    (cs : list Conflict) (os : list Obligation) : result InquiryState :=
  matching s e (AdmitClaim c);;
  let l := st_claims s in
  advance (with_claims s (MkClaimLedger (l_claims l ++ [c]) (l_conflicts l ++ cs)
    (l_obligations l ++ os) (l_obligation_dispositions l) (l_candidates l) (l_residuals l)
    (l_corrections l) (l_guard_changes l))).

Definition evolve_obligation_opened (s : InquiryState) (e : DomainEvent) (o : Obligation) :
    result InquiryState :=
  matching s e (OpenObligation o);;
  let l := st_claims s in
  advance (with_claims s (MkClaimLedger (l_claims l) (l_conflicts l) (l_obligations l ++ [o])
    (l_obligation_dispositions l) (l_candidates l) (l_residuals l) (l_corrections l)
    (l_guard_changes l))).

Definition evolve_disposition_recorded (s : InquiryState) (e : DomainEvent)
    (d : ObligationDisposition) : result InquiryState :=
  matching s e (RecordObligationDisposition d);;
  let l := st_claims s in
  advance (with_claims s (MkClaimLedger (l_claims l) (l_conflicts l) (l_obligations l)
    (l_obligation_dispositions l ++ [d]) (l_candidates l) (l_residuals l) (l_corrections l)
    (l_guard_changes l))).

Definition evolve_candidate_recorded (s : InquiryState) (e : DomainEvent) (c : Candidate) :
    result InquiryState :=
  matching s e (RecordCandidate c);;
  let l := st_claims s in
  advance (with_claims s (MkClaimLedger (l_claims l) (l_conflicts l) (l_obligations l)
    (l_obligation_dispositions l) (l_candidates l ++ [c]) (l_residuals l) (l_corrections l)
    (l_guard_changes l))).

Definition evolve_residual_recorded (s : InquiryState) (e : DomainEvent) (r : Residual) :
    result InquiryState :=
  matching s e (RecordResidual r);;
  let l := st_claims s in
  advance (with_claims s (MkClaimLedger (l_claims l) (l_conflicts l) (l_obligations l)
    (l_obligation_dispositions l) (l_candidates l) (l_residuals l ++ [r]) (l_corrections l)
    (l_guard_changes l))).

Definition evolve_correction_appended (s : InquiryState) (e : DomainEvent) (c : Correction) :
    result InquiryState :=
  matching s e (AppendCorrection c);;
  let l := st_claims s in
  advance (with_claims s (MkClaimLedger (l_claims l) (l_conflicts l) (l_obligations l)
    (l_obligation_dispositions l) (l_candidates l) (l_residuals l) (l_corrections l ++ [c])
    (l_guard_changes l))).

Definition evolve_guard_changed (s : InquiryState) (e : DomainEvent) (g : GuardChange) :
    result InquiryState :=
  matching s e (ChangeGuardStanding g);;
  let l := st_claims s in
  advance (with_claims s (MkClaimLedger (l_claims l) (l_conflicts l) (l_obligations l)
    (l_obligation_dispositions l) (l_candidates l) (l_residuals l) (l_corrections l)
    (l_guard_changes l ++ [g]))).

(** ** Warrant ledger branches *)

Definition evolve_nogood_recorded (s : InquiryState) (e : DomainEvent) (n : Nogood) :
    result InquiryState :=
  matching s e (RecordNogood n);;
  let l := st_warrant s in
  advance (with_warrant s (MkWarrantLedger (l_nogoods l ++ [n]) (l_route_changes l)
    (l_nogood_changes l) (l_evidence_records l) (l_checker_verdicts l) (l_warrant_decisions l)
    (l_lemma_versions l) (l_lemma_supports l) (l_promotion_links l))).

Definition evolve_route_standing_changed (s : InquiryState) (e : DomainEvent)
    (c : SupportRouteStandingChange) : result InquiryState :=
  matching s e (ChangeSupportRouteStanding c);;
  let l := st_warrant s in
  advance (with_warrant s (MkWarrantLedger (l_nogoods l) (l_route_changes l ++ [c])
    (l_nogood_changes l) (l_evidence_records l) (l_checker_verdicts l) (l_warrant_decisions l)
    (l_lemma_versions l) (l_lemma_supports l) (l_promotion_links l))).

Definition evolve_nogood_standing_changed (s : InquiryState) (e : DomainEvent)
    (c : NogoodStandingChange) : result InquiryState :=
  matching s e (ChangeNogoodStanding c);;
  let l := st_warrant s in
  advance (with_warrant s (MkWarrantLedger (l_nogoods l) (l_route_changes l)
    (l_nogood_changes l ++ [c]) (l_evidence_records l) (l_checker_verdicts l) (l_warrant_decisions l)
    (l_lemma_versions l) (l_lemma_supports l) (l_promotion_links l))).

Definition evolve_evidence_recorded (s : InquiryState) (e : DomainEvent) (x : Evidence) :
    result InquiryState :=
  matching s e (RecordEvidence x);;
  let l := st_warrant s in
  advance (with_warrant s (MkWarrantLedger (l_nogoods l) (l_route_changes l)
    (l_nogood_changes l) (l_evidence_records l ++ [x]) (l_checker_verdicts l) (l_warrant_decisions l)
    (l_lemma_versions l) (l_lemma_supports l) (l_promotion_links l))).

Definition evolve_verdict_recorded (s : InquiryState) (e : DomainEvent) (v : CheckerVerdictRecord) :
    result InquiryState :=
  matching s e (RecordCheckerVerdict v);;
  let l := st_warrant s in
  advance (with_warrant s (MkWarrantLedger (l_nogoods l) (l_route_changes l)
    (l_nogood_changes l) (l_evidence_records l) (l_checker_verdicts l ++ [v]) (l_warrant_decisions l)
    (l_lemma_versions l) (l_lemma_supports l) (l_promotion_links l))).

Definition evolve_warrant_decided (s : InquiryState) (e : DomainEvent) (scope : Scope)
    (d : WarrantDecisionRecord) : result InquiryState :=
  matching s e (EvaluateWarrant (MkWarrantEvaluation (wd_id d) (wd_evidence_id d)
    (wd_checker_verdict_id d) (wd_proposition_id d) (wd_proposition_kind d) scope));;
  let l := st_warrant s in
  advance (with_warrant s (MkWarrantLedger (l_nogoods l) (l_route_changes l)
    (l_nogood_changes l) (l_evidence_records l) (l_checker_verdicts l) (l_warrant_decisions l ++ [d])
    (l_lemma_versions l) (l_lemma_supports l) (l_promotion_links l))).

Definition evolve_lemma_promoted (s : InquiryState) (e : DomainEvent) (v : LemmaVersion)
    (sup : LemmaSupport) (link : PromotionLink) : result InquiryState :=
  matching s e (PromoteClaim (MkPromotion (pl_id link) (lv_id v) (lv_relation_id v)
    (lv_proposition_kind v) (lv_scope v) (lv_applicability v) (all_support_routes sup)
    (pl_warrant_decision_id link) (ls_provenance_refs sup) (lv_source_claim_ids v)
    (lv_predecessor_refs v)));;
  let l := st_warrant s in
  advance (with_warrant s (MkWarrantLedger (l_nogoods l) (l_route_changes l)
    (l_nogood_changes l) (l_evidence_records l) (l_checker_verdicts l) (l_warrant_decisions l)
    (l_lemma_versions l ++ [v]) (l_lemma_supports l ++ [sup]) (l_promotion_links l ++ [link]))).

(** ** Cognition ledger branches *)

Definition evolve_probe_admitted (s : InquiryState) (e : DomainEvent) (p : ProbeIdentity) :
    result InquiryState :=
  matching s e (AdmitProbe p);;
  let l := st_cognition s in
  advance (with_cognition s (MkCognitionLedger (l_admitted_probes l ++ [p]) (l_cognitive_plans l)
    (l_predictions l) (l_probe_observations l) (l_reconstructions l) (l_mismatches l)
    (l_semantic_deltas l))).

Definition evolve_cognitive_plan_recorded (s : InquiryState) (e : DomainEvent)
    (p : CognitiveAttemptPlan) : result InquiryState :=
  matching s e (RecordCognitivePlan p);;
  let l := st_cognition s in
  advance (with_cognition s (MkCognitionLedger (l_admitted_probes l) (l_cognitive_plans l ++ [p])
    (l_predictions l) (l_probe_observations l) (l_reconstructions l) (l_mismatches l)
    (l_semantic_deltas l))).

Definition evolve_prediction_sealed (s : InquiryState) (e : DomainEvent) (p : PredictionSeal) :
    result InquiryState :=
  matching s e (SealPrediction p);;
  let l := st_cognition s in
  advance (with_cognition s (MkCognitionLedger (l_admitted_probes l) (l_cognitive_plans l)
    (l_predictions l ++ [p]) (l_probe_observations l) (l_reconstructions l) (l_mismatches l)
    (l_semantic_deltas l))).

Definition evolve_observation_recorded (s : InquiryState) (e : DomainEvent) (o : ProbeEvent) :
    result InquiryState :=
  matching s e (RecordProbeObservation o);;
  let l := st_cognition s in
  advance (with_cognition s (MkCognitionLedger (l_admitted_probes l) (l_cognitive_plans l)
    (l_predictions l) (l_probe_observations l ++ [o]) (l_reconstructions l) (l_mismatches l)
    (l_semantic_deltas l))).

Definition evolve_reconstruction_recorded (s : InquiryState) (e : DomainEvent) (r : Reconstruction) :
    result InquiryState :=
  matching s e (RecordReconstruction r);;
  let l := st_cognition s in
  advance (with_cognition s (MkCognitionLedger (l_admitted_probes l) (l_cognitive_plans l)
    (l_predictions l) (l_probe_observations l) (l_reconstructions l ++ [r]) (l_mismatches l)
    (l_semantic_deltas l))).

Definition evolve_mismatch_recorded (s : InquiryState) (e : DomainEvent) (m : Mismatch) :
    result InquiryState :=
  matching s e (RecordMismatch m);;
  let l := st_cognition s in
  advance (with_cognition s (MkCognitionLedger (l_admitted_probes l) (l_cognitive_plans l)
    (l_predictions l) (l_probe_observations l) (l_reconstructions l) (l_mismatches l ++ [m])
    (l_semantic_deltas l))).

Definition evolve_delta_committed (s : InquiryState) (e : DomainEvent) (d : SemanticDelta) :
    result InquiryState :=
  matching s e (CommitSemanticDelta d);;
  let l := st_cognition s in
  advance (with_cognition s (MkCognitionLedger (l_admitted_probes l) (l_cognitive_plans l)
    (l_predictions l) (l_probe_observations l) (l_reconstructions l) (l_mismatches l)
    (l_semantic_deltas l ++ [d]))).

(** ** Extension ledger branches *)

(** The command each event answers. *)
Definition extension_command (x : ExtensionEvent) : ExtensionCommand :=
  match x with
  | RetentionFact e => RetentionStep (retention_command e)
  | LearningFact e => LearningStep (learning_command e)
  | CompressionFact e => CompressionStep (compression_command e)
  | ProjectFact e => ProjectStep (project_command e)
  end.

(** The records it adds to its ledger, to the residuals and to the probes. *)
Definition extension_records (x : ExtensionEvent) : ExtensionLedger :=
  match x with
  | RetentionFact e => MkExtensionLedger (retention_records e) empty_learning empty_compression empty_project
  | LearningFact e => MkExtensionLedger empty_retention (learning_records e) empty_compression empty_project
  | CompressionFact e => MkExtensionLedger empty_retention empty_learning (compression_records e) empty_project
  | ProjectFact e => MkExtensionLedger empty_retention empty_learning empty_compression (governance_records e)
  end.

Definition extension_residuals (x : ExtensionEvent) : list Residual :=
  match x with LearningFact e => overflow_residuals e | _ => [] end.

Definition extension_probes (s : InquiryState) (x : ExtensionEvent) : list ProbeIdentity :=
  match x with LearningFact e => learned_probes s e | _ => [] end.

Definition extension_guard (s : InquiryState) (x : ExtensionEvent) : result unit :=
  match x with LearningFact e => admission_candidate_exists s e | _ => Ok tt end.

Definition extend_state (s : InquiryState) (x : ExtensionEvent) : InquiryState :=
  let l := st_claims s in
  let k := st_cognition s in
  let s1 := with_claims s (MkClaimLedger (l_claims l) (l_conflicts l) (l_obligations l)
    (l_obligation_dispositions l) (l_candidates l) (l_residuals l ++ extension_residuals x)
    (l_corrections l) (l_guard_changes l)) in
  let s2 := with_cognition s1 (MkCognitionLedger (l_admitted_probes k ++ extension_probes s x)
    (l_cognitive_plans k) (l_predictions k) (l_probe_observations k) (l_reconstructions k)
    (l_mismatches k) (l_semantic_deltas k)) in
  with_extensions s2 (extension_plus (st_extensions s) (extension_records x)).

Definition evolve_extended (s : InquiryState) (e : DomainEvent) (x : ExtensionEvent) : result InquiryState :=
  matching s e (Extend (extension_command x));;
  extension_guard s x;;
  advance (extend_state s x).

(** ** [evolve] and [replay] *)

Definition evolve_active (s : InquiryState) (e : DomainEvent) : result InquiryState :=
  match evt_body e with
  | InquiryStarted m p c => evolve_inquiry_started s e m p c
  | BacklogEffectRecorded x => evolve_backlog_effect_recorded s e x
  | StepPlanRecorded p => evolve_step_plan_recorded s e p
  | EffectRequested r => evolve_effect_requested s r
  | EffectAttemptPlanned p => evolve_attempt_planned s p
  | EffectAttemptStarted id => evolve_attempt_started s e id
  | EffectNoAttemptDispositionRecorded d => evolve_no_attempt_recorded s d
  | EffectAttemptOutcomeRecorded r o => evolve_attempt_outcome s r o
  | EffectDecodeOutcomeRecorded r d => evolve_decode_outcome s r d
  | EffectResultAccepted r id => evolve_result_accepted s r id
  | ClaimAdmitted c cs os => evolve_claim_admitted s e c cs os
  | ObligationOpened o => evolve_obligation_opened s e o
  | ObligationDispositionRecorded d => evolve_disposition_recorded s e d
  | CandidateRecorded c => evolve_candidate_recorded s e c
  | ResidualRecorded r => evolve_residual_recorded s e r
  | CorrectionAppended c => evolve_correction_appended s e c
  | GuardStandingChanged g => evolve_guard_changed s e g
  | NogoodRecorded n => evolve_nogood_recorded s e n
  | SupportRouteStandingChanged c => evolve_route_standing_changed s e c
  | NogoodStandingChanged c => evolve_nogood_standing_changed s e c
  | EvidenceRecorded x => evolve_evidence_recorded s e x
  | CheckerVerdictRecorded v => evolve_verdict_recorded s e v
  | WarrantDecisionRecorded sc d => evolve_warrant_decided s e sc d
  | LemmaPromoted v sup l => evolve_lemma_promoted s e v sup l
  | ProbeAdmitted p => evolve_probe_admitted s e p
  | CognitivePlanRecorded p => evolve_cognitive_plan_recorded s e p
  | PredictionSealed p => evolve_prediction_sealed s e p
  | ProbeObservationRecorded o => evolve_observation_recorded s e o
  | ReconstructionRecorded r => evolve_reconstruction_recorded s e r
  | MismatchRecorded m => evolve_mismatch_recorded s e m
  | SemanticDeltaCommitted d => evolve_delta_committed s e d
  | Extended x => evolve_extended s e x
  end.

Definition is_inquiry_started (b : EventBody) : bool :=
  match b with InquiryStarted _ _ _ => true | _ => false end.

Definition evolve (s : InquiryState) (e : DomainEvent) : result InquiryState :=
  raise_if (negb (is_inquiry_started (evt_body e))
            && ((st_status s !=? STATUS_ACTIVE)
                || (st_inquiry_id s !=? Some (meta_inquiry_id (evt_meta e)))))
    InvalidTransitionError "event inquiry id does not match an active aggregate";;
  evolve_active s e.

Fixpoint replay (events : list DomainEvent) (s : InquiryState) : result InquiryState :=
  match events with
  | [] => Ok s
  | e :: events => s' ← evolve s e; replay events s'
  end.

(** [rebuild_projection]: a fold of the caller's reducer. *)
Definition rebuild_projection {P : Type} (events : list DomainEvent) (initial : P)
    (apply : P → DomainEvent → P) : P := foldl apply initial events.

(** [RCI._apply_batch], the ledger aside: decide each command on the state the
    previous events led to, and fold its events in. *)
Fixpoint apply_batch (commands : list DomainCommand) (s : InquiryState) :
    result (list DomainEvent * InquiryState) :=
  match commands with
  | [] => Ok ([], s)
  | c :: commands =>
    new_events ← decide s c;
    s' ← replay new_events s;
    rest ← apply_batch commands s';
    Ok (new_events ++ rest.1, rest.2)
  end.
