(* ===== verification/Artifacts.v ===== *)
(** * Artifacts: [src/rci/persistence/artifacts.py]

    The content-addressed store of exact bytes, and the search of a value for the
    artifact references it carries.  The directory is a finite map from relative
    paths to file contents; the temporary file and the atomic replacement by
    which a file appears are one insertion. *)

From S2P Require Import Prelude Digest Model.

(** ** [ArtifactStore] *)

Abbreviation ArtifactStore := (gmap string string).

(** [_path_for_digest], relative to the root *)
Definition path_for_digest (digest : string) : result string :=
  raise_if (negb (is_sha256 digest)) ValidationError "string should match the SHA-256 pattern";;
  Ok ("sha256/" +:+ prefix 2 digest +:+ "/" +:+ String.substring 2 (String.length digest - 2) digest).

Definition path_for (a : ArtifactRef) : result string := path_for_digest (art_digest a).

Definition verify_bytes (data : string) (a : ArtifactRef) : result unit :=
  raise_if (negb (Z.of_nat (String.length data) =? art_size a)%Z) ArtifactIntegrityError
    ("artifact size mismatch for " +:+ art_digest a);;
  raise_if (Sha256.hexdigest data !=? art_digest a) ArtifactIntegrityError
    ("artifact digest mismatch for " +:+ art_digest a).

Definition put_bytes (st : ArtifactStore) (data : string) (media_type encoding : option string) :
    result (ArtifactRef * ArtifactStore) :=
  let a := MkArtifactRef (Sha256.hexdigest data) (Z.of_nat (String.length data)) media_type encoding in
  path ← path_for a;
  match st !! path with
  | Some existing => verify_bytes existing a;; Ok (a, st)
  | None => verify_bytes data a;; Ok (a, <[path := data]> st)
  end.

Definition get_bytes (st : ArtifactStore) (a : ArtifactRef) : result string :=
  path ← path_for a;
  match st !! path with
  | None => raise ArtifactIntegrityError ("artifact is missing: " +:+ art_digest a)
  | Some data => verify_bytes data a;; Ok data
  end.

(** [verify] *)
Definition verify_artifact (st : ArtifactStore) (a : ArtifactRef) : result unit := get_bytes st a;; Ok tt.

(** ** [_iter_artifact_refs]

    What the recursion meets in a Python value: an artifact reference, a model
    with its fields, a mapping with its values, a sequence, or anything else. *)
Inductive pyvalue : Type :=
| PyArtifact (a : ArtifactRef)
| PyModel (fields : list pyvalue)
| PyMapping (values : list pyvalue)
| PySequence (items : list pyvalue)
| PyOther.

Fixpoint iter_artifact_refs (v : pyvalue) : list ArtifactRef :=
  match v with
  | PyArtifact a => [a]
  | PyModel l | PyMapping l | PySequence l => flat_map iter_artifact_refs l
  | PyOther => []
  end.

(** [_validate_artifacts]; without a configured store nothing is checked *)
Definition validate_artifacts (st : option ArtifactStore) (v : pyvalue) : result unit :=
  match st with
  | None => Ok tt
  | Some st => for_each (verify_artifact st) (iter_artifact_refs v)
  end.

(** ** Properties *)

Lemma substring_all s : String.substring 0 (String.length s) s = s.
Proof. induction s as [|c s IH]; cbn; [done|by rewrite IH]. Qed.

Lemma sha256_cons d : is_sha256 d = true → ∃ a b r, d = String a (String b r).
Proof. unfold is_sha256. destruct d as [|a [|b r]]; [done..|]. eauto. Qed.

(** Two references share a file only if they share their digest. *)
Lemma path_for_digest_inj d d' p : path_for_digest d = Ok p → path_for_digest d' = Ok p → d = d'.
Proof.
  unfold path_for_digest. rewrite !raise_if_bind, !negb_false_iff.
  intros [(a & b & r & ->)%sha256_cons [= <-]] [(a' & b' & r' & ->)%sha256_cons [= -> -> E]]. revert E.
  rewrite !Nat.sub_0_r, !substring_all. destruct r, r'; by intros [=]; subst.
Qed.

Lemma verify_bytes_ok data a :
  verify_bytes data a = Ok tt ↔ Z.of_nat (String.length data) = art_size a ∧ Sha256.hexdigest data = art_digest a.
Proof.
  unfold verify_bytes. rewrite raise_if_bind, raise_if_ok, negb_false_iff, neqb_false, Z.eqb_eq. done.
Qed.

Lemma get_bytes_ok st a data :
  get_bytes st a = Ok data ↔
  ∃ p, path_for a = Ok p ∧ st !! p = Some data
       ∧ Z.of_nat (String.length data) = art_size a ∧ Sha256.hexdigest data = art_digest a.
Proof.
  unfold get_bytes. rewrite bind_ok. f_equiv. intros p. destruct (st !! p) as [x|]; [|naive_solver].
  rewrite seq_ok, verify_bytes_ok. naive_solver.
Qed.

(** Every file lies where the digest of its content says. *)
Definition intact (st : ArtifactStore) : Prop :=
  ∀ p data, st !! p = Some data → path_for_digest (Sha256.hexdigest data) = Ok p.

Lemma digest_path data : ∃ p, path_for_digest (Sha256.hexdigest data) = Ok p.
Proof.
  unfold path_for_digest, is_sha256. destruct (hexdigest_shape data) as [-> ->]. cbn. eauto.
Qed.

(** C38: Stored bytes stay.  On a directory whose files lie where their digests
    say, storing bytes either returns a reference of exactly their digest and
    size that reads back as bytes of that digest and size (the very bytes when
    nothing was there), keeps every file and every earlier reference readable
    alike and the directory sound, or it refuses because the directory holds,
    under the same digest, bytes of another length: a collision. *)
Theorem put_bytes_durable st data media_type encoding :
  intact st →
  match put_bytes st data media_type encoding with
  | Ok (a, st') =>
    a = MkArtifactRef (Sha256.hexdigest data) (Z.of_nat (String.length data)) media_type encoding
    ∧ intact st' ∧ st ⊆ st' ∧ (∀ b x, get_bytes st b = Ok x → get_bytes st' b = Ok x)
    ∧ ∃ data', get_bytes st' a = Ok data' ∧ Sha256.hexdigest data' = Sha256.hexdigest data
               ∧ String.length data' = String.length data ∧ (st' ≠ st → data' = data)
  | Raise _ =>
    ∃ p data', st !! p = Some data' ∧ Sha256.hexdigest data' = Sha256.hexdigest data
               ∧ String.length data' ≠ String.length data
  end.
Proof.
  intros Hst. set (a := MkArtifactRef _ _ media_type encoding).
  destruct (digest_path data) as [p Hp]. assert (path_for a = Ok p) as Ha by done.
  assert (∀ x, verify_bytes x a = Ok tt ↔ String.length x = String.length data
                                         ∧ Sha256.hexdigest x = Sha256.hexdigest data) as Hv.
  { intros x. rewrite verify_bytes_ok. cbn. rewrite Nat2Z.inj_iff. done. }
  unfold put_bytes. fold a. rewrite Ha. cbn. destruct (st !! p) as [x|] eqn:Hx.
  - assert (Sha256.hexdigest x = Sha256.hexdigest data) as Hd by by apply (path_for_digest_inj _ _ p); [apply Hst|].
    destruct (verify_bytes x a) as [[]|] eqn:E; cbn.
    + apply Hv in E as [El _]. split_and!; [done..|]. exists x. split_and!; try done.
      apply get_bytes_ok. exists p. cbn. by rewrite El.
    + exists p, x. split_and!; [done..|]. intros El. destruct (Hv x) as [_ H]. rewrite H in E; done.
  - destruct (Hv data) as [_ ->]; [|done]. cbn.
    assert (st ⊆ <[p:=data]> st) as Hsub by by apply insert_subseteq. split_and!; try done.
    + intros q y. rewrite lookup_insert_Some. intros [[<- <-]|[_ Hy]]; [done|by apply Hst].
    + intros b y. rewrite !get_bytes_ok. intros (q & Hq & Hy & H). exists q. split_and!; try apply H; [done|].
      by eapply lookup_weaken.
    + exists data. split_and!; try done. apply get_bytes_ok. exists p. by rewrite lookup_insert_eq.
Qed.

Lemma put_bytes_durable_witness :
  intact ∅ ∧ match put_bytes ∅ "abc" None None with
             | Ok (a, st') => a = MkArtifactRef (Sha256.hexdigest "abc") 3 None None ∧ intact st'
             | Raise _ => False
             end.
Proof.
  assert (intact ∅) as H by by intros p data ?%lookup_empty_Some.
  split; [exact H|]. pose proof (put_bytes_durable ∅ "abc" None None H) as D.
  destruct (put_bytes ∅ "abc" None None) as [[a st']|x].
  - destruct D as (? & ? & _). by split.
  - by destruct D as (p & data & ?%lookup_empty_Some & _).
Defined.
