(* ===== verification/Serialization.v ===== *)
(** * Event payloads: [src/rci/core/upcasting.py], [serialization.py]

    The kinds of the events, the upcaster registry and its loop, and the
    canonical encoding of events and states.  What pydantic does with a record is
    a parameter: [Pydantic] collects the calls the code makes of it, and
    [Serializable] says of one event that they are inverse to each other. *)

From S2P Require Import Prelude Digest Memory Compression Model Artifacts Retention Consolidation Licensing Governance Goals Decide State.

(** ** The literal kinds of [core/events.py] *)

Definition retention_kind (e : RetentionEvent) : string :=
  match e with
  | RetentionPackageRegistered _ => "retention_package_registered"
  | RetrievalCompleted _ _ _ => "retrieval_completed"
  | ReacquisitionRequested _ => "reacquisition_requested"
  | ReacquisitionInquiryLinked _ => "reacquisition_inquiry_linked"
  | RecoveryObservationRecorded _ => "recovery_observation_recorded"
  | RecoveryComparisonRecorded _ => "recovery_comparison_recorded"
  end.

Definition learning_kind (e : LearningEvent) : string :=
  match e with
  | ConsolidationCheckpointRecorded _ => "consolidation_checkpoint_recorded"
  | ConsolidationCandidateRecorded _ => "consolidation_candidate_recorded"
  | MemoryPatchCandidateRecorded _ => "memory_patch_candidate_recorded"
  | ReconsolidationLinked _ => "reconsolidation_linked"
  | SemanticFieldEvaluationRecorded _ _ => "semantic_field_evaluation_recorded"
  | RepresentationGapRecorded _ => "representation_gap_recorded"
  | LearnedProbeCandidateRecorded _ => "learned_probe_candidate_recorded"
  | ProbeEvaluationRecorded _ => "probe_evaluation_recorded"
  | ProbeAdmissionDecisionRecorded _ => "probe_admission_decision_recorded"
  end.

Definition compression_kind (e : CompressionEvent) : string :=
  match e with
  | BindingCarrierManifestRegistered _ => "binding_carrier_manifest_registered"
  | RealizedHistoryDerivationRecorded _ => "realized_history_derivation_recorded"
  | CompressionContractRegistered _ => "compression_contract_registered"
  | CompressionValidationRecorded _ => "compression_validation_recorded"
  | ExactCompressionLicenseGranted _ => "exact_compression_license_granted"
  | CompressionApplicationRecorded _ _ => "compression_application_recorded"
  | RecoveryLicenseGranted _ => "recovery_license_granted"
  | RetentionCapabilityLinked _ => "retention_capability_linked"
  | RepresentationSuccessorDecided _ => "representation_successor_decided"
  | RepresentationReopened _ => "representation_reopened"
  end.

Definition project_kind (e : ProjectEvent) : string :=
  match e with
  | ProjectAnchorRecorded _ => "project_anchor_recorded"
  | CapabilityLimitationRecorded _ => "capability_limitation_recorded"
  | QuestionContractCandidateRecorded _ => "question_contract_candidate_recorded"
  | QuestionRepertoireDecided _ => "question_repertoire_decided"
  | MethodBindingCandidateRecorded _ => "method_binding_candidate_recorded"
  | MethodAdmissionDecided _ => "method_admission_decided"
  | CapabilitySuccessorCandidateRecorded _ => "capability_successor_candidate_recorded"
  | CapabilityFrontierRecorded _ => "capability_frontier_recorded"
  | ImplementationGoalCandidateRecorded _ => "implementation_goal_candidate_recorded"
  | GoalAdmissionDecided _ => "goal_admission_decided"
  | ImplementationGoalSealed _ => "implementation_goal_sealed"
  | CandidateEnvironmentRecorded _ => "candidate_environment_recorded"
  | DevelopmentEvidenceRecorded _ => "development_evidence_recorded"
  | IndependentReviewRecorded _ => "independent_review_recorded"
  | ProjectSuccessorDecided _ => "project_successor_decided"
  | PromotionDecisionRecorded _ => "promotion_decision_recorded"
  | RecursiveCycleCheckpointRecorded _ => "recursive_cycle_checkpoint_recorded"
  | RecursiveStopDispositionRecorded _ => "recursive_stop_disposition_recorded"
  end.

Definition event_kind (e : EventBody) : string :=
  match e with
  | InquiryStarted _ _ _ => "inquiry_started"
  | BacklogEffectRecorded _ => "backlog_effect_recorded"
  | StepPlanRecorded _ => "step_plan_recorded"
  | EffectRequested _ => "effect_requested"
  | EffectAttemptPlanned _ => "effect_attempt_planned"
  | EffectAttemptStarted _ => "effect_attempt_started"
  | EffectNoAttemptDispositionRecorded _ => "effect_no_attempt_disposition_recorded"
  | EffectAttemptOutcomeRecorded _ _ => "effect_attempt_outcome_recorded"
  | EffectDecodeOutcomeRecorded _ _ => "effect_decode_outcome_recorded"
  | EffectResultAccepted _ _ => "effect_result_accepted"
  | ClaimAdmitted _ _ _ => "claim_admitted"
  | ObligationOpened _ => "obligation_opened"
  | ObligationDispositionRecorded _ => "obligation_disposition_recorded"
  | CandidateRecorded _ => "candidate_recorded"
  | ResidualRecorded _ => "residual_recorded"
  | CorrectionAppended _ => "correction_appended"
  | GuardStandingChanged _ => "guard_standing_changed"
  | NogoodRecorded _ => "nogood_recorded"
  | SupportRouteStandingChanged _ => "support_route_standing_changed"
  | NogoodStandingChanged _ => "nogood_standing_changed"
  | EvidenceRecorded _ => "evidence_recorded"
  | CheckerVerdictRecorded _ => "checker_verdict_recorded"
  | WarrantDecisionRecorded _ _ => "warrant_decision_recorded"
  | LemmaPromoted _ _ _ => "lemma_promoted"
  | ProbeAdmitted _ => "probe_admitted"
  | CognitivePlanRecorded _ => "cognitive_plan_recorded"
  | PredictionSealed _ => "prediction_sealed"
  | ProbeObservationRecorded _ => "probe_observation_recorded"
  | ReconstructionRecorded _ => "reconstruction_recorded"
  | MismatchRecorded _ => "mismatch_recorded"
  | SemanticDeltaCommitted _ => "semantic_delta_committed"
  | Extended (RetentionFact x) => retention_kind x
  | Extended (LearningFact x) => learning_kind x
  | Extended (CompressionFact x) => compression_kind x
  | Extended (ProjectFact x) => project_kind x
  end.

(** The event's [schema_version] is the literal 1. *)
Definition event_schema_version (e : EventBody) : Z := 1.

(** ** [upcasting.py] *)

(** A parsed JSON object: its keys are distinct. *)
Abbreviation EventPayload := (list (string * json)).
Abbreviation EventUpcaster := (EventPayload → result json).
Abbreviation Upcasters := (gmap (string * Z) EventUpcaster).

Definition EVENT_UPCASTERS : Upcasters := ∅.

(** [payload.get(key)] *)
Definition payload_get (key : string) (payload : EventPayload) : option json :=
  snd <$> first (λ kv, kv.1 ==? key) payload.

(** [isinstance(kind, str)] and [type(version) is int] *)
Definition payload_key (payload : EventPayload) : option (string * Z) :=
  match payload_get "kind" payload, payload_get "schema_version" payload with
  | Some (JString kind), Some (JInt version) => Some (kind, version)
  | _, _ => None
  end.

(** [while True:] of [upcast_event_payload], cut off after [fuel] rounds: [None] is
    a loop that is still running, which is neither a result nor an exception of the
    code.  The upcaster is called on [dict(current)], a fresh dict, and [current] was
    never handed out, so [migrated is current] is false and only the type of what it
    returns is left to test. *)
Fixpoint upcast_loop (fuel : nat) (registry : Upcasters) (current_version : Z)
    (current : EventPayload) (seen : list (string * Z)) : option (result EventPayload) :=
  match fuel with
  | O => None
  | S fuel =>
    match payload_key current with
    | None => Some (raise UnsupportedEventSchemaVersion "event kind and integer version are required")
    | Some key =>
      if (key.2 =? current_version)%Z then Some (Ok current)
      else if mem key seen then Some (raise UnsupportedEventSchemaVersion "event upcaster cycle detected")
      else
        match registry !! key with
        | None => Some (raise UnsupportedEventSchemaVersion "no reviewed upcaster")
        | Some upcaster =>
          match upcaster current with
          | Ok (JObject migrated) => upcast_loop fuel registry current_version migrated (key :: seen)
          | Ok _ => Some (raise UnsupportedEventSchemaVersion "event upcaster must return a new mapping")
          | Raise e => Some (Raise e)
          end
        end
    end
  end.

(** One round per registered key, and one more; [upcasting_ends] shows that the
    default is never taken. *)
Definition upcast_with (registry : Upcasters) (payload : EventPayload) (current_version : Z) :
    result EventPayload :=
  default (raise RuntimeError "still running")
    (upcast_loop (S (size registry)) registry current_version payload []).

Definition upcast_event_payload : EventPayload → Z → result EventPayload := upcast_with EVENT_UPCASTERS.

(** ** [serialization.py] *)

(** The calls of pydantic and of [json] the persistence code makes: [json.loads],
    [model_dump(mode="json")], the strict [validate_json] of a record, the fields of
    a model as [_iter_artifact_refs] reads them, and model equality. *)
Record Pydantic : Type := {
  py_loads : string → result json;
  py_dump_event : DomainEvent → json;
  py_parse_event : string → result DomainEvent;
  py_event_value : DomainEvent → pyvalue;
  py_dump_state : InquiryState → json;
  py_parse_state : string → result InquiryState;
  py_state_value : InquiryState → pyvalue;
  py_state_eq : InquiryState → InquiryState → bool;
  py_parse_manifest : string → result ReacquisitionChildManifest;
}.

Definition encode_event (py : Pydantic) (e : DomainEvent) : string := canonical_json (py_dump_event py e).

Definition decode_event (py : Pydantic) (data : string) : result DomainEvent :=
  payload ← py_loads py data;
  match payload with
  | JObject o => up ← upcast_event_payload o 1; py_parse_event py (canonical_json (JObject up))
  | _ => raise ValueError "persisted event must be a JSON object"
  end.

Definition encode_state (py : Pydantic) (s : InquiryState) : string := canonical_json (py_dump_state py s).
Definition decode_state (py : Pydantic) (data : string) : result InquiryState := py_parse_state py data.

(** Pydantic and [json] agree with themselves on the event: its dump is an object
    of its kind and of schema version 1, the text of the dump parses to the dump,
    and validates to the event. *)
Record Serializable (py : Pydantic) (e : DomainEvent) : Prop := {
  ser_dump : ∃ o, py_dump_event py e = JObject o
                  ∧ payload_key o = Some (event_kind (evt_body e), event_schema_version (evt_body e));
  ser_loads : py_loads py (encode_event py e) = Ok (py_dump_event py e);
  ser_parse : py_parse_event py (encode_event py e) = Ok e;
}.

(** ** Properties *)

Lemma upcast_current registry payload v key :
  payload_key payload = Some key → key.2 = v → upcast_with registry payload v = Ok payload.
Proof. intros Hk <-. unfold upcast_with. cbn. by rewrite Hk, Z.eqb_refl. Qed.

Lemma decode_encode py e : Serializable py e → decode_event py (encode_event py e) = Ok e.
Proof.
  intros [(o & Ho & Hk) Hl Hp]. unfold decode_event. rewrite Hl, Ho. unfold mbind, result_bind, upcast_event_payload.
  rewrite (upcast_current EVENT_UPCASTERS o 1 _ Hk); [|done].
  unfold encode_event in Hp. by rewrite Ho in Hp.
Qed.

(** The keys already passed are distinct and registered, so there are at most as
    many as the registry has. *)
Lemma seen_bounded (registry : Upcasters) seen :
  NoDup seen → (∀ k, k ∈ seen → is_Some (registry !! k)) → (length seen ≤ size registry)%nat.
Proof.
  intros Hn Hs. rewrite <- size_dom. rewrite <- (size_list_to_set (C:=gset (string * Z)) seen) by done.
  apply subseteq_size. intros k Hk%elem_of_list_to_set. by apply elem_of_dom, Hs.
Qed.

Lemma upcast_loop_total registry v fuel : ∀ payload seen,
  NoDup seen → (∀ x, x ∈ seen → is_Some (registry !! x)) → (S (size registry) ≤ fuel + length seen)%nat →
  is_Some (upcast_loop fuel registry v payload seen).
Proof.
  induction fuel as [|fuel IH]; intros payload seen Hn Hs Hf.
  { pose proof (seen_bounded registry seen Hn Hs). lia. }
  cbn [upcast_loop]. destruct (payload_key payload) as [key|]; [|by eexists]. destruct (_ =? _)%Z; [by eexists|].
  destruct (mem key seen) eqn:Hm; [by eexists|]. rewrite mem_false in Hm.
  destruct (registry !! key) as [upcaster|] eqn:Hk; [|by eexists].
  destruct (upcaster payload) as [[]|]; try by eexists. apply IH; [by constructor| |cbn; lia].
  intros x [->|Hx]%elem_of_cons; [by eexists|by apply Hs].
Qed.

Lemma upcast_loop_more registry v k fuel : ∀ payload seen r,
  upcast_loop fuel registry v payload seen = Some r → upcast_loop (fuel + k) registry v payload seen = Some r.
Proof.
  induction fuel as [|fuel IH]; intros payload seen r; [done|]. cbn [upcast_loop Nat.add].
  destruct (payload_key payload) as [key|]; [|done]. destruct (_ =? _)%Z; [done|].
  destruct (mem key seen); [done|]. destruct (registry !! key) as [upcaster|]; [|done].
  destruct (upcaster payload) as [[]|]; try done. apply IH.
Qed.

(** The migrations that take a payload to the current version, and the keys they
    migrate from. *)
Inductive migrates (registry : Upcasters) (v : Z) : EventPayload → list (string * Z) → EventPayload → Prop :=
| migrates_here p kind : payload_key p = Some (kind, v) → migrates registry v p [] p
| migrates_step current key upcaster migrated keys p :
    payload_key current = Some key → key.2 ≠ v → registry !! key = Some upcaster →
    upcaster current = Ok (JObject migrated) → migrates registry v migrated keys p →
    migrates registry v current (key :: keys) p.

Lemma upcast_loop_sound registry v fuel : ∀ payload seen p,
  upcast_loop fuel registry v payload seen = Some (Ok p) →
  ∃ keys, migrates registry v payload keys p ∧ NoDup keys ∧ (∀ k, k ∈ keys → k ∉ seen).
Proof.
  induction fuel as [|fuel IH]; intros payload seen p H; [done|]. cbn [upcast_loop] in H.
  destruct (payload_key payload) as [key|] eqn:Hk; [|done]. destruct (key.2 =? v)%Z eqn:Hv.
  { injection H as <-. apply Z.eqb_eq in Hv. exists []. split_and!; [|constructor|by intros ? ?%not_elem_of_nil].
    apply (migrates_here _ _ _ key.1). rewrite Hk. by destruct key; cbn in Hv; subst. }
  apply Z.eqb_neq in Hv. destruct (mem key seen) eqn:Hm; [done|]. rewrite mem_false in Hm.
  destruct (registry !! key) as [upcaster|] eqn:Hr; [|done].
  destruct (upcaster payload) as [[]|] eqn:Hu; try done.
  apply IH in H as (keys & Hg & Hn & Hd). exists (key :: keys). split_and!; [by eapply migrates_step| |].
  - constructor; [|done]. intros Hin. by apply (Hd key Hin), elem_of_cons; left.
  - intros k [->|Hin]%elem_of_cons; [done|]. intros Hs. by apply (Hd k Hin), elem_of_cons; right.
Qed.

Lemma upcast_loop_complete registry v payload keys p :
  migrates registry v payload keys p → ∀ fuel seen,
  NoDup keys → (∀ k, k ∈ keys → k ∉ seen) → (length keys < fuel)%nat →
  upcast_loop fuel registry v payload seen = Some (Ok p).
Proof.
  induction 1 as [p kind Hk|current key upcaster migrated keys p Hk Hv Hr Hu _ IH];
    intros fuel seen Hn Hd Hf; (destruct fuel as [|fuel]; [lia|]); cbn [upcast_loop]; rewrite Hk.
  - by rewrite Z.eqb_refl.
  - apply Z.eqb_neq in Hv as ->. apply NoDup_cons in Hn as [Hnk Hn].
    destruct (mem key seen) eqn:Hm.
    { rewrite mem_true in Hm. destruct (Hd key); [by left|done]. }
    rewrite Hr, Hu. apply IH; [done| |cbn in Hf; lia].
    intros k Hin [->|Hs]%elem_of_cons; [done|]. by apply (Hd k); [right|].
Qed.

Lemma migrates_registered registry v payload keys p :
  migrates registry v payload keys p → ∀ k, k ∈ keys → is_Some (registry !! k).
Proof.
  induction 1; intros k; [by intros ?%not_elem_of_nil|]. intros [->|]%elem_of_cons; [by eexists|auto].
Qed.

Lemma upcast_with_migrates registry payload v p :
  upcast_with registry payload v = Ok p ↔ ∃ keys, migrates registry v payload keys p ∧ NoDup keys.
Proof.
  unfold upcast_with. split.
  - destruct (upcast_loop _ _ _ _ _) as [r|] eqn:Hl; [|done]. intros [= ->].
    apply upcast_loop_sound in Hl as (keys & ? & ? & _). eauto.
  - intros (keys & Hm & Hn). rewrite (upcast_loop_complete _ _ _ _ _ Hm); [done|done|by intros ? _ ?%not_elem_of_nil|].
    pose proof (seen_bounded registry keys Hn (migrates_registered _ _ _ _ _ Hm)). lia.
Qed.

Lemma migrates_empty v payload keys p : migrates EVENT_UPCASTERS v payload keys p → p = payload ∧ keys = [].
Proof. destruct 1 as [|? ? ? ? ? ? ? ? Hr]; [done|]. unfold EVENT_UPCASTERS in Hr. by rewrite lookup_empty in Hr. Qed.

(** C39: Upcasting ends for every registry and every payload, whatever the upcasters
    do, cycles included: within one round per registered key and one more the loop
    has returned or raised, and running it longer changes nothing.  A payload comes
    out exactly when registered migrations with distinct keys lead to it and it has
    the current version; with the empty registry the code ships, exactly when it is
    already current, and then it is returned as it is. *)
Theorem upcasting_ends registry payload v :
  (∀ k, upcast_loop (S (size registry) + k) registry v payload [] = Some (upcast_with registry payload v))
  ∧ (∀ p, upcast_with registry payload v = Ok p ↔ ∃ keys, migrates registry v payload keys p ∧ NoDup keys)
  ∧ (∀ p, upcast_event_payload payload v = Ok p ↔ p = payload ∧ ∃ kind, payload_key payload = Some (kind, v)).
Proof.
  split; [|split].
  - intros k. apply upcast_loop_more. unfold upcast_with.
    destruct (upcast_loop_total registry v (S (size registry)) payload []) as [r ->];
      [constructor|by intros ? ?%not_elem_of_nil|cbn; lia|done].
  - intros p. apply upcast_with_migrates.
  - intros p. unfold upcast_event_payload. rewrite upcast_with_migrates. split.
    + intros (keys & Hm & _). destruct (migrates_empty _ _ _ _ Hm) as [-> ->]. split; [done|]. inversion Hm; subst. eauto.
    + intros [-> [kind Hk]]. exists []. split; [by apply (migrates_here _ _ _ kind)|constructor].
Qed.
