(* ===== verification/Store.v ===== *)
(** * The event store: [src/rci/persistence/sqlite.py]

    The database as four tables, the append transaction with its guards in their
    order, the cross-stream facts it proves before it inserts, loading and
    exporting a stream, snapshots, rebuilding, projection checkpoints, and the
    bootstrap with its one migration.  An operation that fails leaves the database
    it was given: the code rolls its transaction back.  Connections, pragmas and
    busy waiting are left out. *)

From S2P Require Import Prelude Digest Memory Learning Compression Model Claims Effects Probes Artifacts Retention Licensing Goals Extensions Decide State Evolve Serialization.

Definition DATABASE_SCHEMA_VERSION : Z := 2.
Definition FOLDED_STATE_SCHEMA_VERSION : string := "rci.inquiry-state.v6".
Definition REBUILDABLE_FOLDED_STATE_SCHEMAS : list string :=
  ["rci.inquiry-state.v1"; "rci.inquiry-state.v2"; "rci.inquiry-state.v3"; "rci.inquiry-state.v4";
   "rci.inquiry-state.v5"].
Definition EVENT_PREFIX_DIGEST_VERSION : string := "rci.event-prefix.v1".

(** ** Tables *)

Record EventRow : Type := MkEventRow {
  er_stream_id : string;
  er_sequence : Z;
  er_event_id : string;
  er_event_type : string;
  er_event_schema_version : Z;
  er_event_bytes : string;
  er_event_digest : string;
}.

Record SnapshotRow : Type := MkSnapshotRow {
  sr_stream_id : string;
  sr_sequence : Z;
  sr_fold_schema_version : string;
  sr_source_event_digest : string;
  sr_state_bytes : string;
  sr_state_digest : string;
}.

Record CheckpointRow : Type := MkCheckpointRow {
  cr_projection_name : string;
  cr_projection_schema_version : string;
  cr_stream_id : string;
  cr_sequence : Z;
  cr_payload_bytes : string;
  cr_payload_digest : string;
}.

(** [PRAGMA user_version] and the tables; [streams] maps a stream to its version. *)
Record Database : Type := MkDatabase {
  db_user_version : Z;
  db_streams : gmap string Z;
  db_events : list EventRow;
  db_snapshots : list SnapshotRow;
  db_checkpoints : list CheckpointRow;
}.

Definition with_streams (f : gmap string Z → gmap string Z) (db : Database) : Database :=
  MkDatabase (db_user_version db) (f (db_streams db)) (db_events db) (db_snapshots db) (db_checkpoints db).
Definition with_events (f : list EventRow → list EventRow) (db : Database) : Database :=
  MkDatabase (db_user_version db) (db_streams db) (f (db_events db)) (db_snapshots db) (db_checkpoints db).
Definition with_snapshots (f : list SnapshotRow → list SnapshotRow) (db : Database) : Database :=
  MkDatabase (db_user_version db) (db_streams db) (db_events db) (f (db_snapshots db)) (db_checkpoints db).
Definition with_checkpoints (f : list CheckpointRow → list CheckpointRow) (db : Database) : Database :=
  MkDatabase (db_user_version db) (db_streams db) (db_events db) (db_snapshots db) (f (db_checkpoints db)).

(** ** Records handed to callers *)

Record StoredEvent : Type := MkStoredEvent {
  se_stream_id : string;
  se_sequence : Z;
  se_event_digest : string;
  se_event : DomainEvent;
}.

Record StreamSlice : Type := MkStreamSlice {
  slice_stream_id : string;
  slice_version : Z;
  slice_events : list StoredEvent;
}.

Record SnapshotRecord : Type := MkSnapshotRecord {
  snap_stream_id : string;
  snap_sequence : Z;
  snap_fold_schema_version : string;
  snap_source_event_digest : string;
  snap_state_digest : string;
  snap_state : InquiryState;
}.

Record ProjectionCheckpoint : Type := MkProjectionCheckpoint {
  chk_projection_name : string;
  chk_projection_schema_version : string;
  chk_stream_id : string;
  chk_sequence : Z;
  chk_payload_digest : string;
  chk_payload : string;
}.

(** [context.model_dump(mode="json")] *)
#[export] Instance InquiryContext_to_json : ToJson InquiryContext := λ c,
  JObject [("binding_revision", to_json (ctx_binding_revision c));
           ("carrier_schema_ids", to_json (ctx_carrier_schema_ids c));
           ("relation_schema_ids", to_json (ctx_relation_schema_ids c));
           ("consequence_profile_id", to_json (ctx_consequence_profile_id c));
           ("protected_horizon_id", to_json (ctx_protected_horizon_id c));
           ("admissible_operation_ids", to_json (ctx_admissible_operation_ids c));
           ("discharge_mechanism_ids", to_json (ctx_discharge_mechanism_ids c));
           ("scope_id", to_json (ctx_scope_id c));
           ("scope_fingerprint", to_json (ctx_scope_fingerprint c));
           ("assumption_ids", to_json (ctx_assumption_ids c));
           ("guard_condition_id", to_json (ctx_guard_condition_id c));
           ("guard_ast", to_json (ctx_guard_ast c));
           ("finite_universe_hash", to_json (ctx_finite_universe_hash c));
           ("closed_world", to_json (ctx_closed_world c));
           ("catalog_manifest_digest", to_json (ctx_catalog_manifest_digest c));
           ("scheduler_policy_version", to_json (ctx_scheduler_policy_version c));
           ("warrant_policy_version", to_json (ctx_warrant_policy_version c));
           ("provenance_refs", to_json (ctx_provenance_refs c))].

(** ** Reading rows *)

(** [SELECT version FROM streams WHERE stream_id = ?], 0 when there is no row *)
Definition stream_version (db : Database) (stream_id : string) : Z := default 0%Z (db_streams db !! stream_id).

(** [SELECT ... FROM events WHERE stream_id = ? AND ... ORDER BY sequence ASC] *)
Definition select_events (db : Database) (stream_id : string) (p : Z → bool) : list EventRow :=
  sort_by er_sequence
    (List.filter (λ r, (er_stream_id r ==? stream_id) && p (er_sequence r)) (db_events db)).

(** An [except] clause that turns one class of error into another. *)
Definition recast {A} (caught : exn_kind → bool) (k : exn_kind) (msg : string) (m : result A) : result A :=
  match m with
  | Ok a => Ok a
  | Raise x => if caught (exn_class x) then raise k msg else Raise x
  end.

Section Store.
Context (py : Pydantic).

Definition event_id (e : DomainEvent) : string := meta_event_id (evt_meta e).
Definition event_inquiry_id (e : DomainEvent) : string := meta_inquiry_id (evt_meta e).

(** [_decode_row] *)
Definition decode_row (row : EventRow) : result StoredEvent :=
  raise_if (Sha256.hexdigest (er_event_bytes row) !=? er_event_digest row)
    IntegrityError "event digest mismatch";;
  event ← decode_event py (er_event_bytes row);
  raise_if ((event_id event !=? er_event_id row) || (event_kind (evt_body event) !=? er_event_type row))
    IntegrityError "event index metadata does not match immutable event bytes";;
  raise_if (event_schema_version (evt_body event) !=? er_event_schema_version row)
    IntegrityError "event schema index does not match immutable event bytes";;
  raise_if (event_inquiry_id event !=? er_stream_id row)
    IntegrityError "event stream index does not match immutable event bytes";;
  raise_if (er_sequence row <? 1)%Z ValidationError "sequence must be at least 1";;
  Ok (MkStoredEvent (er_stream_id row) (er_sequence row) (er_event_digest row) event).

(** The fields of a batch and of a tuple of stored events, as the artifact scan meets them. *)
Definition batch_value (events : list DomainEvent) : pyvalue := PySequence (map (py_event_value py) events).
Definition stored_value (events : list StoredEvent) : pyvalue :=
  PySequence (map (λ e, PyModel [PyOther; PyOther; PyOther; py_event_value py (se_event e)]) events).

Context (art : option ArtifactStore).

(** [_fold_committed_stream] *)
Definition fold_committed_stream (db : Database) (stream_id : string) (version : Z) : result InquiryState :=
  committed ← traverse decode_row (select_events db stream_id (λ _, true));
  raise_if (map se_sequence committed !=? seqZ 1 version)
    IntegrityError "event stream contains a sequence gap";;
  validate_artifacts art (stored_value committed);;
  state ← recast (λ k, k ==? InvalidTransitionError) IntegrityError
            "committed event stream violates its lifecycle" (replay (map se_event committed) initial_state);
  raise_if (st_sequence state !=? version)
    IntegrityError "committed event fold does not match the stream version";;
  raise_if ((version !=? 0%Z) && (st_inquiry_id state !=? Some stream_id))
    IntegrityError "committed event fold belongs to a different stream";;
  Ok state.

(** [_load_prefix_on_connection] *)
Definition load_prefix (db : Database) (stream_id : string) (through_sequence : Z) : result (list StoredEvent) :=
  match db_streams db !! stream_id with
  | None => raise SagaIntegrityError "reacquisition child prefix is absent or incomplete"
  | Some version =>
    raise_if (version <? through_sequence)%Z
      SagaIntegrityError "reacquisition child prefix is absent or incomplete"
  end;;
  stored ← traverse decode_row (select_events db stream_id (λ n, n <=? through_sequence)%Z);
  raise_if (map se_sequence stored !=? seqZ 1 through_sequence)
    SagaIntegrityError "reacquisition child prefix contains a sequence gap";;
  validate_artifacts art (stored_value stored);;
  Ok stored.

(** [_prefix_digest] *)
Definition prefix_digest (stream_id : string) (events : list StoredEvent) (sequence : Z) : string :=
  Sha256.hexdigest (canonical_json
    (JObject [("event_digests", to_json (map se_event_digest (take (Z.to_nat sequence) events)));
              ("format", JString EVENT_PREFIX_DIGEST_VERSION);
              ("sequence", JInt sequence);
              ("stream_id", JString stream_id)])).

(** ** Facts about other streams *)

Definition context_digest (c : InquiryContext) : string := Sha256.hexdigest (canonical_json (to_json c)).

(** [except (ValueError, TypeError)] *)
Definition malformed (k : exn_kind) : bool := is_value_error k || (k ==? TypeError).

(** [_load_child_manifest] *)
Definition load_child_manifest (r : ReacquisitionRequest) : result ReacquisitionChildManifest :=
  match art with
  | None => raise SagaIntegrityError "reacquisition requires a configured artifact store"
  | Some st =>
    recast malformed SagaIntegrityError "reacquisition child manifest is malformed"
      (bytes ← get_bytes st (rreq_child_manifest_artifact r);
       manifest ← py_parse_manifest py bytes;
       verify_artifact st (rcm_inquiry_manifest_artifact manifest);;
       Ok manifest)
  end.

(** The seven pins a child manifest shares with its request. *)
Definition manifest_matches (m : ReacquisitionChildManifest) (r : ReacquisitionRequest) : bool :=
  (rcm_parent_inquiry_id m ==? rreq_parent_inquiry_id r) && (rcm_request_id m ==? rreq_id r)
  && (rcm_child_inquiry_id m ==? rreq_child_inquiry_id r) && (rcm_pins m ==? rreq_pins r)
  && (rcm_context_digest m ==? rreq_child_context_digest r)
  && (rcm_policy_version m ==? rreq_child_policy_version r)
  && (rcm_inquiry_manifest_artifact m ==? rreq_child_inquiry_manifest_artifact r).

(** [_validate_request_manifest] *)
Definition validate_request_manifest (r : ReacquisitionRequest) : result unit :=
  manifest ← load_child_manifest r;
  raise_if (negb (manifest_matches manifest r))
    SagaIntegrityError "reacquisition manifest differs from its parent request".

(** [_validate_child_manifest] *)
Definition validate_child_manifest (r : ReacquisitionRequest) (context : InquiryContext) : result unit :=
  manifest ← load_child_manifest r;
  raise_if (negb (manifest_matches manifest r))
    SagaIntegrityError "reacquisition child manifest does not match the request";;
  raise_if (negb (pins_in_context (rcm_pins manifest) context))
    SagaIntegrityError "reacquisition child context differs from recovery pins".

(** [_validate_reacquisition_link] *)
Definition validate_reacquisition_link (db : Database) (link : ReacquisitionInquiryLink)
    (parent_state : InquiryState) : result unit :=
  request ← or_raise (first (λ r, rreq_id r ==? rlk_request_id link) (reacquisition_requests parent_state))
              SagaIntegrityError "reacquisition link has no owned parent request";
  prefix ← load_prefix db (rlk_child_inquiry_id link) (rlk_child_prefix_sequence link);
  start ← or_raise (head prefix) IndexError "tuple index out of range";
  match evt_body (se_event start) with
  | InquiryStarted manifest_artifact policy_version context =>
    let digest := context_digest context in
    raise_if ((se_sequence start !=? 1%Z)
              || (event_id (se_event start) !=? rlk_child_start_event_id link)
              || (se_event_digest start !=? rlk_child_start_event_digest link)
              || (manifest_artifact !=? rlk_child_manifest_artifact link)
              || (manifest_artifact !=? rreq_child_manifest_artifact request)
              || (policy_version !=? rreq_child_policy_version request)
              || (digest !=? rlk_child_context_digest link)
              || (digest !=? rreq_child_context_digest request)
              || (prefix_digest (rlk_child_inquiry_id link) prefix (rlk_child_prefix_sequence link)
                  !=? rlk_child_prefix_digest link))
      SagaIntegrityError "reacquisition child prefix does not match its pinned request and link proof";;
    validate_child_manifest request context
  | _ => raise SagaIntegrityError "reacquisition child prefix does not begin with InquiryStarted"
  end.

(** The ids of the requests whose result was accepted. *)
Definition accepted_request_ids (s : InquiryState) : list string :=
  map (λ r, req_id (ers_request r))
    (List.filter (λ r, is_some (accepted_result r)) (effect_requests s)).

(** The child has obligations, and all of them are satisfied. *)
Definition child_finished (s : InquiryState) : bool :=
  negb (is_nil (obligations s))
  && forallb (λ o, current_obligation_status s (obl_id o) ==? Some SATISFIED) (obligations s).

(** [_validate_recovery_observation] *)
Definition validate_recovery_observation (db : Database) (o : RecoveryObservation)
    (parent_state : InquiryState) : result unit :=
  match first (λ r, rreq_id r ==? robs_reacquisition_request_id o) (reacquisition_requests parent_state),
        first (λ k, rlk_request_id k ==? robs_reacquisition_request_id o)
          (reacquisition_inquiry_links parent_state) with
  | Some _, Some _ =>
    prefix ← load_prefix db (robs_child_inquiry_id o) (robs_child_prefix_sequence o);
    raise_if (prefix_digest (robs_child_inquiry_id o) prefix (robs_child_prefix_sequence o)
              !=? robs_child_prefix_digest o)
      SagaIntegrityError "recovery observation child prefix digest is invalid";;
    child ← recast (λ k, k ==? InvalidTransitionError) SagaIntegrityError
              "recovery observation child prefix is not replayable"
              (replay (map se_event prefix) initial_state);
    raise_if (negb (subset (robs_effect_request_ids o) (accepted_request_ids child)))
      SagaIntegrityError "recovery observation names an absent or unresolved child effect request";;
    raise_if (negb (subset (robs_logical_probe_ids o) (map pe_id (probe_observations child))))
      SagaIntegrityError "recovery observation names an absent child probe event";;
    raise_if (negb (child_finished child))
      SagaIntegrityError "recovery observation child inquiry is unfinished"
  | _, _ => raise SagaIntegrityError "recovery observation requires a durably linked child inquiry"
  end.

(** [_validate_realized_history_derivation] *)
Definition validate_realized_history_derivation (db : Database) (stream_id : string)
    (d : RealizedHistoryDerivation) (committed_state : InquiryState) : result unit :=
  raise_if (negb (mem (rhd_carrier_manifest_id d) (map bcm_id (binding_carrier_manifests committed_state))))
    IntegrityError "history derivation requires a durably committed carrier manifest";;
  raise_if (rhd_source_ledger_sequence d !=? st_sequence committed_state)
    IntegrityError "history derivation must pin the committed stream prefix";;
  prefix ← load_prefix db stream_id (rhd_source_ledger_sequence d);
  raise_if (prefix_digest stream_id prefix (rhd_source_ledger_sequence d) !=? rhd_source_prefix_digest d)
    IntegrityError "history derivation prefix digest does not match the ledger".

(** ** [append] *)

Definition validate_saga (db : Database) (stream_id : string) (e : DomainEvent) (committed : InquiryState) :
    result unit :=
  match evt_body e with
  | Extended (RetentionFact (ReacquisitionRequested r)) => validate_request_manifest r
  | Extended (RetentionFact (ReacquisitionInquiryLinked k)) => validate_reacquisition_link db k committed
  | Extended (RetentionFact (RecoveryObservationRecorded o)) => validate_recovery_observation db o committed
  | Extended (CompressionFact (RealizedHistoryDerivationRecorded d)) =>
    validate_realized_history_derivation db stream_id d committed
  | _ => Ok tt
  end.

(** Every proposed event is checked, then folded in, before any row is written. *)
Fixpoint admit_events (db : Database) (stream_id : string) (committed : InquiryState)
    (events : list DomainEvent) (candidate : InquiryState) : result InquiryState :=
  match events with
  | [] => Ok candidate
  | e :: events =>
    validate_saga db stream_id e committed;;
    candidate ← evolve candidate e;
    admit_events db stream_id committed events candidate
  end.

(** [INSERT INTO events]; a violated uniqueness constraint is what the handler of
    [sqlite3.IntegrityError] reports as a duplicate event. *)
Definition insert_event (r : EventRow) (db : Database) : result Database :=
  raise_if (existsb (λ x, (er_event_id x ==? er_event_id r)
                          || ((er_stream_id x ==? er_stream_id r) && (er_sequence x =? er_sequence r)%Z))
              (db_events db))
    DuplicateEventError "event identity already exists";;
  Ok (with_events (λ l, l ++ [r]) db).

Definition event_row (stream_id : string) (sequence : Z) (e : DomainEvent) : EventRow :=
  let bytes := encode_event py e in
  MkEventRow stream_id sequence (event_id e) (event_kind (evt_body e)) (event_schema_version (evt_body e))
    bytes (Sha256.hexdigest bytes).

Fixpoint insert_events (stream_id : string) (sequence : Z) (events : list DomainEvent) (db : Database) :
    result Database :=
  match events with
  | [] => Ok db
  | e :: events =>
    db ← insert_event (event_row stream_id (sequence + 1) e) db;
    insert_events stream_id (sequence + 1) events db
  end.

(** [UPDATE streams SET version = ? WHERE stream_id = ? AND version = ?] must change one row. *)
Definition update_version (stream_id : string) (current next_sequence : Z) (db : Database) : result Database :=
  raise_if (db_streams db !! stream_id !=? Some current)
    OptimisticConcurrencyError "stream version changed during append";;
  Ok (with_streams (<[stream_id := next_sequence]>) db).

(** [append] from the version check on: the prefix and the batch are validated,
    then the rows are written and the version moved. *)
Definition commit_events (db : Database) (stream_id : string) (events : list DomainEvent) :
    result (Z * Database) :=
  let current := stream_version db stream_id in
  committed ← fold_committed_stream db stream_id current;
  admit_events db stream_id committed events committed;;
  let db := if is_none (db_streams db !! stream_id) && negb (is_nil events)
            then with_streams (<[stream_id := 0%Z]>) db else db in
  db ← insert_events stream_id current events db;
  let next_sequence := (current + Z.of_nat (length events))%Z in
  db ← if is_nil events then Ok db else update_version stream_id current next_sequence db;
  validate_artifacts art (batch_value events);;
  Ok (next_sequence, db).

(** [append]: the committed result and database *)
Definition append (db : Database) (stream_id : string) (expected_sequence : Z) (events : list DomainEvent) :
    result (Z * Database) :=
  raise_if (expected_sequence <? 0)%Z ValueError "expected sequence cannot be negative";;
  raise_if (existsb (λ e, event_inquiry_id e !=? stream_id) events)
    ValueError "every event inquiry id must match its stream id";;
  raise_if (negb (uniq (map event_id events)))
    DuplicateEventError "an append batch contains duplicate event ids";;
  validate_artifacts art (batch_value events);;
  raise_if (negb (stream_version db stream_id =? expected_sequence)%Z)
    OptimisticConcurrencyError "stream is not at the expected sequence";;
  commit_events db stream_id events.

(** ** Loading and exporting *)

(** [load_stream].  The slice checks that the stream id is an [Identifier]; the rows
    carry the inquiry id of their event, which is one. *)
Definition load_stream (db : Database) (stream_id : string) (after_sequence : Z) : result StreamSlice :=
  raise_if (after_sequence <? 0)%Z ValueError "after sequence cannot be negative";;
  let version := stream_version db stream_id in
  raise_if (version <? after_sequence)%Z IntegrityError "requested events beyond stream version";;
  decoded ← traverse decode_row (select_events db stream_id (λ n, after_sequence <? n)%Z);
  validate_artifacts art (stored_value decoded);;
  raise_if (map se_sequence decoded !=? seqZ (after_sequence + 1) (version - after_sequence))
    IntegrityError "event stream contains a sequence gap";;
  raise_if (negb (is_identifier stream_id)) ValidationError "stream id is not an identifier";;
  Ok (MkStreamSlice stream_id version decoded).

Definition export_header (s : StreamSlice) : string :=
  canonical_json (JObject [("format", JString "rci.event-stream.v1");
                           ("stream_id", JString (slice_stream_id s));
                           ("version", JInt (slice_version s))]).

Definition export_line (e : StoredEvent) : result string :=
  event ← py_loads py (encode_event py (se_event e));
  Ok (canonical_json (JObject [("event", event);
                               ("event_digest", JString (se_event_digest e));
                               ("sequence", JInt (se_sequence e))])).

(** [export_stream] *)
Definition export_stream (db : Database) (stream_id : string) : result string :=
  stream ← load_stream db stream_id 0;
  lines ← traverse export_line (slice_events stream);
  Ok (join newline (export_header stream :: lines) +:+ newline).

(** [stream_prefix_digest] *)
Definition stream_prefix_digest (db : Database) (stream_id : string) (through_sequence : option Z) :
    result string :=
  stream ← load_stream db stream_id 0;
  let sequence := default (slice_version stream) through_sequence in
  raise_if ((sequence <? 0) || (slice_version stream <? sequence))%Z
    ValueError "stream prefix sequence is outside the event stream";;
  Ok (prefix_digest stream_id (slice_events stream) sequence).

(** ** Snapshots *)

(** [replay(item.event for item in stream.events[:sequence])] *)
Definition replay_prefix (s : StreamSlice) (sequence : Z) : result InquiryState :=
  replay (map se_event (take (Z.to_nat sequence) (slice_events s))) initial_state.

Definition same_snapshot (stream_id : string) (sequence : Z) (r : SnapshotRow) : bool :=
  (sr_stream_id r ==? stream_id) && (sr_sequence r =? sequence)%Z.

(** The snapshot row is written, replaced when its fold schema is rebuildable, or
    found to be there already. *)
Definition store_snapshot (r : SnapshotRow) (db : Database) : result Database :=
  let here := same_snapshot (sr_stream_id r) (sr_sequence r) in
  match first here (db_snapshots db) with
  | None => Ok (with_snapshots (λ l, l ++ [r]) db)
  | Some x =>
    if mem (sr_fold_schema_version x) REBUILDABLE_FOLDED_STATE_SCHEMAS then
      Ok (with_snapshots (λ l, List.filter (λ y, negb (here y)) l ++ [r]) db)
    else
      raise_if (sr_fold_schema_version x !=? FOLDED_STATE_SCHEMA_VERSION)
        UnsupportedSchemaVersionError "snapshot fold schema is unsupported";;
      raise_if ((sr_source_event_digest x !=? sr_source_event_digest r)
                || (sr_state_bytes x !=? sr_state_bytes r) || (sr_state_digest x !=? sr_state_digest r))
        SnapshotConflictError "snapshot sequence already stores different state bytes";;
      Ok db
  end.

(** [save_snapshot] *)
Definition save_snapshot (db : Database) (stream_id : string) (state : InquiryState) :
    result (SnapshotRecord * Database) :=
  raise_if ((st_inquiry_id state !=? Some stream_id) || (st_sequence state <? 1)%Z)
    ValueError "snapshot state must belong to a started stream";;
  raise_if (stream_version db stream_id <? st_sequence state)%Z
    ValueError "snapshot sequence is ahead of its event stream";;
  validate_artifacts art (py_state_value py state);;
  stream ← load_stream db stream_id 0;
  expected ← replay_prefix stream (st_sequence state);
  raise_if (negb (py_state_eq py expected state))
    IntegrityError "snapshot does not equal replay at its sequence";;
  let state_bytes := encode_state py state in
  let digest := Sha256.hexdigest state_bytes in
  source_event_digest ← stream_prefix_digest db stream_id (Some (st_sequence state));
  db ← store_snapshot (MkSnapshotRow stream_id (st_sequence state) FOLDED_STATE_SCHEMA_VERSION
                         source_event_digest state_bytes digest) db;
  Ok (MkSnapshotRecord stream_id (st_sequence state) FOLDED_STATE_SCHEMA_VERSION source_event_digest
        digest state, db).

(** [load_latest_snapshot] *)
Definition load_latest_snapshot (db : Database) (stream_id : string) : result (option SnapshotRecord) :=
  match last (sort_by sr_sequence (List.filter (λ r, sr_stream_id r ==? stream_id) (db_snapshots db))) with
  | None => Ok None
  | Some row =>
    if sr_fold_schema_version row ==? FOLDED_STATE_SCHEMA_VERSION then
      raise_if (Sha256.hexdigest (sr_state_bytes row) !=? sr_state_digest row)
        IntegrityError "snapshot bytes do not match their digest";;
      state ← recast is_value_error IntegrityError "snapshot state bytes are not a supported folded state"
                (decode_state py (sr_state_bytes row));
      raise_if ((st_inquiry_id state !=? Some stream_id) || negb (st_sequence state =? sr_sequence row)%Z)
        IntegrityError "snapshot metadata does not match its state bytes";;
      source_event_digest ← stream_prefix_digest db stream_id (Some (st_sequence state));
      raise_if (source_event_digest !=? sr_source_event_digest row)
        IntegrityError "snapshot source prefix does not match the event ledger";;
      stream ← load_stream db stream_id 0;
      expected ← replay_prefix stream (st_sequence state);
      raise_if (negb (py_state_eq py expected state))
        IntegrityError "snapshot state does not equal its event prefix";;
      validate_artifacts art (py_state_value py state);;
      Ok (Some (MkSnapshotRecord stream_id (sr_sequence row) (sr_fold_schema_version row)
                  source_event_digest (sr_state_digest row) state))
    else if mem (sr_fold_schema_version row) REBUILDABLE_FOLDED_STATE_SCHEMAS then Ok None
    else raise UnsupportedSchemaVersionError "snapshot fold schema is unsupported"
  end.

(** [except (IntegrityError, UnsupportedSchemaVersionError)], with the subclasses *)
Definition disposable (k : exn_kind) : bool :=
  mem k [IntegrityError; SagaIntegrityError; ArtifactIntegrityError; UnsupportedSchemaVersionError].

Definition usable_snapshot (db : Database) (stream_id : string) (use_snapshot : bool) :
    result (option SnapshotRecord) :=
  if use_snapshot then
    match load_latest_snapshot db stream_id with
    | Ok o => Ok o
    | Raise x => if disposable (exn_class x) then Ok None else Raise x
    end
  else Ok None.

(** [rebuild_state] *)
Definition rebuild_state (db : Database) (stream_id : string) (use_snapshot : bool) : result InquiryState :=
  snapshot ← usable_snapshot db stream_id use_snapshot;
  let state := match snapshot with Some r => snap_state r | None => initial_state end in
  stream ← load_stream db stream_id (st_sequence state);
  rebuilt ← replay (map se_event (slice_events stream)) state;
  raise_if (st_sequence rebuilt !=? slice_version stream)
    IntegrityError "rebuilt state sequence does not equal stream version";;
  Ok rebuilt.

(** [SQLiteEventStore.rebuild_projection] *)
Definition rebuild_stored_projection {P : Type} (db : Database) (stream_id : string) (initial : P)
    (apply : P → DomainEvent → P) : result P :=
  stream ← load_stream db stream_id 0;
  Ok (rebuild_projection (map se_event (slice_events stream)) initial apply).
End Store.

(** ** Projection checkpoints *)

Definition same_checkpoint (r x : CheckpointRow) : bool :=
  (cr_projection_name x ==? cr_projection_name r)
  && (cr_projection_schema_version x ==? cr_projection_schema_version r)
  && (cr_stream_id x ==? cr_stream_id r) && (cr_sequence x =? cr_sequence r)%Z.

(** [save_projection_checkpoint] *)
Definition save_projection_checkpoint (db : Database) (name schema_version stream_id : string)
    (sequence : Z) (payload : string) : result (ProjectionCheckpoint * Database) :=
  raise_if (schema_version ==? "") ValueError "projection schema version is required";;
  raise_if ((sequence <? 0) || (stream_version db stream_id <? sequence))%Z
    ValueError "projection sequence is outside the event stream";;
  let digest := Sha256.hexdigest payload in
  let row := MkCheckpointRow name schema_version stream_id sequence payload digest in
  db ← match first (same_checkpoint row) (db_checkpoints db) with
       | Some x =>
         raise_if ((cr_payload_bytes x !=? payload) || (cr_payload_digest x !=? digest))
           SnapshotConflictError "projection checkpoint identity stores different bytes";;
         Ok db
       | None => Ok (with_checkpoints (λ l, l ++ [row]) db)
       end;
  Ok (MkProjectionCheckpoint name schema_version stream_id sequence digest payload, db).

(** [load_latest_projection_checkpoint] *)
Definition load_latest_projection_checkpoint (db : Database) (name schema_version stream_id : string) :
    result (option ProjectionCheckpoint) :=
  match last (sort_by cr_sequence
                (List.filter (λ r, (cr_projection_name r ==? name)
                                   && (cr_projection_schema_version r ==? schema_version)
                                   && (cr_stream_id r ==? stream_id)) (db_checkpoints db))) with
  | None => Ok None
  | Some r =>
    raise_if (Sha256.hexdigest (cr_payload_bytes r) !=? cr_payload_digest r)
      IntegrityError "projection checkpoint bytes do not match their digest";;
    Ok (Some (MkProjectionCheckpoint (cr_projection_name r) (cr_projection_schema_version r)
                (cr_stream_id r) (cr_sequence r) (cr_payload_digest r) (cr_payload_bytes r)))
  end.

(** ** [_bootstrap] *)

(** [_migrate_v1_to_v2] *)
Definition migrate_v1_to_v2 (db : Database) : Database :=
  MkDatabase DATABASE_SCHEMA_VERSION (db_streams db) (db_events db) [] (db_checkpoints db).

(** [journal_mode] is what SQLite answers to the request for WAL, in lower case. *)
Definition bootstrap (journal_mode : string) (db : Database) : result Database :=
  raise_if (DATABASE_SCHEMA_VERSION <? db_user_version db)%Z UnsupportedSchemaVersionError
    "database schema is newer than supported";;
  raise_if (journal_mode !=? "wal") IntegrityError "SQLite refused WAL mode";;
  let db := if (db_user_version db =? 1)%Z then migrate_v1_to_v2 db else db in
  Ok (MkDatabase DATABASE_SCHEMA_VERSION (db_streams db) (db_events db) (db_snapshots db) (db_checkpoints db)).

(** A file that holds no database yet. *)
Definition empty_database : Database := MkDatabase 0 ∅ [] [] [].

(** [with] a transaction: the state the database is left in, whatever the outcome *)
Definition committed_db {A} (db : Database) (m : result (A * Database)) : Database :=
  match m with Ok (_, db') => db' | Raise _ => db end.
