(* ===== verification/Runtime.v ===== *)
(** * The runtime of the SDK: [src/rci/sdk.py]

    What [RCI] holds (the artifact directory, the database and a clock) and how a
    call runs against it: calls read and write the runtime in order and keep what
    they wrote when they raise later.  [run_batch] is [_apply_batch], through which
    every change of an inquiry goes. *)

From S2P Require Import Prelude Digest Dumps Memory Questions Project Model Claims Warrant Support Policy Planning Backlog Effects Probes Artifacts Goals Decide State Evolve Serialization Store.

Record Runtime : Type := MkRuntime {
  rt_artifacts : ArtifactStore;
  rt_database : Database;
  rt_ticks : nat;
}.

(** A call returns or raises, and leaves the runtime as it is then. *)
Definition sdk (A : Type) : Type := Runtime → result A * Runtime.

#[export] Instance sdk_ret : MRet sdk := λ A a rt, (Ok a, rt).
#[export] Instance sdk_bind : MBind sdk := λ A B f m rt,
  match m rt with
  | (Ok a, rt') => f a rt'
  | (Raise x, rt') => (Raise x, rt')
  end.

(** A pure computation, and one over the current artifacts. *)
Definition lift {A} (m : result A) : sdk A := λ rt, (m, rt).
Definition reading {A} (f : ArtifactStore → result A) : sdk A := λ rt, (f (rt_artifacts rt), rt).

(** [_stable_id]: the parts are joined by a NUL character *)
Definition stable_id (kind : string) (parts : list string) : string :=
  kind +:+ "_" +:+ prefix 24 (Sha256.hexdigest (join (String Ascii.zero "") parts)).

Section Runtime.
Context (py : Pydantic) (clock : nat → Z).

(** [self.clock()] *)
Definition tick : sdk Z := λ rt,
  (Ok (clock (rt_ticks rt)), MkRuntime (rt_artifacts rt) (rt_database rt) (S (rt_ticks rt))).

(** [self.artifacts.put_bytes] *)
Definition put_artifact (data : string) (media_type encoding : option string) : sdk ArtifactRef := λ rt,
  match put_bytes (rt_artifacts rt) data media_type encoding with
  | Ok (a, st) => (Ok a, MkRuntime st (rt_database rt) (rt_ticks rt))
  | Raise x => (Raise x, rt)
  end.

(** [inspect] and [resume] *)
Definition inspect (inquiry_id : string) : sdk InquiryState := λ rt,
  (rebuild_state py (Some (rt_artifacts rt)) (rt_database rt) inquiry_id true, rt).
Definition replay_inquiry (inquiry_id : string) : sdk InquiryState := λ rt,
  (rebuild_state py (Some (rt_artifacts rt)) (rt_database rt) inquiry_id false, rt).
Definition export_inquiry (inquiry_id : string) : sdk string := λ rt,
  (export_stream py (Some (rt_artifacts rt)) (rt_database rt) inquiry_id, rt).

Definition load_inquiry (inquiry_id : string) : sdk StreamSlice := λ rt,
  (load_stream py (Some (rt_artifacts rt)) (rt_database rt) inquiry_id 0, rt).
Definition inquiry_prefix_digest (inquiry_id : string) : sdk string := λ rt,
  (stream_prefix_digest py (Some (rt_artifacts rt)) (rt_database rt) inquiry_id None, rt).

(** [self.events.append] *)
Definition append_events (inquiry_id : string) (expected : Z) (events : list DomainEvent) : sdk Z := λ rt,
  match append py (Some (rt_artifacts rt)) (rt_database rt) inquiry_id expected events with
  | Ok (v, db) => (Ok v, MkRuntime (rt_artifacts rt) db (rt_ticks rt))
  | Raise x => (Raise x, rt)
  end.

(** [_apply_batch] *)
Definition run_batch (inquiry_id : string) (commands : list DomainCommand) : sdk InquiryState :=
  state ← inspect inquiry_id;
  decided ← lift (apply_batch commands state);
  if is_nil decided.1 then mret decided.2
  else append_events inquiry_id (st_sequence state) decided.1;; mret decided.2.

(** [dispatch] and [dispatch_batch] *)
Definition dispatch (c : DomainCommand) : sdk InquiryState := run_batch (meta_inquiry_id (cmd_meta c)) [c].
Definition dispatch_batch : string → list DomainCommand → sdk InquiryState := run_batch.

(** A command whose event identity is derived from the parts. *)
Definition command (now : Z) (inquiry_id : string) (parts : list string) (body : CommandBody) : DomainCommand :=
  MkCommand (MkMeta (stable_id "evt" parts) inquiry_id now) body.

(** Dispatch one such command at the current time. *)
Definition record (inquiry_id : string) (parts : list string) (body : CommandBody) : sdk InquiryState :=
  now ← tick; dispatch (command now inquiry_id parts body).

(** ** Starting an inquiry *)

(** [_scope_from_context] *)
Definition scope_from_context (c : InquiryContext) : result Scope :=
  let scope := MkScope (ctx_scope_id c) (ctx_binding_revision c) (ctx_assumption_ids c)
                 (ctx_guard_condition_id c) (ctx_finite_universe_hash c) (ctx_closed_world c) in
  validate_scope scope;;
  raise_if (scope_fingerprint scope !=? ctx_scope_fingerprint c)
    ValueError "inquiry context scope fingerprint does not match its exact scope";;
  Ok scope.

#[export] Instance QuestionProfile_to_json : ToJson QuestionProfile := λ p,
  JObject [("id", to_json (qp_id p)); ("version", to_json (qp_version p));
           ("contract_keys", to_json (qp_contract_keys p))].
#[export] Instance QuestionCatalog_to_json : ToJson QuestionCatalog := λ c,
  JObject [("id", to_json (qcat_id c)); ("version", to_json (qcat_version c));
           ("contracts", to_json (qcat_contracts c)); ("profiles", to_json (qcat_profiles c))].

(** [QuestionCatalog.digest] *)
Definition catalog_digest (c : QuestionCatalog) : string :=
  content_fingerprint "rci.question-catalog.v1" (to_json c).

Definition default_scope : Scope := MkScope "default-scope" "binding-v1" [] None None false.

Definition default_context : InquiryContext :=
  MkInquiryContext (scope_binding_revision default_scope) ["rci.opaque-carrier.v1"]
    ["rci.consequence-relation.v1"] "local-inquiry-consequences-v1" "inquiry-local-v1"
    ["question.ask-v1"; "answer.bind-l0-v1"] ["manual-v1"; "finite-exhaustive-v1"] (scope_id default_scope)
    (scope_fingerprint default_scope) (scope_assumption_ids default_scope) None None
    (scope_finite_universe_hash default_scope) (scope_closed_world default_scope)
    (catalog_digest CATALOG_V0_4) "deterministic-scheduler-v1" "g1-warrant-v1" ["sdk-default-binding-v1"].

(** [_inquiry_manifest_artifact] *)
Definition inquiry_manifest_artifact (context : InquiryContext) : sdk ArtifactRef :=
  catalog ← lift (or_raise (first (λ c, catalog_digest c ==? ctx_catalog_manifest_digest context)
                              [CATALOG_V0_3; CATALOG_V0_4]) ValueError
                    "inquiry context names an unsupported question catalog digest");
  catalog_ref ← put_artifact (canonical_json (to_json catalog))
                  (Some "application/vnd.rci.question-catalog+json") (Some "utf-8");
  put_artifact (canonical_json
    (JObject [("schema_version", JInt 1); ("context", to_json context);
              ("question_catalog_digest", JString (catalog_digest catalog));
              ("question_catalog_artifact", to_json catalog_ref)]))
    (Some "application/vnd.rci.inquiry-manifest+json") (Some "utf-8").

(** The obligation every inquiry opens with. *)
Definition initial_obligation (inquiry_id : string) (context : InquiryContext) (scope : Scope) : Obligation :=
  MkObligation (stable_id "obl" [inquiry_id; "characterize"; scope_fingerprint scope; ctx_consequence_profile_id context])
    CHARACTERIZE (ctx_consequence_profile_id context)
    [MkBoundArgument "carrier" (JString (ctx_consequence_profile_id context))]
    scope (scope_binding_revision scope) [] [100%Z] OPEN.

(** [_start_with_manifest] *)
Definition start_with_manifest (inquiry_id : string) (context : InquiryContext) (manifest_ref : ArtifactRef) :
    sdk InquiryState :=
  lift (scope_from_context context);;
  now ← tick;
  scope ← lift (scope_from_context context);
  let o := initial_obligation inquiry_id context scope in
  lift (validate_obligation o);;
  run_batch inquiry_id
    [command now inquiry_id [inquiry_id; "start"; art_digest manifest_ref]
       (StartInquiry manifest_ref (ctx_warrant_policy_version context) context);
     command now inquiry_id [obl_id o; "opened"] (OpenObligation o)].

(** [start] *)
Definition start (inquiry_id : string) (context : option InquiryContext) : sdk InquiryState :=
  let context := default default_context context in
  manifest_ref ← inquiry_manifest_artifact context;
  start_with_manifest inquiry_id context manifest_ref.

(** [append_local_effects] *)
Definition append_local_effects (inquiry_id : string) (effects : list BacklogEffect) : sdk InquiryState :=
  state ← inspect inquiry_id;
  now ← tick;
  lift (raise_if (existsb (λ e, negb (mem (be_kind e) G1_APPLICABLE_EFFECT_KINDS)) effects)
          PermissionError "backlog effect is not applicable in G1");;
  if is_nil effects then mret state
  else run_batch inquiry_id
         (map (λ e, command now inquiry_id [be_id e; "recorded"] (RecordBacklogEffect e)) effects).
End Runtime.
