(* ===== verification/Sdk.v ===== *)
(** * The SDK's inquiry loop: [src/rci/sdk.py]

    Which question an obligation asks, the scheduler's view of the state, one step
    of the loop up to the request for a manual answer, and the submission of the
    answer: capture, decode, acceptance, claim and disposition in one batch. *)

From S2P Require Import Prelude Digest Dumps Memory Questions Project Model Claims Warrant Support Policy Planning Backlog Effects Probes Artifacts Goals Decide State Evolve Serialization Store Runtime.

(** ** Questions of obligations *)

Definition CONTRACT_BY_OBLIGATION_KIND (k : ObligationKind) : option string :=
  match k with
  | CHARACTERIZE => Some "obligation-characterization"
  | SAME_CLASS_VARIATION => Some "same-class-variation"
  | MINIMAL_BOUNDARY_CROSSING => Some "minimal-boundary-crossing"
  | PROPOSE_FACTOR => Some "factor-proposal"
  | NECESSITY_COUNTEREXAMPLE => Some "necessity-counterexample"
  | SUFFICIENCY_COUNTEREXAMPLE => Some "sufficiency-counterexample"
  | LOCALIZE_CONFLICT => Some "conflict-localization"
  | CHARACTERIZE_RESIDUAL => Some "residual-characterization"
  | _ => None
  end.

Definition GENERATED_CANDIDATE_ARGUMENT : string := "__rci_generated_question_candidate_id".
Definition GENERATED_DECISION_ARGUMENT : string := "__rci_generated_question_decision_id".
Definition GENERATED_COMPILATION_ARGUMENT : string := "__rci_generated_question_compilation_id".

(** [_text_argument] *)
Definition text_argument (o : Obligation) (name : string) : option string :=
  match first (λ a, arg_name a ==? name) (obl_args o) with
  | Some a => match arg_value a with JString s => Some s | _ => None end
  | None => None
  end.

#[export] Instance CompiledQuestionContract_eq_dec : EqDecision CompiledQuestionContract.
Proof. solve_decision. Defined.

(** The question the registry holds for the candidate. *)
Definition registered_question (s : InquiryState) (candidate_id : string) :
    result (option CompiledQuestionContract) :=
  registry ← generated_question_registry s;
  Ok (first (λ c, cqc_candidate_id c ==? candidate_id) registry).

(** [_compiled_question_for_obligation] *)
Definition compiled_question_for_obligation (s : InquiryState) (o : Obligation) :
    result (option CompiledQuestionContract) :=
  match text_argument o GENERATED_CANDIDATE_ARGUMENT, text_argument o GENERATED_DECISION_ARGUMENT,
        text_argument o GENERATED_COMPILATION_ARGUMENT with
  | None, None, None => Ok None
  | Some candidate_id, Some decision_id, Some compilation_id =>
    compiled ← compile_admitted_question s candidate_id;
    registered ← registered_question s candidate_id;
    raise_if ((registered !=? Some compiled) || (decision_id !=? cqc_decision_id compiled)
              || (compilation_id !=? cqc_id compiled) || (obl_carrier_id o !=? cqc_limitation_id compiled)
              || (obl_binding_revision o !=? cqc_binding_revision compiled)
              || (scope_fingerprint (obl_scope o) !=? cqc_scope_fingerprint compiled))
      GeneratedQuestionCompilationError "generated question obligation differs from its exact compilation";;
    Ok (Some compiled)
  | _, _, _ => raise GeneratedQuestionCompilationError
                 "generated question obligation has incomplete admission pins"
  end.

Definition has_generated_marker (o : Obligation) : bool :=
  existsb (λ name, is_some (text_argument o name))
    [GENERATED_CANDIDATE_ARGUMENT; GENERATED_DECISION_ARGUMENT; GENERATED_COMPILATION_ARGUMENT].

(** The contract of the obligation's kind, of the admitted profile. *)
Definition contract_of_kind (k : ObligationKind) : result (option QuestionContract) :=
  match CONTRACT_BY_OBLIGATION_KIND k with
  | None => Ok None
  | Some id =>
    contract ← get_contract id "1.0.0";
    raise_if (negb (mem (qc_key contract) (qp_contract_keys CORE_V1)))
      RuntimeError "only the admitted core-v1 profile may be scheduled";;
    Ok (Some contract)
  end.

(** [_contract_for_obligation] *)
Definition contract_for_obligation (s : InquiryState) (o : Obligation) : result (option QuestionContract) :=
  match compiled_question_for_obligation s o with
  | Ok (Some compiled) => Ok (Some (cqc_contract compiled))
  | Ok None => if has_generated_marker o then Ok None else contract_of_kind (obl_kind o)
  | Raise x => if exn_class x ==? GeneratedQuestionCompilationError then Ok None else Raise x
  end.

(** The value of a dictionary built from the arguments: the last of the name. *)
Definition argument_value (o : Obligation) (name : string) : option json :=
  arg_value <$> last (List.filter (λ a, arg_name a ==? name) (obl_args o)).

(** [_bindings_for_contract] *)
Fixpoint bindings_for_roles (o : Obligation) (roles : list string) : result (gmap string string) :=
  match roles with
  | [] => Ok ∅
  | role :: roles =>
    match argument_value o role with
    | Some (JString value) => rest ← bindings_for_roles o roles; Ok (<[role := value]> rest)
    | _ => raise RuntimeError "question obligation lacks a typed text binding"
    end
  end.
Definition bindings_for_contract (o : Obligation) (c : QuestionContract) : result (gmap string string) :=
  bindings_for_roles o (qc_input_roles c).

(** ** Question envelopes *)

Record QuestionEnvelope : Type := MkQuestionEnvelope {
  env_obligation_id : string;
  env_obligation_fingerprint : string;
  env_contract_id : string;
  env_contract_version : string;
  env_catalog_manifest_digest : string;
  env_contract_artifact : ArtifactRef;
  env_rendered_question : string;
  env_generated_compilation_id : option string;
  env_generated_candidate_id : option string;
  env_generated_decision_id : option string;
  env_generated_profile_id : option string;
  env_generated_comparison_policy_id : option string;
}.

(** [validate_generated_pins] *)
Definition generated_pins (e : QuestionEnvelope) : list (option string) :=
  [env_generated_compilation_id e; env_generated_candidate_id e; env_generated_decision_id e;
   env_generated_profile_id e; env_generated_comparison_policy_id e].
Definition validate_generated_pins (e : QuestionEnvelope) : result unit :=
  raise_if (existsb is_some (generated_pins e) && existsb is_none (generated_pins e))
    ValidationError "generated question envelope pins must be present together".

#[export] Instance QuestionEnvelope_to_json : ToJson QuestionEnvelope := λ e,
  JObject [("schema_version", JInt 1); ("obligation_id", to_json (env_obligation_id e));
           ("obligation_fingerprint", to_json (env_obligation_fingerprint e));
           ("contract_id", to_json (env_contract_id e)); ("contract_version", to_json (env_contract_version e));
           ("catalog_manifest_digest", to_json (env_catalog_manifest_digest e));
           ("contract_artifact", to_json (env_contract_artifact e));
           ("rendered_question", to_json (env_rendered_question e));
           ("generated_compilation_id", to_json (env_generated_compilation_id e));
           ("generated_candidate_id", to_json (env_generated_candidate_id e));
           ("generated_decision_id", to_json (env_generated_decision_id e));
           ("generated_profile_id", to_json (env_generated_profile_id e));
           ("generated_comparison_policy_id", to_json (env_generated_comparison_policy_id e))].

(** The pydantic calls of the loop: strict parses of the stored texts, and
    [model_dump_json] of a claim and of a captured payload. *)
Record SdkModels : Type := {
  md_parse_envelope : string → result QuestionEnvelope;
  md_parse_contract : string → result QuestionContract;
  md_parse_claim : string → result Claim;
  md_claim_text : Claim → string;
  md_payload_text : CapturedPayload → string;
}.

Definition MANUAL_ANSWER : string := "semantic.manual_answer".

(** The answer a user submits. *)
Inductive Answer : Type :=
| TextAnswer (text : string)
| BytesAnswer (data : string)
| NullAnswer.

Definition DEFAULT_STEP_BUDGET : Z := 100.
Definition DEFAULT_ATTEMPTS_PER_KEY : Z := 3.

(** A manual request whose attempt was started and has no outcome. *)
Definition awaits_answer (r : EffectRequestState) : bool :=
  (req_effect_kind (ers_request r) ==? MANUAL_ANSWER) && is_none (ers_accepted_decoded_outcome_id r)
  && existsb (λ a, att_started a && is_none (att_outcome a)) (ers_attempts r).
Definition pending_manual (s : InquiryState) : option EffectRequestState :=
  first awaits_answer (effect_requests s).

(** A manual request with a return that no accepted decode resolved. *)
Definition unresolved_return (s : InquiryState) : bool :=
  existsb (λ r, (req_effect_kind (ers_request r) ==? MANUAL_ANSWER)
                && is_none (ers_accepted_decoded_outcome_id r)
                && existsb (λ a, is_some (attempt_return a)) (ers_attempts r)) (effect_requests s).

Inductive StepStatus : Type := NEEDS_INPUT | STEP_SATISFIED | STEP_ACTIVE | STEP_UNKNOWN.
#[export] Instance StepStatus_eq_dec : EqDecision StepStatus.
Proof. solve_decision. Defined.

Record StepResult : Type := MkStepResult {
  sr_inquiry_id : string;
  sr_status : StepStatus;
  sr_sequence : Z;
  sr_request_id : option string;
  sr_prompt : option string;
}.

(** ** The scheduler's view *)

(** One entry per obligation that asks a question; [creation_sequence] counts from 1. *)
Fixpoint scheduler_entries_from (s : InquiryState) (n : Z) (l : list Obligation) : result (list ObligationEntry) :=
  match l with
  | [] => Ok []
  | o :: l =>
    contract ← contract_for_obligation s o;
    match contract with
    | None => scheduler_entries_from s (n + 1) l
    | Some c =>
      status ← or_raise (current_obligation_status s (obl_id o)) RuntimeError
                 "scheduler encountered an unowned obligation";
      let current := MkObligation (obl_id o) (obl_kind o) (obl_carrier_id o) (obl_args o) (obl_scope o)
                       (obl_binding_revision o) (obl_parent_obligation_ids o) (obl_priority_vector o) status in
      let key := MkAttemptKey (obligation_fingerprint o) (qc_id c) (qc_version c) (obl_binding_revision o) in
      let entry := MkObligationEntry current key n (Z.of_nat (length (obl_parent_obligation_ids o))) in
      validate_key key;; validate_order_fields entry;;
      rest ← scheduler_entries_from s (n + 1) l;
      Ok (entry :: rest)
    end
  end.
(** [_scheduler_entries] *)
Definition scheduler_entries (s : InquiryState) : result (list ObligationEntry) :=
  scheduler_entries_from s 1 (obligations s).

(** [counts[key] += n] *)
Fixpoint add_count (key : AttemptKey) (n : Z) (counts : list (AttemptKey * Z)) : list (AttemptKey * Z) :=
  match counts with
  | [] => [(key, n)]
  | (k, m) :: counts => if k ==? key then (k, (m + n)%Z) :: counts else (k, m) :: add_count key n counts
  end.

Definition satisfied_ids (s : InquiryState) : list string :=
  map obl_id (List.filter (λ o, current_obligation_status s (obl_id o) ==? Some SATISFIED) (obligations s)).

Section Sdk.
Context (py : Pydantic) (md : SdkModels) (clock : nat → Z).

(** [_question_envelope_for_request] *)
Definition question_envelope_for_request (st : ArtifactStore) (r : EffectRequest) : result QuestionEnvelope :=
  data ← get_bytes st (req_input_artifact r);
  envelope ← md_parse_envelope md data;
  text ← get_bytes st (env_contract_artifact envelope);
  contract ← md_parse_contract md text;
  raise_if ((qc_id contract !=? env_contract_id envelope) || (qc_version contract !=? env_contract_version envelope))
    RuntimeError "question envelope contract artifact does not match its identity";;
  Ok envelope.

(** [_matches_last_accepted_answer] *)
Definition matches_last_accepted_answer (st : ArtifactStore) (s : InquiryState) (answer : Answer) : result bool :=
  match first (λ r, (req_effect_kind (ers_request r) ==? MANUAL_ANSWER) && is_some (accepted_result r))
          (reverse (effect_requests s)) with
  | None => Ok false
  | Some r =>
    match accepted_result r with
    | None => Ok false
    | Some accepted =>
      text ← get_bytes st (semantic_artifact (result_base accepted));
      claim ← md_parse_claim md text;
      Ok match answer, claim_payload claim with
         | NullAnswer, PayloadJson JNull => true
         | TextAnswer text, PayloadJson j => json_eqb j (JString text)
         | BytesAnswer data, PayloadArtifact a =>
           (art_digest a ==? Sha256.hexdigest data) && (art_size a =? Z.of_nat (String.length data))%Z
         | _, _ => false
         end
    end
  end.

(** [_attempt_counts] *)
Fixpoint attempt_counts_from (st : ArtifactStore) (s : InquiryState) (l : list EffectRequestState)
    (counts : list (AttemptKey * Z)) : result (list (AttemptKey * Z)) :=
  match l with
  | [] => Ok counts
  | r :: l =>
    if req_effect_kind (ers_request r) ==? MANUAL_ANSWER then
      envelope ← question_envelope_for_request st (ers_request r);
      match st_context s with
      | None => raise RuntimeError "question request catalog differs from the inquiry context"
      | Some ctx =>
        raise_if (env_catalog_manifest_digest envelope !=? ctx_catalog_manifest_digest ctx)
          RuntimeError "question request catalog differs from the inquiry context";;
        let key := MkAttemptKey (env_obligation_fingerprint envelope) (env_contract_id envelope)
                     (env_contract_version envelope) (ctx_binding_revision ctx) in
        validate_key key;;
        attempt_counts_from st s l (add_count key (Z.of_nat (length (ers_attempts r))) counts)
      end
    else attempt_counts_from st s l counts
  end.
Definition attempt_counts (st : ArtifactStore) (s : InquiryState) : result (list (AttemptKey * Z)) :=
  attempt_counts_from st s (effect_requests s) [].

(** [_schedule]: every reducer transition counts against the budget, and a ready
    manual step costs the four events it records. *)
Definition schedule (st : ArtifactStore) (s : InquiryState) : result StepPlan :=
  entries ← scheduler_entries s;
  ctx ← or_raise (st_context s) RuntimeError "active inquiry is missing its pinned context";
  counts ← attempt_counts st s;
  plan_next entries (MkSchedulerInput (satisfied_ids s) counts (st_sequence s) DEFAULT_STEP_BUDGET 4
                       DEFAULT_ATTEMPTS_PER_KEY (ctx_scheduler_policy_version ctx)).

(** ** One step *)

(** The envelope of a question put to the user. *)
Definition envelope_of (o : Obligation) (c : QuestionContract) (catalog : string) (contract_ref : ArtifactRef)
    (rendered : string) (compiled : option CompiledQuestionContract) : QuestionEnvelope :=
  MkQuestionEnvelope (obl_id o) (obligation_fingerprint o) (qc_id c) (qc_version c) catalog contract_ref rendered
    (cqc_id <$> compiled) (cqc_candidate_id <$> compiled) (cqc_decision_id <$> compiled)
    ((λ _, GENERATED_QUESTION_PROFILE_ID) <$> compiled) (cqc_comparison_policy_id <$> compiled).

(** [_manual_request] *)
Definition manual_request (inquiry_id : string) (s : InquiryState) (plan : StepPlan) (o : Obligation)
    (contract : QuestionContract) : sdk (EffectRequest * EffectAttemptPlan * string) :=
  bindings ← lift (bindings_for_contract o contract);
  rendered ← lift (render_question contract bindings);
  contract_ref ← put_artifact (canonical_json (to_json contract))
                   (Some "application/vnd.rci.question-contract+json") (Some "utf-8");
  ctx ← lift (or_raise (st_context s) RuntimeError "manual request requires a started inquiry context");
  compiled ← lift (compiled_question_for_obligation s o);
  let envelope := envelope_of o contract (ctx_catalog_manifest_digest ctx) contract_ref rendered compiled in
  lift (validate_generated_pins envelope);;
  input_ref ← put_artifact (canonical_json (to_json envelope))
                (Some "application/vnd.rci.question-invocation+json") (Some "utf-8");
  route_definition ← put_artifact (canonical_json (JObject [("adapter", JString "manual"); ("version", JString "1.0.0")]))
                       (Some "application/json") (Some "utf-8");
  let request := MkEffectRequest (stable_id "req" [inquiry_id; plan_id plan]) (plan_id plan) MANUAL_ANSWER "manual"
                   input_ref 60 in
  environment_ref ← put_artifact
    (canonical_json (JObject [("adapter", JString "manual"); ("execution", JString "in-process");
                              ("runtime", JString "rci"); ("secrets_present", JBool false);
                              ("version", JString "1.0.0")]))
    (Some "application/vnd.rci.execution-environment+json") (Some "utf-8");
  let route := MkRouteSnapshot (stable_id "route" [req_id request; "manual"]) "manual-route" "1.0.0"
                 route_definition "human" "manual" "1.0.0" (Some "local-cli") (Some "in-process") environment_ref
                 (Sha256.hexdigest (canonical_json (to_json request))) [] in
  mret (request, MkEffectAttemptPlan (stable_id "attempt" [req_id request; "1"]) (req_id request) route, rendered).

(** The batch of a ready step. *)
Definition step_commands (now : Z) (inquiry_id : string) (plan : StepPlan) (request : EffectRequest)
    (attempt : EffectAttemptPlan) : list DomainCommand :=
  [command now inquiry_id [plan_id plan; "recorded"] (RecordStepPlan plan);
   command now inquiry_id [req_id request; "requested"] (RequestEffect request);
   command now inquiry_id [ap_id attempt; "planned"] (PlanEffectAttempt attempt);
   command now inquiry_id [ap_id attempt; "started"] (StartEffectAttempt (ap_id attempt))].

(** An open obligation that asks no question. *)
Fixpoint unsupported_open (s : InquiryState) (l : list Obligation) : result bool :=
  match l with
  | [] => Ok false
  | o :: l =>
    if current_obligation_status s (obl_id o) ==? Some OPEN then
      contract ← contract_for_obligation s o;
      if is_none contract then Ok true else unsupported_open s l
    else unsupported_open s l
  end.

Definition ready_step (inquiry_id : string) (s : InquiryState) (plan : StepPlan) : sdk StepResult :=
  id ← lift (or_raise (plan_selected_obligation_id plan) RuntimeError
               "ready step plan omitted its selected obligation");
  o ← lift (or_raise (obligation_by_id s id) RuntimeError "step plan selected an unknown obligation");
  found ← lift (contract_for_obligation s o);
  contract ← lift (or_raise found RuntimeError "step plan selected an inactive contract");
  made ← manual_request inquiry_id s plan o contract;
  now ← tick clock;
  let '(request, attempt, rendered) := (made : EffectRequest * EffectAttemptPlan * string) in
  s' ← run_batch py inquiry_id (step_commands now inquiry_id plan request attempt);
  mret (MkStepResult inquiry_id NEEDS_INPUT (st_sequence s') (Some (req_id request)) (Some rendered)).

(** [step] *)
Definition step (inquiry_id : string) : sdk StepResult :=
  s ← inspect py inquiry_id;
  match pending_manual s with
  | Some r =>
    envelope ← reading (λ st, question_envelope_for_request st (ers_request r));
    mret (MkStepResult inquiry_id NEEDS_INPUT (st_sequence s) (Some (ers_id r))
            (Some (env_rendered_question envelope)))
  | None =>
    if unresolved_return s then mret (MkStepResult inquiry_id STEP_ACTIVE (st_sequence s) None None)
    else
      plan ← reading (λ st, schedule st s);
      match plan_status plan with
      | PLAN_SATISFIED =>
        unsupported ← lift (unsupported_open s (obligations s));
        mret (MkStepResult inquiry_id (if (unsupported : bool) then STEP_UNKNOWN else STEP_SATISFIED) (st_sequence s)
                None None)
      | PLAN_UNKNOWN => mret (MkStepResult inquiry_id STEP_UNKNOWN (st_sequence s) None None)
      | READY => ready_step inquiry_id s plan
      end
  end.

(** [run]: the loop stops on any status but active, and on a sequence that does not grow. *)
Fixpoint run_steps (n : nat) (inquiry_id : string) (previous_sequence : Z) : sdk StepResult :=
  match n with
  | O =>
    s ← inspect py inquiry_id;
    mret (MkStepResult inquiry_id STEP_UNKNOWN (st_sequence s) None None)
  | S n =>
    r ← step inquiry_id;
    if (sr_status r !=? STEP_ACTIVE) || (sr_sequence r <=? previous_sequence)%Z then mret r
    else run_steps n inquiry_id (sr_sequence r)
  end.
Definition run (inquiry_id : string) (max_steps : Z) : sdk StepResult :=
  lift (raise_if ((max_steps <? 1) || (100 <? max_steps))%Z ValueError
          "max_steps must be between 1 and the constitutional limit of 100");;
  run_steps (Z.to_nat max_steps) inquiry_id (-1).

(** ** Opening a generated question *)

(** The obligation of an admitted question: its referent and its three pins. *)
Definition generated_obligation (inquiry_id : string) (context : InquiryContext) (scope : Scope)
    (compiled : CompiledQuestionContract) : Obligation :=
  MkObligation
    (stable_id "obl" [inquiry_id; cqc_id compiled;
                      canonical_json (JObject [("limitation", JString (cqc_limitation_id compiled))])])
    SEPARATE_CONSEQUENCE_CLASSES (cqc_limitation_id compiled)
    (map (λ nv : string * string, MkBoundArgument nv.1 (JString nv.2))
       (sort_by fst [("limitation", cqc_limitation_id compiled);
                     (GENERATED_CANDIDATE_ARGUMENT, cqc_candidate_id compiled);
                     (GENERATED_DECISION_ARGUMENT, cqc_decision_id compiled);
                     (GENERATED_COMPILATION_ARGUMENT, cqc_id compiled)]))
    scope (ctx_binding_revision context) [] [200%Z] OPEN.

(** [open_generated_question] *)
Definition open_generated_question (inquiry_id candidate_id : string) (bindings : gmap string string) :
    sdk InquiryState :=
  s ← inspect py inquiry_id;
  compiled ← lift (compile_admitted_question s candidate_id);
  registered ← lift (registered_question s candidate_id);
  lift (raise_if (registered !=? Some compiled) GeneratedQuestionCompilationError
          "generated question is not unique in the active confined registry");;
  lift (render_question (cqc_contract compiled) bindings);;
  lift (raise_if (negb (bool_decide (bindings = {[ "limitation" := cqc_limitation_id compiled ]})))
          GeneratedQuestionCompilationError "generated question bindings must name the exact owned limitation");;
  context ← lift (or_raise (st_context s) RuntimeError "generated question requires a started inquiry");
  lift (raise_if ((cqc_binding_revision compiled !=? ctx_binding_revision context)
                  || (cqc_scope_fingerprint compiled !=? ctx_scope_fingerprint context))
          GeneratedQuestionCompilationError "generated question compilation is stale for the inquiry context");;
  scope ← lift (scope_from_context context);
  let o := generated_obligation inquiry_id context scope compiled in
  lift (validate_obligation o);;
  record py clock inquiry_id [inquiry_id; obl_id o; "generated-open"] (OpenObligation o).

(** ** Submitting an answer *)

Definition PROJECT_DOWNSTREAM_OBLIGATION_KIND (k : LimitationKind) : ObligationKind :=
  match k with
  | LIMIT_THEORY => CHARACTERIZE
  | LIMIT_QUESTION => CHARACTERIZE_RESIDUAL
  | LIMIT_PROBE => SAME_CLASS_VARIATION
  | LIMIT_REPRESENTATION => MINIMAL_BOUNDARY_CROSSING
  | LIMIT_METHOD => CHARACTERIZE_RESIDUAL
  | LIMIT_EVIDENCE => LOCALIZE_CONFLICT
  | LIMIT_IMPLEMENTATION => PROPOSE_FACTOR
  | LIMIT_AUTHORITY => CHARACTERIZE_RESIDUAL
  end.

(** The declared return the answer is, if it is one. *)
Definition matched_return (compiled : CompiledQuestionContract) (answer : Answer) : option ConsequentialReturn :=
  match answer with
  | TextAnswer text => first (λ r, text ==? cret_return_class_id r) (cqc_possible_returns compiled)
  | _ => None
  end.

Definition downstream_obligation (source : Obligation) (compiled : CompiledQuestionContract)
    (matched : option ConsequentialReturn) (source_claim_id : string) : Obligation :=
  let return_class_id := from_option cret_return_class_id "unclassified" matched in
  let downstream_state_id :=
    from_option cret_downstream_state_id ("unclassified-return:" +:+ cqc_candidate_id compiled) matched in
  let kind := from_option (λ r, PROJECT_DOWNSTREAM_OBLIGATION_KIND (cret_downstream_obligation_kind r))
                CHARACTERIZE_RESIDUAL matched in
  let limitation_kind :=
    from_option (λ r, LimitationKind_value (cret_downstream_obligation_kind r)) "unknown" matched in
  MkObligation (stable_id "obl" [obl_id source; cqc_id compiled; return_class_id; downstream_state_id])
    kind downstream_state_id
    [MkBoundArgument "carrier" (JString downstream_state_id);
     MkBoundArgument "downstream_limitation_kind" (JString limitation_kind);
     MkBoundArgument "generated_return_class_id" (JString return_class_id);
     MkBoundArgument "source_claim_id" (JString source_claim_id);
     MkBoundArgument "source_question_candidate_id" (JString (cqc_candidate_id compiled))]
    (obl_scope source) (obl_binding_revision source) [obl_id source] [150%Z] OPEN.

(** [_generated_downstream_obligation] *)
Definition generated_downstream_obligation (s : InquiryState) (source : Obligation) (envelope : QuestionEnvelope)
    (answer : Answer) (source_claim_id : string) : result (option Obligation) :=
  match env_generated_candidate_id envelope with
  | None => Ok None
  | Some candidate_id =>
    compiled ← compile_admitted_question s candidate_id;
    raise_if ((env_generated_compilation_id envelope !=? Some (cqc_id compiled))
              || (env_generated_decision_id envelope !=? Some (cqc_decision_id compiled))
              || (env_generated_profile_id envelope !=? Some GENERATED_QUESTION_PROFILE_ID)
              || (env_generated_comparison_policy_id envelope !=? Some (cqc_comparison_policy_id compiled)))
      GeneratedQuestionCompilationError "generated question return differs from its persisted compilation";;
    let o := downstream_obligation source compiled (matched_return compiled answer) source_claim_id in
    validate_obligation o;; Ok (Some o)
  end.

(** The bytes of the answer, captured exactly. *)
Definition capture_answer (answer : Answer) : sdk (option ArtifactRef) :=
  match answer with
  | NullAnswer => mret None
  | TextAnswer text => a ← put_artifact text (Some "text/plain") (Some "utf-8"); mret (Some a)
  | BytesAnswer data =>
    a ← put_artifact data (Some "application/octet-stream") (Some "binary"); mret (Some a)
  end.

Definition capture_encoding (answer : Answer) : string :=
  match answer with NullAnswer => "native-null" | TextAnswer _ => "utf-8" | BytesAnswer _ => "binary" end.

(** [inert_answer]: bytes stay behind their artifact. *)
Definition inert_answer (answer : Answer) (raw_ref : option ArtifactRef) : InertPayload :=
  match answer, raw_ref with
  | BytesAnswer _, Some a => PayloadArtifact a
  | TextAnswer text, _ => PayloadJson (JString text)
  | _, _ => PayloadJson JNull
  end.

Definition captured_payload (raw_ref : option ArtifactRef) : CapturedPayload :=
  match raw_ref with
  | None => MkCapturedPayload NullPayload None
  | Some a => MkCapturedPayload BytesPayload (Some a)
  end.

Definition manual_return (request_id attempt_id route_id encoding : string) (now : Z) (captured : CapturedPayload) :
    ExternalReturn :=
  MkExternalReturn (stable_id "return" [request_id; md_payload_text md captured]) attempt_id route_id
    (Some "manual-user") None "manual-answer-submission" encoding now captured.

Definition binding_decode (external_return_id : string) (semantic_ref : ArtifactRef) : DecodeOutcome :=
  Decoded (MkDecodeBase (stable_id "decode" [external_return_id; art_digest semantic_ref]) external_return_id
             "l0-claim-binder" "1.0.0")
    (SuccessResult (MkResultBase (stable_id "result" [art_digest semantic_ref]) semantic_ref) "l0_claim").

Definition answered_disposition (obligation_id decoded_id : string) : ObligationDisposition :=
  MkObligationDisposition (stable_id "disp" [obligation_id; decoded_id; "satisfied"]) obligation_id SATISFIED
    "accepted answer bound as a provisional L0 claim" [decoded_id] None.

(** The one batch of a submission. *)
Definition submission_commands (now : Z) (inquiry_id request_id : string) (external_return : ExternalReturn)
    (decoded : DecodeOutcome) (claim : Claim) (o : Obligation) (downstream : option Obligation) :
    list DomainCommand :=
  [command now inquiry_id [ret_id external_return; "captured"]
     (RecordAttemptOutcome request_id
        (ReturnedOutcome (ret_attempt_id external_return) (ret_route_id external_return) external_return));
   command now inquiry_id [dec_id decoded; "decoded"] (RecordDecodeOutcome request_id decoded);
   command now inquiry_id [dec_id decoded; "accepted"] (AcceptEffectResult request_id (dec_id decoded));
   command now inquiry_id [claim_id claim; "admitted"] (AdmitClaim claim);
   command now inquiry_id [obl_id o; dec_id decoded; "satisfied"]
     (RecordObligationDisposition (answered_disposition (obl_id o) (dec_id decoded)))]
  ++ from_option (λ d, [command now inquiry_id [obl_id d; "generated-downstream"] (OpenObligation d)]) []
       downstream.

(** The pending request an answer attaches to: the one of the state, or the one the
    next step makes; [inl] is an answer that repeats the last accepted one. *)
Definition pending_for (inquiry_id : string) (answer : Answer) :
    sdk (InquiryState + InquiryState * EffectRequestState) :=
  s ← inspect py inquiry_id;
  match pending_manual s with
  | Some r => mret (inr (s, r))
  | None =>
    stepped ← step inquiry_id;
    s ← inspect py inquiry_id;
    if sr_status stepped !=? NEEDS_INPUT then
      repeated ← reading (λ st, matches_last_accepted_answer st s answer);
      lift (raise_if (negb repeated) AnswerSubmissionError "inquiry has no pending manual answer request");;
      mret (inl s)
    else
      r ← lift (or_raise (pending_manual s) AnswerSubmissionError "step reported input without a pending request");
      mret (inr (s, r))
  end.

(** The obligation a persisted request asks about, and its recorded contract. *)
Definition asked_obligation (s : InquiryState) (context : InquiryContext) (envelope : QuestionEnvelope) :
    result Obligation :=
  raise_if (env_catalog_manifest_digest envelope !=? ctx_catalog_manifest_digest context)
    RuntimeError "manual request catalog differs from the inquiry context";;
  o ← or_raise (obligation_by_id s (env_obligation_id envelope)) RuntimeError
        "manual request does not reference its exact obligation";
  raise_if (obligation_fingerprint o !=? env_obligation_fingerprint envelope)
    RuntimeError "manual request does not reference its exact obligation";;
  Ok o.

Definition active_contract (st : ArtifactStore) (s : InquiryState) (o : Obligation) (envelope : QuestionEnvelope) :
    result QuestionContract :=
  text ← get_bytes st (env_contract_artifact envelope);
  recorded ← md_parse_contract md text;
  found ← contract_for_obligation s o;
  contract ← or_raise found RuntimeError "persisted question contract is not active for its obligation";
  raise_if (contract !=? recorded) RuntimeError "persisted question contract is not active for its obligation";;
  Ok contract.

Definition submit_to (inquiry_id : string) (s : InquiryState) (pending : EffectRequestState) (answer : Answer) :
    sdk InquiryState :=
  attempt ← lift (or_raise (head (ers_attempts pending)) RuntimeError "manual request has no persisted attempt plan");
  now ← tick clock;
  raw_ref ← capture_answer answer;
  let external_return := manual_return (ers_id pending) (att_id attempt) (rs_id (ap_route (att_plan attempt)))
                           (capture_encoding answer) now (captured_payload raw_ref) in
  context ← lift (or_raise (st_context s) RuntimeError "active inquiry is missing its pinned context");
  envelope ← reading (λ st, question_envelope_for_request st (ers_request pending));
  o ← lift (asked_obligation s context envelope);
  contract ← reading (λ st, active_contract st s o envelope);
  scope ← lift (scope_from_context context);
  claim ← lift (bind_answer contract (inert_answer answer raw_ref) (obl_args o) scope
                  (MkProvenance "manual_answer" (ret_id external_return) None));
  semantic_ref ← put_artifact (md_claim_text md claim) (Some "application/vnd.rci.claim+json") (Some "utf-8");
  let decoded := binding_decode (ret_id external_return) semantic_ref in
  downstream ← lift (generated_downstream_obligation s o envelope answer (claim_id claim));
  lift (validate_disposition (answered_disposition (obl_id o) (dec_id decoded)));;
  run_batch py inquiry_id
    (submission_commands now inquiry_id (ers_id pending) external_return decoded claim o downstream).

(** [submit_answer] *)
Definition submit_answer (inquiry_id : string) (answer : Answer) : sdk InquiryState :=
  found ← pending_for inquiry_id answer;
  match (found : InquiryState + InquiryState * EffectRequestState) with
  | inl s => mret s
  | inr (s, pending) => submit_to inquiry_id s pending answer
  end.
End Sdk.
