(* ===== verification/Saga.v ===== *)
(** * The SDK's extension ledgers: [src/rci/sdk.py]

    The calls of [RCI] that record consolidation, retrieval, reacquisition,
    compression and project facts.  Most dispatch one command whose event identity
    is derived from the inquiry and the record; the others read the inquiry first:
    the consolidation checkpoint, the semantic field, retrieval, and the saga that
    requests, starts and links a child inquiry. *)

From S2P Require Import Prelude Digest Dumps Memory Recovery Retrieval Learning Compression Questions Project Model Claims Warrant Support Policy Planning Backlog Effects Probes Artifacts Goals Retention Consolidation Licensing Governance Decide State Evolve Serialization Store Runtime Sdk.

Section Saga.
Context (py : Pydantic) (clock : nat → Z).

Definition started_context (s : InquiryState) (msg : string) : sdk InquiryContext :=
  lift (or_raise (st_context s) RuntimeError msg).

(** ** Consolidation and learning *)

Definition consolidation_checkpoint (inquiry_id checkpoint_id : string) : sdk ConsolidationCheckpoint :=
  s ← inspect py inquiry_id;
  context ← started_context s "consolidation requires a started inquiry";
  checkpoint ← lift (select_consolidation_checkpoint checkpoint_id (st_sequence s)
                       (ctx_scope_fingerprint context) (ctx_binding_revision context)
                       (ctx_protected_horizon_id context) (probe_observations s) (claims s) (conflicts s)
                       (mismatches s) (effect_requests s));
  record py clock inquiry_id [inquiry_id; ccp_id checkpoint; "consolidated"]
    (Extend (LearningStep (RecordConsolidationCheckpoint checkpoint)));;
  mret checkpoint.

(** [propose_consolidation]: the claim, its attacks and the candidate in one batch *)
Definition proposal_commands (now : Z) (inquiry_id : string) (claim : Claim)
    (challenge_obligations : list Obligation) (candidate : ConsolidationCandidate) : list DomainCommand :=
  command now inquiry_id [inquiry_id; claim_id claim; "consolidation-claim"] (AdmitClaim claim)
  :: map (λ o, command now inquiry_id [inquiry_id; obl_id o; "consolidation-attack"] (OpenObligation o))
       challenge_obligations
  ++ [command now inquiry_id [inquiry_id; ccd_id candidate; "candidate"]
        (Extend (LearningStep (RecordConsolidationCandidate candidate)))].

Definition propose_consolidation (inquiry_id : string) (claim : Claim) (challenge_obligations : list Obligation)
    (candidate : ConsolidationCandidate) : sdk InquiryState :=
  now ← tick clock;
  dispatch_batch py inquiry_id (proposal_commands now inquiry_id claim challenge_obligations candidate).

(** [evaluate_semantic_field] *)
Definition evaluate_semantic_field (inquiry_id evaluation_id fingerprint : string)
    (safety exception dependency retrieval : list string) : sdk SemanticFieldEvaluation :=
  s ← inspect py inquiry_id;
  probe ← lift (or_raise (first (λ p, probe_fingerprint p ==? fingerprint) (admitted_probes s)) ValueError
                  "semantic-field evaluation requires an admitted probe");
  derived ← lift (derive_conservative_field probe (st_sequence s) safety exception dependency retrieval);
  let '(field, required, overflow, source_index) :=
    (derived : SemanticField * list string * list string * string) in
  evaluation ← lift (evaluate_conservative_field evaluation_id field (st_sequence s) source_index fingerprint
                       required overflow);
  context ← started_context s "semantic-field evaluation requires inquiry context";
  scope ← lift (scope_from_context context);
  overflow_residual ← lift (semantic_field_overflow_residual evaluation scope);
  record py clock inquiry_id [inquiry_id; sfe_id evaluation; "field-evaluated"]
    (Extend (LearningStep (RecordSemanticFieldEvaluation evaluation overflow_residual)));;
  mret evaluation.

Definition record_consolidation_candidate (inquiry_id : string) (candidate : ConsolidationCandidate) : sdk InquiryState :=
  record py clock inquiry_id [inquiry_id; ccd_id candidate; "candidate"]
    (Extend (LearningStep (RecordConsolidationCandidate candidate))).

Definition record_memory_patch (inquiry_id : string) (candidate : MemoryPatchCandidate) : sdk InquiryState :=
  record py clock inquiry_id [inquiry_id; mpc_id candidate; "memory-patch"]
    (Extend (LearningStep (RecordMemoryPatchCandidate candidate))).

Definition record_reconsolidation_link (inquiry_id : string) (link : ReconsolidationLink) : sdk InquiryState :=
  record py clock inquiry_id [inquiry_id; rlink_id link; "reconsolidated"]
    (Extend (LearningStep (RecordReconsolidationLink link))).

Definition record_representation_gap (inquiry_id : string) (gap : RepresentationGap) : sdk InquiryState :=
  record py clock inquiry_id [inquiry_id; gap_id gap; "gap"]
    (Extend (LearningStep (RecordRepresentationGap gap))).

Definition record_learned_probe_candidate (inquiry_id : string) (candidate : LearnedProbeCandidate) : sdk InquiryState :=
  record py clock inquiry_id [inquiry_id; lpc_id candidate; "probe-candidate"]
    (Extend (LearningStep (RecordLearnedProbeCandidate candidate))).

Definition record_probe_evaluation (inquiry_id : string) (evaluation : ProbeEvaluation) : sdk InquiryState :=
  record py clock inquiry_id [inquiry_id; pev_id evaluation; "probe-evaluated"]
    (Extend (LearningStep (RecordProbeEvaluation evaluation))).

Definition record_probe_admission (inquiry_id : string) (decision : ProbeAdmissionDecision) : sdk InquiryState :=
  record py clock inquiry_id [inquiry_id; pad_id decision; "probe-admission"]
    (Extend (LearningStep (RecordProbeAdmissionDecision decision))).

(** ** Retention and retrieval *)

Definition register_retention_package (inquiry_id : string) (registration : RetentionRegistration) :
    sdk InquiryState :=
  record py clock inquiry_id
    [inquiry_id; pkg_id (reg_package registration); package_fingerprint (reg_package registration); "registered"]
    (Extend (RetentionStep (RegisterRetentionPackage registration))).

(** The selectors of a query, as the caller names them. *)
Record QuerySelectors : Type := MkQuerySelectors {
  sel_owners : list MemoryOwner;
  sel_record_types : list OwnedRecordType;
  sel_reference_selectors : list OwnedMemoryRef;
  sel_cue_ids : list string;
  sel_tag_ids : list string;
  sel_limit : Z;
}.

(** The query over the current committed prefix. *)
Definition current_query (s : InquiryState) (context : InquiryContext) (query_id : string)
    (selectors : QuerySelectors) : result RetrievalQuery :=
  fingerprints ← owned_memory_fingerprints s;
  index ← structural_index_fingerprint (retention_packages s) fingerprints;
  let q := MkRetrievalQuery query_id (srp_id STRUCTURAL_EXACT_V1) (srp_version STRUCTURAL_EXACT_V1)
             (ctx_scope_fingerprint context) (ctx_binding_revision context) (ctx_protected_horizon_id context)
             (st_sequence s) index (sel_owners selectors) (sel_record_types selectors)
             (sel_reference_selectors selectors) (sorted_set (sel_cue_ids selectors))
             (sorted_set (sel_tag_ids selectors)) (sel_limit selectors) in
  validate_query q;; Ok q.

(** [RCI.retrieve] *)
Definition retrieve (inquiry_id query_id result_id : string) (selectors : QuerySelectors) : sdk RetrievalResult :=
  s ← inspect py inquiry_id;
  context ← started_context s "retrieval requires a started inquiry context";
  query ← lift (current_query s context query_id selectors);
  updated ← record py clock inquiry_id [inquiry_id; qry_id query; result_id; "retrieved"]
              (Extend (RetentionStep (RunRetrieval result_id query)));
  lift (or_raise (first (λ r, rres_id r ==? result_id) (retrieval_results updated)) StopIteration "").

(** ** The reacquisition saga *)

#[export] Instance ReacquisitionChildManifest_to_json : ToJson ReacquisitionChildManifest := λ m,
  JObject [("schema_version", JInt 1); ("parent_inquiry_id", to_json (rcm_parent_inquiry_id m));
           ("request_id", to_json (rcm_request_id m)); ("child_inquiry_id", to_json (rcm_child_inquiry_id m));
           ("pins", to_json (rcm_pins m)); ("context_digest", to_json (rcm_context_digest m));
           ("policy_version", to_json (rcm_policy_version m));
           ("inquiry_manifest_artifact", to_json (rcm_inquiry_manifest_artifact m))].

(** The request, from the manifests it pins. *)
Definition pinned_request (m : ReacquisitionChildManifest) (branch : RecoveryBranch)
    (child_manifest_ref : ArtifactRef) (retention_package_id scaffold_id : option string) :
    ReacquisitionRequest :=
  MkReacquisitionRequest (rcm_request_id m) (rcm_parent_inquiry_id m) (rcm_child_inquiry_id m) branch (rcm_pins m)
    child_manifest_ref (rcm_inquiry_manifest_artifact m) (rcm_context_digest m) (rcm_policy_version m)
    retention_package_id scaffold_id.

Definition request_reacquisition (parent_inquiry_id request_id child_inquiry_id : string) (branch : RecoveryBranch)
    (recovery_protocol_id : string) (retention_package_id scaffold_id : option string) : sdk InquiryState :=
  parent ← inspect py parent_inquiry_id;
  context ← started_context parent "reacquisition requires a started parent inquiry";
  protocol ← lift (or_raise (first (λ p, rpt_id p ==? recovery_protocol_id) (recovery_protocols parent)) ValueError
                     "reacquisition protocol is not owned by the parent inquiry");
  base_manifest_ref ← inquiry_manifest_artifact context;
  let child_manifest := MkReacquisitionChildManifest parent_inquiry_id request_id child_inquiry_id
                          (protocol_pins protocol) (context_digest context) (ctx_warrant_policy_version context)
                          base_manifest_ref in
  lift (validate_manifest child_manifest);;
  child_manifest_ref ← put_artifact (canonical_json (to_json child_manifest))
    (Some "application/vnd.rci.reacquisition-child-manifest+json") (Some "utf-8");
  let request := pinned_request child_manifest branch child_manifest_ref retention_package_id scaffold_id in
  lift (validate_request request);;
  record py clock parent_inquiry_id [parent_inquiry_id; rreq_id request; "requested"]
    (Extend (RetentionStep (RequestReacquisition request))).

Definition owned_request (parent : InquiryState) (request_id : string) : option ReacquisitionRequest :=
  first (λ r, rreq_id r ==? request_id) (reacquisition_requests parent).

Definition start_reacquisition_child (parent_inquiry_id request_id : string) : sdk InquiryState :=
  parent ← inspect py parent_inquiry_id;
  request ← lift (or_raise (owned_request parent request_id) ValueError
                    "reacquisition request is not owned by a started parent");
  context ← lift (or_raise (st_context parent) ValueError "reacquisition request is not owned by a started parent");
  manifest ← reading (λ st, text ← get_bytes st (rreq_child_manifest_artifact request); py_parse_manifest py text);
  lift (raise_if (rcm_context_digest manifest !=? context_digest context) ValueError
          "reacquisition manifest context differs from its parent");;
  start_with_manifest py clock (rreq_child_inquiry_id request) context (rreq_child_manifest_artifact request).

(** The link to the child's committed prefix. *)
Definition child_link (parent_inquiry_id : string) (request : ReacquisitionRequest) (child : StreamSlice)
    (child_prefix_digest : string) : result ReacquisitionInquiryLink :=
  start_event ← or_raise (head (slice_events child)) ValueError "reacquisition child stream has not started";
  match evt_body (se_event start_event) with
  | InquiryStarted manifest_artifact _ context =>
    let link := MkReacquisitionInquiryLink (stable_id "reacq-link" [parent_inquiry_id; rreq_id request])
                  (rreq_id request) parent_inquiry_id (rreq_child_inquiry_id request)
                  (event_id (se_event start_event)) (se_event_digest start_event) (slice_version child)
                  child_prefix_digest manifest_artifact (context_digest context) in
    validate_inquiry_link link;; Ok link
  | _ => raise ValueError "reacquisition child stream does not begin with InquiryStarted"
  end.

Definition begins_with_start (child : StreamSlice) : result unit :=
  start_event ← or_raise (head (slice_events child)) ValueError "reacquisition child stream has not started";
  match evt_body (se_event start_event) with
  | InquiryStarted _ _ _ => Ok tt
  | _ => raise ValueError "reacquisition child stream does not begin with InquiryStarted"
  end.

Definition link_reacquisition_inquiry (parent_inquiry_id request_id : string) : sdk InquiryState :=
  parent ← inspect py parent_inquiry_id;
  request ← lift (or_raise (owned_request parent request_id) ValueError
                    "reacquisition request is not owned by the parent");
  if existsb (λ l, rlk_request_id l ==? request_id) (reacquisition_inquiry_links parent) then mret parent
  else
    child ← load_inquiry py (rreq_child_inquiry_id request);
    lift (begins_with_start child);;
    child_prefix_digest ← inquiry_prefix_digest py (rreq_child_inquiry_id request);
    link ← lift (child_link parent_inquiry_id request child child_prefix_digest);
    record py clock parent_inquiry_id [parent_inquiry_id; rlk_id link; "linked"]
      (Extend (RetentionStep (LinkReacquisitionInquiry link))).

(** [start_reacquisition]: the saga through every durable prefix *)
Definition start_reacquisition (parent_inquiry_id request_id child_inquiry_id : string) (branch : RecoveryBranch)
    (recovery_protocol_id : string) (retention_package_id scaffold_id : option string) : sdk InquiryState :=
  request_reacquisition parent_inquiry_id request_id child_inquiry_id branch recovery_protocol_id
    retention_package_id scaffold_id;;
  start_reacquisition_child parent_inquiry_id request_id;;
  link_reacquisition_inquiry parent_inquiry_id request_id.

(** ** Recovery *)

Definition record_recovery_observation (inquiry_id : string) (observation : RecoveryObservation) : sdk InquiryState :=
  record py clock inquiry_id [inquiry_id; robs_id observation; "observed"]
    (Extend (RetentionStep (RecordRecoveryObservation observation))).

(** The observations of the ids, from a dictionary of the state's. *)
Fixpoint known_observations (by_id : gmap string RecoveryObservation) (ids : list string) :
    result (list RecoveryObservation) :=
  match ids with
  | [] => Ok []
  | id :: ids =>
    o ← or_raise (by_id !! id) ValueError "recovery frontier references an unknown observation";
    rest ← known_observations by_id ids;
    Ok (o :: rest)
  end.

Definition recovery_frontier (parent_inquiry_id : string) (branch : RecoveryBranch) (observation_ids : list string) :
    sdk RecoveryFrontier :=
  s ← inspect py parent_inquiry_id;
  observations ← lift (known_observations (dict_by robs_id (recovery_observations s)) observation_ids);
  o ← lift (or_raise (head observations) ValueError "recovery frontier requires at least one observation");
  lift (derive_recovery_frontier branch (robs_pins o) observations).

Definition compare_recovery_frontiers_for_check (parent_inquiry_id comparison_id : string)
    (baseline_observation_ids retained_observation_ids : list string) (comparison_check : CheckReference) :
    sdk RecoveryComparison :=
  baseline ← recovery_frontier parent_inquiry_id BASELINE baseline_observation_ids;
  retained ← recovery_frontier parent_inquiry_id RETAINED retained_observation_ids;
  lift (compare_recovery_frontiers comparison_id baseline retained comparison_check).

Definition compare_recovery (parent_inquiry_id comparison_id : string)
    (baseline_observation_ids retained_observation_ids : list string) (comparison_check : CheckReference) :
    sdk RecoveryComparison :=
  comparison ← compare_recovery_frontiers_for_check parent_inquiry_id comparison_id baseline_observation_ids
                 retained_observation_ids comparison_check;
  record py clock parent_inquiry_id [parent_inquiry_id; rcmp_id comparison; "compared"]
    (Extend (RetentionStep (RecordRecoveryComparison comparison)));;
  mret comparison.

(** ** Compression *)

Definition register_binding_carriers (inquiry_id : string) (manifest : BindingCarrierManifest) : sdk InquiryState :=
  record py clock inquiry_id [inquiry_id; bcm_id manifest; "carrier-manifest"]
    (Extend (CompressionStep (RegisterBindingCarrierManifest manifest))).

Definition record_realized_history (inquiry_id : string) (derivation : RealizedHistoryDerivation) : sdk InquiryState :=
  record py clock inquiry_id [inquiry_id; rhd_id derivation; "history-derived"]
    (Extend (CompressionStep (RecordRealizedHistoryDerivation derivation))).

Definition register_compression_contract (inquiry_id : string) (contract : CompressionContract) : sdk InquiryState :=
  record py clock inquiry_id [inquiry_id; cct_id contract; "compression-contract"]
    (Extend (CompressionStep (RegisterCompressionContract contract))).

Definition record_compression_validation (inquiry_id : string) (validation : CompressionValidation) : sdk InquiryState :=
  record py clock inquiry_id [inquiry_id; cvl_id validation; "compression-validation"]
    (Extend (CompressionStep (RecordCompressionValidation validation))).

Definition grant_exact_compression_license (inquiry_id : string) (license : ExactCompressionLicense) : sdk InquiryState :=
  record py clock inquiry_id [inquiry_id; ecl_id license; "exact-license"]
    (Extend (CompressionStep (GrantExactCompressionLicense license))).

Definition record_compression_application (inquiry_id : string) (application : CompressionApplication) (path_residues : list PathResidue) : sdk InquiryState :=
  record py clock inquiry_id [inquiry_id; cap_id application; "compressed"]
    (Extend (CompressionStep (RecordCompressionApplication application path_residues))).

Definition grant_recovery_license (inquiry_id : string) (license : RecoveryLicense) : sdk InquiryState :=
  record py clock inquiry_id [inquiry_id; rcl_id license; "recovery-license"]
    (Extend (CompressionStep (GrantRecoveryLicense license))).

Definition link_retention_capability (inquiry_id : string) (link : RetentionCapabilityLink) : sdk InquiryState :=
  record py clock inquiry_id [inquiry_id; rcap_id link; "capability-linked"]
    (Extend (CompressionStep (LinkRetentionCapability link))).

Definition decide_representation_successor (inquiry_id : string) (decision : RepresentationSuccessorDecision) : sdk InquiryState :=
  record py clock inquiry_id [inquiry_id; rsd_id decision; "successor-decided"]
    (Extend (CompressionStep (DecideRepresentationSuccessor decision))).

Definition reopen_representation (inquiry_id : string) (reopening : RepresentationReopening) : sdk InquiryState :=
  record py clock inquiry_id [inquiry_id; rro_id reopening; "representation-reopened"]
    (Extend (CompressionStep (ReopenRepresentation reopening))).

(** ** Project governance *)

Definition record_project_anchor (inquiry_id : string) (anchor : ProjectAnchor) : sdk InquiryState :=
  record py clock inquiry_id [inquiry_id; anc_id anchor; "project-anchor"]
    (Extend (ProjectStep (RecordProjectAnchor anchor))).

Definition record_capability_limitation (inquiry_id : string) (limitation : CapabilityLimitation) : sdk InquiryState :=
  record py clock inquiry_id [inquiry_id; lim_id limitation; "capability-limitation"]
    (Extend (ProjectStep (RecordCapabilityLimitation limitation))).

Definition record_question_contract_candidate (inquiry_id : string) (candidate : QuestionContractCandidate) : sdk InquiryState :=
  record py clock inquiry_id [inquiry_id; qcc_id candidate; "question-candidate"]
    (Extend (ProjectStep (RecordQuestionContractCandidate candidate))).

Definition decide_question_repertoire (inquiry_id : string) (decision : QuestionRepertoireDecision) : sdk InquiryState :=
  record py clock inquiry_id [inquiry_id; qrd_id decision; "question-decision"]
    (Extend (ProjectStep (DecideQuestionRepertoire decision))).

Definition record_method_binding_candidate (inquiry_id : string) (candidate : MethodBindingCandidate) : sdk InquiryState :=
  record py clock inquiry_id [inquiry_id; mbc_id candidate; "method-candidate"]
    (Extend (ProjectStep (RecordMethodBindingCandidate candidate))).

Definition decide_method_admission (inquiry_id : string) (decision : MethodAdmissionDecision) : sdk InquiryState :=
  record py clock inquiry_id [inquiry_id; mad_id decision; "method-decision"]
    (Extend (ProjectStep (DecideMethodAdmission decision))).

Definition record_capability_successor_candidate (inquiry_id : string) (candidate : CapabilitySuccessorCandidate) : sdk InquiryState :=
  record py clock inquiry_id [inquiry_id; succ_id candidate; "successor-candidate"]
    (Extend (ProjectStep (RecordCapabilitySuccessorCandidate candidate))).

Definition record_capability_frontier (inquiry_id : string) (frontier : CapabilityFrontier) : sdk InquiryState :=
  record py clock inquiry_id [inquiry_id; frt_id frontier; "capability-frontier"]
    (Extend (ProjectStep (RecordCapabilityFrontier frontier))).

Definition record_implementation_goal_candidate (inquiry_id : string) (candidate : ImplementationGoalCandidate) : sdk InquiryState :=
  record py clock inquiry_id [inquiry_id; gcd_id candidate; "goal-candidate"]
    (Extend (ProjectStep (RecordImplementationGoalCandidate candidate))).

Definition decide_goal_admission (inquiry_id : string) (decision : GoalAdmissionDecision) : sdk InquiryState :=
  record py clock inquiry_id [inquiry_id; gad_id decision; "goal-admission"]
    (Extend (ProjectStep (DecideGoalAdmission decision))).

Definition seal_implementation_goal (inquiry_id : string) (goal : ImplementationGoalContract) : sdk InquiryState :=
  record py clock inquiry_id [inquiry_id; goal_id goal; "implementation-goal"]
    (Extend (ProjectStep (SealImplementationGoal goal))).

Definition record_candidate_environment (inquiry_id : string) (manifest : CandidateEnvironmentManifest) : sdk InquiryState :=
  record py clock inquiry_id [inquiry_id; cem_id manifest; "candidate-environment"]
    (Extend (ProjectStep (RecordCandidateEnvironment manifest))).

Definition record_development_evidence (inquiry_id : string) (evidence : DevelopmentEvidence) : sdk InquiryState :=
  record py clock inquiry_id [inquiry_id; dev_id evidence; "development-evidence"]
    (Extend (ProjectStep (RecordDevelopmentEvidence evidence))).

Definition record_independent_review (inquiry_id : string) (review : IndependentReview) : sdk InquiryState :=
  record py clock inquiry_id [inquiry_id; rev_id review; "independent-review"]
    (Extend (ProjectStep (RecordIndependentReview review))).

Definition decide_project_successor (inquiry_id : string) (decision : ProjectSuccessorDecision) : sdk InquiryState :=
  record py clock inquiry_id [inquiry_id; psd_id decision; "project-successor"]
    (Extend (ProjectStep (DecideProjectSuccessor decision))).

Definition record_promotion_decision (inquiry_id : string) (decision : Project.PromotionDecision) : sdk InquiryState :=
  record py clock inquiry_id [inquiry_id; prd_id decision; "promotion-decision"]
    (Extend (ProjectStep (RecordPromotionDecision decision))).

Definition record_recursive_cycle_checkpoint (inquiry_id : string) (checkpoint : RecursiveCycleCheckpoint) : sdk InquiryState :=
  record py clock inquiry_id [inquiry_id; rcc_id checkpoint; "cycle-checkpoint"]
    (Extend (ProjectStep (RecordRecursiveCycleCheckpoint checkpoint))).

Definition record_recursive_stop_disposition (inquiry_id : string) (disposition : RecursiveStopDisposition) : sdk InquiryState :=
  record py clock inquiry_id [inquiry_id; stop_id disposition; "recursive-stop"]
    (Extend (ProjectStep (RecordRecursiveStopDisposition disposition))).

(** [derive_implementation_goal_candidate] *)
Definition derive_implementation_goal_candidate (inquiry_id source_obligation_id downstream_obligation_id
    frontier_id : string) : sdk GoalSynthesis :=
  s ← inspect py inquiry_id;
  lift (compile_implementation_goal_candidate s source_obligation_id downstream_obligation_id frontier_id).

(** An admission of the candidate that names its goal. *)
Definition admits_goal (candidate : ImplementationGoalCandidate) (d : GoalAdmissionDecision) : bool :=
  (gad_candidate_id d ==? gcd_id candidate) && (gad_outcome d ==? OUTCOME_ADMIT)
  && (gad_admitted_goal_id d ==? Some (goal_id (gcd_goal candidate))).

Definition seal_admitted_implementation_goal (inquiry_id candidate_id : string) : sdk InquiryState :=
  s ← inspect py inquiry_id;
  candidate ← lift (or_raise (first (λ c, gcd_id c ==? candidate_id) (implementation_goal_candidates s)) ValueError
                      "implementation Goal candidate is not admitted");
  lift (raise_if (negb (existsb (admits_goal candidate) (goal_admission_decisions s))) ValueError
          "implementation Goal candidate is not admitted");;
  seal_implementation_goal inquiry_id (gcd_goal candidate).
End Saga.
