(* ===== verification/Executor.v ===== *)
(** * Effect execution and routes: [src/rci/orchestration/effects.py]

    The executor presents one planned attempt to an adapter and records what
    became of it.  The adapter is code outside the program: it answers from the
    history of the calls it received, and each call is logged with the runtime as
    it was at the call, which is what a crash at that point leaves behind. *)

From S2P Require Import Prelude Digest Dumps Model Claims Effects Artifacts Goals Decide State Evolve Serialization Store Runtime.

(** [_stable_id]: 32 hexadecimal digits here *)
Definition effect_stable_id (kind : string) (parts : list string) : string :=
  kind +:+ "_" +:+ prefix 32 (Sha256.hexdigest (join (String Ascii.zero "") parts)).

(** ** Routes *)

Record RouteTransformDefinition : Type := MkRouteTransformDefinition { rtd_id : string; rtd_version : string }.
#[export] Instance RouteTransformDefinition_to_json : ToJson RouteTransformDefinition := λ t,
  JObject [("id", to_json (rtd_id t)); ("version", to_json (rtd_version t))].

Record RouteDefinition : Type := MkRouteDefinition {
  rd_definition_id : string;
  rd_definition_version : string;
  rd_backend_id : string;
  rd_adapter_id : string;
  rd_adapter_version : string;
  rd_endpoint_or_channel : option string;
  rd_transport : string;
  rd_transforms : list RouteTransformDefinition;
}.

#[export] Instance RouteDefinition_to_json : ToJson RouteDefinition := λ d,
  JObject [("definition_id", to_json (rd_definition_id d)); ("definition_version", to_json (rd_definition_version d));
           ("backend_id", to_json (rd_backend_id d)); ("adapter_id", to_json (rd_adapter_id d));
           ("adapter_version", to_json (rd_adapter_version d));
           ("endpoint_or_channel", to_json (rd_endpoint_or_channel d)); ("transport", to_json (rd_transport d));
           ("transforms", to_json (rd_transforms d))].

Definition transform_key (t : RouteTransformDefinition) : string * string := (rtd_id t, rtd_version t).
Definition validate_transforms (d : RouteDefinition) : result unit :=
  raise_if (negb (uniq (map transform_key (rd_transforms d))))
    ValidationError "route transform definitions must be uniquely ordered".

Definition route_key (d : RouteDefinition) : string * string := (rd_definition_id d, rd_definition_version d).

(** [RouteRegistry.__init__]: definitions by identity and version *)
Definition route_registry (definitions : list RouteDefinition) : result (list RouteDefinition) :=
  raise_if (negb (uniq (map route_key definitions))) ValueError "duplicate route definition";;
  raise_if (is_nil definitions) ValueError "a route registry cannot be empty";;
  Ok definitions.

(** [definition_artifact] *)
Definition definition_artifact (d : RouteDefinition) : sdk ArtifactRef :=
  put_artifact (canonical_json (to_json d)) (Some "application/vnd.rci.route-definition+json") (Some "utf-8").

(** The first field of the snapshot that is not the definition's. *)
Definition snapshot_mismatch (snapshot : RouteSnapshot) (d : RouteDefinition) : option string :=
  snd <$> first fst
    [(rs_backend_id snapshot !=? rd_backend_id d, "backend");
     (rs_adapter_id snapshot !=? rd_adapter_id d, "adapter");
     (rs_adapter_version snapshot !=? rd_adapter_version d, "adapter version");
     (rs_endpoint_or_channel snapshot !=? rd_endpoint_or_channel d, "endpoint/channel");
     (rs_transport snapshot !=? Some (rd_transport d), "transport")].

(** [RouteRegistry.validate] *)
Definition validate_route (registry : list RouteDefinition) (st : ArtifactStore) (r : EffectRequest)
    (snapshot : RouteSnapshot) : result RouteDefinition :=
  d ← or_raise (first (λ d, route_key d ==? (rs_definition_id snapshot, rs_definition_version snapshot)) registry)
        UnknownRouteDefinitionError "route definition is not allowlisted";
  actual ← get_bytes st (rs_definition_artifact snapshot);
  raise_if (actual !=? canonical_json (to_json d))
    RouteValidationError "route definition artifact does not match the registry";;
  raise_if (is_some (snapshot_mismatch snapshot d)) RouteValidationError "route snapshot is not allowlisted";;
  raise_if (rs_request_or_action_digest snapshot !=? Sha256.hexdigest (canonical_json (to_json r)))
    RouteValidationError "route snapshot does not pin the exact request digest";;
  verify_artifact st (rs_execution_environment_artifact snapshot);;
  raise_if (map (λ t, (te_id t, te_version t)) (rs_transform_evidence snapshot) !=? map transform_key (rd_transforms d))
    RouteValidationError "route transform order/version differs from its definition";;
  Ok d.

(** ** Adapters *)

Inductive AdapterDecodeStatus : Type := AD_DECODED | AD_MALFORMED | AD_UNSUPPORTED | AD_FAILED.
#[export] Instance AdapterDecodeStatus_eq_dec : EqDecision AdapterDecodeStatus.
Proof. solve_decision. Defined.
Definition AdapterDecodeStatus_value (s : AdapterDecodeStatus) : string :=
  match s with
  | AD_DECODED => "decoded" | AD_MALFORMED => "malformed" | AD_UNSUPPORTED => "unsupported" | AD_FAILED => "failed"
  end.

Record AdapterDecodeResult : Type := MkAdapterDecodeResult {
  adr_status : AdapterDecodeStatus;
  adr_semantic_bytes : option string;
  adr_semantic_media_type : option string;
  adr_semantic_encoding : option string;
  adr_operation_id : option string;
  adr_diagnostic : option string;
}.

Definition semantic_fields (r : AdapterDecodeResult) : list (option string) :=
  [adr_semantic_bytes r; adr_semantic_media_type r; adr_semantic_encoding r; adr_operation_id r].

Definition validate_shape (r : AdapterDecodeResult) : result unit :=
  if adr_status r ==? AD_DECODED then
    raise_if (existsb is_none (semantic_fields r) || is_some (adr_diagnostic r))
      ValidationError "decoded adapter results require only complete semantic fields"
  else
    raise_if (existsb is_some (semantic_fields r) || is_none (adr_diagnostic r))
      ValidationError "non-decoded adapter results require only a diagnostic".

(** What [perform_exact] does: exact bytes, another value, or an exception of the
    named class, by the handler that catches it. *)
Inductive Performed : Type :=
| ExactBytes (data : string)
| OtherValue
| RaisedUnsupported (class_name : string)
| RaisedTimeout (class_name : string)
| RaisedTransport (class_name : string)
| RaisedOther (class_name : string).

Inductive Preflight : Type :=
| PreflightPassed
| PreflightUnsupported (class_name : string)
| PreflightRaised (x : exn).

Inductive CallKind : Type :=
| CallValidateInput (input : string)
| CallPreflight
| CallPerformExact (input : string) (timeout_seconds : Z)
| CallDecodeExact (raw : string).

Record AdapterCall : Type := MkAdapterCall { call_kind : CallKind; call_runtime : Runtime }.

(** [PersistedEffectAdapter] *)
Record Adapter : Type := {
  ad_id : string;
  ad_version : string;
  ad_validate_input : list AdapterCall → string → result unit;
  ad_preflight : list AdapterCall → Preflight;
  ad_perform_exact : list AdapterCall → string → Z → Performed;
  ad_decode_exact : list AdapterCall → string → result AdapterDecodeResult;
}.

(** ** The executor's computations *)

Record World : Type := MkWorld { w_runtime : Runtime; w_calls : list AdapterCall }.

Definition exec (A : Type) : Type := World → result A * World.

#[export] Instance exec_ret : MRet exec := λ A a w, (Ok a, w).
#[export] Instance exec_bind : MBind exec := λ A B f m w,
  match m w with
  | (Ok a, w') => f a w'
  | (Raise x, w') => (Raise x, w')
  end.

Definition on_runtime {A} (m : sdk A) : exec A := λ w,
  let '(r, rt) := m (w_runtime w) in (r, MkWorld rt (w_calls w)).
Definition pure {A} (m : result A) : exec A := λ w, (m, w).

(** Call the adapter: it sees the calls before this one. *)
Definition calling {A} (k : CallKind) (f : list AdapterCall → A) : exec A := λ w,
  (Ok (f (w_calls w)), MkWorld (w_runtime w) (w_calls w ++ [MkAdapterCall k (w_runtime w)])).

Section Executor.
Context (py : Pydantic) (clock : nat → Z) (registry : list RouteDefinition) (adapter : Adapter).

(** [_append]: a lost optimistic race is retried, three times in all *)
Fixpoint append_attempts (n : nat) (inquiry_id : string) (commands : list DomainCommand) : sdk InquiryState :=
  match n with
  | O => lift (raise OptimisticConcurrencyError "effect append lost three optimistic races")
  | S n =>
    s ← inspect py inquiry_id;
    decided ← lift (apply_batch commands s);
    if is_nil decided.1 then mret decided.2
    else λ rt,
      match append_events py inquiry_id (st_sequence s) decided.1 rt with
      | (Ok _, rt') => (Ok decided.2, rt')
      | (Raise x, rt') =>
        if exn_class x ==? OptimisticConcurrencyError then append_attempts n inquiry_id commands rt'
        else (Raise x, rt')
      end
  end.
Definition append_batch : string → list DomainCommand → sdk InquiryState := append_attempts 3.

Definition effect_command (now : Z) (inquiry_id : string) (parts : list string) (body : CommandBody) :
    DomainCommand :=
  MkCommand (MkMeta (effect_stable_id "evt" parts) inquiry_id now) body.

(** [_locate_attempt] *)
Definition locate_attempt (s : InquiryState) (request_id attempt_id : string) :
    result (EffectRequestState * AttemptState) :=
  r ← or_raise (request_by_id s request_id) ValueError "effect execution requires a persisted request";
  a ← or_raise (first (λ a, att_id a ==? attempt_id) (ers_attempts r)) ValueError
        "effect execution requires a persisted attempt plan";
  Ok (r, a).

Definition diagnostic_artifact (fields : list (string * json)) (media_type : string) : exec ArtifactRef :=
  on_runtime (put_artifact (canonical_json (JObject fields)) (Some media_type) (Some "utf-8")).
Definition effect_diagnostic (phase : string) (key value : string) : exec ArtifactRef :=
  diagnostic_artifact [("phase", JString phase); (key, JString value)]
    "application/vnd.rci.effect-diagnostic+json".

(** The checks of [execute] before anything is presented. *)
Definition check_adapter (r : EffectRequestState) (a : AttemptState) : result unit :=
  raise_if (req_adapter_id (ers_request r) !=? ad_id adapter)
    RouteValidationError "request adapter does not match the selected adapter";;
  raise_if (rs_adapter_id (ap_route (att_plan a)) !=? ad_id adapter)
    RouteValidationError "route adapter does not match the selected adapter";;
  raise_if (rs_adapter_version (ap_route (att_plan a)) !=? ad_version adapter)
    RouteValidationError "route adapter version does not match the selected adapter".

Definition checked_input (r : EffectRequestState) (a : AttemptState) : exec string :=
  pure (check_adapter r a);;
  on_runtime (reading (λ st, validate_route registry st (ers_request r) (ap_route (att_plan a))));;
  pure (raise_if (4194304 <? art_size (req_input_artifact (ers_request r)))%Z RouteValidationError
          "effect request envelope exceeds the 4 MiB G1 bound");;
  input ← on_runtime (reading (λ st, get_bytes st (req_input_artifact (ers_request r))));
  valid ← calling (CallValidateInput input) (λ calls, ad_validate_input adapter calls input);
  pure valid;;
  mret input.

(** A stage ends the execution with a state, or goes on with it and the attempt. *)
Abbreviation stage := (InquiryState + InquiryState * EffectRequestState * AttemptState)%type.

Definition unsupported_disposition (request_id step_plan_id attempt_id : string) (diagnostics : ArtifactRef) :
    NoAttemptDisposition :=
  MkNoAttemptDisposition (effect_stable_id "disposition" [attempt_id; "unsupported"]) request_id
    step_plan_id NA_UNSUPPORTED (Some diagnostics).

(** [if not attempt.started]: preflight, and the durable start *)
Definition ensure_started (inquiry_id request_id attempt_id : string) (s : InquiryState)
    (r : EffectRequestState) (a : AttemptState) : exec stage :=
  if att_started a then mret (inr (s, r, a))
  else
    preflight ← calling CallPreflight (ad_preflight adapter);
    match (preflight : Preflight) with
    | PreflightRaised x => pure (Raise x)
    | PreflightUnsupported class_name =>
      diagnostics ← effect_diagnostic "preflight" "exception_type" class_name;
      now ← on_runtime (tick clock);
      s' ← on_runtime (append_batch inquiry_id
             [effect_command now inquiry_id [attempt_id; "no-attempt"]
                (RecordNoAttemptDisposition
                   (unsupported_disposition request_id (req_step_plan_id (ers_request r)) attempt_id diagnostics))]);
      mret (inl s')
    | PreflightPassed =>
      now ← on_runtime (tick clock);
      s' ← on_runtime (append_batch inquiry_id
             [effect_command now inquiry_id [attempt_id; "started"] (StartEffectAttempt attempt_id)]);
      located ← pure (locate_attempt s' request_id attempt_id);
      mret (inr (s', located.1, located.2))
    end.

(** Record the outcome of the attempt at the current time. *)
Definition record_outcome (inquiry_id request_id attempt_id suffix : string) (o : AttemptOutcome) :
    exec InquiryState :=
  now ← on_runtime (tick clock);
  on_runtime (append_batch inquiry_id
    [effect_command now inquiry_id [attempt_id; suffix] (RecordAttemptOutcome request_id o)]).

(** [except Exception]: the presentation is unknown *)
Definition presentation_unknown (inquiry_id request_id attempt_id : string) (a : AttemptState)
    (reason : PresentationUnknownReason) (class_name : string) : exec stage :=
  diagnostics ← effect_diagnostic "presentation_or_transport" "exception_type" class_name;
  s' ← record_outcome inquiry_id request_id attempt_id "presentation-unknown"
         (PresentationUnknownOutcome attempt_id (rs_id (ap_route (att_plan a))) reason diagnostics);
  mret (inl s').

(** The captured bytes, recorded as the attempt's return. *)
Definition capture_return (inquiry_id request_id attempt_id : string) (a : AttemptState) (data : string) :
    exec stage :=
  raw_ref ← on_runtime (put_artifact data (Some "application/octet-stream") (Some "binary"));
  now ← on_runtime (tick clock);
  let external_return := MkExternalReturn (effect_stable_id "return" [attempt_id; art_digest raw_ref]) attempt_id
        (rs_id (ap_route (att_plan a))) None None "adapter-perform-exact-return-bytes" "binary" now
        (MkCapturedPayload BytesPayload (Some raw_ref)) in
  s' ← on_runtime (append_batch inquiry_id
         [effect_command now inquiry_id [ret_id external_return; "captured"]
            (RecordAttemptOutcome request_id
               (ReturnedOutcome attempt_id (rs_id (ap_route (att_plan a))) external_return))]);
  located ← pure (locate_attempt s' request_id attempt_id);
  mret (inr (s', located.1, located.2)).

(** [if attempt.outcome is None]: present the input, once *)
Definition ensure_presented (inquiry_id request_id attempt_id input : string) (s : InquiryState)
    (r : EffectRequestState) (a : AttemptState) : exec stage :=
  if is_some (att_outcome a) then mret (inr (s, r, a))
  else
    let timeout := req_timeout_seconds (ers_request r) in
    performed ← calling (CallPerformExact input timeout) (λ calls, ad_perform_exact adapter calls input timeout);
    match (performed : Performed) with
    | RaisedUnsupported class_name =>
      diagnostics ← effect_diagnostic "preflight" "exception_type" class_name;
      s' ← record_outcome inquiry_id request_id attempt_id "not-presented"
             (NotPresentedOutcome attempt_id (rs_id (ap_route (att_plan a))) NP_UNSUPPORTED (Some diagnostics));
      mret (inl s')
    | RaisedTimeout class_name => presentation_unknown inquiry_id request_id attempt_id a PU_TIMEOUT class_name
    | RaisedTransport class_name =>
      presentation_unknown inquiry_id request_id attempt_id a TRANSPORT_ERROR class_name
    | RaisedOther class_name =>
      presentation_unknown inquiry_id request_id attempt_id a INTERNAL_FAILURE class_name
    | OtherValue =>
      diagnostics ← effect_diagnostic "capture" "reason" "adapter_return_was_not_exact_bytes";
      s' ← record_outcome inquiry_id request_id attempt_id "capture-failed"
             (CaptureFailedOutcome attempt_id (rs_id (ap_route (att_plan a))) CAPTURE_ERROR diagnostics);
      mret (inl s')
    | ExactBytes data => capture_return inquiry_id request_id attempt_id a data
    end.

(** The decode outcome of the adapter's answer. *)
Definition decode_outcome (decode_id return_id : string) (d : AdapterDecodeResult) : exec DecodeOutcome :=
  let base := MkDecodeBase decode_id return_id (ad_id adapter +:+ "-decoder") (ad_version adapter) in
  match adr_status d with
  | AD_DECODED =>
    match adr_semantic_bytes d, adr_semantic_media_type d, adr_semantic_encoding d with
    | Some data, Some media_type, Some encoding =>
      operation_id ← pure (or_raise (adr_operation_id d) RuntimeError
                             "decoded adapter result lost its operation identity");
      semantic_ref ← on_runtime (put_artifact data (Some media_type) (Some encoding));
      mret (Decoded base (SuccessResult
              (MkResultBase (effect_stable_id "result" [decode_id]) semantic_ref) operation_id))
    | _, _, _ => pure (raise RuntimeError "decoded adapter result lost semantic bytes, media type, or encoding")
    end
  | status =>
    diagnostic ← pure (or_raise (adr_diagnostic d) RuntimeError "failed adapter decode lost its diagnostic");
    if status ==? AD_UNSUPPORTED then mret (UnsupportedDecode base diagnostic)
    else
      diagnostics ← diagnostic_artifact
        [("diagnostic", JString diagnostic); ("status", JString (AdapterDecodeStatus_value status))]
        "application/vnd.rci.decode-diagnostic+json";
      mret (if status ==? AD_MALFORMED then MalformedDecode base diagnostics else FailedDecode base diagnostics)
  end.

(** The decode of the return: the recorded one, or the adapter's, recorded. *)
Definition ensure_decoded (inquiry_id request_id attempt_id raw : string) (x : ExternalReturn) (s : InquiryState)
    (r : EffectRequestState) : exec (InquiryState * DecodeOutcome) :=
  match first (λ d, dec_return_id d ==? ret_id x) (ers_decode_outcomes r) with
  | Some d => mret (s, d)
  | None =>
    answered ← calling (CallDecodeExact raw) (λ calls, ad_decode_exact adapter calls raw);
    decoded ← pure answered;
    pure (validate_shape decoded);;
    let decode_id := effect_stable_id "decode" [ret_id x; ad_version adapter] in
    outcome ← decode_outcome decode_id (ret_id x) decoded;
    now ← on_runtime (tick clock);
    s' ← on_runtime (append_batch inquiry_id
           [effect_command now inquiry_id [decode_id; "decoded"] (RecordDecodeOutcome request_id outcome)]);
    located ← pure (locate_attempt s' request_id attempt_id);
    d ← pure (or_raise (find_decode decode_id (ers_decode_outcomes located.1)) StopIteration "");
    mret (s', d)
  end.

(** Interpret a captured return and accept the decode. *)
Definition interpret (inquiry_id request_id attempt_id : string) (accept_decoded : bool) (s : InquiryState)
    (r : EffectRequestState) (a : AttemptState) : exec InquiryState :=
  match attempt_return a with
  | None => mret s
  | Some x =>
    raw_artifact ← pure (or_raise (cap_artifact (ret_raw_payload x)) RuntimeError
                           "byte-return outcome lacks its authoritative artifact");
    raw ← on_runtime (reading (λ st, get_bytes st raw_artifact));
    found ← ensure_decoded inquiry_id request_id attempt_id raw x s r;
    if accept_decoded && is_some (decoded_result found.2) then
      now ← on_runtime (tick clock);
      on_runtime (append_batch inquiry_id
        [effect_command now inquiry_id [dec_id found.2; "accepted"] (AcceptEffectResult request_id (dec_id found.2))])
    else mret found.1
  end.

(** An accepted request, or an attempt that ended without a return, is finished. *)
Definition finished (r : EffectRequestState) (a : AttemptState) : bool :=
  is_some (ers_accepted_decoded_outcome_id r) || (is_some (att_outcome a) && is_none (attempt_return a)).

(** [execute], once the attempt is located *)
Definition execute_attempt (inquiry_id request_id attempt_id : string) (accept_decoded : bool) (s : InquiryState)
    (r : EffectRequestState) (a : AttemptState) : exec InquiryState :=
  input ← checked_input r a;
  if finished r a then mret s
  else
    started ← ensure_started inquiry_id request_id attempt_id s r a;
    match (started : stage) with
    | inl s => mret s
    | inr (s, r, a) =>
      pure (raise_if (negb (att_started a)) RuntimeError
              "attempt start was not durably folded before execution");;
      presented ← ensure_presented inquiry_id request_id attempt_id input s r a;
      match (presented : stage) with
      | inl s => mret s
      | inr (s, r, a) => interpret inquiry_id request_id attempt_id accept_decoded s r a
      end
    end.

(** [execute] *)
Definition execute (inquiry_id request_id attempt_id : string) (accept_decoded : bool) : exec InquiryState :=
  s ← on_runtime (inspect py inquiry_id);
  located ← pure (locate_attempt s request_id attempt_id);
  execute_attempt inquiry_id request_id attempt_id accept_decoded s located.1 located.2.
End Executor.
