(* ===== verification/Reification.v ===== *)
(** * Reification: [src/rci/formal/reification.py]

    The fail-closed conversion of a claim's payload into a formula.  The two
    pydantic validations are parameters: each answers with the location and
    type of its first error or with the validated fields. *)

From S2P Require Import Prelude Digest Model Claims Formal.

Record FormalCandidate : Type := MkFormalCandidate {
  fc_claim_id : string;
  fc_expression : Formula;
  fc_carrier_id : string;
  fc_scope : Scope;
  fc_assumption_ids : list string;
}.

Inductive ReificationOutcome : Type :=
| Reified (candidate : FormalCandidate)
| NeedsClarification (claim_id reason : string)
| UnsupportedReification (claim_id capability : string)
| FailedReification (claim_id reason : string).

(** The fields of [_Envelope]. *)
Record Envelope : Type := MkEnvelope {
  en_schema_id : string;
  en_carrier_id : string;
  en_expression : json;
}.

(** The first entry of [ValidationError.errors()]: its "loc" and its "type". *)
Record FirstError : Type := MkFirstError { error_location : list string; error_type : string }.

(** A validator that raises ValueError reports no location. *)
Definition validate_required_text (e : Envelope) : FirstError + Envelope :=
  if is_empty (en_schema_id e) || is_empty (en_carrier_id e) then inl (MkFirstError [] "value_error") else inr e.

Section reification.
Context (envelope_fields : json → FirstError + Envelope) (formula_of : json → FirstError + Formula).

Definition failed_reification (c : Claim) (e : FirstError) : ReificationOutcome :=
  FailedReification (claim_id c)
    ("invalid_boolean_finite_ast:" +:+ join "." (error_location e) +:+ ":" +:+ error_type e).

Definition reify_claim (c : Claim) : ReificationOutcome :=
  match claim_payload c with
  | PayloadJson (JObject members) =>
    let supported := match first (λ m, m.1 ==? "schema_id") members with
                     | Some (_, JString schema_id) =>
                       if schema_id ==? "rci.boolean-finite.v1" then inr tt else inl schema_id
                     | _ => inr tt
                     end in
    match supported with
    | inl schema_id => UnsupportedReification (claim_id c) schema_id
    | inr _ =>
      match envelope_fields (JObject members) with
      | inl e => failed_reification c e
      | inr fields =>
        match validate_required_text fields with
        | inl e => failed_reification c e
        | inr envelope =>
          match formula_of (en_expression envelope) with
          | inl e => failed_reification c e
          | inr expression =>
            Reified (MkFormalCandidate (claim_id c) expression (en_carrier_id envelope) (claim_scope c)
                       (scope_assumption_ids (claim_scope c)))
          end
        end
      end
    end
  | _ => NeedsClarification (claim_id c) "a versioned structured expression is required"
  end.

(** Opaque payloads never gain a formula: a reified claim carries an object
    whose envelope and expression the validations accept. *)
Lemma reified_only_from_envelope c candidate :
  reify_claim c = Reified candidate →
  ∃ members fields, claim_payload c = PayloadJson (JObject members)
    ∧ envelope_fields (JObject members) = inr fields
    ∧ en_schema_id fields ≠ "" ∧ en_carrier_id fields ≠ ""
    ∧ formula_of (en_expression fields) = inr (fc_expression candidate)
    ∧ fc_claim_id candidate = claim_id c ∧ fc_scope candidate = claim_scope c
    ∧ ∀ v, first (λ m, m.1 ==? "schema_id") members = Some ("schema_id", JString v) → v = "rci.boolean-finite.v1".
Proof.
  unfold reify_claim, failed_reification, validate_required_text.
  destruct (claim_payload c) as [|[]]; try done.
  destruct (match first _ o with Some _ => _ | None => _ end) as [|[]] eqn:Es; [done|].
  destruct (envelope_fields _) as [|fields] eqn:Ef; [done|].
  destruct (is_empty (en_schema_id fields) || is_empty (en_carrier_id fields)) eqn:Ee; [done|].
  destruct (formula_of _) as [|f] eqn:Eo; [done|]. intros [= <-].
  apply orb_false_iff in Ee as [E1 E2]. unfold is_empty in E1, E2. rewrite eqb_false in E1, E2.
  exists o, fields. split_and!; try done. intros v Hv. rewrite Hv in Es. cbn in Es.
  destruct (v ==? "rci.boolean-finite.v1") eqn:E; [by rewrite eqb_true in E|done].
Qed.
End reification.
