(* ===== verification/Z3.v ===== *)
(** * The optional Z3 backend: [src/rci/backends/z3_backend.py]

    The translation of a formula and its finite universe into z3 expressions,
    the reading of a model back into an assignment, and [check_with_z3] with
    every branch that turns a failure into a typed result.  Z3 itself is not
    part of the repository: its module is the parameter [Z3Module] (the calls
    the code makes), and [Z3Laws] states what the documentation of z3 promises
    about them.  The reason a solver gives is ASCII, so
    that [str.casefold] is lower-casing. *)

From S2P Require Import Prelude Digest Warrant Formal.

(** ** Results *)

Inductive BackendExecutionStatus : Type :=
| EXEC_COMPLETED | EXEC_TIMEOUT | EXEC_UNSUPPORTED | EXEC_FAILED.
#[export] Instance BackendExecutionStatus_eq_dec : EqDecision BackendExecutionStatus.
Proof. solve_decision. Defined.

Inductive LogicalResult : Type := LOGICAL_SAT | LOGICAL_UNSAT | LOGICAL_UNKNOWN.
#[export] Instance LogicalResult_eq_dec : EqDecision LogicalResult.
Proof. solve_decision. Defined.

(** [backend_id] and [promotion_authorized] are the literals "z3" and [False]. *)
Record Z3CheckResult : Type := MkZ3CheckResult {
  zr_backend_version : option string;
  zr_execution_status : BackendExecutionStatus;
  zr_logical_result : option LogicalResult;
  zr_checker_verdict : CheckerVerdict;
  zr_warrant_class : WarrantClass;
  zr_query_fingerprint : string;
  zr_universe_id : string;
  zr_universe_revision : string;
  zr_universe_fingerprint : string;
  zr_witness : option Assignment;
  zr_witness_rechecked : option bool;
  zr_reason : option string;
}.

Definition validate_stage_separation (r : Z3CheckResult) : result unit :=
  (if (zr_execution_status r ==? EXEC_UNSUPPORTED) || (zr_execution_status r ==? EXEC_FAILED) then
     raise_if (is_some (zr_logical_result r))
       ValidationError "non-executed Z3 checks cannot claim a logical result";;
     raise_if (zr_warrant_class r !=? WC_NONE)
       ValidationError "non-executed Z3 checks cannot carry warrant"
   else
     raise_if (is_none (zr_logical_result r))
       ValidationError "completed or timed-out Z3 checks require a logical result");;
  (if zr_logical_result r ==? Some LOGICAL_SAT then
     match zr_witness r, zr_witness_rechecked r with
     | Some _, Some rechecked =>
       raise_if (zr_checker_verdict r !=? (if rechecked then VALID else INVALID))
         ValidationError "SAT checker verdict must reflect independent interpretation";;
       raise_if (zr_warrant_class r !=? WC_NONE)
         ValidationError "the backend cannot bind a witness to scoped warrant"
     | _, _ => raise ValidationError "SAT requires an extracted and independently checked witness"
     end
   else
     raise_if (is_some (zr_witness r) || is_some (zr_witness_rechecked r))
       ValidationError "only SAT results may carry a witness");;
  (if zr_logical_result r ==? Some LOGICAL_UNSAT then
     raise_if (zr_execution_status r !=? EXEC_COMPLETED)
       ValidationError "UNSAT requires completed solver execution";;
     raise_if (zr_checker_verdict r !=? VALID)
       ValidationError "UNSAT requires a valid translated solver response";;
     raise_if (zr_warrant_class r !=? SOLVER_TRUSTED)
       ValidationError "Z3-only UNSAT must remain solver-trusted"
   else
     raise_if (zr_warrant_class r ==? SOLVER_TRUSTED)
       ValidationError "solver-trusted warrant is reserved for Z3-only UNSAT");;
  raise_if ((zr_logical_result r ==? Some LOGICAL_UNKNOWN) && is_none (zr_reason r))
    ValidationError "unknown logical results require the solver reason";;
  if zr_execution_status r ==? EXEC_TIMEOUT then
    raise_if (zr_logical_result r !=? Some LOGICAL_UNKNOWN)
      ValidationError "timeout cannot imply SAT or UNSAT";;
    raise_if (zr_checker_verdict r !=? TIMEOUT)
      ValidationError "timeout requires a timeout checker verdict"
  else Ok tt.

(** ** z3's Python interface *)

(** What [Solver.check] answers, with [Solver.model()] or
    [Solver.reason_unknown()] read straight after it. *)
Inductive SolverAnswer (M : Type) : Type :=
| solver_sat (model : M)
| solver_unsat
| solver_unknown (reason : string).
Arguments solver_sat {M} model.
Arguments solver_unsat {M}.
Arguments solver_unknown {M} reason.

Record Z3Module : Type := MkZ3Module {
  z3_expr : Type;
  z3_model : Type;
  z3_version : result string;                       (* get_version_string() *)
  z3_bool_val : bool → z3_expr;                     (* BoolVal(b) *)
  z3_bool : string → z3_expr;                       (* Bool(name) *)
  z3_int : string → z3_expr;                        (* Int(name) *)
  z3_equals_int : z3_expr → Z → z3_expr;            (* variable == index *)
  z3_equals : z3_expr → z3_expr → z3_expr;          (* left == right *)
  z3_not : z3_expr → z3_expr;
  z3_and : list z3_expr → z3_expr;
  z3_or : list z3_expr → z3_expr;
  z3_implies : z3_expr → z3_expr → z3_expr;
  z3_check : Z → list z3_expr → result (SolverAnswer z3_model);
  z3_eval : z3_model → z3_expr → z3_expr;           (* model.eval(e, model_completion=True) *)
  z3_is_true : z3_expr → bool;
  z3_as_long : z3_expr → result Z;
}.

(** The outcome of [import_module("z3")]: a failure names its exception class. *)
Inductive Z3Import : Type :=
| z3_imported
| z3_import_missing
| z3_import_failed (exception_name message : string).

(** ** Queries *)

Fixpoint formula_json (f : Formula) : json :=
  match f with
  | BoolLiteral b => JObject [("kind", JString "bool"); ("value", to_json b)]
  | Symbol n => JObject [("kind", JString "symbol"); ("name", to_json n)]
  | EnumEquals s v => JObject [("kind", JString "enum_equals"); ("symbol", to_json s); ("value", to_json v)]
  | FNot f => JObject [("kind", JString "not"); ("operand", formula_json f)]
  | FAnd l => JObject [("kind", JString "and"); ("operands", JList (map formula_json l))]
  | FOr l => JObject [("kind", JString "or"); ("operands", JList (map formula_json l))]
  | Implies f g =>
    JObject [("kind", JString "implies"); ("antecedent", formula_json f); ("consequent", formula_json g)]
  | Equivalence f g =>
    JObject [("kind", JString "equivalence"); ("left", formula_json f); ("right", formula_json g)]
  end.
#[export] Instance Formula_to_json : ToJson Formula := formula_json.

Definition query_fingerprint (f : Formula) (u : FiniteUniverse) : string :=
  content_fingerprint "rci.z3-query.v1" (JObject [("formula", to_json f); ("universe", to_json u)]).

Fixpoint formula_node_count (f : Formula) : Z :=
  match f with
  | BoolLiteral _ | Symbol _ | EnumEquals _ _ => 1
  | FNot f => 1 + formula_node_count f
  | FAnd l | FOr l => 1 + foldr (λ f n, formula_node_count f + n) 0 l
  | Implies f g | Equivalence f g => 1 + formula_node_count f + formula_node_count g
  end%Z.

(** A dict built by one pass over the domains: a later domain of the same
    symbol replaces an earlier one. *)
Definition by_symbol {A} (value : FiniteDomain → A) (ds : list FiniteDomain) : gmap string A :=
  foldl (λ m d, <[dom_symbol d := value d]> m) ∅ ds.

Definition domain_by_symbol (u : FiniteUniverse) : gmap string FiniteDomain :=
  by_symbol id (uni_domains u).

Definition is_str (v : Scalar) : bool := negb (is_bool v).

Fixpoint validate_binding (domains : gmap string FiniteDomain) (f : Formula) : result unit :=
  match f with
  | BoolLiteral _ => Ok tt
  | Symbol n =>
    match domains !! n with
    | None => raise UnsupportedTranslation ("unbound_symbol:" +:+ n)
    | Some d => raise_if (negb (all is_bool (dom_values d)))
                  UnsupportedTranslation ("boolean_symbol_bound_to_enum:" +:+ n)
    end
  | EnumEquals n _ =>
    match domains !! n with
    | None => raise UnsupportedTranslation ("unbound_symbol:" +:+ n)
    | Some d => raise_if (negb (all is_str (dom_values d)))
                  UnsupportedTranslation ("enum_equality_bound_to_boolean:" +:+ n)
    end
  | FNot f => validate_binding domains f
  | FAnd l | FOr l => (fix go l := match l with
                                   | [] => Ok tt
                                   | f :: l => validate_binding domains f;; go l
                                   end) l
  | Implies f g | Equivalence f g => validate_binding domains f;; validate_binding domains g
  end.

(** [type(error).__name__] *)
Definition exception_name (k : exn_kind) : string :=
  match k with
  | ValueError => "ValueError" | ValidationError => "ValidationError" | KeyError => "KeyError"
  | IndexError => "IndexError" | PermissionError => "PermissionError" | RuntimeError => "RuntimeError"
  | EvaluationError => "EvaluationError" | RecoveryCompatibilityError => "RecoveryCompatibilityError"
  | InvalidCommandError => "InvalidCommandError" | InvalidTransitionError => "InvalidTransitionError"
  | IdentityConflictError => "IdentityConflictError" | EffectLifecycleError => "EffectLifecycleError"
  | RetrievalConflictError => "RetrievalConflictError"
  | ReconstructionConflictError => "ReconstructionConflictError"
  | GeneratedQuestionCompilationError => "GeneratedQuestionCompilationError"
  | AttributeError => "AttributeError" | AssertionError => "AssertionError"
  | StopIteration => "StopIteration" | TypeError => "TypeError" | OSError => "OSError"
  | PersistenceError => "PersistenceError" | IntegrityError => "IntegrityError"
  | OptimisticConcurrencyError => "OptimisticConcurrencyError"
  | DuplicateEventError => "DuplicateEventError" | SnapshotConflictError => "SnapshotConflictError"
  | UnsupportedSchemaVersionError => "UnsupportedSchemaVersionError"
  | SagaIntegrityError => "SagaIntegrityError" | ArtifactIntegrityError => "ArtifactIntegrityError"
  | UnsupportedEventSchemaVersion => "UnsupportedEventSchemaVersion"
  | AnswerSubmissionError => "AnswerSubmissionError"
  | UnknownRouteDefinitionError => "UnknownRouteDefinitionError"
  | RouteValidationError => "RouteValidationError"
  | EffectUnsupportedError => "EffectUnsupportedError"
  | EffectTransportError => "EffectTransportError"
  | UnsupportedTranslation => "_UnsupportedTranslation"
  | BackendLoadFailure => "_BackendLoadFailure"
  | Z3Exception => "Z3Exception"
  end.

Definition base_result (f : Formula) (u : FiniteUniverse) (version : option string)
    (status : BackendExecutionStatus) (logical : option LogicalResult) (verdict : CheckerVerdict)
    (warrant : WarrantClass) (witness : option Assignment) (rechecked : option bool)
    (reason : option string) : result Z3CheckResult :=
  let r := MkZ3CheckResult version status logical verdict warrant (query_fingerprint f u)
             (uni_id u) (uni_revision u) (universe_fingerprint u) witness rechecked reason in
  validate_stage_separation r;; Ok r.

(** The three results of a check that was not executed. *)
Definition unsupported_result (f : Formula) (u : FiniteUniverse) (reason : string) : result Z3CheckResult :=
  base_result f u None EXEC_UNSUPPORTED None UNSUPPORTED WC_NONE None None (Some reason).
Definition load_failed_result (f : Formula) (u : FiniteUniverse) (reason : string) : result Z3CheckResult :=
  base_result f u None EXEC_FAILED None FAILED WC_NONE None None (Some reason).
Definition failed_result (f : Formula) (u : FiniteUniverse) (version : option string) (e : exn) :
    result Z3CheckResult :=
  base_result f u version EXEC_FAILED None FAILED WC_NONE None None
    (Some (exception_name (exn_class e) +:+ ":" +:+ exn_message e)).

(** ** Translation *)

Section backend.
Context (z : Z3Module).
Implicit Types (f : Formula) (u : FiniteUniverse) (d : FiniteDomain).

Record Translation : Type := MkTranslation {
  tr_expression : z3_expr z;
  tr_constraints : list (z3_expr z);
  tr_variables : gmap string (z3_expr z);
}.

Definition load_z3 (i : Z3Import) : result unit :=
  match i with
  | z3_imported => Ok tt
  | z3_import_missing => raise UnsupportedTranslation "z3_extra_not_installed"
  | z3_import_failed name message =>
    raise BackendLoadFailure ("z3_import_failed:" +:+ name +:+ ":" +:+ message)
  end.

Fixpoint translate_node (domains : gmap string FiniteDomain) (variables : gmap string (z3_expr z)) f :
    result (z3_expr z) :=
  match f with
  | BoolLiteral b => Ok (z3_bool_val z b)
  | Symbol n => match variables !! n with Some v => Ok v | None => raise KeyError n end
  | EnumEquals n value =>
    match domains !! n with
    | None => raise KeyError n
    | Some d =>
      match list_find (λ v, v = SStr value) (dom_values d) with
      | None => Ok (z3_bool_val z false)
      | Some (index, _) =>
        match variables !! n with
        | Some v => Ok (z3_equals_int z v (Z.of_nat index))
        | None => raise KeyError n
        end
      end
    end
  | FNot f => e ← translate_node domains variables f; Ok (z3_not z e)
  | FAnd l => es ← mapM (translate_node domains variables) l; Ok (z3_and z es)
  | FOr l => es ← mapM (translate_node domains variables) l; Ok (z3_or z es)
  | Implies f g =>
    a ← translate_node domains variables f;
    b ← translate_node domains variables g; Ok (z3_implies z a b)
  | Equivalence f g =>
    a ← translate_node domains variables f;
    b ← translate_node domains variables g; Ok (z3_equals z a b)
  end.

(** One turn of the loop over [universe.domains]. *)
Definition domain_variable d : z3_expr z :=
  if all is_bool (dom_values d) then z3_bool z (dom_symbol d) else z3_int z (dom_symbol d).
Definition domain_constraints d : list (z3_expr z) :=
  let variable := domain_variable d in
  if all is_bool (dom_values d) then
    match dom_values d with
    | [SBool b] => [if b then variable else z3_not z variable]
    | _ => []
    end
  else [z3_or z (map (λ index, z3_equals_int z variable (Z.of_nat index)) (seq 0 (length (dom_values d))))].

Definition translate f u : result Translation :=
  let domains := domain_by_symbol u in
  validate_binding domains f;;
  let variables := by_symbol domain_variable (uni_domains u) in
  let constraints := flat_map domain_constraints (uni_domains u) in
  expression ← translate_node domains variables f;
  Ok (MkTranslation expression constraints variables).

Definition extract_value (m : z3_model z) (t : Translation) d : result (string * Scalar) :=
  variable ← match tr_variables t !! dom_symbol d with
             | Some v => Ok v
             | None => raise KeyError (dom_symbol d)
             end;
  let evaluated := z3_eval z m variable in
  if all is_bool (dom_values d) then Ok (dom_symbol d, SBool (z3_is_true z evaluated))
  else
    index ← z3_as_long z evaluated;
    raise_if ((index <? 0) || (index >=? Z.of_nat (length (dom_values d))))%Z
      ValueError ("model enum value outside domain:" +:+ dom_symbol d);;
    match dom_values d !! Z.to_nat index with
    | Some (SStr s) => Ok (dom_symbol d, SStr s)
    | Some (SBool _) => raise TypeError "validated enum domain unexpectedly contained a non-string"
    | None => raise IndexError "tuple index out of range"
    end.

Definition extract_assignment (m : z3_model z) (t : Translation) u : result Assignment :=
  mapM (extract_value m t) (uni_domains u).

(** The results of an executed check, one per answer of the solver. *)
Definition answered f u (version : string) (t : Translation) (answer : SolverAnswer (z3_model z)) :
    result Z3CheckResult :=
  match answer with
  | solver_sat m =>
    witness ← extract_assignment m t u;
    rechecked ← evaluate f (as_environment witness);
    base_result f u (Some version) EXEC_COMPLETED (Some LOGICAL_SAT)
      (if (rechecked : bool) then VALID else INVALID) WC_NONE (Some witness) (Some rechecked)
      (if (rechecked : bool) then None else Some "independent_witness_check_failed")
  | solver_unsat =>
    base_result f u (Some version) EXEC_COMPLETED (Some LOGICAL_UNSAT) VALID SOLVER_TRUSTED None None None
  | solver_unknown text =>
    let reason := if text ==? "" then "solver_returned_unknown" else text in
    let timed_out := contains "timeout" (lower reason) in
    base_result f u (Some version) (if timed_out then EXEC_TIMEOUT else EXEC_COMPLETED)
      (Some LOGICAL_UNKNOWN) (if timed_out then TIMEOUT else INDETERMINATE) WC_NONE None None (Some reason)
  end.

(** The body of the second [try]: it ends in an answer or in the exception
    that [except Exception] turns into a failure, next to the version known by
    then. *)
Definition execute_query f u (timeout_ms : Z) : option string * result Z3CheckResult :=
  match z3_version z with
  | Raise e => (None, Raise e)
  | Ok version =>
    (Some version,
      t ← translate f u;
      answer ← z3_check z timeout_ms (tr_constraints t ++ [tr_expression t]);
      answered f u version t answer)
  end.

Definition check_with_z3 (i : Z3Import) f u (timeout_ms max_formula_nodes : Z) : result Z3CheckResult :=
  raise_if (timeout_ms <? 1)%Z ValueError "timeout_ms must be positive";;
  raise_if (max_formula_nodes <? 1)%Z ValueError "max_formula_nodes must be positive";;
  if (formula_node_count f >? max_formula_nodes)%Z then
    unsupported_result f u "formula_node_budget_exceeded"
  else
    match (validate_binding (domain_by_symbol u) f;; load_z3 i) with
    | Raise e =>
      if exn_class e ==? UnsupportedTranslation then unsupported_result f u (exn_message e)
      else if exn_class e ==? BackendLoadFailure then load_failed_result f u (exn_message e)
      else Raise e
    | Ok _ =>
      match execute_query f u timeout_ms with
      | (_, Ok r) => Ok r
      | (version, Raise e) => failed_result f u version e
      end
    end.

End backend.

(** ** What the documentation of z3 promises

    [denote i e] is the truth of [e] under an interpretation of the declared
    names.  A satisfying answer comes with a model of all assertions, whose
    completed evaluation reads every name; [unsat] says that no interpretation
    satisfies them.  Nothing is promised about how often z3 answers. *)

Record Interpretation : Type := MkInterpretation { bools : string → bool; ints : string → Z }.

Class Z3Laws (z : Z3Module) : Type := {
  denote : Interpretation → z3_expr z → bool;
  denote_bool_val i b : denote i (z3_bool_val z b) = b;
  denote_bool i n : denote i (z3_bool z n) = bools i n;
  denote_equals_int i n k : denote i (z3_equals_int z (z3_int z n) k) = (ints i n =? k)%Z;
  denote_equals i a b : denote i (z3_equals z a b) = Bool.eqb (denote i a) (denote i b);
  denote_not i a : denote i (z3_not z a) = negb (denote i a);
  denote_and i l : l ≠ [] → denote i (z3_and z l) = forallb (denote i) l;
  denote_or i l : l ≠ [] → denote i (z3_or z l) = existsb (denote i) l;
  denote_implies i a b : denote i (z3_implies z a b) = implb (denote i a) (denote i b);
  sat_model t assertions m : z3_check z t assertions = Ok (solver_sat m) →
    ∃ i, forallb (denote i) assertions = true
         ∧ (∀ n, z3_is_true z (z3_eval z m (z3_bool z n)) = bools i n)
         ∧ (∀ n, z3_as_long z (z3_eval z m (z3_int z n)) = Ok (ints i n));
  unsat_none t assertions i : z3_check z t assertions = Ok solver_unsat →
    forallb (denote i) assertions = false;
}.

(** ** The first pass over the domains *)

Lemma by_symbol_other {A} (value : FiniteDomain → A) ds (m : gmap string A) n :
  n ∉ map dom_symbol ds → foldl (λ (m : gmap string A) d, <[dom_symbol d := value d]> m) m ds !! n = m !! n.
Proof.
  revert m. induction ds as [|d ds IH]; cbn; intros m Hn; [done|].
  apply not_elem_of_cons in Hn as [Hd Hn]. rewrite IH by done. by apply lookup_insert_ne.
Qed.

Lemma by_symbol_lookup {A} (value : FiniteDomain → A) ds d :
  NoDup (map dom_symbol ds) → d ∈ ds → by_symbol value ds !! dom_symbol d = Some (value d).
Proof.
  unfold by_symbol. generalize (∅ : gmap string A). induction ds as [|x ds IH]; intros m Hnd Hin.
  - by apply not_elem_of_nil in Hin.
  - cbn in Hnd |- *. apply NoDup_cons in Hnd as [Hx Hnd]. apply elem_of_cons in Hin as [->|Hin].
    + rewrite by_symbol_other by done. by rewrite lookup_insert_eq.
    + by apply IH.
Qed.

Lemma by_symbol_inv {A} (value : FiniteDomain → A) ds n a :
  by_symbol value ds !! n = Some a → ∃ d, d ∈ ds ∧ dom_symbol d = n ∧ value d = a.
Proof.
  unfold by_symbol.
  enough (∀ m : gmap string A, foldl (λ (m : gmap string A) d, <[dom_symbol d := value d]> m) m ds !! n = Some a →
               m !! n = Some a ∨ ∃ d, d ∈ ds ∧ dom_symbol d = n ∧ value d = a) as G.
  { intros [H|H]%G; [by rewrite lookup_empty in H|done]. }
  induction ds as [|x ds IH]; cbn; intros m H; [by left|].
  apply IH in H as [H|(d & Hd & Hn & Ha)]; [|right; exists d; by rewrite elem_of_cons; auto].
  apply lookup_insert_Some in H as [[Hn Ha]|[_ H]]; [right; exists x; by rewrite elem_of_cons; auto|by left].
Qed.

Section translation.
Context (u : FiniteUniverse) (Hu : validate_universe u = Ok tt)
        (Hd : ∀ d, d ∈ uni_domains u → validate_domain d = Ok tt).

Lemma universe_domain d : d ∈ uni_domains u → domain_by_symbol u !! dom_symbol d = Some d.
Proof. intros H. by apply (by_symbol_lookup id); [apply validate_universe_NoDup|]. Qed.

Lemma domain_values_NoDup d : d ∈ uni_domains u → NoDup (dom_values d).
Proof.
  intros H%Hd. unfold validate_domain in H. rewrite !raise_if_bind, nuniq_false in H. tauto.
Qed.

(** The binding check accepts the well-typed formulas and no others. *)
Lemma bound_kind n kind msg :
  (match domain_by_symbol u !! n with
   | None => raise UnsupportedTranslation ("unbound_symbol:" +:+ n)
   | Some d => raise_if (negb (forallb kind (dom_values d))) UnsupportedTranslation msg
   end = Ok tt) ↔
  existsb (λ d, (dom_symbol d ==? n) && forallb kind (dom_values d)) (uni_domains u) = true.
Proof.
  rewrite any_true. split.
  - destruct (domain_by_symbol u !! n) as [d|] eqn:E; [|done]. intros H%raise_if_ok%negb_false_iff.
    apply (by_symbol_inv id) in E as (d' & Hin & Hn & [= ->]). exists d. split; [done|].
    by rewrite H, bool_decide_true.
  - intros (d & Hin & H). rewrite andb_true_iff, eqb_true in H. destruct H as [<- Hk].
    rewrite (universe_domain d Hin), Hk. done.
Qed.

Lemma validate_binding_typed f : validate_binding (domain_by_symbol u) f = Ok tt ↔ well_typed u f = true.
Proof.
  induction f as [b|n|n v|f IH|l IH|l IH|f g IHf IHg|f g IHf IHg] using Formula_nested_ind;
    cbn [validate_binding well_typed]; rewrite ?seq_ok, ?andb_true_iff; [done| | |done| | |by rewrite IHf, IHg..].
  - apply bound_kind.
  - apply bound_kind.
  - induction IH as [|f l Hf _ IH]; [done|]. cbn [forallb]. by rewrite seq_ok, andb_true_iff, Hf, IH.
  - induction IH as [|f l Hf _ IH]; [done|]. cbn [forallb]. by rewrite seq_ok, andb_true_iff, Hf, IH.
Qed.

Lemma validate_binding_error (domains : gmap string FiniteDomain) f e :
  validate_binding domains f = Raise e → exn_class e = UnsupportedTranslation.
Proof.
  assert (∀ m k : result unit, (m;; k) = Raise e → m = Raise e ∨ k = Raise e) as Hseq.
  { intros [[]|e'] k; cbn; auto. }
  assert (∀ c msg, raise_if c UnsupportedTranslation msg = Raise e → exn_class e = UnsupportedTranslation) as Hr.
  { intros [] msg; [by intros [= <-]|done]. }
  induction f as [b|n|n v|f IH|l IH|l IH|f g IHf IHg|f g IHf IHg] using Formula_nested_ind; cbn [validate_binding].
  - done.
  - destruct (domains !! n); [apply Hr|by intros [= <-]].
  - destruct (domains !! n); [apply Hr|by intros [= <-]].
  - done.
  - induction IH as [|f l Hf _ IH]; [done|]. intros [H|H]%Hseq; auto.
  - induction IH as [|f l Hf _ IH]; [done|]. intros [H|H]%Hseq; auto.
  - intros [H|H]%Hseq; auto.
  - intros [H|H]%Hseq; auto.
Qed.

(** ** Interpretations and environments *)

Section denotation.
Context {z : Z3Module} `{!Z3Laws z}.

(** The value an interpretation gives to a domain's symbol. *)
Definition decode (i : Interpretation) (d : FiniteDomain) : option Scalar :=
  if forallb is_bool (dom_values d) then Some (SBool (bools i (dom_symbol d)))
  else if (0 <=? ints i (dom_symbol d))%Z then dom_values d !! Z.to_nat (ints i (dom_symbol d)) else None.

Definition agree (i : Interpretation) (env : Environment) : Prop :=
  ∀ d, d ∈ uni_domains u → ∃ v, decode i d = Some v ∧ v ∈ dom_values d ∧ env !! dom_symbol d = Some v.

Abbreviation domains := (domain_by_symbol u).
Abbreviation variables := (by_symbol (domain_variable z) (uni_domains u)).

Lemma agree_drawn i env : agree i env → drawn_from u env.
Proof. intros H d Hin. destruct (H d Hin) as (v & _ & ? & ?). eauto. Qed.

Lemma domain_variable_lookup d : d ∈ uni_domains u → variables !! dom_symbol d = Some (domain_variable z d).
Proof. intros H. by apply by_symbol_lookup; [apply validate_universe_NoDup|]. Qed.

(** The constraints of a domain confine its variable to the domain's values. *)
Lemma constraints_decode i d : d ∈ uni_domains u →
  forallb (denote i) (domain_constraints z d) = true ↔ ∃ v, decode i d = Some v ∧ v ∈ dom_values d.
Proof.
  intros Hin. pose proof (domain_values_NoDup d Hin) as Hnd.
  destruct (domain_nonempty u Hd d Hin) as (v0 & vs & Evs).
  unfold domain_constraints, decode, domain_variable.
  destruct (forallb is_bool (dom_values d)) eqn:Hb.
  - rewrite Evs in Hnd, Hb |- *. destruct v0 as [b|s]; [|done].
    transitivity (SBool (bools i (dom_symbol d)) ∈ SBool b :: vs); [|naive_solver].
    destruct vs as [|[b'|s] vs]; [| |done].
    + destruct b; cbn; rewrite ?denote_not, denote_bool, andb_true_r, list_elem_of_singleton;
        by destruct (bools i (dom_symbol d)).
    + split; [|done]. intros _. assert (b ≠ b') as Hbb.
      { intros ->. apply NoDup_cons in Hnd as [[]%not_elem_of_cons _]. done. }
      rewrite !elem_of_cons. destruct b, b', (bools i (dom_symbol d)); auto; done.
  - cbn [forallb]. rewrite andb_true_r, denote_or, any_true by (rewrite Evs; done).
    split.
    + intros (e & (k & Hk & ->)%elem_of_map & He). rewrite denote_equals_int in He.
      apply Z.eqb_eq in He. rewrite He. apply elem_of_seq in Hk.
      destruct (dom_values d !! k) as [v|] eqn:Ev; [|apply lookup_ge_None in Ev; lia].
      exists v. replace (0 <=? Z.of_nat k)%Z with true by lia. rewrite Nat2Z.id.
      split; [done|]. by eapply list_elem_of_lookup_2.
    + intros (v & H & _). destruct (0 <=? _)%Z eqn:E0; [|done].
      exists (z3_equals_int z (z3_int z (dom_symbol d)) (Z.of_nat (Z.to_nat (ints i (dom_symbol d))))).
      rewrite denote_equals_int. split; [|apply Z.eqb_eq; lia].
      apply elem_of_map. eexists. split; [|done]. apply elem_of_seq.
      apply lookup_lt_Some in H. lia.
Qed.

(** Every environment drawn from the universe is the reading of an interpretation. *)
Definition encode (env : Environment) : Interpretation :=
  MkInterpretation
    (λ n, match env !! n with Some (SBool b) => b | _ => false end)
    (λ n, match domains !! n, env !! n with
          | Some d, Some v => match list_find (λ w, w = v) (dom_values d) with
                              | Some (k, _) => Z.of_nat k | None => 0
                              end
          | _, _ => 0
          end)%Z.

Lemma encode_agree env : drawn_from u env → agree (encode env) env.
Proof.
  intros He d Hin. destruct (He d Hin) as (v & Hv & Ev). exists v. split; [|done].
  unfold decode. cbn. rewrite (universe_domain d Hin), Ev.
  destruct (forallb is_bool (dom_values d)) eqn:Hb.
  - rewrite all_true in Hb. specialize (Hb v Hv). by destruct v.
  - destruct (list_find (λ w, w = v) (dom_values d)) as [[k w]|] eqn:Ef.
    + apply list_find_Some in Ef as (Hk & -> & _). rewrite (proj2 (Z.leb_le 0 (Z.of_nat k))) by apply Nat2Z.is_nonneg.
      by rewrite Nat2Z.id.
    + apply list_find_None in Ef. rewrite Forall_forall in Ef. by destruct (Ef v Hv).
Qed.

(** The translated operands of a conjunction or disjunction, one by one. *)
Lemma translate_list (l : list Formula) i env :
  Forall (λ f, ∃ e, translate_node z domains variables f = Ok e ∧ evaluate f env = Ok (denote i e)) l →
  ∃ es, mapM (translate_node z domains variables) l = Ok es ∧ length es = length l
        ∧ all_of (λ f, evaluate f env) l = Ok (forallb (denote i) es)
        ∧ any_of (λ f, evaluate f env) l = Ok (existsb (denote i) es).
Proof.
  induction 1 as [|f l (e & He & Ee) _ (es & Hes & Hlen & Ha & Ho)]; [by exists []|].
  exists (e :: es). cbn. rewrite He, Ee. cbn. rewrite Hes. cbn. rewrite Ha, Ho, Hlen.
  by destruct (denote i e).
Qed.

(** A well-typed formula translates, and its translation denotes its value. *)
Lemma translate_node_denotes f i env :
  formula_valid f = true → well_typed u f = true → agree i env →
  ∃ e, translate_node z domains variables f = Ok e ∧ evaluate f env = Ok (denote i e).
Proof.
  intros Hv Ht Hag. induction f as [b|n|n v|f IH|l IH|l IH|f g IHf IHg|f g IHf IHg] using Formula_nested_ind;
    cbn [formula_valid well_typed] in Hv, Ht; cbn [translate_node evaluate].
  - eexists. split; [done|]. by rewrite denote_bool_val.
  - apply any_true in Ht as (d & Hin & Ht). rewrite andb_true_iff, eqb_true in Ht. destruct Ht as [<- Hb].
    rewrite (domain_variable_lookup d Hin). eexists. split; [done|].
    destruct (Hag d Hin) as (v & Hdec & _ & Ev). rewrite Ev. unfold decode in Hdec. rewrite Hb in Hdec.
    injection Hdec as <-. unfold domain_variable. by rewrite Hb, denote_bool.
  - apply any_true in Ht as (d & Hin & Ht). rewrite andb_true_iff, eqb_true in Ht. destruct Ht as [<- Hs].
    rewrite (universe_domain d Hin), (domain_variable_lookup d Hin).
    destruct (Hag d Hin) as (w & Hdec & Hw & Ev). rewrite Ev.
    destruct (domain_nonempty u Hd d Hin) as (v0 & vs & Evs).
    assert (forallb is_bool (dom_values d) = false) as Hb.
    { rewrite Evs in Hs |- *. cbn in Hs |- *. by destruct (is_bool v0). }
    rewrite all_true in Hs. pose proof (Hs w Hw) as Hws. destruct w as [?|w]; [done|].
    unfold decode in Hdec. rewrite Hb in Hdec. destruct (0 <=? _)%Z eqn:E0; [|done].
    unfold domain_variable. rewrite Hb.
    destruct (list_find (λ w, w = SStr v) (dom_values d)) as [[k w']|] eqn:Ef; eexists; (split; [done|]).
    + apply list_find_Some in Ef as (Hk & -> & _). rewrite denote_equals_int. f_equal.
      apply Bool.eq_iff_eq_true. rewrite bool_decide_eq_true, Z.eqb_eq.
      split.
      * intros ->. pose proof (NoDup_lookup _ _ _ _ (domain_values_NoDup d Hin) Hdec Hk) as Hidx.
        apply Z.leb_le in E0. lia.
      * intros E. rewrite E, Nat2Z.id, Hk in Hdec. by injection Hdec as <-.
    + rewrite denote_bool_val. f_equal. apply bool_decide_eq_false. intros ->.
      apply list_find_None in Ef. rewrite Forall_forall in Ef. by destruct (Ef (SStr v) Hw).
  - destruct (IH Hv Ht) as (e & -> & ->). cbn. eexists. split; [done|]. by rewrite denote_not.
  - destruct (translate_list l i env) as (es & -> & Hlen & Ha & _).
    { destruct l as [|x l]; [done|]. rewrite Forall_forall in IH |- *. rewrite all_true in Hv, Ht. auto. }
    cbn. eexists. split; [done|]. rewrite denote_and; [done|]. by destruct l, es.
  - destruct (translate_list l i env) as (es & -> & Hlen & _ & Ho).
    { destruct l as [|x l]; [done|]. rewrite Forall_forall in IH |- *. rewrite all_true in Hv, Ht. auto. }
    cbn. eexists. split; [done|]. rewrite denote_or; [done|]. by destruct l, es.
  - apply andb_true_iff in Hv as [? ?], Ht as [? ?].
    destruct IHf as (a & -> & ->), IHg as (b & Eb & Eg); [done..|]. cbn. rewrite Eb, Eg. cbn.
    eexists. split; [done|]. rewrite denote_implies. by destruct (denote i a).
  - apply andb_true_iff in Hv as [? ?], Ht as [? ?].
    destruct IHf as (a & -> & ->), IHg as (b & Eb & Eg); [done..|]. cbn. rewrite Eb, Eg. cbn.
    eexists. split; [done|]. by rewrite denote_equals.
Qed.

(** ** Queries and answers *)

Lemma translate_ok f : formula_valid f = true → well_typed u f = true →
  ∃ e, translate z f u = Ok (MkTranslation z e (flat_map (domain_constraints z) (uni_domains u)) variables)
       ∧ ∀ i env, agree i env → evaluate f env = Ok (denote i e).
Proof.
  intros Hv Ht.
  destruct (translate_node_denotes f _ _ Hv Ht (encode_agree _ (first_environment_drawn u Hu Hd))) as (e & He & _).
  exists e. split.
  - unfold translate. rewrite (proj2 (validate_binding_typed f)) by done. cbn. by rewrite He.
  - intros i env Hag. destruct (translate_node_denotes f i env Hv Ht Hag) as (e' & He' & ->).
    rewrite He in He'. by injection He' as ->.
Qed.

Lemma constraints_all i :
  forallb (denote i) (flat_map (domain_constraints z) (uni_domains u)) = true ↔
  ∀ d, d ∈ uni_domains u → ∃ v, decode i d = Some v ∧ v ∈ dom_values d.
Proof.
  transitivity (∀ d, d ∈ uni_domains u → forallb (denote i) (domain_constraints z d) = true).
  - setoid_rewrite all_true. setoid_rewrite elem_of_flat_map. naive_solver.
  - split; intros H d Hin; [by apply constraints_decode; auto|by apply constraints_decode; auto].
Qed.

(** A model that satisfies the constraints reads back as one of the
    universe's assignments. *)
Section model.
Context (i : Interpretation) (m : z3_model z) (e : z3_expr z) (cs : list (z3_expr z)).
Hypothesis Hb : ∀ n, z3_is_true z (z3_eval z m (z3_bool z n)) = bools i n.
Hypothesis Hi : ∀ n, z3_as_long z (z3_eval z m (z3_int z n)) = Ok (ints i n).
Hypothesis Hdec : ∀ d, d ∈ uni_domains u → ∃ v, decode i d = Some v ∧ v ∈ dom_values d.

Lemma extract_value_ok d v : d ∈ uni_domains u → decode i d = Some v → v ∈ dom_values d →
  extract_value z m (MkTranslation z e cs variables) d = Ok (dom_symbol d, v).
Proof.
  intros Hin Hv Hm. unfold extract_value. cbn [tr_variables]. rewrite (domain_variable_lookup d Hin). cbn.
  unfold decode in Hv. unfold domain_variable. destruct (forallb is_bool (dom_values d)) eqn:Hk.
  - injection Hv as <-. by rewrite Hb.
  - rewrite Hi. cbn. destruct (0 <=? ints i (dom_symbol d))%Z eqn:E0; [|done]. apply Z.leb_le in E0.
    pose proof (lookup_lt_Some _ _ _ Hv) as Hlt.
    replace (_ || _)%bool with false by lia. cbn. rewrite Hv.
    destruct (domain_uniform u Hd d Hin) as [Hu'|Hs]; [by rewrite Hu' in Hk|].
    rewrite all_true in Hs. specialize (Hs v Hm). by destruct v.
Qed.

Lemma extract_list ds : (∀ d, d ∈ ds → d ∈ uni_domains u) →
  ∃ vs, mapM (extract_value z m (MkTranslation z e cs variables)) ds = Ok (zip (map dom_symbol ds) vs)
        ∧ Forall2 (λ d v, decode i d = Some v ∧ v ∈ dom_values d) ds vs.
Proof.
  induction ds as [|d ds IH]; intros Hsub; [by exists []|].
  destruct IH as (vs & Hx & Hvs); [intros d' H; apply Hsub; by right|].
  assert (d ∈ uni_domains u) as Hin by (apply Hsub; left). destruct (Hdec d Hin) as (v & Hv & Hm).
  exists (v :: vs). split; [|by constructor]. cbn [mapM map]. rewrite (extract_value_ok d v) by done.
  cbn. by rewrite Hx.
Qed.

Lemma extract_ok :
  ∃ a, extract_assignment z m (MkTranslation z e cs variables) u = Ok a
       ∧ a ∈ enumerate_assignments u ∧ agree i (as_environment a).
Proof.
  destruct (extract_list (uni_domains u)) as (vs & Hx & Hvs); [done|].
  exists (zip (map dom_symbol (uni_domains u)) vs). split; [done|].
  pose proof (Forall2_length _ _ _ Hvs) as Hlen. split.
  - unfold enumerate_assignments. apply elem_of_map. exists vs. split; [|done]. apply elem_of_product.
    clear -Hvs. induction Hvs as [|d v ds vs [_ H] _ IH]; cbn; constructor; auto.
  - intros d Hin. apply list_elem_of_lookup in Hin as (k & Hk).
    destruct (Forall2_lookup_l _ _ _ _ _ Hvs Hk) as (v & Hkv & Hv & Hm). exists v. split; [done|]. split; [done|].
    apply as_environment_zip; [by apply validate_universe_NoDup|by rewrite length_map|].
    apply (list_elem_of_lookup_2 _ k). rewrite lookup_zip_with, list_lookup_fmap, Hk. cbn.
    by rewrite Hkv.
Qed.
End model.

(** A sound answer is the answer of the evaluator. *)
Lemma answered_sound f e timeout version answer :
  (∀ i env, agree i env → evaluate f env = Ok (denote i e)) →
  let t := MkTranslation z e (flat_map (domain_constraints z) (uni_domains u)) variables in
  z3_check z timeout (tr_constraints z t ++ [e]) = Ok answer →
  match answer with
  | solver_sat _ => ∃ a, a ∈ enumerate_assignments u ∧ evaluate f (as_environment a) = Ok true
      ∧ answered z f u version t answer
        = base_result f u (Some version) EXEC_COMPLETED (Some LOGICAL_SAT) VALID WC_NONE (Some a) (Some true) None
  | solver_unsat => ∀ env, drawn_from u env → evaluate f env = Ok false
  | solver_unknown _ => True
  end.
Proof.
  intros He t Hz. destruct answer as [m| |reason]; [| |done].
  - destruct (sat_model _ _ _ Hz) as (i & Hall & Hb & Hi).
    rewrite forallb_app, andb_true_iff in Hall. destruct Hall as [Hc Hf].
    cbn [tr_constraints t] in Hc. rewrite constraints_all in Hc.
    destruct (extract_ok i m e (flat_map (domain_constraints z) (uni_domains u)) Hb Hi Hc) as (a & Ha & Hin & Hag).
    cbn in Hf. rewrite andb_true_r in Hf.
    exists a. rewrite (He i _ Hag), Hf. split; [done|]. split; [done|].
    unfold answered. unfold t. rewrite Ha. cbn. rewrite (He i _ Hag), Hf. done.
  - intros env Henv. rewrite (He _ _ (encode_agree env Henv)). f_equal.
    pose proof (unsat_none _ _ (encode env) Hz) as H. rewrite forallb_app in H. cbn in H.
    rewrite andb_true_r in H. apply andb_false_iff in H as [H|H]; [|done].
    exfalso. rewrite (proj2 (constraints_all (encode env))) in H; [done|].
    intros d Hin. destruct (encode_agree env Henv d Hin) as (v & ? & ? & _). eauto.
Qed.
End denotation.
End translation.

(** ** The backend's answers *)

Definition logical_of {M} (answer : SolverAnswer M) : LogicalResult :=
  match answer with
  | solver_sat _ => LOGICAL_SAT | solver_unsat => LOGICAL_UNSAT | solver_unknown _ => LOGICAL_UNKNOWN
  end.

(** What a result without a logical answer carries. *)
Definition not_executed (m : result Z3CheckResult) : Prop :=
  ∃ r, m = Ok r ∧ zr_logical_result r = None ∧ zr_warrant_class r = WC_NONE.

Lemma unsupported_not_executed f u s : not_executed (unsupported_result f u s).
Proof. by eexists. Qed.
Lemma load_failed_not_executed f u s : not_executed (load_failed_result f u s).
Proof. by eexists. Qed.
Lemma failed_not_executed f u v e : not_executed (failed_result f u v e).
Proof. by eexists. Qed.

Lemma assignment_count_positive u :
  validate_universe u = Ok tt → (∀ d, d ∈ uni_domains u → validate_domain d = Ok tt) →
  (1 ≤ assignment_count u)%Z.
Proof.
  intros Hu Hd.
  destruct (enumerate_complete u (validate_universe_NoDup u Hu) _ (first_environment_drawn u Hu Hd)) as (a & Ha & _).
  rewrite <-length_enumerate_assignments. destruct (enumerate_assignments u); [by apply not_elem_of_nil in Ha|].
  cbn. lia.
Qed.

(** The exhaustive checker's verdict on a formula with a true assignment, and
    on one that is false everywhere. *)
Lemma exhaustive_verdict u f :
  validate_universe u = Ok tt → (∀ d, d ∈ uni_domains u → validate_domain d = Ok tt) → well_typed u f = true →
  ∃ e, exhaustive_check f u (assignment_count u) = Ok e
       ∧ ((∃ a, a ∈ enumerate_assignments u ∧ evaluate f (as_environment a) = Ok true) → res_verdict e = SAT)
       ∧ ((∀ env, drawn_from u env → evaluate f env = Ok false) → res_verdict e = UNSAT).
Proof.
  intros Hu Hd Ht.
  destruct (exhaustive_check_complete f u (assignment_count u) Hu Ht (assignment_count_positive u Hu Hd))
    as (e & He & Hs); [lia|].
  exists e. split; [done|]. unfold verdict_sound in Hs. destruct (res_verdict e).
  - split; [done|]. intros H. destruct Hs as (a & _ & _ & Hdr & Ha). rewrite (H _ Hdr) in Ha. done.
  - split; [|done]. intros (a & Ha & Et). destruct Hs as (_ & _ & Hf).
    rewrite (Hf _ (enumerate_sound u (validate_universe_NoDup u Hu) a Ha)) in Et. done.
  - done.
Qed.

(** What the result of one query promises. *)
Definition agrees (f : Formula) (u : FiniteUniverse) (r : Z3CheckResult) : Prop :=
  match zr_logical_result r with
  | Some LOGICAL_SAT =>
    ∃ a, zr_witness r = Some a ∧ zr_witness_rechecked r = Some true ∧ zr_warrant_class r = WC_NONE
         ∧ a ∈ enumerate_assignments u ∧ evaluate f (as_environment a) = Ok true
         ∧ ∃ e, exhaustive_check f u (assignment_count u) = Ok e ∧ res_verdict e = SAT
  | Some LOGICAL_UNSAT =>
    zr_warrant_class r = SOLVER_TRUSTED
    ∧ ∃ e, exhaustive_check f u (assignment_count u) = Ok e ∧ res_verdict e = UNSAT
  | _ => zr_warrant_class r = WC_NONE
  end.

Lemma not_executed_agrees f u m : not_executed m → ∃ r, m = Ok r ∧ agrees f u r ∧ zr_logical_result r = None.
Proof. intros (r & -> & Hl & Hw). exists r. split; [done|]. split; [|done]. unfold agrees. by rewrite Hl. Qed.

Lemma answered_agrees {z} `{!Z3Laws z} u f e timeout version answer :
  validate_universe u = Ok tt → (∀ d, d ∈ uni_domains u → validate_domain d = Ok tt) → well_typed u f = true →
  (∀ i env, agree u i env → evaluate f env = Ok (denote i e)) →
  let t := MkTranslation z e (flat_map (domain_constraints z) (uni_domains u))
             (by_symbol (domain_variable z) (uni_domains u)) in
  z3_check z timeout (tr_constraints z t ++ [e]) = Ok answer →
  ∃ r, answered z f u version t answer = Ok r ∧ agrees f u r ∧ zr_logical_result r = Some (logical_of answer).
Proof.
  intros Hu Hd Ht He t Hz. pose proof (answered_sound u Hu Hd f e timeout version answer He Hz) as H.
  subst t. destruct (exhaustive_verdict u f Hu Hd Ht) as (x & Hx & Hsat & Hunsat). destruct answer as [m| |reason].
  - destruct H as (a & Ha & Et & ->). eexists. split; [done|]. split; [|done]. exists a. split_and!; try done.
    exists x. split; [done|]. apply Hsat. eauto.
  - eexists. split; [done|]. split; [|done]. split; [done|]. exists x. auto.
  - unfold answered. destruct (contains "timeout" _); eexists; (split; [done|]); done.
Qed.

(** The answer of an installed z3 is passed on as it is. *)
Definition passes_on (z : Z3Module) (import : Z3Import) (f : Formula) (u : FiniteUniverse)
    (timeout_ms max_formula_nodes : Z) (r : Z3CheckResult) : Prop :=
  ∀ version t answer,
    import = z3_imported → z3_version z = Ok version → (formula_node_count f ≤ max_formula_nodes)%Z →
    translate z f u = Ok t →
    z3_check z timeout_ms (tr_constraints z t ++ [tr_expression z t]) = Ok answer →
    zr_logical_result r = Some (logical_of answer).

Lemma not_executed_outcome (P : Z3CheckResult → Prop) f u m :
  not_executed m → (∀ r, P r) →
  ∃ r, m = Ok r ∧ agrees f u r ∧ (well_typed u f = false → zr_logical_result r = None) ∧ P r.
Proof. intros (r & -> & ? & ?)%(not_executed_agrees f u) HP. by exists r. Qed.

(** C30: The optional solver can only repeat what the exhaustive checker says.
    Over a valid universe [check_with_z3] always returns a result; if it says
    SAT its witness is one of the universe's assignments, evaluates to true and
    carries no warrant, if it says UNSAT the warrant is solver-trusted, and
    either way the exhaustive checker reaches the same verdict.  An ill-typed
    formula gets no logical answer, and an answer of an installed z3 is passed
    on as it is.  All this rests on the documented soundness of z3 only. *)
Theorem z3_answers_agree (z : Z3Module) `{!Z3Laws z} import f u timeout_ms max_formula_nodes :
  validate_universe u = Ok tt → (∀ d, d ∈ uni_domains u → validate_domain d = Ok tt) →
  formula_valid f = true → (1 ≤ timeout_ms)%Z → (1 ≤ max_formula_nodes)%Z →
  ∃ r, check_with_z3 z import f u timeout_ms max_formula_nodes = Ok r
       ∧ agrees f u r
       ∧ (well_typed u f = false → zr_logical_result r = None)
       ∧ passes_on z import f u timeout_ms max_formula_nodes r.
Proof.
  intros Hu Hd Hv Ht Hn. unfold check_with_z3.
  rewrite (proj2 (Z.ltb_ge _ _) Ht), (proj2 (Z.ltb_ge _ _) Hn). cbn [raise_if mbind result_bind].
  destruct (formula_node_count f >? max_formula_nodes)%Z eqn:Hc.
  { apply not_executed_outcome; [apply unsupported_not_executed|]. intros r v t answer; lia. }
  destruct (validate_binding (domain_by_symbol u) f) as [[]|e] eqn:Hb; cbn [mbind result_bind].
  2: { rewrite (validate_binding_error _ _ _ Hb), bool_decide_true by done.
       apply not_executed_outcome; [apply unsupported_not_executed|].
       intros r v t answer _ _ _ Htr. unfold translate in Htr. by rewrite Hb in Htr. }
  apply (validate_binding_typed u Hu) in Hb.
  destruct import as [| |name message]; cbn [load_z3].
  2: { apply not_executed_outcome; [apply unsupported_not_executed|by intros r v t answer]. }
  2: { apply not_executed_outcome; [apply load_failed_not_executed|by intros r v t answer]. }
  unfold execute_query. destruct (z3_version z) as [version|x] eqn:Hver.
  2: { apply not_executed_outcome; [apply failed_not_executed|]. intros r v t answer _ Hv'. by rewrite Hver in Hv'. }
  destruct (translate_ok u Hu Hd f Hv Hb) as (e & He & Hden). rewrite He.
  cbn [mbind result_bind tr_constraints tr_expression].
  destruct (z3_check z timeout_ms _) as [answer|x] eqn:Hz; cbn [mbind result_bind].
  - destruct (answered_agrees u f e timeout_ms version answer Hu Hd Hb Hden Hz) as (r & -> & Hag & Hl).
    exists r. split_and!; [done|done|by rewrite Hb|]. intros v t answer' _ _ _ Htr Hz'.
    rewrite He in Htr. injection Htr as <-. cbn in Hz'. rewrite Hz in Hz'. by injection Hz' as <-.
  - apply not_executed_outcome; [apply failed_not_executed|]. intros r v t answer _ _ _ Htr Hz'.
    rewrite He in Htr. injection Htr as <-. cbn in Hz'. by rewrite Hz in Hz'.
Qed.

(** ** A small solver that keeps the promises

    Expressions as trees; the solver tries two interpretations, recognises
    assertions that are literally false, and gives up otherwise. *)

Inductive Expr : Type :=
| EBool (b : bool) | ENum (k : Z) | EBoolName (n : string) | EIntName (n : string)
| EEqualsInt (e : Expr) (k : Z) | EEquals (a b : Expr) | ENot (e : Expr)
| EAnd (l : list Expr) | EOr (l : list Expr) | EImplies (a b : Expr).

Fixpoint truth (i : Interpretation) (e : Expr) : bool :=
  match e with
  | EBool b => b
  | EBoolName n => bools i n
  | EEqualsInt (EIntName n) k => (ints i n =? k)%Z
  | EEquals a b => Bool.eqb (truth i a) (truth i b)
  | ENot e => negb (truth i e)
  | EAnd l => forallb (truth i) l
  | EOr l => existsb (truth i) l
  | EImplies a b => implb (truth i a) (truth i b)
  | _ => false
  end.

Definition falsum (e : Expr) : bool := match e with EBool b => negb b | _ => false end.
Definition refuted (e : Expr) : bool :=
  match e with EAnd l => existsb falsum l | _ => falsum e end.

Definition candidates : list Interpretation :=
  [MkInterpretation (λ _, true) (λ _, 0%Z); MkInterpretation (λ _, false) (λ _, 0%Z)].

Definition small_z3 : Z3Module := {|
  z3_expr := Expr; z3_model := Interpretation; z3_version := Ok "4.13.0";
  z3_bool_val := EBool; z3_bool := EBoolName; z3_int := EIntName; z3_equals_int := EEqualsInt;
  z3_equals := EEquals; z3_not := ENot; z3_and := EAnd; z3_or := EOr; z3_implies := EImplies;
  z3_check := λ _ assertions,
    match find (λ i, forallb (truth i) assertions) candidates with
    | Some i => Ok (solver_sat i)
    | None => Ok (if existsb refuted assertions then solver_unsat else solver_unknown "incomplete")
    end;
  z3_eval := λ m e, match e with
                    | EBoolName n => EBool (bools m n) | EIntName n => ENum (ints m n) | _ => e
                    end;
  z3_is_true := λ e, match e with EBool b => b | _ => false end;
  z3_as_long := λ e, match e with ENum k => Ok k | _ => raise Z3Exception "not a numeral" end;
|}.

Lemma falsum_false i e : falsum e = true → truth i e = false.
Proof. by destruct e as [[]| | | | | | | | |]. Qed.

Lemma refuted_false i e : refuted e = true → truth i e = false.
Proof.
  destruct e as [b| | | | | | |l| |]; try done; [apply (falsum_false i (EBool b))|]. cbn.
  induction l as [|x l IH]; [done|]. cbn. intros [H|H]%orb_true_iff; [by rewrite (falsum_false i x H)|].
  rewrite IH by done. apply andb_false_r.
Qed.

#[export] Instance small_z3_laws : Z3Laws small_z3.
Proof.
  refine (Build_Z3Laws small_z3 truth _ _ _ _ _ _ _ _ _ _); try done.
  - intros t assertions m H. cbn [z3_check small_z3 z3_model] in H. destruct (find _ candidates) as [i|] eqn:E.
    + injection H as <-. apply find_some in E as [_ E]. eauto.
    + by destruct (existsb refuted assertions).
  - intros t assertions i H. cbn [z3_check small_z3 z3_model] in H. destruct (find _ candidates); [done|].
    destruct (existsb refuted assertions) eqn:E; [|done]. clear H.
    induction assertions as [|e l IH]; [done|]. cbn in E. change (truth i e && forallb (truth i) l = false). apply orb_true_iff in E as [E|E].
    + by rewrite (refuted_false i e E).
    + destruct (truth i e); [exact (IH E)|done].
Defined.

Lemma z3_answers_agree_witness :
  (∃ r, check_with_z3 small_z3 z3_imported lamp_formula circuit_universe 5000 2048 = Ok r
        ∧ agrees lamp_formula circuit_universe r ∧ zr_logical_result r = Some LOGICAL_SAT)
  ∧ (∃ r, check_with_z3 small_z3 z3_imported (FAnd [Symbol "main_power"; BoolLiteral false]) circuit_universe 5000 2048 = Ok r
        ∧ agrees (FAnd [Symbol "main_power"; BoolLiteral false]) circuit_universe r
        ∧ zr_logical_result r = Some LOGICAL_UNSAT).
Proof.
  assert (∀ d, d ∈ uni_domains circuit_universe → validate_domain d = Ok tt) as Hd.
  { apply Forall_forall. repeat constructor. }
  split.
  - destruct (z3_answers_agree small_z3 z3_imported lamp_formula circuit_universe 5000 2048 eq_refl Hd eq_refl)
      as (r & Hr & Ha & _ & Hp); [done..|].
    exists r. split; [done|]. split; [done|]. refine (Hp _ _ (solver_sat _) eq_refl eq_refl _ eq_refl eq_refl). by vm_compute.
  - destruct (z3_answers_agree small_z3 z3_imported (FAnd [Symbol "main_power"; BoolLiteral false])
                circuit_universe 5000 2048 eq_refl Hd eq_refl)
      as (r & Hr & Ha & _ & Hp); [done..|].
    exists r. split; [done|]. split; [done|]. refine (Hp _ _ solver_unsat eq_refl eq_refl _ eq_refl eq_refl). by vm_compute.
Defined.
