(* ===== verification/Routes.v ===== *)
(** * The route binding: [src/rci/bindings/routes.py]

    A finite transition graph, the breadth-first enumeration of its simple
    routes and of its maximal acyclic executions, and the two-route
    demonstration.  The [while queue] loops run on fuel; [fuel_of] bounds the
    number of paths a loop can take from its queue, and the theorems show that
    it never runs out. *)

From S2P Require Import Prelude Digest Model.

Record RouteEdge : Type := MkRouteEdge { edge_source : string; edge_target : string }.
#[export] Instance RouteEdge_eq_dec : EqDecision RouteEdge.
Proof. solve_decision. Defined.

Definition validate_edge (e : RouteEdge) : result unit :=
  raise_if (is_empty (edge_source e) || is_empty (edge_target e))
    ValidationError "route edge endpoints are required".

Record RouteGraph : Type := MkRouteGraph {
  graph_id : string;
  graph_revision : string;
  nodes : list string;
  edges : list RouteEdge;
  start : string;
  goal : string;
  graph_closed_world : bool;
}.

Definition edge_key (e : RouteEdge) : string * string := (edge_source e, edge_target e).

Definition validate_graph (g : RouteGraph) : result unit :=
  raise_if (negb (uniq (nodes g))) ValidationError "route graph nodes must be unique";;
  raise_if (negb (mem (start g) (nodes g)) || negb (mem (goal g) (nodes g)))
    ValidationError "route start and goal must be declared nodes";;
  raise_if (any (λ e, negb (mem (edge_source e) (nodes g)) || negb (mem (edge_target e) (nodes g))) (edges g))
    ValidationError "route edges must connect declared nodes";;
  raise_if (negb (uniq (map edge_key (edges g)))) ValidationError "route graph edges must be unique".

(** [{node: [] for node in graph.nodes}], then one [append] per edge, then a
    sort of every list. *)
Abbreviation Adjacency := (gmap string (list string)).

Definition add_edge (m : result Adjacency) (e : RouteEdge) : result Adjacency :=
  adjacency ← m;
  match adjacency !! edge_source e with
  | Some l => Ok (<[edge_source e := l ++ [edge_target e]]> adjacency)
  | None => raise KeyError (edge_source e)
  end.

Definition adjacency_of (g : RouteGraph) : result Adjacency :=
  let empty : Adjacency := list_to_map (map (λ n, (n, [])) (nodes g)) in
  adjacency ← (foldl add_edge (Ok empty) (edges g) : result Adjacency);
  Ok (fmap (M := gmap string) sorted adjacency).

(** [adjacency[path[-1]]] *)
Definition adjacent (adjacency : Adjacency) (path : list string) : result (list string) :=
  match last path with
  | None => raise IndexError "tuple index out of range"
  | Some tail => match adjacency !! tail with
                 | Some l => Ok l
                 | None => raise KeyError tail
                 end
  end.

(** The paths a loop can still take when [depth] nodes are left to visit. *)
Fixpoint paths_bound (branching depth : nat) : nat :=
  match depth with O => 1 | S depth => 1 + branching * paths_bound branching depth end.
Definition fuel_of (g : RouteGraph) : nat := S (paths_bound (length (edges g)) (length (nodes g))).

Fixpoint simple_routes_loop (fuel : nat) (g : RouteGraph) (adjacency : Adjacency)
    (queue routes : list (list string)) : result (list (list string)) :=
  match fuel with
  | O => raise RuntimeError "out of fuel"
  | S fuel =>
    match queue with
    | [] => Ok routes
    | path :: queue =>
      if last path ==? Some (goal g) then simple_routes_loop fuel g adjacency queue (routes ++ [path])
      else
        successors ← adjacent adjacency path;
        simple_routes_loop fuel g adjacency
          (queue ++ map (λ successor, path ++ [successor])
                      (List.filter (λ successor, negb (mem successor path)) successors)) routes
    end
  end.

Definition enumerate_simple_routes (g : RouteGraph) : result (list (list string)) :=
  adjacency ← adjacency_of g;
  simple_routes_loop (fuel_of g) g adjacency [[start g]] [].

Fixpoint maximal_loop (fuel : nat) (g : RouteGraph) (adjacency : Adjacency)
    (queue maximal : list (list string)) : result (list (list string)) :=
  match fuel with
  | O => raise RuntimeError "out of fuel"
  | S fuel =>
    match queue with
    | [] => Ok maximal
    | path :: queue =>
      here ← adjacent adjacency path;
      let successors := List.filter (λ node, negb (mem node path)) here in
      if successors ==? [] then maximal_loop fuel g adjacency queue (maximal ++ [path])
      else maximal_loop fuel g adjacency (queue ++ map (λ successor, path ++ [successor]) successors) maximal
    end
  end.

Definition enumerate_maximal_executions (g : RouteGraph) : result (list (list string)) :=
  adjacency ← adjacency_of g;
  maximal_loop (fuel_of g) g adjacency [[start g]] [].

Record RouteDemonstration : Type := MkRouteDemonstration {
  rd_graph : RouteGraph;
  proposed_prerequisite : string;
  routes : list (list string);
  maximal_executions : list (list string);
  bypass_route : option (list string);
  may_reach : bool;
  must_reach : bool;
  must_pass_prerequisite : bool;
  control_promoted : bool;
}.

Definition expected_route_findings_hold (d : RouteDemonstration) : bool :=
  may_reach d && negb (must_reach d) && negb (must_pass_prerequisite d) && negb (control_promoted d)
  && match bypass_route d with Some route => negb (mem (proposed_prerequisite d) route) | None => false end.

Definition reference_route_graph : RouteGraph :=
  MkRouteGraph "two-route-transition-graph" "1" ["bypass"; "dead_end"; "gate"; "start"; "target"]
    [MkRouteEdge "bypass" "dead_end"; MkRouteEdge "bypass" "target"; MkRouteEdge "gate" "target";
     MkRouteEdge "start" "bypass"; MkRouteEdge "start" "gate"] "start" "target" true.

Definition demonstrate_routes (g : RouteGraph) (prerequisite : string) : result RouteDemonstration :=
  routes ← enumerate_simple_routes g;
  maximal ← enumerate_maximal_executions g;
  Ok (MkRouteDemonstration g prerequisite routes maximal
        (first (λ route, negb (mem prerequisite route)) routes)
        (routes !=? [])
        ((maximal !=? []) && all (λ execution, last execution ==? Some (goal g)) maximal)
        ((routes !=? []) && all (λ route, mem prerequisite route) routes)
        false).

Definition route_demonstration : result RouteDemonstration :=
  validate_graph reference_route_graph;; demonstrate_routes reference_route_graph "gate".

(** ** Walks *)

Definition edge (g : RouteGraph) (n m : string) : Prop := MkRouteEdge n m ∈ edges g.

(** A path from the start that follows edges and visits no node twice. *)
Inductive walk (g : RouteGraph) : list string → Prop :=
| walk_start : walk g [start g]
| walk_step path n m : walk g path → last path = Some n → edge g n m → m ∉ path → walk g (path ++ [m]).

Definition simple_route (g : RouteGraph) (path : list string) : Prop :=
  walk g path ∧ last path = Some (goal g).

Definition maximal_execution (g : RouteGraph) (path : list string) : Prop :=
  walk g path ∧ ∀ n m, last path = Some n → edge g n m → m ∈ path.

Lemma walk_nonempty g path : walk g path → ∃ n, last path = Some n.
Proof. intros [|p n m]; [by eexists|]. exists m. apply last_snoc. Qed.

Lemma walk_NoDup g path : walk g path → NoDup path.
Proof.
  induction 1 as [|p n m _ IH _ _ Hm]; [apply NoDup_singleton|].
  apply NoDup_app. split_and!; [done| |apply NoDup_singleton].
  intros x Hx Hx'. apply list_elem_of_singleton in Hx' as ->. done.
Qed.

Lemma prefix_snoc_inv {A} (p q : list A) m : p `prefix_of` q ++ [m] → p = q ++ [m] ∨ p `prefix_of` q.
Proof.
  intros [s Hs]. destruct s as [|x s _] using rev_ind; [left; by rewrite app_nil_r in Hs|].
  right. rewrite app_assoc in Hs. apply app_inj_tail in Hs as [-> _]. by exists s.
Qed.

(** ** The adjacency table *)

Definition targets (n : string) (es : list RouteEdge) : list string :=
  map edge_target (List.filter (λ e, edge_source e ==? n) es).

Lemma elem_of_targets n m es : m ∈ targets n es ↔ MkRouteEdge n m ∈ es.
Proof.
  unfold targets. rewrite elem_of_map. setoid_rewrite elem_of_lfilter. setoid_rewrite eqb_true. split.
  - by intros ([s t] & [H <-] & ->).
  - intros H. by exists (MkRouteEdge n m).
Qed.

Lemma length_targets n es : length (targets n es) ≤ length es.
Proof.
  unfold targets. rewrite length_map. induction es as [|e es IH]; [done|].
  cbn. destruct (edge_source e ==? n); cbn; lia.
Qed.

Lemma NoDup_targets n es : NoDup (map edge_key es) → NoDup (targets n es).
Proof.
  intros Hk. unfold targets. induction es as [|e es IH]; [constructor|].
  cbn in Hk. apply NoDup_cons in Hk as [He Hes]. cbn. destruct (edge_source e ==? n) eqn:En; [|by apply IH].
  cbn. apply NoDup_cons. split; [|by apply IH]. intros Hin. apply (elem_of_targets n) in Hin.
  rewrite eqb_true in En. apply He. apply elem_of_map. exists (MkRouteEdge n (edge_target e)).
  split; [done|]. by rewrite <-En.
Qed.

Lemma fold_edges es (a : Adjacency) :
  (∀ e, e ∈ es → is_Some (a !! edge_source e)) →
  ∃ a', foldl add_edge (Ok a) es = Ok a' ∧ ∀ n l, a !! n = Some l → a' !! n = Some (l ++ targets n es).
Proof.
  revert a. induction es as [|e es IH]; intros a Ha.
  - exists a. split; [done|]. intros n l H. by rewrite app_nil_r.
  - cbn [foldl]. unfold add_edge at 2. cbn [mbind result_bind].
    destruct (Ha e ltac:(left)) as [le He]. rewrite He.
    destruct (IH (<[edge_source e := le ++ [edge_target e]]> a)) as (a' & Ha' & Hl).
    { intros e' Hin. destruct (Ha e' ltac:(by right)) as [l Hl].
      apply lookup_insert_is_Some. destruct (edge_source e ==? edge_source e') eqn:E.
      - rewrite eqb_true in E. by left.
      - rewrite eqb_false in E. right. eauto. }
    exists a'. split; [done|]. intros n l Hn. unfold targets. cbn.
    destruct (edge_source e ==? n) eqn:E.
    + rewrite eqb_true in E. subst n. rewrite He in Hn. injection Hn as <-.
      rewrite (Hl (edge_source e) (le ++ [edge_target e])) by apply lookup_insert_eq.
      by rewrite <-app_assoc.
    + rewrite eqb_false in E. apply Hl. by rewrite lookup_insert_ne.
Qed.

Section graph.
Context (g : RouteGraph) (Hg : validate_graph g = Ok tt).

Lemma graph_valid :
  NoDup (nodes g) ∧ start g ∈ nodes g ∧ NoDup (map edge_key (edges g))
  ∧ ∀ e, e ∈ edges g → edge_source e ∈ nodes g ∧ edge_target e ∈ nodes g.
Proof.
  unfold validate_graph in Hg. rewrite !raise_if_bind, raise_if_ok, !nuniq_false, any_false in Hg.
  destruct Hg as (Hn & Hs & He & Hk). rewrite orb_false_iff, !negb_false_iff, !mem_true in Hs.
  split_and!; [done|tauto|done|]. intros e Hin. specialize (He e Hin).
  by rewrite orb_false_iff, !negb_false_iff, !mem_true in He.
Qed.

Lemma adjacency_ok :
  ∃ a, adjacency_of g = Ok a ∧ ∀ n, n ∈ nodes g →
    ∃ l, a !! n = Some l ∧ NoDup l ∧ length l ≤ length (edges g) ∧ ∀ m, m ∈ l ↔ edge g n m.
Proof.
  destruct graph_valid as (Hn & _ & Hk & He). unfold adjacency_of. cbv zeta.
  assert (∀ n, n ∈ nodes g → (list_to_map (map (λ n, (n, [])) (nodes g)) : Adjacency) !! n = Some []) as Hempty.
  { intros n Hin. apply elem_of_list_to_map_1.
    - rewrite <-list_fmap_compose. change (NoDup (map (λ n, n) (nodes g))). by rewrite map_id.
    - apply elem_of_map. by exists n. }
  destruct (fold_edges (edges g) (list_to_map (map (λ n, (n, [])) (nodes g)))) as (a & -> & Ha).
  { intros e Hin. rewrite Hempty; [by eexists|]. by apply He. }
  cbn [mbind result_bind]. eexists. split; [done|]. intros n Hin. exists (sorted (targets n (edges g))).
  split; [by rewrite lookup_fmap, (Ha n [] (Hempty n Hin))|].
  assert (sorted (targets n (edges g)) ≡ₚ targets n (edges g)) as Hp by apply sort_by_perm.
  split; [rewrite Hp; by apply NoDup_targets|]. split; [rewrite Hp; apply length_targets|].
  intros m. rewrite Hp. apply elem_of_targets.
Qed.

Lemma walk_nodes path : walk g path → path ⊆ nodes g.
Proof.
  destruct graph_valid as (_ & Hs & _ & He). induction 1 as [|p n m _ IH _ Hnm _].
  - intros x Hx. by apply list_elem_of_singleton in Hx as ->.
  - intros x [Hx|Hx]%elem_of_app; [by apply IH|]. apply list_elem_of_singleton in Hx as ->.
    by apply He in Hnm as [_ ?].
Qed.

Lemma walk_length path : walk g path → length path ≤ length (nodes g).
Proof.
  intros Hw. apply submseteq_length. apply NoDup_submseteq; [by eapply walk_NoDup|by apply walk_nodes].
Qed.

(** ** Both loops as one exploration

    [finished] paths are collected, the others are replaced by their
    extensions.  The two loops of the source are the two instances. *)

Context (a : Adjacency) (Ha : ∀ n, n ∈ nodes g →
  ∃ l, a !! n = Some l ∧ NoDup l ∧ length l ≤ length (edges g) ∧ ∀ m, m ∈ l ↔ edge g n m).

Definition fresh (path : list string) : list string :=
  match adjacent a path with
  | Ok l => List.filter (λ m, negb (mem m path)) l
  | Raise _ => []
  end.

Fixpoint explore (finished : list string → bool) (fuel : nat) (queue found : list (list string)) :
    option (list (list string)) :=
  match fuel with
  | O => None
  | S fuel =>
    match queue with
    | [] => Some found
    | path :: queue =>
      if finished path then explore finished fuel queue (found ++ [path])
      else explore finished fuel (queue ++ map (λ m, path ++ [m]) (fresh path)) found
    end
  end.

Lemma adjacent_ok path : walk g path → ∃ l, adjacent a path = Ok l ∧ NoDup l ∧ length l ≤ length (edges g)
  ∧ ∀ n m, last path = Some n → (m ∈ l ↔ edge g n m).
Proof.
  intros Hw. destruct (walk_nonempty g path Hw) as [n Hn].
  destruct (Ha n) as (l & Hl & Hnd & Hlen & Hm).
  { apply (walk_nodes path Hw). apply last_Some in Hn as [p ->]. apply elem_of_app. right. left. }
  exists l. unfold adjacent. rewrite Hn, Hl. split_and!; try done. by intros n' m [= <-].
Qed.

Lemma fresh_NoDup path : walk g path → NoDup (fresh path).
Proof.
  intros (l & Hl & Hnd & _)%adjacent_ok. unfold fresh. rewrite Hl. eapply sublist_NoDup; [done|apply lfilter_sublist].
Qed.

Lemma fresh_length path : walk g path → length (fresh path) ≤ length (edges g).
Proof.
  intros (l & Hl & _ & Hlen & _)%adjacent_ok. unfold fresh. rewrite Hl. etransitivity; [apply filter_length_le|done].
Qed.

Lemma elem_of_fresh path n m : walk g path → last path = Some n → m ∈ fresh path ↔ edge g n m ∧ m ∉ path.
Proof.
  intros (l & Hl & _ & _ & Hm)%adjacent_ok Hn. unfold fresh. rewrite Hl, elem_of_lfilter, (Hm n m Hn).
  by rewrite negb_true_iff, mem_false.
Qed.

Lemma walk_fresh path m : walk g path → m ∈ fresh path → walk g (path ++ [m]).
Proof.
  intros Hw Hm. destruct (walk_nonempty g path Hw) as [n Hn]. rewrite (elem_of_fresh path n m Hw Hn) in Hm.
  destruct Hm. by econstructor.
Qed.

(** A longer walk goes on with one of the fresh successors. *)
Lemma walk_next p q : walk g p → walk g q → p `prefix_of` q → p = q ∨ ∃ m, m ∈ fresh p ∧ p ++ [m] `prefix_of` q.
Proof.
  intros Hp. induction 1 as [|q n m Hq IH Hn Hnm Hm]; intros Hpre.
  - left. destruct p as [|x p]; [by destruct (walk_nonempty g [] Hp)|].
    apply prefix_cons_inv_1 in Hpre as Hx. apply prefix_cons_inv_2 in Hpre. apply prefix_nil_inv in Hpre. by subst.
  - apply prefix_snoc_inv in Hpre as [->|Hpre]; [by left|]. right.
    destruct (IH Hpre) as [->|(m' & ? & ?)].
    + exists m. split; [by apply (elem_of_fresh q n)|done].
    + exists m'. split; [done|]. by apply prefix_app_r.
Qed.

Section exploration.
Context (finished : list string → bool).
Hypothesis Hfinal : ∀ p q, walk g p → walk g q → finished p = true → finished q = true → p `prefix_of` q → p = q.

Definition walks (queue : list (list string)) : Prop := ∀ p, p ∈ queue → walk g p.

Lemma walks_tail p queue : walks (p :: queue) → walk g p ∧ walks queue.
Proof. intros H. split; [apply H; left|]. intros q Hq. apply H. by right. Qed.

Lemma walks_children p queue : walks (p :: queue) → walks (queue ++ map (λ m, p ++ [m]) (fresh p)).
Proof.
  intros [Hp Hq]%walks_tail q [H|H]%elem_of_app; [by apply Hq|].
  apply elem_of_map in H as (m & Hm & ->). by apply walk_fresh.
Qed.

Lemma explore_elements fuel queue found l : walks queue → explore finished fuel queue found = Some l →
  ∀ q, q ∈ l ↔ q ∈ found ∨ (walk g q ∧ finished q = true ∧ ∃ p, p ∈ queue ∧ p `prefix_of` q).
Proof.
  revert queue found. induction fuel as [|fuel IH]; intros queue found Hw He q; [done|]. cbn in He.
  destruct queue as [|p queue].
  { injection He as <-. split; [by left|]. intros [H|(_ & _ & p & H & _)]; [done|by apply not_elem_of_nil in H]. }
  pose proof (walks_tail _ _ Hw) as [Hp Hq]. destruct (finished p) eqn:Hf.
  - rewrite (IH _ _ Hq He q), elem_of_app, list_elem_of_singleton. setoid_rewrite elem_of_cons. split.
    + intros [[H| ->]|(? & ? & p' & ? & ?)]; [by left|right|right; eauto 6]. split_and!; [done..|]. exists p. auto.
    + intros [H|(Hwq & Hfq & p' & [->|H] & Hpre)]; [by do 2 left| |right; eauto 6].
      left. right. symmetry. by apply Hfinal.
  - rewrite (IH _ _ (walks_children _ _ Hw) He q). setoid_rewrite elem_of_app. setoid_rewrite elem_of_cons. split.
    + intros [H|(? & ? & p' & [H|H] & Hpre)]; [by left|right; eauto 6|right].
      apply elem_of_map in H as (m & Hm & ->). split_and!; [done..|]. exists p. split; [by left|].
      etransitivity; [|done]. by apply prefix_app_r.
    + intros [H|(Hwq & Hfq & p' & [->|H] & Hpre)]; [by left| |right; eauto 6].
      right. split_and!; [done..|]. destruct (walk_next p q Hp Hwq Hpre) as [->|(m & Hm & Hpm)]; [by rewrite Hf in Hfq|].
      exists (p ++ [m]). split; [|done]. right. apply elem_of_map. eauto.
Qed.

(** Nothing is found twice: no queued path extends another queued or found
    path. *)
Definition spread (queue found : list (list string)) : Prop :=
  NoDup queue ∧ NoDup found ∧ (∀ x y, x ∈ queue → y ∈ queue → x `prefix_of` y → x = y)
  ∧ ∀ x y, x ∈ queue → y ∈ found → ¬ x `prefix_of` y.

Lemma spread_finished p queue found : spread (p :: queue) found → spread queue (found ++ [p]).
Proof.
  intros (Hq & Hf & Hqq & Hqf). apply NoDup_cons in Hq as [Hpq Hq]. split_and!; [done| | |].
  - apply NoDup_app. split_and!; [done| |apply NoDup_singleton]. intros x Hx Hx'.
    apply list_elem_of_singleton in Hx' as ->. by apply (Hqf p p); [left|done|].
  - intros x y Hx Hy. apply Hqq; by right.
  - intros x y Hx [Hy|Hy]%elem_of_app; [apply Hqf; [by right|done]|]. apply list_elem_of_singleton in Hy as ->.
    intros H. apply (Hqq x p) in H as ->; [done|by right|left].
Qed.

Lemma snoc_not_prefix (p : list string) m : ¬ p ++ [m] `prefix_of` p.
Proof. intros H%prefix_length. rewrite length_app in H. cbn in H. lia. Qed.

Lemma spread_children p queue found ms :
  NoDup ms → spread (p :: queue) found → spread (queue ++ map (λ m, p ++ [m]) ms) found.
Proof.
  intros Hms (Hq & Hf & Hqq & Hqf). apply NoDup_cons in Hq as [Hpq Hq].
  assert (∀ x m, x ∈ queue → ¬ p ++ [m] `prefix_of` x) as Hout.
  { intros x m Hx H. assert (p = x) as ->; [|done]. apply Hqq; [left|by right|].
    etransitivity; [|done]. by apply prefix_app_r. }
  assert (∀ x m, x ∈ queue → ¬ x `prefix_of` p ++ [m]) as Hin.
  { intros x m Hx [->|H]%prefix_snoc_inv; [by apply (Hout _ m Hx)|].
    apply (Hqq x p) in H as ->; [done|by right|left]. }
  split_and!; [|done| |].
  - apply NoDup_app. split_and!; [done| |].
    + intros x Hx (m & _ & ->)%elem_of_map. by apply (Hout _ m Hx).
    + apply NoDup_fmap_2; [|done]. by intros x y [_ ?]%app_inj_tail.
  - intros x y [Hx|Hx]%elem_of_app [Hy|Hy]%elem_of_app Hpre.
    + apply Hqq; [by right..|done].
    + apply elem_of_map in Hy as (m & _ & ->). by destruct (Hin x m Hx).
    + apply elem_of_map in Hx as (m & _ & ->). by destruct (Hout y m Hy).
    + apply elem_of_map in Hx as (m & _ & ->). apply elem_of_map in Hy as (m' & _ & ->).
      by apply prefix_snoc_inv in Hpre as [?|[]%snoc_not_prefix].
  - intros x y [Hx|Hx]%elem_of_app Hy Hpre; [by apply (Hqf x y); [right| |]|].
    apply elem_of_map in Hx as (m & _ & ->). apply (Hqf p y); [left|done|].
    etransitivity; [|done]. by apply prefix_app_r.
Qed.

Lemma explore_NoDup fuel queue found l :
  walks queue → spread queue found → explore finished fuel queue found = Some l → NoDup l.
Proof.
  revert queue found. induction fuel as [|fuel IH]; intros queue found Hw Hs He; [done|]. cbn in He.
  destruct queue as [|p queue]; [injection He as <-; apply Hs|].
  pose proof (walks_tail _ _ Hw) as [Hp Hq]. destruct (finished p).
  - eapply IH; [|by apply spread_finished|done]. done.
  - eapply IH; [by apply walks_children| |done]. apply spread_children; [by apply fresh_NoDup|done].
Qed.

(** The fuel covers every path the queue can still lead to. *)
Definition pending (queue : list (list string)) : nat :=
  list_sum (map (λ p, paths_bound (length (edges g)) (length (nodes g) - length p)) queue).

Lemma pending_children p : walk g p →
  pending (map (λ m, p ++ [m]) (fresh p)) < paths_bound (length (edges g)) (length (nodes g) - length p).
Proof.
  intros Hp. destruct (fresh p) as [|m0 ms] eqn:Ef.
  { destruct (length (nodes g) - length p); cbn; lia. }
  pose proof (walk_length _ (walk_fresh p m0 Hp ltac:(rewrite Ef; left))) as Hlen.
  rewrite length_app in Hlen. cbn in Hlen. pose proof (fresh_length p Hp) as Hb. rewrite <-Ef.
  replace (length (nodes g) - length p) with (S (length (nodes g) - length p - 1)) by lia. cbn [paths_bound].
  unfold pending. rewrite map_map.
  erewrite map_ext; [|intros m; rewrite length_app; cbn; by replace (length (nodes g) - (length p + 1))
    with (length (nodes g) - length p - 1) by lia].
  generalize (paths_bound (length (edges g)) (length (nodes g) - length p - 1)). intros w.
  assert (list_sum (map (λ _, w) (fresh p)) = length (fresh p) * w) as ->.
  { clear. induction (fresh p) as [|x l IH]; [done|]. cbn. by rewrite <-IH. }
  nia.
Qed.

Lemma explore_total fuel queue found : walks queue → pending queue < fuel →
  ∃ l, explore finished fuel queue found = Some l.
Proof.
  revert queue found. induction fuel as [|fuel IH]; intros queue found Hw Hfuel; [lia|]. cbn.
  destruct queue as [|p queue]; [eauto|]. pose proof (walks_tail _ _ Hw) as [Hp Hq].
  change (pending (p :: queue)) with
    (paths_bound (length (edges g)) (length (nodes g) - length p) + pending queue) in Hfuel.
  pose proof (pending_children p Hp) as Hc. destruct (finished p).
  - apply IH; [done|lia].
  - apply IH; [by apply walks_children|]. unfold pending. rewrite map_app, list_sum_app.
    change (pending queue + pending (map (λ m, p ++ [m]) (fresh p)) < fuel). lia.
Qed.

Lemma paths_bound_pred b n : paths_bound b (n - 1) ≤ paths_bound b n.
Proof.
  destruct n as [|n]; [done|]. replace (S n - 1) with n by lia. cbn.
  destruct b as [|b]; [|cbn; lia]. destruct n; cbn; lia.
Qed.

Lemma explore_from_start :
  ∃ l, explore finished (fuel_of g) [[start g]] [] = Some l
       ∧ NoDup l ∧ ∀ q, q ∈ l ↔ walk g q ∧ finished q = true.
Proof.
  assert (walks [[start g]]) as Hw.
  { intros p Hp. apply list_elem_of_singleton in Hp as ->. constructor. }
  destruct (explore_total (fuel_of g) [[start g]] []) as [l Hl].
  { done. }
  { change (paths_bound (length (edges g)) (length (nodes g) - 1) + 0 < fuel_of g).
    unfold fuel_of. pose proof (paths_bound_pred (length (edges g)) (length (nodes g))). lia. }
  exists l. split; [done|]. split.
  - eapply explore_NoDup; [done| |done]. split_and!; [apply NoDup_singleton|constructor| |].
    + intros x y Hx Hy _. apply list_elem_of_singleton in Hx as ->. by apply list_elem_of_singleton in Hy as ->.
    + intros x y _ Hy. by apply not_elem_of_nil in Hy.
  - intros q. rewrite (explore_elements _ _ _ _ Hw Hl). split.
    + intros [H|(? & ? & _)]; [by apply not_elem_of_nil in H|done].
    + intros [Hq Hf]. right. split_and!; [done..|]. exists [start g]. split; [left|].
      clear Hf Hl. induction Hq as [|q n m _ IH]; [done|]. by apply prefix_app_r.
Qed.
End exploration.

(** ** The two loops *)

Definition outcome (o : option (list (list string))) : result (list (list string)) :=
  match o with Some l => Ok l | None => raise RuntimeError "out of fuel" end.

Definition at_goal (path : list string) : bool := last path ==? Some (goal g).
Definition stuck (path : list string) : bool := fresh path ==? [].

Lemma fresh_adjacent path l : adjacent a path = Ok l → List.filter (λ m, negb (mem m path)) l = fresh path.
Proof. unfold fresh. by intros ->. Qed.

Lemma simple_routes_loop_explore fuel queue found :
  walks queue → simple_routes_loop fuel g a queue found = outcome (explore at_goal fuel queue found).
Proof.
  revert queue found. induction fuel as [|fuel IH]; intros queue found Hw; [done|]. cbn.
  destruct queue as [|p queue]; [done|]. pose proof (walks_tail _ _ Hw) as [Hp Hq].
  change (bool_decide (last p = Some (goal g))) with (at_goal p). destruct (at_goal p); [by apply IH|].
  destruct (adjacent_ok p Hp) as (l & Hl & _). rewrite Hl. cbn. rewrite (fresh_adjacent p l Hl).
  apply IH. by apply walks_children.
Qed.

Lemma maximal_loop_explore fuel queue found :
  walks queue → maximal_loop fuel g a queue found = outcome (explore stuck fuel queue found).
Proof.
  revert queue found. induction fuel as [|fuel IH]; intros queue found Hw; [done|]. cbn.
  destruct queue as [|p queue]; [done|]. pose proof (walks_tail _ _ Hw) as [Hp Hq].
  destruct (adjacent_ok p Hp) as (l & Hl & _). rewrite Hl. cbn. rewrite (fresh_adjacent p l Hl).
  change (bool_decide (fresh p = [])) with (stuck p). destruct (stuck p); [by apply IH|].
  apply IH. by apply walks_children.
Qed.

Lemma walks_start : walks [[start g]].
Proof. intros p Hp. apply list_elem_of_singleton in Hp as ->. constructor. Qed.

Lemma at_goal_final p q :
  walk g p → walk g q → at_goal p = true → at_goal q = true → p `prefix_of` q → p = q.
Proof.
  unfold at_goal. rewrite !eqb_true. intros Hp Hq Ep Eq [s ->].
  destruct s as [|x s _] using rev_ind; [by rewrite app_nil_r|]. exfalso.
  rewrite app_assoc, last_snoc in Eq. injection Eq as ->.
  apply walk_NoDup in Hq. rewrite app_assoc in Hq. apply NoDup_app in Hq as (_ & Hq & _).
  apply (Hq (goal g)); [|left]. apply last_Some in Ep as [p' ->]. rewrite !elem_of_app. left. right. left.
Qed.

Lemma stuck_final p q : walk g p → walk g q → stuck p = true → stuck q = true → p `prefix_of` q → p = q.
Proof.
  unfold stuck. rewrite !bool_decide_eq_true. intros Hp Hq Ep _ Hpre.
  destruct (walk_next p q Hp Hq Hpre) as [?|(m & Hm & _)]; [done|]. rewrite Ep in Hm. by apply not_elem_of_nil in Hm.
Qed.

Lemma stuck_maximal p : walk g p → stuck p = true ↔ maximal_execution g p.
Proof.
  intros Hp. unfold stuck, maximal_execution. rewrite bool_decide_eq_true. destruct (walk_nonempty g p Hp) as [n Hn]. split.
  - intros E. split; [done|]. rewrite Hn. intros n' m [= <-] Hnm. destruct (mem m p) eqn:Hm; [by apply mem_true|].
    rewrite mem_false in Hm. assert (m ∈ fresh p) as H by (by apply (elem_of_fresh p n)).
    rewrite E in H. by apply not_elem_of_nil in H.
  - intros [_ H]. destruct (fresh p) as [|m ms] eqn:E; [done|]. assert (m ∈ fresh p) as Hm by (rewrite E; left).
    rewrite (elem_of_fresh p n m Hp Hn) in Hm. destruct Hm as [Hnm []]. eauto.
Qed.
End graph.

Lemma simple_routes_exact g : validate_graph g = Ok tt →
  ∃ l, enumerate_simple_routes g = Ok l ∧ NoDup l ∧ ∀ p, p ∈ l ↔ simple_route g p.
Proof.
  intros Hg. destruct (adjacency_ok g Hg) as (a & Hadj & Ha). unfold enumerate_simple_routes. rewrite Hadj. cbn [mbind result_bind].
  rewrite (simple_routes_loop_explore g Hg a Ha) by apply walks_start.
  destruct (explore_from_start g Hg a Ha (at_goal g) (at_goal_final g)) as (l & Hl & Hnd & Hin).
  rewrite Hl. exists l. split_and!; [done..|]. intros p. rewrite Hin. unfold at_goal. by rewrite eqb_true.
Qed.

Lemma maximal_executions_exact g : validate_graph g = Ok tt →
  ∃ l, enumerate_maximal_executions g = Ok l ∧ NoDup l ∧ ∀ p, p ∈ l ↔ maximal_execution g p.
Proof.
  intros Hg. destruct (adjacency_ok g Hg) as (a & Hadj & Ha). unfold enumerate_maximal_executions. rewrite Hadj. cbn [mbind result_bind].
  rewrite (maximal_loop_explore g Hg a Ha) by apply walks_start.
  destruct (explore_from_start g Hg a Ha (stuck a) (stuck_final g Hg a Ha)) as (l & Hl & Hnd & Hin).
  rewrite Hl. exists l. split_and!; [done..|]. intros p. rewrite Hin. split.
  - intros [Hp Hs]. by apply (stuck_maximal g Hg a Ha).
  - intros Hm. destruct Hm as [Hp Hm]. split; [done|]. by apply (stuck_maximal g Hg a Ha).
Qed.

Lemma nonempty_true {A} `{EqDecision A} (l : list A) : (l !=? []) = true ↔ ∃ x, x ∈ l.
Proof.
  rewrite negb_true_iff, bool_decide_eq_false. split; [destruct l as [|x l]; [done|exists x; left]|].
  intros (x & Hx) ->. by apply not_elem_of_nil in Hx.
Qed.

(** C37: The route demonstration is exact for every valid graph: both
    breadth-first loops end, list each simple route from start to goal and
    each maximal acyclic execution exactly once, and the findings say what the
    graph does: may reach iff a route exists, must reach iff there are maximal
    executions and all of them end at the goal, must pass iff routes exist and
    all visit the prerequisite, and the bypass is a route that avoids it. *)
Theorem route_findings_exact g prerequisite : validate_graph g = Ok tt →
  ∃ d, demonstrate_routes g prerequisite = Ok d
    ∧ NoDup (routes d) ∧ (∀ p, p ∈ routes d ↔ simple_route g p)
    ∧ NoDup (maximal_executions d) ∧ (∀ p, p ∈ maximal_executions d ↔ maximal_execution g p)
    ∧ (may_reach d = true ↔ ∃ p, simple_route g p)
    ∧ (must_reach d = true ↔ (∃ p, maximal_execution g p) ∧ ∀ p, maximal_execution g p → last p = Some (goal g))
    ∧ (must_pass_prerequisite d = true ↔ (∃ p, simple_route g p) ∧ ∀ p, simple_route g p → prerequisite ∈ p)
    ∧ match bypass_route d with
      | Some p => simple_route g p ∧ prerequisite ∉ p
      | None => ∀ p, simple_route g p → prerequisite ∈ p
      end.
Proof.
  intros Hg. destruct (simple_routes_exact g Hg) as (rs & Hrs & Hnr & Hr).
  destruct (maximal_executions_exact g Hg) as (ms & Hms & Hnm & Hm).
  unfold demonstrate_routes. rewrite Hrs, Hms. cbn. eexists. split; [done|]. cbn. split_and!; [done..| | | |].
  - rewrite nonempty_true. by setoid_rewrite Hr.
  - rewrite andb_true_iff, nonempty_true, all_true. setoid_rewrite Hm. by setoid_rewrite eqb_true.
  - rewrite andb_true_iff, nonempty_true, all_true. setoid_rewrite Hr. by setoid_rewrite mem_true.
  - destruct (first _ rs) as [p|] eqn:E.
    + apply first_Some in E as [Hp E]. rewrite negb_true_iff, mem_false in E. by rewrite <-Hr.
    + rewrite first_None in E. intros p Hp%Hr. specialize (E p Hp). by rewrite negb_false_iff, mem_true in E.
Qed.

Lemma route_findings_exact_witness :
  validate_graph reference_route_graph = Ok tt
  ∧ ∃ d, demonstrate_routes reference_route_graph "gate" = Ok d ∧ expected_route_findings_hold d = true
         ∧ ∀ p, p ∈ routes d ↔ simple_route reference_route_graph p.
Proof.
  assert (validate_graph reference_route_graph = Ok tt) as Hg by reflexivity. split; [done|].
  destruct (route_findings_exact reference_route_graph "gate" Hg) as (d & Hd & _ & Hr & _).
  exists d. split; [done|]. split; [|done].
  assert (route_demonstration = Ok d) as H by (unfold route_demonstration; rewrite Hg; exact Hd).
  revert H. vm_compute. by intros [= <-].
Defined.
