(* ===== verification/Cognitive.v ===== *)
(** * Cognitive lifecycles: [src/rci/orchestration/cognitive.py]

    The check that links a cognitive plan to its prediction, attempt, return,
    decodes, reconstruction and semantic delta, and the three constructors of
    obligations and deltas.  [AttemptOutcome] is a closed union, so the branch
    for an outcome of no known class cannot be reached and has no counterpart. *)

From S2P Require Import Prelude Digest Model Claims Warrant Effects Probes.

(** ** [probes/models.py]: reconstruction sets *)

Record ReconstructionCandidate : Type := MkReconstructionCandidate {
  rcc_id : string;
  rcc_retained_package_ids : list string;
  rcc_generated_working_structure : json;
  rcc_protected_consequence_class_id : string;
  rcc_historical_fact_ids : list string;
  rcc_generated_detail_ids : list string;
}.

Definition validate_candidate (c : ReconstructionCandidate) : result unit :=
  raise_if (intersects (rcc_generated_detail_ids c) (rcc_historical_fact_ids c))
    ValidationError "generated reconstruction detail is not historical fact".

Record ReconstructionSet : Type := MkReconstructionSet {
  rset_cue_id : string;
  rset_protected_horizon_id : string;
  rset_candidates : list ReconstructionCandidate;
}.

Definition consequence_class_ids (r : ReconstructionSet) : gset string :=
  list_to_set (map rcc_protected_consequence_class_id (rset_candidates r)).

Definition resolved (r : ReconstructionSet) : bool :=
  negb (length (rset_candidates r) =? 0)%nat && (size (consequence_class_ids r) =? 1)%nat.

(** ** The lifecycle check *)

Inductive LifecycleVerdict : Type := LIFECYCLE_VALID | LIFECYCLE_INVALID.
#[export] Instance LifecycleVerdict_eq_dec : EqDecision LifecycleVerdict.
Proof. solve_decision. Defined.

Record LifecycleCheck : Type := MkLifecycleCheck {
  lc_verdict : LifecycleVerdict;
  lc_violations : list string;
}.

Definition validate_check (c : LifecycleCheck) : result unit :=
  raise_if ((lc_verdict c ==? LIFECYCLE_VALID) && negb (length (lc_violations c) =? 0)%nat)
    ValidationError "valid lifecycle checks cannot carry violations";;
  raise_if ((lc_verdict c ==? LIFECYCLE_INVALID) && (length (lc_violations c) =? 0)%nat)
    ValidationError "invalid lifecycle checks require violations".

(** [if c: violations.append(text)] *)
Definition note (c : bool) (text : string) : list string := if c then [text] else [].

(** [tuple(dict.fromkeys(l))] *)
Definition unique_in_order (l : list string) : list string :=
  foldl (λ seen x, if mem x seen then seen else seen ++ [x]) [] l.

Definition seal_violations (plan : CognitiveAttemptPlan) (seal : option PredictionSeal)
    (attempt_sequence : option Z) : list string :=
  match seal with
  | None => []
  | Some seal =>
    note ((ps_cognitive_plan_id seal !=? cp_id plan)
          || (ps_probe_or_action_id seal !=? cp_probe_or_action_id plan)) "prediction_plan_mismatch"
    ++ note (ps_sealed_sequence seal <? cp_planned_sequence plan)%Z "prediction_precedes_plan"
    ++ match attempt_sequence with
       | Some n => note (ps_sealed_sequence seal >=? n)%Z "prediction_not_sealed_before_attempt"
       | None => []
       end
  end.

Section lifecycle.
Context (plan : CognitiveAttemptPlan) (effect_plan : option EffectAttemptPlan)
        (outcome : option AttemptOutcome) (no_attempt : option NoAttemptDisposition)
        (seal : option PredictionSeal) (attempt_sequence : option Z)
        (decode_outcomes : list DecodeOutcome) (reconstruction : option Reconstruction)
        (delta : option SemanticDelta).

Definition attempt_violations : list string :=
  match no_attempt with
  | Some na =>
    note (na_request_id na !=? cp_effect_request_id plan) "no_attempt_request_mismatch"
    ++ note (is_some effect_plan || is_some outcome || is_some reconstruction || is_some delta)
         "no_attempt_has_downstream_objects"
    ++ note (negb (length decode_outcomes =? 0)%nat) "no_attempt_has_decode_outcomes"
    ++ note (is_some (cp_effect_attempt_plan_id plan)) "no_attempt_references_effect_attempt"
  | None =>
    match effect_plan with
    | None => ["missing_effect_attempt_plan"]
    | Some ep =>
      note (cp_effect_attempt_plan_id plan !=? Some (ap_id ep)) "effect_attempt_plan_mismatch"
      ++ note (ap_request_id ep !=? cp_effect_request_id plan) "effect_request_mismatch"
    end
    ++ note (is_none outcome) "missing_attempt_outcome"
  end.

Definition reconstruction_violations (external_return : ExternalReturn) : list string :=
  match reconstruction with
  | Some r =>
    note (rc_external_return_id r !=? ret_id external_return) "reconstruction_return_mismatch"
    ++ note (negb (subset (rc_decode_outcome_ids r) (map dec_id decode_outcomes)
                   && subset (map dec_id decode_outcomes) (rc_decode_outcome_ids r)))
         "reconstruction_decode_set_mismatch"
  | None => note (is_some delta) "semantic_delta_without_reconstruction"
  end
  ++ match delta, reconstruction with
     | Some d, Some r =>
       note (sd_reconstruction_id d !=? rc_id r) "semantic_delta_reconstruction_mismatch"
       ++ note (sd_committed_sequence d <=? rc_reconstructed_sequence r)%Z
            "semantic_delta_not_after_reconstruction"
     | _, _ => []
     end.

Definition outcome_violations : list string :=
  match outcome with
  | None => []
  | Some (ReturnedOutcome attempt_id route_id external_return) =>
    match effect_plan with
    | Some ep =>
      note (attempt_id !=? ap_id ep) "returned_attempt_mismatch"
      ++ note (route_id !=? rs_id (ap_route ep)) "returned_route_mismatch"
    | None => []
    end
    ++ note (any (λ d, dec_return_id d !=? ret_id external_return) decode_outcomes)
         "decode_external_return_mismatch"
    ++ reconstruction_violations external_return
  | Some o =>
    match effect_plan with
    | Some ep => note (outcome_route_id o !=? rs_id (ap_route ep)) "attempt_outcome_route_mismatch"
    | None => []
    end
    ++ note (negb (length decode_outcomes =? 0)%nat || is_some reconstruction || is_some delta)
         "non_returned_outcome_has_return_pipeline"
  end.

Definition lifecycle_violations : list string :=
  unique_in_order (seal_violations plan seal attempt_sequence ++ attempt_violations ++ outcome_violations
    ++ note (negb (uniq (map dec_id decode_outcomes))) "duplicate_decode_outcome_id").

Definition validate_cognitive_lifecycle : result LifecycleCheck :=
  let unique := lifecycle_violations in
  let check := MkLifecycleCheck
                 (if (length unique =? 0)%nat then LIFECYCLE_VALID else LIFECYCLE_INVALID) unique in
  validate_check check;; Ok check.
End lifecycle.

(** ** Obligations and deltas *)

Definition built_obligation (o : Obligation) : result Obligation :=
  for_each (λ a, validate_name (arg_name a)) (obl_args o);; validate_obligation o;; Ok o.

(** [route_ids_by_dependency]: a dict from open dependencies to sets of routes. *)
Definition add_dependency (route : string) (m : gmap string (gset string)) (dependency : string) :
    gmap string (gset string) :=
  <[dependency := default ∅ (m !! dependency) ∪ {[route]}]> m.
Definition route_ids_by_dependency (support_routes : list SupportRoute) : gmap string (gset string) :=
  foldl (λ m r, foldl (add_dependency (route_id r)) m (route_open_dependency_ids r)) ∅ support_routes.

Definition dependency_obligation (lemma_id : string) (scope : Scope) (dependency_id : string)
    (route_ids : list string) : Obligation :=
  MkObligation
    ("obl_" +:+ prefix 24 (content_fingerprint "rci.open-dependency.v1"
       (JObject [("lemma", to_json lemma_id); ("dependency", to_json dependency_id);
                 ("scope", to_json (scope_fingerprint scope))])))
    DISCHARGE_OPEN_DEPENDENCY lemma_id
    [MkBoundArgument "dependency_id" (to_json dependency_id);
     MkBoundArgument "support_route_ids" (to_json route_ids)]
    scope (scope_binding_revision scope) [] [100%Z] OPEN.

Definition open_dependency_obligations (lemma_id : string) (support_routes : list SupportRoute) (scope : Scope) :
    result (list Obligation) :=
  traverse (λ '(dependency_id, route_ids),
              built_obligation (dependency_obligation lemma_id scope dependency_id (sorted (elements route_ids))))
    (sort_by fst (map_to_list (route_ids_by_dependency support_routes))).

Definition ambiguity_obligation (r : ReconstructionSet) (scope : Scope) : result (option Obligation) :=
  if resolved r || (length (rset_candidates r) =? 0)%nat then Ok None
  else
    let classes := sorted (elements (consequence_class_ids r)) in
    o ← built_obligation (MkObligation
      ("obl_" +:+ prefix 24 (content_fingerprint "rci.reconstruction-ambiguity.v1"
         (JObject [("cue", to_json (rset_cue_id r)); ("horizon", to_json (rset_protected_horizon_id r));
                   ("classes", to_json classes); ("scope", to_json (scope_fingerprint scope))])))
      DISCRIMINATE_RECONSTRUCTION (rset_cue_id r)
      [MkBoundArgument "consequence_class_ids" (to_json classes)]
      scope (scope_binding_revision scope) [] [95%Z] OPEN);
    Ok (Some o).

Definition create_semantic_delta (delta_id : string) (reconstruction : Reconstruction)
    (warranted_changes : list WarrantedChange) (reopened_structure_ids retired_structure_ids : list string)
    (committed_sequence : Z) : result SemanticDelta :=
  raise_if (any (λ c, is_empty (wc_warrant_lemma_id c)) warranted_changes)
    ValueError "every semantic change requires a warrant lemma";;
  raise_if (committed_sequence <=? rc_reconstructed_sequence reconstruction)%Z
    ValueError "semantic commit must follow reconstruction";;
  let delta := MkSemanticDelta delta_id (rc_id reconstruction) warranted_changes
                 reopened_structure_ids retired_structure_ids committed_sequence in
  validate_delta delta;; Ok delta.

(** ** What a valid lifecycle is *)

(** The prediction belongs to the plan and was sealed between the planning
    and the attempt. *)
Definition sealed_in_time (plan : CognitiveAttemptPlan) (seal : option PredictionSeal)
    (attempt_sequence : option Z) : Prop :=
  ∀ s, seal = Some s →
    ps_cognitive_plan_id s = cp_id plan ∧ ps_probe_or_action_id s = cp_probe_or_action_id plan
    ∧ (cp_planned_sequence plan ≤ ps_sealed_sequence s)%Z
    ∧ ∀ n, attempt_sequence = Some n → (ps_sealed_sequence s < n)%Z.

(** What a captured return may be followed by. *)
Definition return_pipeline (x : ExternalReturn) (decode_outcomes : list DecodeOutcome)
    (reconstruction : option Reconstruction) (delta : option SemanticDelta) : Prop :=
  (∀ d, d ∈ decode_outcomes → dec_return_id d = ret_id x)
  ∧ match reconstruction with
    | None => delta = None
    | Some r =>
      rc_external_return_id r = ret_id x
      ∧ (∀ id, id ∈ rc_decode_outcome_ids r ↔ id ∈ map dec_id decode_outcomes)
      ∧ ∀ d, delta = Some d →
          sd_reconstruction_id d = rc_id r ∧ (rc_reconstructed_sequence r < sd_committed_sequence d)%Z
    end.

(** The plan was attempted, and its outcome decides what may follow. *)
Definition attempted (plan : CognitiveAttemptPlan) (ep : EffectAttemptPlan) (o : AttemptOutcome)
    (decode_outcomes : list DecodeOutcome) (reconstruction : option Reconstruction)
    (delta : option SemanticDelta) : Prop :=
  cp_effect_attempt_plan_id plan = Some (ap_id ep) ∧ ap_request_id ep = cp_effect_request_id plan
  ∧ outcome_route_id o = rs_id (ap_route ep)
  ∧ match outcome_return o with
    | None => decode_outcomes = [] ∧ reconstruction = None ∧ delta = None
    | Some x => outcome_attempt_id o = ap_id ep ∧ return_pipeline x decode_outcomes reconstruction delta
    end.

Definition linked (plan : CognitiveAttemptPlan) (effect_plan : option EffectAttemptPlan)
    (outcome : option AttemptOutcome) (no_attempt : option NoAttemptDisposition)
    (decode_outcomes : list DecodeOutcome) (reconstruction : option Reconstruction)
    (delta : option SemanticDelta) : Prop :=
  match no_attempt with
  | Some na =>
    na_request_id na = cp_effect_request_id plan ∧ effect_plan = None ∧ outcome = None
    ∧ reconstruction = None ∧ delta = None ∧ decode_outcomes = [] ∧ cp_effect_attempt_plan_id plan = None
  | None => ∃ ep o, effect_plan = Some ep ∧ outcome = Some o
                    ∧ attempted plan ep o decode_outcomes reconstruction delta
  end.

Lemma note_nil c text : note c text = [] ↔ c = false.
Proof. by destruct c. Qed.
Lemma empty_list_true {A} (l : list A) : (length l =? 0)%nat = true ↔ l = [].
Proof. by destruct l. Qed.

Lemma unique_in_order_nil l : unique_in_order l = [] ↔ l = [].
Proof.
  split; [|by intros ->]. destruct l as [|x l]; [done|]. unfold unique_in_order. cbn [foldl].
  assert (∀ l s : list string, s ≠ [] → foldl (λ seen x, if mem x seen then seen else seen ++ [x]) s l ≠ []) as G.
  { clear. induction l as [|x l IH]; intros s Hs; [done|]. cbn. apply IH. destruct (mem x s); [done|]. by destruct s. }
  intros H. exfalso. eapply G; [|exact H]. done.
Qed.

(** Emptiness of the collected violations, condition by condition. *)
Ltac conditions :=
  rewrite ?app_nil, ?note_nil, ?orb_false_iff, ?negb_false_iff, ?bool_decide_eq_true, ?empty_list_true,
    ?andb_true_iff, ?subset_true, ?Z.ltb_ge, ?Z.leb_gt, ?is_some_false, ?is_none_false.

Lemma seal_violations_nil plan seal n :
  seal_violations plan seal n = [] ↔ sealed_in_time plan seal n.
Proof.
  unfold seal_violations, sealed_in_time. destruct seal as [s|]; [|by split].
  conditions. destruct n as [n|]; conditions; rewrite ?Z.geb_leb; conditions; naive_solver.
Qed.

Lemma reconstruction_violations_nil ds r d x :
  reconstruction_violations ds r d x = [] ↔
  match r with
  | None => d = None
  | Some r =>
    rc_external_return_id r = ret_id x
    ∧ (∀ id, id ∈ rc_decode_outcome_ids r ↔ id ∈ map dec_id ds)
    ∧ ∀ d', d = Some d' → sd_reconstruction_id d' = rc_id r
                          ∧ (rc_reconstructed_sequence r < sd_committed_sequence d')%Z
  end.
Proof.
  unfold reconstruction_violations. destruct r as [r|]; [|destruct d; conditions; naive_solver].
  assert (rc_decode_outcome_ids r ⊆ map dec_id ds ∧ map dec_id ds ⊆ rc_decode_outcome_ids r
          ↔ ∀ id, id ∈ rc_decode_outcome_ids r ↔ id ∈ map dec_id ds) as Hset.
  { split; [intros [H1 H2] id; split; [apply H1|apply H2]|]. intros H. split; intros id; apply H. }
  destruct d as [d|]; conditions; rewrite Hset; naive_solver.
Qed.

Lemma outcome_violations_nil ep o ds r d :
  outcome_violations (Some ep) (Some o) ds r d = [] ↔
  outcome_route_id o = rs_id (ap_route ep)
  ∧ match outcome_return o with
    | None => ds = [] ∧ r = None ∧ d = None
    | Some x => outcome_attempt_id o = ap_id ep ∧ return_pipeline x ds r d
    end.
Proof.
  destruct o as [| | | |a ro x]; cbn; try (conditions; naive_solver).
  unfold return_pipeline. conditions. rewrite reconstruction_violations_nil, any_false.
  setoid_rewrite negb_false_iff. setoid_rewrite bool_decide_eq_true. naive_solver.
Qed.

Lemma lifecycle_violations_nil plan effect_plan outcome no_attempt seal n ds r d :
  lifecycle_violations plan effect_plan outcome no_attempt seal n ds r d = [] ↔
  sealed_in_time plan seal n ∧ NoDup (map dec_id ds) ∧ linked plan effect_plan outcome no_attempt ds r d.
Proof.
  unfold lifecycle_violations. rewrite unique_in_order_nil, !app_nil, seal_violations_nil, note_nil, nuniq_false.
  enough (attempt_violations plan effect_plan outcome no_attempt ds r d = [] ∧ outcome_violations effect_plan outcome ds r d = []
          ↔ linked plan effect_plan outcome no_attempt ds r d) by tauto.
  unfold attempt_violations, linked, attempted. destruct no_attempt as [na|].
  - conditions. split; [tauto|]. by intros (? & -> & -> & -> & -> & -> & ?).
  - destruct effect_plan as [ep|]; [|by split; [intros [[=]]|intros (? & ? & [=] & _)]].
    destruct outcome as [o|]; [|split; [intros [H _]; revert H; conditions; naive_solver|naive_solver]].
    rewrite outcome_violations_nil. conditions. naive_solver.
Qed.

(** C36: The lifecycle check is exact: it always returns, and its verdict is
    VALID if and only if the prediction was sealed in time, no decode id
    repeats, and the records are linked: either the request was not attempted
    and nothing follows it, or plan, attempt and outcome name each other, an
    outcome without a return is followed by nothing, and a return only by its
    own decodes, a reconstruction of exactly these, and a later delta of it. *)
Theorem lifecycle_check_exact plan effect_plan outcome no_attempt seal attempt_sequence ds r d :
  ∃ c, validate_cognitive_lifecycle plan effect_plan outcome no_attempt seal attempt_sequence ds r d = Ok c
       ∧ (lc_verdict c = LIFECYCLE_VALID ↔
          sealed_in_time plan seal attempt_sequence ∧ NoDup (map dec_id ds)
          ∧ linked plan effect_plan outcome no_attempt ds r d).
Proof.
  pose proof (lifecycle_violations_nil plan effect_plan outcome no_attempt seal attempt_sequence ds r d) as H.
  unfold validate_cognitive_lifecycle. cbv zeta.
  destruct (lifecycle_violations plan effect_plan outcome no_attempt seal attempt_sequence ds r d);
    eexists; (split; [done|]); rewrite <-H; done.
Qed.

(** An outcome without a return is bound to the plan by its route only: the
    attempt it names is not compared. *)
Example unreturned_attempt_not_compared :
  let art := MkArtifactRef "d" 1 None None in
  let route := MkRouteSnapshot "route" "def" "1" art "backend" "adapter" "1" None None art "digest" [] in
  lc_verdict <$> validate_cognitive_lifecycle
    (MkCognitiveAttemptPlan "plan" "obl" "probe" "req" (Some "attempt") 0 "s" 1)
    (Some (MkEffectAttemptPlan "attempt" "req" route))
    (Some (CancelledOutcome "another-attempt" "route" SHUTDOWN None)) None None None [] None None
  = Ok LIFECYCLE_VALID.
Proof. by vm_compute. Qed.

(** ** The obligations for open dependencies *)

Lemma add_dependency_lookup route m dep d :
  add_dependency route m dep !! d = if dep ==? d then Some (default ∅ (m !! d) ∪ {[route]}) else m !! d.
Proof.
  unfold add_dependency. destruct (dep ==? d) eqn:E.
  - rewrite eqb_true in E. subst. apply lookup_insert_eq.
  - rewrite eqb_false in E. by apply lookup_insert_ne.
Qed.

(** [m] maps exactly the open dependencies of the routes to the ids of the
    routes that leave them open. *)
Definition indexes (m : gmap string (gset string)) (open : string → string → Prop) : Prop :=
  ∀ d, match m !! d with
       | Some ids => (∃ id, id ∈ ids) ∧ ∀ id, id ∈ ids ↔ open d id
       | None => ∀ id, ¬ open d id
       end.

Lemma indexes_add route m dep (open : string → string → Prop) :
  indexes m open → indexes (add_dependency route m dep) (λ d id, open d id ∨ d = dep ∧ id = route).
Proof.
  intros H d. specialize (H d). rewrite add_dependency_lookup. destruct (dep ==? d) eqn:E.
  - rewrite eqb_true in E. subst. split; [exists route; set_solver|]. intros id.
    destruct (m !! d); cbn; set_solver.
  - rewrite eqb_false in E. destruct (m !! d); [|naive_solver].
    destruct H as [Hex H]. split; [done|]. intros id. rewrite H. naive_solver.
Qed.

Lemma indexes_ext m (P Q : string → string → Prop) : (∀ d id, P d id ↔ Q d id) → indexes m P → indexes m Q.
Proof. intros HPQ H d. specialize (H d). destruct (m !! d); setoid_rewrite <-HPQ; done. Qed.

Lemma indexes_route route deps m (open : string → string → Prop) :
  indexes m open → indexes (foldl (add_dependency route) m deps) (λ d id, open d id ∨ d ∈ deps ∧ id = route).
Proof.
  revert m open. induction deps as [|dep deps IH]; intros m open H; cbn [foldl].
  - eapply indexes_ext; [|done]. cbn. set_solver.
  - eapply indexes_ext; [|apply IH, indexes_add, H]. cbn. set_solver.
Qed.

Lemma route_ids_by_dependency_indexes routes :
  indexes (route_ids_by_dependency routes)
    (λ d id, ∃ r, r ∈ routes ∧ d ∈ route_open_dependency_ids r ∧ id = route_id r).
Proof.
  unfold route_ids_by_dependency.
  enough (∀ m open, indexes m open →
    indexes (foldl (λ m r, foldl (add_dependency (route_id r)) m (route_open_dependency_ids r)) m routes)
      (λ d id, open d id ∨ ∃ r, r ∈ routes ∧ d ∈ route_open_dependency_ids r ∧ id = route_id r)) as G.
  { eapply indexes_ext; [|apply (G ∅ (λ _ _, False))]; [naive_solver|]. intros d. by rewrite lookup_empty; auto. }
  induction routes as [|r routes IH]; intros m open H; cbn [foldl].
  - eapply indexes_ext; [|done]. cbn. set_solver.
  - eapply indexes_ext; [|apply IH, indexes_route, H]. cbn. set_solver.
Qed.

Lemma traverse_Ok {A B} (f : A → result B) (g : A → B) l : (∀ x, x ∈ l → f x = Ok (g x)) → traverse f l = Ok (map g l).
Proof.
  induction l as [|x l IH]; intros H; [done|]. cbn. rewrite (H x ltac:(left)). cbn.
  rewrite IH; [done|]. intros y Hy. apply H. by right.
Qed.

Lemma built_dependency_obligation lemma_id scope d ids : lemma_id ≠ "" →
  built_obligation (dependency_obligation lemma_id scope d ids) = Ok (dependency_obligation lemma_id scope d ids).
Proof.
  intros Hl. unfold built_obligation, validate_obligation, dependency_obligation.
  cbn [obl_args for_each arg_name obl_id obl_carrier_id obl_binding_revision obl_scope obl_parent_obligation_ids map].
  unfold is_empty. rewrite (bool_decide_false (lemma_id = "")), (bool_decide_true (scope_binding_revision scope = _)) by done.
  done.
Qed.

Lemma map_fst_sort_by {A} (l : list (string * A)) : map fst (sort_by fst l) = sorted (map fst l).
Proof.
  induction l as [|x l IH]; [done|]. cbn [map]. unfold sorted in *. rewrite !sort_by_cons, <-IH.
  generalize (sort_by fst l). intros k. induction k as [|y k IHk]; [done|]. cbn. unfold key_leb.
  destruct (compare (fst x) (fst y)); cbn; by rewrite ?IHk.
Qed.

Lemma sorted_unique_fst {A} (m : gmap string A) L : (∀ d, is_Some (m !! d) ↔ d ∈ L) →
  map fst (sort_by fst (map_to_list m)) = sorted_set L.
Proof.
  intros H. rewrite map_fst_sort_by. apply sort_by_unique; [rewrite list_fmap_id; apply NoDup_fst_map_to_list|].
  apply NoDup_Permutation; [apply NoDup_fst_map_to_list|apply NoDup_remove_dups|].
  intros d. rewrite elem_of_remove_dups, <-H, elem_of_map. split.
  - intros ([d' x] & Hx%elem_of_map_to_list & ->). by eexists.
  - intros [x Hx]. exists (d, x). split; [by apply elem_of_map_to_list|done].
Qed.

Lemma sorted_elements_ext (s : gset string) L : (∀ id, id ∈ s ↔ id ∈ L) → sorted (elements s) = sorted_set L.
Proof.
  intros H. apply sort_by_unique; [rewrite list_fmap_id; apply NoDup_elements|].
  apply NoDup_Permutation; [apply NoDup_elements|apply NoDup_remove_dups|].
  intros x. by rewrite elem_of_elements, elem_of_remove_dups.
Qed.

(** Every unresolved dependency becomes exactly one obligation, even
    across alternate routes: the obligations are those of the open dependency
    ids in ascending order without repetition, each one names its dependency
    and, in order, exactly the routes that leave it open. *)
Theorem open_dependencies_exposed lemma_id support_routes scope : lemma_id ≠ "" →
  ∃ entries,
    open_dependency_obligations lemma_id support_routes scope
    = Ok (map (λ e : string * list string, dependency_obligation lemma_id scope e.1 e.2) entries)
    ∧ map fst entries = sorted_set (flat_map route_open_dependency_ids support_routes)
    ∧ ∀ d ids, (d, ids) ∈ entries →
        ids = sorted_set (map route_id (List.filter (λ r, mem d (route_open_dependency_ids r)) support_routes)).
Proof.
  intros Hl. pose proof (route_ids_by_dependency_indexes support_routes) as Hix.
  set (m := route_ids_by_dependency support_routes) in *.
  exists (map (λ e : string * gset string, (e.1, sorted (elements e.2))) (sort_by fst (map_to_list m))).
  split_and!.
  - unfold open_dependency_obligations. fold m. rewrite map_map.
    erewrite traverse_Ok; [done|]. intros [d ids] _. by apply built_dependency_obligation.
  - rewrite map_map. apply sorted_unique_fst. intros d. rewrite elem_of_flat_map. specialize (Hix d).
    destruct (m !! d) as [ids|].
    + destruct Hix as [[id Hid] H]. split; [|by eexists]. intros _. apply H in Hid as (r & ? & ? & _). eauto.
    + split; [by intros [? ?]|]. intros (r & ? & ?). exfalso. apply (Hix (route_id r)). eauto.
  - intros d ids ([d' s] & Hin & [= -> ->])%elem_of_map. apply elem_of_sort_by, elem_of_map_to_list in Hin.
    specialize (Hix d'). rewrite Hin in Hix. destruct Hix as [_ H]. apply sorted_elements_ext.
    intros id. rewrite H, elem_of_map. setoid_rewrite elem_of_lfilter. setoid_rewrite mem_true. naive_solver.
Qed.

Lemma open_dependencies_exposed_witness :
  "lemma" ≠ ""
  ∧ let environment := MkSupportEnvironment "env" "fp" "rev" [] None (MkCheckReference "ev" "cv") in
    let route id opens := MkSupportRoute id "lemma" environment opens opens (MkCheckReference "ev" "cv") [] [] [] in
    ∃ entries,
      open_dependency_obligations "lemma" [route "r2" ["b"]; route "r1" ["a"; "b"]] (MkScope "s" "rev" [] None None false)
      = Ok (map (λ e : string * list string, dependency_obligation "lemma" (MkScope "s" "rev" [] None None false) e.1 e.2) entries)
      ∧ entries = [("a", ["r1"]); ("b", ["r1"; "r2"])].
Proof.
  split; [done|]. cbv zeta.
  set (routes := [_; _]).
  destruct (open_dependencies_exposed "lemma" routes (MkScope "s" "rev" [] None None false) ltac:(done))
    as (entries & He & Hf & Hids).
  exists entries. split; [exact He|]. clear He. vm_compute in Hf.
  destruct entries as [|[d1 i1] [|[d2 i2] [|? ?]]]; try done. injection Hf as -> ->.
  rewrite (Hids "a" i1) by left. rewrite (Hids "b" i2) by (right; left). reflexivity.
Defined.
