(* ===== verification/Runner.v ===== *)
(** * Bounded evidence execution: [src/rci/evaluation/runner.py]

    Requests over captured inputs, their materialization in a fresh workspace,
    the two threads that drain a process under one lock, and the Docker
    backend.  What the operating system does is a parameter: the reads that
    the two pipes deliver in the order in which the lock was taken, whether
    the wait timed out and the return code ([ProcessRun]), and whether Docker
    is on the path.  Workspace paths are relative to the workspace, which is
    new and holds no symbolic link, so [Path.resolve] only pops "..". *)

From Stdlib Require Import Ascii.
From S2P Require Import Prelude Digest Model.

Inductive EvidenceRunStatus : Type :=
| RUN_COMPLETED | RUN_NONZERO_EXIT | RUN_TIMEOUT | RUN_OUTPUT_LIMIT | RUN_UNSUPPORTED | RUN_FAILED.
#[export] Instance EvidenceRunStatus_eq_dec : EqDecision EvidenceRunStatus.
Proof. solve_decision. Defined.

(** ** Requests *)

(** Code points of a UTF-8 string: its bytes but the continuation bytes. *)
Fixpoint text_length (s : string) : Z :=
  match s with
  | EmptyString => 0
  | String c s => (if (N.land (Ascii.N_of_ascii c) 192 =? 128)%N then 0 else 1) + text_length s
  end%Z.

(** [NonEmptyText] *)
Definition nonempty_text (s : string) : result unit :=
  raise_if ((text_length s <? 1) || (4096 <? text_length s))%Z
    ValidationError "string length must be between 1 and 4096".

Definition byte_length (s : string) : Z := Z.of_nat (String.length s).

(** [PurePosixPath(value)]: whether it is absolute, and its parts but the
    root; empty and "." components are dropped. *)
Definition is_absolute (value : string) : bool := String.prefix "/" value.
Definition posix_parts (value : string) : list string :=
  List.filter (λ part, negb (mem part [""; "."])) (split_on "/"%char value).

Record CapturedInput : Type := MkCapturedInput { relative_path : string; content : string }.
#[export] Instance CapturedInput_eq_dec : EqDecision CapturedInput.
Proof. solve_decision. Defined.

Definition validate_relative_path (value : string) : result unit :=
  raise_if (is_absolute value || (length (posix_parts value) =? 0)%nat)
    ValidationError "captured input paths must be relative";;
  raise_if (any (λ part, mem part [""; "."; ".."]) (posix_parts value))
    ValidationError "captured input paths cannot traverse the workspace";;
  raise_if (contains "\" value || contains ":" value || contains (String "000"%char EmptyString) value)
    ValidationError "captured input paths must use safe POSIX components".

Definition validate_input (i : CapturedInput) : result unit :=
  nonempty_text (relative_path i);; validate_relative_path (relative_path i);;
  raise_if (4194304 <? byte_length (content i))%Z ValidationError "data should have at most 4194304 bytes".

Record EvidenceRunRequest : Type := MkEvidenceRunRequest {
  argv : list string;
  inputs : list CapturedInput;
  timeout_seconds : Z;
  max_output_bytes : Z;
}.

Definition total (f : CapturedInput → Z) (l : list CapturedInput) : Z := foldr (λ i n, f i + n)%Z 0%Z l.

Definition validate_request (r : EvidenceRunRequest) : result unit :=
  raise_if ((length (argv r) =? 0)%nat || (128 <? length (argv r))%nat)
    ValidationError "argv must have between 1 and 128 items";;
  for_each nonempty_text (argv r);;
  raise_if (256 <? length (inputs r))%nat ValidationError "inputs must have at most 256 items";;
  for_each validate_input (inputs r);;
  raise_if ((timeout_seconds r <? 1) || (300 <? timeout_seconds r))%Z
    ValidationError "timeout_seconds must be between 1 and 300";;
  raise_if ((max_output_bytes r <? 1) || (16777216 <? max_output_bytes r))%Z
    ValidationError "max_output_bytes must be between 1 and 16777216";;
  raise_if (any (contains (String "000"%char EmptyString)) (argv r))
    ValidationError "arguments cannot contain NUL";;
  raise_if (65536 <? foldr (λ a n, byte_length a + n) 0 (argv r))%Z
    ValidationError "the combined argument vector is too large";;
  raise_if (16777216 <? total (λ i, byte_length (content i)) (inputs r))%Z
    ValidationError "captured inputs exceed the aggregate 16 MiB budget";;
  raise_if (negb (uniq (map relative_path (inputs r)))) ValidationError "captured input paths must be unique".

Record EvidenceRunResult : Type := MkEvidenceRunResult {
  run_status : EvidenceRunStatus;
  exit_code : option Z;
  stdout : string;
  stderr : string;
  diagnostic : option string;
}.

Definition validate_run_result (r : EvidenceRunResult) : result unit :=
  if (run_status r ==? RUN_COMPLETED) || (run_status r ==? RUN_NONZERO_EXIT) then
    raise_if (is_none (exit_code r)) ValidationError "completed process results require an exit code"
  else raise_if (is_some (exit_code r)) ValidationError "non-process results cannot claim an exit code".

Definition run_result (status : EvidenceRunStatus) (code : option Z) (out err : string)
    (text : option string) : result EvidenceRunResult :=
  let r := MkEvidenceRunResult status code out err text in validate_run_result r;; Ok r.

(** ** The workspace *)

(** Paths of the file system are lists of components below the workspace. *)
Inductive Entry : Type := Directory (mode : Z) | File (mode : Z) (data : string).
#[export] Instance Entry_eq_dec : EqDecision Entry.
Proof. solve_decision. Defined.
Abbreviation FileSystem := (gmap (list string) Entry).

(** What [resolve] leaves of the path: [None] when ".." climbs out. *)
Fixpoint resolve_from (here : list string) (parts : list string) : option (list string) :=
  match parts with
  | [] => Some here
  | ".." :: parts => match rev here with
                     | [] => None
                     | _ :: above => resolve_from (rev above) parts
                     end
  | part :: parts => resolve_from (here ++ [part]) parts
  end.

(** The directories above a path, below the workspace, outermost first. *)
Fixpoint parents_of (parts : list string) : list (list string) :=
  match parts with
  | [] | [_] => []
  | part :: parts => [part] :: map (cons part) (parents_of parts)
  end.

(** [mkdir(parents=True, exist_ok=True)] and the [chmod(0o755)] of the loop
    that follows it; a file in the way raises. *)
Definition make_directory (m : result FileSystem) (d : list string) : result FileSystem :=
  fs ← m;
  match (fs : FileSystem) !! d with
  | Some (File _ _) => raise OSError "a file is in the way of a directory"
  | _ => Ok (<[d := Directory 493]> fs)
  end.

(** [write_bytes] and [chmod(0o644)] *)
Definition write_file (fs : FileSystem) (path : list string) (data : string) : result FileSystem :=
  match fs !! path with
  | Some (Directory _) => raise OSError "a directory is in the way of a file"
  | _ => Ok (<[path := File 420 data]> fs)
  end.

Definition materialize_input (m : result FileSystem) (i : CapturedInput) : result FileSystem :=
  fs ← m;
  match resolve_from [] (posix_parts (relative_path i)) with
  | None | Some [] => raise ValueError "captured input escaped the temporary workspace"
  | Some path =>
    fs ← foldl make_directory (Ok (fs : FileSystem)) (parents_of path);
    write_file fs path (content i)
  end.

Definition workspace_of (r : EvidenceRunRequest) : result FileSystem :=
  foldl materialize_input (Ok ∅) (inputs r).

(** [EvidenceBackend]: whether it denies the network, and its [execute]. *)
Record EvidenceBackend : Type := MkEvidenceBackend {
  network_isolated : bool;
  backend_execute : EvidenceRunRequest → FileSystem → result EvidenceRunResult;
}.

Definition evidence_runner (b : EvidenceBackend) : result EvidenceBackend :=
  raise_if (negb (network_isolated b)) ValueError "evidence backends must enforce network denial";; Ok b.

Definition run_evidence (b : EvidenceBackend) (r : EvidenceRunRequest) : result EvidenceRunResult :=
  fs ← workspace_of r; backend_execute b r fs.

(** ** The bounded process *)

Inductive Pipe : Type := STDOUT | STDERR.
#[export] Instance Pipe_eq_dec : EqDecision Pipe.
Proof. solve_decision. Defined.

(** The variables the two [drain] threads share, and which threads still run. *)
Record DrainState : Type := MkDrainState {
  chunks : Pipe → list string;
  captured : Z;
  exceeded : bool;
  running : Pipe → bool;
}.

Definition initial_drain : DrainState := MkDrainState (λ _, []) 0 false (λ _, true).

Definition updated {A} (f : Pipe → A) (p : Pipe) (a : A) : Pipe → A := λ q, if q ==? p then a else f q.

(** [data[:n]], for [n > 0] *)
Definition kept (n : Z) (data : string) : string := String.substring 0 (Z.to_nat n) data.

(** One turn of [drain(name, pipe)]: [pipe.read] returned [data] and the lock is held. *)
Definition drain_turn (max_output_bytes : Z) (s : DrainState) (p : Pipe) (data : string) : DrainState :=
  if negb (running s p) then s
  else if data ==? "" then MkDrainState (chunks s) (captured s) (exceeded s) (updated (running s) p false)
  else
    let remaining := (max_output_bytes - captured s)%Z in
    let s' := if (0 <? remaining)%Z then
                let k := kept remaining data in
                MkDrainState (updated (chunks s) p (chunks s p ++ [k])) (captured s + byte_length k)
                  (exceeded s) (running s)
              else s in
    if (remaining <? byte_length data)%Z then
      MkDrainState (chunks s') (captured s') true (updated (running s') p false)
    else s'.

Definition drain (max_output_bytes : Z) (reads : list (Pipe * string)) : DrainState :=
  foldl (λ s read, drain_turn max_output_bytes s read.1 read.2) initial_drain reads.

(** What the operating system makes of a command: the reads up to the end of
    the joins, whether the wait timed out, and the return code. *)
Record ProcessRun : Type := MkProcessRun {
  reads : list (Pipe * string);
  wait_expired : bool;
  returncode : Z;
}.

Record BoundedProcessResult : Type := MkBoundedProcessResult {
  bp_exit_code : option Z;
  bp_stdout : string;
  bp_stderr : string;
  bp_timed_out : bool;
  bp_output_exceeded : bool;
}.

Definition run_bounded_process (os : ProcessRun) (max_output_bytes : Z) : BoundedProcessResult :=
  let s := drain max_output_bytes (reads os) in
  MkBoundedProcessResult (if wait_expired os || exceeded s then None else Some (returncode os))
    (String.concat "" (chunks s STDOUT)) (String.concat "" (chunks s STDERR)) (wait_expired os) (exceeded s).

(** ** The Docker backend *)

Definition FORBIDDEN_EXECUTABLES : list string :=
  ["ansible"; "aws"; "az"; "bash"; "busybox"; "cmd"; "curl"; "docker"; "fish"; "flit"; "gcloud"; "gh"; "git";
   "hatch"; "helm"; "kubectl"; "make"; "npm"; "npx"; "pip"; "pip3"; "pnpm"; "poetry"; "powershell"; "pwsh";
   "python"; "python3"; "rsync"; "scp"; "sh"; "ssh"; "terraform"; "twine"; "uv"; "wget"; "yarn"; "zsh"].
Definition FORBIDDEN_ACTIONS : list string :=
  ["build"; "checkout"; "commit"; "deploy"; "install"; "merge"; "package"; "publish"; "push"; "release";
   "uninstall"; "upload"].

Record DockerEvidenceBackend : Type := MkDockerEvidenceBackend {
  image : string;
  allowed_commands : list string;
  docker_executable : string;
  memory_limit : string;
  cpu_limit : string;
  pids_limit : Z;
}.

(** [s.rpartition(sep)], for the last occurrence of [sep] *)
Fixpoint rpartition (sep s : string) : string * string * string :=
  match s with
  | EmptyString => ("", "", "")
  | String c rest =>
    match rpartition sep rest with
    | (before, "", after) =>
      if String.prefix sep s
      then ("", sep, String.substring (String.length sep) (String.length s - String.length sep) s)
      else ("", "", s)
    | (before, found, after) => (String c before, found, after)
    end
  end.

(** [int(s, 16)] accepts surrounding white space, a sign, a "0x" and single
    underscores between digits. *)
Definition is_space (c : Ascii.ascii) : bool :=
  let n := Ascii.N_of_ascii c in ((9 <=? n) && (n <=? 13) || (28 <=? n) && (n <=? 32))%N.
Definition is_hex (c : Ascii.ascii) : bool :=
  let n := Ascii.N_of_ascii c in
  ((48 <=? n) && (n <=? 57) || (65 <=? n) && (n <=? 70) || (97 <=? n) && (n <=? 102))%N.
Fixpoint hex_digits (after_digit : bool) (s : list Ascii.ascii) : bool :=
  match s with
  | [] => after_digit
  | c :: s => if is_hex c then hex_digits true s
              else after_digit && Ascii.eqb c "_"%char && match s with d :: _ => is_hex d | [] => false end
                   && hex_digits false s
  end.
Fixpoint drop_space (s : list Ascii.ascii) : list Ascii.ascii :=
  match s with c :: s' => if is_space c then drop_space s' else s | [] => [] end.
Definition strip_space (s : list Ascii.ascii) : list Ascii.ascii := rev (drop_space (rev (drop_space s))).
Definition drop_sign (s : list Ascii.ascii) : list Ascii.ascii :=
  match s with c :: s' => if Ascii.eqb c "+"%char || Ascii.eqb c "-"%char then s' else s | [] => [] end.
Definition drop_hex_prefix (s : list Ascii.ascii) : list Ascii.ascii :=
  match s with
  | z :: x :: s' =>
    if Ascii.eqb z "0"%char && (Ascii.eqb x "x"%char || Ascii.eqb x "X"%char)
    then match s' with u :: s'' => if Ascii.eqb u "_"%char then s'' else s' | [] => s' end
    else s
  | _ => s
  end.
Definition int16_accepts (s : string) : bool :=
  hex_digits false (drop_hex_prefix (drop_sign (strip_space (String.list_ascii_of_string s)))).

(** [command.replace("\\", "/")] *)
Fixpoint forward_slashes (s : string) : string :=
  match s with
  | EmptyString => EmptyString
  | String c s => String (if Ascii.eqb c "\"%char then "/"%char else c) (forward_slashes s)
  end.

Definition remove_suffix (suffix s : string) : string :=
  let n := String.length s - String.length suffix in
  if negb (suffix ==? "") && (String.length suffix <=? String.length s)%nat
     && (String.substring n (String.length suffix) s ==? suffix)
  then String.substring 0 n s else s.

Definition normalized_executable (command : string) : string :=
  remove_suffix ".exe" (lower (default "" (last (posix_parts (forward_slashes command))))).

Definition validate_executable (command : string) : result unit :=
  let executable := normalized_executable command in
  raise_if (mem executable FORBIDDEN_EXECUTABLES) ValueError ("forbidden evidence executable: " +:+ executable);;
  raise_if (any (λ action, contains action executable) FORBIDDEN_ACTIONS)
    ValueError "evidence executable names cannot expose mutation/release actions".

Fixpoint strip_dashes (s : string) : string :=
  match s with String c s' => if Ascii.eqb c "-"%char then strip_dashes s' else s | EmptyString => EmptyString end.
(** [argument.lower().lstrip("-").split("=", 1)[0]] *)
Definition action_token (argument : string) : string :=
  default "" (head (split_on "="%char (strip_dashes (lower argument)))).

Definition validate_argv (args : list string) : result unit :=
  match args with
  | [] => raise IndexError "tuple index out of range"
  | command :: arguments =>
    validate_executable command;;
    for_each (λ a, raise_if (mem (action_token a) FORBIDDEN_ACTIONS)
                     ValueError ("forbidden evidence action argument: " +:+ action_token a)) arguments
  end.

Definition docker_backend (b : DockerEvidenceBackend) : result DockerEvidenceBackend :=
  let '(name, separator, digest) := rpartition "@sha256:" (image b) in
  raise_if ((name ==? "") || (separator ==? "") || negb (text_length digest =? 64)%Z)
    ValueError "Docker evidence images must be pinned by sha256 digest";;
  raise_if (negb (int16_accepts digest)) ValueError "Docker image digest must be lowercase hexadecimal";;
  raise_if (digest !=? lower digest) ValueError "Docker image digest must be lowercase hexadecimal";;
  raise_if ((length (allowed_commands b) =? 0)%nat || any is_empty (allowed_commands b))
    ValueError "at least one nonempty allowed command is required";;
  for_each validate_executable (allowed_commands b);;
  raise_if (pids_limit b <? 1)%Z ValueError "pids_limit must be positive";;
  Ok b.

Definition container_name (captured_workspace : string) : string :=
  "rci-evidence-" +:+ prefix 24 (Sha256.hexdigest captured_workspace).

Definition docker_argv (b : DockerEvidenceBackend) (r : EvidenceRunRequest) (captured_workspace : string) :
    result (list string) :=
  match argv r with
  | [] => raise IndexError "tuple index out of range"
  | command :: _ =>
    raise_if (negb (mem command (allowed_commands b))) ValueError ("command is not allowlisted: " +:+ command);;
    validate_argv (argv r);;
    Ok ([docker_executable b; "run"; "--rm"; "--pull"; "never"; "--name"; container_name captured_workspace;
         "--network"; "none"; "--read-only"; "--cap-drop"; "ALL"; "--security-opt"; "no-new-privileges=true";
         "--user"; "65532:65532"; "--memory"; memory_limit b; "--cpus"; cpu_limit b;
         "--pids-limit"; pretty (pids_limit b); "--tmpfs"; "/tmp:rw,noexec,nosuid,nodev,size=64m";
         "--mount"; "type=bind,src=" +:+ captured_workspace +:+ ",dst=/evidence,readonly";
         "--workdir"; "/tmp"; image b] ++ argv r)
  end.

(** *** Execution

    [spawn] is [subprocess.Popen] and all that follows in
    [_run_bounded_process]; the commands it is called with are logged. *)
Section execute.
Context (docker_found : bool) (spawn : list string → Z → result ProcessRun).

Definition logged (A : Type) : Type := list (list string) → result A * list (list string).

Definition bounded (command : list string) (timeout max_bytes : Z) : logged BoundedProcessResult := λ log,
  (os ← spawn command timeout; Ok (run_bounded_process os max_bytes), log ++ [command]).

(** [except OSError], with the class's name; [PermissionError] is a subclass. *)
Definition os_error_name (k : exn_kind) : option string :=
  match k with OSError => Some "OSError" | PermissionError => Some "PermissionError" | _ => None end.

(** An [OSError] of the two calls in the [try] becomes an unsupported result. *)
Definition caught {A} (m : logged A) (k : A → logged EvidenceRunResult) : logged EvidenceRunResult := λ log,
  match m log with
  | (Ok a, log) => k a log
  | (Raise e, log) =>
    match os_error_name (exn_class e) with
    | Some name => (run_result RUN_UNSUPPORTED None "" "" (Some ("Docker execution unavailable: " +:+ name)), log)
    | None => (Raise e, log)
    end
  end.

(** The result of a process that ran in the container. *)
Definition process_result (p : BoundedProcessResult) : result EvidenceRunResult :=
  if bp_timed_out p then
    run_result RUN_TIMEOUT None (bp_stdout p) (bp_stderr p) (Some "evidence command exceeded its wall-time budget")
  else if bp_output_exceeded p then
    run_result RUN_OUTPUT_LIMIT None (bp_stdout p) (bp_stderr p)
      (Some "evidence command exceeded its combined output budget")
  else match bp_exit_code p with
       | None => run_result RUN_FAILED None "" "" (Some "bounded process ended without an exit status")
       | Some code => run_result (if (code =? 0)%Z then RUN_COMPLETED else RUN_NONZERO_EXIT) (Some code)
                        (bp_stdout p) (bp_stderr p) None
       end.

Definition docker_execute (b : DockerEvidenceBackend) (r : EvidenceRunRequest) (captured_workspace : string) :
    logged EvidenceRunResult :=
  if negb docker_found then λ log, (run_result RUN_UNSUPPORTED None "" "" (Some "Docker CLI is unavailable"), log)
  else
    caught (bounded [docker_executable b; "version"; "--format"; "{{.Server.Version}}"]
              (Z.min (timeout_seconds r) 5) 4096) (λ probe,
    if bp_timed_out probe || bp_output_exceeded probe || (bp_exit_code probe !=? Some 0%Z)
    then λ log, (run_result RUN_UNSUPPORTED None "" "" (Some "Docker daemon is unavailable"), log)
    else
      caught (λ log, match docker_argv b r captured_workspace with
                     | Raise e => (Raise e, log)
                     | Ok command => bounded command (timeout_seconds r) (max_output_bytes r) log
                     end) (λ process log,
      let removed := if bp_timed_out process || bp_output_exceeded process
                     then bounded [docker_executable b; "rm"; "--force"; container_name captured_workspace] 10 4096 log
                     else (Ok process, log) in
      match removed with
      | (Raise e, log) => (Raise e, log)
      | (Ok _, log) => (process_result process, log)
      end)).
End execute.

(** ** Draining: every interleaving keeps the bound *)

(** All that the pipe [p] delivers up to its end. *)
Fixpoint delivered (p : Pipe) (l : list (Pipe * string)) : string :=
  match l with
  | [] => ""
  | (q, data) :: l =>
    if q ==? p then (if data ==? "" then "" else data +:+ delivered p l) else delivered p l
  end.

Definition stream (s : DrainState) (p : Pipe) : string := String.concat "" (chunks s p).

(** What a thread has still to read. *)
Definition outstanding (s : DrainState) (p : Pipe) (l : list (Pipe * string)) : string :=
  if running s p then delivered p l else "".

Definition both (f : Pipe → string) : Z := (byte_length (f STDOUT) + byte_length (f STDERR))%Z.

Lemma byte_length_app s t : byte_length (s +:+ t) = (byte_length s + byte_length t)%Z.
Proof.
  unfold byte_length. induction s as [|c s IH]; [done|].
  change (Z.of_nat (S (String.length (s +:+ t))) = (Z.of_nat (S (String.length s)) + Z.of_nat (String.length t))%Z). lia.
Qed.
Lemma byte_length_nil : byte_length "" = 0%Z.
Proof. done. Qed.
Lemma byte_length_nonneg s : (0 ≤ byte_length s)%Z.
Proof. unfold byte_length. lia. Qed.
Lemma byte_length_pos s : s ≠ "" → (0 < byte_length s)%Z.
Proof. destruct s; [done|]. unfold byte_length. cbn. lia. Qed.

Lemma concat_snoc l (t : string) : String.concat "" (l ++ [t]) = String.concat "" l +:+ t.
Proof.
  induction l as [|x l IH]; [done|]. destruct l as [|y l].
  - done.
  - change (x +:+ String.concat "" ((y :: l) ++ [t]) = (x +:+ String.concat "" (y :: l)) +:+ t).
    rewrite IH. by rewrite string_app_assoc.
Qed.

Lemma substring_split n s : (n ≤ String.length s)%nat →
  ∃ rest, s = String.substring 0 n s +:+ rest ∧ String.length (String.substring 0 n s) = n.
Proof.
  revert s. induction n as [|n IH]; intros s Hn.
  - exists s. destruct s; done.
  - destruct s as [|c s]; [cbn in Hn; lia|]. destruct (IH s) as (rest & Hs & Hl); [cbn in Hn; lia|].
    exists rest. split; [|cbn; by rewrite Hl].
    change (String c s = String c (String.substring 0 n s +:+ rest)). by rewrite <-Hs.
Qed.

Lemma substring_whole n s : (String.length s ≤ n)%nat → String.substring 0 n s = s.
Proof.
  revert s. induction n as [|n IH]; intros [|c s] Hn; cbn in *; try done; [lia|]. rewrite IH; [done|lia].
Qed.

Section turns.
Context (max : Z).

Definition extended (s s' : DrainState) (p : Pipe) (k : string) : Prop :=
  (∀ q, stream s' q = if q ==? p then stream s p +:+ k else stream s q)
  ∧ captured s' = (captured s + byte_length k)%Z
  ∧ ∀ q, q ≠ p → running s' q = running s q.

(** The cases of a turn: the thread has returned, the pipe is at its end, the
    data fits, or it does not. *)
Lemma drain_turn_spec s p data : (captured s ≤ max)%Z →
  let s' := drain_turn max s p data in
  ∃ k, extended s s' p k ∧
    ((running s p = false ∧ k = "" ∧ running s' p = false ∧ exceeded s' = exceeded s)
     ∨ (running s p = true ∧ data = "" ∧ k = "" ∧ running s' p = false ∧ exceeded s' = exceeded s)
     ∨ (running s p = true ∧ data ≠ "" ∧ k = data ∧ running s' p = true ∧ exceeded s' = exceeded s
        ∧ (captured s' ≤ max)%Z)
     ∨ (running s p = true ∧ data ≠ "" ∧ (∃ rest, data = k +:+ rest) ∧ running s' p = false
        ∧ exceeded s' = true ∧ captured s' = max ∧ (max < captured s + byte_length data)%Z)).
Proof.
  intros Hc s'. assert (∀ s, stream s p = stream s p +:+ "") as Hnil by (intros; by rewrite string_app_nil_r).
  assert (∀ q : Pipe, q ≠ p → (q ==? p) = false) as Hne by (intros; by apply eqb_false).
  assert ((p ==? p) = true) as Hpp by by apply eqb_true.
  unfold s', drain_turn. destruct (running s p) eqn:Hr; cbn [negb].
  2: { exists "". split; [|by left]. split_and!; [|cbn [captured]; rewrite byte_length_nil; lia|done]. intros q.
       destruct (q ==? p) eqn:E; [|done]. rewrite eqb_true in E. subst. apply Hnil. }
  destruct (data ==? "") eqn:Ed.
  { rewrite eqb_true in Ed. exists "". split.
    - split_and!; [|cbn [captured]; rewrite byte_length_nil; lia|]; intros q.
      + destruct (q ==? p) eqn:E; [|done]. rewrite eqb_true in E. subst. apply (Hnil s).
      + intros Hq. cbn. unfold updated. by rewrite Hne.
    - right. left. split_and!; try done. cbn. unfold updated. by rewrite Hpp. }
  rewrite eqb_false in Ed. pose proof (byte_length_pos data Ed) as Hpos.
  assert (∀ k q, String.concat "" (updated (chunks s) p (chunks s p ++ [k]) q)
                 = if q ==? p then stream s p +:+ k else stream s q) as Hstream.
  { intros k q. unfold updated. destruct (q ==? p); [apply concat_snoc|done]. }
  destruct (max - captured s <? byte_length data)%Z eqn:Eo; cbv zeta.
  - apply Z.ltb_lt in Eo. destruct (0 <? max - captured s)%Z eqn:E0.
    + apply Z.ltb_lt in E0. destruct (substring_split (Z.to_nat (max - captured s)) data) as (rest & Hd & Hl).
      { unfold byte_length in Eo. lia. }
      assert (byte_length (kept (max - captured s) data) = (max - captured s)%Z) as Hk.
      { unfold byte_length, kept. rewrite Hl. lia. }
      exists (kept (max - captured s) data). split.
      * split_and!; [apply Hstream|done|]. intros q Hq. cbn. unfold updated. by rewrite Hne.
      * right. right. right. split_and!; [done..|by exists rest| |done|cbn [captured]; lia|lia]. cbn. unfold updated. by rewrite Hpp.
    + apply Z.ltb_ge in E0. exists "". split.
      * split_and!; [|cbn [captured]; rewrite byte_length_nil; lia|]; intros q.
        -- destruct (q ==? p) eqn:E; [|done]. rewrite eqb_true in E. subst. apply (Hnil s).
        -- intros Hq. cbn. unfold updated. by rewrite Hne.
      * right. right. right. split_and!; [done..|by exists data| |done|cbn [captured]; lia|lia]. cbn. unfold updated. by rewrite Hpp.
  - apply Z.ltb_ge in Eo. replace (0 <? max - captured s)%Z with true by lia.
    assert (kept (max - captured s) data = data) as ->.
    { apply substring_whole. unfold byte_length in Eo. lia. }
    exists data. split; [split_and!; [apply Hstream|done|done]|].
    right. right. left. split_and!; try done. cbn [captured]. lia.
Qed.

(** What the turns from [s] on do to the shared variables. *)
Definition turns_sound (s f : DrainState) (l : list (Pipe * string)) : Prop :=
  captured f = both (stream f) ∧ (captured f ≤ max)%Z ∧ (exceeded f = true → captured f = max)
  ∧ (∀ p, ∃ rest, stream s p +:+ outstanding s p l = stream f p +:+ rest ∧ (exceeded f = false → rest = ""))
  ∧ (exceeded f = true → exceeded s = true ∨ (max < captured s + both (λ p, outstanding s p l))%Z)
  ∧ (exceeded s = true → exceeded f = true).

Lemma both_extended s s' p k : extended s s' p k → both (stream s') = (both (stream s) + byte_length k)%Z.
Proof.
  intros (Hs & _). unfold both. rewrite (Hs STDOUT), (Hs STDERR). destruct p.
  - change (STDOUT ==? STDOUT) with true. change (STDERR ==? STDOUT) with false. cbv iota. rewrite byte_length_app. lia.
  - change (STDOUT ==? STDERR) with false. change (STDERR ==? STDERR) with true. cbv iota. rewrite byte_length_app. lia.
Qed.

Lemma delivered_step p q data l :
  delivered p ((q, data) :: l) = if q ==? p then (if data ==? "" then "" else data +:+ delivered p l) else delivered p l.
Proof. done. Qed.

Lemma turns_sound_nil s : captured s = both (stream s) → (captured s ≤ max)%Z →
  (exceeded s = true → captured s = max) → turns_sound s s [].
Proof.
  intros H1 H2 H3. split_and!; auto. intros p. exists "". unfold outstanding. by destruct (running s p).
Qed.

(** What the thread of [p] has read and has still to read, before and after its turn. *)
Lemma turn_outstanding s p data l : (captured s ≤ max)%Z →
  let s' := drain_turn max s p data in
  (exceeded s = true → exceeded s' = true)
  ∧ ∃ extra, stream s p +:+ outstanding s p ((p, data) :: l) = stream s' p +:+ (outstanding s' p l +:+ extra)
      ∧ (exceeded s' = false → extra = "")
      ∧ (extra = "" ∧ exceeded s' = exceeded s
         ∨ (max < captured s + byte_length (outstanding s p ((p, data) :: l)))%Z).
Proof.
  intros H2 s'. destruct (drain_turn_spec s p data H2) as (k & (Hs & _) & Hcase). fold s' in Hs, Hcase.
  assert (outstanding s p ((p, data) :: l)
          = if running s p then (if data ==? "" then "" else data +:+ delivered p l) else "") as ->.
  { unfold outstanding. rewrite delivered_step. by rewrite (proj2 (eqb_true p p) eq_refl). }
  assert (stream s' p = stream s p +:+ k) as -> by (by rewrite Hs, (proj2 (eqb_true p p) eq_refl)).
  unfold outstanding.
  destruct Hcase as [(-> & -> & -> & E)|[(-> & -> & -> & -> & E)|[(-> & Hd & -> & -> & E & _)|(-> & Hd & [r0 Hr0] & -> & E & _ & Hov)]]];
    (split; [by rewrite E|]).
  - exists "". rewrite !string_app_nil_r. auto.
  - exists "". change ("" ==? "") with true. rewrite !string_app_nil_r. auto.
  - exists "". rewrite (proj2 (eqb_false data "") Hd), !string_app_nil_r, string_app_assoc. auto.
  - exists (r0 +:+ delivered p l). rewrite (proj2 (eqb_false data "") Hd), E. split_and!; [|done|].
    + change ("" +:+ (r0 +:+ delivered p l)) with (r0 +:+ delivered p l). by rewrite Hr0, !string_app_assoc.
    + right. rewrite byte_length_app. pose proof (byte_length_nonneg (delivered p l)). lia.
Qed.

Lemma turns s l : captured s = both (stream s) → (captured s ≤ max)%Z → (exceeded s = true → captured s = max) →
  turns_sound s (foldl (λ s read, drain_turn max s read.1 read.2) s l) l.
Proof.
  revert s. induction l as [|[p data] l IH]; intros s H1 H2 H3; [by apply turns_sound_nil|].
  cbn [foldl fst snd]. destruct (drain_turn_spec s p data H2) as (k & Hx & Hcase).
  set (s' := drain_turn max s p data) in *. pose proof (both_extended _ _ _ _ Hx) as Hb.
  destruct Hx as (Hs & Hcap & Hrun).
  assert (captured s' ≤ max)%Z as H2' by (destruct Hcase as [(? & -> & _)|[(? & ? & -> & _)|[?|?]]]; rewrite ?byte_length_nil in Hcap; intuition lia).
  assert (exceeded s' = true → captured s' = max) as H3'.
  { intros He. destruct Hcase as [(_ & -> & _ & E)|[(_ & _ & -> & _ & E)|[(_ & Hd & -> & _ & E & _)|(_ & _ & _ & _ & _ & E & _)]]]; [..|done];
      rewrite E in He; specialize (H3 He); rewrite ?byte_length_nil in Hcap; try lia. pose proof (byte_length_nonneg data). lia. }
  destruct (IH s' ltac:(lia) H2' H3') as (F1 & F2 & F3 & F4 & F5 & F6).
  set (f := foldl _ s' l) in *.
  assert (∀ q, q ≠ p → outstanding s q ((p, data) :: l) = outstanding s' q l) as Hother.
  { intros q Hq. unfold outstanding. rewrite (Hrun q Hq), delivered_step. destruct (running s q); [|done].
    by rewrite (proj2 (eqb_false p q)). }
  destruct (turn_outstanding s p data l H2) as (Hmono & extra & Hextra & Hnone & Hlen). fold s' in Hmono, Hextra, Hnone, Hlen.
  assert (stream s' p = stream s p +:+ k) as Hsp by (by rewrite Hs, (proj2 (eqb_true p p) eq_refl)).
  split_and!; [done..| | |by intros He; apply F6, Hmono].
  - intros q. destruct (F4 q) as (r & Hr & Hrn). destruct (q ==? p) eqn:E.
    + rewrite eqb_true in E. subst q. exists (r +:+ extra).
      rewrite Hextra, <-string_app_assoc, Hr, string_app_assoc. split; [done|].
      intros Hf. rewrite (Hrn Hf), Hnone; [done|]. destruct (exceeded s') eqn:E'; [by rewrite (F6 eq_refl) in Hf|done].
    + rewrite eqb_false in E. exists r. rewrite (Hother q E). rewrite Hs, (proj2 (eqb_false q p) E) in Hr. done.
  - intros He. destruct Hlen as [[Hx0 Hes]|Hlen].
    + subst extra. rewrite string_app_nil_r in Hextra. rewrite Hsp, string_app_assoc in Hextra.
      apply (f_equal byte_length) in Hextra. rewrite !byte_length_app in Hextra.
      destruct (F5 He) as [H|H]; [left; by rewrite <-Hes|right]. unfold both in *.
      destruct p; [rewrite (Hother STDERR) by done|rewrite (Hother STDOUT) by done]; lia.
    + right. unfold both. pose proof (byte_length_nonneg (outstanding s STDOUT ((p, data) :: l))).
      pose proof (byte_length_nonneg (outstanding s STDERR ((p, data) :: l))). destruct p; lia.
Qed.
End turns.

Lemma drain_exact_bound max l : (0 ≤ max)%Z → (both (stream (drain max l)) ≤ max)%Z.
Proof. intros Hmax. destruct (turns max initial_drain l eq_refl Hmax) as (H & ? & _); [done|]. unfold drain. by rewrite <-H. Qed.

(** C31: However the two pipes interleave, the captured output is exactly
    bounded: the two streams together hold as many bytes as were delivered, up
    to [max_output_bytes], the overflow flag says whether more was delivered,
    and each stream is a prefix of what its pipe delivered (all of it without
    overflow). *)
Theorem drain_exact max_output_bytes l : (0 ≤ max_output_bytes)%Z →
  let s := drain max_output_bytes l in
  let all_bytes := both (λ p, delivered p l) in
  both (stream s) = Z.min max_output_bytes all_bytes
  ∧ (exceeded s = true ↔ (max_output_bytes < all_bytes)%Z)
  ∧ ∀ p, ∃ rest, delivered p l = stream s p +:+ rest ∧ (exceeded s = false → rest = "").
Proof.
  intros Hmax. cbv zeta. unfold drain.
  destruct (turns max_output_bytes initial_drain l eq_refl Hmax) as (F1 & F2 & F3 & F4 & F5 & _); [done|].
  set (f := foldl _ initial_drain l) in *.
  assert (∀ p, ∃ rest, delivered p l = stream f p +:+ rest ∧ (exceeded f = false → rest = "")) as F4' by exact F4.
  destruct (F4' STDOUT) as (ro & Ho & Hro), (F4' STDERR) as (re & He & Hre).
  assert (both (λ p, delivered p l) = both (stream f) + byte_length ro + byte_length re)%Z as Hall.
  { unfold both. rewrite Ho, He, !byte_length_app. lia. }
  pose proof (byte_length_nonneg ro). pose proof (byte_length_nonneg re).
  destruct (exceeded f) eqn:Ef.
  - destruct (F5 eq_refl) as [H'|H']; [done|]. specialize (F3 eq_refl).
    change (max_output_bytes < 0 + both (λ p, delivered p l))%Z in H'.
    split_and!; [lia|split; [lia|done]|done].
  - rewrite (Hro eq_refl), (Hre eq_refl), !byte_length_nil in Hall.
    split_and!; [lia|split; [done|lia]|done].
Qed.

Lemma drain_exact_witness :
  (0 ≤ 5)%Z
  ∧ let s := drain 5 [(STDOUT, "abc"); (STDERR, "xyz"); (STDOUT, "d"); (STDERR, "w"); (STDOUT, "")] in
    both (stream s) = 5%Z ∧ exceeded s = true ∧ stream s STDERR = "xy".
Proof.
  split; [lia|]. cbv zeta.
  destruct (drain_exact 5 [(STDOUT, "abc"); (STDERR, "xyz"); (STDOUT, "d"); (STDERR, "w"); (STDOUT, "")]) as (H & He & _); [lia|].
  split; [rewrite H; reflexivity|]. split; [by apply He|reflexivity].
Defined.

(** ** The Docker backend *)

Definition probe_command (b : DockerEvidenceBackend) : list string :=
  [docker_executable b; "version"; "--format"; "{{.Server.Version}}"].
Definition removal_command (b : DockerEvidenceBackend) (ws : string) : list string :=
  [docker_executable b; "rm"; "--force"; container_name ws].

(** A container command: an allowed executable that is not forbidden, without
    a forbidden action among its arguments, behind the isolating options. *)
Definition contained (b : DockerEvidenceBackend) (r : EvidenceRunRequest) (command : list string) : Prop :=
  ∃ executable arguments before after,
    argv r = executable :: arguments
    ∧ executable ∈ allowed_commands b
    ∧ normalized_executable executable ∉ FORBIDDEN_EXECUTABLES
    ∧ (∀ a, a ∈ arguments → action_token a ∉ FORBIDDEN_ACTIONS)
    ∧ command = docker_executable b :: "run" :: before
        ++ ["--network"; "none"; "--read-only"; "--cap-drop"; "ALL"; "--security-opt"; "no-new-privileges=true"]
        ++ after ++ image b :: argv r.

Lemma docker_argv_contained b r ws command : docker_argv b r ws = Ok command → contained b r command.
Proof.
  unfold docker_argv. destruct (argv r) as [|executable arguments] eqn:Ea; [done|].
  unfold validate_argv, validate_executable. rewrite raise_if_bind, negb_false_iff, mem_true, !seq_ok, raise_if_ok, mem_false.
  intros (Hall & ((Hex & _) & Hargs) & [= <-]).
  exists executable, arguments, ["--rm"; "--pull"; "never"; "--name"; container_name ws].
  exists ["--user"; "65532:65532"; "--memory"; memory_limit b; "--cpus"; cpu_limit b;
          "--pids-limit"; pretty (pids_limit b); "--tmpfs"; "/tmp:rw,noexec,nosuid,nodev,size=64m";
          "--mount"; "type=bind,src=" +:+ ws +:+ ",dst=/evidence,readonly"; "--workdir"; "/tmp"].
  rewrite Ea. split_and!; try done. rewrite for_each_ok in Hargs. intros a Ha.
  specialize (Hargs a Ha). by rewrite raise_if_ok, mem_false in Hargs.
Qed.

Lemma run_result_ok status code out err text x :
  run_result status code out err text = Ok x →
  x = MkEvidenceRunResult status code out err text
  ∧ (status = RUN_COMPLETED ∨ status = RUN_NONZERO_EXIT ↔ is_some code = true).
Proof.
  unfold run_result. cbv zeta. rewrite seq_ok. intros [H [= <-]]. split; [done|].
  unfold validate_run_result in H. cbn in H. destruct status, code; naive_solver.
Qed.

(** What a result says of its process. *)
Definition faithful_result (r : EvidenceRunRequest) (x : EvidenceRunResult) : Prop :=
  (byte_length (stdout x) + byte_length (stderr x) ≤ max_output_bytes r)%Z
  ∧ (run_status x = RUN_COMPLETED ↔ exit_code x = Some 0%Z)
  ∧ (run_status x = RUN_NONZERO_EXIT ↔ ∃ n, exit_code x = Some n ∧ n ≠ 0%Z).

Lemma no_process_faithful r status text x : (0 ≤ max_output_bytes r)%Z →
  run_result status None "" "" text = Ok x → faithful_result r x.
Proof.
  intros Hmax [-> H]%run_result_ok. unfold faithful_result. cbn [stdout stderr run_status exit_code].
  rewrite byte_length_nil. cbn in H. split; [lia|]. split; split; try done; naive_solver.
Qed.

Lemma process_result_faithful r os x : (0 ≤ max_output_bytes r)%Z →
  process_result (run_bounded_process os (max_output_bytes r)) = Ok x → faithful_result r x.
Proof.
  intros Hmax. pose proof (drain_exact_bound (max_output_bytes r) (reads os) Hmax) as Hb.
  unfold process_result, run_bounded_process. cbn [bp_timed_out bp_output_exceeded bp_exit_code bp_stdout bp_stderr].
  destruct (wait_expired os); cbn [orb].
  { intros [-> H]%run_result_ok. split; [exact Hb|]. cbn in H |- *. split; split; try done; naive_solver. }
  destruct (exceeded _).
  { intros [-> H]%run_result_ok. split; [exact Hb|]. cbn in H |- *. split; split; try done; naive_solver. }
  intros [-> H]%run_result_ok. split; [exact Hb|]. cbn.
  clear H. destruct (returncode os =? 0)%Z eqn:E; [apply Z.eqb_eq in E as ->|apply Z.eqb_neq in E].
  - split; [done|]. split; [done|]. by intros (n & [= <-] & ?).
  - split; [split; [done|by intros [= ?]]|]. split; [eauto|done].
Qed.

Section execution.
Context (found : bool) (spawn : list string → Z → result ProcessRun)
        (b : DockerEvidenceBackend) (r : EvidenceRunRequest) (ws : string).
Hypothesis Hmax : (0 ≤ max_output_bytes r)%Z.

Lemma bounded_inv command timeout n log :
  (∃ os, spawn command timeout = Ok os
         ∧ bounded spawn command timeout n log = (Ok (run_bounded_process os n), log ++ [command]))
  ∨ ∃ e, bounded spawn command timeout n log = (Raise e, log ++ [command]).
Proof. unfold bounded. destruct (spawn command timeout) as [os|e]; cbn; eauto. Qed.

Lemma os_error_faithful e (log : list (list string)) res log' :
  match os_error_name (exn_class e) with
  | Some name => (run_result RUN_UNSUPPORTED None "" "" (Some ("Docker execution unavailable: " +:+ name)), log)
  | None => (Raise e, log)
  end = (res, log') → log' = log ∧ ∀ x, res = Ok x → faithful_result r x ∧ run_status x = RUN_UNSUPPORTED.
Proof.
  destruct (os_error_name _); intros [= <- <-]; (split; [done|]); [|done]. intros x Hx. split.
  - by eapply no_process_faithful.
  - by apply run_result_ok in Hx as [-> _].
Qed.

(** The version probe ran in time, within its bound, and exited with 0. *)
Definition daemon_answered : Prop :=
  ∃ os, spawn (probe_command b) (Z.min (timeout_seconds r) 5) = Ok os
        ∧ bp_timed_out (run_bounded_process os 4096) = false
        ∧ bp_output_exceeded (run_bounded_process os 4096) = false
        ∧ bp_exit_code (run_bounded_process os 4096) = Some 0%Z.

(** C32: Docker evidence is contained and its result faithful, whatever Docker
    does.  One execution issues at most three commands, in this order: the
    version probe, the container command, and its forced removal.  A container
    command runs an allowlisted and not forbidden executable without forbidden
    action arguments, without network, on a read-only root and without
    capabilities; without the probe's success it is not issued.  The result
    holds at most [max_output_bytes] bytes of output, is completed exactly
    with exit code 0, and a timed-out or overflowing container is removed. *)
Theorem docker_execution_contained res log :
  docker_execute found spawn b r ws [] = (res, log) →
  (∃ command, log `prefix_of` [probe_command b; command; removal_command b ws]
              ∧ (2 ≤ length log → docker_argv b r ws = Ok command ∧ contained b r command ∧ daemon_answered))
  ∧ (∀ x, res = Ok x → faithful_result r x
      ∧ (run_status x = RUN_TIMEOUT ∨ run_status x = RUN_OUTPUT_LIMIT → length log = 3)).
Proof.
  unfold docker_execute. destruct found; cbn [negb].
  2: { intros [= <- <-]. split; [exists []; split; [by eexists|cbn; lia]|]. intros x Hx.
       split; [by eapply no_process_faithful|]. apply run_result_ok in Hx as [-> _]. by intros [?|?]. }
  unfold caught at 1. fold (probe_command b).
  destruct (bounded_inv (probe_command b) (Z.min (timeout_seconds r) 5) 4096 []) as [(probe & Hprobe & ->)|(e & ->)].
  2: { intros [-> H]%os_error_faithful. split; [exists []; split; [by eexists|cbn; lia]|]. intros x Hx.
       destruct (H x Hx) as [? ->]. split; [done|]. by intros [?|?]. }
  destruct (_ || _) eqn:Hanswer.
  { intros [= <- <-]. split; [exists []; split; [by eexists|cbn; lia]|]. intros x Hx.
    split; [by eapply no_process_faithful|]. apply run_result_ok in Hx as [-> _]. by intros [?|?]. }
  unfold caught. destruct (docker_argv b r ws) as [command|e] eqn:Hargv.
  2: { intros [-> H]%os_error_faithful. split; [exists []; split; [by eexists|cbn; lia]|]. intros x Hx.
       destruct (H x Hx) as [? ->]. split; [done|]. by intros [?|?]. }
  pose proof (docker_argv_contained b r ws command Hargv) as Hc.
  assert daemon_answered as Hd.
  { rewrite !orb_false_iff, neqb_false in Hanswer. exists probe. tauto. }
  clear Hanswer.
  destruct (bounded_inv command (timeout_seconds r) (max_output_bytes r) ([] ++ [probe_command b])) as [(os & _ & ->)|(e & ->)].
  2: { intros [-> H]%os_error_faithful. split; [exists command; split; [by eexists|done]|]. intros x Hx.
       destruct (H x Hx) as [? ->]. split; [done|]. by intros [?|?]. }
  destruct (_ || _) eqn:Hover.
  - fold (removal_command b ws).
    destruct (bounded_inv (removal_command b ws) 10 4096 (([] ++ [probe_command b]) ++ [command])) as [(x & _ & ->)|(e & ->)];
      intros [= <- <-]; (split; [exists command; split; [by eexists|done]|]); [|done].
    intros y Hy. split; [by eapply process_result_faithful|done].
  - intros [= <- <-]. split; [exists command; split; [by eexists|done]|]. intros y Hy.
    split; [by eapply process_result_faithful|]. apply orb_false_iff in Hover as [Ht Ho].
    unfold process_result in Hy. rewrite Ht, Ho in Hy. destruct (bp_exit_code _) as [code|];
      apply run_result_ok in Hy as [-> _]; cbn; [destruct (code =? 0)%Z|]; by intros [?|?].
Qed.
End execution.

(** ** Examples *)

Definition sample_backend (digest : string) : DockerEvidenceBackend :=
  MkDockerEvidenceBackend ("checker@sha256:" +:+ digest) ["check"] "docker" "512m" "1.0" 128.
Definition zeros (n : nat) : string := String.concat "" (repeat "0" n).
Definition sample_request (max_bytes : Z) : EvidenceRunRequest :=
  MkEvidenceRunRequest ["check"; "--all"] [] 30 max_bytes.
(** Docker answers the probe, and the container prints six bytes. *)
Definition chatty (command : list string) (_ : Z) : result ProcessRun :=
  Ok (MkProcessRun (if mem "run" command then [(STDOUT, "abc"); (STDERR, "def")] else []) false 0).

Lemma docker_execution_contained_witness :
  (is_ok (docker_backend (sample_backend (zeros 64))) = true ∧ (0 ≤ max_output_bytes (sample_request 4))%Z)
  ∧ ∃ x log, docker_execute true chatty (sample_backend (zeros 64)) (sample_request 4) "/tmp/w" [] = (Ok x, log)
             ∧ faithful_result (sample_request 4) x ∧ run_status x = RUN_OUTPUT_LIMIT ∧ length log = 3.
Proof.
  split; [split; [by vm_compute|by vm_compute]|].
  assert (run_status <$> (docker_execute true chatty (sample_backend (zeros 64)) (sample_request 4) "/tmp/w" []).1
          = Ok RUN_OUTPUT_LIMIT) as Hs by by vm_compute.
  destruct (docker_execute true chatty (sample_backend (zeros 64)) (sample_request 4) "/tmp/w" []) as [[x|e] log] eqn:E;
    [|done].
  injection Hs as Hs. exists x, log. split; [done|].
  destruct (docker_execution_contained true chatty (sample_backend (zeros 64)) (sample_request 4) "/tmp/w"
              ltac:(by vm_compute) (Ok x) log E) as (_ & H).
  destruct (H x eq_refl) as [Hf Hl]. split; [done|]. split; [done|]. apply Hl. by right.
Defined.

(** The digest check does not ask for 64 hexadecimal digits: [int(digest, 16)]
    also takes a "0x" prefix, underscores and white space. *)
Example loose_digest_accepted :
  is_ok (docker_backend (sample_backend ("0x" +:+ zeros 62))) = true
  ∧ is_ok (docker_backend (sample_backend (" " +:+ zeros 61 +:+ "_0"))) = true.
Proof. by vm_compute. Qed.

(** Two spellings of one path pass the uniqueness check, and the second input
    replaces the first in the workspace. *)
Example aliased_inputs_overwrite :
  let r := MkEvidenceRunRequest ["check"] [MkCapturedInput "a/b" "first"; MkCapturedInput "a//b" "second"] 30 1024 in
  validate_request r = Ok tt
  ∧ (λ fs : FileSystem, (fs !! ["a"; "b"], size fs)) <$> workspace_of r = Ok (Some (File 420 "second"), 2).
Proof. by vm_compute. Qed.

(** A valid request whose inputs need one name both as a file and as a
    directory raises instead of returning a typed result. *)
Example nested_inputs_raise (b : EvidenceBackend) :
  let r := MkEvidenceRunRequest ["check"] [MkCapturedInput "a" "file"; MkCapturedInput "a/b" "below"] 30 1024 in
  validate_request r = Ok tt ∧ run_evidence b r = raise OSError "a file is in the way of a directory".
Proof. by vm_compute. Qed.

(** ** A validated path stays below the workspace *)

Lemma resolve_plain here parts : ".." ∉ parts → resolve_from here parts = Some (here ++ parts).
Proof.
  revert here. induction parts as [|p parts IH]; intros here Hp; [by rewrite app_nil_r|].
  apply not_elem_of_cons in Hp as [Hne Hp]. specialize (IH (here ++ [p]) Hp). rewrite <-app_assoc in IH.
  revert Hne IH. cbn [resolve_from app]. repeat case_match; try done.
Qed.

Lemma validated_path_confined value : validate_relative_path value = Ok tt →
  resolve_from [] (posix_parts value) = Some (posix_parts value) ∧ posix_parts value ≠ [].
Proof.
  unfold validate_relative_path. rewrite !raise_if_bind, orb_false_iff, any_false. intros ((_ & Hn) & Hd & _).
  split; [|by destruct (posix_parts value)]. apply resolve_plain. intros Hin. by specialize (Hd _ Hin).
Qed.
