(* ===== verification/Evidence.v ===== *)
(** * The evidence adapter: [src/rci/evaluation/effects.py]

    Captured inputs are published as artifacts, the persisted request names
    them, and the adapter reads them back, runs them on the Docker backend and
    encodes what came of it.  The strict [model_validate_json] of the two
    records is a parameter ([EvidenceModels]); [base64] follows RFC 4648.  The
    route registry and the adapter share the store of the runtime. *)

From Stdlib Require Import Ascii.
From S2P Require Import Prelude Digest Dumps Model Planning Effects Artifacts Goals State Serialization Store Runtime Executor Runner.

Definition EVIDENCE_ADAPTER_ID : string := "docker-evidence".
Definition EVIDENCE_ADAPTER_VERSION : string := "1.0.0".

(** ** [base64] *)

Module Base64.

(** The 64 characters of the standard alphabet. *)
Definition alphabet : list ascii :=
  String.list_ascii_of_string "ABCDEFGHIJKLMNOPQRSTUVWXYZabcdefghijklmnopqrstuvwxyz0123456789+/".
Definition character (n : N) : ascii := nth (N.to_nat n) alphabet "="%char.
Fixpoint position (c : ascii) (l : list ascii) : option N :=
  match l with
  | [] => None
  | d :: l => if Ascii.eqb c d then Some 0%N else N.succ <$> position c l
  end.
Definition sextet (c : ascii) : option N := position c alphabet.

(** [b64encode], on the bytes and as ASCII text *)
Fixpoint encode_bytes (l : list N) : list ascii :=
  match l with
  | [] => []
  | [a] => [character (N.shiftr a 2); character (N.shiftl (N.land a 3) 4); "="%char; "="%char]
  | [a; b] =>
    [character (N.shiftr a 2); character (N.lor (N.shiftl (N.land a 3) 4) (N.shiftr b 4));
     character (N.shiftl (N.land b 15) 2); "="%char]
  | a :: b :: c :: l =>
    character (N.shiftr a 2) :: character (N.lor (N.shiftl (N.land a 3) 4) (N.shiftr b 4))
    :: character (N.lor (N.shiftl (N.land b 15) 2) (N.shiftr c 6)) :: character (N.land c 63) :: encode_bytes l
  end.

Definition bytes_of (s : string) : list N := map N_of_ascii (String.list_ascii_of_string s).
Definition string_of (l : list N) : string := String.string_of_list_ascii (map ascii_of_N l).

Definition b64encode (data : string) : string := String.string_of_list_ascii (encode_bytes (bytes_of data)).

(** [b64decode(..., validate=True)]: whole groups of four, with padding in
    the last one only. *)
Fixpoint decode_groups (l : list ascii) : option (list N) :=
  match l with
  | [] => Some []
  | p :: q :: r :: s :: l =>
    x ← sextet p; y ← sextet q;
    let a := N.lor (N.shiftl x 2) (N.shiftr y 4) in
    if Ascii.eqb s "="%char then
      if is_nil l then
        if Ascii.eqb r "="%char then Some [a]
        else z ← sextet r; Some [a; N.lor (N.shiftl (N.land y 15) 4) (N.shiftr z 2)]
      else None
    else
      z ← sextet r; w ← sextet s; rest ← decode_groups l;
      Some (a :: N.lor (N.shiftl (N.land y 15) 4) (N.shiftr z 2) :: N.lor (N.shiftl (N.land z 3) 6) w :: rest)
  | _ => None
  end.

(** The bytes, or the name of the class of the exception. *)
Definition b64decode (text : string) : string + string :=
  let l := String.list_ascii_of_string text in
  if existsb (λ c, 127 <? N_of_ascii c)%N l then inl "ValueError"
  else match decode_groups l with
       | Some data => inr (string_of data)
       | None => inl "Error"
       end.
End Base64.
Import Base64.

(** ** Records *)

Definition identifier (s : string) : result unit :=
  raise_if (negb (is_identifier s)) ValidationError "string should match the identifier pattern".

Record EvidenceArtifactInput : Type := MkEvidenceArtifactInput {
  eai_relative_path : string;
  eai_artifact : ArtifactRef;
}.
#[export] Instance EvidenceArtifactInput_eq_dec : EqDecision EvidenceArtifactInput.
Proof. solve_decision. Defined.
#[export] Instance EvidenceArtifactInput_to_json : ToJson EvidenceArtifactInput := λ i,
  JObject [("relative_path", to_json (eai_relative_path i)); ("artifact", to_json (eai_artifact i))].

(** The validator builds a [CapturedInput] with no content. *)
Definition validate_artifact_input (i : EvidenceArtifactInput) : result unit :=
  validate_input (MkCapturedInput (eai_relative_path i) "").

Record EvidenceEffectEnvelope : Type := MkEvidenceEffectEnvelope {
  ee_argv : list string;
  ee_inputs : list EvidenceArtifactInput;
  ee_max_output_bytes : Z;
}.
#[export] Instance EvidenceEffectEnvelope_eq_dec : EqDecision EvidenceEffectEnvelope.
Proof. solve_decision. Defined.
#[export] Instance EvidenceEffectEnvelope_to_json : ToJson EvidenceEffectEnvelope := λ e,
  JObject [("argv", to_json (ee_argv e)); ("inputs", to_json (ee_inputs e));
           ("max_output_bytes", to_json (ee_max_output_bytes e))].

(** The bounds of the fields, and [validate_envelope]. *)
Definition validate_envelope (e : EvidenceEffectEnvelope) : result unit :=
  raise_if ((length (ee_argv e) =? 0)%nat || (128 <? length (ee_argv e))%nat)
    ValidationError "argv must have between 1 and 128 items";;
  for_each nonempty_text (ee_argv e);;
  raise_if (256 <? length (ee_inputs e))%nat ValidationError "inputs must have at most 256 items";;
  raise_if ((ee_max_output_bytes e <? 1) || (16777216 <? ee_max_output_bytes e))%Z
    ValidationError "max_output_bytes must be between 1 and 16777216";;
  validate_request (MkEvidenceRunRequest (ee_argv e) [] 1 (ee_max_output_bytes e));;
  raise_if (negb (uniq (map eai_relative_path (ee_inputs e))))
    ValidationError "evidence artifact input paths must be unique".

Definition EvidenceRunStatus_value (s : EvidenceRunStatus) : string :=
  match s with
  | RUN_COMPLETED => "completed" | RUN_NONZERO_EXIT => "nonzero_exit" | RUN_TIMEOUT => "timeout"
  | RUN_OUTPUT_LIMIT => "output_limit" | RUN_UNSUPPORTED => "unsupported" | RUN_FAILED => "failed"
  end.

Record EvidenceRawResult : Type := MkEvidenceRawResult {
  raw_status : EvidenceRunStatus;
  raw_exit_code : option Z;
  raw_stdout_base64 : string;
  raw_stderr_base64 : string;
  raw_diagnostic : option string;
}.
#[export] Instance EvidenceRawResult_eq_dec : EqDecision EvidenceRawResult.
Proof. solve_decision. Defined.
#[export] Instance EvidenceRawResult_to_json : ToJson EvidenceRawResult := λ r,
  JObject [("status", JString (EvidenceRunStatus_value (raw_status r))); ("exit_code", to_json (raw_exit_code r));
           ("stdout_base64", to_json (raw_stdout_base64 r)); ("stderr_base64", to_json (raw_stderr_base64 r));
           ("diagnostic", to_json (raw_diagnostic r))].

Record EvidenceResultSummary : Type := MkEvidenceResultSummary {
  sum_execution_status : EvidenceRunStatus;
  sum_exit_code : option Z;
  sum_stdout_digest : string;
  sum_stdout_size : Z;
  sum_stderr_digest : string;
  sum_stderr_size : Z;
  sum_diagnostic : option string;
}.
#[export] Instance EvidenceResultSummary_to_json : ToJson EvidenceResultSummary := λ s,
  JObject [("execution_status", JString (EvidenceRunStatus_value (sum_execution_status s)));
           ("exit_code", to_json (sum_exit_code s)); ("stdout_digest", to_json (sum_stdout_digest s));
           ("stdout_size", to_json (sum_stdout_size s)); ("stderr_digest", to_json (sum_stderr_digest s));
           ("stderr_size", to_json (sum_stderr_size s)); ("diagnostic", to_json (sum_diagnostic s))].

(** [model_validate_json(..., strict=True)] of the two records the adapter
    reads; a failure carries the class of the exception. *)
Record EvidenceModels : Type := {
  em_parse_envelope : string → result EvidenceEffectEnvelope;
  em_parse_raw : string → result EvidenceRawResult;
}.

(** ** [docker_evidence_route_definition] *)

Definition docker_evidence_route_definition (b : DockerEvidenceBackend) (command : string) : result RouteDefinition :=
  raise_if (negb (mem command (allowed_commands b)))
    ValueError "evidence command is not allowlisted by the Docker backend";;
  validate_executable command;;
  let '(_, separator, digest) := rpartition "@sha256:" (image b) in
  raise_if (is_empty separator) ValueError "not enough values to unpack (expected 2, got 1)";;
  let d := MkRouteDefinition
             ("docker-evidence/" +:+ prefix 16 digest +:+ "/" +:+ prefix 16 (Sha256.hexdigest command)) "1.0.0"
             ("docker-image/" +:+ digest) EVIDENCE_ADAPTER_ID EVIDENCE_ADAPTER_VERSION
             (Some "local-docker-daemon") "docker-container" [] in
  identifier (rd_definition_id d);; identifier (rd_backend_id d);;
  Ok d.

(** ** [prepare_evidence_attempt] *)

Definition capture_input (i : CapturedInput) : sdk EvidenceArtifactInput :=
  a ← put_artifact (content i) (Some "application/octet-stream") (Some "binary");
  let captured := MkEvidenceArtifactInput (relative_path i) a in
  lift (validate_artifact_input captured);; mret captured.

Fixpoint capture_inputs (l : list CapturedInput) : sdk (list EvidenceArtifactInput) :=
  match l with
  | [] => mret []
  | i :: l => captured ← capture_input i; rest ← capture_inputs l; mret (captured :: rest)
  end.

Definition execution_environment (b : DockerEvidenceBackend) : json :=
  JObject [("capabilities", JObject
             [("cap_drop", JString "ALL"); ("credentials", JBool false); ("docker_socket_in_container", JBool false);
              ("input_mount", JString "read-only-captured-workspace"); ("network", JString "none");
              ("output_mount", JBool false); ("root_filesystem", JString "read-only"); ("source_mount", JBool false)]);
           ("image", JString (image b));
           ("resource_bounds", JObject
             [("cpus", JString (cpu_limit b)); ("memory", JString (memory_limit b)); ("pids", JInt (pids_limit b))])].

Definition ready_plan (p : StepPlan) : bool := (plan_status p ==? READY) && is_some (plan_selected_attempt_key p).

Definition prepare_evidence_attempt (registry : list RouteDefinition) (r : EvidenceRunRequest) (step_plan : StepPlan)
    (request_id attempt_id route_id : string) (b : DockerEvidenceBackend) : sdk (EffectRequest * EffectAttemptPlan) :=
  lift (raise_if (negb (ready_plan step_plan))
          ValueError "an evidence effect requires a content-derived ready step plan");;
  command ← lift (or_raise (head (argv r)) IndexError "tuple index out of range");
  definition ← lift (docker_evidence_route_definition b command);
  captured_inputs ← capture_inputs (inputs r);
  let envelope := MkEvidenceEffectEnvelope (argv r) captured_inputs (max_output_bytes r) in
  lift (validate_envelope envelope);;
  input_ref ← put_artifact (canonical_json (to_json envelope))
                (Some "application/vnd.rci.evidence-request+json") (Some "utf-8");
  let effect_request := MkEffectRequest request_id (plan_id step_plan) "evaluation.bounded_evidence"
                          EVIDENCE_ADAPTER_ID input_ref (timeout_seconds r) in
  lift (identifier request_id;; validate_timeout effect_request);;
  definition_ref ← definition_artifact definition;
  environment_ref ← put_artifact (canonical_json (execution_environment b))
                      (Some "application/vnd.rci.execution-environment+json") (Some "utf-8");
  let route := MkRouteSnapshot route_id (rd_definition_id definition) (rd_definition_version definition)
                 definition_ref (rd_backend_id definition) (rd_adapter_id definition)
                 (rd_adapter_version definition) (rd_endpoint_or_channel definition) (Some (rd_transport definition))
                 environment_ref (Sha256.hexdigest (canonical_json (to_json effect_request))) [] in
  lift (identifier route_id);;
  reading (λ st, validate_route registry st effect_request route);;
  lift (identifier attempt_id);;
  mret (effect_request, MkEffectAttemptPlan attempt_id request_id route).

(** ** [EvidenceEffectAdapter] *)

Section adapter.
Context (em : EvidenceModels).

Definition read_input (st : ArtifactStore) (i : EvidenceArtifactInput) : result CapturedInput :=
  data ← get_bytes st (eai_artifact i);
  let captured := MkCapturedInput (eai_relative_path i) data in
  validate_input captured;; Ok captured.

Definition artifact_total (l : list EvidenceArtifactInput) : Z := foldr (λ i n, art_size (eai_artifact i) + n)%Z 0%Z l.

(** [_request] *)
Definition evidence_request (st : ArtifactStore) (input_bytes : string) (timeout : Z) : result EvidenceRunRequest :=
  envelope ← em_parse_envelope em input_bytes;
  raise_if (any (λ i, 4194304 <? art_size (eai_artifact i))%Z (ee_inputs envelope))
    ValueError "an evidence artifact exceeds the per-input 4 MiB budget";;
  raise_if (16777216 <? artifact_total (ee_inputs envelope))%Z
    ValueError "evidence artifacts exceed the aggregate 16 MiB budget";;
  captured ← mapM (read_input st) (ee_inputs envelope);
  let r := MkEvidenceRunRequest (ee_argv envelope) captured timeout (ee_max_output_bytes envelope) in
  validate_request r;; Ok r.

Definition validate_evidence_input (st : ArtifactStore) (input_bytes : string) : result unit :=
  evidence_request st input_bytes 1;; Ok tt.

(** [_raw_result] *)
Definition raw_result (x : EvidenceRunResult) : string :=
  canonical_json (to_json (MkEvidenceRawResult (run_status x) (exit_code x) (b64encode (stdout x))
                             (b64encode (stderr x)) (diagnostic x))).

Definition perform_evidence (backend : EvidenceBackend) (st : ArtifactStore) (input_bytes : string) (timeout : Z) :
    result string :=
  r ← evidence_request st input_bytes timeout;
  x ← run_evidence backend r;
  Ok (raw_result x).

(** [type(error).__name__]; z3's and pydantic's own names where the class is theirs. *)
Definition class_name (k : exn_kind) : string :=
  match k with
  | ValueError => "ValueError" | ValidationError => "ValidationError" | KeyError => "KeyError"
  | IndexError => "IndexError" | PermissionError => "PermissionError" | RuntimeError => "RuntimeError"
  | EvaluationError => "EvaluationError" | RecoveryCompatibilityError => "RecoveryCompatibilityError"
  | InvalidCommandError => "InvalidCommandError" | InvalidTransitionError => "InvalidTransitionError"
  | IdentityConflictError => "IdentityConflictError" | EffectLifecycleError => "EffectLifecycleError"
  | RetrievalConflictError => "RetrievalConflictError" | ReconstructionConflictError => "ReconstructionConflictError"
  | GeneratedQuestionCompilationError => "GeneratedQuestionCompilationError" | AttributeError => "AttributeError"
  | AssertionError => "AssertionError" | StopIteration => "StopIteration" | TypeError => "TypeError"
  | OSError => "OSError" | PersistenceError => "PersistenceError" | IntegrityError => "IntegrityError"
  | OptimisticConcurrencyError => "OptimisticConcurrencyError" | DuplicateEventError => "DuplicateEventError"
  | SnapshotConflictError => "SnapshotConflictError" | UnsupportedSchemaVersionError => "UnsupportedSchemaVersionError"
  | SagaIntegrityError => "SagaIntegrityError" | ArtifactIntegrityError => "ArtifactIntegrityError"
  | UnsupportedEventSchemaVersion => "UnsupportedEventSchemaVersion" | AnswerSubmissionError => "AnswerSubmissionError"
  | UnknownRouteDefinitionError => "UnknownRouteDefinitionError" | RouteValidationError => "RouteValidationError"
  | EffectUnsupportedError => "EffectUnsupportedError" | EffectTransportError => "EffectTransportError"
  | UnsupportedTranslation => "UnsupportedTranslation" | BackendLoadFailure => "BackendLoadFailure"
  | Z3Exception => "Z3Exception"
  end.

(** [perform_exact] as the executor sees it. *)
Definition performed (m : result string) : Performed :=
  match m with
  | Ok data => ExactBytes data
  | Raise e => if exn_class e ==? EffectUnsupportedError then RaisedUnsupported (class_name (exn_class e))
               else if exn_class e ==? EffectTransportError then RaisedTransport (class_name (exn_class e))
               else RaisedOther (class_name (exn_class e))
  end.

(** The construction of an [AdapterDecodeResult] that carries a diagnostic,
    which is a [NonEmptyText]. *)
Definition failed_decode (status : AdapterDecodeStatus) (text : string) : result AdapterDecodeResult :=
  let d := MkAdapterDecodeResult status None None None None (Some text) in
  nonempty_text text;; validate_shape d;; Ok d.

(** [a or b] on an optional text *)
Definition or_text (a : option string) (b : string) : string :=
  match a with Some t => if is_empty t then b else t | None => b end.

Definition summary_of (raw : EvidenceRawResult) (out err : string) : EvidenceResultSummary :=
  MkEvidenceResultSummary (raw_status raw) (raw_exit_code raw) (Sha256.hexdigest out) (byte_length out)
    (Sha256.hexdigest err) (byte_length err) (raw_diagnostic raw).

(** The calls of the [try]: the record and the two streams, or the class's name. *)
Definition read_raw (raw_bytes : string) : string + EvidenceRawResult * string * string :=
  match em_parse_raw em raw_bytes with
  | Raise e => inl (class_name (exn_class e))
  | Ok raw =>
    match b64decode (raw_stdout_base64 raw) with
    | inl name => inl name
    | inr out => match b64decode (raw_stderr_base64 raw) with
                 | inl name => inl name
                 | inr err => inr (raw, out, err)
                 end
    end
  end.

(** [decode_exact] *)
Definition decode_evidence (raw_bytes : string) : result AdapterDecodeResult :=
  match read_raw raw_bytes with
  | inl name => failed_decode AD_MALFORMED ("malformed evidence return: " +:+ name)
  | inr (raw, out, err) =>
    match raw_status raw with
    | RUN_UNSUPPORTED => failed_decode AD_UNSUPPORTED (or_text (raw_diagnostic raw) "evidence runner is unsupported")
    | RUN_FAILED => failed_decode AD_FAILED (or_text (raw_diagnostic raw) "evidence runner failed")
    | _ =>
      let d := MkAdapterDecodeResult AD_DECODED (Some (canonical_json (to_json (summary_of raw out err))))
                 (Some "application/vnd.rci.evidence-summary+json") (Some "utf-8")
                 (Some "evaluation.evidence_result") None in
      validate_shape d;; Ok d
    end
  end.

(** The adapter, over the artifacts it sees and a Docker that answers with
    [spawn]; its workspace is [captured_workspace]. *)
Definition docker_evidence_backend (docker_found : bool) (spawn : list string → Z → result ProcessRun)
    (captured_workspace : string) (b : DockerEvidenceBackend) : EvidenceBackend :=
  MkEvidenceBackend true (λ r _, (docker_execute docker_found spawn b r captured_workspace []).1).

Definition evidence_adapter (backend : EvidenceBackend) (st : ArtifactStore) : Adapter := {|
  ad_id := EVIDENCE_ADAPTER_ID;
  ad_version := EVIDENCE_ADAPTER_VERSION;
  ad_validate_input := λ _, validate_evidence_input st;
  ad_preflight := λ _, PreflightPassed;
  ad_perform_exact := λ _ input_bytes timeout, performed (perform_evidence backend st input_bytes timeout);
  ad_decode_exact := λ _, decode_evidence;
|}.

(** [execute_persisted] *)
Definition execute_evidence (py : Pydantic) (clock : nat → Z) (registry : list RouteDefinition)
    (backend : EvidenceBackend) (st : ArtifactStore) (inquiry_id request_id attempt_id : string) : exec InquiryState :=
  execute py clock registry (evidence_adapter backend st) inquiry_id request_id attempt_id true.
End adapter.

(** ** [b64decode] inverts [b64encode] *)

Definition below (n : nat) : list N := map N.of_nat (seq 0 n).

Lemma elem_of_below n x : (x < N.of_nat n)%N → x ∈ below n.
Proof.
  intros H. apply list_elem_of_fmap. exists (N.to_nat x). split; [lia|]. apply elem_of_seq. lia.
Qed.

Lemma forall_bytes (P : N → N → bool) : forallb (λ a, forallb (P a) (below 256)) (below 256) = true →
  ∀ a b, (a < 256)%N → (b < 256)%N → P a b = true.
Proof.
  intros H a b Ha Hb. rewrite all_true in H. specialize (H a (elem_of_below 256 a Ha)).
  rewrite all_true in H. by apply H, elem_of_below.
Qed.

(** The sextets of three bytes, and the bytes they give back. *)
Definition second (a b : N) : N := N.lor (N.shiftl (N.land a 3) 4) (N.shiftr b 4).
Definition third (b c : N) : N := N.lor (N.shiftl (N.land b 15) 2) (N.shiftr c 6).

Lemma first_sextet a b : (a < 256)%N → (b < 256)%N →
  ((N.shiftr a 2 <? 64) && (second a b <? 64)
   && (N.lor (N.shiftl (N.shiftr a 2) 2) (N.shiftr (second a b) 4) =? a)
   && (N.land (second a b) 15 =? N.shiftr b 4))%N = true.
Proof. revert a b. apply forall_bytes. by vm_compute. Qed.

Lemma second_sextet b c : (b < 256)%N → (c < 256)%N →
  ((third b c <? 64) && (N.lor (N.shiftl (N.shiftr b 4) 4) (N.shiftr (third b c) 2) =? b)
   && (N.land (third b c) 3 =? N.shiftr c 6))%N = true.
Proof. revert b c. apply forall_bytes. by vm_compute. Qed.

Lemma last_sextet c : (c < 256)%N →
  ((N.land c 63 <? 64) && (N.lor (N.shiftl (N.shiftr c 6) 6) (N.land c 63) =? c))%N = true.
Proof.
  intros Hc. apply (forall_bytes (λ c _, ((N.land c 63 <? 64)
    && (N.lor (N.shiftl (N.shiftr c 6) 6) (N.land c 63) =? c))%N) ltac:(by vm_compute) c 0%N Hc). lia.
Qed.

Lemma sextet_character n : (n < 64)%N → sextet (character n) = Some n ∧ Ascii.eqb (character n) "="%char = false.
Proof.
  intros Hn. assert (forallb (λ n, (sextet (character n) ==? Some n) && negb (Ascii.eqb (character n) "="%char))
                       (below 64) = true) as H by by vm_compute.
  rewrite all_true in H. specialize (H n (elem_of_below 64 n Hn)).
  by rewrite andb_true_iff, eqb_true, negb_true_iff in H.
Qed.

Lemma decode_encode_groups l : Forall (λ x, (x < 256)%N) l → decode_groups (encode_bytes l) = Some l.
Proof.
  induction l as [l IH] using (induction_ltof1 _ length). unfold ltof in IH. destruct l as [|a [|b [|c l]]]; intros Hl.
  - done.
  - apply Forall_cons in Hl as [Ha _]. pose proof (first_sextet a 0 Ha ltac:(lia)) as H1.
    assert (N.shiftl (N.land a 3) 4 = second a 0) as E by (unfold second; by rewrite N.lor_0_r).
    repeat (apply andb_true_iff in H1 as [H1 ?]). rewrite N.ltb_lt, N.eqb_eq in *.
    cbn [encode_bytes decode_groups]. rewrite E.
    destruct (sextet_character _ H1) as [-> _], (sextet_character (second a 0) ltac:(done)) as [-> _]. cbn. congruence.
  - apply Forall_cons in Hl as [Ha [Hb _]%Forall_cons].
    pose proof (first_sextet a b Ha Hb) as H1. pose proof (second_sextet b 0 Hb ltac:(lia)) as H2.
    assert (N.shiftl (N.land b 15) 2 = third b 0) as E by (unfold third; by rewrite N.lor_0_r).
    repeat (apply andb_true_iff in H1 as [H1 ?]). repeat (apply andb_true_iff in H2 as [H2 ?]).
    rewrite N.ltb_lt, N.eqb_eq in *. cbn [encode_bytes decode_groups]. rewrite E. fold (second a b).
    destruct (sextet_character _ H1) as [-> _], (sextet_character (second a b) ltac:(done)) as [-> _],
      (sextet_character _ H2) as [E3 E3'].
    cbn [mbind option_bind]. rewrite Ascii.eqb_refl, E3', E3. cbn. congruence.
  - apply Forall_cons in Hl as [Ha [Hb [Hc Hl]%Forall_cons]%Forall_cons].
    pose proof (first_sextet a b Ha Hb) as H1. pose proof (second_sextet b c Hb Hc) as H2.
    pose proof (last_sextet c Hc) as H3.
    repeat (apply andb_true_iff in H1 as [H1 ?]). repeat (apply andb_true_iff in H2 as [H2 ?]).
    apply andb_true_iff in H3 as [H3 ?].
    rewrite N.ltb_lt, N.eqb_eq in *. cbn [encode_bytes decode_groups]. fold (second a b) (third b c).
    destruct (sextet_character _ H1) as [-> _], (sextet_character (second a b) ltac:(done)) as [-> _],
      (sextet_character _ H2) as [E3 _], (sextet_character _ H3) as [E4 E4'].
    cbn [mbind option_bind]. rewrite E4', E3, E4. cbn [mbind option_bind]. rewrite (IH l) by (done || (cbn; lia)).
    cbn. congruence.
Qed.

Lemma character_ascii n : (127 <? N_of_ascii (character n))%N = false.
Proof.
  unfold character. destruct (nth_in_or_default (N.to_nat n) alphabet "="%char) as [H| ->]; [|done].
  assert (forallb (λ c, negb (127 <? N_of_ascii c)%N) alphabet = true) as Ha by by vm_compute.
  apply negb_true_iff. rewrite forallb_forall in Ha. by apply Ha.
Qed.

Lemma encode_ascii l : existsb (λ c, 127 <? N_of_ascii c)%N (encode_bytes l) = false.
Proof.
  induction l as [l IH] using (induction_ltof1 _ length). unfold ltof in IH. destruct l as [|a [|b [|c l]]];
    cbn [encode_bytes existsb]; rewrite ?character_ascii; [done..|]. apply IH. cbn. lia.
Qed.

Lemma bytes_bounded s : Forall (λ x, (x < 256)%N) (bytes_of s).
Proof. apply Forall_fmap, Forall_forall. intros c _. apply N_ascii_bounded. Qed.

Lemma string_of_bytes s : string_of (bytes_of s) = s.
Proof.
  unfold string_of, bytes_of. rewrite map_map, map_ext with (g := λ c, c), map_id by apply ascii_N_embedding.
  apply String.string_of_list_ascii_of_string.
Qed.

Lemma b64decode_encode data : b64decode (b64encode data) = inr data.
Proof.
  unfold b64decode, b64encode. rewrite String.list_ascii_of_string_of_list_ascii, encode_ascii.
  by rewrite decode_encode_groups, string_of_bytes by apply bytes_bounded.
Qed.

(** ** What the adapter makes of a result *)

Section results.
Context (em : EvidenceModels).

Definition raw_of (x : EvidenceRunResult) : EvidenceRawResult :=
  MkEvidenceRawResult (run_status x) (exit_code x) (b64encode (stdout x)) (b64encode (stderr x)) (diagnostic x).

Lemma read_raw_result x : em_parse_raw em (raw_result x) = Ok (raw_of x) →
  read_raw em (raw_result x) = inr (raw_of x, stdout x, stderr x).
Proof.
  intros Hp. unfold read_raw. rewrite Hp. cbn [raw_of raw_stdout_base64 raw_stderr_base64].
  by rewrite !b64decode_encode.
Qed.

(** What the evidence adapter makes of the bytes it returned itself: a run
    that reached the container decodes, whatever it printed, into the digests
    and the sizes of exactly the two captured streams, with the status and the
    exit code of the run; an unsupported or failed run decodes as such, with a
    nonempty diagnostic, its own where it has one; none is ever malformed. *)
Theorem evidence_result_roundtrip x : em_parse_raw em (raw_result x) = Ok (raw_of x) →
  (∀ t, diagnostic x = Some t → t ≠ "" → nonempty_text t = Ok tt) →
  ∃ d, decode_evidence em (raw_result x) = Ok d ∧
  match run_status x with
  | RUN_UNSUPPORTED | RUN_FAILED =>
    adr_status d = (if run_status x ==? RUN_FAILED then AD_FAILED else AD_UNSUPPORTED)
    ∧ adr_semantic_bytes d = None
    ∧ ∃ text, adr_diagnostic d = Some text ∧ text ≠ "" ∧ (∀ t, diagnostic x = Some t → t ≠ "" → text = t)
  | _ =>
    adr_status d = AD_DECODED ∧ adr_diagnostic d = None
    ∧ adr_semantic_bytes d = Some (canonical_json (to_json
        (MkEvidenceResultSummary (run_status x) (exit_code x)
           (Sha256.hexdigest (stdout x)) (byte_length (stdout x))
           (Sha256.hexdigest (stderr x)) (byte_length (stderr x)) (diagnostic x))))
  end.
Proof.
  intros Hp Hlen. unfold decode_evidence. rewrite read_raw_result by done. cbn [raw_of raw_status raw_diagnostic].
  assert (∀ o b, b ≠ "" → or_text o b ≠ "" ∧ ∀ t, o = Some t → t ≠ "" → or_text o b = t) as Hor.
  { intros [t|] b Hb; cbn; [|done]. unfold is_empty. destruct (t ==? "") eqn:E.
    - rewrite eqb_true in E. subst t. split; [done|]. by intros ? [= <-].
    - rewrite eqb_false in E. split; [done|]. by intros ? [= <-]. }
  assert (∀ status b, status ≠ AD_DECODED → nonempty_text b = Ok tt →
    failed_decode status (or_text (diagnostic x) b)
    = Ok (MkAdapterDecodeResult status None None None None (Some (or_text (diagnostic x) b)))) as Hfail.
  { intros status b Hs Hb. assert (nonempty_text (or_text (diagnostic x) b) = Ok tt) as Ht.
    { destruct (diagnostic x) as [t|]; [|done]. cbn. unfold is_empty. destruct (t ==? "") eqn:E; [done|].
      apply Hlen; [done|]. by rewrite eqb_false in E. }
    unfold failed_decode. rewrite Ht. by destruct status. }
  destruct (run_status x) eqn:E; [eexists; split; [reflexivity|]; cbn..| |].
  1-4: by unfold summary_of; cbn; rewrite ?E.
  - rewrite Hfail by done. eexists. split; [done|]. split_and!; [done..|]. eexists. split; [done|]. by apply Hor.
  - rewrite Hfail by done. eexists. split; [done|]. split_and!; [done..|]. eexists. split; [done|]. by apply Hor.
Qed.
End results.

(** A model that knows one text. *)
Definition one_raw (data : string) (raw : EvidenceRawResult) : EvidenceModels := {|
  em_parse_envelope := λ _, raise ValidationError "";
  em_parse_raw := λ s, if s ==? data then Ok raw else raise ValidationError "";
|}.

Lemma evidence_result_roundtrip_witness :
  let x := MkEvidenceRunResult RUN_NONZERO_EXIT (Some 3%Z) "out" "oops" None in
  let em := one_raw (raw_result x) (raw_of x) in
  em_parse_raw em (raw_result x) = Ok (raw_of x)
  ∧ ∃ d, decode_evidence em (raw_result x) = Ok d ∧ adr_status d = AD_DECODED.
Proof.
  intros x em. assert (em_parse_raw em (raw_result x) = Ok (raw_of x)) as Hp.
  { unfold em, one_raw. cbn [em_parse_raw]. by rewrite bool_decide_true. }
  split; [exact Hp|]. destruct (evidence_result_roundtrip em x Hp ltac:(intros t [=])) as (d & Hd & H & _). by exists d.
Defined.

(** ** What is published is what is read *)

Lemma sdk_ok {A B} (m : sdk A) (f : A → sdk B) rt b rt' :
  (m ≫= f) rt = (Ok b, rt') ↔ ∃ a rt1, m rt = (Ok a, rt1) ∧ f a rt1 = (Ok b, rt').
Proof. unfold mbind, sdk_bind. destruct (m rt) as [[a|e] rt1]; naive_solver. Qed.

Lemma lift_ok {A B} (m : result A) (f : A → sdk B) rt b rt' :
  (lift m ≫= f) rt = (Ok b, rt') ↔ ∃ a, m = Ok a ∧ f a rt = (Ok b, rt').
Proof. rewrite sdk_ok. unfold lift. naive_solver. Qed.

Definition ref_of (data : string) (media_type encoding : option string) : ArtifactRef :=
  MkArtifactRef (Sha256.hexdigest data) (byte_length data) media_type encoding.

(** Bytes of the digest and the size of [data] lie where its digest says. *)
Definition stored (st : ArtifactStore) (data : string) : Prop :=
  ∃ p x, path_for_digest (Sha256.hexdigest data) = Ok p ∧ (st : gmap string string) !! p = Some x
         ∧ byte_length x = byte_length data ∧ Sha256.hexdigest x = Sha256.hexdigest data.

(** No stored file collides with one of the texts of [l]. *)
Definition no_collision (st : ArtifactStore) (l : list string) : Prop :=
  ∀ p x y, (st : gmap string string) !! p = Some x → y ∈ l → Sha256.hexdigest x = Sha256.hexdigest y → x = y.

Lemma stored_weaken (st st' : ArtifactStore) data : st ⊆ st' → stored st data → stored st' data.
Proof. intros Hs (p & x & Hp & Hx & H). exists p, x. split_and!; try apply H; [done|]. by eapply lookup_weaken. Qed.

Lemma get_stored st l data media_type encoding : no_collision st l → data ∈ l → stored st data →
  get_bytes st (ref_of data media_type encoding) = Ok data.
Proof.
  intros Hc Hd (p & x & Hp & Hx & Hl & Hh). pose proof (Hc p x data Hx Hd Hh) as ->.
  apply get_bytes_ok. by exists p.
Qed.

Lemma get_bytes_weaken (st st' : ArtifactStore) a data : st ⊆ st' → get_bytes st a = Ok data → get_bytes st' a = Ok data.
Proof.
  intros Hs. rewrite !get_bytes_ok. intros (p & Hp & Hx & H). exists p. split; [done|]. split; [|done]. by eapply lookup_weaken.
Qed.

(** What a call that only publishes artifacts leaves. *)
Definition publishes (rt rt' : Runtime) : Prop :=
  rt_database rt' = rt_database rt ∧ rt_artifacts rt ⊆ rt_artifacts rt'.
#[export] Instance publishes_trans : Transitive publishes.
Proof. intros rt1 rt2 rt3 [H1 H2] [H3 H4]. split; [congruence|by etrans]. Qed.

Lemma put_artifact_ok data media_type encoding rt a rt' :
  put_artifact data media_type encoding rt = (Ok a, rt') →
  a = ref_of data media_type encoding ∧ publishes rt rt' ∧ stored (rt_artifacts rt') data.
Proof.
  unfold put_artifact, put_bytes. intros H.
  destruct (path_for _) as [p|] eqn:Hp; cbn in H; [|done].
  destruct (rt_artifacts rt !! p) as [x|] eqn:Hx.
  - destruct (verify_bytes x _) as [[]|] eqn:Hv; cbn in H; [|done]. injection H as <- <-.
    apply verify_bytes_ok in Hv as [Hl Hd]. split; [done|]. split; [done|]. exists p, x. by split_and!.
  - destruct (verify_bytes data _) as [[]|] eqn:Hv; cbn in H; [|done]. injection H as <- <-.
    split; [done|]. split; [split; [done|by apply insert_subseteq]|].
    exists p, data. split_and!; try done. cbn. apply lookup_insert_eq.
Qed.

Definition captured_of (i : CapturedInput) : EvidenceArtifactInput :=
  MkEvidenceArtifactInput (relative_path i)
    (ref_of (content i) (Some "application/octet-stream") (Some "binary")).

Lemma capture_inputs_ok l rt cs rt' : capture_inputs l rt = (Ok cs, rt') →
  cs = map captured_of l ∧ publishes rt rt' ∧ ∀ i, i ∈ l → stored (rt_artifacts rt') (content i).
Proof.
  revert rt cs. induction l as [|i l IH]; intros rt cs; cbn [capture_inputs].
  { intros [= <- <-]. split_and!; [done..|by intros i ?%not_elem_of_nil]. }
  rewrite sdk_ok. intros (c & rt1 & Hc & H). rewrite sdk_ok in H. destruct H as (rest & rt2 & Hrest & [= <- <-]).
  unfold capture_input in Hc. rewrite sdk_ok in Hc. destruct Hc as (a & rt3 & Ha & Hc).
  rewrite lift_ok in Hc. destruct Hc as (_ & _ & [= <- <-]).
  apply put_artifact_ok in Ha as (-> & Hp & Hst). apply IH in Hrest as (-> & Hp' & Hst').
  split; [done|]. split; [by etrans|]. intros j [->|Hj]%elem_of_cons; [|by apply Hst'].
  eapply stored_weaken, Hst. apply Hp'.
Qed.

Definition envelope_of (r : EvidenceRunRequest) : EvidenceEffectEnvelope :=
  MkEvidenceEffectEnvelope (argv r) (map captured_of (inputs r)) (max_output_bytes r).
Definition envelope_bytes (r : EvidenceRunRequest) : string := canonical_json (to_json (envelope_of r)).
Definition written (r : EvidenceRunRequest) : list string := envelope_bytes r :: map content (inputs r).

Lemma read_inputs st l cs : no_collision st (map content cs) → l ⊆ cs → (∀ i, i ∈ l → stored st (content i)) →
  (∀ i, i ∈ l → validate_input i = Ok tt) → mapM (read_input st) (map captured_of l) = Ok l.
Proof.
  intros Hc Hsub Hst Hv. induction l as [|i l IH]; [done|]. cbn [map mapM].
  assert (read_input st (captured_of i) = Ok i) as ->.
  { unfold read_input, captured_of. cbn [eai_artifact eai_relative_path].
    rewrite (get_stored st (map content cs)); [|done| |by apply Hst; left].
    - cbn [mbind result_bind]. replace (MkCapturedInput (relative_path i) (content i)) with i by by destruct i.
      rewrite Hv by left. done.
    - apply list_elem_of_fmap_2, Hsub. left. }
  cbn [mbind result_bind]. rewrite IH; [done|..].
  - intros x Hx. apply Hsub. by right.
  - intros j Hj. apply Hst. by right.
  - intros j Hj. apply Hv. by right.
Qed.

Lemma total_captured l :
  artifact_total (map captured_of l) = total (λ i, byte_length (content i)) l.
Proof. unfold artifact_total, total. induction l as [|i l IH]; cbn; [done|]. by rewrite IH. Qed.

Lemma request_bounds r : validate_request r = Ok tt →
  (∀ i, i ∈ inputs r → validate_input i = Ok tt)
  ∧ (total (λ i, byte_length (content i)) (inputs r) ≤ 16777216)%Z
  ∧ ∀ timeout, (1 ≤ timeout ≤ 300)%Z →
      validate_request (MkEvidenceRunRequest (argv r) (inputs r) timeout (max_output_bytes r)) = Ok tt.
Proof.
  unfold validate_request. cbn [argv inputs timeout_seconds max_output_bytes]. intros H.
  rewrite !seq_ok, !raise_if_ok, !for_each_ok in H.
  destruct H as (H1 & H2 & H3 & H4 & H5 & H6 & H7 & H8 & H9 & H10). split; [done|].
  split; [by apply Z.ltb_ge|]. intros timeout Ht.
  rewrite !seq_ok, !raise_if_ok, !for_each_ok. split_and!; try done. lia.
Qed.

(** The adapter reads the published request back, on any store that still
    holds what was published. *)
Lemma evidence_request_read em (st : ArtifactStore) r timeout :
  em_parse_envelope em (envelope_bytes r) = Ok (envelope_of r) → validate_request r = Ok tt →
  no_collision st (written r) → (∀ i, i ∈ inputs r → stored st (content i)) → (1 ≤ timeout ≤ 300)%Z →
  evidence_request em st (envelope_bytes r) timeout
  = Ok (MkEvidenceRunRequest (argv r) (inputs r) timeout (max_output_bytes r)).
Proof.
  intros Hp Hv Hc Hst Ht. destruct (request_bounds r Hv) as (Hin & Htot & Hreq).
  unfold evidence_request. rewrite Hp. cbn [mbind result_bind envelope_of ee_inputs ee_argv ee_max_output_bytes].
  assert (any (λ i, 4194304 <? art_size (eai_artifact i))%Z (map captured_of (inputs r)) = false) as ->.
  { apply any_false. intros c (i & -> & Hi)%list_elem_of_fmap. specialize (Hin i Hi). unfold validate_input in Hin.
    rewrite !seq_ok, raise_if_ok in Hin. by destruct Hin as (_ & _ & Hin). }
  rewrite total_captured. replace (16777216 <? _)%Z with false by lia. cbn [raise_if mbind result_bind].
  rewrite (read_inputs st (inputs r) (inputs r)); [|..].
  - cbn [mbind result_bind]. by rewrite Hreq.
  - intros p x y Hx Hy. apply (Hc p x y Hx). by right.
  - done.
  - done.
  - done.
Qed.

Lemma validate_route_weaken registry (st st' : ArtifactStore) r snapshot d : st ⊆ st' →
  validate_route registry st r snapshot = Ok d → validate_route registry st' r snapshot = Ok d.
Proof.
  intros Hs H. unfold validate_route in *. apply bind_ok in H as (d' & -> & H). cbn [mbind result_bind].
  apply bind_ok in H as (actual & Ha & H). rewrite (get_bytes_weaken st st' _ _ Hs Ha). cbn [mbind result_bind].
  rewrite !raise_if_bind in H. destruct H as (-> & -> & -> & H). cbn [raise_if mbind result_bind].
  unfold verify_artifact in *. apply bind_ok in H as ([] & Hv & H). apply bind_ok in Hv as (x & Hx & _).
  rewrite (get_bytes_weaken st st' _ _ Hs Hx). cbn [mbind result_bind].
  by rewrite raise_if_bind in H; destruct H as (-> & [= ->]).
Qed.

(** C33: What [prepare_evidence_attempt] publishes, the adapter accepts and reads
    back.  Preparing an attempt for a valid request adds artifacts and nothing
    else; it needs a ready plan and yields a request and an attempt of that
    plan, for this adapter and its version.  As long as the files stay and none
    collides with what was written, the route registry accepts the route, the
    input is the published envelope, the adapter validates it, and the request
    that the adapter executes is the one that was prepared, every byte of every
    input included. *)
Theorem prepared_evidence_accepted em registry r step_plan request_id attempt_id route_id b rt er plan rt' :
  prepare_evidence_attempt registry r step_plan request_id attempt_id route_id b rt = (Ok (er, plan), rt') →
  validate_request r = Ok tt →
  publishes rt rt'
  ∧ ready_plan step_plan = true ∧ req_step_plan_id er = plan_id step_plan ∧ ap_request_id plan = req_id er
  ∧ req_adapter_id er = EVIDENCE_ADAPTER_ID
  ∧ rs_adapter_id (ap_route plan) = EVIDENCE_ADAPTER_ID ∧ rs_adapter_version (ap_route plan) = EVIDENCE_ADAPTER_VERSION
  ∧ ∀ st, rt_artifacts rt' ⊆ st → no_collision st (written r) →
      em_parse_envelope em (envelope_bytes r) = Ok (envelope_of r) →
      is_ok (validate_route registry st er (ap_route plan)) = true
      ∧ get_bytes st (req_input_artifact er) = Ok (envelope_bytes r)
      ∧ validate_evidence_input em st (envelope_bytes r) = Ok tt
      ∧ evidence_request em st (envelope_bytes r) (req_timeout_seconds er) = Ok r.
Proof.
  intros H Hv. unfold prepare_evidence_attempt in H.
  apply lift_ok in H as ([] & Hready & H). apply raise_if_ok, negb_false_iff in Hready.
  apply lift_ok in H as (command & _ & H). apply lift_ok in H as (d & Hd & H).
  apply sdk_ok in H as (cs & rt1 & Hcs & H). apply capture_inputs_ok in Hcs as (-> & Hp1 & Hst1).
  apply lift_ok in H as ([] & _ & H). apply sdk_ok in H as (input_ref & rt2 & Hput & H).
  apply put_artifact_ok in Hput as (-> & Hp2 & Hst2). apply lift_ok in H as ([] & _ & H).
  apply sdk_ok in H as (def_ref & rt3 & Hdef & H). apply put_artifact_ok in Hdef as (-> & Hp3 & _).
  apply sdk_ok in H as (env_ref & rt4 & Henv & H). apply put_artifact_ok in Henv as (-> & Hp4 & _).
  apply lift_ok in H as ([] & _ & H). apply sdk_ok in H as (d' & rt5 & Hroute & H).
  unfold reading in Hroute. injection Hroute as Hroute <-. apply lift_ok in H as ([] & _ & [= <- <- <-]).
  assert (rd_adapter_id d = EVIDENCE_ADAPTER_ID ∧ rd_adapter_version d = EVIDENCE_ADAPTER_VERSION) as [Ha1 Ha2].
  { unfold docker_evidence_route_definition in Hd. rewrite !seq_ok in Hd. destruct Hd as (_ & _ & Hd).
    destruct (rpartition _ _) as [[before separator] digest]. rewrite !seq_ok in Hd. by destruct Hd as (_ & _ & _ & [= <-]). }
  assert (publishes rt1 rt4) as Hp by (etrans; [exact Hp2|]; etrans; done).
  split; [by etrans|]. split; [done|]. split; [done|]. split; [done|]. split; [done|]. split; [done|]. split; [done|].
  intros st Hst Hc Hparse.
  assert (∀ i, i ∈ inputs r → stored st (content i)) as Hin.
  { intros i Hi. eapply stored_weaken, Hst1, Hi. etrans; [apply Hp|done]. }
  split; [apply is_ok_true; eexists; by eapply validate_route_weaken|]. split.
  { change (get_bytes st (ref_of (envelope_bytes r) (Some "application/vnd.rci.evidence-request+json") (Some "utf-8"))
            = Ok (envelope_bytes r)). apply (get_stored st (written r)); [done|left|].
    eapply stored_weaken, Hst2. etrans; [apply Hp3|]. etrans; [apply Hp4|done]. }
  pose proof (λ t, evidence_request_read em st r t Hparse Hv Hc Hin) as Hread. split.
  - unfold validate_evidence_input. rewrite (Hread 1%Z) by lia. done.
  - cbn [req_timeout_seconds]. rewrite Hread; [by destruct r|].
    unfold validate_request in Hv. rewrite !seq_ok, !raise_if_ok in Hv. lia.
Qed.

(** ** A prepared attempt *)

Definition collision_check (st : ArtifactStore) (l : list string) : bool :=
  forallb (λ px, forallb (λ y, (Sha256.hexdigest px.2 !=? Sha256.hexdigest y) || (px.2 ==? y)) l)
    (map_to_list (st : gmap string string)).
Lemma collision_check_ok st l : collision_check st l = true → no_collision st l.
Proof.
  unfold collision_check. rewrite all_true. intros H p x y Hx Hy Hxy. specialize (H (p, x)).
  rewrite elem_of_map_to_list, all_true in H. specialize (H Hx y Hy). cbn [snd] in H.
  rewrite orb_true_iff, neqb_true, eqb_true in H. by destruct H.
Qed.

Definition example_image : string :=
  "prover@sha256:0123456789abcdef0123456789abcdef0123456789abcdef0123456789abcdef".
Definition example_backend : DockerEvidenceBackend :=
  MkDockerEvidenceBackend example_image ["prover"] "docker" "512m" "1.0" 128.
Definition example_request : EvidenceRunRequest :=
  MkEvidenceRunRequest ["prover"; "--check"; "goal.txt"]
    [MkCapturedInput "goal.txt" "p -> p"; MkCapturedInput "lib/axioms.txt" ""] 10 1000.
Definition example_plan : StepPlan :=
  MkStepPlan "plan" (Sha256.hexdigest "") "1" READY (Some "ob") (Some (MkAttemptKey (Sha256.hexdigest "") "c" "1" "r"))
    DETERMINISTIC_PRIORITY 1.
Definition example_registry : list RouteDefinition :=
  match docker_evidence_route_definition example_backend "prover" with Ok d => [d] | Raise _ => [] end.
Definition example_models : EvidenceModels := {|
  em_parse_envelope := λ s, if s ==? envelope_bytes example_request then Ok (envelope_of example_request)
                            else raise ValidationError "";
  em_parse_raw := λ _, raise ValidationError "";
|}.
Definition example_prepared : result (EffectRequest * EffectAttemptPlan) * Runtime :=
  prepare_evidence_attempt example_registry example_request example_plan "request" "attempt" "route" example_backend
    (MkRuntime ∅ empty_database 0).

Lemma prepared_evidence_accepted_witness :
  ∃ er plan rt', example_prepared = (Ok (er, plan), rt')
    ∧ evidence_request example_models (rt_artifacts rt') (envelope_bytes example_request) (req_timeout_seconds er)
      = Ok example_request.
Proof.
  assert (is_ok example_prepared.1 = true) as Hok by (vm_compute; reflexivity).
  assert (collision_check (rt_artifacts example_prepared.2) (written example_request) = true) as Hc
    by (vm_compute; reflexivity).
  assert (validate_request example_request = Ok tt) as Hv by (vm_compute; reflexivity).
  apply collision_check_ok in Hc.
  destruct example_prepared as [[[er plan]|e] rt'] eqn:E; [|discriminate Hok]. exists er, plan, rt'. split; [reflexivity|].
  destruct (prepared_evidence_accepted example_models _ _ _ _ _ _ _ _ _ _ _ E Hv) as (_ & _ & _ & _ & _ & _ & _ & H).
  apply (H (rt_artifacts rt')); [reflexivity|exact Hc|].
  unfold example_models. cbn [em_parse_envelope]. by rewrite bool_decide_true.
Defined.
