(* ===== verification/Generators.v ===== *)
(** * Generators: [src/rci/generators/base.py], [openai.py]

    The stateless envelope of a question, the two offline generators, and the
    OpenAI Responses adapter: the request it compiles, its route, the decoding
    of a captured body, and the guarded live call.  [json.loads], the strict
    [model_validate_json] of the request, [urlsplit] and the client are
    parameters.  A parsed value is a [json] whose objects have distinct keys;
    JSON payloads of generators are finite, so [freeze_json] keeps them. *)

From Stdlib Require Import Ascii.
From S2P Require Import Prelude Digest Dumps Model Planning Effects Artifacts Goals State Serialization Store Runtime Executor Runner Evidence.

(** ** [base.py] *)

Inductive GeneratorStatus : Type := GEN_COMPLETED | NEEDS_MANUAL_INPUT | GEN_EXHAUSTED | GEN_FAILED.
#[export] Instance GeneratorStatus_eq_dec : EqDecision GeneratorStatus.
Proof. solve_decision. Defined.

Record QuestionInvocation : Type := MkQuestionInvocation {
  inv_invocation_id : string;
  inv_contract_id : string;
  inv_contract_version : string;
  inv_scope_fingerprint : string;
  inv_binding_revision : string;
  inv_referent_ids : list string;
  inv_rendered_question : string;
  inv_local_context : list string;
  inv_max_output_tokens : Z;
}.
#[export] Instance QuestionInvocation_eq_dec : EqDecision QuestionInvocation.
Proof. solve_decision. Defined.

Definition validate_invocation (i : QuestionInvocation) : result unit :=
  raise_if (any is_empty [inv_invocation_id i; inv_contract_id i; inv_contract_version i;
                          inv_scope_fingerprint i; inv_binding_revision i])
    ValidationError "invocation identity, scope, and binding are required";;
  raise_if (inv_max_output_tokens i <? 1)%Z ValidationError "max_output_tokens must be positive";;
  raise_if (negb (uniq (inv_referent_ids i))) ValidationError "referent ids must be unique".

Definition newline : string := String "010"%char EmptyString.

Definition prompt (i : QuestionInvocation) : string :=
  let context := join newline (inv_local_context i) in
  if is_empty context then inv_rendered_question i
  else "Local context (inert data):" +:+ newline +:+ context +:+ newline +:+ newline +:+ "Question:" +:+ newline
       +:+ inv_rendered_question i.

Record SemanticPayload : Type := MkSemanticPayload {
  sp_invocation_id : string;
  sp_generator_id : string;
  sp_generator_version : string;
  sp_status : GeneratorStatus;
  sp_payload : option json;
  sp_provider_request_id : option string;
  sp_usage : list (string * Z);
  sp_diagnostic : option string;
}.

(** [ManualGenerator.generate] *)
Definition manual_generate (i : QuestionInvocation) : SemanticPayload :=
  MkSemanticPayload (inv_invocation_id i) "manual" "1.0.0" NEEDS_MANUAL_INPUT None None [] None.

(** [ScriptedGenerator.generate] *)
Definition scripted_generate (script : gmap string json) (i : QuestionInvocation) : SemanticPayload :=
  let key := if is_some (script !! inv_invocation_id i) then inv_invocation_id i else inv_contract_id i in
  match script !! key with
  | None => MkSemanticPayload (inv_invocation_id i) "scripted" "1.0.0" GEN_EXHAUSTED None None []
              (Some "no scripted payload for invocation or contract")
  | Some payload => MkSemanticPayload (inv_invocation_id i) "scripted" "1.0.0" GEN_COMPLETED (Some payload) None [] None
  end.

(** ** [openai.py]: records *)

Definition OPENAI_ROUTE_DEFINITION_ID : string := "openai-responses".
Definition OPENAI_ADAPTER_ID : string := "openai-responses".
Definition OPENAI_ADAPTER_VERSION : string := "1.0.0".
Definition OPENAI_BASE_URL : string := "https://api.openai.com/v1".

Record OpenAIRequestEnvelope : Type := MkOpenAIRequestEnvelope {
  oe_invocation_id : string;
  oe_model : string;
  oe_input : string;
  oe_max_output_tokens : Z;
}.
#[export] Instance OpenAIRequestEnvelope_eq_dec : EqDecision OpenAIRequestEnvelope.
Proof. solve_decision. Defined.
#[export] Instance OpenAIRequestEnvelope_to_json : ToJson OpenAIRequestEnvelope := λ e,
  JObject [("invocation_id", to_json (oe_invocation_id e)); ("model", to_json (oe_model e));
           ("input", to_json (oe_input e)); ("max_output_tokens", to_json (oe_max_output_tokens e));
           ("tools", JList []); ("store", JBool false)].

Definition openai_envelope (e : OpenAIRequestEnvelope) : result OpenAIRequestEnvelope :=
  nonempty_text (oe_invocation_id e);;
  identifier (oe_model e);;
  raise_if ((text_length (oe_input e) <? 1) || (262144 <? text_length (oe_input e)))%Z
    ValidationError "string length must be between 1 and 262144";;
  raise_if ((oe_max_output_tokens e <? 1) || (16384 <? oe_max_output_tokens e))%Z
    ValidationError "max_output_tokens must be between 1 and 16384";;
  Ok e.

Inductive OpenAIDecodeStatus : Type := OD_DECODED | OD_MALFORMED | OD_UNSUPPORTED | OD_FAILED.
#[export] Instance OpenAIDecodeStatus_eq_dec : EqDecision OpenAIDecodeStatus.
Proof. solve_decision. Defined.

Record OpenAIResponseSummary : Type := MkOpenAIResponseSummary {
  os_provider_request_id : option string;
  os_execution_status : string;
  os_output_text : string;
  os_usage : list (string * Z);
}.
#[export] Instance OpenAIResponseSummary_eq_dec : EqDecision OpenAIResponseSummary.
Proof. solve_decision. Defined.
#[export] Instance usage_to_json : ToJson (string * Z) := λ u, JList [JString u.1; JInt u.2].
#[export] Instance OpenAIResponseSummary_to_json : ToJson OpenAIResponseSummary := λ s,
  JObject [("provider_request_id", to_json (os_provider_request_id s));
           ("execution_status", to_json (os_execution_status s)); ("output_text", to_json (os_output_text s));
           ("usage", to_json (os_usage s))].

(** [validate_usage], after the types of the fields *)
Definition validate_usage (usage : list (string * Z)) : result unit :=
  for_each (λ u, nonempty_text u.1) usage;;
  raise_if (any (λ u, u.2 <? 0)%Z usage) ValidationError "usage counters must be nonnegative integers";;
  raise_if ((map fst usage !=? sorted (map fst usage)) || negb (uniq (map fst usage)))
    ValidationError "usage counters must be uniquely sorted".

Definition openai_summary (s : OpenAIResponseSummary) : result OpenAIResponseSummary :=
  nonempty_text (os_execution_status s);; validate_usage (os_usage s);; Ok s.

Record OpenAIDecodeResult : Type := MkOpenAIDecodeResult {
  or_status : OpenAIDecodeStatus;
  or_summary : option OpenAIResponseSummary;
  or_diagnostic : option string;
}.

Definition validate_decode_shape (r : OpenAIDecodeResult) : result unit :=
  raise_if (negb (Bool.eqb (or_status r ==? OD_DECODED) (is_some (or_summary r))))
    ValidationError "only a decoded result carries a response summary";;
  raise_if ((or_status r ==? OD_DECODED) && is_some (or_diagnostic r))
    ValidationError "decoded results do not carry failure diagnostics";;
  raise_if ((or_status r !=? OD_DECODED) && is_none (or_diagnostic r))
    ValidationError "non-decoded results require a diagnostic".

(** ** Requests *)

Definition compile_openai_request (i : QuestionInvocation) (model : string) : result OpenAIRequestEnvelope :=
  raise_if (is_empty model) ValueError "an explicit OpenAI model is required";;
  openai_envelope (MkOpenAIRequestEnvelope (inv_invocation_id i) model (prompt i) (inv_max_output_tokens i)).

Definition openai_route_definition (model : string) : result RouteDefinition :=
  e ← openai_envelope (MkOpenAIRequestEnvelope "route-definition-validation" model "route definition validation" 1);
  let d := MkRouteDefinition (OPENAI_ROUTE_DEFINITION_ID +:+ "/" +:+ prefix 16 (Sha256.hexdigest (oe_model e))) "1.0.0"
             ("openai.responses/" +:+ oe_model e) OPENAI_ADAPTER_ID OPENAI_ADAPTER_VERSION
             (Some (OPENAI_BASE_URL +:+ "/responses")) "https" [] in
  identifier (rd_definition_id d);; identifier (rd_backend_id d);; Ok d.

(** The invocation asks what the plan selected. *)
Definition matches_key (i : QuestionInvocation) (k : AttemptKey) : bool :=
  (key_contract_id k ==? inv_contract_id i) && (key_contract_version k ==? inv_contract_version i)
  && (key_binding_revision k ==? inv_binding_revision i).
Definition refers_to (i : QuestionInvocation) (obligation : option string) : bool :=
  match obligation with Some o => mem o (inv_referent_ids i) | None => false end.

Definition check_invocation (i : QuestionInvocation) (p : StepPlan) : result unit :=
  match plan_selected_attempt_key p with
  | Some k =>
    raise_if (plan_status p !=? READY) ValueError "an OpenAI effect requires a content-derived ready step plan";;
    raise_if (negb (refers_to i (plan_selected_obligation_id p)))
      ValueError "the invocation must refer to the step plan's exact obligation";;
    raise_if (negb (matches_key i k)) ValueError "the invocation does not match the step plan's exact attempt key"
  | None => raise ValueError "an OpenAI effect requires a content-derived ready step plan"
  end.

Definition openai_environment (client_library_version : string) : json :=
  JObject [("adapter_id", JString OPENAI_ADAPTER_ID); ("adapter_version", JString OPENAI_ADAPTER_VERSION);
           ("client_library", JString "openai-python"); ("client_library_version", JString client_library_version)].

Definition prepare_openai_attempt (registry : list RouteDefinition) (i : QuestionInvocation) (model : string)
    (step_plan : StepPlan) (request_id attempt_id route_id client_library_version : string) (timeout : Z) :
    sdk (EffectRequest * EffectAttemptPlan) :=
  lift (raise_if (is_empty client_library_version) ValueError "the OpenAI client library version must be explicit");;
  lift (check_invocation i step_plan);;
  envelope ← lift (compile_openai_request i model);
  input_ref ← put_artifact (canonical_json (to_json envelope))
                (Some "application/vnd.rci.openai-request+json") (Some "utf-8");
  let request := MkEffectRequest request_id (plan_id step_plan) "semantic.openai_response" OPENAI_ADAPTER_ID
                   input_ref timeout in
  lift (identifier request_id;; validate_timeout request);;
  definition ← lift (openai_route_definition model);
  definition_ref ← definition_artifact definition;
  environment_ref ← put_artifact (canonical_json (openai_environment client_library_version))
                      (Some "application/vnd.rci.execution-environment+json") (Some "utf-8");
  let route := MkRouteSnapshot route_id (rd_definition_id definition) (rd_definition_version definition)
                 definition_ref (rd_backend_id definition) (rd_adapter_id definition)
                 (rd_adapter_version definition) (rd_endpoint_or_channel definition) (Some (rd_transport definition))
                 environment_ref (Sha256.hexdigest (canonical_json (to_json request))) [] in
  lift (identifier route_id);;
  reading (λ st, validate_route registry st request route);;
  lift (identifier attempt_id);;
  mret (request, MkEffectAttemptPlan attempt_id request_id route).

(** ** Decoding a captured body *)

(** What [json.loads] makes of the bytes: a value, one of the two exceptions
    the decoder catches, or another. *)
Inductive Loaded : Type := LoadedValue (value : json) | Undecodable (class_name : string) | LoadsRaised (e : exn).

(** [value.get(key)] *)
Definition get (key : string) (o : list (string * json)) : option json := json_lookup key o.

Definition malformed {A} (text : string) : (OpenAIDecodeStatus * string) + A := inl (OD_MALFORMED, text).

#[local] Instance sum_bind {E} : MBind (sum E) := λ A B f m,
  match m with inl e => inl e | inr a => f a end.
#[local] Instance sum_ret {E} : MRet (sum E) := λ A a, inr a.

(** [text_parts] of one content item, of one output item, and of the output. *)
Definition part_text (part : json) : (OpenAIDecodeStatus * string) + list string :=
  match part with
  | JObject o =>
    match get "type" o with
    | Some (JString type) =>
      if type ==? "output_text" then
        match get "text" o with
        | Some (JString text) => inr [text]
        | _ => malformed "output_text content does not contain text"
        end
      else inr []
    | _ => inr []
    end
  | _ => malformed "response message contains a non-object content item"
  end.

Fixpoint gather {A} (f : A → (OpenAIDecodeStatus * string) + list string) (l : list A) :
    (OpenAIDecodeStatus * string) + list string :=
  match l with
  | [] => inr []
  | x :: l => texts ← f x; rest ← gather f l; inr (texts ++ rest)
  end.

Definition item_text (item : json) : (OpenAIDecodeStatus * string) + list string :=
  match item with
  | JObject o =>
    match default (JList []) (get "content" o) with
    | JList content => gather part_text content
    | _ => malformed "response message content is not a list"
    end
  | _ => malformed "response output contains a non-object item"
  end.

Definition USAGE_FIELDS : list string := ["input_tokens"; "output_tokens"; "total_tokens"].

Fixpoint read_usage (o : list (string * json)) (names : list string) :
    (OpenAIDecodeStatus * string) + list (string * Z) :=
  match names with
  | [] => inr []
  | name :: names =>
    match get name o with
    | None | Some JNull => read_usage o names
    | Some (JInt count) =>
      if (count <? 0)%Z then malformed ("usage field " +:+ name +:+ " is not a nonnegative integer")
      else rest ← read_usage o names; inr ((name, count) :: rest)
    | _ => malformed ("usage field " +:+ name +:+ " is not a nonnegative integer")
    end
  end.

(** The early returns on the parsed value, or the fields of the summary. *)
Definition decode_value (value : json) : (OpenAIDecodeStatus * string) + OpenAIResponseSummary :=
  match value with
  | JObject o =>
    status ← match get "status" o with
             | Some (JString status) =>
               if is_empty status then inl (OD_UNSUPPORTED, "response object lacks a typed execution status")
               else inr status
             | _ => inl (OD_UNSUPPORTED, "response object lacks a typed execution status")
             end;
    provider_id ← match get "id" o with
                  | None | Some JNull => inr None
                  | Some (JString id) => inr (Some id)
                  | _ => malformed "provider response id is not a string"
                  end;
    texts ← match default (JList []) (get "output" o) with
            | JList output => gather item_text output
            | _ => malformed "response output is not a list"
            end;
    usage ← match get "usage" o with
            | None | Some JNull => inr []
            | Some (JObject u) => read_usage u USAGE_FIELDS
            | _ => malformed "response usage is not an object"
            end;
    inr (MkOpenAIResponseSummary provider_id status (String.concat "" texts) (sort_by fst usage))
  | _ => inl (OD_UNSUPPORTED, "response body is not a JSON object")
  end.

Definition undecoded (status : OpenAIDecodeStatus) (text : string) : result OpenAIDecodeResult :=
  let r := MkOpenAIDecodeResult status None (Some text) in nonempty_text text;; validate_decode_shape r;; Ok r.

Section decoding.
Context (json_loads : string → Loaded).

Definition decode_openai_response (raw_body : string) : result OpenAIDecodeResult :=
  match json_loads raw_body with
  | LoadsRaised e => Raise e
  | Undecodable name => undecoded OD_MALFORMED ("response body is not valid UTF-8 JSON: " +:+ name)
  | LoadedValue value =>
    match decode_value value with
    | inl (status, text) => undecoded status text
    | inr fields =>
      summary ← openai_summary fields;
      let r := MkOpenAIDecodeResult OD_DECODED (Some summary) None in
      validate_decode_shape r;; Ok r
    end
  end.

(** [decode_exact] *)
Definition decode_openai (raw_bytes : string) : result AdapterDecodeResult :=
  decoded ← decode_openai_response raw_bytes;
  match or_status decoded with
  | OD_DECODED =>
    summary ← or_raise (or_summary decoded) RuntimeError "decoded OpenAI response lost its provisional summary";
    let d := MkAdapterDecodeResult AD_DECODED (Some (canonical_json (to_json summary)))
               (Some "application/vnd.rci.openai-response-summary+json") (Some "utf-8")
               (Some "semantic.openai_response") None in
    validate_shape d;; Ok d
  | status =>
    text ← or_raise (or_diagnostic decoded) RuntimeError "failed OpenAI decode lost its diagnostic";
    failed_decode (match status with OD_MALFORMED => AD_MALFORMED | OD_UNSUPPORTED => AD_UNSUPPORTED
                                | _ => AD_FAILED end) text
  end.
End decoding.

(** ** The live call *)

(** What [urlsplit] makes of the client's base URL. *)
Record SplitUrl : Type := MkSplitUrl {
  url_scheme : string;
  url_netloc : string;
  url_path : string;
  url_query : string;
  url_fragment : string;
  url_username : option string;
  url_password : option string;
}.

(** The keyword arguments of [responses.with_raw_response.create]. *)
Record ResponseCall : Type := MkResponseCall {
  call_model : string;
  call_input : string;
  call_max_output_tokens : Z;
  call_timeout : Z;
}.

(** What the call does: its content as bytes or not, [TimeoutError] or one of
    its subclasses, or another exception. *)
Inductive ClientAnswer : Type :=
| Content (data : string)
| ContentNotBytes
| ClientTimeout (class_name : string)
| ClientRaised (class_name : string).

Record Client : Type := MkClient {
  base_url : option SplitUrl;
  create : ResponseCall → ClientAnswer;
}.

(** [import_module("openai").OpenAI()]: no such module, a failing
    constructor, or a client. *)
Inductive ImportedClient : Type := ModuleMissing | ConstructorRaised | Imported (c : Client).

Fixpoint rstrip_slashes (s : string) : string :=
  match s with
  | EmptyString => EmptyString
  | String c s =>
    let s' := rstrip_slashes s in
    if Ascii.eqb c "/"%char && is_empty s' then EmptyString else String c s'
  end.

Definition endpoint_matches (u : SplitUrl) : bool :=
  (url_scheme u ==? "https") && (url_netloc u ==? "api.openai.com") && (rstrip_slashes (url_path u) ==? "/v1")
  && is_empty (url_query u) && is_empty (url_fragment u)
  && negb (is_some (url_username u) || is_some (url_password u)).

(** [_validate_client_endpoint] *)
Definition validate_client_endpoint (c : Client) : result unit :=
  match base_url c with
  | None => raise EffectUnsupportedError "OpenAI client does not expose its resolved base URL"
  | Some u => raise_if (negb (endpoint_matches u)) EffectUnsupportedError
                "resolved OpenAI base URL does not match the pinned sanitized endpoint"
  end.

Section generator.
Context (json_loads : string → Loaded) (parse_request : string → result OpenAIRequestEnvelope)
        (imported : ImportedClient) (model : string).

(** [__init__]: the model as the route definition spells it. *)
Definition configured_model : result string :=
  d ← openai_route_definition model;
  let backend := rd_backend_id d in
  Ok (if String.prefix "openai.responses/" backend then String.substring 17 (String.length backend - 17) backend
      else backend).

(** [generate] always raises [UnpersistedEffectError], a [RuntimeError]. *)
Definition openai_generate (i : QuestionInvocation) : result SemanticPayload :=
  raise RuntimeError "live OpenAI generation requires a persisted EffectRequested and AttemptStarted".

(** [compile] *)
Definition openai_compile (i : QuestionInvocation) : result OpenAIRequestEnvelope := compile_openai_request i model.

(** [_resolve_client]: the client, and [self._client] as it is then. *)
Definition resolve_client (self : option Client) : result Client * option Client :=
  match self with
  | Some c => (validate_client_endpoint c;; Ok c, Some c)
  | None =>
    match imported with
    | ModuleMissing => (raise EffectUnsupportedError "install the 'openai' extra to use this adapter", None)
    | ConstructorRaised => (raise EffectUnsupportedError "OpenAI client configuration is unavailable", None)
    | Imported c => (validate_client_endpoint c;; Ok c, Some c)
    end
  end.

Definition validate_openai_input (input_bytes : string) : result unit :=
  request ← parse_request input_bytes;
  raise_if (oe_model request !=? model) ValueError "persisted request model does not match the configured model".

Definition openai_preflight (self : option Client) : Preflight :=
  match (resolve_client self).1 with
  | Ok _ => PreflightPassed
  | Raise e => if exn_class e ==? EffectUnsupportedError then PreflightUnsupported (class_name (exn_class e))
               else PreflightRaised e
  end.

Definition response_call (e : OpenAIRequestEnvelope) (timeout : Z) : ResponseCall :=
  MkResponseCall (oe_model e) (oe_input e) (oe_max_output_tokens e) timeout.

(** [_perform_raw] after the client is resolved *)
Definition present (c : Client) (e : OpenAIRequestEnvelope) (timeout : Z) : Performed :=
  match create c (response_call e timeout) with
  | Content data => ExactBytes data
  | ContentNotBytes => RaisedOther "TypeError"
  | ClientTimeout name => RaisedTimeout name
  | ClientRaised name => if contains "timeout" (lower name) then RaisedTimeout "TimeoutError"
                         else RaisedTransport "EffectTransportError"
  end.

(** [perform_exact], with [self._client] and the calls made of a client *)
Definition perform_openai (self : option Client) (input_bytes : string) (timeout : Z) :
    Performed * option Client * list (Client * ResponseCall) :=
  match request ← parse_request input_bytes;
        raise_if (oe_model request !=? model) ValueError "persisted request model does not match the configured model";;
        Ok request with
  | Raise e => (performed (Raise e), self, [])
  | Ok request =>
    let '(c, self) := resolve_client self in
    match c with
    | Raise e => (performed (Raise e), self, [])
    | Ok c => (present c request timeout, self, [(c, response_call request timeout)])
    end
  end.

(** The adapter with a client it was given: [self._client] never changes. *)
Definition openai_adapter (c : Client) : Adapter := {|
  ad_id := OPENAI_ADAPTER_ID;
  ad_version := OPENAI_ADAPTER_VERSION;
  ad_validate_input := λ _, validate_openai_input;
  ad_preflight := λ _, openai_preflight (Some c);
  ad_perform_exact := λ _ input_bytes timeout, (perform_openai (Some c) input_bytes timeout).1.1;
  ad_decode_exact := λ _, decode_openai json_loads;
|}.

(** [execute_persisted] *)
Definition execute_openai (py : Pydantic) (clock : nat → Z) (registry : list RouteDefinition) (c : Client)
    (inquiry_id request_id attempt_id : string) : exec InquiryState :=
  execute py clock registry (openai_adapter c) inquiry_id request_id attempt_id true.
End generator.

(** ** What a body says *)

Inductive part_says : json → list string → Prop :=
| says_text o text : get "type" o = Some (JString "output_text") → get "text" o = Some (JString text) →
    part_says (JObject o) [text]
| says_nothing o : get "type" o ≠ Some (JString "output_text") → part_says (JObject o) [].

(** A list field that may be absent. *)
Definition list_field (key : string) (o : list (string * json)) (l : list json) : Prop :=
  default (JList []) (get key o) = JList l.

Inductive item_says : json → list string → Prop :=
| says_parts o content texts : list_field "content" o content → Forall2 part_says content texts →
    item_says (JObject o) (concat texts).

(** A counter that is absent, null, or not negative. *)
Inductive counter_says (o : list (string * json)) (name : string) : list (string * Z) → Prop :=
| counted n : get name o = Some (JInt n) → (0 ≤ n)%Z → counter_says o name [(name, n)]
| uncounted : get name o = None ∨ get name o = Some JNull → counter_says o name [].

Definition usage_says (o : list (string * json)) (usage : list (string * Z)) : Prop :=
  (get "usage" o = None ∨ get "usage" o = Some JNull) ∧ usage = []
  ∨ ∃ u counts, get "usage" o = Some (JObject u) ∧ Forall2 (counter_says u) USAGE_FIELDS counts ∧ usage = concat counts.

Definition id_says (o : list (string * json)) (id : option string) : Prop :=
  match id with Some i => get "id" o = Some (JString i) | None => get "id" o = None ∨ get "id" o = Some JNull end.

(** The value is a response object with the fields of [s]. *)
Definition response_says (value : json) (s : OpenAIResponseSummary) : Prop :=
  ∃ o items texts, value = JObject o
    ∧ get "status" o = Some (JString (os_execution_status s)) ∧ os_execution_status s ≠ ""
    ∧ id_says o (os_provider_request_id s)
    ∧ list_field "output" o items ∧ Forall2 item_says items texts ∧ os_output_text s = String.concat "" (concat texts)
    ∧ usage_says o (os_usage s).

Lemma sum_ok {E A B} (m : E + A) (f : A → E + B) b : m ≫= f = inr b ↔ ∃ a, m = inr a ∧ f a = inr b.
Proof. destruct m; cbn; naive_solver. Qed.

Lemma gather_says {A} (f : A → (OpenAIDecodeStatus * string) + list string) (says : A → list string → Prop) l ts :
  (∀ x t, f x = inr t ↔ says x t) → gather f l = inr ts ↔ ∃ texts, Forall2 says l texts ∧ ts = concat texts.
Proof.
  intros Hf. revert ts. induction l as [|x l IH]; intros ts; cbn [gather].
  - split; [intros [= <-]; by exists []|]. by intros (texts & ->%Forall2_nil_inv_l & ->).
  - rewrite sum_ok. setoid_rewrite sum_ok. setoid_rewrite Hf. setoid_rewrite IH. split.
    + intros (t & Ht & rest & (texts & Hr & ->) & [= <-]). exists (t :: texts). split; [by constructor|done].
    + intros (texts & Hr & ->). apply Forall2_cons_inv_l in Hr as (t & texts' & Ht & Hr & ->).
      exists t. split; [done|]. exists (concat texts'). split; [by exists texts'|done].
Qed.

Lemma part_text_says part t : part_text part = inr t ↔ part_says part t.
Proof.
  split.
  - destruct part as [| | | | | |o]; try done. cbn. intros H.
    destruct (get "type" o) as [[| | | |ty| |]|] eqn:Ety; try (injection H as <-; constructor; by rewrite Ety).
    destruct (ty ==? "output_text") eqn:E.
    + rewrite eqb_true in E. subst ty. destruct (get "text" o) as [[]|] eqn:Et; try done. injection H as <-. by constructor.
    + rewrite eqb_false in E. injection H as <-. constructor. rewrite Ety. congruence.
  - intros [o text E Et|o E]; cbn; [by rewrite E, bool_decide_true, Et|].
    destruct (get "type" o) as [[| | | |ty| |]|]; try done. rewrite bool_decide_false; [done|congruence].
Qed.

Lemma item_text_says item t : item_text item = inr t ↔ item_says item t.
Proof.
  split.
  - destruct item as [| | | | | |o]; try done. cbn. intros H.
    destruct (default (JList []) (get "content" o)) as [| | | | |content|] eqn:E; try done.
    apply (gather_says _ part_says) in H as (texts & Hf & ->); [by econstructor|apply part_text_says].
  - intros [o content texts Hc Hf]. cbn. unfold list_field in Hc. rewrite Hc.
    apply (gather_says _ part_says); [apply part_text_says|by exists texts].
Qed.

Lemma read_usage_says o names usage : read_usage o names = inr usage ↔
  ∃ counts, Forall2 (counter_says o) names counts ∧ usage = concat counts.
Proof.
  revert usage. induction names as [|name names IH]; intros usage; cbn [read_usage].
  { split; [intros [= <-]; by exists []|]. by intros (counts & ->%Forall2_nil_inv_l & ->). }
  assert (∀ c, counter_says o name c → (∃ counts, Forall2 (counter_says o) (name :: names) counts ∧ usage = concat counts)
    ↔ ∃ rest, read_usage o names = inr rest ∧ usage = c ++ rest) as Hstep.
  { intros c Hc. setoid_rewrite IH. split.
    - intros (counts & Hf & ->). apply Forall2_cons_inv_l in Hf as (c' & counts' & Hc' & Hf & ->).
      assert (c' = c) as -> by (destruct Hc, Hc'; naive_solver). exists (concat counts'). split; [by exists counts'|done].
    - intros (rest & (counts & Hf & ->) & ->). exists (c :: counts). split; [by constructor|done]. }
  destruct (get name o) as [[| |n| | | |]|] eqn:E.
  all: try (split; [done|]; intros (counts & Hf & _); apply Forall2_cons_inv_l in Hf as (? & ? & [? H|[H|H]] & _); congruence).
  - rewrite Hstep by (apply uncounted; auto). naive_solver.
  - destruct (n <? 0)%Z eqn:En.
    + split; [done|]. intros (counts & Hf & _). apply Forall2_cons_inv_l in Hf as (? & ? & [? H|[H|H]] & _); [|congruence..].
      apply Z.ltb_lt in En. rewrite E in H. injection H as <-. lia.
    + apply Z.ltb_ge in En. rewrite Hstep by by apply counted. rewrite sum_ok. naive_solver.
  - rewrite Hstep by (apply uncounted; auto). naive_solver.
Qed.

Lemma counters_sorted u counts : Forall2 (counter_says u) USAGE_FIELDS counts →
  sort_by fst (concat counts) = concat counts ∧ validate_usage (concat counts) = Ok tt.
Proof.
  unfold USAGE_FIELDS. intros (c1 & l1 & H1 & (c2 & l2 & H2 & (c3 & l3 & H3 & ->%Forall2_nil_inv_l & ->)%Forall2_cons_inv_l
    & ->)%Forall2_cons_inv_l & ->)%Forall2_cons_inv_l.
  unfold validate_usage. rewrite seq_ok, raise_if_bind, raise_if_ok.
  destruct H1 as [n1 _ Hn1|_], H2 as [n2 _ Hn2|_], H3 as [n3 _ Hn3|_];
    (split; [by vm_compute|split_and!; [by vm_compute| |by vm_compute]]);
    cbn; by rewrite ?(proj2 (Z.ltb_ge _ _)) by done.
Qed.

Lemma usage_fields_ok o usage : usage_says o usage → sort_by fst usage = usage ∧ validate_usage usage = Ok tt.
Proof. intros [[_ ->]|(u & counts & _ & Hc & ->)]; [by vm_compute|by apply (counters_sorted u)]. Qed.

(** The value decodes exactly to what it says. *)
Lemma decode_value_says value s : decode_value value = inr s ↔ response_says value s.
Proof.
  unfold response_says. split.
  - destruct value as [| | | | | |o]; try done. cbn [decode_value]. intros H.
    apply sum_ok in H as (status & Hs & H). apply sum_ok in H as (id & Hid & H).
    apply sum_ok in H as (texts & Ht & H). apply sum_ok in H as (usage & Hu & [= <-]).
    destruct (get "status" o) as [[| | | |st| |]|] eqn:Es; try done. unfold is_empty in Hs.
    destruct (st ==? "") eqn:E; [done|]. injection Hs as <-. rewrite eqb_false in E.
    destruct (default (JList []) (get "output" o)) as [| | | | |items|] eqn:Eo; try done.
    apply (gather_says _ item_says) in Ht as (tss & Hf & ->); [|apply item_text_says].
    assert (usage_says o usage) as Hus.
    { destruct (get "usage" o) as [[| | | | | |u]|] eqn:Eu; try done.
      - injection Hu as <-. left. auto.
      - apply read_usage_says in Hu as (counts & Hc & ->). right. by exists u, counts.
      - injection Hu as <-. left. auto. }
    exists o, items, tss. cbn. rewrite (proj1 (usage_fields_ok o usage Hus)). split_and!; try done.
    unfold id_says. destruct (get "id" o) as [[]|] eqn:Ei; try done; injection Hid as <-; auto.
  - intros (o & items & tss & -> & Hst & Hne & Hid & Hout & Hf & Htext & Hu). cbn [decode_value].
    rewrite Hst. unfold is_empty. rewrite bool_decide_false by done. cbn [mbind sum_bind].
    assert (match get "id" o with
            | None | Some JNull => inr None
            | Some (JString id) => inr (Some id)
            | _ => malformed "provider response id is not a string"
            end = inr (os_provider_request_id s)) as ->.
    { unfold id_says in Hid. destruct (os_provider_request_id s); [by rewrite Hid|]. by destruct Hid as [-> | ->]. }
    cbn [mbind sum_bind]. unfold list_field in Hout. rewrite Hout.
    rewrite (proj2 (gather_says _ item_says items (concat tss) item_text_says)) by by exists tss. cbn [mbind sum_bind].
    destruct (usage_fields_ok o _ Hu) as [Hsort _].
    assert (match get "usage" o with
            | None | Some JNull => inr []
            | Some (JObject u) => read_usage u USAGE_FIELDS
            | _ => malformed "response usage is not an object"
            end = inr (os_usage s)) as ->.
    { destruct Hu as [[[-> | ->] ->]|(u & counts & -> & Hc & ->)]; [done..|].
      apply read_usage_says. by exists counts. }
    cbn [mbind sum_bind]. rewrite Hsort, <-Htext. by destruct s.
Qed.

(** ** Early returns *)

(** A failure is malformed or unsupported, with a diagnostic. *)
Definition proper {A} (m : (OpenAIDecodeStatus * string) + A) : Prop :=
  ∀ status text, m = inl (status, text) →
    (status = OD_MALFORMED ∨ status = OD_UNSUPPORTED) ∧ nonempty_text text = Ok tt.

Lemma proper_ok {A} (a : A) : proper (inr a).
Proof. by intros ? ? [=]. Qed.
Lemma proper_malformed {A} text : nonempty_text text = Ok tt → proper (@malformed A text).
Proof. intros Ht ? ? [= <- <-]. auto. Qed.
Lemma proper_unsupported {A} text : nonempty_text text = Ok tt → proper (A:=A) (inl (OD_UNSUPPORTED, text)).
Proof. intros Ht ? ? [= <- <-]. auto. Qed.
Lemma proper_bind {A B} (m : (OpenAIDecodeStatus * string) + A) (f : A → (OpenAIDecodeStatus * string) + B) :
  proper m → (∀ a, m = inr a → proper (f a)) → proper (m ≫= f).
Proof. intros Hm Hf. destruct m as [[status text]|a]; [|by apply Hf]. intros ? ? [= <- <-]. by apply Hm. Qed.
Create HintDb decoding discriminated.
#[local] Hint Resolve proper_ok proper_bind : decoding.
#[local] Hint Extern 1 (proper (malformed _)) => (apply proper_malformed; reflexivity) : decoding.
#[local] Hint Extern 1 (proper (inl (OD_UNSUPPORTED, _))) => (apply proper_unsupported; reflexivity) : decoding.

Lemma gather_proper {A} (f : A → (OpenAIDecodeStatus * string) + list string) l : (∀ x, proper (f x)) → proper (gather f l).
Proof. intros Hf. induction l as [|x l IH]; cbn [gather]; auto 6 with decoding. Qed.
Lemma part_proper part : proper (part_text part).
Proof.
  destruct part; cbn; auto with decoding. destruct (get "type" o) as [[]|]; auto with decoding.
  destruct (_ ==? _); auto with decoding. destruct (get "text" o) as [[]|]; auto with decoding.
Qed.
Lemma item_proper item : proper (item_text item).
Proof.
  destruct item; cbn; auto with decoding. destruct (default _ _); auto with decoding. apply gather_proper, part_proper.
Qed.
Lemma usage_proper o names : names ⊆ USAGE_FIELDS → proper (read_usage o names).
Proof.
  induction names as [|name names IH]; intros Hn; cbn [read_usage]; auto with decoding.
  assert (name ∈ USAGE_FIELDS) as Hin by (apply Hn; left).
  assert (proper (@malformed (list (string * Z)) ("usage field " +:+ name +:+ " is not a nonnegative integer"))) as Hbad.
  { apply proper_malformed. repeat (apply elem_of_cons in Hin as [->|Hin]; [by vm_compute|]). by apply not_elem_of_nil in Hin. }
  assert (proper (read_usage o names)) as Hrest by (apply IH; intros x Hx; apply Hn; by right).
  destruct (get name o) as [[| |n| | | |]|]; auto. destruct (n <? 0)%Z; auto 6 with decoding.
Qed.

Lemma decode_value_proper value : proper (decode_value value).
Proof.
  destruct value as [| | | | | |o]; cbn [decode_value]; auto with decoding.
  apply proper_bind.
  { destruct (get "status" o) as [[| | | |st| |]|]; auto with decoding. destruct (is_empty st); auto with decoding. }
  intros status _. apply proper_bind; [destruct (get "id" o) as [[]|]; auto with decoding|]. intros id _.
  apply proper_bind.
  { destruct (default _ _); auto with decoding. apply gather_proper, item_proper. }
  intros texts _. apply proper_bind; [|auto with decoding].
  destruct (get "usage" o) as [[| | | | | |u]|]; auto with decoding. by apply usage_proper.
Qed.

(** C35: A captured body decodes exactly to what it says.  Of a body that parses,
    the decoder returns a summary exactly when the value is a response object
    in every part it reads, and then its status, its identity, the texts of
    its output in order and its counters, sorted; otherwise it returns
    malformed or unsupported with a diagnostic and no summary, and never
    failed.  It raises only on a status of more than 4096 characters, or what
    [json.loads] raises other than a decoding error. *)
Theorem decode_openai_exact json_loads raw_body :
  match json_loads raw_body with
  | LoadsRaised e => decode_openai_response json_loads raw_body = Raise e
  | Undecodable name =>
    nonempty_text ("response body is not valid UTF-8 JSON: " +:+ name) = Ok tt →
    ∃ text, decode_openai_response json_loads raw_body = Ok (MkOpenAIDecodeResult OD_MALFORMED None (Some text))
  | LoadedValue value =>
    (∀ s, response_says value s → nonempty_text (os_execution_status s) = Ok tt →
        decode_openai_response json_loads raw_body = Ok (MkOpenAIDecodeResult OD_DECODED (Some s) None))
    ∧ (∀ s, response_says value s → nonempty_text (os_execution_status s) ≠ Ok tt →
        is_ok (decode_openai_response json_loads raw_body) = false)
    ∧ ((∀ s, ¬ response_says value s) → ∃ status text,
        decode_openai_response json_loads raw_body = Ok (MkOpenAIDecodeResult status None (Some text))
        ∧ (status = OD_MALFORMED ∨ status = OD_UNSUPPORTED) ∧ nonempty_text text = Ok tt)
  end.
Proof.
  unfold decode_openai_response. destruct (json_loads raw_body) as [value|name|e]; [| |done].
  2: { intros Ht. unfold undecoded. rewrite Ht. by eexists. }
  assert (∀ s, response_says value s → validate_usage (os_usage s) = Ok tt) as Husage.
  { intros s (o & _ & _ & _ & _ & _ & _ & _ & _ & _ & Hu). by apply (usage_fields_ok o). }
  split_and!.
  - intros s Hs Hst. pose proof (Husage s Hs) as Hu. apply decode_value_says in Hs as ->.
    unfold openai_summary. by rewrite Hst, Hu.
  - intros s Hs Hst. apply decode_value_says in Hs as ->. unfold openai_summary.
    by destruct (nonempty_text _) as [[]|].
  - intros Hno. destruct (decode_value value) as [[status text]|s] eqn:E.
    + destruct (decode_value_proper value status text E) as [Hst Ht]. exists status, text. split; [|done].
      unfold undecoded. rewrite Ht. by destruct Hst as [-> | ->].
    + destruct (Hno s). by apply decode_value_says.
Qed.

(** A response with two texts and one counter, and the same body with a status
    that is too long: the decoder raises, so its return is never decoded. *)
Definition body (status : string) : json :=
  JObject [("status", JString status);
           ("output", JList [JObject [("content", JList [JObject [("type", JString "output_text"); ("text", JString "a")];
                                                        JObject [("type", JString "refusal")];
                                                        JObject [("type", JString "output_text"); ("text", JString "b")]])];
                             JObject [("type", JString "reasoning")]]);
           ("usage", JObject [("total_tokens", JInt 7); ("input_tokens", JNull)])].
Example decodes_body : decode_openai_response (λ _, LoadedValue (body "completed")) ""
  = Ok (MkOpenAIDecodeResult OD_DECODED (Some (MkOpenAIResponseSummary None "completed" "ab" [("total_tokens", 7%Z)])) None).
Proof. by vm_compute. Qed.
Fixpoint repeat_text (n : nat) (s : string) : string :=
  match n with O => "" | S n => s +:+ repeat_text n s end.
Example long_status_raises :
  is_ok (decode_openai_response (λ _, LoadedValue (body (repeat_text 4097 "x"))) "") = false.
Proof. by vm_compute. Qed.

(** ** The persisted request *)

Section live.
Context (json_loads : string → Loaded) (parse_request : string → result OpenAIRequestEnvelope)
        (imported : ImportedClient) (model : string).

(** The adapter presents the persisted request, once, and only to the pinned
    endpoint.  [perform_exact] makes at most one call.  When it makes one, the
    client is the one it was given or imported, its base URL is
    https://api.openai.com/v1 without query, fragment or user information, the
    call carries the input and the token bound of the parsed bytes, whose model
    is the configured one, and the outcome is the client's answer.  When it
    makes none, it raises. *)
Theorem presents_persisted_request self input_bytes timeout :
  let '(outcome, _, calls) := perform_openai parse_request imported model self input_bytes timeout in
  (calls = [] ∧ ∃ e, outcome = performed (Raise e))
  ∨ ∃ c u e, calls = [(c, MkResponseCall model (oe_input e) (oe_max_output_tokens e) timeout)]
     ∧ outcome = present c e timeout ∧ parse_request input_bytes = Ok e
     ∧ (self = Some c ∨ self = None ∧ imported = Imported c)
     ∧ base_url c = Some u ∧ url_scheme u = "https" ∧ url_netloc u = "api.openai.com"
     ∧ rstrip_slashes (url_path u) = "/v1" ∧ url_query u = "" ∧ url_fragment u = ""
     ∧ url_username u = None ∧ url_password u = None.
Proof.
  unfold perform_openai.
  destruct (request ← parse_request input_bytes; _) as [e|x] eqn:E; [|left; split; [done|by exists x]].
  apply bind_ok in E as (e' & He & E). rewrite raise_if_bind, neqb_false in E. destruct E as [Hm [= ->]].
  assert (∀ c, (validate_client_endpoint c;; Ok c) = Ok c → ∃ u, base_url c = Some u ∧ endpoint_matches u = true) as Hend.
  { intros c H. apply seq_ok in H as [H _]. unfold validate_client_endpoint in H. destruct (base_url c) as [u|]; [|done].
    exists u. by apply raise_if_ok, negb_false_iff in H. }
  assert (∀ r self' c, resolve_client imported self = (r, self') → r = Ok c →
    (self = Some c ∨ self = None ∧ imported = Imported c) ∧ (validate_client_endpoint c;; Ok c) = Ok c) as Hres.
  { unfold resolve_client. intros r self' c H ->. destruct self as [c'|].
    - injection H as H _. pose proof H as [_ [= ->]]%seq_ok. auto.
    - destruct imported as [| |c']; [done..|]. injection H as H _. pose proof H as [_ [= ->]]%seq_ok. auto. }
  destruct (resolve_client imported self) as [[c|x] self'] eqn:Er; [right|left; split; [done|by exists x]].
  destruct (Hres _ _ c eq_refl eq_refl) as [Hc Hv]. destruct (Hend c Hv) as (u & Hu & Hmatch).
  unfold endpoint_matches, is_empty in Hmatch.
  rewrite !andb_true_iff, negb_true_iff, orb_false_iff, !bool_decide_eq_true, !is_some_false in Hmatch.
  exists c, u, e. unfold response_call. rewrite Hm. naive_solver.
Qed.
End live.

Lemma presents_persisted_request_example :
  let u := MkSplitUrl "https" "api.openai.com" "/v1/" "" "" None None in
  let c := MkClient (Some u) (λ _, ClientRaised "APITimeoutError") in
  let e := MkOpenAIRequestEnvelope "i" "gpt" "q" 5 in
  (perform_openai (λ _, Ok e) ModuleMissing "gpt" (Some c) "" 30).1.1 = RaisedTimeout "TimeoutError".
Proof. by vm_compute. Qed.

Lemma decode_openai_exact_witness :
  response_says (body "completed") (MkOpenAIResponseSummary None "completed" "ab" [("total_tokens", 7%Z)])
  ∧ decode_openai_response (λ _, LoadedValue (body "completed")) ""
    = Ok (MkOpenAIDecodeResult OD_DECODED (Some (MkOpenAIResponseSummary None "completed" "ab" [("total_tokens", 7%Z)])) None).
Proof.
  assert (response_says (body "completed") (MkOpenAIResponseSummary None "completed" "ab" [("total_tokens", 7%Z)])) as H
    by (apply decode_value_says; vm_compute; reflexivity).
  split; [exact H|]. destruct (decode_openai_exact (λ _, LoadedValue (body "completed")) "") as (D & _ & _).
  apply D; [exact H|reflexivity].
Defined.

(** ** What is prepared is what is asked *)

Lemma compile_ok i model e : compile_openai_request i model = Ok e →
  e = MkOpenAIRequestEnvelope (inv_invocation_id i) model (prompt i) (inv_max_output_tokens i).
Proof. unfold compile_openai_request, openai_envelope. rewrite !seq_ok. by intros (_ & _ & _ & _ & _ & [= <-]). Qed.

Lemma openai_route_adapter model d : openai_route_definition model = Ok d →
  rd_adapter_id d = OPENAI_ADAPTER_ID ∧ rd_adapter_version d = OPENAI_ADAPTER_VERSION
  ∧ rd_endpoint_or_channel d = Some "https://api.openai.com/v1/responses".
Proof. unfold openai_route_definition. rewrite bind_ok. intros (e & _ & H). rewrite !seq_ok in H. by destruct H as (_ & _ & [= <-]). Qed.

(** Preparing an OpenAI attempt only adds artifacts; as long as they stay and
    none collides with the request, the registry accepts the route and the
    adapter accepts the input, whose parsed text is the invocation's prompt. *)
Theorem prepared_openai_accepted registry parse_request i model p request_id attempt_id route_id version timeout rt
    er plan rt' :
  prepare_openai_attempt registry i model p request_id attempt_id route_id version timeout rt = (Ok (er, plan), rt') →
  let e := MkOpenAIRequestEnvelope (inv_invocation_id i) model (prompt i) (inv_max_output_tokens i) in
  let input := canonical_json (to_json e) in
  publishes rt rt' ∧ is_ok (check_invocation i p) = true ∧ req_step_plan_id er = plan_id p
  ∧ req_adapter_id er = OPENAI_ADAPTER_ID ∧ rs_adapter_id (ap_route plan) = OPENAI_ADAPTER_ID
  ∧ ∀ st, rt_artifacts rt' ⊆ st → no_collision st [input] → parse_request input = Ok e →
      is_ok (validate_route registry st er (ap_route plan)) = true
      ∧ get_bytes st (req_input_artifact er) = Ok input
      ∧ validate_openai_input parse_request model input = Ok tt.
Proof.
  intros H e input. unfold prepare_openai_attempt in H.
  apply lift_ok in H as ([] & _ & H). apply lift_ok in H as ([] & Hcheck & H). apply lift_ok in H as (e' & He & H).
  apply compile_ok in He as ->. fold e in H. apply sdk_ok in H as (input_ref & rt1 & Hput & H).
  apply put_artifact_ok in Hput as (-> & Hp1 & Hst1). apply lift_ok in H as ([] & _ & H).
  apply lift_ok in H as (d & Hd & H). apply openai_route_adapter in Hd as (Ha & _ & _).
  apply sdk_ok in H as (def_ref & rt2 & Hdef & H). apply put_artifact_ok in Hdef as (-> & Hp2 & _).
  apply sdk_ok in H as (env_ref & rt3 & Henv & H). apply put_artifact_ok in Henv as (-> & Hp3 & _).
  apply lift_ok in H as ([] & _ & H). apply sdk_ok in H as (d' & rt5 & Hroute & H).
  unfold reading in Hroute. injection Hroute as Hroute <-. apply lift_ok in H as ([] & _ & [= <- <- <-]).
  assert (publishes rt1 rt3) as Hp by by etrans.
  split; [by etrans|]. split; [by rewrite Hcheck|]. split; [done|]. split; [done|]. split; [done|].
  intros st Hst Hc Hparse. split; [apply is_ok_true; eexists; by eapply validate_route_weaken|]. split.
  - change (get_bytes st (ref_of input (Some "application/vnd.rci.openai-request+json") (Some "utf-8")) = Ok input).
    apply (get_stored st [input]); [done|left|]. eapply stored_weaken, Hst1. etrans; [apply Hp|done].
  - unfold validate_openai_input. rewrite Hparse. cbn [mbind result_bind e oe_model]. by rewrite bool_decide_true.
Qed.
