(* ===== verification/Cli.v ===== *)
(** * The command line's own logic: [src/rci/cli/__init__.py]

    The digest of the governed workspace, the bounded capture of an evidence
    file, and backlog reconciliation; the other commands parse arguments, make
    one call of [RCI] and print the result.  The operating system is a
    parameter: an [Entry] holds what each call at its place answers ([None] is
    an [OSError]), and these answers need not agree with each other, as on a
    file system that changes meanwhile.  The code turns the [OSError] of listing,
    looking up and opening into a [ValueError]; that of a call on an open
    descriptor ([fstat], [read], [close]) escapes as it is.  Names are UTF-8
    without a slash, so sorting by bytes is sorting by code points. *)

From Stdlib Require Import Ascii.
From S2P Require Import Prelude Digest Model Backlog Goals Artifacts Serialization Store Runtime State.

(** ** What the operating system answers *)

Record Stat : Type := MkStat {
  st_dev : Z;
  st_ino : Z;
  st_mode : Z;
  st_size : Z;
  st_mtime_ns : Z;
  st_reparse : bool;
}.

(** [stat.S_ISREG], [S_ISDIR], [S_ISLNK] *)
Definition file_type (s : Stat) : Z := Z.land (st_mode s) 61440.
Definition is_regular (s : Stat) : bool := (file_type s =? 32768)%Z.
Definition is_directory (s : Stat) : bool := (file_type s =? 16384)%Z.
Definition is_link (s : Stat) : bool := (file_type s =? 40960)%Z.

(** The five fields the code compares. *)
Definition identity (s : Stat) : Z * Z * Z * Z * Z := (st_dev s, st_ino s, st_mode s, st_size s, st_mtime_ns s).

(** An opened file: [fstat], the reads up to the empty one, [fstat] again, and
    whether [close] succeeds. *)
Record Opened : Type := MkOpened {
  opened_stat : option Stat;
  reads : list (option string);
  closed_stat : option Stat;
  closes : bool;
}.

(** [try: ... finally: os.close(descriptor)]: a [close] that fails replaces the
    outcome of the body. *)
Definition with_descriptor {A} (o : Opened) (body : result A) : result A :=
  if closes o then body else raise OSError "close".

(** [scan_link] is [entry.is_symlink()], the type the directory listing reported,
    which does not ask the file system once [entry.stat] has answered. *)
Inductive Entry : Type := MkEntry
  (name : string) (scan_stat : option Stat) (scan_link : bool) (path_stat : option Stat)
  (listing : option (list Entry)) (opening : option Opened).
Definition entry_name (e : Entry) : string := let '(MkEntry n _ _ _ _ _) := e in n.
Definition scan_stat (e : Entry) : option Stat := let '(MkEntry _ s _ _ _ _) := e in s.
Definition scan_link (e : Entry) : bool := let '(MkEntry _ _ b _ _ _) := e in b.
Definition path_stat (e : Entry) : option Stat := let '(MkEntry _ _ _ s _ _) := e in s.
Definition listing (e : Entry) : option (list Entry) := let '(MkEntry _ _ _ _ l _) := e in l.
Definition opening (e : Entry) : option Opened := let '(MkEntry _ _ _ _ _ o) := e in o.

(** ** [_workspace_digest] *)

Definition MAX_WORKSPACE_FILES : Z := 10000.
Definition MAX_WORKSPACE_FILE_BYTES : Z := 16777216.
Definition MAX_WORKSPACE_BYTES : Z := 67108864.

Definition excluded_parts : list string :=
  [".git"; ".mypy_cache"; ".pytest-tmp"; ".pytest_cache"; ".ruff_cache"; ".venv"; "__pycache__"; "artifacts";
   "build"; "dist"; "exports"; "projections"].
Definition excluded (part : string) : bool := mem part excluded_parts || String.prefix ".pytest-tmp" part.

Definition as_posix (relative : list string) : string := join "/" relative.

(** Runtime state, but for the policy file. *)
Definition runtime_state (relative : list string) : bool :=
  (head relative ==? Some ".rci") && (as_posix relative !=? ".rci/config.toml").

Inductive Classified : Type := Skipped | ChildDirectory | RegularFile (st : Stat).

(** The body of the loop over the entries, up to what it appends. *)
Definition classify (relative : list string) (e : Entry) : result Classified :=
  if any excluded relative then Ok Skipped
  else if runtime_state relative then Ok Skipped
  else
    s1 ← or_raise (scan_stat e) ValueError "workspace entry changed during traversal";
    raise_if (scan_link e || st_reparse s1) ValueError "workspace links and reparse points are forbidden";;
    s2 ← or_raise (path_stat e) ValueError "workspace entry changed during traversal";
    raise_if (is_link s2 || st_reparse s2) ValueError "workspace links and reparse points are forbidden";;
    if is_directory s2 then Ok ChildDirectory
    else if is_regular s2 then
      raise_if (MAX_WORKSPACE_FILE_BYTES <? st_size s2)%Z ValueError "workspace file exceeds the per-file bound";;
      Ok (RegularFile s2)
    else raise ValueError "workspace contains a non-regular entry".

(** [files], [child_directories] and [pending] *)
Record Found : Type := MkFound { found_path : list string; found_stat : Stat; found_entry : Entry }.
Definition Directory : Type := list string * option (list Entry).

Fixpoint scan (parent : list string) (entries : list Entry) (files : list Found) :
    result (list Directory * list Found) :=
  match entries with
  | [] => Ok ([], files)
  | e :: entries =>
    let relative := parent ++ [entry_name e] in
    c ← classify relative e;
    match c with
    | Skipped => scan parent entries files
    | ChildDirectory =>
      rest ← scan parent entries files;
      Ok ((relative, listing e) :: rest.1, rest.2)
    | RegularFile st =>
      let files := files ++ [MkFound relative st e] in
      raise_if (MAX_WORKSPACE_FILES <? Z.of_nat (length files))%Z ValueError "workspace exceeds the governed file-count bound";;
      scan parent entries files
    end
  end.

(** [while pending]; the head of the list is the end of the stack. *)
Fixpoint walk (fuel : nat) (pending : list Directory) (files : list Found) : result (list Found) :=
  match pending with
  | [] => Ok files
  | (relative, entries) :: pending =>
    match fuel with
    | O => raise RuntimeError "out of fuel"
    | S fuel =>
      entries ← or_raise entries ValueError "workspace traversal failed closed";
      scanned ← scan relative (sort_by entry_name entries) files;
      walk fuel (scanned.1 ++ pending) scanned.2
    end
  end.

(** [n.to_bytes(8, "big")] *)
Definition be8 (n : Z) : string :=
  String.string_of_list_ascii (map Ascii.ascii_of_N (Sha256.be_bytes 8 (Z.to_N n))).
Definition byte_length (s : string) : Z := Z.of_nat (String.length s).

(** [while chunk := os.read(...)]: what is read, and the running totals. *)
Fixpoint read_chunks (chunks : list (option string)) (captured total : Z) : result (string * Z * Z) :=
  match chunks with
  | [] => Ok ("", captured, total)
  | None :: _ => raise OSError "read"
  | Some chunk :: chunks =>
    if is_empty chunk then Ok ("", captured, total)
    else
      let captured := (captured + byte_length chunk)%Z in
      let total := (total + byte_length chunk)%Z in
      raise_if ((MAX_WORKSPACE_FILE_BYTES <? captured) || (MAX_WORKSPACE_BYTES <? total))%Z
        ValueError "workspace exceeds the governed byte bound";;
      rest ← read_chunks chunks captured total;
      Ok (chunk +:+ rest.1.1, rest.1.2, rest.2)
  end.

(** One turn of the loop over the sorted files: what it feeds to the hash. *)
Definition capture_file (f : Found) (total : Z) : result (string * Z) :=
  let path := as_posix (found_path f) in
  o ← or_raise (opening (found_entry f)) ValueError "workspace file could not be opened safely";
  with_descriptor o (
    opened ← or_raise (opened_stat o) OSError "fstat";
    raise_if (negb (is_regular opened) || (identity opened !=? identity (found_stat f)))
      ValueError "workspace file changed before capture";;
    r ← read_chunks (reads o) 0 total;
    closed ← or_raise (closed_stat o) OSError "fstat";
    raise_if ((r.1.2 !=? st_size (found_stat f)) || (identity closed !=? identity (found_stat f)))
      ValueError "workspace file changed during capture";;
    Ok (be8 (byte_length path) +:+ path +:+ be8 (st_size (found_stat f)) +:+ r.1.1, r.2)).

Fixpoint capture_files (files : list Found) (total : Z) : result string :=
  match files with
  | [] => Ok ""
  | f :: files => c ← capture_file f total; rest ← capture_files files c.2; Ok (c.1 +:+ rest)
  end.

Fixpoint entry_count (e : Entry) : nat :=
  let '(MkEntry _ _ _ _ listing _) := e in
  S (match listing with Some l => list_sum (map entry_count l) | None => 0 end).
Definition directory_fuel (entries : option (list Entry)) : nat :=
  S (match entries with Some l => list_sum (map entry_count l) | None => 0 end).

Definition workspace_digest (root_stat : option Stat) (root : option (list Entry)) : result string :=
  s ← or_raise root_stat ValueError "workspace root is unavailable";
  raise_if (is_link s || st_reparse s || negb (is_directory s))
    ValueError "workspace root must be a real, non-reparse directory";;
  files ← walk (directory_fuel root) [([], root)] [];
  preimage ← capture_files (sort_by (λ f, as_posix (found_path f)) files) 0;
  Ok (Sha256.hexdigest preimage).

(** ** What is governed *)

(** The directories the walk enters below a listing, and the files it takes. *)
Inductive reached (top : Directory) : Directory → Prop :=
| reached_top : reached top top
| reached_child relative entries e : reached top (relative, Some entries) → e ∈ entries →
    classify (relative ++ [entry_name e]) e = Ok ChildDirectory →
    reached top (relative ++ [entry_name e], listing e).

Definition governs (top : Directory) (f : Found) : Prop :=
  ∃ relative entries, reached top (relative, Some entries) ∧ found_entry f ∈ entries
    ∧ found_path f = relative ++ [entry_name (found_entry f)]
    ∧ classify (found_path f) (found_entry f) = Ok (RegularFile (found_stat f)).

(** The files of one listing, and its subdirectories. *)
Definition file_of (relative : list string) (entries : list Entry) (f : Found) : Prop :=
  found_entry f ∈ entries ∧ found_path f = relative ++ [entry_name (found_entry f)]
  ∧ classify (found_path f) (found_entry f) = Ok (RegularFile (found_stat f)).
Definition child_of (relative : list string) (entries : list Entry) (d : Directory) : Prop :=
  ∃ e, e ∈ entries ∧ d = (relative ++ [entry_name e], listing e)
       ∧ classify (relative ++ [entry_name e]) e = Ok ChildDirectory.

Lemma scan_spec relative entries files dirs files' : scan relative entries files = Ok (dirs, files') →
  (∀ d, d ∈ dirs ↔ child_of relative entries d)
  ∧ (∀ f, f ∈ files' ↔ f ∈ files ∨ file_of relative entries f)
  ∧ list_sum (map (λ d : Directory, directory_fuel d.2) dirs) ≤ list_sum (map entry_count entries)
  ∧ ((Z.of_nat (length files) ≤ MAX_WORKSPACE_FILES)%Z → (Z.of_nat (length files') ≤ MAX_WORKSPACE_FILES)%Z).
Proof.
  revert files dirs files'. induction entries as [|e entries IH]; intros files dirs files'; cbn [scan].
  { intros [= <- <-]. split_and!; [|intros f|done|done].
    - intros d. split; [by intros ?%not_elem_of_nil|]. by intros (e & ?%not_elem_of_nil & _).
    - split; [by left|]. intros [?|(?%not_elem_of_nil & _)]; done. }
  rewrite bind_ok. intros (c & Hc & H).
  assert (directory_fuel (listing e) = entry_count e) as Hcount by (by destruct e as [? ? ? ? [] ?]).
  assert (list_sum (map entry_count (e :: entries)) = entry_count e + list_sum (map entry_count entries)) as Hsum by done.
  assert (∀ (d : Directory) ds, list_sum (map (λ d : Directory, directory_fuel d.2) (d :: ds))
    = directory_fuel d.2 + list_sum (map (λ d : Directory, directory_fuel d.2) ds)) as Hsum' by done.
  assert (∀ f, file_of relative (e :: entries) f ↔
    (f = MkFound (relative ++ [entry_name e]) (found_stat f) e ∧ classify (relative ++ [entry_name e]) e = Ok (RegularFile (found_stat f)))
    ∨ file_of relative entries f) as Hfile.
  { intros [path st e']. unfold file_of. cbn. rewrite elem_of_cons. naive_solver. }
  assert (∀ d, child_of relative (e :: entries) d ↔
    (d = (relative ++ [entry_name e], listing e) ∧ classify (relative ++ [entry_name e]) e = Ok ChildDirectory)
    ∨ child_of relative entries d) as Hchild.
  { intros d. unfold child_of. setoid_rewrite elem_of_cons. naive_solver. }
  destruct c as [| |st].
  - destruct (IH _ _ _ H) as (Hd & Hf & Hs & Hl). split_and!; [| |lia|done].
    + intros d. rewrite Hd, Hchild, Hc. naive_solver.
    + intros f. rewrite Hf, Hfile, Hc. naive_solver.
  - apply bind_ok in H as ([dirs0 files0] & H & [= <- <-]). cbn [fst snd].
    destruct (IH _ _ _ H) as (Hd & Hf & Hs & Hl). split_and!; [| |rewrite Hsum'; cbn [snd]; lia|done].
    + intros d. rewrite elem_of_cons, Hd, Hchild. naive_solver.
    + intros f. rewrite Hf, Hfile, Hc. naive_solver.
  - rewrite raise_if_bind in H. destruct H as [Hlen H].
    destruct (IH _ _ _ H) as (Hd & Hf & Hs & Hl). split_and!; [| |lia|].
    + intros d. rewrite Hd, Hchild, Hc. naive_solver.
    + intros f. rewrite Hf, elem_of_app, list_elem_of_singleton, Hfile, Hc. destruct f. naive_solver.
    + intros _. apply Hl. lia.
Qed.

Definition pending_fuel (pending : list Directory) : nat := list_sum (map (λ d : Directory, directory_fuel d.2) pending).

Lemma reached_trans a b c : reached a b → reached b c → reached a c.
Proof. intros Hab Hbc. induction Hbc; [done|]. by econstructor. Qed.

(** What lies below a listing lies in it or below one of its subdirectories. *)
Lemma governs_step relative entries f :
  governs (relative, Some entries) f ↔
  file_of relative entries f ∨ ∃ d, child_of relative entries d ∧ governs d f.
Proof.
  assert (∀ top d, reached top d → ∀ relative entries, top = (relative, Some entries) →
    d = top ∨ ∃ c, child_of relative entries c ∧ reached c d) as Hinv.
  { intros top d H. induction H as [|rel es e Hr IH He Hc]; intros relative' entries' ->; [by left|]. right.
    destruct (IH _ _ eq_refl) as [[= -> ->]|(c & Hc' & Hrc)].
    - exists (relative' ++ [entry_name e], listing e). split; [by exists e|constructor].
    - exists c. split; [done|]. by econstructor. }
  split.
  - intros (rel & es & Hr & Hf). destruct (Hinv _ _ Hr _ _ eq_refl) as [[= -> ->]|(c & Hc & Hrc)]; [by left|].
    right. exists c. split; [done|]. by exists rel, es.
  - intros [Hf|(d & (e & He & -> & Hc) & (rel & es & Hr & Hf))].
    + exists relative, entries. split; [constructor|done].
    + exists rel, es. split; [|done]. eapply reached_trans; [|done]. econstructor; [constructor|done..].
Qed.

(** The walk takes exactly the governed files, within its fuel. *)
Lemma walk_spec fuel pending files files' : walk fuel pending files = Ok files' →
  (∀ f, f ∈ files' ↔ f ∈ files ∨ ∃ d, d ∈ pending ∧ governs d f)
  ∧ ((Z.of_nat (length files) ≤ MAX_WORKSPACE_FILES)%Z → (Z.of_nat (length files') ≤ MAX_WORKSPACE_FILES)%Z).
Proof.
  revert pending files. induction fuel as [|fuel IH]; intros [|[relative listing] pending] files; cbn [walk]; try done.
  1-2: intros [= <-]; split; [|done]; intros f; split; [by left|]; by intros [?|(d & ?%not_elem_of_nil & _)].
  rewrite bind_ok. intros (entries & Hl & H). rewrite bind_ok in H. destruct H as ([dirs files1] & Hscan & H).
  destruct listing as [entries'|]; [|done]. injection Hl as ->.
  apply scan_spec in Hscan as (Hd & Hf & _ & Hlen). destruct (IH _ _ H) as [Hout Hlen']. split; [|auto].
  assert (∀ x, x ∈ sort_by entry_name entries ↔ x ∈ entries) as Hperm by (intros x; by rewrite sort_by_perm).
  assert (∀ f, file_of relative (sort_by entry_name entries) f ↔ file_of relative entries f) as Hfile
    by (intros f; unfold file_of; by rewrite Hperm).
  assert (∀ d, child_of relative (sort_by entry_name entries) d ↔ child_of relative entries d) as Hchild
    by (intros d; unfold child_of; by setoid_rewrite Hperm).
  intros f. rewrite Hout. cbn [fst snd]. rewrite Hf, Hfile. setoid_rewrite elem_of_app. setoid_rewrite Hd.
  setoid_rewrite Hchild. setoid_rewrite elem_of_cons. pose proof (governs_step relative entries f). naive_solver.
Qed.

Definition out_of_fuel {A} (m : result A) : Prop := m = raise RuntimeError "out of fuel".

Lemma classify_class relative e x : classify relative e = Raise x → exn_class x = ValueError.
Proof.
  unfold classify. destruct (any excluded relative); [done|]. destruct (runtime_state relative); [done|].
  destruct (scan_stat e) as [s1|]; cbn; [|by intros [= <-]]. destruct (scan_link e || _); cbn; [by intros [= <-]|].
  destruct (path_stat e) as [s2|]; cbn; [|by intros [= <-]]. destruct (is_link s2 || _); cbn; [by intros [= <-]|].
  destruct (is_directory s2); [done|]. destruct (is_regular s2); cbn; [|by intros [= <-]].
  destruct (_ <? _)%Z; cbn; [by intros [= <-]|done].
Qed.

Lemma scan_class relative entries files x : scan relative entries files = Raise x → exn_class x = ValueError.
Proof.
  revert files. induction entries as [|e entries IH]; intros files; cbn [scan]; [done|].
  destruct (classify _ e) as [[| |st]|y] eqn:Ec; cbn [mbind result_bind].
  - apply IH.
  - destruct (scan relative entries files) as [r|y] eqn:Er; cbn; [done|]. intros [= <-]. by apply (IH files).
  - destruct (_ <? _)%Z; cbn; [by intros [= <-]|]. apply IH.
  - intros [= <-]. by eapply classify_class.
Qed.

(** With fuel for the entries below it, the walk fails with [ValueError] only. *)
Lemma walk_class fuel pending files x : pending_fuel pending ≤ fuel →
  walk fuel pending files = Raise x → exn_class x = ValueError.
Proof.
  revert pending files. induction fuel as [|fuel IH]; intros [|[relative listing] pending] files Hfuel; cbn [walk]; try done.
  { exfalso. change (directory_fuel listing + pending_fuel pending ≤ 0) in Hfuel. unfold directory_fuel in Hfuel. lia. }
  destruct listing as [entries|]; cbn [or_raise mbind result_bind]; [|by intros [= <-]].
  destruct (scan _ _ files) as [[dirs files1]|y] eqn:Es; cbn [mbind result_bind].
  - apply IH. apply scan_spec in Es as (_ & _ & Hsum & _). cbn [fst snd].
    assert (list_sum (map entry_count (sort_by entry_name entries)) = list_sum (map entry_count entries)) as Heq.
    { assert (∀ l l' : list Entry, l ≡ₚ l' → list_sum (map entry_count l) = list_sum (map entry_count l')) as Hp.
      { assert (∀ e l, list_sum (map entry_count (e :: l)) = entry_count e + list_sum (map entry_count l)) as Hc by done.
        intros l l' Hp. induction Hp; rewrite ?Hc; try lia; congruence. }
      apply Hp, sort_by_perm. }
    change (S (list_sum (map entry_count entries)) + pending_fuel pending ≤ S fuel) in Hfuel.
    assert (pending_fuel (dirs ++ pending) = pending_fuel dirs + pending_fuel pending) as Happ.
    { unfold pending_fuel. by rewrite map_app, list_sum_app. }
    fold (pending_fuel dirs) in Hsum. lia.
  - intros [= <-]. by eapply scan_class.
Qed.

(** ** The encoding fed to the hash *)

(** One file of the preimage: both lengths, the path, the bytes. *)
Definition encode_file (p : string * string) : string :=
  be8 (byte_length p.1) +:+ p.1 +:+ be8 (byte_length p.2) +:+ p.2.
Fixpoint encode (m : list (string * string)) : string :=
  match m with [] => "" | p :: m => encode_file p +:+ encode m end.

Definition small (p : string * string) : Prop :=
  (byte_length p.1 < 2 ^ 64)%Z ∧ (byte_length p.2 < 2 ^ 64)%Z.

Lemma be_bytes_bits n x y : Sha256.be_bytes n x = Sha256.be_bytes n y →
  ∀ i, (i < 8 * N.of_nat n)%N → N.testbit x i = N.testbit y i.
Proof.
  induction n as [|n IH]; cbn [Sha256.be_bytes]; intros H i Hi; [lia|]. injection H as Htop Hrest.
  destruct (N.lt_ge_cases i (8 * N.of_nat n)) as [Hlt|Hge]; [by apply IH|].
  apply (f_equal (λ b, N.testbit b (i - 8 * N.of_nat n))) in Htop. rewrite !N.land_spec, !N.shiftr_spec' in Htop.
  change 255%N with (N.ones 8) in Htop. rewrite N.ones_spec_low in Htop by lia. rewrite !andb_true_r in Htop.
  by replace (i - 8 * N.of_nat n + 8 * N.of_nat n)%N with i in Htop by lia.
Qed.

Lemma be_bytes_bounded n x : Forall (λ b, (b < 256)%N) (Sha256.be_bytes n x).
Proof.
  induction n as [|n IH]; cbn [Sha256.be_bytes]; constructor; [|done].
  change 255%N with (N.ones 8). rewrite N.land_ones. by apply N.mod_lt.
Qed.

Lemma be8_inj a b : (0 ≤ a < 2 ^ 64)%Z → (0 ≤ b < 2 ^ 64)%Z → be8 a = be8 b → a = b.
Proof.
  intros Ha Hb H. unfold be8 in H. apply (f_equal String.list_ascii_of_string) in H.
  rewrite !String.list_ascii_of_string_of_list_ascii in H. apply (f_equal (map Ascii.N_of_ascii)) in H.
  rewrite !map_map in H. assert (∀ l, Forall (λ b, (b < 256)%N) l → map (λ x, Ascii.N_of_ascii (Ascii.ascii_of_N x)) l = l) as Hid.
  { intros l Hl. induction Hl as [|x l Hx _ IH]; cbn; [done|]. by rewrite IH, Ascii.N_ascii_embedding. }
  rewrite !Hid in H by apply be_bytes_bounded. apply Z2N.inj; [lia..|].
  assert (∀ z, (0 ≤ z < 2 ^ 64)%Z → Z.to_N z = N.land (Z.to_N z) (N.ones 64)) as Hlow.
  { intros z Hz. rewrite N.land_ones, N.mod_small; [done|]. change (2 ^ 64)%N with 18446744073709551616%N.
    change (2 ^ 64)%Z with 18446744073709551616%Z in Hz. lia. }
  rewrite (Hlow a), (Hlow b) by done. apply N.bits_inj. intros i. rewrite !N.land_spec.
  destruct (N.lt_ge_cases i 64) as [Hi|Hi]; [by rewrite (be_bytes_bits 8 _ _ H i)|].
  rewrite N.ones_spec_high by done. by rewrite !andb_false_r.
Qed.

Lemma string_app_split (s1 s2 t1 t2 : string) : String.length s1 = String.length t1 →
  s1 +:+ s2 = t1 +:+ t2 → s1 = t1 ∧ s2 = t2.
Proof.
  revert t1. induction s1 as [|c s1 IH]; intros [|d t1] Hl H; try done. injection H as -> H.
  injection Hl as Hl. destruct (IH t1 Hl H) as [-> ->]. done.
Qed.

Lemma be8_length n : String.length (be8 n) = 8.
Proof. done. Qed.

Lemma encode_file_split p q s t : small p → small q → encode_file p +:+ s = encode_file q +:+ t → p = q ∧ s = t.
Proof.
  intros [Hp1 Hp2] [Hq1 Hq2]. unfold encode_file. rewrite !string_app_assoc. intros H.
  assert (∀ s : string, (0 ≤ byte_length s)%Z) as Hnn by (intros ?; unfold byte_length; lia).
  apply string_app_split in H as [Hl1 H]; [|done]. apply be8_inj in Hl1; [|auto..].
  apply string_app_split in H as [Hpath H]; [|unfold byte_length in Hl1; lia].
  apply string_app_split in H as [Hl2 H]; [|done]. apply be8_inj in Hl2; [|auto..].
  apply string_app_split in H as [Hdata H]; [|unfold byte_length in Hl2; lia].
  split; [|done]. destruct p, q. cbn in *. congruence.
Qed.

(** Different manifests have different encodings. *)
Lemma encode_inj m m' : Forall small m → Forall small m' → encode m = encode m' → m = m'.
Proof.
  intros Hm. revert m'. induction Hm as [|p m Hp _ IH]; intros m' Hm' H.
  - destruct Hm' as [|q m' _ _]; [done|]. cbn in H. by apply (f_equal String.length) in H.
  - destruct Hm' as [|q m' Hq Hm']; [cbn in H; by apply (f_equal String.length) in H|]. cbn in H.
    apply encode_file_split in H as [-> H]; [|done..]. by rewrite (IH m' Hm' H).
Qed.

(** ** What is captured *)

(** The reads up to the empty one. *)
Fixpoint content_of (chunks : list (option string)) : string :=
  match chunks with
  | [] | None :: _ => ""
  | Some chunk :: chunks => if is_empty chunk then "" else chunk +:+ content_of chunks
  end.

Definition contents (f : Found) : string :=
  match opening (found_entry f) with Some o => content_of (reads o) | None => "" end.
Definition manifest_entry (f : Found) : string * string := (as_posix (found_path f), contents f).

(** The file stayed what it was when it was found, from its opening to its closing. *)
Definition steady (f : Found) : Prop :=
  ∃ o opened closed, opening (found_entry f) = Some o ∧ opened_stat o = Some opened ∧ closed_stat o = Some closed
    ∧ closes o = true ∧ is_regular opened = true
    ∧ identity opened = identity (found_stat f) ∧ identity closed = identity (found_stat f)
    ∧ byte_length (contents f) = st_size (found_stat f) ∧ (byte_length (contents f) ≤ MAX_WORKSPACE_FILE_BYTES)%Z.

(** A call on the open descriptor fails. *)
Definition descriptor_fault (o : Opened) : Prop :=
  opened_stat o = None ∨ None ∈ reads o ∨ closed_stat o = None ∨ closes o = false.

Definition total_bytes (files : list Found) : Z := foldr (λ f n, byte_length (contents f) + n)%Z 0%Z files.

Lemma byte_length_append s t : byte_length (s +:+ t) = (byte_length s + byte_length t)%Z.
Proof.
  unfold byte_length. induction s as [|c s IH]; [done|].
  change (Z.of_nat (S (String.length (s +:+ t))) = (Z.of_nat (S (String.length s)) + Z.of_nat (String.length t))%Z). lia.
Qed.

Lemma read_chunks_ok chunks captured total data captured' total' :
  read_chunks chunks captured total = Ok (data, captured', total') →
  data = content_of chunks ∧ captured' = (captured + byte_length data)%Z ∧ total' = (total + byte_length data)%Z
  ∧ ((captured ≤ MAX_WORKSPACE_FILE_BYTES)%Z → (captured' ≤ MAX_WORKSPACE_FILE_BYTES)%Z)
  ∧ ((total ≤ MAX_WORKSPACE_BYTES)%Z → (total' ≤ MAX_WORKSPACE_BYTES)%Z).
Proof.
  assert (byte_length "" = 0%Z) as Hnil by done.
  revert captured total data captured' total'.
  induction chunks as [|[chunk|] chunks IH]; intros captured total data captured' total'; cbn [read_chunks content_of]; [| |done].
  { intros [= <- <- <-]. rewrite Hnil. split_and!; [done|lia..]. }
  destruct (is_empty chunk).
  { intros [= <- <- <-]. rewrite Hnil. split_and!; [done|lia..]. }
  cbv zeta. rewrite raise_if_bind. intros [Hb H]. apply bind_ok in H as ([[data1 c1] t1] & H & [= <- <- <-]).
  cbn [fst snd]. destruct (IH _ _ _ _ _ H) as (-> & -> & -> & Hc & Ht). rewrite byte_length_append.
  split_and!; [done|lia..].
Qed.

Lemma or_raise_ok {A} (o : option A) k msg x : or_raise o k msg = Ok x → o = Some x.
Proof. destruct o; [|done]. by intros [= ->]. Qed.

Lemma capture_file_ok f total piece total' : capture_file f total = Ok (piece, total') →
  piece = encode_file (manifest_entry f) ∧ steady f ∧ total' = (total + byte_length (contents f))%Z
  ∧ ((total ≤ MAX_WORKSPACE_BYTES)%Z → (total' ≤ MAX_WORKSPACE_BYTES)%Z).
Proof.
  unfold capture_file, steady, manifest_entry, contents. rewrite bind_ok. intros (o & Ho & H).
  destruct (opening (found_entry f)) as [o'|]; [|done]. injection Ho as ->.
  unfold with_descriptor in H. destruct (closes o) eqn:Hcl; [|done].
  apply bind_ok in H as (opened & Hop & H). apply or_raise_ok in Hop.
  rewrite raise_if_bind, orb_false_iff, negb_false_iff, neqb_false in H. destruct H as [[Hreg Hid] H].
  apply bind_ok in H as ([[data c1] t1] & Hr & H). apply read_chunks_ok in Hr as (-> & -> & -> & Hc & Ht).
  apply bind_ok in H as (closed & Hcs & H). apply or_raise_ok in Hcs.
  rewrite raise_if_bind, orb_false_iff, !neqb_false in H. cbn [fst snd] in H. destruct H as [[Hsize Hclosed] [= <- <-]].
  rewrite Z.add_0_l in Hsize. split; [unfold encode_file; cbn [fst snd]; by rewrite Hsize|]. split; [|done].
  exists o, opened, closed. split_and!; try done. apply Hc. done.
Qed.

Lemma capture_files_ok files total preimage : capture_files files total = Ok preimage →
  preimage = encode (map manifest_entry files) ∧ Forall steady files
  ∧ ((total ≤ MAX_WORKSPACE_BYTES)%Z → (total + total_bytes files ≤ MAX_WORKSPACE_BYTES)%Z).
Proof.
  revert total preimage. induction files as [|f files IH]; intros total preimage; cbn [capture_files].
  { intros [= <-]. split_and!; [done|constructor|]. change (total_bytes []) with 0%Z. lia. }
  rewrite bind_ok. intros ([piece total'] & Hc & H). apply bind_ok in H as (rest & H & [= <-]). cbn [fst snd] in *.
  apply capture_file_ok in Hc as (-> & Hs & -> & Ht). destruct (IH _ _ H) as (-> & Hf & Htot).
  split; [done|]. split; [by constructor|]. intros Hle. specialize (Ht Hle). specialize (Htot Ht).
  change (total_bytes (f :: files)) with (byte_length (contents f) + total_bytes files)%Z. lia.
Qed.

Lemma read_chunks_class chunks captured total x : read_chunks chunks captured total = Raise x →
  exn_class x = ValueError ∨ exn_class x = OSError ∧ None ∈ chunks.
Proof.
  revert captured total. induction chunks as [|[chunk|] chunks IH]; intros captured total; cbn [read_chunks]; [done| |].
  - destruct (is_empty chunk); [done|]. cbv zeta. destruct (_ || _); cbn [raise_if mbind result_bind]; [intros [= <-]; by left|].
    destruct (read_chunks chunks _ _) as [r|y] eqn:E; cbn; [done|]. intros [= <-].
    destruct (IH _ _ E) as [?|[? ?]]; [by left|right]. split; [done|by right].
  - intros [= <-]. right. split; [done|by left].
Qed.

Lemma capture_file_class f total x : capture_file f total = Raise x →
  exn_class x = ValueError
  ∨ exn_class x = OSError ∧ ∃ o, opening (found_entry f) = Some o ∧ descriptor_fault o.
Proof.
  unfold capture_file, with_descriptor, descriptor_fault.
  destruct (opening _) as [o|]; cbn [or_raise mbind result_bind]; [|intros [= <-]; by left].
  destruct (closes o) eqn:Hcl; [|intros [= <-]; right; split; [done|]; exists o; auto 6].
  destruct (opened_stat o) as [opened|] eqn:Hop; cbn [or_raise mbind result_bind];
    [|intros [= <-]; right; split; [done|]; exists o; auto 6].
  destruct (_ || _); cbn [raise_if mbind result_bind]; [intros [= <-]; by left|].
  destruct (read_chunks _ _ _) as [r|y] eqn:Er; cbn [mbind result_bind].
  - destruct (closed_stat o) as [closed|] eqn:Hcs; cbn [or_raise mbind result_bind];
      [|intros [= <-]; right; split; [done|]; exists o; auto 6].
    destruct (_ || _); cbn; [intros [= <-]; by left|done].
  - intros [= <-]. destruct (read_chunks_class _ _ _ _ Er) as [?|[? ?]]; [by left|right].
    split; [done|]. exists o. auto 6.
Qed.

Lemma capture_files_class files total x : capture_files files total = Raise x →
  exn_class x = ValueError
  ∨ exn_class x = OSError ∧ ∃ f o, f ∈ files ∧ opening (found_entry f) = Some o ∧ descriptor_fault o.
Proof.
  revert total. induction files as [|f files IH]; intros total; cbn [capture_files]; [done|].
  destruct (capture_file f total) as [c|y] eqn:Ec; cbn [mbind result_bind].
  - destruct (capture_files files c.2) as [r|y] eqn:Er; cbn; [done|]. intros [= <-].
    destruct (IH _ Er) as [?|(? & g & o & ? & ?)]; [by left|right]. split; [done|]. exists g, o. split; [by right|done].
  - intros [= <-]. destruct (capture_file_class _ _ _ Ec) as [?|(? & o & ?)]; [by left|right].
    split; [done|]. exists f, o. split; [by left|done].
Qed.

(** C34: The workspace digest is the digest of exactly the governed files.
    Whatever the file system answers, the walk and the captures end, and a
    failure is a [ValueError], or the [OSError] of a call on the open descriptor
    of a governed file.  When there is a digest, it is the SHA-256 of
    the encoding of a manifest of at most 10000 files and 64 MiB, sorted by
    path, which holds each governed regular file with the bytes that were
    read, all of its size, and nothing else; none of them changed between its
    discovery and its closing; and the encoding is that of no other manifest. *)
Theorem workspace_digest_exact root_stat root :
  match workspace_digest root_stat root with
  | Raise x =>
      exn_class x = ValueError
      ∨ exn_class x = OSError
        ∧ ∃ f o, governs ([], root) f ∧ opening (found_entry f) = Some o ∧ descriptor_fault o
  | Ok d => ∃ files,
      let manifest := map manifest_entry files in
      d = Sha256.hexdigest (encode manifest)
      ∧ (∀ f, f ∈ files ↔ governs ([], root) f)
      ∧ sort_by (λ f, as_posix (found_path f)) files = files
      ∧ (Z.of_nat (length files) ≤ MAX_WORKSPACE_FILES)%Z ∧ (total_bytes files ≤ MAX_WORKSPACE_BYTES)%Z
      ∧ Forall steady files
      ∧ (Forall small manifest → ∀ m, Forall small m → encode m = encode manifest → m = manifest)
  end.
Proof.
  unfold workspace_digest. destruct root_stat as [s|]; cbn [or_raise mbind result_bind]; [|by left].
  destruct (_ || _); cbn [raise_if mbind result_bind]; [by left|].
  destruct (walk _ _ _) as [files|x] eqn:Ew; cbn [mbind result_bind].
  2: { left. eapply walk_class, Ew. change (directory_fuel root + 0 ≤ directory_fuel root). lia. }
  apply walk_spec in Ew as [Hfiles Hlen].
  assert (∀ f, f ∈ sort_by (λ f, as_posix (found_path f)) files ↔ governs ([], root) f) as Hgov.
  { intros f. rewrite sort_by_perm, Hfiles. split.
    - by intros [?%not_elem_of_nil|(d & ->%list_elem_of_singleton & H)].
    - intros H. right. exists ([], root). split; [left|done]. }
  destruct (capture_files _ _) as [preimage|x] eqn:Ec; cbn [mbind result_bind].
  2: { destruct (capture_files_class _ _ _ Ec) as [?|(? & f & o & Hf & Ho)]; [by left|right].
       split; [done|]. exists f, o. by rewrite <-Hgov. }
  apply capture_files_ok in Ec as (-> & Hs & Ht).
  exists (sort_by (λ f, as_posix (found_path f)) files). cbv zeta. split; [done|].
  split; [exact Hgov|]. split; [apply sort_by_idemp|]. split.
  { assert (length (sort_by (λ f, as_posix (found_path f)) files) = length files) as -> by by rewrite sort_by_perm.
    apply Hlen. done. }
  split; [by apply Ht|]. split; [done|]. intros Hsm m Hm He. by apply encode_inj.
Qed.

(** No file below [.rci] is governed, the policy file included: the entry
    [.rci] is itself skipped as runtime state. *)
Theorem policy_file_never_hashed root f : governs ([], root) f → head (found_path f) ≠ Some ".rci".
Proof.
  assert (∀ relative e c, classify (relative ++ [entry_name e]) e = Ok c → c ≠ Skipped →
    (relative = [] ∨ head relative ≠ Some ".rci") → head (relative ++ [entry_name e]) ≠ Some ".rci") as Hstep.
  { intros relative e c Hc Hne Hrel. destruct relative as [|part relative].
    - cbn. intros [= Heq]. unfold classify in Hc. cbn [app] in Hc. rewrite Heq in Hc. by injection Hc as <-.
    - cbn. destruct Hrel as [?|?]; done. }
  assert (∀ d, reached ([], root) d → d.1 = [] ∨ head d.1 ≠ Some ".rci") as Hreached.
  { intros d H. induction H as [|relative entries e Hr IH He Hc]; [by left|]. right. cbn [fst] in *. by eapply Hstep. }
  intros (relative & entries & Hr & He & Hp & Hc). apply Hreached in Hr. rewrite Hp in Hc |- *. by eapply Hstep.
Qed.

(** Two directory orders, one digest: "b.txt" and "a/x", with runtime state,
    the policy file and a cache beside them. *)
Definition stat_of (mode size : Z) : option Stat := Some (MkStat 1 2 mode size 3 false).
Definition plain_file (name data : string) : Entry :=
  let st := stat_of 33188 (byte_length data) in
  MkEntry name st false st None (Some (MkOpened st [Some data; Some ""] st true)).
Definition plain_directory (name : string) (entries : list Entry) : Entry :=
  MkEntry name (stat_of 16877 4096) false (stat_of 16877 4096) (Some entries) None.
Definition example_entries (policy : string) : list Entry :=
  [plain_file "b.txt" "bee"; plain_directory "a" [plain_file "x" ""];
   plain_directory ".rci" [plain_file "config.toml" policy; plain_file "state.sqlite3" "rows"];
   plain_directory "build" [plain_file "junk" "junk"]].
Example example_digest :
  workspace_digest (stat_of 16877 0) (Some (example_entries "one"))
  = Ok (Sha256.hexdigest (encode [("a/x", ""); ("b.txt", "bee")])).
Proof. by vm_compute. Qed.
Example order_irrelevant :
  workspace_digest (stat_of 16877 0) (Some (rev (example_entries "one")))
  = workspace_digest (stat_of 16877 0) (Some (example_entries "two")).
Proof. by vm_compute. Qed.

(** A device that fails while a file is read: the error is no [ValueError]. *)
Example read_error_escapes :
  let st := stat_of 33188 3 in
  workspace_digest (stat_of 16877 0)
    (Some [MkEntry "b.txt" st false st None (Some (MkOpened st [Some "b"; None] st true))]) = raise OSError "read".
Proof. by vm_compute. Qed.

(** ** [_read_bounded_regular_file] *)

(** The file the path names: [lstat] and what opening it answers. *)
Record NamedFile : Type := MkNamedFile { nf_stat : option Stat; nf_opening : option Opened }.

Fixpoint read_bounded (max_bytes : Z) (chunks : list (option string)) (captured : Z) : result (string * Z) :=
  match chunks with
  | [] => Ok ("", captured)
  | None :: _ => raise OSError "read"
  | Some chunk :: chunks =>
    if is_empty chunk then Ok ("", captured)
    else
      let captured := (captured + byte_length chunk)%Z in
      raise_if (max_bytes <? captured)%Z ValueError "checked evidence exceeds the G1 1 MiB capture limit";;
      rest ← read_bounded max_bytes chunks captured;
      Ok (chunk +:+ rest.1, rest.2)
  end.

Definition read_bounded_regular_file (f : NamedFile) (max_bytes : Z) : result string :=
  expected ← or_raise (nf_stat f) ValueError "evidence file is unavailable";
  raise_if (is_link expected || st_reparse expected || negb (is_regular expected))
    ValueError "evidence file must be regular and cannot be a link or reparse point";;
  raise_if (max_bytes <? st_size expected)%Z ValueError "checked evidence exceeds the G1 1 MiB capture limit";;
  o ← or_raise (nf_opening f) ValueError "evidence file could not be opened safely";
  with_descriptor o (
    opened ← or_raise (opened_stat o) OSError "fstat";
    raise_if (negb (is_regular opened) || (identity opened !=? identity expected))
      ValueError "evidence file changed before capture";;
    r ← read_bounded max_bytes (reads o) 0;
    closed ← or_raise (closed_stat o) OSError "fstat";
    raise_if ((r.2 !=? st_size expected) || (identity closed !=? identity expected))
      ValueError "evidence file changed during capture";;
    Ok r.1).

(** ** Backlog reconciliation *)

(** [_backlog_policy], on the parsed configuration: [data.get("backlog", {})] *)
Definition kind_of (v : json) : result BacklogEffectKind :=
  match v with
  | JString s => or_raise (first (λ k, BacklogEffectKind_value k ==? s) [CREATE; DEDUPE; RANK; BLOCK; CLOSE])
                   ValueError "not a valid BacklogEffectKind"
  | _ => raise ValueError "not a valid BacklogEffectKind"
  end.

Definition kinds_of (key : string) (backlog : list (string * json)) : result (list BacklogEffectKind) :=
  value ← or_raise (json_lookup key backlog) KeyError key;
  match value with
  | JList l => mapM kind_of l
  | JObject o => mapM kind_of (map (λ kv, JString kv.1) o)
  | JString s => if is_empty s then Ok [] else raise ValueError "not a valid BacklogEffectKind"
  | _ => raise TypeError "object is not iterable"
  end.

(** A usage error, [typer.BadParameter], ends the command; its class is not
    that of another exception. *)
Inductive usage (A : Type) : Type := Returned (r : result A) | BadParameter (message : string).
Arguments Returned {A} r.
Arguments BadParameter {A} message.

Definition backlog_policy (data : list (string * json)) : usage BacklogPolicy :=
  match default (JObject []) (json_lookup "backlog" data) with
  | JObject backlog =>
    if negb (json_eqb (default JNull (json_lookup "mode" backlog)) (JString "shadow"))
       || negb (match json_lookup "automated_apply" backlog with Some (JBool false) => true | _ => false end)
    then BadParameter "G1 requires shadow mode with automated_apply=false"
    else Returned (
      allowed ← kinds_of "allowed_effects" backlog;
      proposal_only ← kinds_of "proposal_only_effects" backlog;
      let p := MkBacklogPolicy allowed proposal_only in
      validate_policy p;; Ok p)
  | _ => Returned (raise AttributeError "get")
  end.

(** [_load_backlog_items]: the recorded effects, applied one by one. *)
Definition load_items (effects : list BacklogEffect) : result (list BacklogItem) :=
  foldl (λ items e, items ← items; apply_effects items [e] default_policy) (Ok []) effects.

(** The options of [reconcile_backlog] that describe a finding. *)
Record FindingOptions : Type := MkFindingOptions {
  fo_title : option string;
  fo_consequence : string;
  fo_source : string;
  fo_status : EvidenceStatus;
  fo_priority : Z;
}.

Definition finding_identity (title consequence source : string) : string :=
  prefix 16 (Sha256.hexdigest (title +:+ NUL +:+ consequence +:+ NUL +:+ source)).

(** The finding, from the digest of its evidence and of the workspace. *)
Definition option_finding (o : FindingOptions) (evidence : usage (option string)) (workspace : result string) :
    usage (list BacklogFinding) :=
  match fo_title o with
  | None => Returned (Ok [])
  | Some title =>
    match evidence with
    | BadParameter m => BadParameter m
    | Returned (Raise e) => Returned (Raise e)
    | Returned (Ok digest) =>
      if mem (fo_status o) CHECKED_EVIDENCE_STATUSES && is_none digest
      then BadParameter "checked status requires --evidence-file"
      else Returned (
        workspace_digest ← workspace;
        let f := MkBacklogFinding ("finding-" +:+ finding_identity title (fo_consequence o) (fo_source o)) title
                   (fo_consequence o) (fo_source o) (fo_status o) digest workspace_digest (fo_priority o) None in
        validate_finding f;; Ok [f])
    end
  end.

(** [os.path.abspath] of a path below an absolute directory, as its parts. *)
Fixpoint normalize (above : list string) (parts : list string) : list string :=
  match parts with
  | [] => above
  | part :: parts =>
    if mem part [""; "."] then normalize above parts
    else if part ==? ".." then normalize (removelast above) parts
    else normalize (above ++ [part]) parts
  end.
Definition evidence_path (workspace : list string) (evidence_file : string) : list string :=
  normalize (if String.prefix "/" evidence_file then [] else workspace) (split_on "/"%char evidence_file).
(** [os.path.commonpath((workspace, evidence_path)) != str(workspace)] *)
Definition outside (workspace path : list string) : bool := take (length workspace) path !=? workspace.

Definition evidence_digest (files : list string → NamedFile) (workspace : list string) (evidence_file : option string) :
    usage (option string) :=
  match evidence_file with
  | None => Returned (Ok None)
  | Some file =>
    let path := evidence_path workspace file in
    if negb (String.prefix "/" file) && outside workspace path
    then BadParameter "relative evidence must remain inside the workspace"
    else match read_bounded_regular_file (files path) 1048576 with
         | Ok data => Returned (Ok (Some (Sha256.hexdigest data)))
         | Raise e => if is_value_error (exn_class e) then BadParameter (exn_message e) else Returned (Raise e)
         end
  end.

Record ReconcileReport : Type := MkReconcileReport {
  rr_applied_mode : bool;
  rr_apply_requested : bool;
  rr_effects : list BacklogEffect;
  rr_applied_effect_ids : list string;
  rr_proposal_only_effect_ids : list string;
}.

(** What a command does: it returns, raises, or ends with a usage error, and
    leaves the runtime. *)
Definition cli (A : Type) : Type := Runtime → usage A * Runtime.
#[export] Instance cli_ret : MRet cli := λ A a rt, (Returned (Ok a), rt).
#[export] Instance cli_bind : MBind cli := λ A B f m rt,
  match m rt with
  | (Returned (Ok a), rt') => f a rt'
  | (Returned (Raise e), rt') => (Returned (Raise e), rt')
  | (BadParameter text, rt') => (BadParameter text, rt')
  end.
Definition checking {A} (u : usage A) : cli A := λ rt, (u, rt).
Definition calling {A} (m : sdk A) : cli A := λ rt, let '(r, rt') := m rt in (Returned r, rt').

Section reconciliation.
Context (py : Pydantic) (clock : nat → Z).

Definition known_version (inquiry_id : string) : sdk Z := λ rt, (Ok (stream_version (rt_database rt) inquiry_id), rt).

(** [_load_backlog_items]: the items, and the ids of the recorded effects. *)
Definition load_backlog_items (inquiry_id : string) : sdk (list BacklogItem * list string) :=
  version ← known_version inquiry_id;
  if (version =? 0)%Z then mret ([], [])
  else
    s ← inspect py inquiry_id;
    items ← lift (load_items (backlog_effects s));
    mret (items, map be_id (backlog_effects s)).

(** [if apply and novel_applicable] *)
Definition apply_novel (policy : BacklogPolicy) (inquiry_id : string) (items : list BacklogItem)
    (novel : list BacklogEffect) : sdk unit :=
  version ← known_version inquiry_id;
  (if (version =? 0)%Z then start py clock inquiry_id None;; mret tt else mret tt);;
  lift (apply_effects items novel policy);;
  append_local_effects py clock inquiry_id novel;;
  mret tt.

(** [reconcile_backlog], on the parsed configuration; [known] says that the
    database exists. *)
Definition reconcile_backlog (known : bool) (configuration : list (string * json)) (o : FindingOptions)
    (evidence : usage (option string)) (workspace : result string) (apply : bool) (inquiry_id : string) :
    cli ReconcileReport :=
  policy ← checking (backlog_policy configuration);
  loaded ← (if known then calling (load_backlog_items inquiry_id) else mret ([], []));
  findings ← checking (option_finding o evidence workspace);
  effects ← checking (Returned (reconcile loaded.1 findings));
  let applicable := List.filter (λ e, mem (be_kind e) (allowed_apply_effects policy)) effects in
  let novel := List.filter (λ e, negb (mem (be_id e) loaded.2)) applicable in
  let applied := apply && negb (is_nil novel) in
  (if applied then calling (apply_novel policy inquiry_id loaded.1 novel) else mret tt);;
  mret (MkReconcileReport applied apply effects (if apply then map be_id novel else [])
          (map be_id (List.filter (λ e, mem (be_kind e) (proposal_only_effects policy)) effects))).

(** ** Shadow reconciliation changes nothing *)

Lemma cli_ok {A B} (m : cli A) (f : A → cli B) rt u rt' :
  (m ≫= f) rt = (u, rt') →
  (∃ a rt1, m rt = (Returned (Ok a), rt1) ∧ f a rt1 = (u, rt'))
  ∨ ((∃ e, m rt = (Returned (Raise e), rt') ∧ u = Returned (Raise e))
     ∨ ∃ text, m rt = (BadParameter text, rt') ∧ u = BadParameter text).
Proof. unfold mbind, cli_bind. destruct (m rt) as [[[a|e]|text] rt1]; naive_solver. Qed.

Lemma checking_ok {A} (u : usage A) rt v rt' : checking u rt = (v, rt') → v = u ∧ rt' = rt.
Proof. by intros [= -> ->]. Qed.

Lemma load_backlog_items_reads inquiry_id rt r rt' : load_backlog_items inquiry_id rt = (r, rt') → rt' = rt.
Proof.
  unfold load_backlog_items, known_version, mbind, sdk_bind. destruct (_ =? _)%Z; [by intros [= _ <-]|].
  unfold inspect. destruct (rebuild_state _ _ _ _ _) as [s|x]; [|by intros [= _ <-]].
  unfold lift. destruct (load_items _) as [items|x]; by intros [= _ <-].
Qed.

Lemma loading_reads (known : bool) inquiry_id rt u rt' :
  (if known then calling (load_backlog_items inquiry_id) else mret ([], [])) rt = (u, rt') → rt' = rt.
Proof.
  destruct known; [|by intros [= _ <-]]. unfold calling. destruct (load_backlog_items _ _) as [r rt1] eqn:E.
  apply load_backlog_items_reads in E. by intros [= _ <-].
Qed.

Lemma policy_valid configuration p : backlog_policy configuration = Returned (Ok p) → validate_policy p = Ok tt.
Proof.
  unfold backlog_policy. destruct (default _ _); try done. destruct (_ || _); [done|]. intros [= H].
  apply bind_ok in H as (allowed & _ & H). apply bind_ok in H as (proposal & _ & H).
  by apply seq_ok in H as [H [= <-]].
Qed.

(** The ids of the effects the stream holds already. *)
Definition recorded_ids (known : bool) (inquiry_id : string) (rt : Runtime) : list string :=
  if known then match (load_backlog_items inquiry_id rt).1 with Ok loaded => loaded.2 | Raise _ => [] end else [].

Lemma loading_recorded (known : bool) inquiry_id rt loaded rt' :
  (if known then calling (load_backlog_items inquiry_id) else mret ([], [])) rt = (Returned (Ok loaded), rt') →
  recorded_ids known inquiry_id rt = loaded.2.
Proof.
  unfold recorded_ids. destruct known; [|by intros [= <- _]]. unfold calling.
  destruct (load_backlog_items _ _) as [r rt1]. by intros [= -> _].
Qed.

(** Reconciliation is shadow by default and never closes.  Without --apply,
    or when nothing applicable is new, the command leaves the database, the
    artifacts and the clock alone, whatever it returns.  A report applies only
    effects of kinds the policy allows, none of which closes an item or was
    recorded before; and every close is proposal-only. *)
Theorem reconcile_is_shadow known configuration o evidence workspace apply inquiry_id rt u rt' :
  reconcile_backlog known configuration o evidence workspace apply inquiry_id rt = (u, rt') →
  (apply = false → rt' = rt)
  ∧ ∀ report, u = Returned (Ok report) →
      (rr_applied_mode report = false → rt' = rt)
      ∧ (rr_applied_mode report = true ↔ rr_applied_effect_ids report ≠ [])
      ∧ (apply = false → rr_applied_effect_ids report = [])
      ∧ ∃ policy,
          (∀ id, id ∈ rr_applied_effect_ids report →
             id ∉ recorded_ids known inquiry_id rt ∧ ∃ e, e ∈ rr_effects report ∧ be_id e = id ∧ be_kind e ≠ CLOSE
                                ∧ be_kind e ∈ allowed_apply_effects policy)
          ∧ backlog_policy configuration = Returned (Ok policy)
          ∧ ∀ e, e ∈ rr_effects report → be_kind e = CLOSE → be_id e ∈ rr_proposal_only_effect_ids report.
Proof.
  unfold reconcile_backlog. intros H.
  apply cli_ok in H as [(policy & rt1 & Hp & H)|[(e & Hp & ->)|(text & Hp & ->)]]; [|by apply checking_ok in Hp as [_ ->]..].
  apply checking_ok in Hp as [Hp ->]. symmetry in Hp.
  apply cli_ok in H as [([items loaded] & rt2 & Hl & H)|[(e & Hl & ->)|(text & Hl & ->)]]; [|by apply loading_reads in Hl as ->..].
  pose proof (loading_recorded _ _ _ _ _ Hl) as Hrec. apply loading_reads in Hl as ->.
  apply cli_ok in H as [(findings & rt3 & Hf & H)|[(e & Hf & ->)|(text & Hf & ->)]]; [|by apply checking_ok in Hf as [_ ->]..].
  apply checking_ok in Hf as [_ ->].
  apply cli_ok in H as [(effects & rt4 & He & H)|[(e & He & ->)|(text & He & ->)]]; [|by apply checking_ok in He as [_ ->]..].
  apply checking_ok in He as [_ ->]. cbv zeta in H.
  set (novel := List.filter _ (List.filter _ effects)) in H.
  assert (apply && negb (is_nil novel) = false → rt' = rt) as Hquiet.
  { intros E. rewrite E in H. by injection H as _ <-. }
  split; [intros ->; by apply Hquiet|]. intros report ->.
  apply cli_ok in H as [([] & rt5 & _ & [= <- _])|[(e & _ & ?)|(text & _ & ?)]]; [|done..].
  cbn [rr_applied_mode rr_applied_effect_ids rr_effects rr_proposal_only_effect_ids].
  split; [done|]. split; [destruct apply, novel; cbn; split; done|]. split; [by intros ->|].
  exists policy. pose proof (policy_valid _ _ Hp) as Hv. unfold validate_policy in Hv.
  rewrite !raise_if_bind, raise_if_ok in Hv. destruct Hv as (_ & Hsub & Hclose).
  rewrite negb_false_iff, mem_true in Hclose. split_and!; [|done|].
  - intros id Hid. destruct apply; [|by apply not_elem_of_nil in Hid].
    apply list_elem_of_fmap in Hid as (e & -> & Hin). apply list_elem_of_In, filter_In in Hin as [Hin Hnew].
    apply filter_In in Hin as [Hin Hall]. rewrite negb_true_iff, mem_false in Hnew. rewrite mem_true in Hall.
    split; [by rewrite Hrec|]. exists e. split_and!; [by apply list_elem_of_In|done| |done]. intros Hk. rewrite Hk in Hall.
    rewrite negb_false_iff, subset_true in Hsub. apply Hsub in Hall. by rewrite <-mem_true in Hall.
  - intros e He Hk. apply list_elem_of_fmap. exists e. split; [done|]. apply list_elem_of_In, filter_In.
    split; [by apply list_elem_of_In|]. by rewrite Hk, mem_true.
Qed.
End reconciliation.

(** A shadow run on an empty database: one checked finding, two proposals. *)
Definition silent_codec : Pydantic := {|
  py_loads := λ _, raise ValueError ""; py_dump_event := λ _, JNull; py_parse_event := λ _, raise ValueError "";
  py_event_value := λ _, PyOther; py_dump_state := λ _, JNull; py_parse_state := λ _, raise ValueError "";
  py_state_value := λ _, PyOther; py_state_eq := λ _ _, false; py_parse_manifest := λ _, raise ValueError "";
|}.
Definition shadow_configuration : list (string * json) :=
  [("backlog", JObject [("mode", JString "shadow"); ("automated_apply", JBool false);
                        ("allowed_effects", JList [JString "create"; JString "rank"]);
                        ("proposal_only_effects", JList [JString "close"])])].
Definition shadow_file : NamedFile :=
  let st := stat_of 33188 4 in MkNamedFile st (Some (MkOpened st [Some "fa"; Some "il"; Some ""] st true)).
Definition shadow_run (apply : bool) : usage ReconcileReport * Runtime :=
  reconcile_backlog silent_codec (λ _, 0%Z) false shadow_configuration
    (MkFindingOptions (Some "a title") "soundness" "manual" CHECKED_OPEN 3)
    (evidence_digest (λ _, shadow_file) ["home"; "repo"] (Some "logs/../fail.txt"))
    (workspace_digest (stat_of 16877 0) (Some (example_entries "one"))) apply "backlog"
    (MkRuntime ∅ empty_database 0).

Lemma reconcile_is_shadow_witness :
  ∃ report, shadow_run false = (Returned (Ok report), MkRuntime ∅ empty_database 0)
    ∧ map be_kind (rr_effects report) = [CREATE; RANK] ∧ rr_applied_effect_ids report = [].
Proof.
  assert (match (shadow_run false).1 with Returned (Ok report) => map be_kind (rr_effects report) = [CREATE; RANK]
          | _ => False end) as Hrun by (vm_compute; reflexivity).
  destruct (shadow_run false) as [[[report|e]|text] rt'] eqn:E; [|contradiction Hrun..].
  unfold shadow_run in E. destruct (reconcile_is_shadow _ _ _ _ _ _ _ _ _ _ _ _ E) as (Hrt & H). cbn [fst] in Hrun.
  destruct (H report eq_refl) as (_ & _ & Hids & _). exists report. rewrite (Hrt eq_refl). split; [reflexivity|].
  split; [exact Hrun|]. apply Hids. reflexivity.
Defined.

(** A relative path that leaves the workspace is a usage error. *)
Example escaping_evidence :
  evidence_digest (λ _, shadow_file) ["home"; "repo"] (Some "../other/fail.txt")
  = BadParameter "relative evidence must remain inside the workspace".
Proof. by vm_compute. Qed.
