(* ===== verification/Scenario.v ===== *)
(** * A concrete inquiry

    One run of the whole program, used by the witnesses: an inquiry is started,
    a necessity claim admitted and its mandatory attack obligation planned,
    predicted, executed, decoded, accepted and satisfied; a contrary claim raises
    a conflict; checked evidence is warranted and promoted to a lemma; guards and
    standings change; a recurrent probe is observed; a reconstruction commits a
    semantic delta.  Everything below is computed from the model. *)

From S2P Require Import Prelude Digest Model Claims Warrant Support Policy Planning Backlog Effects Probes State Decide Evolve.

Module Scenario.
Definition art (d : string) : ArtifactRef := MkArtifactRef d 1 None None.
Definition scope : Scope := MkScope "scope" "rev" ["a"] None None false.
Definition fp : string := Eval vm_compute in scope_fingerprint scope.

Definition context : InquiryContext :=
  MkInquiryContext "rev" ["schema"] ["relation"] "profile" "horizon" [] ["checker"] "scope" fp ["a"]
    None None None false "catalog" "sched" "policy" ["prov"].

Definition claim (id : string) (role : ClaimRole) (prop : option string) (pol : Polarity) : Claim :=
  MkClaim id role [] (PayloadJson (JString "answer")) scope (MkProvenance "human" "me" None)
    PROVISIONAL UNASSESSED L1_STRUCTURED [] prop pol.

Definition c1 := claim "c1" NECESSITY (Some "p") POSITIVE.
Definition c2 := claim "c2" NECESSITY (Some "p") NEGATIVE.

Definition attack : Obligation := Eval vm_compute in
  match mandatory_attack_obligation c1 with
  | Ok (Some o) => o
  | _ => MkObligation "" CHARACTERIZE "" [] scope "" [] [] OPEN
  end.

Definition key : AttemptKey := Eval vm_compute in MkAttemptKey (obligation_fingerprint attack) "contract" "1" "rev".

Definition plan : StepPlan := Eval vm_compute in
  match build_step_plan "input" "sched" READY (Some (obl_id attack)) (Some key)
          DETERMINISTIC_PRIORITY 5 with
  | Ok p => p
  | Raise _ => MkStepPlan "" "" "" PLAN_UNKNOWN None None NO_OPEN_OBLIGATION 0
  end.

Definition request : EffectRequest := MkEffectRequest "req" (plan_id plan) "kind" "adapter" (art "in") 60.
Definition route : RouteSnapshot :=
  MkRouteSnapshot "route" "def" "1" (art "def") "backend" "adapter" "1" None None (art "env") "digest" [].
Definition attempt : EffectAttemptPlan := MkEffectAttemptPlan "att" "req" route.
Definition returned : ExternalReturn :=
  MkExternalReturn "ret" "att" "route" None None "boundary" "utf8" 7
    (MkCapturedPayload BytesPayload (Some (art "raw"))).
Definition outcome : AttemptOutcome := ReturnedOutcome "att" "route" returned.
Definition decoded : DecodeOutcome :=
  Decoded (MkDecodeBase "dec" "ret" "decoder" "1") (SuccessResult (MkResultBase "res" (art "sem")) "op").

Definition evidence (pid : string) : Evidence :=
  MkEvidence ("ev-" +:+ pid) INDEPENDENT_WITNESS pid EXISTENTIAL fp (art pid) false None.
Definition verdict (pid : string) : CheckerVerdictRecord :=
  MkCheckerVerdictRecord ("cv-" +:+ pid) ("ev-" +:+ pid) (art pid) pid EXISTENTIAL fp "checker" "1" VALID
    (art "v") (Some (art ("cert-" +:+ pid))).
Definition ref (pid : string) : CheckReference := MkCheckReference ("ev-" +:+ pid) ("cv-" +:+ pid).

Definition support_route : SupportRoute :=
  MkSupportRoute "r1" "L1" (MkSupportEnvironment "env" fp "rev" ["a"] None (ref "env")) [] []
    (ref "p") ["wd-p"] [] [].
Definition promotion : Promotion :=
  MkPromotion "promo" "L1" "p" EXISTENTIAL scope (MkApplicability "always" []) [support_route] "wd-p"
    [] ["c1"] [].
Definition nogood : Nogood :=
  MkNogood "ng" fp "rev" None "policy" ["b"] (ref "ng") "wd-ng" "incompatible".

Definition probe : ProbeIdentity := MkProbeIdentity "question" "role" "schema" "rev" fp "cmp" "guard" "horizon".
Definition observation (id : string) (sequence : Z) : ProbeEvent :=
  MkProbeEvent id probe [] "rev" 3 "field" None ["ret"] [] sequence None false NOT_APPLICABLE.

Definition evaluate_warrant (pid : string) : CommandBody :=
  EvaluateWarrant (MkWarrantEvaluation ("wd-" +:+ pid) ("ev-" +:+ pid) ("cv-" +:+ pid) pid EXISTENTIAL scope).

(** The commands, in order; the two events that pin their own sequence number
    are built from it. *)
Definition before_return : list CommandBody :=
  [StartInquiry (art "manifest") "1" context;
   AdmitClaim c1;
   RecordStepPlan plan;
   RequestEffect request;
   PlanEffectAttempt attempt;
   RecordCognitivePlan (MkCognitiveAttemptPlan "cp" (obl_id attack) "probe" "req" (Some "att") 3 fp 6);
   SealPrediction (MkPredictionSeal "ps" "cp" "probe" "class" (JObject [("x", JInt 1)]) JNull fp ["c1"] 7);
   StartEffectAttempt "att"].

Definition after_return : list CommandBody :=
  [RecordAttemptOutcome "req" outcome;
   RecordDecodeOutcome "req" decoded;
   AcceptEffectResult "req" "dec";
   RecordObligationDisposition
     (MkObligationDisposition "d1" (obl_id attack) SATISFIED "done" ["dec"] None);
   AdmitClaim c2;
   RecordMismatch (MkMismatch "mm" "ps" "ret" "dec" "c2" fp true "surprise")].

Definition warranting : list CommandBody :=
  flat_map (λ pid, [RecordEvidence (evidence pid); RecordCheckerVerdict (verdict pid);
                    evaluate_warrant pid]) ["p"; "env"; "ng"]
  ++ [PromoteClaim promotion;
      RecordNogood nogood;
      ChangeGuardStanding (MkGuardChange "g1" "cond" fp GUARD_STANDING "why" None);
      ChangeSupportRouteStanding (MkSupportRouteStandingChange "rs1" "r1" WITHDRAWN "why" None);
      ChangeSupportRouteStanding (MkSupportRouteStandingChange "rs2" "r1" STANDING "why" (Some "rs1"));
      ChangeNogoodStanding (MkNogoodStandingChange "ns1" "ng" WITHDRAWN "why" None)].

Definition remembering : list CommandBody :=
  [AdmitProbe probe;
   RecordProbeObservation (observation "o1" 1);
   RecordProbeObservation (observation "o2" 2);
   RecordReconstruction (MkReconstruction "rc" 3 "ret" ["dec"] [] ["c1"] [] [] [] [] 33);
   CommitSemanticDelta (MkSemanticDelta "sd" "rc" [MkWarrantedChange "ch" "p" fp ADD "L1"] [] [] 34)].

(** Every command gets its own event identity. *)
Definition commands (n : nat) (l : list CommandBody) : list DomainCommand :=
  imap (λ i b, MkCommand (MkMeta ("e" +:+ pretty (n + i)) "inq" (Z.of_nat (n + i))) b) l.

Definition run (n : nat) (l : list CommandBody) (s : InquiryState) : list DomainEvent * InquiryState :=
  match apply_batch (commands n l) s with Ok r => r | Raise _ => ([], initial_state) end.

(** The states and logs of the four parts, in normal form. *)
Definition run1 := Eval vm_compute in run 0 before_return initial_state.
Definition log1 := Eval cbv in run1.1.
Definition state1 := Eval cbv in run1.2.
Definition run2 := Eval vm_compute in run 8 after_return state1.
Definition log2 := Eval cbv in run2.1.
Definition state2 := Eval cbv in run2.2.
Definition run3 := Eval vm_compute in run 14 warranting state2.
Definition log3 := Eval cbv in run3.1.
Definition state3 := Eval cbv in run3.2.
Definition run4 := Eval vm_compute in run 29 remembering state3.
Definition log4 := Eval cbv in run4.1.
Definition state4 := Eval cbv in run4.2.
End Scenario.

(** Each part of the log is accepted where the previous one stopped. *)
Lemma scenario_replay1 : replay Scenario.log1 initial_state = Ok Scenario.state1.
Proof. vm_compute. reflexivity. Qed.
Lemma scenario_replay2 : replay Scenario.log2 Scenario.state1 = Ok Scenario.state2.
Proof. vm_compute. reflexivity. Qed.
Lemma scenario_replay3 : replay Scenario.log3 Scenario.state2 = Ok Scenario.state3.
Proof. vm_compute. reflexivity. Qed.
Lemma scenario_replay4 : replay Scenario.log4 Scenario.state3 = Ok Scenario.state4.
Proof. vm_compute. reflexivity. Qed.
