(* ===== verification/Ledger.v ===== *)
(** * What an accepted event writes

    The shape of every transition of [evolve]: an accepted event was lawful, the
    successor state is the old one with the event's records appended, its
    sequence is one higher, and it satisfies [validate_lifecycle].  [recorded] is
    the successor as a function of the event alone; the files on reachable
    states argue about it instead of about the branches one by one. *)

From S2P Require Import Prelude Digest Memory Model Claims Warrant Support Policy Planning Backlog Effects Probes State Goals Extensions Lifecycle Guards Retention Consolidation Licensing Governance Decide Evolve.

(** ** Appending to the ledgers *)

Definition append_effects (s : InquiryState) (bs : list BacklogEffect) (ps : list StepPlan)
    (rs : list EffectRequestState) : InquiryState :=
  with_effects s (MkEffectLedger (backlog_effects s ++ bs) (step_plans s ++ ps) (effect_requests s ++ rs)).

Definition append_claims (s : InquiryState) (l : ClaimLedger) : InquiryState :=
  with_claims s (MkClaimLedger (claims s ++ l_claims l) (conflicts s ++ l_conflicts l)
    (obligations s ++ l_obligations l) (obligation_dispositions s ++ l_obligation_dispositions l)
    (candidates s ++ l_candidates l) (residuals s ++ l_residuals l)
    (corrections s ++ l_corrections l) (guard_changes s ++ l_guard_changes l)).

Definition append_warrant (s : InquiryState) (l : WarrantLedger) : InquiryState :=
  with_warrant s (MkWarrantLedger (nogoods s ++ l_nogoods l)
    (support_route_standing_changes s ++ l_route_changes l)
    (nogood_standing_changes s ++ l_nogood_changes l)
    (evidence_records s ++ l_evidence_records l) (checker_verdicts s ++ l_checker_verdicts l)
    (warrant_decisions s ++ l_warrant_decisions l) (lemma_versions s ++ l_lemma_versions l)
    (lemma_supports s ++ l_lemma_supports l) (promotion_links s ++ l_promotion_links l)).

Definition append_cognition (s : InquiryState) (l : CognitionLedger) : InquiryState :=
  with_cognition s (MkCognitionLedger (admitted_probes s ++ l_admitted_probes l)
    (cognitive_plans s ++ l_cognitive_plans l) (predictions s ++ l_predictions l)
    (probe_observations s ++ l_probe_observations l) (reconstructions s ++ l_reconstructions l)
    (mismatches s ++ l_mismatches l) (semantic_deltas s ++ l_semantic_deltas l)).

Definition append_extensions (s : InquiryState) (l : ExtensionLedger) : InquiryState :=
  with_extensions s (extension_plus (st_extensions s) l).

(** The records an event adds to each ledger. *)
Definition claim_records (b : EventBody) : ClaimLedger :=
  match b with
  | ClaimAdmitted c cs os => MkClaimLedger [c] cs os [] [] [] [] []
  | ObligationOpened o => MkClaimLedger [] [] [o] [] [] [] [] []
  | ObligationDispositionRecorded d => MkClaimLedger [] [] [] [d] [] [] [] []
  | CandidateRecorded c => MkClaimLedger [] [] [] [] [c] [] [] []
  | ResidualRecorded r => MkClaimLedger [] [] [] [] [] [r] [] []
  | CorrectionAppended c => MkClaimLedger [] [] [] [] [] [] [c] []
  | GuardStandingChanged g => MkClaimLedger [] [] [] [] [] [] [] [g]
  | Extended x => MkClaimLedger [] [] [] [] [] (extension_residuals x) [] []
  | _ => empty_claims
  end.

Definition warrant_records (b : EventBody) : WarrantLedger :=
  match b with
  | NogoodRecorded n => MkWarrantLedger [n] [] [] [] [] [] [] [] []
  | SupportRouteStandingChanged c => MkWarrantLedger [] [c] [] [] [] [] [] [] []
  | NogoodStandingChanged c => MkWarrantLedger [] [] [c] [] [] [] [] [] []
  | EvidenceRecorded e => MkWarrantLedger [] [] [] [e] [] [] [] [] []
  | CheckerVerdictRecorded v => MkWarrantLedger [] [] [] [] [v] [] [] [] []
  | WarrantDecisionRecorded _ d => MkWarrantLedger [] [] [] [] [] [d] [] [] []
  | LemmaPromoted v sup l => MkWarrantLedger [] [] [] [] [] [] [v] [sup] [l]
  | _ => empty_warrant
  end.

Definition cognition_records (s : InquiryState) (b : EventBody) : CognitionLedger :=
  match b with
  | ProbeAdmitted p => MkCognitionLedger [p] [] [] [] [] [] []
  | CognitivePlanRecorded p => MkCognitionLedger [] [p] [] [] [] [] []
  | PredictionSealed p => MkCognitionLedger [] [] [p] [] [] [] []
  | ProbeObservationRecorded o => MkCognitionLedger [] [] [] [o] [] [] []
  | ReconstructionRecorded r => MkCognitionLedger [] [] [] [] [r] [] []
  | MismatchRecorded m => MkCognitionLedger [] [] [] [] [] [m] []
  | SemanticDeltaCommitted d => MkCognitionLedger [] [] [] [] [] [] [d]
  | Extended x => MkCognitionLedger (extension_probes s x) [] [] [] [] [] []
  | _ => empty_cognition
  end.

Definition extension_facts (b : EventBody) : ExtensionLedger :=
  match b with Extended x => extension_records x | _ => empty_extensions end.

(** The effect ledger after an event: only requests are ever rewritten. *)
Definition effect_records (s : InquiryState) (e : DomainEvent) : EffectLedger :=
  let rewritten (o : option EffectRequestState) :=
    MkEffectLedger (backlog_effects s) (step_plans s)
      match o with Some r => replace_request s r | None => effect_requests s end in
  match evt_body e with
  | BacklogEffectRecorded x => MkEffectLedger (backlog_effects s ++ [x]) (step_plans s) (effect_requests s)
  | StepPlanRecorded p => MkEffectLedger (backlog_effects s) (step_plans s ++ [p]) (effect_requests s)
  | EffectRequested r => MkEffectLedger (backlog_effects s) (step_plans s) (effect_requests s ++ [new_request r])
  | EffectAttemptPlanned p =>
    rewritten (r ← request_by_id s (ap_request_id p);
               Some (with_attempts r (ers_attempts r ++ [planned_attempt p])))
  | EffectAttemptStarted id =>
    rewritten (ra ← containing_request s id;
               Some (with_attempts ra.1 (update_attempt id
                 (λ a, started_attempt a (meta_event_id (evt_meta e)) (meta_occurred_at (evt_meta e)))
                 (ers_attempts ra.1))))
  | EffectNoAttemptDispositionRecorded d =>
    rewritten (r ← request_by_id s (na_request_id d); Some (add_no_attempt r d))
  | EffectAttemptOutcomeRecorded q o =>
    rewritten (r ← request_by_id s q;
               Some (with_attempts r (update_attempt (outcome_attempt_id o) (λ a, ended_attempt a o)
                 (ers_attempts r))))
  | EffectDecodeOutcomeRecorded q d => rewritten (r ← request_by_id s q; Some (add_decode r d))
  | EffectResultAccepted q id => rewritten (r ← request_by_id s q; Some (accept_decode r id))
  | _ => st_effects s
  end.

Definition started_state (m : Meta) (manifest : ArtifactRef) (policy : string)
    (context : InquiryContext) : InquiryState :=
  MkInquiryState STATUS_ACTIVE (Some (meta_inquiry_id m)) 1 (Some manifest) (Some policy) (Some context)
    empty_effects empty_claims empty_warrant empty_cognition empty_extensions.

(** The successor an accepted event leads to. *)
Definition recorded (s : InquiryState) (e : DomainEvent) : InquiryState :=
  match evt_body e with
  | InquiryStarted m p c => started_state (evt_meta e) m p c
  | _ => next_sequence
           (append_extensions
             (append_cognition
               (append_warrant
                 (append_claims (with_effects s (effect_records s e)) (claim_records (evt_body e)))
                 (warrant_records (evt_body e)))
               (cognition_records s (evt_body e)))
             (extension_facts (evt_body e)))
  end.

(** The command an event answers, for the events [evolve] checks by deciding again. *)
Definition command_of (e : DomainEvent) : option CommandBody :=
  match evt_body e with
  | BacklogEffectRecorded x => Some (RecordBacklogEffect x)
  | StepPlanRecorded p => Some (RecordStepPlan p)
  | ClaimAdmitted c _ _ => Some (AdmitClaim c)
  | ObligationOpened o => Some (OpenObligation o)
  | ObligationDispositionRecorded d => Some (RecordObligationDisposition d)
  | CandidateRecorded c => Some (RecordCandidate c)
  | ResidualRecorded r => Some (RecordResidual r)
  | CorrectionAppended c => Some (AppendCorrection c)
  | GuardStandingChanged g => Some (ChangeGuardStanding g)
  | NogoodRecorded n => Some (RecordNogood n)
  | SupportRouteStandingChanged c => Some (ChangeSupportRouteStanding c)
  | NogoodStandingChanged c => Some (ChangeNogoodStanding c)
  | EvidenceRecorded x => Some (RecordEvidence x)
  | CheckerVerdictRecorded v => Some (RecordCheckerVerdict v)
  | WarrantDecisionRecorded sc d =>
    Some (EvaluateWarrant (MkWarrantEvaluation (wd_id d) (wd_evidence_id d)
      (wd_checker_verdict_id d) (wd_proposition_id d) (wd_proposition_kind d) sc))
  | LemmaPromoted v sup link =>
    Some (PromoteClaim (MkPromotion (pl_id link) (lv_id v) (lv_relation_id v)
      (lv_proposition_kind v) (lv_scope v) (lv_applicability v) (all_support_routes sup)
      (pl_warrant_decision_id link) (ls_provenance_refs sup) (lv_source_claim_ids v)
      (lv_predecessor_refs v)))
  | ProbeAdmitted p => Some (AdmitProbe p)
  | CognitivePlanRecorded p => Some (RecordCognitivePlan p)
  | PredictionSealed p => Some (SealPrediction p)
  | ProbeObservationRecorded o => Some (RecordProbeObservation o)
  | ReconstructionRecorded r => Some (RecordReconstruction r)
  | MismatchRecorded m => Some (RecordMismatch m)
  | SemanticDeltaCommitted d => Some (CommitSemanticDelta d)
  | Extended x => Some (Extend (extension_command x))
  | _ => None
  end.

(** ** The shape of a transition *)

Lemma advance_ok s s' :
  advance s = Ok s' ↔ s' = next_sequence s ∧ validate_lifecycle s' = Ok tt.
Proof.
  unfold advance. cbv zeta. split.
  - intros ([] & Hv & [= <-])%bind_ok. done.
  - intros [-> Hv]. rewrite Hv. done.
Qed.

Lemma advance_request_ok s r s' :
  advance_request s r = Ok s' ↔
  validate_cardinalities r = Ok tt ∧ s' = next_sequence (set_requests s (replace_request s r))
  ∧ validate_lifecycle s' = Ok tt.
Proof.
  unfold advance_request. split.
  - intros ([] & Hv & Ha)%bind_ok. by apply advance_ok in Ha as [??].
  - intros (-> & Hs & Hv). by apply advance_ok.
Qed.

(** Equal successor states: unfold the ledgers, drop what was not appended. *)
Ltac ledger_cbv :=
  cbv [append_effects append_extensions append_cognition append_warrant append_claims next_sequence
    with_extensions with_cognition with_warrant with_claims with_effects extend_state set_requests backlog_effects step_plans effect_requests
    claims conflicts obligations obligation_dispositions candidates
    residuals corrections guard_changes nogoods support_route_standing_changes
    nogood_standing_changes evidence_records checker_verdicts warrant_decisions lemma_versions
    lemma_supports promotion_links admitted_probes cognitive_plans predictions
    probe_observations reconstructions mismatches semantic_deltas empty_claims empty_warrant
    empty_cognition st_claims st_warrant st_cognition st_status st_inquiry_id st_sequence
    st_manifest_artifact st_policy_version st_context st_effects st_extensions
    l_backlog_effects l_step_plans l_effect_requests
    l_claims l_conflicts l_obligations l_obligation_dispositions l_candidates l_residuals
    l_corrections l_guard_changes l_nogoods l_route_changes l_nogood_changes l_evidence_records
    l_checker_verdicts l_warrant_decisions l_lemma_versions l_lemma_supports l_promotion_links
    l_admitted_probes l_cognitive_plans l_predictions l_probe_observations l_reconstructions
    l_mismatches l_semantic_deltas extension_facts
    recorded effect_records claim_records warrant_records cognition_records evt_body].

(** Nothing added, nothing changed. *)
Lemma extension_plus_nil l : extension_plus l empty_extensions = l.
Proof.
  destruct l as [[] [] [] []]. unfold extension_plus. f_equal; cbv [retention_plus learning_plus
    compression_plus project_plus x_retention x_learning x_compression x_project empty_extensions
    empty_retention empty_learning empty_compression empty_project]; f_equal; apply app_nil_r.
Qed.

Ltac ledger_eq s :=
  destruct s as [s1 s2 s3 s4 s5 s6 e c w g x];
  destruct c as [c1 c2 c3 c4 c5 c6 c7 c8], w as [w1 w2 w3 w4 w5 w6 w7 w8 w9],
    g as [g1 g2 g3 g4 g5 g6 g7];
  ledger_cbv; rewrite ?app_nil_r, ?extension_plus_nil; reflexivity.

Lemma next_sequence_id s b cl wl gl xl :
  cl = empty_claims → wl = empty_warrant → gl = empty_cognition → xl = empty_extensions →
  next_sequence (append_extensions
    (append_cognition (append_warrant (append_claims (with_effects s b) cl) wl) gl) xl)
  = next_sequence (with_effects s b).
Proof.
  intros -> -> -> ->. ledger_eq s.
Qed.

(** A matching decision is exactly one event, equal to the given one in Python's sense. *)
Lemma matching_ok s e b :
  matching s e b = Ok tt ↔
  ∃ x, decide_body s (evt_meta e) b = Ok [x] ∧ body_eqb x (evt_body e) = true.
Proof.
  unfold matching, require_matching_decision, decide. cbn [cmd_meta cmd_body].
  destruct (decide_body s (evt_meta e) b) as [bs|x]; cbn.
  - split.
    + intros H. apply raise_if_ok, negb_false_iff in H.
      destruct bs as [|y [|]]; cbn in H; try done.
      * rewrite andb_true_r in H. unfold event_eqb in H. apply andb_true_iff in H as [_ H]. eauto.
      * apply andb_true_iff in H as [_ H]. done.
    + intros (y & [= ->] & Hy). cbn. unfold event_eqb. cbn.
      rewrite bool_decide_true by done. rewrite Hy. done.
  - split; [destruct (is_domain_error _); done|]. intros (? & ? & ?). done.
Qed.

(** The guards of the effect events. *)
Definition effect_guards (s : InquiryState) (e : DomainEvent) : Prop :=
  match evt_body e with
  | EffectRequested r =>
    request_by_id s (req_id r) = None ∧ ∃ p, step_plan_by_id s (req_step_plan_id r) = Some p
  | EffectAttemptPlanned p =>
    ∃ r, request_by_id s (ap_request_id p) = Some r ∧ attempt_by_id s (ap_id p) = None
         ∧ ers_accepted_decoded_outcome_id r = None
         ∧ validate_cardinalities (with_attempts r (ers_attempts r ++ [planned_attempt p])) = Ok tt
  | EffectAttemptStarted id =>
    ∃ r a, containing_request s id = Some (r, a) ∧ att_started a = false
           ∧ ers_accepted_decoded_outcome_id r = None
           ∧ validate_cardinalities (with_attempts r (update_attempt id
               (λ a, started_attempt a (meta_event_id (evt_meta e)) (meta_occurred_at (evt_meta e)))
               (ers_attempts r))) = Ok tt
  | EffectNoAttemptDispositionRecorded d =>
    ∃ r, request_by_id s (na_request_id d) = Some r
         ∧ na_step_plan_id d = req_step_plan_id (ers_request r)
         ∧ na_id d ∉ map na_id (all_no_attempts s)
         ∧ ers_accepted_decoded_outcome_id r = None
         ∧ validate_cardinalities (add_no_attempt r d) = Ok tt
  | EffectAttemptOutcomeRecorded q o =>
    ∃ r a, request_by_id s q = Some r
           ∧ first (λ a, att_id a ==? outcome_attempt_id o) (ers_attempts r) = Some a
           ∧ att_started a = true ∧ att_outcome a = None
           ∧ rs_id (ap_route (att_plan a)) = outcome_route_id o
           ∧ validate_attempt (ended_attempt a o) = Ok tt
           ∧ validate_cardinalities (with_attempts r (update_attempt (outcome_attempt_id o)
               (λ a, ended_attempt a o) (ers_attempts r))) = Ok tt
  | EffectDecodeOutcomeRecorded q d =>
    ∃ r, request_by_id s q = Some r ∧ dec_id d ∉ recorded_decode_outcome_ids s
         ∧ dec_return_id d ∈ return_ids (ers_attempts r)
         ∧ validate_cardinalities (add_decode r d) = Ok tt
  | EffectResultAccepted q id =>
    ∃ r, request_by_id s q = Some r ∧ ers_accepted_decoded_outcome_id r = None
         ∧ decode_is_accepted (ers_decode_outcomes r) id = true
         ∧ validate_cardinalities (accept_decode r id) = Ok tt
  | _ => True
  end.

(** The event was lawful in [s]. *)
Definition lawful_event (s : InquiryState) (e : DomainEvent) : Prop :=
  match command_of e with
  | Some b => ∃ x, decide_body s (evt_meta e) b = Ok [x] ∧ body_eqb x (evt_body e) = true
  | None => effect_guards s e
  end.

Definition admissible (s : InquiryState) (e : DomainEvent) : Prop :=
  match evt_body e with
  | InquiryStarted _ _ _ => st_status s = NOT_STARTED
  | _ => st_status s = STATUS_ACTIVE ∧ st_inquiry_id s = Some (meta_inquiry_id (evt_meta e))
         ∧ lawful_event s e
  end.

Lemma raise_if_tt c k msg : raise_if c k msg = Ok tt ↔ c = false.
Proof. destruct c; done. Qed.

(** The branches that decide again: lawful, append, validate. *)
Lemma matching_advance s e b t s' :
  (matching s e b;; advance t) = Ok s' ↔
  (∃ x, decide_body s (evt_meta e) b = Ok [x] ∧ body_eqb x (evt_body e) = true)
  ∧ s' = next_sequence t ∧ validate_lifecycle s' = Ok tt.
Proof.
  rewrite bind_ok. setoid_rewrite advance_ok. setoid_rewrite <-matching_ok. split.
  - intros ([] & ? & ?). done.
  - intros (? & ?). by exists tt.
Qed.

Lemma records_spec s t e :
  claim_records (evt_body e) = empty_claims → warrant_records (evt_body e) = empty_warrant →
  cognition_records s (evt_body e) = empty_cognition → extension_facts (evt_body e) = empty_extensions →
  is_inquiry_started (evt_body e) = false →
  with_effects s (effect_records s e) = t → recorded s e = next_sequence t.
Proof.
  intros Hc Hw Hg Hx Hi <-. rewrite <-(next_sequence_id s _ _ _ _ _ Hc Hw Hg Hx). unfold recorded.
  by destruct (evt_body e).
Qed.

(** A decided admission has its candidate. *)
Lemma decided_extension_guard s m x y :
  decide_body s m (Extend (extension_command x)) = Ok [y] → body_eqb y (Extended x) = true →
  extension_guard s x = Ok tt.
Proof.
  destruct x as [|e| |]; try done. destruct e; try done. cbn.
  intros (u & _ & H)%bind_ok Hy. unfold decide_probe_admission, unless_owned, unless_recorded in H.
  destruct (first _ (probe_admission_decisions s)) as [x|].
  { destruct (same _ _); done. }
  by destruct (probe_candidate_by_id s _).
Qed.

Lemma evolve_active_extended s e x s' :
  evt_body e = Extended x →
  evolve_active s e = Ok s' ↔ (matching s e (Extend (extension_command x));; advance (extend_state s x)) = Ok s'.
Proof.
  intros He. unfold evolve_active. rewrite He. unfold evolve_extended. rewrite !seq_ok. split.
  - intros (? & ? & ?). done.
  - intros [Hm Ha]. split; [done|]. split; [|done].
    apply matching_ok in Hm as (y & Hd & Hy). rewrite He in Hy. by apply decided_extension_guard in Hd.
Qed.

Lemma evolve_active_matching s e b s' :
  command_of e = Some b →
  evolve_active s e = Ok s' ↔
  (∃ x, decide_body s (evt_meta e) b = Ok [x] ∧ body_eqb x (evt_body e) = true)
  ∧ s' = recorded s e ∧ validate_lifecycle s' = Ok tt.
Proof.
  intros Hb.
  assert (∀ t, recorded s e = next_sequence t →
    (matching s e b;; advance t) = Ok s' ↔
    (∃ x, decide_body s (evt_meta e) b = Ok [x] ∧ body_eqb x (evt_body e) = true)
    ∧ s' = recorded s e ∧ validate_lifecycle s' = Ok tt) as Hm.
  { intros t ->. apply matching_advance. }
  destruct e as [m []]; cbn [command_of evt_body] in Hb; try discriminate Hb; injection Hb as <-;
    try (rewrite (evolve_active_extended s _ event) by done); apply Hm; ledger_eq s.
Qed.


Lemma recorded_effect s e :
  command_of e = None → is_inquiry_started (evt_body e) = false →
  recorded s e = next_sequence (with_effects s (effect_records s e)).
Proof. destruct e as [m []]; intros Hc Hi; try discriminate; by apply records_spec. Qed.

Lemma evolve_active_effect s e s' :
  command_of e = None → is_inquiry_started (evt_body e) = false →
  evolve_active s e = Ok s' ↔ effect_guards s e ∧ s' = recorded s e ∧ validate_lifecycle s' = Ok tt.
Proof.
  intros Hc Hi. rewrite (recorded_effect s e Hc Hi).
  destruct e as [m []]; try discriminate; clear Hc Hi;
    unfold evolve_active, effect_guards, effect_records; cbn [evt_body evt_meta].
  - unfold evolve_effect_requested. rewrite raise_if_bind, raise_if_bind, advance_ok,
      is_some_false, is_none_false. tauto.
  - unfold evolve_attempt_planned. destruct (request_by_id s _) as [r|]; cbn [option_bind mbind].
    2:{ split; [done|]. intros [(? & ? & _) _]. done. }
    rewrite raise_if_bind, raise_if_bind, !is_some_false. cbn [validate_attempt].
    change (validate_attempt (planned_attempt plan)) with (Ok tt : result unit).
    cbn [mbind result_bind]. rewrite advance_request_ok. unfold set_requests. split.
    + intros (? & ? & ? & ? & ?). eauto 10.
    + intros ((? & [= <-] & ? & ? & ?) & ? & ?). auto.
  - unfold evolve_attempt_started. destruct (containing_request s _) as [[r a]|]; cbn [option_bind mbind].
    2:{ split; [done|]. intros [(? & ? & ? & _) _]. done. }
    rewrite raise_if_bind, raise_if_bind, !is_some_false. cbv zeta. cbn [evt_meta].
    change (validate_attempt (started_attempt a (meta_event_id m) (meta_occurred_at m)))
      with (Ok tt : result unit).
    cbn [mbind result_bind]. rewrite advance_request_ok. unfold set_requests. cbn [fst snd]. split.
    + intros (? & ? & ? & ? & ?). eauto 10.
    + intros ((? & ? & [= <- <-] & ? & ? & ?) & ? & ?). auto.
  - unfold evolve_no_attempt_recorded. destruct (request_by_id s _) as [r|]; cbn [option_bind mbind].
    2:{ split; [done|]. intros [(? & ? & _) _]. done. }
    rewrite raise_if_bind, raise_if_bind, raise_if_bind, advance_request_ok,
      is_some_false, neqb_false, mem_false. unfold set_requests. split.
    + intros (? & ? & ? & ? & ? & ?). eauto 10.
    + intros ((? & [= <-] & ? & ? & ? & ?) & ? & ?). auto 10.
  - unfold evolve_attempt_outcome. destruct (request_by_id s _) as [r|]; cbn [option_bind mbind].
    2:{ split; [done|]. intros [(? & ? & ? & _) _]. done. }
    destruct (first _ (ers_attempts r)) as [a|] eqn:Ea.
    2:{ split; [done|]. intros [(? & ? & [= <-] & ? & _) _]. congruence. }
    pose proof (first_Some _ _ _ Ea) as [_ Hid]. rewrite eqb_true in Hid.
    rewrite raise_if_bind, raise_if_bind, raise_if_bind, negb_false_iff, is_some_false, neqb_false, Hid.
    rewrite bind_ok. setoid_rewrite advance_request_ok. unfold set_requests. split.
    + intros (? & ? & ? & [] & ? & ? & ? & ?). eauto 15.
    + intros ((? & ? & [= <-] & Ha & ? & ? & ? & ? & ?) & ? & ?).
      rewrite Ea in Ha. injection Ha as <-. eauto 15.
  - unfold evolve_decode_outcome. destruct (request_by_id s _) as [r|]; cbn [option_bind mbind].
    2:{ split; [done|]. intros [(? & ? & _) _]. done. }
    rewrite raise_if_bind, raise_if_bind, advance_request_ok, mem_false, negb_false_iff, mem_true.
    unfold set_requests. split.
    + intros (? & ? & ? & ? & ?). eauto 10.
    + intros ((? & [= <-] & ? & ? & ?) & ? & ?). auto.
  - unfold evolve_result_accepted. destruct (request_by_id s _) as [r|]; cbn [option_bind mbind].
    2:{ split; [done|]. intros [(? & ? & _) _]. done. }
    rewrite raise_if_bind, raise_if_bind, advance_request_ok, negb_false_iff, is_some_false.
    unfold set_requests. split.
    + intros (? & ? & ? & ? & ?). eauto 10.
    + intros ((? & [= <-] & ? & ? & ?) & ? & ?). auto.
Qed.

(** Every accepted event was admissible, leads to [recorded], and the result is valid. *)
Lemma evolve_ok s e s' :
  evolve s e = Ok s' ↔ admissible s e ∧ s' = recorded s e ∧ validate_lifecycle s' = Ok tt.
Proof.
  unfold evolve, admissible, lawful_event. rewrite raise_if_bind.
  destruct (is_inquiry_started (evt_body e)) eqn:Hi.
  - destruct e as [m []]; try discriminate. cbn [evt_body evolve_active].
    unfold evolve_active, evolve_inquiry_started. cbn [evt_body evt_meta].
    rewrite raise_if_bind, neqb_false. cbv zeta. rewrite bind_ok. unfold recorded. cbn [evt_body evt_meta].
    fold (started_state m manifest_artifact policy_version context). split.
    + intros (_ & ? & [] & ? & [= <-]). done.
    + intros (? & -> & ?). split; [done|]. split; [done|]. by exists tt.
  - assert (negb false && ((st_status s !=? STATUS_ACTIVE)
        || (st_inquiry_id s !=? Some (meta_inquiry_id (evt_meta e)))) = false
      ↔ st_status s = STATUS_ACTIVE ∧ st_inquiry_id s = Some (meta_inquiry_id (evt_meta e))) as ->.
    { rewrite andb_true_l, orb_false_iff, neqb_false, neqb_false. done. }
    destruct (command_of e) as [b|] eqn:Hb.
    + rewrite (evolve_active_matching s e b s' Hb). destruct (evt_body e); try discriminate; tauto.
    + rewrite (evolve_active_effect s e s' Hb Hi). destruct (evt_body e); try discriminate; tauto.
Qed.

(** ** The ledgers after a step *)

Definition claims_app (l k : ClaimLedger) : ClaimLedger :=
  MkClaimLedger (l_claims l ++ l_claims k) (l_conflicts l ++ l_conflicts k)
    (l_obligations l ++ l_obligations k) (l_obligation_dispositions l ++ l_obligation_dispositions k)
    (l_candidates l ++ l_candidates k) (l_residuals l ++ l_residuals k)
    (l_corrections l ++ l_corrections k) (l_guard_changes l ++ l_guard_changes k).

Definition warrant_app (l k : WarrantLedger) : WarrantLedger :=
  MkWarrantLedger (l_nogoods l ++ l_nogoods k) (l_route_changes l ++ l_route_changes k)
    (l_nogood_changes l ++ l_nogood_changes k) (l_evidence_records l ++ l_evidence_records k)
    (l_checker_verdicts l ++ l_checker_verdicts k) (l_warrant_decisions l ++ l_warrant_decisions k)
    (l_lemma_versions l ++ l_lemma_versions k) (l_lemma_supports l ++ l_lemma_supports k)
    (l_promotion_links l ++ l_promotion_links k).

Definition cognition_app (l k : CognitionLedger) : CognitionLedger :=
  MkCognitionLedger (l_admitted_probes l ++ l_admitted_probes k)
    (l_cognitive_plans l ++ l_cognitive_plans k) (l_predictions l ++ l_predictions k)
    (l_probe_observations l ++ l_probe_observations k) (l_reconstructions l ++ l_reconstructions k)
    (l_mismatches l ++ l_mismatches k) (l_semantic_deltas l ++ l_semantic_deltas k).

Lemma is_nil_negb_false {A} (l : list A) : negb (is_nil l) = false ↔ l = [].
Proof. by destruct l. Qed.

(** Goal candidates and decisions are not in the list of domain records; the
    checks of the project ledger refuse them without a context. *)
Lemma contextless_goals s :
  check_goals s = Ok tt → st_context s = None →
  implementation_goal_candidates s = [] ∧ goal_admission_decisions s = [].
Proof.
  unfold check_goals. rewrite !seq_ok, !for_each_ok. intros (Hc & _ & Hd & _) Hn.
  assert (implementation_goal_candidates s = []) as E.
  { destruct (implementation_goal_candidates s) as [|c l]; [done|].
    specialize (Hc c ltac:(left)). unfold check_goal_candidate, compile_implementation_goal_candidate in Hc.
    rewrite Hn in Hc. done. }
  split; [done|]. destruct (goal_admission_decisions s) as [|d l]; [done|].
  specialize (Hd d ltac:(left)). unfold check_goal_decision in Hd. rewrite E in Hd. done.
Qed.

Lemma valid_goals s : validate_lifecycle s = Ok tt → check_goals s = Ok tt.
Proof.
  unfold validate_lifecycle, check_extensions, check_project. rewrite !seq_ok. tauto.
Qed.

(** A valid unstarted state is the initial state. *)
Lemma unstarted_is_initial s :
  validate_lifecycle s = Ok tt → st_status s = NOT_STARTED → s = initial_state.
Proof.
  intros Hv Hst. pose proof (valid_goals s Hv) as Hg. apply contextless_goals in Hg as Hgoals.
  2:{ revert Hv. unfold validate_lifecycle, check_status. rewrite Hst. intros (u & H & _)%bind_ok.
      apply raise_if_bind in H as [H1 _]. unfold has_started_fields in H1.
      rewrite !orb_false_iff, !is_some_false in H1. tauto. }
  clear Hg. revert Hv. unfold validate_lifecycle, check_status. intros (u & H & _)%bind_ok.
  rewrite Hst in H. apply raise_if_bind in H as [H1 H]. apply raise_if_bind in H as [H2 H3].
  apply raise_if_ok in H3. unfold has_domain_records, has_extension_records in H3. unfold has_started_fields in H1.
  rewrite !orb_false_iff, !is_nil_negb_false in H2. rewrite !orb_false_iff, !is_nil_negb_false in H3.
  rewrite !orb_false_iff, !is_some_false, negb_false_iff, Z.eqb_eq in H1.
  destruct s as [s1 s2 s3 s4 s5 s6 e c w g x].
  destruct e as [e1 e2 e3], c as [c1 c2 c3 c4 c5 c6 c7 c8], w as [w1 w2 w3 w4 w5 w6 w7 w8 w9],
    g as [g1 g2 g3 g4 g5 g6 g7],
    x as [[r1 r2 r3 r4 r5 r6 r7 r8 r9 r10 r11 r12 r13 r14]
          [b1 b2 b3 b4 b5 b6 b7 b8 b9] [k1 k2 k3 k4 k5 k6 k7 k8 k9 k10 k11]
          [p1 p2 p3 p4 p5 p6 p7 p8 p9 p10 p11 p12 p13 p14 p15 p16 p17 p18]].
  cbv [backlog_effects step_plans effect_requests
    claims conflicts obligations obligation_dispositions candidates
    residuals corrections guard_changes nogoods support_route_standing_changes
    nogood_standing_changes evidence_records checker_verdicts warrant_decisions lemma_versions
    lemma_supports promotion_links admitted_probes cognitive_plans predictions
    probe_observations reconstructions mismatches semantic_deltas
    st_claims st_warrant st_cognition st_status st_inquiry_id st_sequence
    st_manifest_artifact st_policy_version st_context st_effects
    l_backlog_effects l_step_plans l_effect_requests
    l_claims l_conflicts l_obligations l_obligation_dispositions l_candidates l_residuals
    l_corrections l_guard_changes l_nogoods l_route_changes l_nogood_changes l_evidence_records
    l_checker_verdicts l_warrant_decisions l_lemma_versions l_lemma_supports l_promotion_links
    l_admitted_probes l_cognitive_plans l_predictions l_probe_observations l_reconstructions
    l_mismatches l_semantic_deltas st_extensions x_retention x_learning x_compression x_project
    direct_use_routes reconstruction_routes consequence_evaluation_routes reacquisition_routes
    reacquisition_scaffolds recovery_protocols retention_packages retrieval_policies
    retrieval_queries retrieval_results reacquisition_requests reacquisition_inquiry_links
    recovery_observations recovery_comparisons consolidation_checkpoints consolidation_candidates
    memory_patch_candidates reconsolidation_links semantic_field_evaluations representation_gaps
    learned_probe_candidates probe_evaluations probe_admission_decisions binding_carrier_manifests
    realized_history_derivations compression_contracts compression_validations
    exact_compression_licenses path_residues compression_applications recovery_licenses
    retention_capability_links representation_successor_decisions representation_reopenings
    project_anchors capability_limitations question_contract_candidates
    question_repertoire_decisions method_binding_candidates method_admission_decisions
    capability_successor_candidates capability_frontiers implementation_goal_candidates
    goal_admission_decisions implementation_goals candidate_environments development_evidence
    independent_reviews project_successor_decisions promotion_decisions recursive_cycle_checkpoints
    recursive_stop_dispositions l_direct_use_routes l_reconstruction_routes
    l_consequence_evaluation_routes l_reacquisition_routes l_reacquisition_scaffolds
    l_recovery_protocols l_retention_packages l_retrieval_policies l_retrieval_queries
    l_retrieval_results l_reacquisition_requests l_reacquisition_inquiry_links
    l_recovery_observations l_recovery_comparisons l_consolidation_checkpoints
    l_consolidation_candidates l_memory_patch_candidates l_reconsolidation_links
    l_semantic_field_evaluations l_representation_gaps l_learned_probe_candidates
    l_probe_evaluations l_probe_admission_decisions l_binding_carrier_manifests
    l_realized_history_derivations l_compression_contracts l_compression_validations
    l_exact_compression_licenses l_path_residues l_compression_applications l_recovery_licenses
    l_retention_capability_links l_representation_successor_decisions l_representation_reopenings
    l_project_anchors l_capability_limitations l_question_contract_candidates
    l_question_repertoire_decisions l_method_binding_candidates l_method_admission_decisions
    l_capability_successor_candidates l_capability_frontiers l_implementation_goal_candidates
    l_goal_admission_decisions l_implementation_goals l_candidate_environments
    l_development_evidence l_independent_reviews l_project_successor_decisions l_promotion_decisions
    l_recursive_cycle_checkpoints l_recursive_stop_dispositions] in *.
  destruct_and!. subst. done.
Qed.

(** A successful step of a valid state. *)
Record Step (s : InquiryState) (e : DomainEvent) (s' : InquiryState) : Prop := {
  step_pre : validate_lifecycle s = Ok tt;
  step_admissible : admissible s e;
  step_recorded : s' = recorded s e;
  step_post : validate_lifecycle s' = Ok tt;
}.

Lemma evolve_step s e s' : validate_lifecycle s = Ok tt → evolve s e = Ok s' → Step s e s'.
Proof. intros Hv (? & ? & ?)%evolve_ok. by split. Qed.

Section step.
Context (s : InquiryState) (e : DomainEvent) (s' : InquiryState) (Hstep : Step s e s').

Lemma step_started_initial :
  is_inquiry_started (evt_body e) = true → s = initial_state.
Proof.
  intros Hi. apply unstarted_is_initial; [apply Hstep|].
  pose proof (step_admissible _ _ _ Hstep) as Ha. unfold admissible in Ha.
  by destruct (evt_body e).
Qed.

Lemma step_claims : st_claims s' = claims_app (st_claims s) (claim_records (evt_body e)).
Proof.
  rewrite (step_recorded _ _ _ Hstep). destruct (is_inquiry_started (evt_body e)) eqn:Hi.
  - rewrite (step_started_initial Hi). by destruct e as [m []].
  - unfold recorded. by destruct (evt_body e).
Qed.

Lemma step_warrant : st_warrant s' = warrant_app (st_warrant s) (warrant_records (evt_body e)).
Proof.
  rewrite (step_recorded _ _ _ Hstep). destruct (is_inquiry_started (evt_body e)) eqn:Hi.
  - rewrite (step_started_initial Hi). by destruct e as [m []].
  - unfold recorded. by destruct (evt_body e).
Qed.

Lemma step_cognition :
  st_cognition s' = cognition_app (st_cognition s) (cognition_records s (evt_body e)).
Proof.
  rewrite (step_recorded _ _ _ Hstep). destruct (is_inquiry_started (evt_body e)) eqn:Hi.
  - rewrite (step_started_initial Hi). by destruct e as [m []].
  - unfold recorded. by destruct (evt_body e).
Qed.

Lemma step_extensions :
  st_extensions s' = extension_plus (st_extensions s) (extension_facts (evt_body e)).
Proof.
  rewrite (step_recorded _ _ _ Hstep). destruct (is_inquiry_started (evt_body e)) eqn:Hi.
  - rewrite (step_started_initial Hi). by destruct e as [m []].
  - unfold recorded. by destruct (evt_body e).
Qed.

Lemma step_effects : st_effects s' = effect_records s e.
Proof.
  rewrite (step_recorded _ _ _ Hstep). destruct (is_inquiry_started (evt_body e)) eqn:Hi.
  - rewrite (step_started_initial Hi). by destruct e as [m []].
  - unfold recorded. by destruct (evt_body e).
Qed.

Lemma step_sequence : st_sequence s' = (st_sequence s + 1)%Z.
Proof.
  rewrite (step_recorded _ _ _ Hstep). destruct (is_inquiry_started (evt_body e)) eqn:Hi.
  - rewrite (step_started_initial Hi). by destruct e as [m []].
  - unfold recorded. by destruct (evt_body e).
Qed.

(** Identity, manifest, policy and context never change once set. *)
Lemma step_identity :
  is_inquiry_started (evt_body e) = false →
  st_status s' = st_status s ∧ st_inquiry_id s' = st_inquiry_id s
  ∧ st_manifest_artifact s' = st_manifest_artifact s
  ∧ st_policy_version s' = st_policy_version s ∧ st_context s' = st_context s.
Proof.
  intros Hi. rewrite (step_recorded _ _ _ Hstep). unfold recorded. by destruct (evt_body e).
Qed.

(** A record event was decided on the state before it. *)
Lemma step_decided b :
  command_of e = Some b →
  ∃ x, decide_body s (evt_meta e) b = Ok [x] ∧ body_eqb x (evt_body e) = true.
Proof.
  intros Hb. pose proof (step_admissible _ _ _ Hstep) as Ha. unfold admissible, lawful_event in Ha.
  rewrite Hb in Ha. destruct (evt_body e) eqn:He; try tauto.
  unfold command_of in Hb. by rewrite He in Hb.
Qed.

Lemma step_guards : command_of e = None → effect_guards s e.
Proof.
  intros Hb. pose proof (step_admissible _ _ _ Hstep) as Ha. unfold admissible, lawful_event in Ha.
  rewrite Hb in Ha. unfold effect_guards in *. destruct (evt_body e) eqn:He; tauto.
Qed.
End step.
