(* ===== verification/Reachable.v ===== *)
(** * Reachable inquiries: what every replayed event log guarantees

    [replay] is the fold of [evolve]; this file proves, by induction over
    accepted logs, the invariants of the states it reaches: the lifecycle
    validator holds, the sequence counts the events, the identity never changes,
    every ledger only grows and every effect attempt only moves forward. *)

From S2P Require Import Prelude Digest Model Claims Warrant Support Policy Planning Backlog Effects Probes State Extensions Lifecycle Guards Decide Evolve Ledger Scenario.

(** ** Replay *)

Lemma replay_app es es' s : replay (es ++ es') s = (s' ← replay es s; replay es' s').
Proof.
  revert s. induction es as [|e es IH]; intros s; [done|]. cbn.
  destruct (evolve s e) as [s'|x]; cbn; [apply IH|done].
Qed.

Lemma replay_snoc es e s s'' :
  replay (es ++ [e]) s = Ok s'' ↔ ∃ s', replay es s = Ok s' ∧ evolve s' e = Ok s''.
Proof.
  rewrite replay_app, bind_ok. f_equiv. intros s'. cbn. rewrite bind_ok. split.
  - intros (? & ? & ? & [= ->]). done.
  - intros []. eauto.
Qed.

Lemma initial_valid : validate_lifecycle initial_state = Ok tt.
Proof. vm_compute. reflexivity. Qed.

(** Induction over the accepted logs of a valid state. *)
Lemma replay_ind s0 (P : list DomainEvent → InquiryState → Prop) :
  validate_lifecycle s0 = Ok tt → P [] s0 →
  (∀ es s e s', replay es s0 = Ok s → P es s → Step s e s' → P (es ++ [e]) s') →
  ∀ es s, replay es s0 = Ok s → validate_lifecycle s = Ok tt ∧ P es s.
Proof.
  intros Hv H0 Hs es. induction es as [|e es IH] using rev_ind; intros s Hr.
  - injection Hr as <-. done.
  - apply replay_snoc in Hr as (s' & Hr & He). destruct (IH _ Hr) as [Hv' HP].
    pose proof (evolve_step _ _ _ Hv' He) as Hst. split; [apply Hst|]. by eapply Hs.
Qed.

Definition Reachable (s : InquiryState) : Prop := ∃ es, replay es initial_state = Ok s.

Lemma reachable_ind (P : InquiryState → Prop) :
  P initial_state → (∀ s e s', Reachable s → P s → Step s e s' → P s') → ∀ s, Reachable s → P s.
Proof.
  intros H0 Hs s [es Hr].
  refine (proj2 (replay_ind initial_state (λ _, P) initial_valid H0 _ es s Hr)).
  intros es' s1 e s2 Hr1. apply Hs. by exists es'.
Qed.

Lemma reachable_valid s : Reachable s → validate_lifecycle s = Ok tt.
Proof.
  apply (reachable_ind (λ s, validate_lifecycle s = Ok tt)); [apply initial_valid|]. intros s1 e s2 _ _ Hst. apply Hst.
Qed.

(** What [InquiryStarted] and the rest of a log fix about the inquiry. *)
Definition identity_fixed (es : list DomainEvent) (s : InquiryState) : Prop :=
  match es with
  | [] => s = initial_state
  | e :: rest =>
    ∃ manifest policy context,
      evt_body e = InquiryStarted manifest policy context ∧ st_status s = STATUS_ACTIVE
      ∧ st_inquiry_id s = Some (meta_inquiry_id (evt_meta e))
      ∧ st_manifest_artifact s = Some manifest ∧ st_policy_version s = Some policy
      ∧ st_context s = Some context
      ∧ ∀ e', e' ∈ rest → is_inquiry_started (evt_body e') = false
                          ∧ meta_inquiry_id (evt_meta e') = meta_inquiry_id (evt_meta e)
  end.

Lemma identity_fixed_step es s e s' :
  identity_fixed es s → Step s e s' → identity_fixed (es ++ [e]) s'.
Proof.
  intros Hid Hst. pose proof (step_admissible _ _ _ Hst) as Ha. unfold admissible in Ha.
  destruct es as [|e0 es]; cbn [identity_fixed app] in *.
  - subst s. pose proof (step_recorded _ _ _ Hst) as ->. unfold recorded.
    destruct (evt_body e) eqn:He; try (destruct Ha; discriminate).
    do 3 eexists. split; [done|]. cbn. split_and!; try done. by intros ? ?%not_elem_of_nil.
  - destruct Hid as (ma & po & cx & He0 & Hs & Hi & Hm & Hp & Hc & Hrest).
    destruct (is_inquiry_started (evt_body e)) eqn:His.
    { destruct (evt_body e); try discriminate. congruence. }
    destruct (step_identity _ _ _ Hst His) as (E1 & E2 & E3 & E4 & E5).
    exists ma, po, cx. rewrite E1, E2, E3, E4, E5. split_and!; try done.
    intros e' [He'| ->%list_elem_of_singleton]%elem_of_app; [by apply Hrest|]. split; [done|].
    rewrite Hi in Ha. destruct (evt_body e); try discriminate; destruct Ha as (_ & Ha & _); by injection Ha.
Qed.

(** C1: Every accepted log leaves a valid inquiry.  The reached state satisfies
    the whole lifecycle validator, its sequence is the number of events, only
    the first event is [InquiryStarted], every event names the inquiry it
    started, and the manifest, policy and context stay those it pinned. *)
Theorem replay_invariant es s :
  replay es initial_state = Ok s →
  validate_lifecycle s = Ok tt ∧ st_sequence s = Z.of_nat (length es) ∧ identity_fixed es s.
Proof.
  apply (replay_ind initial_state
    (λ es s, st_sequence s = Z.of_nat (length es) ∧ identity_fixed es s) initial_valid); [done|].
  intros es' s1 e s2 _ [Hlen Hid] Hst. split; [|by eapply identity_fixed_step].
  rewrite (step_sequence _ _ _ Hst), Hlen, length_app. cbn. lia.
Qed.

(** ** The validator, check by check *)

Lemma validate_lifecycle_ok s :
  validate_lifecycle s = Ok tt ↔
  check_status s = Ok tt ∧ check_effects s = Ok tt ∧ check_identities s = Ok tt
  ∧ check_claims s = Ok tt ∧ for_each (check_step_plan s) (step_plans s) = Ok tt
  ∧ check_lemmas s = Ok tt ∧ check_warrants s = Ok tt ∧ check_route_history s = Ok tt
  ∧ check_nogood_history s = Ok tt ∧ for_each (check_nogood s) (nogoods s) = Ok tt
  ∧ for_each (check_delta s) (semantic_deltas s) = Ok tt
  ∧ check_learning s = Ok tt ∧ check_extensions s = Ok tt.
Proof.
  assert (∀ (m k : result unit), (m;; k) = Ok tt ↔ m = Ok tt ∧ k = Ok tt) as Hb.
  { intros [[]|x] k; cbn; [|by split; [|intros []]]. split; [done|by intros []]. }
  unfold validate_lifecycle. rewrite !Hb. tauto.
Qed.

Record EffectsOK (s : InquiryState) : Prop := {
  ok_requests : NoDup (map ers_id (effect_requests s));
  ok_backlog : NoDup (map be_id (backlog_effects s));
  ok_plans : NoDup (map plan_id (step_plans s));
  ok_request_plans : ∀ r, r ∈ effect_requests s →
    req_step_plan_id (ers_request r) ∈ map plan_id (step_plans s);
  ok_attempts : NoDup (map att_id (all_attempts (effect_requests s)));
  ok_returns : NoDup (captured_external_return_ids s);
  ok_decodes : NoDup (recorded_decode_outcome_ids s);
  ok_results : NoDup (map (λ r, result_id (result_base r)) (omap accepted_result (effect_requests s)));
}.

Lemma check_effects_ok s : check_effects s = Ok tt ↔ EffectsOK s.
Proof.
  unfold check_effects. rewrite !raise_if_bind, raise_if_ok, !nuniq_false, any_false.
  setoid_rewrite negb_false_iff. setoid_rewrite mem_true. split.
  - intros. destruct_and!. by split.
  - intros []. by split_and!.
Qed.

Lemma check_identities_ok s :
  check_identities s = Ok tt ↔
  (∀ l, l ∈ identified_collections s → NoDup l) ∧ NoDup (map probe_fingerprint (admitted_probes s)).
Proof.
  unfold check_identities. rewrite raise_if_bind, raise_if_ok, nuniq_false, negb_false_iff, all_true.
  by setoid_rewrite uniq_true.
Qed.

(** ** Requests and attempts *)

Lemma first_key {A} (f : A → string) l id x :
  first (λ x, f x ==? id) l = Some x → x ∈ l ∧ f x = id.
Proof. intros H. apply first_Some in H. by rewrite eqb_true in H. Qed.

Lemma request_by_id_Some s id r :
  request_by_id s id = Some r → r ∈ effect_requests s ∧ ers_id r = id.
Proof. apply first_key. Qed.

Lemma first_None_notin {A} (f : A → string) l id :
  first (λ x, f x ==? id) l = None ↔ id ∉ map f l.
Proof.
  rewrite first_None. setoid_rewrite eqb_false. rewrite elem_of_map. split.
  - intros H (x & Hx & ->). by eapply H.
  - intros H x Hx Hid. apply H. by exists x.
Qed.

(** With distinct identities, an element is the one found under its identity. *)
Lemma NoDup_map_inj {A B} (f : A → B) l x y :
  NoDup (map f l) → x ∈ l → y ∈ l → f x = f y → x = y.
Proof.
  induction l as [|z l IH]; cbn; [by intros _ ?%not_elem_of_nil|].
  intros [Hz Hnd]%NoDup_cons [->|Hx]%elem_of_cons [->|Hy]%elem_of_cons Hf; try done.
  - destruct Hz. rewrite Hf. by apply elem_of_map_1.
  - destruct Hz. rewrite <-Hf. by apply elem_of_map_1.
  - by apply IH.
Qed.

Lemma NoDup_flat_map_inj {A B} (f : A → list B) l x y z :
  NoDup (flat_map f l) → x ∈ l → y ∈ l → z ∈ f x → z ∈ f y → x = y.
Proof.
  induction l as [|a l IH]; cbn; [by intros _ ?%not_elem_of_nil|].
  intros (_ & Hd & Hnd)%NoDup_app [->|Hx]%elem_of_cons [->|Hy]%elem_of_cons Hzx Hzy; try done.
  - destruct (Hd z Hzx). apply elem_of_flat_map. eauto.
  - destruct (Hd z Hzy). apply elem_of_flat_map. eauto.
  - by apply IH.
Qed.

Lemma map_flat_map {A B C} (g : B → C) (f : A → list B) l :
  map g (flat_map f l) = flat_map (λ x, map g (f x)) l.
Proof. induction l as [|x l IH]; [done|]. cbn. by rewrite map_app, IH. Qed.

Lemma containing_request_Some s id r a :
  containing_request s id = Some (r, a) →
  r ∈ effect_requests s ∧ a ∈ ers_attempts r ∧ att_id a = id
  ∧ first (λ a, att_id a ==? id) (ers_attempts r) = Some a.
Proof.
  unfold containing_request. intros H.
  destruct (first _ (effect_requests s)) as [r'|] eqn:Er; cbn in H; [|done].
  destruct (first _ (ers_attempts r')) as [a'|] eqn:Ea; cbn in H; [|done].
  injection H as -> ->. apply first_Some in Er as [Hr _].
  by destruct (first_key _ _ _ _ Ea).
Qed.

Lemma elem_of_replace_request s r x :
  x ∈ replace_request s r → x = r ∨ x ∈ effect_requests s.
Proof.
  unfold replace_request. rewrite elem_of_map. intros (y & Hy & ->). case_match; auto.
Qed.

Lemma elem_of_update_attempt id f l x :
  x ∈ update_attempt id f l → (∃ a, a ∈ l ∧ att_id a = id ∧ x = f a) ∨ x ∈ l.
Proof.
  unfold update_attempt. rewrite elem_of_map. intros (a & Ha & ->).
  destruct (att_id a ==? id) eqn:E; [|auto]. rewrite eqb_true in E. eauto.
Qed.

(** The attempt that an effect event updates, in a state with distinct attempts. *)
Lemma attempt_unique r a b :
  NoDup (map att_id (ers_attempts r)) → a ∈ ers_attempts r → b ∈ ers_attempts r →
  att_id a = att_id b → a = b.
Proof. apply NoDup_map_inj. Qed.

(** ** The validators of nested records hold in every reachable state *)

Definition attempts_valid (l : list AttemptState) : Prop := ∀ a, a ∈ l → validate_attempt a = Ok tt.

(** A returned outcome was produced on the route its plan snapshot names. *)
Definition routes_match (l : list AttemptState) : Prop :=
  ∀ a o, a ∈ l → att_outcome a = Some o → rs_id (ap_route (att_plan a)) = outcome_route_id o.

Definition request_valid (r : EffectRequestState) : Prop :=
  validate_cardinalities r = Ok tt ∧ attempts_valid (ers_attempts r) ∧ routes_match (ers_attempts r)
  ∧ ∀ a o, a ∈ ers_attempts r → att_outcome a = Some o → outcome_attempt_id o = att_id a.

Definition requests_valid (s : InquiryState) : Prop := ∀ r, r ∈ effect_requests s → request_valid r.

Lemma validate_attempt_ended a o :
  validate_attempt a = Ok tt → att_started a = true → validate_attempt (ended_attempt a o) = Ok tt.
Proof. unfold validate_attempt. intros [H _]%raise_if_bind Hs. rewrite raise_if_bind, raise_if_ok. cbn. by rewrite Hs in *. Qed.

Lemma validate_attempt_unstarted a :
  validate_attempt a = Ok tt → att_started a = false → att_outcome a = None.
Proof.
  unfold validate_attempt. intros [_ H]%raise_if_bind Hs. apply raise_if_ok in H.
  rewrite Hs, andb_true_r in H. by apply is_some_false.
Qed.

Lemma requests_valid_update s r :
  requests_valid s → request_valid r → ∀ x, x ∈ replace_request s r → request_valid x.
Proof. intros Hs Hr x [->|Hx]%elem_of_replace_request; [done|]. by apply Hs. Qed.

Lemma started_valid r id ev t :
  request_valid r →
  attempts_valid (update_attempt id (λ a, started_attempt a ev t) (ers_attempts r))
  ∧ routes_match (update_attempt id (λ a, started_attempt a ev t) (ers_attempts r))
  ∧ ∀ a o, a ∈ update_attempt id (λ a, started_attempt a ev t) (ers_attempts r) →
      att_outcome a = Some o → outcome_attempt_id o = att_id a.
Proof.
  intros (_ & Ha & Hr & Ho). split_and!.
  - intros a [(b & ? & ? & ->)|?]%elem_of_update_attempt; [done|auto].
  - intros a o [(b & ? & ? & ->)|?]%elem_of_update_attempt; [done|eauto].
  - intros a o [(b & ? & ? & ->)|?]%elem_of_update_attempt; [done|eauto].
Qed.

Lemma ended_valid r a o :
  request_valid r → NoDup (map att_id (ers_attempts r)) → a ∈ ers_attempts r →
  att_id a = outcome_attempt_id o → att_started a = true →
  rs_id (ap_route (att_plan a)) = outcome_route_id o →
  attempts_valid (update_attempt (outcome_attempt_id o) (λ a, ended_attempt a o) (ers_attempts r))
  ∧ routes_match (update_attempt (outcome_attempt_id o) (λ a, ended_attempt a o) (ers_attempts r))
  ∧ ∀ b p, b ∈ update_attempt (outcome_attempt_id o) (λ a, ended_attempt a o) (ers_attempts r) →
      att_outcome b = Some p → outcome_attempt_id p = att_id b.
Proof.
  intros (_ & Ha & Hr & Ho) Hnd Hin Hid Hst Hroute.
  assert (∀ b, b ∈ ers_attempts r → att_id b = outcome_attempt_id o → b = a) as Huniq.
  { intros b Hb Hbid. eapply attempt_unique; [done..|congruence]. }
  split_and!.
  - intros b [(c & Hc & Hcid & ->)|?]%elem_of_update_attempt; [|auto].
    rewrite (Huniq c) by done. by apply validate_attempt_ended; [apply Ha|].
  - intros b p [(c & Hc & Hcid & ->)|?]%elem_of_update_attempt; [|eauto].
    rewrite (Huniq c) by done. cbn. by intros [= <-].
  - intros b p [(c & Hc & Hcid & ->)|?]%elem_of_update_attempt; [|eauto].
    cbn. by intros [= <-].
Qed.

Lemma NoDup_flat_map_elem {A B} (f : A → list B) l x :
  NoDup (flat_map f l) → x ∈ l → NoDup (f x).
Proof.
  induction l as [|a l IH]; cbn; [by intros _ ?%not_elem_of_nil|].
  intros (Ha & _ & Hnd)%NoDup_app [->|Hx]%elem_of_cons; [done|]. by apply IH.
Qed.

Lemma valid_effects s : validate_lifecycle s = Ok tt → EffectsOK s.
Proof. rewrite validate_lifecycle_ok. intros (_ & H & _). by apply check_effects_ok. Qed.

Lemma valid_request_attempts s r :
  EffectsOK s → r ∈ effect_requests s → NoDup (map att_id (ers_attempts r)).
Proof.
  intros Hok Hr. pose proof (ok_attempts _ Hok) as H. unfold all_attempts in H.
  rewrite map_flat_map in H. by apply (NoDup_flat_map_elem (λ x, map att_id (ers_attempts x)) _ _ H).
Qed.

Lemma new_request_valid r : request_valid (new_request r).
Proof.
  split; [done|]. split; [intros a Ha|split; intros a o Ha _]; by apply not_elem_of_nil in Ha.
Qed.

Lemma requests_valid_step s e s' : requests_valid s → Step s e s' → requests_valid s'.
Proof.
  intros Hv Hst r. unfold effect_requests. rewrite (step_effects _ _ _ Hst).
  pose proof (valid_effects _ (step_pre _ _ _ Hst)) as Hok.
  pose proof (step_guards _ _ _ Hst) as Hg. unfold effect_guards in Hg. unfold effect_records.
  destruct (evt_body e) eqn:He; cbn [l_effect_requests]; try apply Hv;
    (specialize (Hg ltac:(unfold command_of; by rewrite He))).
  - intros [?| ->%list_elem_of_singleton]%elem_of_app; [by apply Hv|].
    apply new_request_valid.
  - destruct Hg as (q & Hq & _ & _ & Hcard). rewrite Hq. cbn [mbind option_bind].
    apply request_by_id_Some in Hq as [Hq _]. destruct (Hv q Hq) as (_ & Ha & Hr & Ho).
    apply requests_valid_update; [done|]. split; [done|]. cbn [ers_attempts with_attempts].
    split_and!.
    + intros a [?| ->%list_elem_of_singleton]%elem_of_app; [auto|done].
    + intros a o [?| ->%list_elem_of_singleton]%elem_of_app; [eauto|done].
    + intros a o [?| ->%list_elem_of_singleton]%elem_of_app; [eauto|done].
  - destruct Hg as (q & a & Hq & _ & _ & Hcard). rewrite Hq. cbn [mbind option_bind fst].
    apply containing_request_Some in Hq as (Hq & _).
    apply requests_valid_update; [done|]. split; [done|]. by apply started_valid, Hv.
  - destruct Hg as (q & Hq & _ & _ & _ & Hcard). rewrite Hq. cbn [mbind option_bind].
    apply request_by_id_Some in Hq as [Hq _].
    apply requests_valid_update; [done|]. split; [done|]. apply (Hv q Hq).
  - destruct Hg as (q & a & Hq & Ha & Hs & _ & Hroute & _ & Hcard). rewrite Hq. cbn [mbind option_bind].
    apply request_by_id_Some in Hq as [Hq _]. apply first_key in Ha as [Ha Hid].
    apply requests_valid_update; [done|]. split; [done|]. cbn [ers_attempts with_attempts].
    apply (ended_valid q a); [by apply Hv|by apply (valid_request_attempts s)|done..].
  - destruct Hg as (q & Hq & _ & _ & Hcard). rewrite Hq. cbn [mbind option_bind].
    apply request_by_id_Some in Hq as [Hq _].
    apply requests_valid_update; [done|]. split; [done|]. apply (Hv q Hq).
  - destruct Hg as (q & Hq & _ & _ & Hcard). rewrite Hq. cbn [mbind option_bind].
    apply request_by_id_Some in Hq as [Hq _].
    apply requests_valid_update; [done|]. split; [done|]. apply (Hv q Hq).
Qed.

Lemma reachable_requests_valid s : Reachable s → requests_valid s.
Proof.
  apply (reachable_ind requests_valid); [by intros ? ?%not_elem_of_nil|].
  intros s1 e s2 _. apply requests_valid_step.
Qed.

(** ** Ledgers only grow *)

Definition attempt_extends (a b : AttemptState) : Prop :=
  att_plan b = att_plan a
  ∧ (att_started a = true → att_started b = true ∧ att_started_event_id b = att_started_event_id a
                            ∧ att_started_at b = att_started_at a)
  ∧ ∀ o, att_outcome a = Some o → att_outcome b = Some o.

(** Every element keeps its position and is extended there. *)
Definition index_extends {A} (R : A → A → Prop) (l k : list A) : Prop :=
  ∀ i x, l !! i = Some x → ∃ y, k !! i = Some y ∧ R x y.

#[export] Instance index_extends_refl {A} (R : A → A → Prop) `{!Reflexive R} : Reflexive (index_extends R).
Proof. intros l i x Hx. eauto. Qed.
#[export] Instance index_extends_trans {A} (R : A → A → Prop) `{!Transitive R} :
  Transitive (index_extends R).
Proof.
  intros l k m Hlk Hkm i x Hx. destruct (Hlk i x Hx) as (y & Hy & Hxy).
  destruct (Hkm i y Hy) as (z & Hz & Hyz). exists z. split; [done|]. by transitivity y.
Qed.

#[export] Instance attempt_extends_refl : Reflexive attempt_extends.
Proof. intros a. by split_and!. Qed.
#[export] Instance attempt_extends_trans : Transitive attempt_extends.
Proof.
  intros a b c (Hp & Hs & Ho) (Hp' & Hs' & Ho'). split_and!; [congruence| |auto].
  intros H. destruct (Hs H) as (H1 & H2 & H3). destruct (Hs' H1) as (? & ? & ?).
  split_and!; congruence.
Qed.

Lemma index_extends_app {A} (R : A → A → Prop) `{!Reflexive R} l k : index_extends R l (l ++ k).
Proof. intros i x Hx. exists x. split; [by apply lookup_app_l_Some|done]. Qed.

Lemma index_extends_map {A} (R : A → A → Prop) (f : A → A) l :
  (∀ x, x ∈ l → R x (f x)) → index_extends R l (map f l).
Proof.
  intros Hf i x Hx. exists (f x). split; [|by eapply Hf, list_elem_of_lookup_2].
  change (map f l) with (f <$> l). by rewrite list_lookup_fmap, Hx.
Qed.

Definition request_extends (r q : EffectRequestState) : Prop :=
  ers_request q = ers_request r
  ∧ index_extends attempt_extends (ers_attempts r) (ers_attempts q)
  ∧ ers_no_attempt_dispositions r `prefix_of` ers_no_attempt_dispositions q
  ∧ ers_decode_outcomes r `prefix_of` ers_decode_outcomes q
  ∧ ∀ id, ers_accepted_decoded_outcome_id r = Some id → ers_accepted_decoded_outcome_id q = Some id.

#[export] Instance request_extends_refl : Reflexive request_extends.
Proof. intros r. by split_and!. Qed.
#[export] Instance request_extends_trans : Transitive request_extends.
Proof.
  intros a b c (H1 & H2 & H3 & H4 & H5) (K1 & K2 & K3 & K4 & K5).
  split_and!; [congruence|by etransitivity..|auto].
Qed.

(** Every list of a ledger of the extensions keeps what it has, in order. *)
Definition retention_extends (l k : RetentionLedger) : Prop :=
  l_direct_use_routes l `prefix_of` l_direct_use_routes k
  ∧ l_reconstruction_routes l `prefix_of` l_reconstruction_routes k
  ∧ l_consequence_evaluation_routes l `prefix_of` l_consequence_evaluation_routes k
  ∧ l_reacquisition_routes l `prefix_of` l_reacquisition_routes k
  ∧ l_reacquisition_scaffolds l `prefix_of` l_reacquisition_scaffolds k
  ∧ l_recovery_protocols l `prefix_of` l_recovery_protocols k
  ∧ l_retention_packages l `prefix_of` l_retention_packages k
  ∧ l_retrieval_policies l `prefix_of` l_retrieval_policies k
  ∧ l_retrieval_queries l `prefix_of` l_retrieval_queries k
  ∧ l_retrieval_results l `prefix_of` l_retrieval_results k
  ∧ l_reacquisition_requests l `prefix_of` l_reacquisition_requests k
  ∧ l_reacquisition_inquiry_links l `prefix_of` l_reacquisition_inquiry_links k
  ∧ l_recovery_observations l `prefix_of` l_recovery_observations k
  ∧ l_recovery_comparisons l `prefix_of` l_recovery_comparisons k.
Definition learning_extends (l k : LearningLedger) : Prop :=
  l_consolidation_checkpoints l `prefix_of` l_consolidation_checkpoints k
  ∧ l_consolidation_candidates l `prefix_of` l_consolidation_candidates k
  ∧ l_memory_patch_candidates l `prefix_of` l_memory_patch_candidates k
  ∧ l_reconsolidation_links l `prefix_of` l_reconsolidation_links k
  ∧ l_semantic_field_evaluations l `prefix_of` l_semantic_field_evaluations k
  ∧ l_representation_gaps l `prefix_of` l_representation_gaps k
  ∧ l_learned_probe_candidates l `prefix_of` l_learned_probe_candidates k
  ∧ l_probe_evaluations l `prefix_of` l_probe_evaluations k
  ∧ l_probe_admission_decisions l `prefix_of` l_probe_admission_decisions k.
Definition compression_extends (l k : CompressionLedger) : Prop :=
  l_binding_carrier_manifests l `prefix_of` l_binding_carrier_manifests k
  ∧ l_realized_history_derivations l `prefix_of` l_realized_history_derivations k
  ∧ l_compression_contracts l `prefix_of` l_compression_contracts k
  ∧ l_compression_validations l `prefix_of` l_compression_validations k
  ∧ l_exact_compression_licenses l `prefix_of` l_exact_compression_licenses k
  ∧ l_path_residues l `prefix_of` l_path_residues k
  ∧ l_compression_applications l `prefix_of` l_compression_applications k
  ∧ l_recovery_licenses l `prefix_of` l_recovery_licenses k
  ∧ l_retention_capability_links l `prefix_of` l_retention_capability_links k
  ∧ l_representation_successor_decisions l `prefix_of` l_representation_successor_decisions k
  ∧ l_representation_reopenings l `prefix_of` l_representation_reopenings k.
Definition project_extends (l k : ProjectLedger) : Prop :=
  l_project_anchors l `prefix_of` l_project_anchors k
  ∧ l_capability_limitations l `prefix_of` l_capability_limitations k
  ∧ l_question_contract_candidates l `prefix_of` l_question_contract_candidates k
  ∧ l_question_repertoire_decisions l `prefix_of` l_question_repertoire_decisions k
  ∧ l_method_binding_candidates l `prefix_of` l_method_binding_candidates k
  ∧ l_method_admission_decisions l `prefix_of` l_method_admission_decisions k
  ∧ l_capability_successor_candidates l `prefix_of` l_capability_successor_candidates k
  ∧ l_capability_frontiers l `prefix_of` l_capability_frontiers k
  ∧ l_implementation_goal_candidates l `prefix_of` l_implementation_goal_candidates k
  ∧ l_goal_admission_decisions l `prefix_of` l_goal_admission_decisions k
  ∧ l_implementation_goals l `prefix_of` l_implementation_goals k
  ∧ l_candidate_environments l `prefix_of` l_candidate_environments k
  ∧ l_development_evidence l `prefix_of` l_development_evidence k
  ∧ l_independent_reviews l `prefix_of` l_independent_reviews k
  ∧ l_project_successor_decisions l `prefix_of` l_project_successor_decisions k
  ∧ l_promotion_decisions l `prefix_of` l_promotion_decisions k
  ∧ l_recursive_cycle_checkpoints l `prefix_of` l_recursive_cycle_checkpoints k
  ∧ l_recursive_stop_dispositions l `prefix_of` l_recursive_stop_dispositions k.
Definition extension_extends (l k : ExtensionLedger) : Prop :=
  retention_extends (x_retention l) (x_retention k) ∧ learning_extends (x_learning l) (x_learning k)
  ∧ compression_extends (x_compression l) (x_compression k) ∧ project_extends (x_project l) (x_project k).

Ltac unfold_extends :=
  unfold extension_extends, retention_extends, learning_extends, compression_extends, project_extends in *.

#[export] Instance extension_extends_refl : Reflexive extension_extends.
Proof. intros l. unfold_extends. by split_and!. Qed.
#[export] Instance extension_extends_trans : Transitive extension_extends.
Proof. intros a b c. unfold_extends. intros H K. destruct_and!. split_and!; etransitivity; eassumption. Qed.

Lemma extension_plus_extends l k : extension_extends l (extension_plus l k).
Proof. unfold_extends. split_and!; apply prefix_app_r; reflexivity. Qed.

Record extends (s s' : InquiryState) : Prop := {
  ext_backlog : backlog_effects s `prefix_of` backlog_effects s';
  ext_plans : step_plans s `prefix_of` step_plans s';
  ext_requests : index_extends request_extends (effect_requests s) (effect_requests s');
  ext_claims : ∃ l, st_claims s' = claims_app (st_claims s) l;
  ext_warrant : ∃ l, st_warrant s' = warrant_app (st_warrant s) l;
  ext_cognition : ∃ l, st_cognition s' = cognition_app (st_cognition s) l;
  ext_extensions : extension_extends (st_extensions s) (st_extensions s');
}.

Lemma claims_app_nil l : claims_app l empty_claims = l.
Proof. destruct l. unfold claims_app. cbn. by rewrite !app_nil_r. Qed.
Lemma warrant_app_nil l : warrant_app l empty_warrant = l.
Proof. destruct l. unfold warrant_app. cbn. by rewrite !app_nil_r. Qed.
Lemma cognition_app_nil l : cognition_app l empty_cognition = l.
Proof. destruct l. unfold cognition_app. cbn. by rewrite !app_nil_r. Qed.
Lemma claims_app_assoc l k m : claims_app (claims_app l k) m = claims_app l (claims_app k m).
Proof. destruct l, k, m. unfold claims_app. cbn. by rewrite !app_assoc. Qed.
Lemma warrant_app_assoc l k m : warrant_app (warrant_app l k) m = warrant_app l (warrant_app k m).
Proof. destruct l, k, m. unfold warrant_app. cbn. by rewrite !app_assoc. Qed.
Lemma cognition_app_assoc l k m :
  cognition_app (cognition_app l k) m = cognition_app l (cognition_app k m).
Proof. destruct l, k, m. unfold cognition_app. cbn. by rewrite !app_assoc. Qed.

#[export] Instance extends_refl : Reflexive extends.
Proof.
  intros s. split; try done.
  - exists empty_claims. by rewrite claims_app_nil.
  - exists empty_warrant. by rewrite warrant_app_nil.
  - exists empty_cognition. by rewrite cognition_app_nil.
Qed.
#[export] Instance extends_trans : Transitive extends.
Proof.
  intros a b c [H1 H2 H3 [l4 H4] [l5 H5] [l6 H6] H7] [K1 K2 K3 [m4 K4] [m5 K5] [m6 K6] K7].
  split; [by etransitivity..| | | |by etransitivity].
  - exists (claims_app l4 m4). by rewrite K4, H4, claims_app_assoc.
  - exists (warrant_app l5 m5). by rewrite K5, H5, warrant_app_assoc.
  - exists (cognition_app l6 m6). by rewrite K6, H6, cognition_app_assoc.
Qed.

Lemma replace_request_extends s r q :
  EffectsOK s → r ∈ effect_requests s → request_extends r q →
  index_extends request_extends (effect_requests s) (replace_request s q).
Proof.
  intros Hok Hr Hq. apply index_extends_map. intros x Hx.
  destruct (ers_id x ==? ers_id q) eqn:E; [|done]. rewrite eqb_true in E.
  assert (x = r) as ->; [|done]. eapply (NoDup_map_inj ers_id); [apply Hok|done..|].
  rewrite E. unfold ers_id. by destruct Hq as [-> _].
Qed.

Lemma update_attempt_extends r a f id :
  NoDup (map att_id (ers_attempts r)) → a ∈ ers_attempts r → att_id a = id →
  attempt_extends a (f a) →
  request_extends r (with_attempts r (update_attempt id f (ers_attempts r))).
Proof.
  intros Hnd Ha Hid Hf. split_and!; try done. apply index_extends_map. intros b Hb.
  destruct (att_id b ==? id) eqn:E; [|done]. rewrite eqb_true in E.
  assert (b = a) as ->; [|done]. eapply attempt_unique; [done..|congruence].
Qed.

Lemma effect_records_extend s e s' :
  requests_valid s → Step s e s' → index_extends request_extends (effect_requests s) (effect_requests s').
Proof.
  intros Hv Hst. unfold effect_requests at 2. rewrite (step_effects _ _ _ Hst).
  pose proof (valid_effects _ (step_pre _ _ _ Hst)) as Hok.
  pose proof (step_guards _ _ _ Hst) as Hg. unfold effect_guards in Hg. unfold effect_records.
  destruct (evt_body e) eqn:He; cbn [l_effect_requests]; try done;
    (specialize (Hg ltac:(unfold command_of; by rewrite He))).
  - by apply index_extends_app, _.
  - destruct Hg as (q & Hq & _ & _ & _). rewrite Hq. cbn [mbind option_bind].
    apply request_by_id_Some in Hq as [Hq _]. apply (replace_request_extends s q); [done..|].
    split_and!; try done. by apply index_extends_app, _.
  - destruct Hg as (q & a & Hq & Hs & _). rewrite Hq. cbn [mbind option_bind fst].
    apply containing_request_Some in Hq as (Hq & Ha & Hid & _).
    apply (replace_request_extends s q); [done..|].
    apply (update_attempt_extends q a); [by apply (valid_request_attempts s)|done..|].
    destruct (Hv q Hq) as (_ & Hat & _).
    pose proof (validate_attempt_unstarted a (Hat a Ha) Hs) as Hno.
    split_and!; [done|congruence|]. rewrite Hno. done.
  - destruct Hg as (q & Hq & _). rewrite Hq. cbn [mbind option_bind].
    apply request_by_id_Some in Hq as [Hq _]. apply (replace_request_extends s q); [done..|].
    split_and!; try done. by apply prefix_app_r.
  - destruct Hg as (q & a & Hq & Ha & Hs & Hno & _). rewrite Hq. cbn [mbind option_bind].
    apply request_by_id_Some in Hq as [Hq _]. apply first_key in Ha as [Ha Hid].
    apply (replace_request_extends s q); [done..|].
    apply (update_attempt_extends q a); [by apply (valid_request_attempts s)|done..|].
    split_and!; [done..|congruence].
  - destruct Hg as (q & Hq & _). rewrite Hq. cbn [mbind option_bind].
    apply request_by_id_Some in Hq as [Hq _]. apply (replace_request_extends s q); [done..|].
    split_and!; try done. by apply prefix_app_r.
  - destruct Hg as (q & Hq & Hno & _). rewrite Hq. cbn [mbind option_bind].
    apply request_by_id_Some in Hq as [Hq _]. apply (replace_request_extends s q); [done..|].
    split_and!; try done. congruence.
Qed.

Lemma step_extends s e s' : requests_valid s → Step s e s' → extends s s'.
Proof.
  intros Hv Hst. split.
  - unfold backlog_effects at 2. rewrite (step_effects _ _ _ Hst). unfold effect_records.
    destruct (evt_body e); cbn [l_backlog_effects]; try done. by apply prefix_app_r.
  - unfold step_plans at 2. rewrite (step_effects _ _ _ Hst). unfold effect_records.
    destruct (evt_body e); cbn [l_step_plans]; try done. by apply prefix_app_r.
  - by apply (effect_records_extend s e).
  - eexists. apply (step_claims _ _ _ Hst).
  - eexists. apply (step_warrant _ _ _ Hst).
  - eexists. apply (step_cognition _ _ _ Hst).
  - rewrite (step_extensions _ _ _ Hst). apply extension_plus_extends.
Qed.

Lemma replay_extends es s s' : Reachable s → replay es s = Ok s' → extends s s'.
Proof.
  intros Hre Hr.
  refine (proj2 (proj2 (replay_ind s (λ _ t, requests_valid t ∧ extends s t) _ _ _ es s' Hr))).
  - by apply reachable_valid.
  - split; [by apply reachable_requests_valid|done].
  - intros _ t e t' _ [Hv Hext] Hst. split; [by eapply requests_valid_step|].
    transitivity t; [done|]. by apply (step_extends t e).
Qed.

(** C2: The log is append-only and attempts only move forward.  Continuing any
    reachable inquiry keeps every record of every ledger, those of the memory,
    learning, compression and project extensions included, in order; each request
    keeps its position, its attempts, dispositions and decodes, and once an
    attempt has start metadata or an outcome, or a request an accepted result,
    that value never changes. *)
Theorem replay_append_only es es' s s' :
  replay es initial_state = Ok s → replay es' s = Ok s' → extends s s'.
Proof. intros Hr. apply replay_extends. by exists es. Qed.

(** ** Batches of commands *)

Lemma apply_batch_replay cs s es s' : apply_batch cs s = Ok (es, s') → replay es s = Ok s'.
Proof.
  revert s es. induction cs as [|c cs IH]; intros s es; cbn [apply_batch].
  - by intros [= <- <-].
  - intros (new & _ & H)%bind_ok. apply bind_ok in H as (s1 & Hr & H).
    apply bind_ok in H as ([rest s2] & Hb & [= <- <-]). rewrite replay_app, Hr. cbn. by apply IH.
Qed.

Lemma scenario_reachable1 : Reachable Scenario.state1.
Proof. exists Scenario.log1. apply scenario_replay1. Qed.

Lemma scenario_replay :
  replay (Scenario.log1 ++ Scenario.log2 ++ Scenario.log3 ++ Scenario.log4) initial_state
  = Ok Scenario.state4.
Proof.
  rewrite replay_app, scenario_replay1. cbn [mbind result_bind].
  rewrite replay_app, scenario_replay2. cbn [mbind result_bind].
  rewrite replay_app, scenario_replay3. apply scenario_replay4.
Qed.

Lemma scenario_reachable : Reachable Scenario.state4.
Proof. eexists. apply scenario_replay. Qed.

Lemma replay_invariant_witness :
  validate_lifecycle Scenario.state4 = Ok tt ∧ st_sequence Scenario.state4 = 34%Z.
Proof.
  pose proof (replay_invariant _ _ scenario_replay) as (Hv & Hs & _).
  split; [exact Hv|rewrite Hs; reflexivity].
Defined.

Lemma replay_append_only_witness : extends Scenario.state1 Scenario.state2.
Proof. exact (replay_append_only _ _ _ _ scenario_replay1 scenario_replay2). Defined.
