(* ===== verification/StoreExample.v ===== *)
(** * A concrete codec and a stored inquiry

    The concrete run of Scenario, put through the event store: a codec that writes
    an event by its identity and reads it back from the run's log, decidable
    equality of states as model equality, and the operations of a program that
    stores the run in two appends with a snapshot between them.  The witnesses of
    the store's theorems are taken from it. *)

From S2P Require Import Prelude Digest Dumps Memory Retrieval Learning Compression Questions Project Model Claims Warrant Support Policy Planning Backlog Effects Probes Artifacts State Decide Evolve Scenario Serialization Store.

(** ** Equality of states is decidable *)

Definition pair_eq_dec {A B} (x y : A * B) :
  {x.1 = y.1} + {x.1 ≠ y.1} → {x.2 = y.2} + {x.2 ≠ y.2} → {x = y} + {x ≠ y}.
Proof. destruct x, y. cbn. intros [] []; [left|right|right|right]; congruence. Defined.

#[export] Instance json_eq_dec : EqDecision json.
Proof.
  refine (fix go x y : {x = y} + {x ≠ y} := _). decide equality.
  - apply Bool.bool_dec.
  - apply Z.eq_dec.
  - apply (pyfloat_eq_dec f f0).
  - apply String.string_dec.
  - apply (List.list_eq_dec go).
  - apply List.list_eq_dec. intros p q. apply pair_eq_dec; [apply String.string_dec|apply go].
Defined.
#[export] Instance InertPayload_eq_dec : EqDecision InertPayload.
Proof. solve_decision. Defined.
#[export] Instance BoundArgument_eq_dec : EqDecision BoundArgument.
Proof. solve_decision. Defined.
#[export] Instance Claim_eq_dec : EqDecision Claim.
Proof. solve_decision. Defined.
#[export] Instance Obligation_eq_dec : EqDecision Obligation.
Proof. solve_decision. Defined.
#[export] Instance Candidate_eq_dec : EqDecision Candidate.
Proof. solve_decision. Defined.
#[export] Instance Residual_eq_dec : EqDecision Residual.
Proof. solve_decision. Defined.
#[export] Instance ProbeEvent_eq_dec : EqDecision ProbeEvent.
Proof. solve_decision. Defined.
#[export] Instance PredictionSeal_eq_dec : EqDecision PredictionSeal.
Proof. solve_decision. Defined.
#[export] Instance LearnedProbeCandidate_eq_dec : EqDecision LearnedProbeCandidate.
Proof. solve_decision. Defined.
#[export] Instance EffectLedger_eq_dec : EqDecision EffectLedger.
Proof. solve_decision. Defined.
#[export] Instance ClaimLedger_eq_dec : EqDecision ClaimLedger.
Proof. solve_decision. Defined.
#[export] Instance WarrantLedger_eq_dec : EqDecision WarrantLedger.
Proof. solve_decision. Defined.
#[export] Instance CognitionLedger_eq_dec : EqDecision CognitionLedger.
Proof. solve_decision. Defined.
#[export] Instance RetentionLedger_eq_dec : EqDecision RetentionLedger.
Proof. solve_decision. Defined.
#[export] Instance LearningLedger_eq_dec : EqDecision LearningLedger.
Proof. solve_decision. Defined.
#[export] Instance CompressionLedger_eq_dec : EqDecision CompressionLedger.
Proof. solve_decision. Defined.
#[export] Instance ProjectLedger_eq_dec : EqDecision ProjectLedger.
Proof. solve_decision. Defined.
#[export] Instance ExtensionLedger_eq_dec : EqDecision ExtensionLedger.
Proof. solve_decision. Defined.
#[export] Instance InquiryState_eq_dec : EqDecision InquiryState.
Proof. solve_decision. Defined.

(** ** A codec for the events of one run *)

(** An event dumps to its kind, its schema version and its identity; a text is read
    as the event of the run that has this dump. *)
Definition dump_event (e : DomainEvent) : json :=
  JObject [("kind", JString (event_kind (evt_body e)));
           ("schema_version", JInt (event_schema_version (evt_body e)));
           ("event_id", JString (event_id e))].

Definition event_by_text (run : list DomainEvent) (text : string) : option DomainEvent :=
  first (λ e, canonical_json (dump_event e) ==? text) run.

(** A state dumps to its sequence, and is read back as the run's state there. *)
Definition dump_state (s : InquiryState) : json := JObject [("sequence", JInt (st_sequence s))].
Definition state_by_text (states : list InquiryState) (text : string) : option InquiryState :=
  first (λ s, canonical_json (dump_state s) ==? text) states.

Definition run_codec (run : list DomainEvent) (states : list InquiryState) : Pydantic := {|
  py_loads text := match event_by_text run text with
                   | Some e => Ok (dump_event e)
                   | None => raise ValueError "not a JSON document"
                   end;
  py_dump_event := dump_event;
  py_parse_event text := match event_by_text run text with
                         | Some e => Ok e
                         | None => raise ValidationError "not an event"
                         end;
  py_event_value e := PyModel [PyOther];
  py_dump_state := dump_state;
  py_parse_state text := match state_by_text states text with
                         | Some s => Ok s
                         | None => raise ValidationError "not a state"
                         end;
  py_state_value s := PyModel [PyOther];
  py_state_eq x y := bool_decide (x = y);
  py_parse_manifest text := raise ValidationError "not a manifest";
|}.

(** The run's texts are distinct, so its events serialize. *)
Definition texts (run : list DomainEvent) : list string := map (λ e, canonical_json (dump_event e)) run.

Lemma event_by_text_self run e :
  NoDup (texts run) → e ∈ run → event_by_text run (canonical_json (dump_event e)) = Some e.
Proof.
  unfold event_by_text, texts, first. induction run as [|x run IH]; [by intros _ ?%not_elem_of_nil|].
  intros Hn Hin. change (NoDup (canonical_json (dump_event x) :: map (λ e, canonical_json (dump_event e)) run)) in Hn.
  apply NoDup_cons in Hn as [Hx Hn]. cbn [List.find]. apply elem_of_cons in Hin as [->|Hin].
  - by rewrite (proj2 (eqb_true _ _)).
  - destruct (_ ==? _) eqn:E; [|by apply IH]. rewrite eqb_true in E. exfalso. apply Hx. rewrite E.
    apply elem_of_map. by exists e.
Qed.

Lemma run_codec_serializable run states e : NoDup (texts run) → e ∈ run → Serializable (run_codec run states) e.
Proof.
  intros Hn He. pose proof (event_by_text_self run e Hn He) as Ht. split.
  - eexists. split; [done|]. done.
  - unfold encode_event. cbn [run_codec py_loads py_parse_event py_dump_event]. by rewrite Ht.
  - unfold encode_event. cbn [run_codec py_loads py_parse_event py_dump_event]. by rewrite Ht.
Qed.

(** ** The stored run *)

Definition stored_run : list DomainEvent := Scenario.log1 ++ Scenario.log2.
Definition stored_codec : Pydantic := run_codec stored_run [Scenario.state1; Scenario.state2].

Lemma stored_texts_distinct : NoDup (texts stored_run).
Proof. apply (bool_decide_unpack _). vm_compute. exact I. Qed.

Lemma stored_serializable e : e ∈ stored_run → Serializable stored_codec e.
Proof. apply run_codec_serializable, stored_texts_distinct. Qed.
