(* ===== verification/StoreLog.v ===== *)
(** * The event store refines an append-only log

    The abstract store is one growing sequence of events per stream.  [Represents]
    relates a database to it; every operation of the store simulates one abstract
    append or nothing, reading gives back the abstract sequence, and rebuilding is
    replaying it, whatever the snapshot table holds. *)

From stdpp Require Import relations.
From S2P Require Import Prelude Digest Memory Learning Compression Model Claims Effects Probes Artifacts Retention Licensing Goals Extensions Decide State Evolve Scenario Serialization Store StoreExample Ledger Reachable.

(** ** The abstract log *)

Abbreviation Log := (gmap string (list DomainEvent)).

Definition stream_of (log : Log) (stream_id : string) : list DomainEvent := default [] (log !! stream_id).

Definition logged (log : Log) (e : DomainEvent) : Prop := ∃ stream_id, e ∈ stream_of log stream_id.

(** The events may follow what the stream holds: they belong to it, their
    identities are new in the whole log, and the inquiry accepts them. *)
Record appendable (log : Log) (stream_id : string) (events : list DomainEvent) : Prop := {
  apd_stream : ∀ e, e ∈ events → event_inquiry_id e = stream_id;
  apd_unique : NoDup (map event_id events);
  apd_fresh : ∀ e x, e ∈ events → logged log x → event_id x ≠ event_id e;
  apd_accepted : ∃ s, replay (stream_of log stream_id ++ events) initial_state = Ok s;
}.

Definition log_append (stream_id : string) (events : list DomainEvent) (log : Log) : Log :=
  if is_nil events then log else <[stream_id := stream_of log stream_id ++ events]> log.

(** One step of the abstract store. *)
Inductive log_step (log : Log) : Log → Prop :=
| LogAppend stream_id events :
    appendable log stream_id events → log_step log (log_append stream_id events log).

Lemma stream_of_append log st events st' :
  stream_of (log_append st events log) st' = if st' ==? st then stream_of log st ++ events else stream_of log st'.
Proof.
  unfold log_append, stream_of. destruct events as [|e events]; cbn [is_nil].
  - case_bool_decide as H; [by rewrite app_nil_r, H|done].
  - case_bool_decide as H; [by rewrite H, lookup_insert_eq|by rewrite lookup_insert_ne].
Qed.

(** ** The representation *)

Lemma filter_true {A} (p : A → bool) l : (∀ x, x ∈ l → p x = true) → List.filter p l = l.
Proof.
  induction l as [|x l IH]; intros H; cbn; [done|]. rewrite (H x) by left.
  f_equal. apply IH. intros y Hy. apply H. by right.
Qed.

Lemma filter_false {A} (p : A → bool) l : (∀ x, x ∈ l → p x = false) → List.filter p l = [].
Proof.
  induction l as [|x l IH]; intros H; cbn; [done|]. rewrite (H x) by left.
  apply IH. intros y Hy. apply H. by right.
Qed.

Section Represents.
Context (py : Pydantic).

(** The rows of a stream, and the stored events they decode to: the events in
    order, from the sequence after [start]. *)
Fixpoint rows_from (stream_id : string) (start : Z) (events : list DomainEvent) : list EventRow :=
  match events with
  | [] => []
  | e :: events => event_row py stream_id (start + 1) e :: rows_from stream_id (start + 1) events
  end.
Fixpoint stored_from (stream_id : string) (start : Z) (events : list DomainEvent) : list StoredEvent :=
  match events with
  | [] => []
  | e :: events => MkStoredEvent stream_id (start + 1) (Sha256.hexdigest (encode_event py e)) e
                   :: stored_from stream_id (start + 1) events
  end.

Record Represents (db : Database) (log : Log) : Prop := {
  rp_streams : db_streams db = (λ l, Z.of_nat (length l)) <$> log;
  rp_rows : ∀ st, List.filter (λ r, er_stream_id r ==? st) (db_events db) = rows_from st 0 (stream_of log st);
  rp_inquiry : ∀ st e, e ∈ stream_of log st → event_inquiry_id e = st;
  rp_serializable : ∀ e, logged log e → Serializable py e;
  rp_accepted : ∀ st, ∃ s, replay (stream_of log st) initial_state = Ok s;
}.

Lemma rows_from_app st start l l' :
  rows_from st start (l ++ l') = rows_from st start l ++ rows_from st (start + Z.of_nat (length l)) l'.
Proof.
  revert start. induction l as [|e l IH]; intros start; cbn [rows_from app length].
  - by rewrite Z.add_0_r.
  - rewrite IH. by replace (start + 1 + Z.of_nat (length l))%Z with (start + Z.of_nat (S (length l)))%Z by lia.
Qed.

Lemma stored_sequences st start l : map se_sequence (stored_from st start l) = seqZ (start + 1) (Z.of_nat (length l)).
Proof.
  revert start. induction l as [|e l IH]; intros start; [done|].
  cbn [stored_from map length]. rewrite IH, (seqZ_cons (start + 1)) by lia.
  f_equal. f_equal; lia.
Qed.

Lemma stored_events st start l : map se_event (stored_from st start l) = l.
Proof. revert start. induction l as [|e l IH]; intros start; [done|]. cbn. by rewrite IH. Qed.

Lemma rows_sequences st start l r : r ∈ rows_from st start l → (start < er_sequence r ≤ start + Z.of_nat (length l))%Z.
Proof.
  revert start. induction l as [|e l IH]; intros start; [by intros ?%not_elem_of_nil|].
  intros [->|Hr]%elem_of_cons; [cbn; lia|]. apply IH in Hr. cbn [length]. lia.
Qed.

Lemma rows_sorted st start l : StronglySorted (key_le er_sequence) (rows_from st start l).
Proof.
  revert start. induction l as [|e l IH]; intros start; cbn [rows_from]; constructor; [apply IH|].
  apply Forall_forall. intros r Hr%rows_sequences. unfold key_le, key_leb. cbn [event_row er_sequence].
  assert (compare (start + 1)%Z (er_sequence r) = Lt) as -> by (apply Z.compare_lt_iff; lia). done.
Qed.

(** Selecting the rows after a sequence, or up to one. *)
Lemma rows_after st start l n :
  (n ≤ length l)%nat →
  List.filter (λ r, (start + Z.of_nat n <? er_sequence r)%Z) (rows_from st start l)
  = rows_from st (start + Z.of_nat n) (drop n l).
Proof.
  revert start n. induction l as [|e l IH]; intros start n Hn; [by rewrite drop_nil|].
  cbn [rows_from List.filter event_row er_sequence]. destruct n as [|n]; cbn [drop length] in *.
  - rewrite Z.add_0_r. assert ((start <? start + 1)%Z = true) as -> by (apply Z.ltb_lt; lia).
    cbn [rows_from]. f_equal. apply filter_true. intros r Hr%rows_sequences. apply Z.ltb_lt. lia.
  - assert ((start + Z.of_nat (S n) <? start + 1)%Z = false) as -> by (apply Z.ltb_ge; lia).
    specialize (IH (start + 1)%Z n). replace (start + Z.of_nat (S n))%Z with (start + 1 + Z.of_nat n)%Z by lia.
    apply IH. lia.
Qed.

Lemma rows_upto st start l n :
  (n ≤ length l)%nat →
  List.filter (λ r, (er_sequence r <=? start + Z.of_nat n)%Z) (rows_from st start l)
  = rows_from st start (take n l).
Proof.
  revert start n. induction l as [|e l IH]; intros start n Hn; [by rewrite take_nil|].
  cbn [rows_from List.filter event_row er_sequence]. destruct n as [|n]; cbn [take length] in *.
  - assert ((start + 1 <=? start + Z.of_nat 0)%Z = false) as -> by (apply Z.leb_gt; lia).
    apply filter_false. intros r Hr%rows_sequences. apply Z.leb_gt. lia.
  - assert ((start + 1 <=? start + Z.of_nat (S n))%Z = true) as -> by (apply Z.leb_le; lia).
    cbn [rows_from]. f_equal. specialize (IH (start + 1)%Z n).
    replace (start + Z.of_nat (S n))%Z with (start + 1 + Z.of_nat n)%Z by lia. apply IH. lia.
Qed.

Lemma decode_event_row st n e :
  Serializable py e → event_inquiry_id e = st → (1 ≤ n)%Z →
  decode_row py (event_row py st n e) = Ok (MkStoredEvent st n (Sha256.hexdigest (encode_event py e)) e).
Proof.
  intros Hs He Hn. unfold decode_row, event_row. cbn [er_event_bytes er_event_digest er_event_id er_event_type
    er_event_schema_version er_stream_id er_sequence]. cbv zeta.
  rewrite (bool_decide_true (Sha256.hexdigest _ = _)) by done. cbn [negb raise_if]. unfold mbind at 1. cbn [result_bind].
  rewrite (decode_encode py e Hs). unfold mbind, result_bind. rewrite He, !bool_decide_true by done. cbn.
  assert ((n <? 1)%Z = false) as -> by (apply Z.ltb_ge; lia). done.
Qed.

Lemma traverse_rows st start l :
  (0 ≤ start)%Z → (∀ e, e ∈ l → Serializable py e ∧ event_inquiry_id e = st) →
  traverse (decode_row py) (rows_from st start l) = Ok (stored_from st start l).
Proof.
  revert start. induction l as [|e l IH]; intros start Hs Hl; [done|].
  cbn [rows_from stored_from traverse].
  destruct (Hl e) as [H1 H2]; [left|]. rewrite decode_event_row by (try done; lia). cbn.
  rewrite IH; [done|lia|]. intros x Hx. apply Hl. by right.
Qed.
Lemma filter_filter {A} (p q : A → bool) l :
  List.filter (λ x, p x && q x) l = List.filter q (List.filter p l).
Proof.
  induction l as [|x l IH]; cbn; [done|]. destruct (p x); cbn; [|done]. destruct (q x); by rewrite IH.
Qed.

Lemma rows_of_events st start l r :
  r ∈ rows_from st start l → ∃ e, e ∈ l ∧ er_event_id r = event_id e ∧ er_stream_id r = st.
Proof.
  revert start. induction l as [|e l IH]; intros start; [by intros ?%not_elem_of_nil|].
  intros [->|Hr]%elem_of_cons; [exists e; split_and!; [left|done..]|].
  destruct (IH _ Hr) as (x & Hx & H). exists x. split; [by right|done].
Qed.

Lemma events_of_rows st start l e :
  e ∈ l → ∃ r, r ∈ rows_from st start l ∧ er_event_id r = event_id e.
Proof.
  revert start. induction l as [|x l IH]; intros start; [by intros ?%not_elem_of_nil|].
  intros [->|He]%elem_of_cons; [eexists; split; [left|done]|].
  destruct (IH (start + 1)%Z He) as (r & Hr & H). exists r. split; [by right|done].
Qed.

(** *** Reading a represented database *)

Section Read.
Context (db : Database) (log : Log) (Hrp : Represents db log).

Lemma represented_version st : stream_version db st = Z.of_nat (length (stream_of log st)).
Proof.
  unfold stream_version, stream_of. rewrite (rp_streams _ _ Hrp), lookup_fmap. by destruct (log !! st).
Qed.

Lemma represented_stream st : db_streams db !! st = None ↔ log !! st = None.
Proof. rewrite (rp_streams _ _ Hrp), lookup_fmap. by destruct (log !! st). Qed.

Lemma represented_all st : select_events db st (λ _, true) = rows_from st 0 (stream_of log st).
Proof.
  unfold select_events. rewrite filter_filter, (rp_rows _ _ Hrp), filter_true by done. apply sort_by_id, rows_sorted.
Qed.

Lemma represented_after st n :
  (n ≤ length (stream_of log st))%nat →
  select_events db st (λ k, Z.of_nat n <? k)%Z = rows_from st (Z.of_nat n) (drop n (stream_of log st)).
Proof.
  intros Hn. unfold select_events. rewrite filter_filter, (rp_rows _ _ Hrp).
  pose proof (rows_after st 0 _ n Hn) as H. change (0 + Z.of_nat n)%Z with (Z.of_nat n) in H. rewrite H. apply sort_by_id, rows_sorted.
Qed.

Lemma represented_upto st n :
  (n ≤ length (stream_of log st))%nat →
  select_events db st (λ k, k <=? Z.of_nat n)%Z = rows_from st 0 (take n (stream_of log st)).
Proof.
  intros Hn. unfold select_events. rewrite filter_filter, (rp_rows _ _ Hrp).
  pose proof (rows_upto st 0 _ n Hn) as H. change (0 + Z.of_nat n)%Z with (Z.of_nat n) in H. rewrite H. apply sort_by_id, rows_sorted.
Qed.

Lemma represented_decoded st n l :
  (0 ≤ n)%Z → (∀ e, e ∈ l → e ∈ stream_of log st) →
  traverse (decode_row py) (rows_from st n l) = Ok (stored_from st n l).
Proof.
  intros Hn Hl. apply traverse_rows; [done|]. intros e He%Hl. split; [|by apply (rp_inquiry _ _ Hrp)].
  apply (rp_serializable _ _ Hrp). by exists st.
Qed.

Lemma row_logged r : r ∈ db_events db → ∃ e, logged log e ∧ er_event_id r = event_id e.
Proof.
  intros Hr. pose proof (rp_rows _ _ Hrp (er_stream_id r)) as H.
  assert (r ∈ rows_from (er_stream_id r) 0 (stream_of log (er_stream_id r))) as Hin.
  { rewrite <- H. apply elem_of_lfilter. split; [done|by apply eqb_true]. }
  destruct (rows_of_events _ _ _ _ Hin) as (e & He & Hid & _). exists e. split; [by eexists|done].
Qed.

Lemma logged_row e : logged log e → ∃ r, r ∈ db_events db ∧ er_event_id r = event_id e.
Proof.
  intros [st He]. destruct (events_of_rows st 0 _ _ He) as (r & Hr & Hid). exists r. split; [|done].
  rewrite <- (rp_rows _ _ Hrp) in Hr. by apply elem_of_lfilter in Hr as [Hr _].
Qed.
End Read.
End Represents.

(** ** Sequences of accepted events *)

Lemma replay_sequence es s :
  replay es initial_state = Ok s →
  st_sequence s = Z.of_nat (length es)
  ∧ (∀ st, es ≠ [] → (∀ e, e ∈ es → event_inquiry_id e = st) → st_inquiry_id s = Some st).
Proof.
  intros Hr. destruct (replay_ind initial_state
    (λ es s, st_sequence s = Z.of_nat (length es) ∧ identity_fixed es s) initial_valid) with (es := es) (s := s)
    as (_ & Hlen & Hid); [done| |done|].
  { intros es' s1 e s2 _ [Hlen Hid] Hst. split; [|by eapply identity_fixed_step].
    rewrite (step_sequence _ _ _ Hst), Hlen, length_app. cbn. lia. }
  split; [done|]. intros st Hne Hst. destruct es as [|e es]; [done|].
  destruct Hid as (ma & po & cx & _ & _ & -> & _). f_equal. apply Hst. left.
Qed.

(** ** Appending *)

Lemma admit_events_replay py art db st committed events s s' :
  admit_events py art db st committed events s = Ok s' → replay events s = Ok s'.
Proof.
  revert s. induction events as [|e events IH]; intros s; [done|]. cbn.
  rewrite seq_ok, !bind_ok. intros (_ & s1 & He & H). exists s1. split; [done|by apply IH].
Qed.

Lemma insert_event_ok r db db' :
  insert_event r db = Ok db' →
  db' = with_events (λ l, l ++ [r]) db ∧ ∀ x, x ∈ db_events db → er_event_id x ≠ er_event_id r.
Proof.
  unfold insert_event. rewrite raise_if_bind, any_false. intros [Hf [= <-]]. split; [done|].
  intros x Hx. specialize (Hf x Hx). rewrite orb_false_iff, eqb_false in Hf. apply Hf.
Qed.

Lemma insert_events_ok py st events n db db' :
  insert_events py st n events db = Ok db' →
  db' = with_events (λ l, l ++ rows_from py st n events) db
  ∧ ∀ x e, x ∈ db_events db → e ∈ events → er_event_id x ≠ event_id e.
Proof.
  revert n db. induction events as [|e events IH]; intros n db; cbn [insert_events rows_from].
  - intros [= <-]. split; [by destruct db; unfold with_events; cbn; rewrite app_nil_r|].
    by intros x e _ ?%not_elem_of_nil.
  - rewrite bind_ok. intros (db1 & H1 & H2). apply insert_event_ok in H1 as [-> Hf].
    apply IH in H2 as [-> Hx]. split.
    + unfold with_events. cbn. by rewrite <- app_assoc.
    + intros x y Hin [->|Hy]%elem_of_cons; [by apply Hf|]. apply Hx; [|done].
      cbn. apply elem_of_app. by left.
Qed.

Lemma filter_rows_from py st st' n events :
  List.filter (λ r, er_stream_id r ==? st') (rows_from py st n events)
  = if st' ==? st then rows_from py st n events else [].
Proof.
  case_bool_decide as H.
  - subst st'. apply filter_true. intros r Hr. destruct (rows_of_events py _ _ _ _ Hr) as (e & _ & _ & He).
    by apply eqb_true.
  - apply filter_false. intros r Hr. destruct (rows_of_events py _ _ _ _ Hr) as (e & _ & _ & He).
    apply eqb_false. congruence.
Qed.

Section Append.
Context (py : Pydantic) (art : option ArtifactStore) (db : Database) (log : Log) (Hrp : Represents py db log).

(** The tables after the rows are in and the version is moved. *)
Lemma represents_append st events db' :
  (∀ e, e ∈ events → Serializable py e) → (∀ e, e ∈ events → event_inquiry_id e = st) →
  (∃ s, replay (stream_of log st ++ events) initial_state = Ok s) → events ≠ [] →
  db_streams db' = <[st := Z.of_nat (length (stream_of log st ++ events))]> (db_streams db) →
  db_events db' = db_events db ++ rows_from py st (Z.of_nat (length (stream_of log st))) events →
  Represents py db' (log_append st events log).
Proof.
  intros Hser Hst Hacc Hne Hs He. split.
  - rewrite Hs, (rp_streams _ _ _ Hrp). unfold log_append. destruct events; [done|]. cbn [is_nil].
    by rewrite fmap_insert.
  - intros st'. rewrite He, List.filter_app, (rp_rows _ _ _ Hrp), filter_rows_from, stream_of_append.
    case_bool_decide as H; [|by rewrite app_nil_r]. subst st'. by rewrite rows_from_app.
  - intros st' e. rewrite stream_of_append. case_bool_decide as H; [|apply (rp_inquiry _ _ _ Hrp)].
    subst st'. rewrite elem_of_app. intros [Hin|Hin]; [by apply (rp_inquiry _ _ _ Hrp)|by apply Hst].
  - intros e [st' Hin]. rewrite stream_of_append in Hin. case_bool_decide as H.
    + apply elem_of_app in Hin as [Hin|Hin]; [apply (rp_serializable _ _ _ Hrp); by exists st|by apply Hser].
    + apply (rp_serializable _ _ _ Hrp). by exists st'.
  - intros st'. rewrite stream_of_append. case_bool_decide as H; [done|apply (rp_accepted _ _ _ Hrp)].
Qed.

Lemma fold_committed_ok st s :
  fold_committed_stream py art db st (stream_version db st) = Ok s → replay (stream_of log st) initial_state = Ok s.
Proof.
  unfold fold_committed_stream. rewrite (represented_all _ _ _ Hrp), (represented_decoded _ _ _ Hrp) by done.
  rewrite bind_ok. intros (l & [= <-] & H). rewrite raise_if_bind, seq_ok, bind_ok in H.
  destruct H as (_ & _ & s' & Hr & H). rewrite !raise_if_bind in H. destruct H as (_ & _ & [= ->]).
  rewrite stored_events in Hr. unfold recast in Hr. destruct (replay _ _); [done|]. by destruct (_ ==? _).
Qed.

(** A committed append is one abstract append. *)
Lemma append_ok st expected events v db' :
  (∀ e, e ∈ events → Serializable py e) →
  append py art db st expected events = Ok (v, db') →
  expected = Z.of_nat (length (stream_of log st)) ∧ v = (expected + Z.of_nat (length events))%Z
  ∧ appendable log st events ∧ Represents py db' (log_append st events log)
  ∧ db_snapshots db' = db_snapshots db ∧ db_checkpoints db' = db_checkpoints db.
Proof.
  intros Hser H. unfold append in H. cbv zeta in H.
  rewrite !raise_if_bind, seq_ok, raise_if_bind, any_false, nuniq_false, negb_false_iff, Z.eqb_eq in H.
  destruct H as (_ & Hst & Hnd & _ & Hexp & H). unfold commit_events in H. rewrite bind_ok in H. destruct H as (c & Hc & H).
  rewrite bind_ok in H. destruct H as (s & Hs & H). rewrite bind_ok in H. destruct H as (db1 & H1 & H).
  rewrite bind_ok in H. destruct H as (db2 & H2 & H). rewrite seq_ok in H. destruct H as (_ & [= <- <-]).
  apply fold_committed_ok in Hc. apply admit_events_replay in Hs. apply insert_events_ok in H1 as [-> Hf].
  rewrite (represented_version _ _ _ Hrp) in *.
  assert (appendable log st events) as Happ.
  { split; [|done| |].
    - intros e He. specialize (Hst e He). by rewrite neqb_false in Hst.
    - intros e x He Hx. destruct (logged_row _ _ _ Hrp x Hx) as (r & Hr & <-). apply (Hf r e); [|done].
      by destruct (_ && _).
    - exists s. rewrite replay_app, Hc. exact Hs. }
  split; [lia|]. split; [lia|]. split; [done|]. destruct events as [|e events].
  - injection H2 as <-. cbn [is_nil negb] in *. rewrite andb_false_r. cbn [rows_from insert_events].
    unfold with_events, log_append. cbn. rewrite app_nil_r. by destruct db.
  - cbn [is_nil negb] in H2. rewrite andb_true_r in H2. unfold update_version in H2. rewrite raise_if_bind in H2.
    destruct H2 as [_ [= <-]]. split_and!; [|by destruct (is_none _)..].
    apply (represents_append st (e :: events)); try apply Happ; [done..| |].
    + rewrite length_app, Nat2Z.inj_add. cbn. destruct (is_none _); cbn; [by rewrite insert_insert_eq|done].
    + by destruct (is_none _).
Qed.
End Append.

(** ** Operations *)

(** What a program does with the store; the artifact directory is the one at the
    time of the operation. *)
Inductive StoreOp : Type :=
| OpAppend (art : option ArtifactStore) (stream_id : string) (expected_sequence : Z) (events : list DomainEvent)
| OpSnapshot (art : option ArtifactStore) (stream_id : string) (state : InquiryState)
| OpCheckpoint (name schema_version stream_id : string) (sequence : Z) (payload : string)
| OpOpen (journal_mode : string).

Definition op_events (op : StoreOp) : list DomainEvent :=
  match op with OpAppend _ _ _ events => events | _ => [] end.

Definition run_op (py : Pydantic) (db : Database) (op : StoreOp) : Database :=
  match op with
  | OpAppend art st n events => committed_db db (append py art db st n events)
  | OpSnapshot art st state => committed_db db (save_snapshot py art db st state)
  | OpCheckpoint name schema st n payload => committed_db db (save_projection_checkpoint db name schema st n payload)
  | OpOpen mode => match bootstrap mode db with Ok db' => db' | Raise _ => db end
  end.

Definition run_ops (py : Pydantic) (ops : list StoreOp) (db : Database) : Database := foldl (run_op py) db ops.

Lemma represents_tables py db db' log :
  db_streams db' = db_streams db → db_events db' = db_events db → Represents py db log → Represents py db' log.
Proof. intros Hs He [H1 H2 H3 H4 H5]. split; rewrite ?Hs, ?He; done. Qed.

Lemma represents_empty py : Represents py empty_database ∅.
Proof.
  split.
  - by rewrite fmap_empty.
  - done.
  - intros st e. unfold stream_of. rewrite lookup_empty. by intros ?%not_elem_of_nil.
  - intros e [st He]. unfold stream_of in He. rewrite lookup_empty in He. by apply not_elem_of_nil in He.
  - intros st. unfold stream_of. rewrite lookup_empty. by eexists.
Qed.

Lemma store_snapshot_tables r db db' :
  store_snapshot r db = Ok db' → db_streams db' = db_streams db ∧ db_events db' = db_events db.
Proof.
  unfold store_snapshot. cbv zeta. destruct (first _ _) as [x|]; [|by intros [= <-]].
  destruct (mem _ _); [by intros [= <-]|]. rewrite !raise_if_bind. by intros (_ & _ & [= <-]).
Qed.

Lemma save_snapshot_tables py art db st s r db' :
  save_snapshot py art db st s = Ok (r, db') → db_streams db' = db_streams db ∧ db_events db' = db_events db.
Proof.
  unfold save_snapshot. cbv zeta. rewrite !raise_if_bind, seq_ok, bind_ok.
  intros (_ & _ & _ & stream & _ & H). rewrite bind_ok in H. destruct H as (x & _ & H).
  rewrite raise_if_bind, bind_ok in H. destruct H as (_ & d & _ & H). rewrite bind_ok in H.
  destruct H as (db1 & H & [= _ <-]). by apply store_snapshot_tables in H.
Qed.

Lemma save_checkpoint_tables db name schema st n payload r db' :
  save_projection_checkpoint db name schema st n payload = Ok (r, db') →
  db_streams db' = db_streams db ∧ db_events db' = db_events db.
Proof.
  unfold save_projection_checkpoint. cbv zeta. rewrite !raise_if_bind, bind_ok.
  intros (_ & _ & db1 & H & [= _ <-]). destruct (first _ _) as [x|]; [|by injection H as <-].
  rewrite raise_if_bind in H. by destruct H as [_ [= <-]].
Qed.

Lemma bootstrap_tables mode db db' :
  bootstrap mode db = Ok db' → db_streams db' = db_streams db ∧ db_events db' = db_events db.
Proof.
  unfold bootstrap. cbv zeta. rewrite !raise_if_bind. intros (_ & _ & [= <-]). by destruct (_ =? _)%Z.
Qed.

(** One operation is one abstract append, or nothing. *)
Lemma run_op_simulates py db log op :
  Represents py db log → (∀ e, e ∈ op_events op → Serializable py e) →
  ∃ log', rtc log_step log log' ∧ Represents py (run_op py db op) log'.
Proof.
  intros Hrp Hser. destruct op as [art st n events|art st s|name schema st n payload|mode]; cbn [run_op op_events] in *.
  - destruct (append py art db st n events) as [[v db']|x] eqn:H; cbn.
    + destruct (append_ok py art db log Hrp st n events v db' Hser H) as (_ & _ & Ha & Hr & _).
      exists (log_append st events log). split; [|done]. by apply rtc_once, LogAppend.
    + exists log. by split; [apply rtc_refl|].
  - exists log. split; [apply rtc_refl|]. destruct (save_snapshot _ _ _ _ _) as [[r db']|x] eqn:H; cbn; [|done].
    apply save_snapshot_tables in H as [Hs He]. by eapply represents_tables.
  - exists log. split; [apply rtc_refl|]. destruct (save_projection_checkpoint _ _ _ _ _ _) as [[r db']|x] eqn:H; cbn; [|done].
    apply save_checkpoint_tables in H as [Hs He]. by eapply represents_tables.
  - exists log. split; [apply rtc_refl|]. destruct (bootstrap _ _) as [db'|x] eqn:H; [|done].
    apply bootstrap_tables in H as [Hs He]. by eapply represents_tables.
Qed.

(** ** Reading back *)

(** What [load_stream] owes a caller: the abstract events after the sequence. *)
Definition loaded (py : Pydantic) (art : option ArtifactStore) (log : Log) (st : string) (n : Z) :
    result StreamSlice :=
  let events := stored_from py st n (drop (Z.to_nat n) (stream_of log st)) in
  if (n <? 0)%Z then raise ValueError "after sequence cannot be negative"
  else if (Z.of_nat (length (stream_of log st)) <? n)%Z
  then raise IntegrityError "requested events beyond stream version"
  else validate_artifacts art (stored_value py events);;
       raise_if (negb (is_identifier st)) ValidationError "stream id is not an identifier";;
       Ok (MkStreamSlice st (Z.of_nat (length (stream_of log st))) events).

Lemma load_stream_loaded py art db log st n :
  Represents py db log → load_stream py art db st n = loaded py art log st n.
Proof.
  intros Hrp. unfold load_stream, loaded. cbv zeta. rewrite (represented_version _ _ _ Hrp).
  destruct (n <? 0)%Z eqn:Hn; [done|]. apply Z.ltb_ge in Hn. cbn [raise_if].
  destruct (_ <? n)%Z eqn:Hl; [done|]. apply Z.ltb_ge in Hl.
  destruct (Z_of_nat_complete n Hn) as [k ->]. rewrite Nat2Z.id. cbn [mbind result_bind].
  rewrite (represented_after _ _ _ Hrp) by lia.
  rewrite (represented_decoded _ _ _ Hrp) by (try lia; intros e He; rewrite <- (take_drop k (stream_of log st)); apply elem_of_app; by right). cbn [mbind result_bind].
  destruct (validate_artifacts _ _) as [[]|]; [|done]. cbn [mbind result_bind].
  rewrite (proj2 (neqb_false _ _)); [done|]. rewrite stored_sequences, length_drop. f_equal. lia.
Qed.

Lemma log_steps_grow log log' st :
  rtc log_step log log' → stream_of log st `prefix_of` stream_of log' st.
Proof.
  induction 1 as [log|log log1 log2 [st' events _] _ IH]; [done|]. etrans; [|exact IH].
  rewrite stream_of_append. case_bool_decide as H; [|done]. subst st'. by apply prefix_app_r.
Qed.

Lemma run_ops_simulates py ops db log :
  Represents py db log → (∀ op e, op ∈ ops → e ∈ op_events op → Serializable py e) →
  ∃ log', rtc log_step log log' ∧ Represents py (run_ops py ops db) log'.
Proof.
  revert db log. induction ops as [|op ops IH]; intros db log Hrp Hser; [by exists log|].
  destruct (run_op_simulates py db log op Hrp) as (log1 & H1 & Hrp1); [intros e; apply Hser; left|].
  destruct (IH _ _ Hrp1) as (log2 & H2 & Hrp2); [intros o e Ho; apply Hser; by right|].
  exists log2. split; [by etrans|done].
Qed.

(** *** The stored run *)

Definition stored_ops : list StoreOp :=
  [OpOpen "wal"; OpAppend None "inq" 0 Scenario.log1; OpSnapshot None "inq" Scenario.state1].
Definition further_ops : list StoreOp :=
  [OpAppend None "inq" 8 Scenario.log2; OpAppend None "inq" 0 Scenario.log1;
   OpCheckpoint "projection" "1" "inq" 3 "payload"].

Lemma stored_ops_serialize op e :
  op ∈ stored_ops ++ further_ops → e ∈ op_events op → Serializable stored_codec e.
Proof.
  intros Ho He. apply stored_serializable. unfold stored_run. apply elem_of_app.
  repeat (apply elem_of_cons in Ho as [->|Ho]; [cbn [op_events] in He; try (by left + by right); by apply not_elem_of_nil in He|]).
  by apply not_elem_of_nil in Ho.
Qed.

Lemma first_appendable : appendable ∅ "inq" Scenario.log1.
Proof.
  split.
  - apply Forall_forall. repeat (constructor; [reflexivity|]). constructor.
  - apply (bool_decide_unpack _). vm_compute. exact I.
  - intros e x _ [st Hx]. unfold stream_of in Hx. rewrite lookup_empty in Hx. by apply not_elem_of_nil in Hx.
  - exists Scenario.state1. unfold stream_of. rewrite lookup_empty. exact scenario_replay1.
Qed.

(** C3: The event store is an append-only log.  From an empty file, whatever
    sequence of appends, snapshots, checkpoints and reopenings a program runs
    (failures included, artifact directories of any content), there is an abstract
    log, built only by appends of events that belong to their stream, are new in
    the whole log and are accepted by the inquiry, that the tables represent row by
    row; every stream loads as exactly that sequence; and any further operations
    only extend each stream. *)
Theorem store_refines_log py ops ops' :
  (∀ op e, op ∈ ops ++ ops' → e ∈ op_events op → Serializable py e) →
  ∃ log log', rtc log_step ∅ log ∧ rtc log_step log log'
    ∧ Represents py (run_ops py ops empty_database) log
    ∧ Represents py (run_ops py (ops ++ ops') empty_database) log'
    ∧ (∀ st, stream_of log st `prefix_of` stream_of log' st)
    ∧ ∀ art st n, load_stream py art (run_ops py (ops ++ ops') empty_database) st n = loaded py art log' st n.
Proof.
  intros Hser.
  destruct (run_ops_simulates py ops empty_database ∅) as (log & H1 & R1); [apply represents_empty| |].
  { intros op e Ho. apply Hser, elem_of_app. by left. }
  destruct (run_ops_simulates py ops' _ log R1) as (log' & H2 & R2).
  { intros op e Ho. apply Hser, elem_of_app. by right. }
  assert (run_ops py (ops ++ ops') empty_database = run_ops py ops' (run_ops py ops empty_database)) as E
    by apply foldl_app.
  exists log, log'. rewrite E. split_and!; try done.
  - intros st. by apply log_steps_grow.
  - intros art st n. by apply load_stream_loaded.
Qed.

Lemma store_refines_log_witness :
  ∃ log log', rtc log_step ∅ log ∧ rtc log_step log log'
    ∧ Represents stored_codec (run_ops stored_codec stored_ops empty_database) log
    ∧ Represents stored_codec (run_ops stored_codec (stored_ops ++ further_ops) empty_database) log'.
Proof.
  destruct (store_refines_log stored_codec stored_ops further_ops stored_ops_serialize)
    as (log & log' & H1 & H2 & H3 & H4 & _).
  exists log, log'. exact (conj H1 (conj H2 (conj H3 H4))).
Defined.

(** ** Appending, exactly *)

(** The event states no fact about another stream or about a prefix digest. *)
Definition plain (e : DomainEvent) : bool :=
  match evt_body e with
  | Extended (RetentionFact (ReacquisitionRequested _)) | Extended (RetentionFact (ReacquisitionInquiryLinked _))
  | Extended (RetentionFact (RecoveryObservationRecorded _))
  | Extended (CompressionFact (RealizedHistoryDerivationRecorded _)) => false
  | _ => true
  end.

Lemma plain_saga py art db st e c : plain e = true → validate_saga py art db st e c = Ok tt.
Proof.
  unfold plain, validate_saga. destruct (evt_body e); try done. destruct event as [x|x|x|x]; try done; by destruct x.
Qed.

Lemma admit_plain py art db st c events s s' :
  forallb plain events = true → replay events s = Ok s' → admit_events py art db st c events s = Ok s'.
Proof.
  revert s. induction events as [|e events IH]; intros s; [done|]. cbn. rewrite andb_true_iff, bind_ok.
  intros [Hp Hps] (s1 & He & H). rewrite plain_saga by done. unfold mbind at 1, result_bind at 1.
  rewrite He. cbn. by apply IH.
Qed.

Lemma insert_events_total py st events n db :
  NoDup (map event_id events) →
  (∀ x e, x ∈ db_events db → e ∈ events → er_event_id x ≠ event_id e) →
  (∀ x, x ∈ db_events db → er_stream_id x = st → er_sequence x ≤ n)%Z →
  ∃ db', insert_events py st n events db = Ok db'.
Proof.
  revert n db. induction events as [|e events IH]; intros n db Hn Hid Hseq; [by eexists|].
  change (NoDup (event_id e :: map event_id events)) in Hn. apply NoDup_cons in Hn as [He Hn]. cbn [insert_events]. unfold insert_event at 1.
  rewrite (proj2 (any_false _ _)).
  - cbn [raise_if]. unfold mbind, result_bind at 1. apply IH; [done| |].
    + intros x y Hx Hy. cbn in Hx. apply elem_of_app in Hx as [Hx|Hx]; [by apply Hid; [|right]|].
      apply list_elem_of_singleton in Hx as ->. cbn. intros E. apply He. rewrite E. apply elem_of_map. by exists y.
    + intros x Hx Hst. cbn in Hx. apply elem_of_app in Hx as [Hx|Hx]; [specialize (Hseq x Hx Hst); lia|].
      apply list_elem_of_singleton in Hx as ->. cbn. lia.
  - intros x Hx. rewrite orb_false_iff, andb_false_iff, !eqb_false, Z.eqb_neq. cbn [er_event_id er_stream_id er_sequence event_row].
    split; [by apply Hid; [|left]|]. destruct (er_stream_id x ==? st) eqn:E; [rewrite eqb_true in E; right|left; by rewrite eqb_false in E].
    specialize (Hseq x Hx E). lia.
Qed.

Lemma fold_committed_total py art db log st s :
  Represents py db log → replay (stream_of log st) initial_state = Ok s →
  validate_artifacts art (stored_value py (stored_from py st 0 (stream_of log st))) = Ok tt →
  fold_committed_stream py art db st (stream_version db st) = Ok s.
Proof.
  intros Hrp Hs Hart. destruct (replay_sequence _ _ Hs) as [Hlen Hinq]. unfold fold_committed_stream.
  rewrite (represented_all _ _ _ Hrp), (represented_decoded _ _ _ Hrp), (represented_version _ _ _ Hrp) by done.
  cbn [mbind result_bind]. 
  assert ((map se_sequence (stored_from py st 0 (stream_of log st))
           ==? seqZ 1 (Z.of_nat (length (stream_of log st)))) = true) as -> by (apply eqb_true, stored_sequences).
  cbn [negb raise_if mbind result_bind].
  rewrite Hart, stored_events, Hs. cbn [mbind result_bind recast].
  assert ((st_sequence s ==? Z.of_nat (length (stream_of log st))) = true) as -> by by apply eqb_true.
  cbn [negb raise_if mbind result_bind]. destruct (stream_of log st) as [|e l] eqn:E; [done|].
  rewrite (Hinq st); [|done|intros x Hx; apply (rp_inquiry _ _ _ Hrp); by rewrite E].
  by rewrite (proj2 (eqb_true (Some st) (Some st))), andb_false_r.
Qed.

(** An append of appendable events passes the guards that precede the version check. *)
Lemma append_guards py art db log st expected events :
  Represents py db log → appendable log st events → (0 ≤ expected)%Z →
  validate_artifacts art (batch_value py events) = Ok tt →
  append py art db st expected events
  = (raise_if (negb (Z.of_nat (length (stream_of log st)) =? expected)%Z)
       OptimisticConcurrencyError "stream is not at the expected sequence";;
     commit_events py art db st events).
Proof.
  intros Hrp Ha Hpos Hbatch. unfold append.
  assert ((expected <? 0)%Z = false) as -> by (apply Z.ltb_ge; lia). cbn [raise_if mbind result_bind].
  rewrite (proj2 (any_false _ _)); [|intros e He; apply neqb_false; by apply (apd_stream _ _ _ Ha)].
  rewrite (proj2 (uniq_true _)) by apply Ha. cbn [negb raise_if mbind result_bind]. rewrite Hbatch.
  cbn [mbind result_bind]. cbv zeta. by rewrite (represented_version _ _ _ Hrp).
Qed.

Lemma append_total py art db log st events :
  Represents py db log → appendable log st events → forallb plain events = true →
  validate_artifacts art (batch_value py events) = Ok tt →
  validate_artifacts art (stored_value py (stored_from py st 0 (stream_of log st))) = Ok tt →
  ∃ r, append py art db st (Z.of_nat (length (stream_of log st))) events = Ok r.
Proof.
  intros Hrp Ha Hplain Hbatch Hstored. rewrite (append_guards py art db log) by (try done; lia).
  rewrite Z.eqb_refl. cbn [negb raise_if mbind result_bind]. unfold commit_events.
  destruct (apd_accepted _ _ _ Ha) as [s' Hs']. rewrite replay_app in Hs'. apply bind_ok in Hs' as (s & Hs & Hs').
  rewrite (fold_committed_total py art db log st s Hrp Hs Hstored). cbn [mbind result_bind].
  rewrite (admit_plain py art db st s events s s' Hplain Hs'). cbn [mbind result_bind]. cbv zeta.
  set (db1 := if is_none (db_streams db !! st) && negb (is_nil events)
              then with_streams (<[st := 0%Z]>) db else db).
  assert (db_events db1 = db_events db) as Hev by by unfold db1; destruct (_ && _).
  destruct (insert_events_total py st events (stream_version db st) db1) as [db2 H2].
  - apply Ha.
  - rewrite Hev. intros x e Hx He. destruct (row_logged _ _ _ Hrp x Hx) as (y & Hy & ->).
    by apply (apd_fresh _ _ _ Ha).
  - rewrite Hev, (represented_version _ _ _ Hrp). intros x Hx Hst.
    assert (x ∈ rows_from py st 0 (stream_of log st)) as Hin%rows_sequences; [|lia].
    rewrite <- (rp_rows _ _ _ Hrp). apply elem_of_lfilter. split; [done|by apply eqb_true].
  - rewrite H2. cbn [mbind result_bind]. destruct (is_nil events) eqn:Hnil.
    + cbn [mbind result_bind]. rewrite Hbatch. by eexists.
    + unfold update_version. apply insert_events_ok in H2 as [-> _].
      rewrite bool_decide_true.
      * cbn [negb raise_if mbind result_bind]. rewrite Hbatch. by eexists.
      * unfold db1, stream_version. cbn. rewrite ?Hnil, andb_true_r.
        destruct (db_streams db !! st) as [v|] eqn:E; cbn; [done|by rewrite lookup_insert_eq].
Qed.

(** C4: Appending decides exactly.  On a represented database, for events that
    serialize and state no cross-stream fact, with every referenced artifact in
    place, an append commits precisely when the caller expected the current
    version and the events may follow the stream; it then returns the new version
    and the tables represent the extended log.  With a stale expectation it raises
    [OptimisticConcurrencyError], so of two writers that read the same version at
    most one ever commits. *)
Theorem append_exact py art db log st expected events :
  Represents py db log → (∀ e, e ∈ events → Serializable py e) → forallb plain events = true →
  validate_artifacts art (batch_value py events) = Ok tt →
  validate_artifacts art (stored_value py (stored_from py st 0 (stream_of log st))) = Ok tt →
  (∀ v db', append py art db st expected events = Ok (v, db') →
     v = (expected + Z.of_nat (length events))%Z ∧ Represents py db' (log_append st events log))
  ∧ (is_ok (append py art db st expected events) = true ↔
     expected = Z.of_nat (length (stream_of log st)) ∧ appendable log st events)
  ∧ (appendable log st events → (0 ≤ expected)%Z → expected ≠ Z.of_nat (length (stream_of log st)) →
     ∃ msg, append py art db st expected events = raise OptimisticConcurrencyError msg).
Proof.
  intros Hrp Hser Hplain Hbatch Hstored. split; [|split].
  - intros v db' H. destruct (append_ok py art db log Hrp _ _ _ _ _ Hser H) as (_ & ? & _ & ? & _). done.
  - split.
    + rewrite is_ok_true. intros [[v db'] H].
      by destruct (append_ok py art db log Hrp _ _ _ _ _ Hser H) as (? & _ & ? & _).
    + intros [-> Ha]. destruct (append_total py art db log st events Hrp Ha Hplain Hbatch Hstored) as [r ->]. done.
  - intros Ha Hpos Hne. eexists. rewrite (append_guards py art db log st expected events Hrp Ha Hpos Hbatch).
    assert ((Z.of_nat (length (stream_of log st)) =? expected)%Z = false) as -> by (apply Z.eqb_neq; lia). done.
Qed.

Lemma append_exact_witness :
  is_ok (append stored_codec None empty_database "inq" 0 Scenario.log1) = true
  ∧ appendable ∅ "inq" Scenario.log1.
Proof.
  split; [|exact first_appendable].
  apply (append_exact stored_codec None empty_database ∅ "inq" 0 Scenario.log1).
  - apply represents_empty.
  - intros e He. apply stored_serializable, elem_of_app. left. exact He.
  - reflexivity.
  - reflexivity.
  - reflexivity.
  - split; [reflexivity|exact first_appendable].
Defined.

Lemma stored_database :
  ∃ db, Represents stored_codec db (log_append "inq" Scenario.log1 ∅).
Proof.
  assert (∀ e, e ∈ Scenario.log1 → Serializable stored_codec e) as Hser.
  { intros e He. apply stored_serializable, elem_of_app. by left. }
  pose proof (represents_empty stored_codec) as Hrp.
  destruct (append_total stored_codec None empty_database ∅ "inq" Scenario.log1 Hrp first_appendable) as [[v db] H];
    [done..|].
  exists db. by apply (append_ok stored_codec None empty_database ∅ Hrp) in H as (_ & _ & _ & H & _).
Qed.

(** ** Rebuilding *)

(** Model equality is identity.  Pydantic compares models field by field, and Python
    identifies [1], [1.0] and [True]: this holds of states whose free JSON payloads
    hold no such values, and not of all states. *)
Definition exact_equality (py : Pydantic) : Prop := ∀ x y, py_state_eq py x y = true → x = y.

Lemma load_stream_ok py art db log st n slice :
  Represents py db log → load_stream py art db st n = Ok slice →
  (0 ≤ n ≤ Z.of_nat (length (stream_of log st)))%Z
  ∧ slice_version slice = Z.of_nat (length (stream_of log st))
  ∧ slice_events slice = stored_from py st n (drop (Z.to_nat n) (stream_of log st)).
Proof.
  intros Hrp. rewrite (load_stream_loaded py art db log st n Hrp). unfold loaded. cbv zeta.
  destruct (n <? 0)%Z eqn:Hn; [done|]. destruct (_ <? n)%Z eqn:Hl; [done|]. rewrite seq_ok, raise_if_bind. intros (_ & _ & [= <-]).
  apply Z.ltb_ge in Hn, Hl. split_and!; done.
Qed.

Lemma stored_take py st start l n :
  map se_event (take n (stored_from py st start l)) = take n l.
Proof. revert start n. induction l as [|e l IH]; intros start [|n]; [done..|]. cbn. by rewrite IH. Qed.

(** A snapshot that loads compares equal to the replay of a prefix of the stream. *)
Lemma loaded_snapshot py art db log st r :
  Represents py db log → load_latest_snapshot py art db st = Ok (Some r) →
  ∃ expected,
    replay (take (Z.to_nat (st_sequence (snap_state r))) (stream_of log st)) initial_state = Ok expected
    ∧ py_state_eq py expected (snap_state r) = true.
Proof.
  intros Hrp H. unfold load_latest_snapshot in H. destruct (last _) as [row|]; [|done].
  destruct (_ ==? _); [|by destruct (mem _ _)]. rewrite raise_if_bind, bind_ok in H. destruct H as (_ & s & _ & H).
  rewrite raise_if_bind, bind_ok in H. destruct H as (_ & d & _ & H).
  rewrite raise_if_bind, bind_ok in H. destruct H as (_ & stream & Hs & H). rewrite bind_ok in H.
  destruct H as (expected & He & H). rewrite raise_if_bind, negb_false_iff, seq_ok in H.
  destruct H as (Hx & _ & [= <-]). cbn [snap_state]. exists expected. split; [|done].
  destruct (load_stream_ok _ _ _ _ _ _ _ Hrp Hs) as (_ & _ & Hev). unfold replay_prefix in He.
  by rewrite Hev, stored_take in He.
Qed.

(** [s] comes from replaying the events after the first [n] on a base that is the
    replay of these, or a state the code compared equal to it. *)
Definition rebuilt_from (py : Pydantic) (use_snapshot : bool) (events : list DomainEvent) (s : InquiryState) : Prop :=
  ∃ n base expected, replay (take n events) initial_state = Ok expected
    ∧ (base = expected ∨ use_snapshot = true ∧ py_state_eq py expected base = true)
    ∧ replay (drop n events) base = Ok s.

Lemma rebuilt_exact py use_snapshot events s :
  rebuilt_from py use_snapshot events s → use_snapshot = false ∨ exact_equality py →
  replay events initial_state = Ok s.
Proof.
  intros (n & base & expected & He & Hb & Hr) Hx. rewrite <- (take_drop n events), replay_app, He.
  enough (base = expected) as -> by done.
  destruct Hb as [->|[-> Hb]]; [done|]. destruct Hx as [|Hx]; [done|]. symmetry. by apply Hx.
Qed.

(** Whatever rows the snapshot table holds. *)
Lemma rebuilt_base py art db log st use_snapshot s :
  Represents py db log → rebuild_state py art db st use_snapshot = Ok s →
  st_sequence s = Z.of_nat (length (stream_of log st)) ∧ rebuilt_from py use_snapshot (stream_of log st) s.
Proof.
  intros Hrp H. unfold rebuild_state in H. rewrite bind_ok in H. destruct H as (o & Ho & H). cbv zeta in H.
  rewrite bind_ok in H. destruct H as (stream & Hs & H). rewrite bind_ok in H. destruct H as (s' & Hr & H).
  rewrite raise_if_bind in H. destruct H as [Hlen [= ->]].
  destruct (load_stream_ok _ _ _ _ _ _ _ Hrp Hs) as (_ & Hver & Hev). rewrite Hev, stored_events in Hr.
  rewrite neqb_false in Hlen. split; [by rewrite Hlen|].
  destruct o as [r|]; [|by exists 0, initial_state, initial_state; split; [|split; [left|]]].
  unfold usable_snapshot in Ho. destruct use_snapshot; [|done].
  destruct (load_latest_snapshot py art db st) as [o'|x] eqn:Hl; [|by destruct (disposable _)]. injection Ho as ->.
  destruct (loaded_snapshot py art db log st r Hrp Hl) as (expected & He & Hx).
  exists (Z.to_nat (st_sequence (snap_state r))), (snap_state r), expected. split_and!; [done|by right|done].
Qed.

Lemma rebuilt_replay py art db log st use_snapshot s :
  exact_equality py → Represents py db log → rebuild_state py art db st use_snapshot = Ok s →
  replay (stream_of log st) initial_state = Ok s.
Proof. intros Heq Hrp H. apply (rebuilt_exact py use_snapshot); [by eapply rebuilt_base|by right]. Qed.

(** C5: Rebuilding trusts only the ledger.  On a represented database, whatever rows
    the snapshot table holds (missing, stale, tampered with), a state that
    [rebuild_state] returns has the length of the stream as its sequence, and is the
    replay of the stream's later events on a state that pydantic's equality does not
    tell from the replay of the earlier ones.  It is exactly the replay of the stream
    when snapshots are not used, and also with them where model equality is
    identity.  A projection rebuilds to the fold of the same events, and without
    snapshots and artifact checks rebuilding a stream of any identifier succeeds. *)
Theorem rebuild_is_replay py db log st :
  Represents py db log →
  (∀ art use_snapshot s, rebuild_state py art db st use_snapshot = Ok s →
     st_sequence s = Z.of_nat (length (stream_of log st))
     ∧ rebuilt_from py use_snapshot (stream_of log st) s
     ∧ (use_snapshot = false ∨ exact_equality py → replay (stream_of log st) initial_state = Ok s))
  ∧ (∀ art P (initial : P) apply p, rebuild_stored_projection py art db st initial apply = Ok p →
       p = foldl apply initial (stream_of log st))
  ∧ (is_identifier st = true → ∃ s, rebuild_state py None db st false = Ok s).
Proof.
  intros Hrp. split; [|split].
  - intros art use s H. destruct (rebuilt_base _ _ _ _ _ _ _ Hrp H) as [Hl Hf].
    split_and!; [done..|]. by apply rebuilt_exact.
  - intros art P initial apply p H. unfold rebuild_stored_projection in H. rewrite bind_ok in H.
    destruct H as (stream & Hs & [= <-]). destruct (load_stream_ok _ _ _ _ _ _ _ Hrp Hs) as (_ & _ & Hev).
    by rewrite Hev, stored_events.
  - intros Hid. destruct (rp_accepted _ _ _ Hrp st) as [s Hs]. exists s. unfold rebuild_state, usable_snapshot.
    cbn [mbind result_bind]. cbv zeta. rewrite (load_stream_loaded py None db log st _ Hrp). unfold loaded.
    cbn [initial_state st_sequence]. cbv zeta. assert ((Z.of_nat (length (stream_of log st)) <? 0)%Z = false) as ->
      by (apply Z.ltb_ge; lia). rewrite Hid.
    cbn [Z.ltb Z.compare validate_artifacts negb raise_if mbind result_bind slice_events slice_version].
    rewrite stored_events. cbn [Z.to_nat]. rewrite drop_0, Hs. cbn [mbind result_bind].
    destruct (replay_sequence _ _ Hs) as [Hlen _]. by rewrite (proj2 (eqb_true _ _) Hlen).
Qed.

(** A file with a snapshot of the first eight events, and six events after it. *)
Definition snapshot_database : Database := run_ops stored_codec (stored_ops ++ further_ops) empty_database.

Lemma snapshot_kept : map sr_sequence (db_snapshots snapshot_database) = [8%Z].
Proof. vm_compute. reflexivity. Qed.

Lemma snapshot_rebuilds : is_ok (rebuild_state stored_codec None snapshot_database "inq" true) = true.
Proof. vm_compute. reflexivity. Qed.

Lemma snapshot_represented : ∃ log, Represents stored_codec snapshot_database log.
Proof.
  destruct (run_ops_simulates stored_codec (stored_ops ++ further_ops) empty_database ∅
              (represents_empty stored_codec) stored_ops_serialize) as (log & _ & H).
  exists log. exact H.
Qed.

Lemma rebuild_is_replay_witness :
  ∃ log s, Represents stored_codec snapshot_database log
    ∧ map sr_sequence (db_snapshots snapshot_database) = [8%Z]
    ∧ rebuild_state stored_codec None snapshot_database "inq" true = Ok s
    ∧ replay (stream_of log "inq") initial_state = Ok s.
Proof.
  destruct snapshot_represented as [log Hdb]. pose proof snapshot_rebuilds as Hok.
  destruct (rebuild_state stored_codec None snapshot_database "inq" true) as [s|x] eqn:Hs; [|discriminate Hok].
  exists log, s. split; [exact Hdb|]. split; [exact snapshot_kept|]. split; [reflexivity|].
  destruct (proj1 (rebuild_is_replay stored_codec snapshot_database log "inq" Hdb) None true s Hs) as (_ & _ & Hx).
  apply Hx. right. intros x y. apply bool_decide_eq_true_1.
Defined.

(** A snapshot row ahead of its stream is damage [rebuild_state] does not survive:
    the prefix digest raises [ValueError], which the handler does not catch. *)
Lemma snapshot_ahead_blocks_rebuild py db log st row s :
  Represents py db log → is_identifier st = true →
  last (sort_by sr_sequence (List.filter (λ r, sr_stream_id r ==? st) (db_snapshots db))) = Some row →
  sr_fold_schema_version row = FOLDED_STATE_SCHEMA_VERSION →
  Sha256.hexdigest (sr_state_bytes row) = sr_state_digest row → decode_state py (sr_state_bytes row) = Ok s →
  st_inquiry_id s = Some st → st_sequence s = sr_sequence row →
  (Z.of_nat (length (stream_of log st)) < st_sequence s)%Z →
  rebuild_state py None db st true = raise ValueError "stream prefix sequence is outside the event stream".
Proof.
  intros Hrp Hid Hlast Hschema Hdig Hdec Hinq Hseq Hahead. unfold rebuild_state, usable_snapshot, load_latest_snapshot.
  rewrite Hlast, (proj2 (eqb_true _ _) Hschema), (proj2 (eqb_true _ _) Hdig). cbn [negb raise_if mbind result_bind].
  rewrite Hdec. cbn [recast mbind result_bind].
  rewrite (proj2 (eqb_true _ _) Hinq), Hseq, Z.eqb_refl. cbn [negb orb raise_if mbind result_bind].
  unfold stream_prefix_digest. rewrite (load_stream_loaded py None db log st _ Hrp). unfold loaded. cbv zeta.
  assert ((Z.of_nat (length (stream_of log st)) <? 0)%Z = false) as -> by (apply Z.ltb_ge; lia). rewrite Hid.
  cbn [Z.ltb Z.compare validate_artifacts negb raise_if mbind result_bind slice_events slice_version from_option id].
  assert ((Z.of_nat (length (stream_of log st)) <? sr_sequence row)%Z = true) as -> by (apply Z.ltb_lt; lia).
  by rewrite orb_true_r.
Qed.
