(* ===== verification/SdkLog.v ===== *)
(** * The SDK's batches are atomic

    Against the abstract log of [StoreLog]: a batch of commands that returns has
    committed exactly the events its commands decided on the replayed stream, and a
    batch that raises has changed nothing. *)

From S2P Require Import Prelude Digest Memory Learning Compression Model Claims Effects Probes Artifacts Retention Licensing Goals Extensions Decide State Evolve Scenario Serialization Store StoreExample Ledger Reachable StoreLog Runtime Executor.

(** The events the commands decide on the stream of the log serialize. *)
Definition batch_serializes (py : Pydantic) (log : Log) (inquiry_id : string) (cs : list DomainCommand) : Prop :=
  ∀ s es s', replay (stream_of log inquiry_id) initial_state = Ok s → apply_batch cs s = Ok (es, s') →
    ∀ e, e ∈ es → Serializable py e.

(** What a committed batch has done: from the runtime [rt] it returned the state
    [s'] and left the runtime [rt']. *)
Record Committed (py : Pydantic) (log : Log) (inquiry_id : string) (cs : list DomainCommand) (rt : Runtime)
    (s' : InquiryState) (rt' : Runtime) : Prop := {
  cm_decided : ∃ s es, replay (stream_of log inquiry_id) initial_state = Ok s ∧ apply_batch cs s = Ok (es, s')
                 ∧ appendable log inquiry_id es
                 ∧ Represents py (rt_database rt') (log_append inquiry_id es log)
                 ∧ replay (stream_of (log_append inquiry_id es log) inquiry_id) initial_state = Ok s';
  cm_artifacts : rt_artifacts rt' = rt_artifacts rt;
  cm_snapshots : db_snapshots (rt_database rt') = db_snapshots (rt_database rt);
  cm_ticks : rt_ticks rt' = rt_ticks rt;
}.

Section Batch.
Context (py : Pydantic) (Heq : exact_equality py).

Lemma inspect_ok rt log inquiry_id s rt' :
  Represents py (rt_database rt) log → inspect py inquiry_id rt = (Ok s, rt') →
  rt' = rt ∧ replay (stream_of log inquiry_id) initial_state = Ok s.
Proof. intros Hrp [= H <-]. split; [done|]. by eapply rebuilt_replay. Qed.

Lemma append_events_ok rt log inquiry_id expected es v rt' :
  Represents py (rt_database rt) log → (∀ e, e ∈ es → Serializable py e) →
  append_events py inquiry_id expected es rt = (Ok v, rt') →
  appendable log inquiry_id es ∧ Represents py (rt_database rt') (log_append inquiry_id es log)
  ∧ rt_artifacts rt' = rt_artifacts rt ∧ db_snapshots (rt_database rt') = db_snapshots (rt_database rt)
  ∧ rt_ticks rt' = rt_ticks rt.
Proof.
  intros Hrp Hser. unfold append_events. destruct (append _ _ _ _ _ _) as [[w db']|x] eqn:E; [|done].
  intros [= <- <-]. destruct (append_ok _ _ _ _ Hrp _ _ _ _ _ Hser E) as (_ & _ & ? & ? & ? & _). done.
Qed.

Lemma append_events_raised rt inquiry_id expected es x rt' :
  append_events py inquiry_id expected es rt = (Raise x, rt') → rt' = rt.
Proof. unfold append_events. destruct (append _ _ _ _ _ _) as [[w db']|y]; [done|]. by intros [= _ <-]. Qed.

(** The replay of the log that holds the decided events. *)
Lemma decided_replay log inquiry_id cs s es s' :
  replay (stream_of log inquiry_id) initial_state = Ok s → apply_batch cs s = Ok (es, s') →
  replay (stream_of (log_append inquiry_id es log) inquiry_id) initial_state = Ok s'.
Proof.
  intros Hs Hd. rewrite stream_of_append, (proj2 (eqb_true _ _)), replay_app, Hs by done.
  by apply apply_batch_replay in Hd.
Qed.

Lemma committed_nothing log inquiry_id cs rt s s' :
  Represents py (rt_database rt) log → replay (stream_of log inquiry_id) initial_state = Ok s →
  apply_batch cs s = Ok ([], s') → Committed py log inquiry_id cs rt s' rt.
Proof.
  intros Hrp Hs Hd. split; [|done..]. exists s, []. split_and!; [done..| |done|by eapply decided_replay].
  split; [by intros e ?%not_elem_of_nil|constructor|by intros e x ?%not_elem_of_nil|].
  exists s. by rewrite app_nil_r.
Qed.

Lemma committed_events log inquiry_id cs rt rt' expected s es s' v :
  Represents py (rt_database rt) log → batch_serializes py log inquiry_id cs →
  replay (stream_of log inquiry_id) initial_state = Ok s → apply_batch cs s = Ok (es, s') →
  append_events py inquiry_id expected es rt = (Ok v, rt') → Committed py log inquiry_id cs rt s' rt'.
Proof.
  intros Hrp Hser Hs Hd Ha. apply (append_events_ok _ _ _ _ _ _ _ Hrp) in Ha as (? & ? & ? & ? & ?);
    [|by eapply Hser]. split; [|done..]. exists s, es. split_and!; [done..|by eapply decided_replay].
Qed.

Lemma run_batch_committed log inquiry_id cs rt :
  Represents py (rt_database rt) log → batch_serializes py log inquiry_id cs →
  match run_batch py inquiry_id cs rt with
  | (Ok s', rt') => Committed py log inquiry_id cs rt s' rt'
  | (Raise _, rt') => rt' = rt
  end.
Proof.
  intros Hrp Hser. unfold run_batch, mbind, sdk_bind.
  destruct (inspect py inquiry_id rt) as [[s|x] rt1] eqn:Hi; [|by injection Hi as _ <-].
  apply (inspect_ok _ _ _ _ _ Hrp) in Hi as [-> Hs]. unfold lift.
  destruct (apply_batch cs s) as [[es s']|x] eqn:Hd; [|done]. cbn [fst snd].
  destruct (is_nil es) eqn:Hnil; [destruct es; [|done]; cbn; by eapply committed_nothing|].
  destruct (append_events py inquiry_id (st_sequence s) es rt) as [[v|x] rt'] eqn:Ha.
  - cbn. by eapply committed_events.
  - by eapply append_events_raised.
Qed.

Lemma append_attempts_committed n log inquiry_id cs rt :
  Represents py (rt_database rt) log → batch_serializes py log inquiry_id cs →
  match append_attempts py n inquiry_id cs rt with
  | (Ok s', rt') => Committed py log inquiry_id cs rt s' rt'
  | (Raise _, rt') => rt' = rt
  end.
Proof.
  intros Hrp Hser. induction n as [|n IH]; [done|]. cbn [append_attempts]. unfold mbind, sdk_bind.
  destruct (inspect py inquiry_id rt) as [[s|x] rt1] eqn:Hi; [|by injection Hi as _ <-].
  apply (inspect_ok _ _ _ _ _ Hrp) in Hi as [-> Hs]. unfold lift.
  destruct (apply_batch cs s) as [[es s']|x] eqn:Hd; [|done]. cbn [fst snd].
  destruct (is_nil es) eqn:Hnil; [destruct es; [|done]; cbn; by eapply committed_nothing|].
  destruct (append_events py inquiry_id (st_sequence s) es rt) as [[v|x] rt'] eqn:Ha.
  - by eapply committed_events.
  - apply append_events_raised in Ha as ->. by destruct (_ ==? _).
Qed.
End Batch.


Definition scenario_batch : list DomainCommand := Scenario.commands 8 Scenario.after_return.

Lemma scenario_batch_decides : apply_batch scenario_batch Scenario.state1 = Ok (Scenario.log2, Scenario.state2).
Proof. vm_compute. reflexivity. Qed.

Lemma scenario_batch_serializes : batch_serializes stored_codec (log_append "inq" Scenario.log1 ∅) "inq" scenario_batch.
Proof.
  intros s es s' Hs Hd e He. assert (replay Scenario.log1 initial_state = Ok Scenario.state1) as Hr by (vm_compute; reflexivity).
  rewrite stream_of_append, (proj2 (eqb_true _ _)) in Hs by done. change (replay Scenario.log1 initial_state = Ok s) in Hs.
  rewrite Hr in Hs. injection Hs as <-. rewrite scenario_batch_decides in Hd. injection Hd as <- <-.
  apply stored_serializable, elem_of_app. by right.
Qed.

