(* ===== verification/Asking.v ===== *)
(** * Which obligations the loop can ask

    The obligations the claim ledger derives on its own (the attack on a necessity or
    sufficiency claim, the localisation of a conflict) carry the arguments their
    derivation gives them; the contracts of their kinds read another one. *)

From S2P Require Import Prelude Digest Dumps Memory Questions Project Model Claims Warrant Support Policy Planning Backlog Effects Probes Artifacts Goals Decide State Evolve Scenario Serialization Store StoreExample Runtime Sdk.

(** The obligations derived from claims and from conflicts. *)
Inductive derived_obligation (o : Obligation) : Prop :=
| DerivedAttack c : mandatory_attack_obligation c = Ok (Some o) → derived_obligation o
| DerivedConflict c : conflict_obligation c = Ok o → derived_obligation o.

Definition derived_argument_names : list string := ["proposition_id"; "claim_id"; "left_claim_id"; "right_claim_id"].

Definition derived_kinds : list ObligationKind :=
  [NECESSITY_COUNTEREXAMPLE; SUFFICIENCY_COUNTEREXAMPLE; PREREQUISITE_BYPASS; LOCALIZE_CONFLICT].

Lemma derived_arguments o :
  derived_obligation o → obl_kind o ∈ derived_kinds ∧ ∀ a, a ∈ obl_args o → arg_name a ∈ derived_argument_names.
Proof.
  assert (∀ k, (∃ r, ATTACK_BY_ROLE r = Some k) → k ∈ derived_kinds) as Hk.
  { intros k [r Hr]. apply (bool_decide_unpack _). destruct r; try discriminate Hr; injection Hr as <-; exact I. }
  assert (∀ x, mem x derived_argument_names = true → x ∈ derived_argument_names) as Hm by (intros x; apply mem_true).
  intros [c H|c H]; revert H.
  - unfold mandatory_attack_obligation. destruct (ATTACK_BY_ROLE _) as [k|] eqn:Hr; [|done]. case_match; [done|].
    cbv zeta. rewrite bind_ok. intros (? & _ & [= <-]). split; [apply Hk; by eexists|].
    intros a ->%list_elem_of_singleton. apply Hm. cbn [arg_name]. by destruct (claim_proposition_id c).
  - unfold conflict_obligation. rewrite bind_ok. intros (? & _ & [= <-]). split; [by apply (bool_decide_unpack _)|].
    intros a [->| ->%list_elem_of_singleton]%elem_of_cons; by apply Hm.
Qed.

(** A name that no argument carries has no value. *)
Lemma no_argument o name :
  (∀ a, a ∈ obl_args o → arg_name a ∈ derived_argument_names) → name ∉ derived_argument_names →
  text_argument o name = None ∧ argument_value o name = None.
Proof.
  intros Ha Hn. assert (∀ a, a ∈ obl_args o → (arg_name a ==? name) = false) as Hf.
  { intros a Hin. apply eqb_false. intros E. apply Hn. rewrite <- E. by apply Ha. }
  split.
  - unfold text_argument. destruct (first _ (obl_args o)) as [a|] eqn:E; [|done].
    apply first_Some in E as [Hin E]. by rewrite (Hf a Hin) in E.
  - unfold argument_value. destruct (List.filter _ _) as [|a l] eqn:E; [done|].
    assert (a ∈ List.filter (λ a, arg_name a ==? name) (obl_args o)) as Hin by (rewrite E; left).
    apply elem_of_lfilter in Hin as [Hin Hx]. by rewrite (Hf a Hin) in Hx.
Qed.

(** Every contract of the core profile reads the carrier. *)
Lemma contract_of_kind_carrier k :
  (contract_of_kind k = Ok None ∧ CONTRACT_BY_OBLIGATION_KIND k = None)
  ∨ ∃ c, contract_of_kind k = Ok (Some c) ∧ qc_input_roles c = ["carrier"].
Proof. destruct k; (by left; split; vm_compute) || (right; eexists; split; vm_compute; reflexivity). Qed.

Lemma derived_contract s o :
  (∀ a, a ∈ obl_args o → arg_name a ∈ derived_argument_names) → contract_for_obligation s o = contract_of_kind (obl_kind o).
Proof.
  intros Ha. assert (∀ name, mem name derived_argument_names = false → text_argument o name = None) as Hn.
  { intros name Hm. apply no_argument; [done|]. by apply mem_false. }
  unfold contract_for_obligation, compiled_question_for_obligation, has_generated_marker.
  cbn [existsb]. by rewrite !Hn by done.
Qed.

(** C10: The derived attacks cannot be asked.  A prerequisite attack asks no question;
    for every other obligation that a claim or a conflict derives, the loop finds a
    contract, cannot bind its one role (the contract reads [carrier], the derivation
    names the claim or the proposition), and a step whose plan selects the
    obligation raises, having recorded nothing. *)
Theorem derived_attacks_cannot_be_asked s o :
  derived_obligation o →
  (obl_kind o = PREREQUISITE_BYPASS ∧ contract_for_obligation s o = Ok None)
  ∨ ∃ contract msg,
      contract_for_obligation s o = Ok (Some contract) ∧ bindings_for_contract o contract = raise RuntimeError msg
      ∧ ∀ py clock inquiry_id plan rt,
          plan_selected_obligation_id plan = Some (obl_id o) → obligation_by_id s (obl_id o) = Some o →
          ready_step py clock inquiry_id s plan rt = (raise RuntimeError msg, rt).
Proof.
  intros Hd. destruct (derived_arguments o Hd) as [Hk Ha]. rewrite (derived_contract s o Ha).
  destruct (contract_of_kind_carrier (obl_kind o)) as [[Hn Hc]|(contract & Hc & Hroles)].
  - left. split; [|done]. unfold derived_kinds in Hk. rewrite !elem_of_cons in Hk.
    destruct Hk as [E|[E|[E|[E|E]]]]; rewrite ?E in *; done || by apply not_elem_of_nil in E.
  - right. exists contract, "question obligation lacks a typed text binding".
    assert (bindings_for_contract o contract = raise RuntimeError "question obligation lacks a typed text binding") as Hb.
    { unfold bindings_for_contract. rewrite Hroles. cbn [bindings_for_roles].
      assert (argument_value o "carrier" = None) as ->; [|done]. apply no_argument; [done|]. by apply mem_false. }
    split_and!; [done|done|]. intros py clock iid plan rt Hp Ho. unfold ready_step, mbind, sdk_bind, lift.
    rewrite Hp. cbn [or_raise]. rewrite Ho. cbn [or_raise]. rewrite (derived_contract s o Ha), Hc. cbn [or_raise].
    unfold manual_request, mbind, sdk_bind, lift. by rewrite Hb.
Qed.

(** The attack the scenario's necessity claim derives. *)
Lemma derived_attacks_cannot_be_asked_witness :
  derived_obligation Scenario.attack
  ∧ ∃ contract msg, bindings_for_contract Scenario.attack contract = raise RuntimeError msg.
Proof.
  assert (derived_obligation Scenario.attack) as Hd.
  { apply (DerivedAttack _ Scenario.c1). vm_compute. reflexivity. }
  split; [exact Hd|].
  destruct (derived_attacks_cannot_be_asked Scenario.state1 Scenario.attack Hd) as [[Hk _]|(contract & msg & _ & Hb & _)].
  - vm_compute in Hk. discriminate Hk.
  - exists contract, msg. exact Hb.
Defined.
