(* ===== verification/Liveness.v ===== *)
(** * No started attempt is stuck

    An attempt that was presented and has no outcome yet can always be ended: the
    inquiry decides, accepts and folds the outcome of an attempt whose presentation
    failed, was cancelled or stayed unknown, in every state it can be in.  The
    successor state is valid because its requests differ only in that outcome. *)

From S2P Require Import Prelude Digest Memory Retrieval Learning Compression Questions Project Model Claims Warrant Support Effects Probes State Goals Extensions Lifecycle Guards Retention Consolidation Licensing Governance Decide Evolve Scenario Ledger Reachable StoreLog.

(** Requests that agree on everything but the outcomes of their attempts, and on
    what those returned. *)
Record similar (x y : EffectRequestState) : Prop := {
  sim_request : ers_request x = ers_request y;
  sim_attempts : map att_id (ers_attempts x) = map att_id (ers_attempts y);
  sim_returns : omap attempt_return (ers_attempts x) = omap attempt_return (ers_attempts y);
  sim_decodes : ers_decode_outcomes x = ers_decode_outcomes y;
  sim_accepted : ers_accepted_decoded_outcome_id x = ers_accepted_decoded_outcome_id y;
}.

Lemma similar_refl x : similar x x.
Proof. by split. Qed.

Lemma map_Forall2 {A B} (R : A → A → Prop) (f : A → B) l l' :
  (∀ x y, R x y → f x = f y) → Forall2 R l l' → map f l = map f l'.
Proof. intros Hf. induction 1 as [|x y l l' Hxy _ IH]; [done|]. cbn. by rewrite (Hf x y Hxy), IH. Qed.

Lemma omap_Forall2 {A B} (R : A → A → Prop) (f : A → option B) l l' :
  (∀ x y, R x y → f x = f y) → Forall2 R l l' → omap f l = omap f l'.
Proof. intros Hf. induction 1 as [|x y l l' Hxy _ IH]; [done|]. cbn. by rewrite (Hf x y Hxy), IH. Qed.

Lemma flat_map_Forall2 {A B} (R : A → A → Prop) (f : A → list B) l l' :
  (∀ x y, R x y → f x = f y) → Forall2 R l l' → flat_map f l = flat_map f l'.
Proof. intros Hf. induction 1 as [|x y l l' Hxy _ IH]; [done|]. cbn. by rewrite (Hf x y Hxy), IH. Qed.

Lemma filter_Forall2 {A} (R : A → A → Prop) (p : A → bool) l l' :
  (∀ x y, R x y → p x = p y) → Forall2 R l l' → Forall2 R (List.filter p l) (List.filter p l').
Proof.
  intros Hp. induction 1 as [|x y l l' Hxy _ IH]; [done|]. cbn. rewrite (Hp x y Hxy).
  destruct (p y); [by constructor|done].
Qed.

Lemma existsb_Forall2 {A} (R : A → A → Prop) (p : A → bool) l l' :
  (∀ x y, R x y → p x = p y) → Forall2 R l l' → existsb p l = existsb p l'.
Proof. intros Hp. induction 1 as [|x y l l' Hxy _ IH]; [done|]. cbn. by rewrite (Hp x y Hxy), IH. Qed.

Lemma omap_flat_map {A B C} (f : A → list B) (g : B → option C) l :
  omap g (flat_map f l) = flat_map (λ x, omap g (f x)) l.
Proof. induction l as [|x l IH]; [done|]. cbn. by rewrite omap_app, IH. Qed.

Lemma NoDup_map_lfilter {A B} (f : A → B) (p : A → bool) l : NoDup (map f l) → NoDup (map f (List.filter p l)).
Proof.
  induction l as [|x l IH]; [done|]. cbn. intros [Hx Hl]%NoDup_cons. destruct (p x); [|by apply IH].
  cbn. apply NoDup_cons. split; [|by apply IH]. intros (y & [Hy _]%elem_of_lfilter & E)%elem_of_map.
  apply Hx. rewrite E. by apply elem_of_map_1.
Qed.

(** ** The checks of a state with similar requests *)

Section Similar.
Context (s : InquiryState) (l : list EffectRequestState) (Hl : Forall2 similar (effect_requests s) l).
Let t : InquiryState := next_sequence (set_requests s l).

Lemma similar_id x y : similar x y → ers_id x = ers_id y.
Proof. intros H. unfold ers_id. by rewrite (sim_request _ _ H). Qed.

Lemma similar_accepted_result x y : similar x y → accepted_result x = accepted_result y.
Proof. intros H. unfold accepted_result. by rewrite (sim_accepted _ _ H), (sim_decodes _ _ H). Qed.

Lemma similar_returns : captured_external_return_ids t = captured_external_return_ids s.
Proof.
  unfold captured_external_return_ids, return_ids, all_attempts. rewrite !omap_flat_map. f_equal. symmetry.
  apply (flat_map_Forall2 similar); [apply sim_returns|exact Hl].
Qed.

Lemma similar_addressable : addressable_records t = addressable_records s.
Proof.
  unfold addressable_records. do 10 f_equal. f_equal. symmetry. apply (flat_map_Forall2 similar); [|exact Hl].
  intros x y H. by rewrite (sim_request _ _ H), (sim_returns _ _ H).
Qed.

Lemma similar_owned : owned_memory_records t = owned_memory_records s.
Proof. unfold owned_memory_records. by rewrite similar_addressable. Qed.

Lemma similar_accepted_requests id : Forall2 similar (accepted_requests_for s id) (accepted_requests_for t id).
Proof.
  apply filter_Forall2; [|exact Hl]. intros x y H. by rewrite (sim_request _ _ H), (sim_accepted _ _ H).
Qed.

Lemma similar_compile_from_question ctx a b f q :
  compile_from_question t ctx a b f q = compile_from_question s ctx a b f q.
Proof.
  unfold compile_from_question. destruct (similar_accepted_requests (obl_id a)) as [|x y ? ? Hxy Hr]; [done|].
  destruct Hr; [|done]. assert (accepted_success y = accepted_success x) as ->.
  { unfold accepted_success. by rewrite (sim_accepted _ _ Hxy), (sim_decodes _ _ Hxy). }
  destruct (accepted_success x) as [[[b' rb] op]|]; [|done].
  change (claims t) with (claims s). change (limitation_by_id t) with (limitation_by_id s).
  change (anchor_by_id t) with (anchor_by_id s). change (successor_by_id t) with (successor_by_id s).
  repeat case_match; try done. unfold assemble_goal_candidate. by rewrite (similar_id _ _ Hxy).
Qed.

Lemma similar_compile a b f : compile_implementation_goal_candidate t a b f = compile_implementation_goal_candidate s a b f.
Proof.
  unfold compile_implementation_goal_candidate. change (st_context t) with (st_context s).
  change (obligation_by_id t) with (obligation_by_id s). change (frontier_by_id t) with (frontier_by_id s).
  change (compile_admitted_question t) with (compile_admitted_question s).
  repeat case_match; try done. apply similar_compile_from_question.
Qed.

Lemma similar_goals : check_goals t = check_goals s.
Proof.
  unfold check_goals. f_equal. change (implementation_goal_candidates t) with (implementation_goal_candidates s).
  induction (implementation_goal_candidates s) as [|c cs IH]; [done|]. cbn [for_each]. rewrite IH. f_equal.
  unfold check_goal_candidate. by rewrite similar_compile.
Qed.

Lemma similar_learning : check_learning t = check_learning s.
Proof.
  unfold check_learning. change (memory_patch_candidates t) with (memory_patch_candidates s).
  assert (∀ p, owned_patch t p = owned_patch s p) as Hp by (intros p; unfold owned_patch; by rewrite similar_returns).
  assert (forallb (owned_patch t) (memory_patch_candidates s) = forallb (owned_patch s) (memory_patch_candidates s)) as ->.
  { induction (memory_patch_candidates s) as [|p ps IH]; [done|]. cbn. by rewrite Hp, IH. }
  done.
Qed.

Lemma similar_packages : check_packages t = check_packages s.
Proof. unfold check_packages, check_owned_refs. by rewrite similar_owned. Qed.

(** The sequence number only grows, so queries stay behind it. *)
Lemma similar_retrievals : check_retrievals s = Ok tt → check_retrievals t = Ok tt.
Proof.
  unfold check_retrievals. rewrite !seq_ok. intros (H1 & H2 & H3 & H4). split_and!; [exact H1|exact H2| |exact H4].
  change (retrieval_results t) with (retrieval_results s). revert H3. rewrite !for_each_ok.
  intros H r Hr. specialize (H r Hr). revert H. unfold check_retrieval_result.
  change (retrieval_queries t) with (retrieval_queries s). rewrite !bind_ok.
  intros (q & Hq & H). exists q. split; [exact Hq|]. revert H. rewrite !seq_ok.
  intros (G1 & G2 & G3 & G4). split_and!; [exact G1|exact G2| |exact G4].
  revert G3. unfold refuse. rewrite !raise_if_tt, !Z.leb_gt. cbn. lia.
Qed.

Lemma similar_effects : check_effects t = check_effects s.
Proof.
  unfold check_effects. rewrite similar_returns.
  assert (effect_requests t = l) as -> by done.
  assert (recorded_decode_outcome_ids t = recorded_decode_outcome_ids s) as ->.
  { unfold recorded_decode_outcome_ids, all_decodes. f_equal. symmetry.
    apply (flat_map_Forall2 similar); [apply sim_decodes|exact Hl]. }
  rewrite <- (map_Forall2 _ _ _ _ similar_id Hl), <- (omap_Forall2 _ _ _ _ similar_accepted_result Hl).
  assert (map att_id (all_attempts l) = map att_id (all_attempts (effect_requests s))) as ->.
  { unfold all_attempts. rewrite !map_flat_map. symmetry.
    apply (flat_map_Forall2 similar); [apply sim_attempts|exact Hl]. }
  change (step_plans t) with (step_plans s). change (backlog_effects t) with (backlog_effects s).
  assert (∀ ids, existsb (λ r, negb (mem (req_step_plan_id (ers_request r)) ids)) l
                 = existsb (λ r, negb (mem (req_step_plan_id (ers_request r)) ids)) (effect_requests s)) as ->; [|done].
  intros ids. symmetry. apply (existsb_Forall2 similar); [|exact Hl]. intros x y H. by rewrite (sim_request _ _ H).
Qed.

Lemma similar_recovery : check_recovery t = check_recovery s.
Proof.
  assert (∀ ks seen, check_links t seen ks = check_links s seen ks) as Hk.
  { induction ks as [|k ks IH]; intros seen; [done|]. cbn [check_links].
    change (reacquisition_requests t) with (reacquisition_requests s). case_match; [by rewrite IH|done]. }
  assert (∀ os links seen, check_observations t links seen os = check_observations s links seen os) as Ho.
  { induction os as [|o os IH]; intros links seen; [done|]. cbn [check_observations].
    change (reacquisition_requests t) with (reacquisition_requests s). repeat case_match; [by rewrite IH|done..]. }
  unfold check_recovery. change (reacquisition_inquiry_links t) with (reacquisition_inquiry_links s). rewrite Hk.
  destruct (check_links s _ _) as [links|x]; [|done]. cbn [mbind result_bind]. by rewrite Ho.
Qed.

Lemma similar_valid : st_status s = STATUS_ACTIVE → validate_lifecycle s = Ok tt → validate_lifecycle t = Ok tt.
Proof.
  intros Hact. unfold validate_lifecycle, check_extensions, check_project. rewrite !seq_ok.
  rewrite similar_effects, similar_learning, similar_packages, similar_goals.
  intros H. destruct_and?. split_and?; try done.
  - revert select (check_status s = _). unfold check_status. change (st_status t) with (st_status s). by rewrite Hact.
  - by apply similar_retrievals.
  - by rewrite similar_recovery.
Qed.
End Similar.

(** ** Ending an attempt without a return *)

(** The outcome ends the attempt, and captures nothing. *)
Definition ends (a : AttemptState) (o : AttemptOutcome) : Prop :=
  outcome_attempt_id o = att_id a ∧ outcome_route_id o = rs_id (ap_route (att_plan a)) ∧ outcome_return o = None.

Definition in_flight (a : AttemptState) : bool := att_started a && is_none (att_outcome a).

(** The attempts in flight, each with the id of its request. *)
Definition request_pending (r : EffectRequestState) : list (string * AttemptState) :=
  map (λ a, (ers_id r, a)) (List.filter in_flight (ers_attempts r)).
Definition pending_attempts (s : InquiryState) : list (string * AttemptState) :=
  flat_map request_pending (effect_requests s).

Lemma in_flight_true a : in_flight a = true ↔ att_started a = true ∧ att_outcome a = None.
Proof. unfold in_flight. rewrite andb_true_iff. destruct (att_outcome a); split; intros [??]; done. Qed.

Lemma elem_of_pending s qa :
  qa ∈ pending_attempts s ↔
  ∃ r, r ∈ effect_requests s ∧ qa.1 = ers_id r ∧ qa.2 ∈ ers_attempts r ∧ in_flight qa.2 = true.
Proof.
  unfold pending_attempts. rewrite elem_of_flat_map. split.
  - intros (r & Hr & (a & [Ha Hf]%elem_of_lfilter & ->)%elem_of_map). by exists r.
  - intros (r & Hr & Hq & Ha & Hf). exists r. split; [done|]. apply elem_of_map. exists qa.2.
    split; [by apply elem_of_lfilter|]. rewrite <- Hq. by destruct qa.
Qed.

Definition ended_request (r : EffectRequestState) (a : AttemptState) (o : AttemptOutcome) : EffectRequestState :=
  with_attempts r (update_attempt (att_id a) (λ a, ended_attempt a o) (ers_attempts r)).

(** Ending an attempt takes it, and no other, off the attempts in flight. *)
Lemma update_pending (q : string) a o l :
  map (λ b, (q, b)) (List.filter in_flight (update_attempt (att_id a) (λ b, ended_attempt b o) l))
  = List.filter (λ qb, att_id qb.2 !=? att_id a) (map (λ b, (q, b)) (List.filter in_flight l)).
Proof.
  induction l as [|b l IH]; [done|]. cbn [update_attempt map List.filter].
  fold (update_attempt (att_id a) (λ b, ended_attempt b o) l). destruct (att_id b ==? att_id a) eqn:Eb.
  - assert (in_flight (ended_attempt b o) = false) as -> by apply andb_false_r.
    rewrite IH. destruct (in_flight b); [|done]. cbn [map List.filter snd]. by rewrite Eb.
  - destruct (in_flight b); [|exact IH]. cbn [map List.filter snd]. rewrite Eb. cbn [negb]. by rewrite IH.
Qed.

Section End_attempt.
Context (s : InquiryState) (r : EffectRequestState) (a : AttemptState) (o : AttemptOutcome).
Context (Hs : Reachable s) (Hr : r ∈ effect_requests s) (Ha : a ∈ ers_attempts r).
Context (Hf : in_flight a = true) (Ho : ends a o).

Let Hok : EffectsOK s := valid_effects s (reachable_valid s Hs).

Lemma the_attempt b : b ∈ ers_attempts r → att_id b = att_id a → b = a.
Proof. intros Hb Hid. by apply (attempt_unique r b a (valid_request_attempts s r Hok Hr)). Qed.

Lemma ended_similar : similar r (ended_request r a o).
Proof.
  destruct (proj1 (in_flight_true a) Hf) as [Hst Hout]. destruct Ho as (_ & _ & Hret). split; try done; cbn [ended_request with_attempts ers_attempts].
  - unfold update_attempt. rewrite map_map. apply map_ext. intros b. by destruct (_ ==? _).
  - unfold update_attempt. assert (∀ l, (∀ b, b ∈ l → b ∈ ers_attempts r) →
      omap attempt_return l
      = omap attempt_return (map (λ b, if att_id b ==? att_id a then ended_attempt b o else b) l)) as H; [|by apply H].
    induction l as [|b l IH]; intros Hl; [done|]. cbn [omap list_omap map].
    rewrite <- IH by (intros c Hc; apply Hl; by right). destruct (att_id b ==? att_id a) eqn:E; [|done].
    rewrite eqb_true in E. rewrite (the_attempt b (Hl b (list_elem_of_here _ _)) E).
    unfold attempt_return at 1 3. rewrite Hout. cbn. by rewrite Hret.
Qed.

Lemma ended_requests_similar : Forall2 similar (effect_requests s) (replace_request s (ended_request r a o)).
Proof.
  unfold replace_request. pose proof (ok_requests _ Hok) as Hnd.
  assert (∀ l, (∀ x, x ∈ l → x ∈ effect_requests s) →
    Forall2 similar l (map (λ x, if ers_id x ==? ers_id (ended_request r a o) then ended_request r a o else x) l)) as H;
    [|by apply H].
  induction l as [|x l IH]; intros Hl; [done|]. cbn [map]. constructor; [|apply IH; intros y Hy; apply Hl; by right].
  destruct (ers_id x ==? _) eqn:E; [|apply similar_refl]. rewrite eqb_true in E.
  rewrite (NoDup_map_inj ers_id _ x r Hnd (Hl x (list_elem_of_here _ _)) Hr E). apply ended_similar.
Qed.

Definition ended_state : InquiryState := next_sequence (set_requests s (replace_request s (ended_request r a o))).

Lemma find_request : request_by_id s (ers_id r) = Some r.
Proof.
  unfold request_by_id. destruct (first_is_Some (λ x, ers_id x ==? ers_id r) (effect_requests s) r Hr) as (x & Hx & Hk & Hin);
    [by apply eqb_true|]. rewrite Hx. f_equal. rewrite eqb_true in Hk.
  by apply (NoDup_map_inj ers_id _ _ _ (ok_requests _ Hok)).
Qed.

Lemma find_attempt : first (λ b, att_id b ==? outcome_attempt_id o) (ers_attempts r) = Some a.
Proof.
  destruct Ho as (Hid & _ & _).
  destruct (first_is_Some (λ b, att_id b ==? outcome_attempt_id o) (ers_attempts r) a Ha) as (x & Hx & Hk & Hin);
    [by apply eqb_true|]. rewrite Hx. f_equal. rewrite eqb_true in Hk. apply the_attempt; [done|]. by rewrite Hk.
Qed.

Lemma active_state : st_status s = STATUS_ACTIVE.
Proof.
  destruct (st_status s) eqn:E; [|done]. pose proof (unstarted_is_initial s (reachable_valid s Hs) E) as ->.
  by apply not_elem_of_nil in Hr.
Qed.

Lemma end_decided m :
  st_inquiry_id s = Some (meta_inquiry_id m) →
  decide s (MkCommand m (RecordAttemptOutcome (ers_id r) o))
  = Ok [MkEvent m (EffectAttemptOutcomeRecorded (ers_id r) o)].
Proof.
  intros Hm. unfold decide, decide_body. cbn [cmd_meta cmd_body]. unfold require_active.
  rewrite (proj2 (neqb_false _ _) active_state), (proj2 (neqb_false _ _) Hm). cbn [raise_if mbind result_bind].
  unfold decide_record_attempt_outcome, require_request. rewrite find_request. cbn [mbind result_bind].
  rewrite find_attempt. destruct (proj1 (in_flight_true a) Hf) as [Hst Hout]. destruct Ho as (_ & Hroute & Hret).
  rewrite Hst, (proj2 (neqb_false _ _) (eq_sym Hroute)), Hout, Hret. done.
Qed.

Lemma end_evolved m :
  st_inquiry_id s = Some (meta_inquiry_id m) →
  evolve s (MkEvent m (EffectAttemptOutcomeRecorded (ers_id r) o)) = Ok ended_state.
Proof.
  intros Hm. apply evolve_ok. split_and!.
  - unfold admissible. cbn [evt_body evt_meta]. split; [apply active_state|]. split; [done|].
    unfold lawful_event, command_of, effect_guards. cbn [evt_body].
    destruct (reachable_requests_valid s Hs r Hr) as (Hc & Hat & _).
    destruct (proj1 (in_flight_true a) Hf) as [Hst Hout]. destruct Ho as (Hid & Hroute & _). rewrite Hid.
    exists r, a. split_and!; [apply find_request|rewrite <- Hid; apply find_attempt|done|done|done| |].
    + apply validate_attempt_ended; [by apply Hat|done].
    + revert Hc. unfold validate_cardinalities, return_ids. destruct ended_similar as [_ H1 H2 _ _].
      unfold ended_request in H1, H2. rewrite <- H1, <- H2. done.
  - unfold ended_state, recorded. cbn [evt_body]. unfold effect_records. cbn [evt_body].
    rewrite find_request. cbn [mbind option_bind]. destruct Ho as (-> & _ & _).
    symmetry. by apply next_sequence_id.
  - apply similar_valid; [apply ended_requests_similar|apply active_state|by apply reachable_valid].
Qed.

(** The other attempts in flight stay in flight, in their order. *)
Lemma ended_pending :
  pending_attempts ended_state
  = List.filter (λ qb, att_id qb.2 !=? att_id a) (pending_attempts s).
Proof.
  unfold pending_attempts at 1.
  change (effect_requests ended_state) with (replace_request s (ended_request r a o)).
  unfold pending_attempts, replace_request.
  assert (∀ l, (∀ x, x ∈ l → x ∈ effect_requests s) →
    flat_map request_pending (map (λ x, if ers_id x ==? ers_id (ended_request r a o) then ended_request r a o else x) l)
    = List.filter (λ qb, att_id qb.2 !=? att_id a) (flat_map request_pending l)) as H; [|by apply H].
  induction l as [|x l IH]; intros Hl; [done|]. cbn [map flat_map].
  rewrite List.filter_app, IH by (intros y Hy; apply Hl; by right). f_equal.
  assert (x ∈ effect_requests s) as Hx by (apply Hl; left).
  destruct (ers_id x ==? _) eqn:E.
  - rewrite eqb_true in E. rewrite (NoDup_map_inj ers_id _ x r (ok_requests _ Hok) Hx Hr E).
    apply (update_pending (ers_id r)).
  - symmetry. apply StoreLog.filter_true. intros qb (b & [Hb _]%elem_of_lfilter & ->)%elem_of_map. cbn.
    apply negb_true_iff, eqb_false. intros Hid. rewrite eqb_false in E. apply E. change (ers_id x = ers_id r). f_equal.
    eapply (NoDup_flat_map_inj (λ x, map att_id (ers_attempts x)));
      [pose proof (ok_attempts _ Hok) as Hat; unfold all_attempts in Hat; by rewrite map_flat_map in Hat
      |done|done|by apply elem_of_map_1|rewrite Hid; by apply elem_of_map_1].
Qed.
End End_attempt.

(** Ending every attempt in flight, one after the other. *)
Fixpoint settle (m : Meta) (outcome : AttemptState → AttemptOutcome) (l : list (string * AttemptState)) :
    list DomainCommand :=
  match l with
  | [] => []
  | (q, a) :: l => MkCommand m (RecordAttemptOutcome q (outcome a)) :: settle m outcome l
  end.

Lemma pending_distinct s : Reachable s → NoDup (map (λ qa, att_id qa.2) (pending_attempts s)).
Proof.
  intros Hs. pose proof (ok_attempts _ (valid_effects s (reachable_valid s Hs))) as H. revert H.
  unfold pending_attempts, all_attempts. rewrite !map_flat_map.
  induction (effect_requests s) as [|r l IH]; cbn; [done|]. intros (H1 & H2 & H3)%NoDup_app.
  apply NoDup_app. split_and!; [| |by apply IH].
  - unfold request_pending. rewrite map_map. cbn. by apply NoDup_map_lfilter.
  - intros x Hx Hx'. apply (H2 x).
    + unfold request_pending in Hx. rewrite map_map in Hx. apply elem_of_map in Hx as (b & [Hb _]%elem_of_lfilter & ->).
      by apply elem_of_map_1.
    + apply elem_of_flat_map in Hx' as (y & Hy & Hx'). apply elem_of_flat_map. exists y. split; [done|].
      unfold request_pending in Hx'. rewrite map_map in Hx'. apply elem_of_map in Hx' as (b & [Hb _]%elem_of_lfilter & ->).
      by apply elem_of_map_1.
Qed.

(** C9: No attempt is ever stuck.  Every reachable inquiry can be brought to rest:
    for any choice of outcomes that end their attempts without a return (failed
    capture, unknown or refused presentation, cancellation), the batch that records
    them one after the other for the attempts in flight is accepted, records one
    event per attempt, and leaves no attempt in flight. *)
Theorem attempts_can_settle s m outcome :
  Reachable s → st_inquiry_id s = Some (meta_inquiry_id m) → (∀ a, ends a (outcome a)) →
  ∃ s', apply_batch (settle m outcome (pending_attempts s)) s
        = Ok (map (λ qa, MkEvent m (EffectAttemptOutcomeRecorded qa.1 (outcome qa.2))) (pending_attempts s), s')
        ∧ pending_attempts s' = [] ∧ Reachable s'.
Proof.
  intros Hs Hm Hout. remember (pending_attempts s) as l eqn:Hl. revert s Hs Hm Hl.
  induction l as [|[q a] l IH]; intros s Hs Hm Hl; [by exists s|].
  assert ((q, a) ∈ pending_attempts s) as Hin by (rewrite <- Hl; left).
  apply elem_of_pending in Hin as (r & Hr & Hq & Ha & Hf). cbn [fst snd] in Hq, Ha, Hf. subst q.
  pose proof (end_decided s r a (outcome a) Hs Hr Ha Hf (Hout a) m Hm) as Hd.
  pose proof (end_evolved s r a (outcome a) Hs Hr Ha Hf (Hout a) m Hm) as He.
  pose proof (ended_pending s r a (outcome a) Hs Hr Ha) as Hp.
  assert (Reachable (ended_state s r a (outcome a))) as Hs'.
  { destruct Hs as [es Hes]. exists (es ++ [MkEvent m (EffectAttemptOutcomeRecorded (ers_id r) (outcome a))]).
    rewrite replay_snoc. eauto. }
  destruct (IH (ended_state s r a (outcome a))) as (s' & Hb & Hend & Hre); [done..| |].
  - rewrite Hp, <- Hl. pose proof (pending_distinct s Hs) as Hnd. rewrite <- Hl in Hnd. cbn [map snd] in Hnd.
    apply NoDup_cons in Hnd as [Hna _]. cbn [List.filter snd]. rewrite bool_decide_true by done. cbn [negb].
    symmetry. apply filter_true. intros qb Hqb. apply negb_true_iff, eqb_false. intros E. apply Hna.
    apply elem_of_map. by exists qb.
  - exists s'. split; [|done]. cbn [settle apply_batch map]. rewrite Hd. cbn [mbind result_bind replay].
    rewrite He. cbn [mbind result_bind]. by rewrite Hb.
Qed.

(** The first part of the scenario leaves its attempt in flight. *)
Lemma attempts_can_settle_witness :
  length (pending_attempts Scenario.state1) = 1
  ∧ ∃ s', pending_attempts s' = [] ∧ Reachable s'.
Proof.
  split; [vm_compute; reflexivity|].
  destruct (attempts_can_settle Scenario.state1 (MkMeta "settle" "inq" 99)
              (λ a, CancelledOutcome (att_id a) (rs_id (ap_route (att_plan a))) SHUTDOWN None)) as (s' & _ & H).
  - exists Scenario.log1. vm_compute. reflexivity.
  - vm_compute. reflexivity.
  - intros a. split; [reflexivity|]. split; reflexivity.
  - exists s'. exact H.
Defined.
