(* ===== verification/ExecutorLog.v ===== *)
(** * What the executor presents, and when

    Every computation of the executor only adds to the log of adapter calls; the
    rules below bound how many calls of a kind it adds, and state what holds of the
    runtime at a call. *)

From S2P Require Import Prelude Digest Memory Learning Compression Model Claims Effects Probes Artifacts Retention Licensing Goals Extensions Decide State Evolve Scenario Serialization Store StoreExample Ledger Reachable StoreLog Runtime Executor SdkLog Liveness.

(** ** Counting calls *)

(** The computation adds at most [n] calls of the kinds [p]. *)
Definition adds {A} (p : CallKind → bool) (n : nat) (m : exec A) : Prop :=
  ∀ w, ∃ calls, w_calls (m w).2 = w_calls w ++ calls
                ∧ length (List.filter (λ c, p (call_kind c)) calls) <= n.

Section Adds.
Context (p : CallKind → bool).

Lemma adds_more {A} n k (m : exec A) : adds p n m → n <= k → adds p k m.
Proof. intros H Hle w. destruct (H w) as (calls & Hc & Hn). exists calls. split; [done|lia]. Qed.

Lemma adds_none {A} (m : exec A) : (∀ w, w_calls (m w).2 = w_calls w) → adds p 0 m.
Proof. intros H w. exists []. by rewrite H, app_nil_r. Qed.

Lemma adds_ret {A} (a : A) : adds p 0 (mret a : exec A).
Proof. by apply adds_none. Qed.
Lemma adds_pure {A} (m : result A) : adds p 0 (pure m).
Proof. by apply adds_none. Qed.
Lemma adds_on_runtime {A} (m : sdk A) : adds p 0 (on_runtime m).
Proof. apply adds_none. intros w. unfold on_runtime. by destruct (m (w_runtime w)). Qed.

Lemma adds_calling {A} k (f : list AdapterCall → A) : adds p (if p k then 1 else 0) (calling k f).
Proof. intros w. exists [MkAdapterCall k (w_runtime w)]. split; [done|]. cbn. by destruct (p k). Qed.

Lemma adds_bind {A B} n k (m : exec A) (f : A → exec B) :
  adds p n m → (∀ a, adds p k (f a)) → adds p (n + k) (m ≫= f).
Proof.
  intros Hm Hf w. destruct (Hm w) as (c1 & H1 & N1). unfold mbind, exec_bind.
  destruct (m w) as [[a|x] w1]; cbn [snd] in H1.
  - destruct (Hf a w1) as (c2 & H2 & N2). exists (c1 ++ c2). rewrite H2, H1, <- app_assoc. split; [done|].
    rewrite List.filter_app, length_app. lia.
  - exists c1. split; [done|lia].
Qed.

Lemma adds_bind0 {A B} (m : exec A) (f : A → exec B) :
  adds p 0 m → (∀ a, adds p 0 (f a)) → adds p 0 (m ≫= f).
Proof. apply (adds_bind 0 0). Qed.

Lemma adds_ret_bind {A B} n (a : A) (f : A → exec B) : adds p n (f a) → adds p n (mret a ≫= f).
Proof. done. Qed.
End Adds.

Create HintDb adds discriminated.
#[export] Hint Resolve adds_ret adds_pure adds_on_runtime : adds.

(** Computations that only read and write the runtime, or call the adapter for kinds
    that are not counted. *)
Ltac adds :=
  repeat first
    [ progress eauto with adds
    | apply adds_bind0; [|intros ?]
    | apply adds_calling
    | case_match ].

Section Quiet.
Context (py : Pydantic) (clock : nat → Z) (registry : list RouteDefinition) (adapter : Adapter).

Definition presents (k : CallKind) : bool :=
  match k with CallPreflight | CallPerformExact _ _ => true | _ => false end.
Definition performs (k : CallKind) : bool := match k with CallPerformExact _ _ => true | _ => false end.

Lemma adds_unless {A} p k (f : list AdapterCall → A) : p k = false → adds p 0 (calling k f).
Proof. intros H. pose proof (adds_calling p k f) as Hc. by rewrite H in Hc. Qed.

Lemma diagnostic_adds p fields media : adds p 0 (diagnostic_artifact fields media).
Proof. apply adds_on_runtime. Qed.
Lemma record_outcome_adds p iid q att suffix o : adds p 0 (record_outcome py clock iid q att suffix o).
Proof. unfold record_outcome. adds. Qed.

Lemma checked_input_adds r a p : (∀ input, p (CallValidateInput input) = false) → adds p 0 (checked_input registry adapter r a).
Proof.
  intros Hp. unfold checked_input. do 4 (apply adds_bind0; [adds|intros ?]).
  apply adds_bind0; [by apply adds_unless|]. intros v. adds.
Qed.

Lemma interpret_adds p iid q att accept s r a :
  (∀ raw, p (CallDecodeExact raw) = false) → adds p 0 (interpret py clock adapter iid q att accept s r a).
Proof.
  intros Hp. unfold interpret. destruct (attempt_return a) as [x|]; [|adds].
  do 2 (apply adds_bind0; [adds|intros ?]). apply adds_bind0; [|intros found; adds].
  unfold ensure_decoded. case_match; [adds|]. apply adds_bind0; [by apply adds_unless|intros ?].
  do 2 (apply adds_bind0; [adds|intros ?]). apply adds_bind0; [|intros ?; adds].
  unfold decode_outcome. adds; apply diagnostic_adds.
Qed.

Lemma ensure_started_adds iid q att s r a : adds performs 0 (ensure_started py clock adapter iid q att s r a).
Proof.
  unfold ensure_started. case_match; [adds|]. apply adds_bind0; [by apply adds_unless|intros pf].
  destruct pf; [adds| |adds]. apply adds_bind0; [apply diagnostic_adds|intros ?]. adds.
Qed.

Lemma ensure_presented_adds iid q att input s r a :
  adds performs 1 (ensure_presented py clock adapter iid q att input s r a).
Proof.
  unfold ensure_presented. case_match; [apply (adds_more _ 0); [adds|lia]|]. cbv zeta.
  apply (adds_bind _ 1 0); [exact (adds_calling performs (CallPerformExact _ _) _)|intros pf].
  destruct pf; unfold capture_return, presentation_unknown; adds; apply diagnostic_adds || apply record_outcome_adds.
Qed.
End Quiet.

(** C8: A captured return is never presented again.  Executing an attempt that has
    an outcome, whatever the adapter would answer, makes no preflight and no
    presentation: the executor only reads, decodes what was captured, and accepts. *)
Theorem captured_return_not_repeated py clock registry adapter inquiry_id request_id attempt_id accept_decoded w s r a :
  inspect py inquiry_id (w_runtime w) = (Ok s, w_runtime w) →
  locate_attempt s request_id attempt_id = Ok (r, a) → validate_attempt a = Ok tt → is_some (att_outcome a) = true →
  ∃ calls, w_calls (execute py clock registry adapter inquiry_id request_id attempt_id accept_decoded w).2 = w_calls w ++ calls
           ∧ ∀ c, c ∈ calls → presents (call_kind c) = false.
Proof.
  intros Hi Hl Hv Ho.
  assert (att_started a = true) as Hst.
  { destruct (att_started a) eqn:E; [done|]. by rewrite (validate_attempt_unstarted a Hv E) in Ho. }
  assert (adds presents 0 (execute_attempt py clock registry adapter inquiry_id request_id attempt_id accept_decoded s r a)) as H.
  { unfold execute_attempt. apply adds_bind0; [by apply checked_input_adds|intros input].
    destruct (finished r a); [adds|]. unfold ensure_started. rewrite Hst. apply adds_ret_bind.
    apply adds_bind0; [adds|intros _]. unfold ensure_presented. rewrite Ho. apply adds_ret_bind.
    by apply interpret_adds. }
  destruct (H w) as (calls & Hc & Hn). exists calls.
  assert (execute py clock registry adapter inquiry_id request_id attempt_id accept_decoded w
          = execute_attempt py clock registry adapter inquiry_id request_id attempt_id accept_decoded s r a w) as ->.
  { unfold execute, mbind, exec_bind at 1, on_runtime. rewrite Hi. unfold exec_bind, pure. rewrite Hl. by destruct w. }
  split; [done|]. intros c Hin. destruct (presents (call_kind c)) eqn:Hp; [|done]. exfalso.
  assert (c ∈ List.filter (λ c, presents (call_kind c)) calls) as Hf by by apply elem_of_lfilter.
  destruct (List.filter _ calls); [by apply not_elem_of_nil in Hf|cbn in Hn; lia].
Qed.

(** ** What holds at a call *)

(** A presentation happens at a runtime of which [C] holds. *)
Definition presented_at (C : string → Z → Runtime → Prop) (c : AdapterCall) : Prop :=
  match call_kind c with CallPerformExact input timeout => C input timeout (call_runtime c) | _ => True end.

(** From a world where [P] holds, the computation presents only where [C] holds, and
    when it returns, [Q] holds. *)
Definition at_calls {A} (C : string → Z → Runtime → Prop) (P : World → Prop) (m : exec A) (Q : A → World → Prop) : Prop :=
  ∀ w, P w → (∃ calls, w_calls (m w).2 = w_calls w ++ calls ∧ ∀ c, c ∈ calls → presented_at C c)
             ∧ (∀ a, (m w).1 = Ok a → Q a (m w).2).

Section At_calls.
Context (C : string → Z → Runtime → Prop).

Lemma at_bind {A B} P R Q (m : exec A) (f : A → exec B) :
  at_calls C P m R → (∀ a, at_calls C (R a) (f a) Q) → at_calls C P (m ≫= f) Q.
Proof.
  intros Hm Hf w Hw. destruct (Hm w Hw) as [(c1 & H1 & N1) Hr]. unfold mbind, exec_bind.
  destruct (m w) as [[a|x] w1]; cbn [fst snd] in *.
  - destruct (Hf a w1 (Hr a eq_refl)) as [(c2 & H2 & N2) Hq]. split; [|exact Hq].
    exists (c1 ++ c2). rewrite H2, H1, <- app_assoc. split; [done|]. intros c [Hc|Hc]%elem_of_app; auto.
  - split; [by exists c1|done].
Qed.

(** A computation without presentations, and what it returns. *)
Lemma at_quiet {A} (P : World → Prop) (m : exec A) Q :
  adds performs 0 m → (∀ w a w', P w → m w = (Ok a, w') → Q a w') → at_calls C P m Q.
Proof.
  intros Hm Hq w Hw. split; [|intros a Ha; eapply Hq; [done|]; rewrite <- Ha; by destruct (m w)]. destruct (Hm w) as (calls & Hc & Hn). exists calls. split; [done|].
  intros c Hin. unfold presented_at. destruct (call_kind c) eqn:Hk; try done. exfalso.
  assert (c ∈ List.filter (λ c, performs (call_kind c)) calls) as Hf by (apply elem_of_lfilter; by rewrite Hk).
  destruct (List.filter _ calls); [by apply not_elem_of_nil in Hf|cbn in Hn; lia].
Qed.

Lemma at_start {A} P P' (m : exec A) Q : (∀ w, P' w → P w) → at_calls C P m Q → at_calls C P' m Q.
Proof. intros Hp Hm w Hw. by apply Hm, Hp. Qed.

Lemma at_silent {A} P (m : exec A) : adds performs 0 m → at_calls C P m (λ _ _, True).
Proof. intros Hm. by apply at_quiet. Qed.
End At_calls.

Lemma exec_bind_ok {A B} (m : exec A) (f : A → exec B) w b w' :
  (m ≫= f) w = (Ok b, w') ↔ ∃ a w1, m w = (Ok a, w1) ∧ f a w1 = (Ok b, w').
Proof.
  unfold mbind, exec_bind. destruct (m w) as [[a|x] w1]; split.
  - eauto.
  - by intros (? & ? & [= -> ->] & ?).
  - done.
  - by intros (? & ? & ? & ?).
Qed.

Lemma on_runtime_ok {A} (m : sdk A) w a w' :
  on_runtime m w = (Ok a, w') ↔ m (w_runtime w) = (Ok a, w_runtime w') ∧ w_calls w' = w_calls w.
Proof.
  unfold on_runtime. destruct (m (w_runtime w)) as [r rt]. destruct w' as [rt' cs']. cbn. split.
  - by intros [= -> -> <-].
  - by intros [[= -> ->] ->].
Qed.

Lemma reading_ok {A} (f : ArtifactStore → result A) rt a rt' :
  reading f rt = (Ok a, rt') ↔ f (rt_artifacts rt) = Ok a ∧ rt' = rt.
Proof. unfold reading. split; [by intros [= -> ->]|by intros [-> ->]]. Qed.

Lemma pure_ok {A} (m : result A) w a w' : pure m w = (Ok a, w') ↔ m = Ok a ∧ w' = w.
Proof. unfold pure. split; [by intros [= -> ->]|by intros [-> ->]]. Qed.

(** The request of an id keeps its fields as the inquiry goes on. *)
Lemma request_kept s s' q r r' :
  Reachable s → Reachable s' → extends s s' → request_by_id s q = Some r → request_by_id s' q = Some r' →
  ers_request r' = ers_request r.
Proof.
  intros Hs Hs' Hext Hr Hr'. apply request_by_id_Some in Hr as [Hin Hid]. apply request_by_id_Some in Hr' as [Hin' Hid'].
  apply list_elem_of_lookup in Hin as [i Hi]. destruct (ext_requests _ _ Hext i r Hi) as (x & Hx & He & _).
  rewrite <- He. f_equal. apply (NoDup_map_inj ers_id _ _ _ (ok_requests _ (valid_effects s' (reachable_valid s' Hs'))));
    [done|by eapply list_elem_of_lookup_2|]. unfold ers_id in *. congruence.
Qed.

Section Presented.
Context (py : Pydantic) (clock : nat → Z) (registry : list RouteDefinition) (adapter : Adapter).
Context (Heq : exact_equality py) (inquiry_id request_id attempt_id : string) (log : Log) (rt0 : Runtime).
Context (Hrp : Represents py (rt_database rt0) log).
Context (Hstart : ∀ n, batch_serializes py log inquiry_id
  [effect_command (clock n) inquiry_id [attempt_id; "started"] (StartEffectAttempt attempt_id)]).

(** A runtime whose ledger has the attempt at hand, with the request's input bytes. *)
Record holds (input : string) (rt : Runtime) (s : InquiryState) (r : EffectRequestState) (a : AttemptState) : Prop := {
  hd_log : ∃ log', Represents py (rt_database rt) log' ∧ replay (stream_of log' inquiry_id) initial_state = Ok s;
  hd_located : locate_attempt s request_id attempt_id = Ok (r, a);
  hd_input : get_bytes (rt_artifacts rt) (req_input_artifact (ers_request r)) = Ok input;
}.

(** The ledger durably holds the started, unfinished attempt that is presented, and
    what is presented is exactly the request's persisted input. *)
Definition durably_started (input : string) (timeout : Z) (rt : Runtime) : Prop :=
  ∃ s r a, holds input rt s r a ∧ in_flight a = true ∧ timeout = req_timeout_seconds (ers_request r).

Lemma locate_ok (s : InquiryState) r a :
  locate_attempt s request_id attempt_id = Ok (r, a) ↔
  request_by_id s request_id = Some r ∧ first (λ a, att_id a ==? attempt_id) (ers_attempts r) = Some a.
Proof.
  unfold locate_attempt, or_raise. destruct (request_by_id s request_id) as [x|]; cbn; [|by split; [|intros [? _]]].
  destruct (first _ (ers_attempts x)) as [b|] eqn:E; cbn.
  - split; [by intros [= <- <-]|]. intros [[= <-] H]. by rewrite E in H; injection H as ->.
  - split; [done|]. intros [[= <-] H]. by rewrite E in H.
Qed.

Lemma checked_input_ok r a w input w' :
  w_runtime w = rt0 → checked_input registry adapter r a w = (Ok input, w') →
  w_runtime w' = rt0 ∧ get_bytes (rt_artifacts rt0) (req_input_artifact (ers_request r)) = Ok input.
Proof.
  intros Hw. unfold checked_input. rewrite exec_bind_ok. intros (? & ? & [_ ->]%pure_ok & H).
  rewrite exec_bind_ok in H. destruct H as (? & w1 & [H1 _]%on_runtime_ok & H). apply reading_ok in H1 as [_ H1].
  rewrite exec_bind_ok in H. destruct H as (? & ? & [_ ->]%pure_ok & H).
  rewrite exec_bind_ok in H. destruct H as (input' & w2 & [H2 _]%on_runtime_ok & H). apply reading_ok in H2 as [Hin H2].
  rewrite exec_bind_ok in H. destruct H as (v & w3 & H3 & H). injection H3 as _ <-.
  rewrite exec_bind_ok in H. destruct H as (? & ? & [_ ->]%pure_ok & H). injection H as <- <-. cbn.
  rewrite H1, Hw in Hin. split; [by rewrite H2, H1, Hw|exact Hin].
Qed.

Lemma tick_ok rt now rt' :
  tick clock rt = (Ok now, rt') →
  now = clock (rt_ticks rt) ∧ rt_database rt' = rt_database rt ∧ rt_artifacts rt' = rt_artifacts rt.
Proof. by intros [= <- <-]. Qed.

Lemma ensure_started_ok input s r a w s' r' a' w' :
  w_runtime w = rt0 → replay (stream_of log inquiry_id) initial_state = Ok s →
  locate_attempt s request_id attempt_id = Ok (r, a) →
  get_bytes (rt_artifacts rt0) (req_input_artifact (ers_request r)) = Ok input →
  ensure_started py clock adapter inquiry_id request_id attempt_id s r a w = (Ok (inr (s', r', a')), w') →
  holds input (w_runtime w') s' r' a'.
Proof.
  intros Hw Hs Hl Hin. unfold ensure_started. destruct (att_started a).
  { intros [= <- <- <- <-]. rewrite Hw. split; [by exists log|done|done]. }
  rewrite exec_bind_ok. intros (pf & w1 & H1 & H). injection H1 as _ <-. destruct pf as [|name|x]; [| |done].
  - rewrite exec_bind_ok in H. destruct H as (now & w2 & [H2 _]%on_runtime_ok & H).
    rewrite exec_bind_ok in H. destruct H as (s1 & w3 & [H3 _]%on_runtime_ok & H).
    rewrite exec_bind_ok in H. destruct H as (located & w4 & [Hl' ->]%pure_ok & H). injection H as <- <- <- <-.
    apply tick_ok in H2 as (-> & Hdb & Hart). cbn [w_runtime] in Hdb, Hart. rewrite Hw in Hdb, Hart.
    pose proof (append_attempts_committed py Heq 3 log inquiry_id
      [effect_command (clock (rt_ticks (w_runtime w))) inquiry_id [attempt_id; "started"] (StartEffectAttempt attempt_id)]
      (w_runtime w2)) as Hc.
    unfold append_batch in H3. cbn [w_runtime] in H3. rewrite H3, Hdb in Hc. specialize (Hc Hrp (Hstart _)). destruct Hc as [Hd Ha _ _].
    destruct Hd as (t & es & Ht & Hes & _ & Hrp' & Hre). rewrite Hs in Ht. injection Ht as <-. split.
    + by exists (log_append inquiry_id es log).
    + rewrite Hl'. by destruct located.
    + assert (ers_request located.1 = ers_request r) as ->; [|by rewrite Ha, Hart].
      destruct located as [r1 a1]. apply locate_ok in Hl as [Hr _]. apply locate_ok in Hl' as [Hr' _]. cbn [fst].
      apply (request_kept s s1 request_id); [by eexists|by eexists| |done|done].
      apply apply_batch_replay in Hes. apply (replay_extends es s s1); [by eexists|done].
  - rewrite exec_bind_ok in H. destruct H as (d & w2 & _ & H).
    rewrite exec_bind_ok in H. destruct H as (now & w3 & _ & H).
    rewrite exec_bind_ok in H. destruct H as (s1 & w4 & _ & H). discriminate.
Qed.

(** The presentation itself, of a started attempt. *)
Lemma ensure_presented_at input s r a :
  att_started a = true →
  at_calls durably_started (λ w, holds input (w_runtime w) s r a)
    (ensure_presented py clock adapter inquiry_id request_id attempt_id input s r a) (λ _ _, True).
Proof.
  intros Hst. unfold ensure_presented. destruct (is_some (att_outcome a)) eqn:Ho; [apply at_silent, adds_ret|]. cbv zeta.
  apply (at_bind _ _ (λ _ _, True)).
  - intros w Hw. split; [|done]. eexists. split; [reflexivity|]. intros c ->%list_elem_of_singleton. cbn.
    exists s, r, a. split_and!; [done| |done]. apply in_flight_true. split; [done|by apply is_some_false].
  - intros pf. apply at_silent. unfold capture_return, presentation_unknown.
    destruct pf; adds; apply diagnostic_adds || apply record_outcome_adds.
Qed.

Lemma execute_attempt_at accept s r a :
  replay (stream_of log inquiry_id) initial_state = Ok s → locate_attempt s request_id attempt_id = Ok (r, a) →
  at_calls durably_started (λ w, w_runtime w = rt0)
    (execute_attempt py clock registry adapter inquiry_id request_id attempt_id accept s r a) (λ _ _, True).
Proof.
  intros Hs Hl. unfold execute_attempt.
  apply (at_bind _ _ (λ input w, w_runtime w = rt0 ∧ get_bytes (rt_artifacts rt0) (req_input_artifact (ers_request r)) = Ok input)).
  { apply at_quiet; [by apply checked_input_adds|]. intros w input w' Hw. by eapply checked_input_ok. }
  intros input. destruct (finished r a); [apply at_silent, adds_ret|].
  apply (at_bind _ _ (λ st w, match st with inr (s', r', a') => holds input (w_runtime w) s' r' a' | inl _ => True end)).
  { apply at_quiet; [apply ensure_started_adds|]. intros w [s'|[[s' r'] a']] w' [Hw Hin]; [done|]. by eapply ensure_started_ok. }
  intros [s'|[[s' r'] a']]; [apply at_silent, adds_ret|]. destruct (att_started a') eqn:Hst; cbn [negb raise_if].
  - apply (at_bind _ _ (λ _ w, holds input (w_runtime w) s' r' a')).
    { apply at_quiet; [adds|]. intros w ? w' Hw [_ ->]%pure_ok. exact Hw. }
    intros _. apply (at_bind _ _ (λ _ _, True)); [by apply ensure_presented_at|].
    intros [s2|[[s2 r2] a2]]; apply at_silent; [adds|by apply interpret_adds].
  - intros w _. split; [|done]. exists []. split; [by rewrite app_nil_r|]. by intros c ?%not_elem_of_nil.
Qed.
End Presented.


(** ** Executions of the scenario's attempt *)

Lemma single_stream_database py st l :
  (∀ e, e ∈ l → Serializable py e) → appendable ∅ st l → forallb plain l = true →
  validate_artifacts None (batch_value py l) = Ok tt →
  ∃ db, Represents py db (log_append st l ∅) ∧ db_snapshots db = [].
Proof.
  intros Hser Ha Hplain Hv. pose proof (represents_empty py) as Hrp.
  destruct (append_total py None empty_database ∅ st l Hrp Ha Hplain Hv) as [[v db] H]; [done|].
  exists db. by apply (append_ok py None empty_database ∅ Hrp) in H as (_ & _ & _ & H & Hs & _).
Qed.

Lemma inspect_total py log rt iid s :
  Represents py (rt_database rt) log → db_snapshots (rt_database rt) = [] → is_identifier iid = true →
  replay (stream_of log iid) initial_state = Ok s →
  validate_artifacts (Some (rt_artifacts rt)) (stored_value py (stored_from py iid 0 (stream_of log iid))) = Ok tt →
  inspect py iid rt = (Ok s, rt).
Proof.
  intros Hrp Hsnap Hid Hs Hart. unfold inspect, rebuild_state, usable_snapshot, load_latest_snapshot. rewrite Hsnap.
  cbn [List.filter sort_by last]. change (sort_by sr_sequence []) with (@nil SnapshotRow). cbn [last mbind result_bind]. cbv zeta.
  rewrite (load_stream_loaded py _ _ log iid _ Hrp). unfold loaded. cbn [initial_state st_sequence]. cbv zeta.
  assert ((Z.of_nat (length (stream_of log iid)) <? 0)%Z = false) as -> by (apply Z.ltb_ge; lia).
  cbn [Z.ltb Z.compare]. cbn [Z.to_nat]. rewrite drop_0, Hart, Hid.
  cbn [negb raise_if mbind result_bind slice_events slice_version]. rewrite stored_events, Hs. cbn [mbind result_bind]. destruct (replay_sequence _ _ Hs) as [Hlen _].
  by rewrite (proj2 (eqb_true _ _) Hlen).
Qed.

Definition raising_adapter : Adapter := {|
  ad_id := "human"; ad_version := "1.0.0";
  ad_validate_input _ _ := Ok tt;
  ad_preflight _ := PreflightPassed;
  ad_perform_exact _ _ _ := RaisedTimeout "TimeoutError";
  ad_decode_exact _ _ := raise ValueError "undecodable";
|}.

Lemma stored_run_appendable : appendable ∅ "inq" stored_run.
Proof.
  split.
  - apply Forall_forall. repeat (constructor; [reflexivity|]). constructor.
  - apply (bool_decide_unpack _). vm_compute. exact I.
  - intros e x _ [st Hx]. unfold stream_of in Hx. rewrite lookup_empty in Hx. by apply not_elem_of_nil in Hx.
  - exists Scenario.state2. unfold stream_of. rewrite lookup_empty. vm_compute. reflexivity.
Qed.

Lemma captured_return_not_repeated_witness :
  ∃ db calls, Represents stored_codec db (log_append "inq" stored_run ∅)
    ∧ w_calls (execute stored_codec (λ _, 0%Z) [] raising_adapter "inq" "req" "att" true (MkWorld (MkRuntime ∅ db 0) [])).2 = calls
    ∧ ∀ c, c ∈ calls → presents (call_kind c) = false.
Proof.
  destruct (single_stream_database stored_codec "inq" stored_run stored_serializable stored_run_appendable)
    as (db & Hdb & Hsnap); [reflexivity|reflexivity|].
  destruct (locate_attempt Scenario.state2 "req" "att") as [[r a]|] eqn:Hl; [|vm_compute in Hl; discriminate].
  destruct (captured_return_not_repeated stored_codec (λ _, 0%Z) [] raising_adapter "inq" "req" "att" true
              (MkWorld (MkRuntime ∅ db 0) []) Scenario.state2 r a) as (calls & Hc & Hq).
  - apply (inspect_total stored_codec (log_append "inq" stored_run ∅)); [exact Hdb|exact Hsnap|reflexivity| |].
    + vm_compute. reflexivity.
    + vm_compute. reflexivity.
  - exact Hl.
  - vm_compute in Hl. injection Hl as <- <-. reflexivity.
  - vm_compute in Hl. injection Hl as <- <-. reflexivity.
  - exists db, calls. split; [exact Hdb|]. split; [exact Hc|exact Hq].
Defined.

(** The scenario before its attempt starts, and the start the executor records. *)
Definition planned_log : list DomainEvent := take 7 Scenario.log1.
Definition executor_start : DomainCommand :=
  effect_command 5 "inq" ["att"; "started"] (StartEffectAttempt "att").
Definition executor_run : list DomainEvent :=
  planned_log ++ [MkEvent (cmd_meta executor_start) (EffectAttemptStarted "att")].
Definition executor_codec : Pydantic := run_codec executor_run [].

Lemma executor_serializable e : e ∈ executor_run → Serializable executor_codec e.
Proof. apply run_codec_serializable. apply (bool_decide_unpack _). vm_compute. exact I. Qed.

Lemma planned_appendable : appendable ∅ "inq" planned_log.
Proof.
  split.
  - apply Forall_forall. repeat (constructor; [reflexivity|]). constructor.
  - apply (bool_decide_unpack _). vm_compute. exact I.
  - intros e x _ [st Hx]. unfold stream_of in Hx. rewrite lookup_empty in Hx. by apply not_elem_of_nil in Hx.
  - eexists. unfold stream_of. rewrite lookup_empty. vm_compute. reflexivity.
Qed.

Lemma executor_start_serializes :
  batch_serializes executor_codec (log_append "inq" planned_log ∅) "inq" [executor_start].
Proof.
  intros s es s' Hs Hd e He. apply executor_serializable, elem_of_app. right.
  assert (es = [MkEvent (cmd_meta executor_start) (EffectAttemptStarted "att")]) as <-; [|exact He].
  vm_compute in Hs. injection Hs as <-. vm_compute in Hd. injection Hd as <- _. vm_compute. reflexivity.
Qed.

