(* ===== verification/History.v ===== *)
(** * Histories of claims, obligations and attempts

    Invariants of reachable inquiries that no single validator states: lawful
    obligation histories, complete conflict detection, undropped attack
    obligations, the provenance of accepted results and the order of predictions
    and returns.  Each is proved by induction over the accepted log, from what
    the handler of the event checked. *)

From S2P Require Import Prelude Digest Model Claims Warrant Support Policy Planning Backlog Effects Probes State Extensions Lifecycle Guards Decide Evolve Ledger Reachable Scenario.

(** ** Reading a decision back *)

Lemma unless_recorded_inv {A} (eqb : A → A → bool) existing r msg k (x : EventBody) :
  unless_recorded eqb existing r msg k = Ok [x] → existing = None ∧ k = Ok [x].
Proof. destruct existing as [y|]; cbn; [|done]. by destruct (eqb y r). Qed.

Lemma decide_body_active s m b x :
  is_inquiry_started x = false → decide_body s m b = Ok [x] → require_active s (meta_inquiry_id m) = Ok tt.
Proof.
  intros Hx. destruct b; cbn [decide_body];
    try (intros ([] & Hr & _)%bind_ok; exact Hr).
  unfold decide_start_inquiry. repeat case_match; intros [= <-]; discriminate.
Qed.

(** Peel the inversion of one handler: [H : decide_* = Ok [x]]. *)
Ltac inv_decide H :=
  repeat first
    [ apply unless_recorded_inv in H; let E := fresh "Enone" in destruct H as [E H]
    | apply raise_if_bind in H; let G := fresh "G" in destruct H as [G H]
    | let x := fresh "x" in let E := fresh "E" in
      apply bind_ok in H; destruct H as (x & E & H)
    | discriminate H
    | match type of H with
      | match ?o with _ => _ end = Ok _ => let E := fresh "E" in destruct o eqn:E; try discriminate H
      end ];
  try (injection H as <-).

Lemma step_active s e s' :
  Step s e s' → is_inquiry_started (evt_body e) = false →
  st_status s = STATUS_ACTIVE ∧ st_inquiry_id s = Some (meta_inquiry_id (evt_meta e)).
Proof.
  intros Hst Hi. pose proof (step_admissible _ _ _ Hst) as Ha. unfold admissible in Ha.
  destruct (evt_body e); try discriminate; tauto.
Qed.

(** Inside a replayed log, every event is a step between reachable states. *)
Lemma replay_split es e es' s :
  replay (es ++ e :: es') initial_state = Ok s →
  ∃ s1 s2, replay es initial_state = Ok s1 ∧ Step s1 e s2 ∧ replay es' s2 = Ok s
           ∧ replay (es ++ [e]) initial_state = Ok s2.
Proof.
  rewrite replay_app. intros (s1 & H1 & H2)%bind_ok. cbn in H2.
  apply bind_ok in H2 as (s2 & He & H2). exists s1, s2. split_and!; try done.
  - apply evolve_step; [|done]. apply reachable_valid. by exists es.
  - rewrite replay_app, H1. cbn. by rewrite He.
Qed.

(** ** Obligation histories *)

(** [lawful_history st pred ds]: from status [st] after disposition [pred], the
    dispositions extend the tail one by one along lawful transitions, none by a
    generic IMPOSSIBLE, and SATISFIED only with evidence. *)
Inductive lawful_history : ObligationStatus → option string → list ObligationDisposition → Prop :=
| lawful_nil st pred : lawful_history st pred []
| lawful_cons st pred d ds :
    disp_predecessor_id d = pred → disp_status d ∈ lawful st → disp_status d ≠ IMPOSSIBLE →
    (disp_status d = SATISFIED → disp_evidence_refs d ≠ []) →
    lawful_history (disp_status d) (Some (disp_id d)) ds →
    lawful_history st pred (d :: ds).

Definition status_after (st : ObligationStatus) (ds : list ObligationDisposition) : ObligationStatus :=
  match last ds with Some d => disp_status d | None => st end.

Lemma lawful_history_snoc st pred ds d :
  lawful_history st pred ds →
  disp_predecessor_id d = match last ds with Some x => Some (disp_id x) | None => pred end →
  disp_status d ∈ lawful (status_after st ds) → disp_status d ≠ IMPOSSIBLE →
  (disp_status d = SATISFIED → disp_evidence_refs d ≠ []) →
  lawful_history st pred (ds ++ [d]).
Proof.
  intros Hl. revert d. induction Hl as [st pred|st pred x ds Hp Hs Hi He Hl IH]; intros d Hd Hst Hni Hev.
  - constructor; [done..|constructor].
  - cbn. constructor; try done. apply IH; try done.
    + rewrite Hd, last_cons. by destruct (last ds).
    + revert Hst. unfold status_after. rewrite last_cons. by destruct (last ds).
Qed.

Lemma lawful_history_last st pred ds d :
  lawful_history st pred ds → last ds = Some d →
  disp_status d ≠ IMPOSSIBLE ∧ (disp_status d = SATISFIED → disp_evidence_refs d ≠ []).
Proof.
  induction 1 as [|st pred x ds Hp Hs Hi He Hl IH]; [done|].
  rewrite last_cons. destruct (last ds) as [y|]; [by intros [= <-]; apply IH|]. by intros [= <-].
Qed.

Lemma decide_disposition_inv s m d x :
  decide_body s m (RecordObligationDisposition d) = Ok [x] →
  x = ObligationDispositionRecorded d ∧
  ∃ o, obligation_by_id s (disp_obligation_id d) = Some o ∧
    disp_predecessor_id d = disp_id <$> last (disposition_history s (obl_id o)) ∧
    disp_status d ∈ lawful (status_after (obl_status o) (disposition_history s (obl_id o))) ∧
    disp_status d ≠ IMPOSSIBLE ∧
    (disp_status d = SATISFIED → disp_evidence_refs d ≠ [] ∧
       disp_evidence_refs d ⊆ hard_decision_ids s o ++ accepted_decode_ids s o).
Proof.
  cbn [decide_body]. intros (u & _ & H)%bind_ok. unfold decide_record_obligation_disposition in H.
  cbv zeta in H. inv_decide H. split; [done|]. exists o.
  rewrite neqb_false in G. rewrite eqb_false in G1. rewrite negb_false_iff, mem_true in G3.
  split_and!; try done. intros Hsat. rewrite Hsat in G2. rewrite bool_decide_true in G2 by done.
  rewrite andb_true_l, orb_false_iff, nsubset_false in G2. destruct G2 as [Hn Hs].
  split; [|done]. by destruct (disp_evidence_refs d).
Qed.

Lemma decide_open_obligation_inv s m o x :
  decide_body s m (OpenObligation o) = Ok [x] →
  x = ObligationOpened o ∧ obl_status o = OPEN ∧ obl_id o ∉ map obl_id (obligations s) ∧
  obligation_fingerprint o ∉ map obligation_fingerprint (obligations s).
Proof.
  cbn [decide_body]. intros (u & _ & H)%bind_ok. unfold decide_open_obligation in H.
  inv_decide H. unfold obligation_by_id in Enone. rewrite first_None_notin in Enone.
  rewrite neqb_false in G. split_and!; try done.
  rewrite any_false in E. intros (y & Hy & Hf)%elem_of_map. specialize (E y Hy).
  rewrite eqb_false in E. done.
Qed.

(** ** Admitting a claim *)

Lemma new_conflicts_ok known existing c cs :
  new_conflicts known existing c = Ok cs →
  NoDup (map conflict_id cs) ∧ (∀ k, k ∈ cs → conflict_id k ∉ known) ∧
  (∀ k, k ∈ cs → ∃ x, x ∈ existing ∧ structural_conflict x c = Ok (Some k)) ∧
  ∀ x k, x ∈ existing → structural_conflict x c = Ok (Some k) →
    conflict_id k ∈ known ∨ conflict_id k ∈ map conflict_id cs.
Proof.
  revert known cs. induction existing as [|y existing IH]; intros known cs; cbn [new_conflicts].
  - intros [= <-]. split_and!; [constructor|..]; by intros ? **; exfalso; eapply not_elem_of_nil.
  - intros ([k|] & Hy & H)%bind_ok.
    + destruct (mem (conflict_id k) known) eqn:Em.
      * rewrite mem_true in Em. destruct (IH _ _ H) as (H1 & H2 & H3 & H4). split_and!; try done.
        -- intros k' Hk'. destruct (H3 k' Hk') as (x & Hx & Hs). exists x. split; [by right|done].
        -- intros x k' [->|Hx]%elem_of_cons Hs; [|by eapply H4]. left. congruence.
      * rewrite mem_false in Em. apply bind_ok in H as (cs' & H & [= <-]).
        destruct (IH _ _ H) as (H1 & H2 & H3 & H4). cbn [map]. split_and!.
        -- constructor; [|done]. intros (k' & Hk' & Hid)%elem_of_map.
           apply (H2 k' Hk'). rewrite <-Hid. by left.
        -- intros k' [->|Hk']%elem_of_cons; [done|]. specialize (H2 k' Hk'). set_solver.
        -- intros k' [->|Hk']%elem_of_cons; [exists y; split; [by left|done]|].
           destruct (H3 k' Hk') as (x & Hx & Hs). exists x. split; [by right|done].
        -- intros x k' [->|Hx]%elem_of_cons Hs.
           ++ right. assert (k' = k) as -> by congruence. by left.
           ++ destruct (H4 x k' Hx Hs) as [Hk|Hk]; [|right; by right].
              apply elem_of_cons in Hk as [->|Hk]; [right; by left|by left].
    + destruct (IH _ _ H) as (H1 & H2 & H3 & H4). split_and!; try done.
      * intros k' Hk'. destruct (H3 k' Hk') as (x & Hx & Hs). exists x. split; [by right|done].
      * intros x k' [->|Hx]%elem_of_cons Hs; [congruence|by eapply H4].
Qed.

Lemma new_obligations_ok known os :
  NoDup (map obligation_fingerprint (new_obligations known os)) ∧
  (∀ o, o ∈ new_obligations known os → o ∈ os ∧ obligation_fingerprint o ∉ known) ∧
  ∀ o, o ∈ os → obligation_fingerprint o ∈ known ∨
                obligation_fingerprint o ∈ map obligation_fingerprint (new_obligations known os).
Proof.
  revert known. induction os as [|y os IH]; intros known; cbn [new_obligations].
  - split_and!; [constructor|..]; by intros ? **; exfalso; eapply not_elem_of_nil.
  - destruct (mem _ known) eqn:Em.
    + rewrite mem_true in Em. destruct (IH known) as (H1 & H2 & H3). split_and!; try done.
      * intros o Ho. destruct (H2 o Ho). split; [by right|done].
      * intros o [->|Ho]%elem_of_cons; [by left|by apply H3].
    + rewrite mem_false in Em. destruct (IH (obligation_fingerprint y :: known)) as (H1 & H2 & H3).
      cbn [map]. split_and!.
      * constructor; [|done]. intros (o & Ho & Hf)%elem_of_map. destruct (H2 o Ho) as [_ Hn].
        apply Hn. rewrite Hf. by left.
      * intros o [->|Ho]%elem_of_cons; [split; [by left|done]|]. destruct (H2 o Ho) as [? Hn].
        split; [by right|]. intros ?. apply Hn. by right.
      * intros o [->|Ho]%elem_of_cons; [right; by left|].
        destruct (H3 o Ho) as [Hk|Hk]; [|right; by right].
        apply elem_of_cons in Hk as [->|Hk]; [right; by left|by left].
Qed.

Lemma conflict_obligations_ok cs os :
  conflict_obligations cs = Ok os →
  (∀ o, o ∈ os → ∃ c, c ∈ cs ∧ conflict_obligation c = Ok o) ∧
  ∀ c, c ∈ cs → ∃ o, o ∈ os ∧ conflict_obligation c = Ok o.
Proof.
  revert os. induction cs as [|c cs IH]; intros os; cbn [conflict_obligations].
  - intros [= <-]. split; by intros ? ?%not_elem_of_nil.
  - intros (o & Ho & H)%bind_ok. apply bind_ok in H as (os' & H & [= <-]).
    destruct (IH _ H) as [H1 H2]. split.
    + intros p [->|Hp]%elem_of_cons; [exists c; split; [by left|done]|].
      destruct (H1 p Hp) as (d & Hd & ?). exists d. split; [by right|done].
    + intros d [->|Hd]%elem_of_cons; [exists o; split; [by left|done]|].
      destruct (H2 d Hd) as (p & Hp & ?). exists p. split; [by right|done].
Qed.

(** Python's [==] is equality on records whose JSON arguments are strings. *)
Definition string_args (o : Obligation) : Prop :=
  ∀ a, a ∈ obl_args o → ∃ s, arg_value a = JString s.

Lemma list_eqb_eq {A} (eqb : A → A → bool) l k :
  (∀ x y, x ∈ l → eqb x y = true → x = y) → list_eqb eqb l k = true → l = k.
Proof.
  revert k. induction l as [|x l IH]; intros [|y k] He; cbn; try done.
  intros [Hx Hl]%andb_true_iff. f_equal; [by apply He; [left|]|].
  apply IH; [|done]. intros z w Hz. apply He. by right.
Qed.

Lemma obligation_eqb_eq o p : string_args o → obligation_eqb o p = true → o = p.
Proof.
  intros Hs. unfold obligation_eqb. rewrite !andb_true_iff, !eqb_true. intros H. destruct_and! H.
  assert (obl_args o = obl_args p) as Ha.
  { eapply list_eqb_eq; [|eassumption]. intros a b Hin. unfold bound_argument_eqb.
    destruct (Hs a Hin) as [str Hstr]. rewrite Hstr. rewrite andb_true_iff, eqb_true.
    destruct a as [n v], b as [n' v']. cbn in *. intros [-> Hv]. subst v.
    destruct v'; cbn in Hv; try done. rewrite eqb_true in Hv. by subst. }
  destruct o, p. cbn in *. by subst.
Qed.

(** What admitting a claim derives. *)
Record consequences (s : InquiryState) (c : Claim) (cs : list Conflict) (os : list Obligation) : Prop := {
  cons_sound : ∀ k, k ∈ cs → ∃ x, x ∈ claims s ∧ structural_conflict x c = Ok (Some k);
  cons_complete : ∀ x k, x ∈ claims s → structural_conflict x c = Ok (Some k) →
    conflict_id k ∈ map conflict_id (conflicts s ++ cs);
  cons_localized : ∀ k, k ∈ cs → ∃ o, conflict_obligation k = Ok o ∧
    obligation_fingerprint o ∈ map obligation_fingerprint (obligations s ++ os);
  cons_attacked : ∀ o, mandatory_attack_obligation c = Ok (Some o) →
    obligation_fingerprint o ∈ map obligation_fingerprint (obligations s ++ os)
    ∨ claim_attack_is_exactly_discharged s c = Ok true;
  cons_fresh : NoDup (map obligation_fingerprint os) ∧
    ∀ o, o ∈ os → obligation_fingerprint o ∉ map obligation_fingerprint (obligations s);
  cons_shape : ∀ o, o ∈ os → obl_status o = OPEN ∧ string_args o;
}.

Lemma conflict_obligation_strings k o : conflict_obligation k = Ok o → obl_status o = OPEN ∧ string_args o.
Proof.
  unfold conflict_obligation. intros (u & _ & [= <-])%bind_ok. split; [done|].
  intros a Ha. cbn in Ha. repeat (apply elem_of_cons in Ha as [->|Ha]; [by eexists|]).
  by apply not_elem_of_nil in Ha.
Qed.

Lemma attack_obligation_strings c o :
  mandatory_attack_obligation c = Ok (Some o) → obl_status o = OPEN ∧ string_args o.
Proof.
  unfold mandatory_attack_obligation. destruct (ATTACK_BY_ROLE _); [|done].
  destruct (_ ==? _); [done|]. intros (u & _ & [= <-])%bind_ok. split; [done|].
  intros a Ha. cbn in Ha. apply list_elem_of_singleton in Ha as ->. by eexists.
Qed.

Lemma attack_part_ok s c attack :
  (o ← mandatory_attack_obligation c;
   match o with
   | None => Ok []
   | Some o => discharged ← claim_attack_is_exactly_discharged s c;
               Ok (if discharged : bool then [] else [o])
   end) = Ok attack →
  (∀ o, o ∈ attack → mandatory_attack_obligation c = Ok (Some o)) ∧
  ∀ o, mandatory_attack_obligation c = Ok (Some o) →
    o ∈ attack ∨ claim_attack_is_exactly_discharged s c = Ok true.
Proof.
  intros ([o|] & Ho & H)%bind_ok.
  - apply bind_ok in H as ([] & Hd & [= <-]).
    + split; [by intros ? ?%not_elem_of_nil|]. by right.
    + split; [by intros p ->%list_elem_of_singleton|]. intros p Hp. left.
      assert (p = o) as -> by congruence. by left.
  - injection H as <-. split; [by intros ? ?%not_elem_of_nil|]. congruence.
Qed.

Lemma derive_claim_consequences_ok s c cs os :
  derive_claim_consequences s c = Ok (cs, os) → consequences s c cs os.
Proof.
  unfold derive_claim_consequences. intros (raw & Hraw & H)%bind_ok. cbv zeta in H.
  assert (∃ attack, (o ← mandatory_attack_obligation c;
     match o with
     | None => Ok []
     | Some o => discharged ← claim_attack_is_exactly_discharged s c;
                 Ok (if discharged : bool then [] else [o])
     end) = Ok attack ∧
     (os ← conflict_obligations (sort_by conflict_id raw);
      Ok (sort_by conflict_id raw, sort_by obl_id (new_obligations (map obligation_fingerprint (obligations s))
           (attack ++ os)))) = Ok (cs, os)) as (attack & Hat & H').
  { apply bind_ok in H as (o & Ho & H). apply bind_ok in H as (attack & Ha & H).
    exists attack. split; [by rewrite Ho|done]. }
  clear H. apply attack_part_ok in Hat as [Hat1 Hat2].
  apply bind_ok in H' as (cos & Hcos & [= <- <-]).
  apply new_conflicts_ok in Hraw as (_ & _ & Hs & Hc).
  apply conflict_obligations_ok in Hcos as [Hco1 Hco2].
  pose proof (new_obligations_ok (map obligation_fingerprint (obligations s)) (attack ++ cos))
    as (Hn1 & Hn2 & Hn3).
  set (new := new_obligations _ _) in *.
  assert (∀ o, o ∈ attack ++ cos → obligation_fingerprint o
     ∈ map obligation_fingerprint (obligations s ++ sort_by obl_id new)) as Hfp.
  { intros o Ho. rewrite map_app, elem_of_app. destruct (Hn3 o Ho) as [?|Hin]; [by left|right].
    apply elem_of_map in Hin as (p & Hp & ->). apply elem_of_map_1. by apply elem_of_sort_by. }
  split.
  - intros k Hk. apply elem_of_sort_by in Hk. by apply Hs.
  - intros x k Hx Hk. rewrite map_app, elem_of_app. destruct (Hc x k Hx Hk) as [?|Hin]; [by left|right].
    apply elem_of_map in Hin as (p & Hp & ->). apply elem_of_map_1. by apply elem_of_sort_by.
  - intros k Hk. destruct (Hco2 k Hk) as (o & Ho & Hko). exists o. split; [done|].
    apply Hfp. apply elem_of_app. by right.
  - intros o Ho. destruct (Hat2 o Ho) as [Hin|?]; [left|by right]. apply Hfp, elem_of_app. by left.
  - split.
    + change (NoDup (obligation_fingerprint <$> sort_by obl_id new)). by rewrite sort_by_perm.
    + intros o Ho. apply elem_of_sort_by in Ho. by apply Hn2.
  - intros o Ho. apply elem_of_sort_by, Hn2 in Ho as [[Ho|Ho]%elem_of_app _].
    + by eapply attack_obligation_strings, Hat1.
    + destruct (Hco1 o Ho) as (k & _ & Hk). by eapply conflict_obligation_strings.
Qed.

Lemma decide_admit_claim_inv s m c x :
  decide_body s m (AdmitClaim c) = Ok [x] →
  ∃ cs os, x = ClaimAdmitted c cs os ∧ claim_id c ∉ map claim_id (claims s) ∧ claim_status c = PROVISIONAL
    ∧ scope_matches_context s (claim_scope c) = true ∧ consequences s c cs os.
Proof.
  cbn [decide_body]. intros (u & _ & H)%bind_ok. unfold decide_admit_claim in H.
  inv_decide H. unfold claim_by_id in Enone. rewrite first_None_notin in Enone.
  rewrite neqb_false in G. rewrite negb_false_iff in G0.
  destruct x0 as [cs os]. exists cs, os. split_and!; try done. by apply derive_claim_consequences_ok.
Qed.

(** The ledger step of a claim event: exactly the derived consequences. *)
Lemma claim_step s e s' c cs os :
  Step s e s' → evt_body e = ClaimAdmitted c cs os →
  consequences s c cs os.
Proof.
  intros Hst He. destruct (step_decided _ _ _ Hst (AdmitClaim c)) as (x & Hx & Heq).
  { unfold command_of. by rewrite He. }
  apply decide_admit_claim_inv in Hx as (ds & ps & -> & _ & _ & _ & Hc).
  rewrite He in Heq. cbn [body_eqb] in Heq. rewrite !andb_true_iff, eqb_true in Heq.
  destruct Heq as [[Hcc ->] Hos].
  assert (ps = os) as ->; [|done]. eapply list_eqb_eq; [|exact Hos].
  intros o p Ho. apply obligation_eqb_eq. by apply (cons_shape _ _ _ _ Hc).
Qed.

(** ** The collections after a step *)

Lemma step_claim_list s e s' : Step s e s' → claims s' = claims s ++ l_claims (claim_records (evt_body e)).
Proof. intros Hst. unfold claims. by rewrite (step_claims _ _ _ Hst). Qed.
Lemma step_conflicts s e s' :
  Step s e s' → conflicts s' = conflicts s ++ l_conflicts (claim_records (evt_body e)).
Proof. intros Hst. unfold conflicts. by rewrite (step_claims _ _ _ Hst). Qed.
Lemma step_obligations s e s' :
  Step s e s' → obligations s' = obligations s ++ l_obligations (claim_records (evt_body e)).
Proof. intros Hst. unfold obligations. by rewrite (step_claims _ _ _ Hst). Qed.
Lemma step_dispositions s e s' :
  Step s e s' → obligation_dispositions s'
                = obligation_dispositions s ++ l_obligation_dispositions (claim_records (evt_body e)).
Proof. intros Hst. unfold obligation_dispositions. by rewrite (step_claims _ _ _ Hst). Qed.
Lemma step_guard_changes s e s' :
  Step s e s' → guard_changes s' = guard_changes s ++ l_guard_changes (claim_records (evt_body e)).
Proof. intros Hst. unfold guard_changes. by rewrite (step_claims _ _ _ Hst). Qed.
Lemma step_decisions s e s' :
  Step s e s' → warrant_decisions s'
                = warrant_decisions s ++ l_warrant_decisions (warrant_records (evt_body e)).
Proof. intros Hst. unfold warrant_decisions. by rewrite (step_warrant _ _ _ Hst). Qed.
Lemma step_evidence s e s' :
  Step s e s' → evidence_records s'
                = evidence_records s ++ l_evidence_records (warrant_records (evt_body e)).
Proof. intros Hst. unfold evidence_records. by rewrite (step_warrant _ _ _ Hst). Qed.
Lemma step_verdicts s e s' :
  Step s e s' → checker_verdicts s'
                = checker_verdicts s ++ l_checker_verdicts (warrant_records (evt_body e)).
Proof. intros Hst. unfold checker_verdicts. by rewrite (step_warrant _ _ _ Hst). Qed.
Lemma step_versions s e s' :
  Step s e s' → lemma_versions s' = lemma_versions s ++ l_lemma_versions (warrant_records (evt_body e)).
Proof. intros Hst. unfold lemma_versions. by rewrite (step_warrant _ _ _ Hst). Qed.
Lemma step_supports s e s' :
  Step s e s' → lemma_supports s' = lemma_supports s ++ l_lemma_supports (warrant_records (evt_body e)).
Proof. intros Hst. unfold lemma_supports. by rewrite (step_warrant _ _ _ Hst). Qed.
Lemma step_links s e s' :
  Step s e s' → promotion_links s' = promotion_links s ++ l_promotion_links (warrant_records (evt_body e)).
Proof. intros Hst. unfold promotion_links. by rewrite (step_warrant _ _ _ Hst). Qed.
Lemma step_observations s e s' :
  Step s e s' → probe_observations s'
                = probe_observations s ++ l_probe_observations (cognition_records s (evt_body e)).
Proof. intros Hst. unfold probe_observations. by rewrite (step_cognition _ _ _ Hst). Qed.

Lemma valid_identities s : validate_lifecycle s = Ok tt → ∀ l, l ∈ identified_collections s → NoDup l.
Proof. rewrite validate_lifecycle_ok, check_identities_ok. naive_solver. Qed.

Lemma valid_obligation_ids s : validate_lifecycle s = Ok tt → NoDup (map obl_id (obligations s)).
Proof. intros Hv. apply (valid_identities s Hv). unfold identified_collections. set_solver. Qed.

Lemma valid_disposition_targets s d :
  validate_lifecycle s = Ok tt → d ∈ obligation_dispositions s →
  disp_obligation_id d ∈ map obl_id (obligations s).
Proof.
  rewrite validate_lifecycle_ok. intros (_ & _ & _ & Hc & _) Hd. unfold check_claims in Hc.
  apply raise_if_bind in Hc as [_ Hc]. apply raise_if_ok in Hc. rewrite any_false in Hc.
  specialize (Hc d Hd). by rewrite negb_false_iff, mem_true in Hc.
Qed.

Lemma disposition_history_app s s' id l :
  obligation_dispositions s' = obligation_dispositions s ++ l →
  disposition_history s' id
  = disposition_history s id ++ List.filter (λ d, disp_obligation_id d ==? id) l.
Proof. intros H. unfold disposition_history. by rewrite H, List.filter_app. Qed.

Lemma lfilter_nil {A} (p : A → bool) l : (∀ x, x ∈ l → p x = false) → List.filter p l = [].
Proof.
  induction l as [|x l IH]; [done|]. intros H. cbn. rewrite H by constructor.
  apply IH. intros y Hy. apply H. by right.
Qed.

(** An obligation with no recorded predecessor of its identity has no history. *)
Lemma disposition_history_fresh s id :
  validate_lifecycle s = Ok tt → id ∉ map obl_id (obligations s) → disposition_history s id = [].
Proof.
  intros Hv Hid. apply lfilter_nil. intros d Hd. apply eqb_false. intros <-.
  by apply Hid, valid_disposition_targets.
Qed.

Lemma obligation_by_id_unique s o :
  validate_lifecycle s = Ok tt → o ∈ obligations s → obligation_by_id s (obl_id o) = Some o.
Proof.
  intros Hv Ho. destruct (first_is_Some (λ x, obl_id x ==? obl_id o) (obligations s) o Ho) as (y & Hy & Hk & Hin).
  { by apply eqb_true. }
  unfold obligation_by_id. rewrite Hy. f_equal. rewrite eqb_true in Hk.
  eapply (NoDup_map_inj obl_id); [by apply valid_obligation_ids|done..].
Qed.

(** The obligations an event adds are open. *)
Lemma new_obligations_open s e s' o :
  Step s e s' → o ∈ l_obligations (claim_records (evt_body e)) → obl_status o = OPEN.
Proof.
  intros Hst Ho. destruct (evt_body e) eqn:He; cbn in Ho; try by apply not_elem_of_nil in Ho.
  - by apply (cons_shape _ _ _ _ (claim_step _ _ _ _ _ _ Hst He)).
  - apply list_elem_of_singleton in Ho as ->.
    destruct (step_decided _ _ _ Hst (OpenObligation obligation)) as (x & Hx & Heq).
    { unfold command_of. by rewrite He. }
    by apply decide_open_obligation_inv in Hx as (_ & ? & _).
Qed.

Definition obligation_lawful (s : InquiryState) (o : Obligation) : Prop :=
  obl_status o = OPEN ∧ lawful_history OPEN None (disposition_history s (obl_id o)).

Lemma obligation_lawful_step s e s' :
  (∀ o, o ∈ obligations s → obligation_lawful s o) → Step s e s' →
  ∀ o, o ∈ obligations s' → obligation_lawful s' o.
Proof.
  intros IH Hst o Ho. pose proof (step_pre _ _ _ Hst) as Hv. pose proof (step_post _ _ _ Hst) as Hv'.
  assert (obl_status o = OPEN) as Hopen.
  { rewrite (step_obligations _ _ _ Hst), elem_of_app in Ho. destruct Ho as [Ho|Ho]; [by apply IH|].
    by eapply new_obligations_open. }
  split; [done|].
  rewrite (disposition_history_app s s' _ _ (step_dispositions _ _ _ Hst)).
  assert (lawful_history OPEN None (disposition_history s (obl_id o))) as Hold.
  { rewrite (step_obligations _ _ _ Hst), elem_of_app in Ho. destruct Ho as [Ho|Ho]; [by apply IH|].
    rewrite disposition_history_fresh; [constructor|done|].
    pose proof (valid_obligation_ids _ Hv') as Hnd. rewrite (step_obligations _ _ _ Hst), map_app in Hnd.
    apply NoDup_app in Hnd as (_ & Hd & _). intros Hin. by apply (Hd _ Hin), elem_of_map_1. }
  destruct (l_obligation_dispositions (claim_records (evt_body e))) as [|d l] eqn:Hl.
  { by rewrite app_nil_r. }
  destruct (evt_body e) eqn:He; try discriminate Hl. injection Hl as -> <-. cbn [List.filter].
  destruct (disp_obligation_id d ==? obl_id o) eqn:Eid; [|by rewrite app_nil_r]. rewrite eqb_true in Eid.
  destruct (step_decided _ _ _ Hst (RecordObligationDisposition d)) as (x & Hx & Heq).
  { unfold command_of. by rewrite He. }
  apply decide_disposition_inv in Hx as (_ & o' & Ho' & Hp & Hlaw & Hni & Hev).
  assert (o ∈ obligations s) as Hos.
  { rewrite (step_obligations _ _ _ Hst), He in Ho. cbn in Ho. by rewrite app_nil_r in Ho. }
  rewrite Eid, (obligation_by_id_unique s o) in Ho' by done. injection Ho' as <-.
  rewrite Hopen in Hlaw.
  apply lawful_history_snoc; [done|by rewrite Hp; destruct (last _)|done|done|].
  intros Hsat. by apply Hev.
Qed.

(** C13: Obligations have lawful lives.  In every reachable inquiry each
    obligation began OPEN and its dispositions form one chain: each extends the
    tail before it, changes the status along the transition table, never claims
    IMPOSSIBLE, and claims SATISFIED only with evidence; hence no obligation's
    current status is ever IMPOSSIBLE. *)
Theorem obligation_histories_lawful s :
  Reachable s → ∀ o, o ∈ obligations s →
  obl_status o = OPEN ∧ lawful_history OPEN None (disposition_history s (obl_id o)) ∧
  current_obligation_status s (obl_id o)
    = Some (status_after OPEN (disposition_history s (obl_id o))) ∧
  current_obligation_status s (obl_id o) ≠ Some IMPOSSIBLE.
Proof.
  intros Hr o Ho. pose proof (reachable_valid s Hr) as Hv.
  assert (∀ o, o ∈ obligations s → obligation_lawful s o) as Hall.
  { revert Hr. clear. apply (reachable_ind (λ s, ∀ o, o ∈ obligations s → obligation_lawful s o)).
    - by intros ? ?%not_elem_of_nil.
    - intros s1 e s2 _. apply obligation_lawful_step. }
  destruct (Hall o Ho) as [Hopen Hl].
  assert (current_obligation_status s (obl_id o)
          = Some (status_after OPEN (disposition_history s (obl_id o)))) as Hc.
  { unfold current_obligation_status. rewrite (obligation_by_id_unique s o) by done.
    cbn. rewrite Hopen. done. }
  split_and!; [done..|]. rewrite Hc. unfold status_after.
  destruct (last _) as [d|] eqn:Hd; [|done]. intros [= Himp].
  by destruct (lawful_history_last _ _ _ _ Hl Hd).
Qed.

(** The semantic fingerprints of the recorded obligations, in order. *)
Definition obligation_fingerprints (s : InquiryState) : list string :=
  map obligation_fingerprint (obligations s).

(** Obligations are deduplicated by meaning: in every reachable inquiry no
    two obligations share a semantic fingerprint, whether they were opened by
    command or derived from claims. *)
Theorem obligation_fingerprints_unique s :
  Reachable s → NoDup (obligation_fingerprints s).
Proof.
  unfold obligation_fingerprints.
  apply (reachable_ind (λ s, NoDup (map obligation_fingerprint (obligations s)))); [constructor|].
  clear s. intros s e s' _ IH Hst. rewrite (step_obligations _ _ _ Hst), map_app.
  apply NoDup_app. destruct (evt_body e) eqn:He; cbn [claim_records l_obligations map];
    try (split_and!; [done|set_solver|constructor]).
  - pose proof (claim_step _ _ _ _ _ _ Hst He) as Hc. destruct (cons_fresh _ _ _ _ Hc) as [Hnd Hf].
    split_and!; [done| |done]. intros f Hf1 (o & Ho & ->)%elem_of_map. by apply (Hf o Ho).
  - destruct (step_decided _ _ _ Hst (OpenObligation obligation)) as (x & Hx & Heq).
    { unfold command_of. by rewrite He. }
    apply decide_open_obligation_inv in Hx as (_ & _ & _ & Hf).
    split_and!; [done| |apply NoDup_singleton]. by intros f Hf1 ->%list_elem_of_singleton.
Qed.

Lemma obligation_histories_lawful_witness :
  ∃ o, o ∈ obligations Scenario.state4 ∧
       current_obligation_status Scenario.state4 (obl_id o) = Some SATISFIED ∧
       lawful_history OPEN None (disposition_history Scenario.state4 (obl_id o)).
Proof.
  exists Scenario.attack.
  assert (Scenario.attack ∈ obligations Scenario.state4) as Ho.
  { vm_compute. left. }
  split; [exact Ho|]. split; [vm_compute; reflexivity|].
  apply (obligation_histories_lawful _ scenario_reachable _ Ho).
Defined.

Lemma obligation_fingerprints_unique_witness :
  NoDup (map obligation_fingerprint (obligations Scenario.state4)).
Proof. apply (obligation_fingerprints_unique _ scenario_reachable). Defined.

(** ** No contradiction and no attack goes unrecorded *)

(** The claim a body records. *)
Definition claim_of (b : EventBody) : option Claim :=
  match b with ClaimAdmitted c _ _ => Some c | _ => None end.

(** A reachable inquiry seen from its claim-admission steps. *)
Lemma claims_ind (P : InquiryState → Prop) :
  P initial_state →
  (∀ s e s', P s → Step s e s' → claim_of (evt_body e) = None →
     claims s' = claims s → conflicts s' = conflicts s → P s') →
  (∀ s e s' c cs os, Reachable s → P s → Step s e s' → evt_body e = ClaimAdmitted c cs os →
     claims s' = claims s ++ [c] → conflicts s' = conflicts s ++ cs →
     obligations s' = obligations s ++ os → consequences s c cs os → P s') →
  ∀ s, Reachable s → P s.
Proof.
  intros H0 Hother Hclaim. apply reachable_ind; [done|]. intros s e s' Hr IH Hst.
  pose proof (step_claim_list _ _ _ Hst) as Hc. pose proof (step_conflicts _ _ _ Hst) as Hk.
  pose proof (step_obligations _ _ _ Hst) as Ho.
  destruct (claim_of (evt_body e)) as [c|] eqn:He.
  - destruct (evt_body e) as [| | | | | | | | | |c' cs os| | | | | | | | | | | | | | | | | | | | |] eqn:Hb; try discriminate.
    injection He as <-. cbn in Hc, Hk, Ho. eapply Hclaim; eauto. by eapply claim_step.
  - eapply Hother; eauto.
    + rewrite Hc. destruct (evt_body e); try discriminate; by rewrite app_nil_r.
    + rewrite Hk. destruct (evt_body e); try discriminate; by rewrite app_nil_r.
Qed.

Lemma step_obligation_mono s e s' o :
  Step s e s' → o ∈ map obligation_fingerprint (obligations s) →
  o ∈ map obligation_fingerprint (obligations s').
Proof. intros Hst. rewrite (step_obligations _ _ _ Hst), map_app, elem_of_app. by left. Qed.

Lemma structural_key_claim_eq x y k :
  structural_conflict x y = Ok (Some k) → claim_id x ≠ claim_id y.
Proof.
  intros (_ & _ & _ & Hs & _ & _ & Hv)%structural_conflict_Some Heq.
  unfold validate_conflict in Hv. apply raise_if_bind in Hv as [Hv _]. rewrite eqb_false in Hv.
  apply Hv. rewrite Heq in Hs.
  assert (∀ z, z ∈ [(conflict_claim_ids k).1; (conflict_claim_ids k).2] → z = claim_id y) as Hz.
  { intros z. rewrite <-Hs, elem_of_sorted. set_solver. }
  rewrite (Hz (conflict_claim_ids k).1), (Hz (conflict_claim_ids k).2); [done|set_solver..].
Qed.

(** Both orders of a pair give the same conflict identity; if one order is
    rejected by the validator, so is the other. *)
Definition conflict_recorded (s : InquiryState) (x y : Claim) : Prop :=
  ∀ k, structural_conflict x y = Ok (Some k) → conflict_id k ∈ map conflict_id (conflicts s).

Lemma structural_conflict_swap x y k :
  structural_conflict x y = Ok (Some k) →
  ∃ k', structural_conflict y x = Ok (Some k') ∧ conflict_id k' = conflict_id k.
Proof.
  intros Hk. pose proof (structural_conflict_Some _ _ _ Hk) as (Hkey & Hsome & Hpol & Hids & Hsc & Hid & Hv).
  pose proof (structural_key_claim_eq _ _ _ Hk) as Hne.
  assert (∃ k', structural_conflict y x = Ok (Some k')) as [k' Hk'].
  { unfold structural_conflict. rewrite <-Hkey. unfold is_some in Hsome. rewrite negb_true_iff in Hsome.
    rewrite Hsome. rewrite (proj2 (neqb_false _ _)) by done. cbn [orb].
    assert (polarities_oppose (claim_polarity y) (claim_polarity x) = true) as ->.
    { revert Hpol. by destruct (claim_polarity x), (claim_polarity y). }
    cbn [negb]. cbv zeta.
    assert (sorted [claim_id y; claim_id x] = sorted [claim_id x; claim_id y]) as ->.
    { apply sort_by_unique; [|apply Permutation_swap]. cbn. constructor; [set_solver|]. apply NoDup_singleton. }
    rewrite Hids. cbn [fst snd]. eexists. apply bind_ok. exists tt. split; [|done].
    unfold validate_conflict in *. cbn [conflict_claim_ids fst snd]. exact Hv. }
  exists k'. split; [done|]. symmetry. by apply (structural_conflict_comm x y k k').
Qed.

(** Every structural conflict of two recorded claims is recorded. *)
Definition contradictions_recorded (s : InquiryState) : Prop :=
  ∀ x y k, x ∈ claims s → y ∈ claims s → structural_conflict x y = Ok (Some k) →
    conflict_id k ∈ map conflict_id (conflicts s).

(** C14: Contradictions are complete and sound.  In every reachable inquiry any
    two recorded claims of opposite polarity on one structural key have their
    conflict recorded, every recorded conflict is the structural conflict of two
    recorded claims, and each has an obligation to localise it (of the conflict's
    own semantic fingerprint). *)
Theorem conflicts_complete s :
  Reachable s →
  contradictions_recorded s ∧
  ∀ k, k ∈ conflicts s →
    (∃ x y, x ∈ claims s ∧ y ∈ claims s ∧ structural_conflict x y = Ok (Some k)) ∧
    ∃ o, conflict_obligation k = Ok o ∧
         obligation_fingerprint o ∈ map obligation_fingerprint (obligations s).
Proof.
  apply (claims_ind (λ s,
    (∀ x y k, x ∈ claims s → y ∈ claims s → structural_conflict x y = Ok (Some k) →
       conflict_id k ∈ map conflict_id (conflicts s)) ∧
    ∀ k, k ∈ conflicts s →
      (∃ x y, x ∈ claims s ∧ y ∈ claims s ∧ structural_conflict x y = Ok (Some k)) ∧
      ∃ o, conflict_obligation k = Ok o ∧
           obligation_fingerprint o ∈ map obligation_fingerprint (obligations s))).
  - split; [intros x y k Hx|intros k Hx]; by apply not_elem_of_nil in Hx.
  - clear s. intros s e s' [Hcomplete Hsound] Hst _ Hc Hk. rewrite Hc, Hk. split; [done|].
    intros k Hin. destruct (Hsound k Hin) as (Hxy & o & Ho & Hf). split; [done|].
    exists o. split; [done|]. by eapply step_obligation_mono.
  - clear s. intros s e s' c cs os _ [Hcomplete Hsound] Hst He Hc Hk Ho Hcons.
    rewrite Hc, Hk. split.
    + intros x y k [Hx| ->%list_elem_of_singleton]%elem_of_app
        [Hy| ->%list_elem_of_singleton]%elem_of_app Hxy.
      * rewrite map_app, elem_of_app. left. by apply (Hcomplete x y).
      * by apply (cons_complete _ _ _ _ Hcons x).
      * destruct (structural_conflict_swap _ _ _ Hxy) as (k' & Hyx & <-).
        by apply (cons_complete _ _ _ _ Hcons y).
      * by destruct (structural_key_claim_eq _ _ _ Hxy).
    + intros k [Hin|Hin]%elem_of_app.
      * destruct (Hsound k Hin) as ((x & y & Hx & Hy & Hxy) & o & Hob & Hf). split.
        -- exists x, y. rewrite !elem_of_app. split_and!; [by left|by left|done].
        -- exists o. split; [done|]. by eapply step_obligation_mono.
      * destruct (cons_sound _ _ _ _ Hcons k Hin) as (x & Hx & Hxc). split.
        -- exists x, c. rewrite !elem_of_app. split_and!; [by left|right; by left|done].
        -- destruct (cons_localized _ _ _ _ Hcons k Hin) as (o & Hob & Hf). exists o. by rewrite Ho.
Qed.

Lemma conflicts_complete_witness :
  structural_conflict Scenario.c2 Scenario.c1 ≠ Ok None ∧
  map conflict_id (conflicts Scenario.state4) ≠ [] ∧
  ∀ k, structural_conflict Scenario.c2 Scenario.c1 = Ok (Some k) →
       conflict_id k ∈ map conflict_id (conflicts Scenario.state4).
Proof.
  split; [vm_compute; discriminate|]. split; [vm_compute; discriminate|].
  intros k. apply (conflicts_complete _ scenario_reachable); vm_compute; [right; left|left].
Defined.

Lemma attack_discharged_inv s c :
  claim_attack_is_exactly_discharged s c = Ok true →
  ∃ v, v ∈ lemma_versions s ∧ claim_proposition_id c = Some (lv_relation_id v)
       ∧ scope_fingerprint (lv_scope v) = scope_fingerprint (claim_scope c).
Proof.
  unfold claim_attack_is_exactly_discharged. destruct (claim_proposition_id c) as [p|]; [|done].
  intros (active & _ & [= H])%bind_ok. apply any_true in H as (v & Hv & H).
  rewrite !andb_true_iff, !eqb_true in H. destruct H as [[_ <-] Hf]. eauto.
Qed.

(** A promoted lemma states exactly the proposition of the claim. *)
Definition proposition_promoted (s : InquiryState) (c : Claim) : Prop :=
  ∃ v, v ∈ lemma_versions s ∧ claim_proposition_id c = Some (lv_relation_id v)
       ∧ scope_fingerprint (lv_scope v) = scope_fingerprint (claim_scope c).

(** C15: A claim of necessity, sufficiency or prerequisite is never left
    unattacked.  In every reachable inquiry, each recorded claim whose role and
    polarity demand an attack has an obligation of exactly that semantic
    fingerprint, unless a promoted lemma states the very same proposition in the
    very same scope. *)
Theorem attacks_never_dropped s :
  Reachable s → ∀ c o, c ∈ claims s → mandatory_attack_obligation c = Ok (Some o) →
  obligation_fingerprint o ∈ map obligation_fingerprint (obligations s) ∨ proposition_promoted s c.
Proof.
  assert (∀ s e s' c, Step s e s' → proposition_promoted s c → proposition_promoted s' c) as Hmono.
  { clear. intros s e s' c Hst (v & Hv & H). exists v. split; [|done].
    rewrite (step_versions _ _ _ Hst), elem_of_app. by left. }
  apply (claims_ind (λ s, ∀ c o, c ∈ claims s → mandatory_attack_obligation c = Ok (Some o) →
    obligation_fingerprint o ∈ map obligation_fingerprint (obligations s) ∨
    proposition_promoted s c)).
  - by intros c o ?%not_elem_of_nil.
  - clear s. intros s e s' IH Hst _ Hc _ c o Hin Ho. rewrite Hc in Hin.
    destruct (IH c o Hin Ho) as [H|H]; [left; by eapply step_obligation_mono|right; by eapply Hmono].
  - clear s. intros s e s' c0 cs os _ IH Hst He Hc _ Hos Hcons c o Hin Ho.
    rewrite Hc in Hin. apply elem_of_app in Hin as [Hin| ->%list_elem_of_singleton].
    + destruct (IH c o Hin Ho) as [H|H]; [left; by eapply step_obligation_mono|right; by eapply Hmono].
    + destruct (cons_attacked _ _ _ _ Hcons o Ho) as [H|H]; [left; by rewrite Hos|right].
      eapply Hmono; [done|]. by apply attack_discharged_inv.
Qed.

Lemma attacks_never_dropped_witness :
  obligation_fingerprint Scenario.attack ∈
    map obligation_fingerprint (obligations Scenario.state1).
Proof.
  destruct (attacks_never_dropped Scenario.state1
              scenario_reachable1
              Scenario.c1 Scenario.attack) as [H|(v & Hv & _)].
  - vm_compute. left.
  - vm_compute. reflexivity.
  - exact H.
  - vm_compute in Hv. by apply not_elem_of_nil in Hv.
Defined.

(** ** Warrant decisions *)

Definition decision_grounded (s : InquiryState) (d : WarrantDecisionRecord) : Prop :=
  ∃ e v c scope,
    e ∈ evidence_records s ∧ v ∈ checker_verdicts s ∧ st_context s = Some c
    ∧ ev_id e = wd_evidence_id d ∧ cv_id v = wd_checker_verdict_id d ∧ cv_evidence_id v = ev_id e
    ∧ scope_matches_context s scope = true ∧ wd_scope_fingerprint d = scope_fingerprint scope
    ∧ wd_policy_version d = ctx_warrant_policy_version c
    ∧ decide_evidence_warrant e v (wd_proposition_id d) (wd_proposition_kind d) scope
        (ctx_discharge_mechanism_ids c) = (wd_warrant_class d, wd_reason d).

Lemma decide_evaluate_warrant_inv s m w x :
  decide_body s m (EvaluateWarrant w) = Ok [x] →
  ∃ d, x = WarrantDecisionRecorded (we_scope w) d ∧ decision_grounded s d
       ∧ wd_id d ∉ map wd_id (warrant_decisions s).
Proof.
  cbn [decide_body]. intros (u & _ & H)%bind_ok. unfold decide_evaluate_warrant in H.
  apply raise_if_bind in H as [G H]. rewrite negb_false_iff in G.
  destruct (evidence_by_id s (we_evidence_id w)) as [e|] eqn:He; [|done].
  destruct (checker_verdict_by_id s (we_checker_verdict_id w)) as [v|] eqn:Hv; [|done].
  apply raise_if_bind in H as [G1 H]. rewrite neqb_false in G1.
  destruct (st_context s) as [c|] eqn:Hc; [|done].
  destruct (decide_evidence_warrant _ _ _ _ _ _) as [wc reason] eqn:Hw. cbv zeta in H.
  apply bind_ok in H as (u' & _ & H). apply unless_recorded_inv in H as [Hnone H].
  injection H as <-. unfold warrant_decision_by_id in Hnone. rewrite first_None_notin in Hnone.
  apply first_key in He as [He Heid]. apply first_key in Hv as [Hv Hvid].
  eexists. split; [done|]. split; [|done]. exists e, v, c, (we_scope w). by split_and!.
Qed.

Lemma decision_grounded_step s e s' d :
  Step s e s' → decision_grounded s d → decision_grounded s' d.
Proof.
  intros Hst (ev & v & c & scope & Hev & Hv & Hc & H1 & H2 & H3 & H4 & H5).
  destruct (is_inquiry_started (evt_body e)) eqn:Hi.
  { rewrite (step_started_initial _ _ _ Hst Hi) in Hc. done. }
  destruct (step_identity _ _ _ Hst Hi) as (_ & _ & _ & _ & Hctx).
  exists ev, v, c, scope. rewrite (step_evidence _ _ _ Hst), (step_verdicts _ _ _ Hst), Hctx, !elem_of_app.
  split_and!; try tauto. unfold scope_matches_context in *. by rewrite Hctx.
Qed.

(** The decision events: the recorded decision is the evaluated one. *)
Lemma new_decision_grounded s e s' d :
  Step s e s' → d ∈ l_warrant_decisions (warrant_records (evt_body e)) → decision_grounded s d.
Proof.
  intros Hst Hd. destruct (evt_body e) eqn:He; cbn in Hd; try by apply not_elem_of_nil in Hd.
  apply list_elem_of_singleton in Hd as ->.
  destruct (step_decided _ _ _ Hst (EvaluateWarrant (MkWarrantEvaluation (wd_id decision)
     (wd_evidence_id decision) (wd_checker_verdict_id decision) (wd_proposition_id decision)
     (wd_proposition_kind decision) scope))) as (x & Hx & Heq).
  { unfold command_of. by rewrite He. }
  apply decide_evaluate_warrant_inv in Hx as (d & -> & Hg & _). rewrite He in Heq.
  cbn [body_eqb] in Heq. rewrite andb_true_iff, !eqb_true in Heq. by destruct Heq as [_ <-].
Qed.

Lemma decisions_grounded s : Reachable s → ∀ d, d ∈ warrant_decisions s → decision_grounded s d.
Proof.
  apply (reachable_ind (λ s, ∀ d, d ∈ warrant_decisions s → decision_grounded s d)).
  - by intros d ?%not_elem_of_nil.
  - clear s. intros s e s' _ IH Hst d. rewrite (step_decisions _ _ _ Hst), elem_of_app.
    intros [Hd|Hd]; eapply decision_grounded_step; eauto using new_decision_grounded.
Qed.

(** A HARD decision, unfolded: what its evidence and its check are. *)
Definition hard_evidence (s : InquiryState) (d : WarrantDecisionRecord) : Prop :=
  ∃ e v c scope,
    e ∈ evidence_records s ∧ v ∈ checker_verdicts s ∧ st_context s = Some c
    ∧ ev_id e = wd_evidence_id d ∧ cv_id v = wd_checker_verdict_id d
    ∧ wd_scope_fingerprint d = scope_fingerprint scope ∧ scope_matches_context s scope = true
    ∧ wd_policy_version d = ctx_warrant_policy_version c
    ∧ checked_evidence e v (wd_proposition_id d) (wd_proposition_kind d) (wd_scope_fingerprint d)
        (ctx_discharge_mechanism_ids c)
    ∧ hard_kind e (wd_proposition_kind d) scope.

Lemma decision_hard_evidence s d :
  decision_grounded s d → wd_warrant_class d = HARD → hard_evidence s d.
Proof.
  intros (e & v & c & scope & He & Hv & Hc & H1 & H2 & H3 & H4 & H5 & H6 & Hw) Hh.
  destruct (proj1 (decide_evidence_warrant_hard_iff e v (wd_proposition_id d) (wd_proposition_kind d)
                     scope (ctx_discharge_mechanism_ids c))) as [Hce Hk]; [by rewrite Hw|].
  exists e, v, c, scope. rewrite <-H5 in Hce. by split_and!.
Qed.

(** C12: HARD is earned.  In every reachable inquiry a warrant decision of class
    HARD stands on evidence the inquiry owns, validated by an authorised checker
    for exactly that artifact, proposition and scope, and of one of the two hard
    kinds: an existential witness, or an exhaustive UNSAT over the very universe
    the scope pins. *)
Theorem hard_decisions_checked s :
  Reachable s → ∀ d, d ∈ warrant_decisions s → wd_warrant_class d = HARD → hard_evidence s d.
Proof. intros Hr d Hd. by apply decision_hard_evidence, decisions_grounded. Qed.

Lemma hard_decisions_checked_witness :
  ∃ d, d ∈ warrant_decisions Scenario.state4 ∧
       hard_evidence Scenario.state4 d.
Proof.
  assert (∃ d, List.head (warrant_decisions Scenario.state4) = Some d
               ∧ wd_warrant_class d = HARD) as (d & Hd & Hh).
  { eexists. split; vm_compute; reflexivity. }
  assert (d ∈ warrant_decisions Scenario.state4) as Hin.
  { destruct (warrant_decisions _); [done|]. injection Hd as ->. left. }
  exists d. split; [exact Hin|]. apply (hard_decisions_checked _ scenario_reachable d Hin Hh).
Defined.

(** ** Promoted lemmas *)

Definition source_claims_match (s : InquiryState) (ids : list string) (relation scope_fp : string) : Prop :=
  ids ≠ [] ∧ ∀ id, id ∈ ids → ∃ c, c ∈ claims s ∧ claim_id c = id
    ∧ scope_fingerprint (claim_scope c) = scope_fp
    ∧ (claim_proposition_id c = None ∨ claim_proposition_id c = Some relation).

(** Everything a promoted lemma version rests on. *)
Record lemma_backed (s : InquiryState) (v : LemmaVersion) (sup : LemmaSupport) (link : PromotionLink)
    (d : WarrantDecisionRecord) : Prop := {
  lb_support_owner : ls_lemma_version_id sup = lv_id v;
  lb_link_owner : pl_lemma_version_id link = lv_id v;
  lb_decision : d ∈ warrant_decisions s ∧ wd_id d = pl_warrant_decision_id link;
  lb_hard : wd_warrant_class d = HARD ∧ ls_warrant_class sup = HARD;
  lb_proposition : wd_proposition_id d = lv_relation_id v
                   ∧ wd_proposition_kind d = lv_proposition_kind v
                   ∧ wd_scope_fingerprint d = scope_fingerprint (lv_scope v);
  lb_scope : scope_matches_context s (lv_scope v) = true;
  lb_routes : ∀ r, r ∈ all_support_routes sup →
    route_conclusion_id r = lv_id v ∧ wd_id d ∈ route_warrant_refs r
    ∧ environment_matches (route_environment r) (lv_scope v) = true;
  lb_sources : pl_source_claim_ids link = lv_source_claim_ids v
               ∧ source_claims_match s (lv_source_claim_ids v) (lv_relation_id v)
                   (scope_fingerprint (lv_scope v));
  lb_ancestry : lv_predecessor_refs v ⊆ map lv_id (lemma_versions s);
}.

Lemma source_claims_inv s ids relation scope_fp sources :
  source_claims s ids = Some sources → is_nil ids = false →
  existsb (λ c, scope_fingerprint (claim_scope c) !=? scope_fp) sources = false →
  existsb (λ c, is_some (claim_proposition_id c) && (claim_proposition_id c !=? Some relation)) sources
    = false →
  source_claims_match s ids relation scope_fp.
Proof.
  unfold source_claims. rewrite mapM_Some. intros Hall Hne Hs Hp.
  split; [by destruct ids|]. intros id Hid. apply list_elem_of_lookup in Hid as [i Hi].
  destruct (Forall2_lookup_l _ _ _ _ _ Hall Hi) as (c & Hc & Hf).
  apply first_key in Hf as [Hin Hcid]. apply list_elem_of_lookup_2 in Hc.
  exists c. rewrite any_false in Hs. rewrite any_false in Hp. specialize (Hs c Hc). specialize (Hp c Hc).
  rewrite neqb_false in Hs. split_and!; [done..|].
  rewrite andb_false_iff, neqb_false, is_some_false in Hp. tauto.
Qed.

Lemma promotion_inputs_inv s p d e v :
  promotion_inputs s p = Ok (d, e, v) →
  source_claims_match s (pm_source_claim_ids p) (pm_relation_id p) (scope_fingerprint (pm_scope p))
  ∧ scope_matches_context s (pm_scope p) = true
  ∧ pm_predecessor_refs p ⊆ map lv_id (lemma_versions s)
  ∧ d ∈ warrant_decisions s ∧ wd_id d = pm_warrant_decision_id p ∧ promotion_decision_matches p d = true
  ∧ ∀ r, r ∈ pm_support_routes p → wd_id d ∈ route_warrant_refs r.
Proof.
  unfold promotion_inputs. intros (u & Hsrc & H)%bind_ok.
  destruct (source_claims s _) as [sources|] eqn:Hs; [|done].
  apply raise_if_bind in Hsrc as [G1 Hsrc]. apply raise_if_bind in Hsrc as [G2 G3].
  apply raise_if_ok in G3. apply raise_if_bind in H as [G4 H]. apply raise_if_bind in H as [G5 H].
  destruct (warrant_decision_by_id s _) as [d'|] eqn:Hd; [|done].
  apply raise_if_bind in H as [G6 H].
  destruct (evidence_by_id s _) as [e'|]; [|discriminate H].
  destruct (checker_verdict_by_id s _) as [v'|]; [|discriminate H].
  apply raise_if_bind in H as [G7 H]. injection H as <- <- <-.
  rewrite negb_false_iff in G4. rewrite nsubset_false in G5. rewrite negb_false_iff in G6.
  apply first_key in Hd as [Hd Hid]. split_and!; try done.
  - by apply (source_claims_inv s _ _ _ sources).
  - rewrite any_false in G7. intros r Hr. specialize (G7 r Hr). by rewrite negb_false_iff, mem_true in G7.
Qed.

Lemma decide_promote_claim_inv s m p x :
  decide_body s m (PromoteClaim p) = Ok [x] →
  ∃ v sup link d, x = LemmaPromoted v sup link ∧ lemma_backed s v sup link d
    ∧ lv_id v ∉ map lv_id (lemma_versions s).
Proof.
  cbn [decide_body]. intros (u & _ & H)%bind_ok. unfold decide_promote_claim in H.
  apply bind_ok in H as ([[d e] cv] & Hin & H).
  apply promotion_inputs_inv in Hin as (Hsrc & Hsc & Hpred & Hd & Hdid & Hdm & Hrefs).
  destruct (st_context s) as [c|] eqn:Hc; [|done].
  apply bind_ok in H as (lemmas & Hl & H). apply bind_ok in H as (pd & Hpd & H).
  destruct (pd_outcome pd) eqn:Hout; [|done].
  set (req := promotion_request s c p e cv lemmas) in *.
  destruct (decide_promotion_inv _ _ Hpd Hout) as (_ & _ & _ & _ & Hvs & Hvj & _ & _ & _ & _ & Hlem & _).
  rewrite Hlem in H. cbv zeta in H. apply bind_ok in H as (u' & _ & H).
  set (link := MkPromotionLink _ _ _ _) in *.
  destruct (first (λ x, lv_id x ==? _) (lemma_versions s)) as [ev|] eqn:Hev.
  { cbn [is_some is_none negb orb] in H. by destruct (_ && _). }
  destruct (is_some None || is_some _) eqn:Hex; [by destruct (_ && _)|].
  injection H as <-. rewrite first_None_notin in Hev.
  unfold promotion_decision_matches in Hdm. rewrite !andb_true_iff, !eqb_true in Hdm.
  destruct Hdm as [[[Hh Hp] Hk] Hf].
  exists (wl_version (promotion_candidate req)), (wl_support (promotion_candidate req)), link, d.
  split; [done|]. split; [|done].
  assert (∀ r, r ∈ all_support_routes (promotion_support req) → r ∈ pm_support_routes p) as Hroutes.
  { intros r. unfold promotion_support, all_support_routes.
    pose proof (partition_perm (pr_support_routes req)) as Hperm.
    destruct (partition_routes _) as [mi hi]. cbn [ls_support_routes ls_historical_support_routes fst snd] in *.
    by rewrite Hperm. }
  assert (ls_lemma_version_id (promotion_support req) = pm_lemma_id p
          ∧ ls_warrant_class (promotion_support req) = HARD) as [Hsid Hscl].
  { unfold promotion_support. by destruct (partition_routes _). }
  split; cbn [promotion_candidate wl_version wl_support].
  - exact Hsid.
  - done.
  - split; [done|done].
  - done.
  - done.
  - done.
  - intros r Hr. split_and!.
    + unfold validate_support in Hvs.
      do 3 (apply raise_if_bind in Hvs as [_ Hvs]). apply raise_if_bind in Hvs as [Hcon _].
      rewrite any_false in Hcon. specialize (Hcon r Hr). rewrite neqb_false in Hcon.
      by rewrite Hcon, Hsid.
    + by apply Hrefs, Hroutes.
    + unfold validate_join in Hvj. apply raise_if_bind in Hvj as [_ Hvj]. apply raise_if_ok in Hvj.
      rewrite any_false in Hvj. specialize (Hvj r Hr). by rewrite negb_false_iff in Hvj.
  - done.
  - done.
Qed.

Lemma source_claims_match_step s e s' ids rel fp :
  Step s e s' → source_claims_match s ids rel fp → source_claims_match s' ids rel fp.
Proof.
  intros Hst [Hne H]. split; [done|]. intros id Hid. destruct (H id Hid) as (c & Hc & Hrest).
  exists c. split; [|done]. rewrite (step_claim_list _ _ _ Hst), elem_of_app. by left.
Qed.

Lemma scope_matches_step s e s' scope :
  Step s e s' → scope_matches_context s scope = true → scope_matches_context s' scope = true.
Proof.
  intros Hst Hs. destruct (is_inquiry_started (evt_body e)) eqn:Hi.
  { rewrite (step_started_initial _ _ _ Hst Hi) in Hs. done. }
  destruct (step_identity _ _ _ Hst Hi) as (_ & _ & _ & _ & Hctx).
  unfold scope_matches_context in *. by rewrite Hctx.
Qed.

Lemma lemma_backed_step s e s' v sup link d :
  Step s e s' → lemma_backed s v sup link d → lemma_backed s' v sup link d.
Proof.
  intros Hst [H1 H2 [H3 H3'] H4 H5 H6 H7 [H8 H8'] H9]. split; try done.
  - split; [|done]. rewrite (step_decisions _ _ _ Hst), elem_of_app. by left.
  - by eapply scope_matches_step.
  - split; [done|]. by eapply source_claims_match_step.
  - rewrite (step_versions _ _ _ Hst), map_app. set_solver.
Qed.

(** C11: No lemma without a hard warrant.  In every reachable inquiry each lemma
    version has exactly one support and one promotion link, a HARD decision for
    its very proposition, kind and scope whose evidence is owned, independently
    checked and of a hard kind, support routes that all conclude it, cite the
    decision and lie inside its scope, recorded source claims that match it, and
    recorded predecessors. *)
Theorem lemmas_rest_on_hard_warrants s :
  Reachable s → ∀ v, v ∈ lemma_versions s →
  ∃ sup link d, sup ∈ lemma_supports s ∧ link ∈ promotion_links s ∧ lemma_backed s v sup link d
    ∧ hard_evidence s d
    ∧ ∀ sup', sup' ∈ lemma_supports s → ls_lemma_version_id sup' = lv_id v → sup' = sup.
Proof.
  intros Hr v Hv.
  assert (∃ sup link d, sup ∈ lemma_supports s ∧ link ∈ promotion_links s ∧ lemma_backed s v sup link d)
    as (sup & link & d & Hsup & Hlink & Hb).
  { revert v Hv. revert Hr. apply (reachable_ind (λ s, ∀ v, v ∈ lemma_versions s → ∃ sup link d,
      sup ∈ lemma_supports s ∧ link ∈ promotion_links s ∧ lemma_backed s v sup link d)).
    - by intros v ?%not_elem_of_nil.
    - clear s. intros s e s' _ IH Hst v. rewrite (step_versions _ _ _ Hst), (step_supports _ _ _ Hst),
        (step_links _ _ _ Hst). setoid_rewrite elem_of_app. intros [Hv|Hv].
      + destruct (IH v Hv) as (sup & link & d & ? & ? & Hb). exists sup, link, d.
        split_and!; [by left..|]. by eapply lemma_backed_step.
      + destruct (evt_body e) eqn:He; cbn in Hv; try by apply not_elem_of_nil in Hv.
        apply list_elem_of_singleton in Hv as ->. cbn.
        destruct (step_decided _ _ _ Hst _ (ltac:(unfold command_of; rewrite He; reflexivity)))
          as (x & Hx & Heq).
        apply decide_promote_claim_inv in Hx as (v' & sup' & link' & d & -> & Hb & _).
        rewrite He in Heq. cbn [body_eqb] in Heq. rewrite !andb_true_iff, !eqb_true in Heq.
        destruct Heq as [[<- <-] <-]. exists sup', link', d. split_and!; [right; by left..|].
        by eapply lemma_backed_step. }
  exists sup, link, d. split_and!; [done..| |].
  - apply decision_hard_evidence; [apply decisions_grounded; [done|]|]; apply Hb.
  - intros sup' Hsup' Hid. pose proof (reachable_valid s Hr) as Hval.
    rewrite validate_lifecycle_ok in Hval. destruct Hval as (_ & _ & _ & _ & _ & Hl & _).
    unfold check_lemmas in Hl. cbv zeta in Hl. apply raise_if_bind in Hl as [Hnd _]. rewrite nuniq_false in Hnd.
    eapply (NoDup_map_inj ls_lemma_version_id); [done..|]. rewrite Hid. symmetry. apply Hb.
Qed.

Lemma lemmas_rest_on_hard_warrants_witness :
  ∃ v sup link d, v ∈ lemma_versions Scenario.state4 ∧
    lemma_backed Scenario.state4 v sup link d ∧
    hard_evidence Scenario.state4 d.
Proof.
  destruct (List.head (lemma_versions Scenario.state4)) as [v|] eqn:Hv;
    [|vm_compute in Hv; discriminate].
  assert (v ∈ lemma_versions Scenario.state4) as Hin.
  { destruct (lemma_versions _); [done|]. injection Hv as ->. left. }
  destruct (lemmas_rest_on_hard_warrants _ scenario_reachable v Hin) as (sup & link & d & _ & _ & Hb & Hh & _).
  exists v, sup, link, d. split_and!; done.
Defined.
