(* ===== verification/Timeline.v ===== *)
(** * The order of events in accepted logs

    Theorems about positions in a replayed log: the records that pin their own
    sequence number are where they say, predictions are sealed before the return
    they predict, accepted results come from a captured return of a started
    attempt, and standing, guard and probe histories are strictly ordered. *)

From S2P Require Import Prelude Digest Model Claims Warrant Support Policy Planning Backlog Effects Probes State Extensions Lifecycle Guards Decide Evolve Scenario Ledger Reachable History.

(** ** Events at a position *)

Definition event_at (es : list DomainEvent) (i : nat) (b : EventBody) : Prop :=
  ∃ m, es !! i = Some (MkEvent m b).

(** The step an accepted log takes at position [i]. *)
Lemma replay_step_at es s i b :
  replay es initial_state = Ok s → event_at es i b →
  ∃ s1 s2 e, evt_body e = b ∧ es !! i = Some e ∧ replay (take i es) initial_state = Ok s1
    ∧ Step s1 e s2 ∧ replay (drop (S i) es) s2 = Ok s ∧ Reachable s1 ∧ Reachable s2
    ∧ st_sequence s1 = Z.of_nat i.
Proof.
  intros Hr [m Hi]. pose proof (take_drop_middle _ _ _ Hi) as Hes.
  rewrite <-Hes in Hr. destruct (replay_split _ _ _ _ Hr) as (s1 & s2 & H1 & Hst & H2 & H12).
  exists s1, s2, (MkEvent m b). split_and!; try done.
  - by eexists.
  - by eexists.
  - destruct (replay_invariant _ _ H1) as (_ & -> & _). f_equal. apply length_take_le.
    apply lookup_lt_Some in Hi. lia.
Qed.

(** A later position is reached from the state after an earlier one. *)
Lemma replay_between es s i j b b' :
  replay es initial_state = Ok s → event_at es i b → event_at es j b' → i < j →
  ∃ s1 s2 s3 s4 e e', evt_body e = b ∧ evt_body e' = b' ∧ Step s1 e s2 ∧ Step s3 e' s4
    ∧ extends s2 s3 ∧ extends s3 s ∧ extends s2 s ∧ Reachable s3.
Proof.
  intros Hr Hi Hj Hij.
  destruct (replay_step_at _ _ _ _ Hr Hj) as (s3 & s4 & e' & He' & _ & H3 & Hst' & H4 & Hr3 & Hr4 & _).
  assert (event_at (take j es) i b) as Hi'.
  { destruct Hi as [m Hi]. exists m. rewrite lookup_take_lt; done. }
  destruct (replay_step_at _ _ _ _ H3 Hi') as (s1 & s2 & e & He & _ & _ & Hst & H2 & _ & Hr2 & _).
  assert (∀ t t' l, Reachable t → replay l t = Ok t' → extends t t') as Hext.
  { intros t t' l Ht Ht'. by apply (replay_extends l). }
  assert (replay (e' :: drop (S j) es) s3 = Ok s) as H3s.
  { cbn. apply bind_ok. exists s4. split; [|done]. apply evolve_ok. by destruct Hst'. }
  assert (extends s2 s3) by (by eapply Hext). assert (extends s3 s) by (by eapply Hext).
  exists s1, s2, s3, s4, e, e'. split_and!; try done. by transitivity s3.
Qed.

(** ** Records that pin their position *)

Lemma decide_plan_pins s m p x :
  decide_body s m (RecordCognitivePlan p) = Ok [x] →
  cp_planned_sequence p = (st_sequence s + 1)%Z ∧ (cp_source_state_revision p ≤ st_sequence s)%Z.
Proof.
  cbn [decide_body]. intros (u & _ & H)%bind_ok. unfold decide_record_cognitive_plan in H.
  inv_decide H; lia.
Qed.

Lemma decide_prediction_inv s m p x :
  decide_body s m (SealPrediction p) = Ok [x] →
  ps_sealed_sequence p = (st_sequence s + 1)%Z ∧
  ∃ cp, cognitive_plan_by_id s (ps_cognitive_plan_id p) = Some cp ∧
    (cp_effect_attempt_plan_id cp ≫= attempt_by_id s) ≫= att_outcome = None.
Proof.
  cbn [decide_body]. intros (u & _ & H)%bind_ok. unfold decide_seal_prediction in H.
  inv_decide H. split; [lia|]. eexists. split; [done|]. by apply is_some_false.
Qed.

Lemma decide_reconstruction_pins s m r x :
  decide_body s m (RecordReconstruction r) = Ok [x] →
  rc_reconstructed_sequence r = (st_sequence s + 1)%Z ∧ (rc_prior_state_revision r ≤ st_sequence s)%Z.
Proof.
  cbn [decide_body]. intros (u & _ & H)%bind_ok. unfold decide_record_reconstruction in H.
  cbv zeta in H. inv_decide H; lia.
Qed.

Lemma decide_delta_pins s m d x :
  decide_body s m (CommitSemanticDelta d) = Ok [x] →
  sd_committed_sequence d = (st_sequence s + 1)%Z ∧
  ∃ r, r ∈ reconstructions s ∧ rc_id r = sd_reconstruction_id d
       ∧ (rc_reconstructed_sequence r < sd_committed_sequence d)%Z.
Proof.
  cbn [decide_body]. intros (u & _ & H)%bind_ok. unfold decide_commit_semantic_delta in H.
  destruct (first _ (reconstructions s)) as [r|] eqn:E; inv_decide H; (split; [lia|]);
    apply first_key in E as [Hr Hid]; exists r; split_and!; try done; lia.
Qed.

Lemma decide_observation_inv s m o x :
  decide_body s m (RecordProbeObservation o) = Ok [x] →
  (pe_state_revision o ≤ st_sequence s)%Z ∧ validate_trace (observation_trace s o) = Ok tt
  ∧ (∃ t, append_probe_event (observation_trace s o) o = Ok t)
  ∧ pe_id o ∉ map pe_id (probe_observations s)
  ∧ event_fingerprint o ∈ map probe_fingerprint (admitted_probes s)
  ∧ pe_external_return_ids o ⊆ captured_external_return_ids s.
Proof.
  cbn [decide_body]. intros (u & _ & H)%bind_ok. unfold decide_record_probe_observation in H.
  apply unless_recorded_inv in H as [Hnone H]. rewrite first_None_notin in Hnone.
  apply raise_if_bind in H as [G H]. rewrite negb_false_iff, mem_true in G.
  destruct (st_context s) as [c|]; [|discriminate H].
  apply raise_if_bind in H as [_ H]. apply raise_if_bind in H as [G1 H].
  apply raise_if_bind in H as [G2 H]. rewrite nsubset_false in G2.
  apply raise_if_bind in H as [_ H]. apply bind_ok in H as (u' & _ & H). cbv zeta in H.
  apply bind_ok in H as ([] & Hv & H).
  destruct (append_probe_event _ _) as [t|x'] eqn:Ht.
  - split_and!; try done; [lia|by exists t].
  - destruct (is_value_error _); discriminate H.
Qed.

(** What the record says about its own place in the log. *)
Definition pinned_at (es : list DomainEvent) (i : nat) (b : EventBody) : Prop :=
  let n := Z.of_nat (S i) in
  match b with
  | CognitivePlanRecorded p => cp_planned_sequence p = n ∧ (cp_source_state_revision p < n)%Z
  | PredictionSealed p => ps_sealed_sequence p = n
  | ReconstructionRecorded r => rc_reconstructed_sequence r = n ∧ (rc_prior_state_revision r < n)%Z
  | SemanticDeltaCommitted d =>
    sd_committed_sequence d = n ∧
    ∃ j r, event_at es j (ReconstructionRecorded r) ∧ j < i ∧ rc_id r = sd_reconstruction_id d
  | ProbeObservationRecorded o => (pe_state_revision o < n)%Z
  | _ => True
  end.

(** Every record of a ledger comes from an event of the log. *)
Lemma reconstruction_has_event es s r :
  replay es initial_state = Ok s → r ∈ reconstructions s →
  ∃ j, event_at es j (ReconstructionRecorded r).
Proof.
  intros Hr. refine (proj2 (replay_ind initial_state (λ es s, ∀ r, r ∈ reconstructions s →
    ∃ j, event_at es j (ReconstructionRecorded r)) initial_valid _ _ es s Hr) r).
  - by intros ? ?%not_elem_of_nil.
  - clear. intros es s e s' _ IH Hst r Hin.
    unfold reconstructions in Hin. rewrite (step_cognition _ _ _ Hst) in Hin.
    cbn [cognition_app l_reconstructions] in Hin. apply elem_of_app in Hin as [Hin|Hin].
    + destruct (IH r Hin) as (j & m & Hj). exists j, m. by apply lookup_app_l_Some.
    + destruct e as [m b]. exists (length es), m. rewrite lookup_app_r, Nat.sub_diag by lia.
      destruct b; cbn in Hin; try by apply not_elem_of_nil in Hin.
      by apply list_elem_of_singleton in Hin as ->.
Qed.

(** Self-dated records are where they say they are.  In an accepted log the
    sequence a cognitive plan, prediction, reconstruction or semantic delta pins
    is its own position, the revisions it reads are earlier, and a delta comes
    after the event of its reconstruction. *)
Theorem records_pin_their_position es s i b :
  replay es initial_state = Ok s → event_at es i b → pinned_at es i b.
Proof.
  intros Hr Hi.
  destruct (replay_step_at _ _ _ _ Hr Hi) as (s1 & s2 & e & He & Hlook & H1 & Hst & _ & _ & _ & Hseq).
  assert (∀ c, command_of e = Some c → ∃ x, decide_body s1 (evt_meta e) c = Ok [x]) as Hd.
  { intros c Hc. destruct (step_decided _ _ _ Hst c Hc) as (x & Hx & _). by exists x. }
  unfold command_of in Hd. rewrite He in Hd. unfold pinned_at.
  destruct b; try done; destruct (Hd _ eq_refl) as [x Hx].
  - apply decide_plan_pins in Hx as [H2 H3]. lia.
  - apply decide_prediction_inv in Hx as [H2 _]. lia.
  - apply decide_observation_inv in Hx as [H2 _]. lia.
  - apply decide_reconstruction_pins in Hx as [H2 H3]. lia.
  - apply decide_delta_pins in Hx as (H2 & r & Hin & Hid & H3). split; [lia|].
    destruct (reconstruction_has_event _ _ _ H1 Hin) as (j & m & Hj).
    exists j, r. apply lookup_take_Some in Hj as [Hj Hlt]. split_and!; [by exists m|done|done].
Qed.

Lemma records_pin_their_position_witness :
  pinned_at (Scenario.log1 ++ Scenario.log2 ++ Scenario.log3 ++ Scenario.log4) 33
    (SemanticDeltaCommitted
       (MkSemanticDelta "sd" "rc" [MkWarrantedChange "ch" "p" Scenario.fp ADD "L1"] [] [] 34)).
Proof.
  apply (records_pin_their_position _ Scenario.state4).
  - apply scenario_replay.
  - eexists. vm_compute. reflexivity.
Defined.

(** ** Predictions and returns *)

Lemma extends_plan s s' id cp :
  extends s s' →
  cognitive_plan_by_id s id = Some cp → cognitive_plan_by_id s' id = Some cp.
Proof.
  intros [_ _ _ _ _ [l Hl]] H. unfold cognitive_plan_by_id, cognitive_plans in *.
  rewrite Hl. cbn [cognition_app l_cognitive_plans]. rewrite first_app.
  by rewrite H.
Qed.

Lemma extends_attempt s s' a :
  extends s s' → a ∈ all_attempts (effect_requests s) →
  ∃ b, b ∈ all_attempts (effect_requests s') ∧ attempt_extends a b.
Proof.
  intros Hext. unfold all_attempts. rewrite elem_of_flat_map. intros (r & Hr & Ha).
  apply list_elem_of_lookup in Hr as [i Hi].
  destruct (ext_requests _ _ Hext i r Hi) as (q & Hq & (_ & Hat & _)).
  apply list_elem_of_lookup in Ha as [k Hk]. destruct (Hat k a Hk) as (b & Hb & Hab).
  exists b. split; [|done]. apply elem_of_flat_map. exists q.
  split; by eapply list_elem_of_lookup_2.
Qed.

Lemma attempt_by_id_unique s a :
  EffectsOK s → a ∈ all_attempts (effect_requests s) → attempt_by_id s (att_id a) = Some a.
Proof.
  intros Hok Ha. unfold attempt_by_id.
  destruct (first_is_Some (λ x, att_id x ==? att_id a) (all_attempts (effect_requests s)) a Ha)
    as (b & Hb & Hk & Hin); [by apply eqb_true|].
  rewrite Hb. f_equal. rewrite eqb_true in Hk.
  by apply (NoDup_map_inj att_id _ _ _ (ok_attempts _ Hok)).
Qed.

(** The state after an outcome event holds the outcome. *)
Lemma outcome_recorded s e s' q o :
  Step s e s' → evt_body e = EffectAttemptOutcomeRecorded q o →
  ∃ a, a ∈ all_attempts (effect_requests s') ∧ att_id a = outcome_attempt_id o ∧ att_outcome a = Some o.
Proof.
  intros Hst He. pose proof (step_guards _ _ _ Hst) as Hg. unfold effect_guards in Hg. rewrite He in Hg.
  destruct Hg as (r & a & Hr & Ha & _); [unfold command_of; by rewrite He|].
  apply first_key in Ha as [Ha Hid].
  exists (ended_attempt a o). split; [|by rewrite <-Hid].
  unfold effect_requests. rewrite (step_effects _ _ _ Hst). unfold effect_records. rewrite He, Hr.
  cbn [mbind option_bind l_effect_requests]. unfold all_attempts. apply elem_of_flat_map.
  apply request_by_id_Some in Hr as [Hr _]. eexists. split.
  - unfold replace_request. apply elem_of_map. exists r. split; [done|].
    unfold with_attempts, ers_id. cbn [ers_request]. by rewrite bool_decide_true.
  - cbn [with_attempts ers_attempts]. unfold update_attempt. apply elem_of_map. exists a.
    split; [done|]. by rewrite bool_decide_true.
Qed.

(** C16: Predictions are sealed before what they predict.  In an accepted log, if
    a sealed prediction belongs to a cognitive plan bound to an effect attempt,
    its event comes strictly before any event that ends that attempt. *)
Theorem predictions_precede_outcomes es s i j p q o :
  replay es initial_state = Ok s →
  event_at es i (PredictionSealed p) → event_at es j (EffectAttemptOutcomeRecorded q o) →
  cognitive_plan_by_id s (ps_cognitive_plan_id p) ≫= cp_effect_attempt_plan_id
    = Some (outcome_attempt_id o) →
  i < j.
Proof.
  intros Hr Hi Hj Hplan. destruct (lt_dec i j) as [|Hge]; [done|exfalso].
  assert (j < i) as Hji.
  { destruct (Nat.eq_dec i j) as [->|]; [|lia]. destruct Hi as [m Hi], Hj as [m' Hj]. congruence. }
  destruct (replay_between _ _ _ _ _ _ Hr Hj Hi Hji)
    as (s1 & s2 & s3 & s4 & e & e' & He & He' & Hst & Hst' & Hext23 & Hext3 & _ & Hr3).
  destruct (outcome_recorded _ _ _ _ _ Hst He) as (a & Ha & Hid & Hout).
  destruct (extends_attempt _ _ _ Hext23 Ha) as (b & Hb & Hbp & _ & Hbo).
  destruct (step_decided _ _ _ Hst' (SealPrediction p)) as (x & Hx & _).
  { unfold command_of. by rewrite He'. }
  apply decide_prediction_inv in Hx as (_ & cp & Hcp & Hnone).
  rewrite (extends_plan s3 s _ cp) in Hplan by done.
  cbn [mbind option_bind] in Hplan. rewrite Hplan in Hnone. cbn [mbind option_bind] in Hnone.
  assert (att_id b = outcome_attempt_id o) as Hbid by (unfold att_id; rewrite Hbp; exact Hid).
  rewrite <-Hbid, (attempt_by_id_unique s3 b) in Hnone; [|apply valid_effects, Hst'|done].
  cbn [mbind option_bind] in Hnone. rewrite (Hbo o Hout) in Hnone. done.
Qed.

Lemma predictions_precede_outcomes_witness :
  ∃ p i j, i < j ∧
    event_at (Scenario.log1 ++ Scenario.log2 ++ Scenario.log3 ++ Scenario.log4) i (PredictionSealed p).
Proof.
  assert (∃ p, event_at (Scenario.log1 ++ Scenario.log2 ++ Scenario.log3 ++ Scenario.log4) 6
                 (PredictionSealed p) ∧ ps_cognitive_plan_id p = "cp") as (p & Hp & Hcp).
  { eexists. split; [eexists|]; vm_compute; reflexivity. }
  exists p, 6, 8. split; [|exact Hp].
  apply (predictions_precede_outcomes (Scenario.log1 ++ Scenario.log2 ++ Scenario.log3 ++ Scenario.log4)
           Scenario.state4 6 8 p "req" Scenario.outcome).
  - apply scenario_replay.
  - exact Hp.
  - eexists. vm_compute. reflexivity.
  - rewrite Hcp. vm_compute. reflexivity.
Defined.

(** ** Accepted results *)

(** The chain behind an accepted result. *)
Record result_provenance (s : InquiryState) (r : EffectRequestState) (id : string) : Prop := {
  rp_decode : ∃ b res, Decoded b res ∈ ers_decode_outcomes r ∧ decode_id b = id
    ∧ accepted_result r = Some res
    ∧ ∃ a ret, a ∈ ers_attempts r ∧ att_started a = true
        ∧ att_outcome a = Some (ReturnedOutcome (att_id a) (rs_id (ap_route (att_plan a))) ret)
        ∧ ret_id ret = decode_external_return_id b;
  rp_plan : ∃ p, p ∈ step_plans s ∧ plan_id p = req_step_plan_id (ers_request r);
}.

Lemma return_ids_attempt l id :
  id ∈ return_ids l → ∃ a o ret, a ∈ l ∧ att_outcome a = Some o ∧ outcome_return o = Some ret ∧ ret_id ret = id.
Proof.
  unfold return_ids. intros (ret & Hret & ->)%elem_of_map.
  apply list_elem_of_omap in Hret as (a & Ha & Hr). unfold attempt_return in Hr.
  destruct (att_outcome a) as [o|] eqn:Ho; [|done]. exists a, o, ret. by split_and!.
Qed.

(** C17: An accepted result is never conjured.  In a reachable inquiry a request's
    accepted outcome is one of its own successful decodes, of a return captured by
    one of its own started attempts on exactly the route that attempt planned, and
    the request belongs to a persisted step plan. *)
Theorem accepted_results_have_provenance s r id :
  Reachable s → r ∈ effect_requests s → ers_accepted_decoded_outcome_id r = Some id →
  result_provenance s r id.
Proof.
  intros Hre Hr Hid. destruct (reachable_requests_valid s Hre r Hr) as (Hc & Hat & Hroute & Hown).
  pose proof (valid_effects s (reachable_valid s Hre)) as Hok. split.
  - unfold validate_cardinalities in Hc. rewrite !raise_if_bind, Hid, raise_if_ok, negb_false_iff, any_false in Hc.
    destruct Hc as (_ & _ & _ & _ & Hret & Hacc). unfold decode_is_accepted in Hacc.
    destruct (find_decode id (ers_decode_outcomes r)) as [d|] eqn:Hd; [|done].
    destruct d as [b res| | |]; try done. unfold accepted_result. rewrite Hid. cbn [mbind option_bind].
    rewrite Hd. unfold find_decode in Hd. apply first_key in Hd as [Hin Hdid].
    exists b, res. split_and!; [done|exact Hdid|done|].
    specialize (Hret _ Hin). rewrite negb_false_iff, mem_true in Hret.
    apply return_ids_attempt in Hret as (a & o & ret & Ha & Ho & Hor & Hrid).
    exists a, ret. split_and!; [done| | |exact Hrid].
    + specialize (Hat a Ha). destruct (att_started a) eqn:Hs; [done|].
      by rewrite (validate_attempt_unstarted a Hat Hs) in Ho.
    + rewrite Ho. specialize (Hroute a o Ha Ho). specialize (Hown a o Ha Ho).
      destruct o as [| | | |ai ri ret']; try discriminate Hor. cbn in *. congruence.
  - pose proof (ok_request_plans _ Hok r Hr) as Hp. apply elem_of_map in Hp as (p & Hp & Hpid). eauto.
Qed.

Lemma accepted_results_have_provenance_witness :
  ∃ r, r ∈ effect_requests Scenario.state4 ∧ result_provenance Scenario.state4 r "dec".
Proof.
  destruct (List.head (effect_requests Scenario.state4)) as [r|] eqn:Hr; [|vm_compute in Hr; discriminate].
  assert (r ∈ effect_requests Scenario.state4) as Hin.
  { destruct (effect_requests _); [done|]. injection Hr as ->. left. }
  exists r. split; [exact Hin|]. apply (accepted_results_have_provenance _ _ _ scenario_reachable Hin).
  vm_compute in Hr. injection Hr as <-. reflexivity.
Defined.

(** ** Standing, guard and probe histories *)

(** [{key(x): x for x in l}[k]] is the last element of that key. *)
Lemma dict_by_last {A} (key : A → string) l k :
  dict_by key l !! k = last (List.filter (λ x, key x ==? k) l).
Proof.
  induction l as [|x l IH] using rev_ind; [done|].
  rewrite dict_by_app, List.filter_app. cbn [List.filter].
  destruct (key x ==? k) eqn:E.
  - rewrite eqb_true in E. subst k. by rewrite lookup_insert_eq, last_snoc.
  - rewrite eqb_false in E. rewrite lookup_insert_ne by done. by rewrite app_nil_r.
Qed.

(** Each record names the one before it and changes the standing. *)
Section chains.
Context {A S : Type} (change_id : A → string) (predecessor : A → option string) (standing : A → S).

Inductive chained : option string → option S → list A → Prop :=
| chained_nil p st : chained p st []
| chained_cons p st c l :
    predecessor c = p → Some (standing c) ≠ st →
    chained (Some (change_id c)) (Some (standing c)) l → chained p st (c :: l).

Lemma chained_snoc p st l c :
  chained p st l →
  predecessor c = match last l with Some x => Some (change_id x) | None => p end →
  Some (standing c) ≠ match last l with Some x => Some (standing x) | None => st end →
  chained p st (l ++ [c]).
Proof.
  induction 1 as [p st|p st x l Hp Hs Hl IH]; intros Hc Hn; cbn.
  - by repeat constructor.
  - constructor; [done..|]. rewrite last_cons in Hc, Hn. apply IH; by destruct (last l).
Qed.
End chains.

Lemma chained_parity {A} (cid : A → string) pred (standing : A → SupportStanding) p st l i c :
  chained cid pred standing p (Some st) l → l !! i = Some c →
  standing c = if Nat.even i then (match st with STANDING => WITHDRAWN | WITHDRAWN => STANDING end) else st.
Proof.
  intros Hl. remember (Some st) as o eqn:Ho. revert st Ho i.
  induction Hl as [p o|p o x l Hp Hs Hl IH]; intros st -> i; [done|].
  destruct i as [|i]; cbn [lookup list_lookup].
  - intros [= ->]. cbn. destruct (standing c), st; try done; by destruct Hs.
  - intros Hi. rewrite (IH (standing x) eq_refl i Hi), Nat.even_succ, <-Nat.negb_even.
    destruct (Nat.even i); cbn; destruct (standing x), st; try done; by destruct Hs.
Qed.

Section check_history.
Context {A : Type} (object change_id : A → string) (predecessor : A → option string)
  (standing : A → SupportStanding) (kind : string).

Lemma check_history_chained owned tails l :
  check_history object change_id predecessor standing kind owned tails l = Ok tt →
  (∀ c, c ∈ l → object c ∈ owned) ∧
  ∀ k, chained change_id predecessor standing (change_id <$> tails !! k)
         (Some (default STANDING (standing <$> tails !! k)))
         (List.filter (λ c, object c ==? k) l).
Proof.
  revert tails. induction l as [|c l IH]; intros tails; cbn [check_history].
  - intros _. split; [by intros ? ?%not_elem_of_nil|constructor].
  - intros (t & Ht & H)%bind_ok. unfold check_change in Ht.
    apply raise_if_bind in Ht as [G1 Ht]. apply raise_if_bind in Ht as [G2 Ht].
    apply raise_if_bind in Ht as [G3 [= <-]].
    rewrite negb_false_iff, mem_true in G1. rewrite neqb_false in G2. rewrite eqb_false in G3.
    destruct (IH _ H) as [Hown Hch]. split.
    + intros d [->|Hd]%elem_of_cons; [done|by apply Hown].
    + intros k. cbn [List.filter]. specialize (Hch k).
      destruct (object c ==? k) eqn:E; [rewrite eqb_true in E; subst k|rewrite eqb_false in E].
      * rewrite lookup_insert_eq in Hch. constructor; [done|congruence|exact Hch].
      * by rewrite lookup_insert_ne in Hch by done.
Qed.
End check_history.

Definition route_history (s : InquiryState) (route : string) : list SupportRouteStandingChange :=
  List.filter (λ c, rsc_support_route_id c ==? route) (support_route_standing_changes s).
Definition nogood_history (s : InquiryState) (nogood : string) : list NogoodStandingChange :=
  List.filter (λ c, nsc_nogood_id c ==? nogood) (nogood_standing_changes s).
Definition guard_history (s : InquiryState) (condition : string) : list GuardChange :=
  List.filter (λ g, guard_condition_id g ==? condition) (guard_changes s).

Definition alternates {A} (standing : A → SupportStanding) (l : list A) : Prop :=
  ∀ i c, l !! i = Some c → standing c = if Nat.even i then WITHDRAWN else STANDING.

(** Standing flips.  In every valid state the changes of a support route,
    and of a nogood, form one predecessor chain over an owned record that
    alternates withdrawal and restoration, starting with a withdrawal. *)
Theorem standing_histories_alternate s :
  validate_lifecycle s = Ok tt →
  (∀ route, chained rsc_id rsc_predecessor_id rsc_standing None (Some STANDING) (route_history s route)
            ∧ alternates rsc_standing (route_history s route)) ∧
  (∀ nogood, chained nsc_id nsc_predecessor_id nsc_standing None (Some STANDING) (nogood_history s nogood)
             ∧ alternates nsc_standing (nogood_history s nogood)) ∧
  (∀ c, c ∈ support_route_standing_changes s →
        rsc_support_route_id c ∈ map route_id (all_routes (lemma_supports s))) ∧
  (∀ c, c ∈ nogood_standing_changes s → nsc_nogood_id c ∈ map ng_id (nogoods s)).
Proof.
  rewrite validate_lifecycle_ok. intros (_ & _ & _ & _ & _ & _ & _ & Hr & Hn & _).
  apply check_history_chained in Hr as [Hro Hrc]. apply check_history_chained in Hn as [Hno Hnc].
  split_and!; [| |done|done].
  - intros route. specialize (Hrc route). rewrite lookup_empty in Hrc. split; [exact Hrc|].
    intros i c Hi. exact (chained_parity _ _ _ _ _ _ _ _ Hrc Hi).
  - intros nogood. specialize (Hnc nogood). rewrite lookup_empty in Hnc. split; [exact Hnc|].
    intros i c Hi. exact (chained_parity _ _ _ _ _ _ _ _ Hnc Hi).
Qed.

Lemma standing_histories_alternate_witness :
  length (route_history Scenario.state4 "r1") = 2 ∧
  alternates rsc_standing (route_history Scenario.state4 "r1").
Proof.
  split; [vm_compute; reflexivity|].
  apply (standing_histories_alternate Scenario.state4).
  apply reachable_valid, scenario_reachable.
Defined.

Lemma decide_guard_inv s m g x :
  decide_body s m (ChangeGuardStanding g) = Ok [x] →
  guard_predecessor_id g = guard_id <$> last (guard_history s (guard_condition_id g)) ∧
  guard_standing <$> last (guard_history s (guard_condition_id g)) ≠ Some (guard_standing g).
Proof.
  cbn [decide_body]. intros (u & _ & H)%bind_ok. unfold decide_change_guard_standing in H.
  cbv zeta in H. inv_decide H. rewrite neqb_false in G0. rewrite eqb_false in G1. done.
Qed.

(** Guards follow their last change.  In every reachable inquiry the changes
    of a guard condition form one predecessor chain in which the standing always
    changes, and the condition belongs to the current context exactly when the
    last of them says it stands. *)
Theorem guard_histories_govern_context s condition :
  Reachable s →
  chained guard_id guard_predecessor_id guard_standing None None (guard_history s condition) ∧
  (condition ∈ standing_context_ids s ↔
   guard_standing <$> last (guard_history s condition) = Some GUARD_STANDING).
Proof.
  intros Hr. split.
  - revert s Hr. apply (reachable_ind (λ s, chained guard_id guard_predecessor_id guard_standing None None
      (guard_history s condition))); [constructor|].
    intros s e s' _ IH Hst. unfold guard_history. rewrite (step_guard_changes _ _ _ Hst), List.filter_app.
    destruct (evt_body e) eqn:He; cbn [claim_records l_guard_changes List.filter];
      try (rewrite app_nil_r; exact IH).
    destruct (guard_condition_id change ==? condition) eqn:E; [|rewrite app_nil_r; exact IH].
    rewrite eqb_true in E. subst condition.
    destruct (step_decided _ _ _ Hst (ChangeGuardStanding change)) as (x & Hx & _).
    { unfold command_of. by rewrite He. }
    apply decide_guard_inv in Hx as [Hp Hs]. apply chained_snoc; [exact IH| |].
    + rewrite Hp. unfold guard_history. by destruct (last _).
    + unfold guard_history in Hs. destruct (last _); [|done]. cbn in Hs. congruence.
  - unfold standing_context_ids. rewrite elem_of_map. unfold guard_history. rewrite <-dict_by_last. split.
    + intros ([k g] & Hin & ->). cbn. apply elem_of_lfilter in Hin as [Hin Hs]. cbn in Hs.
      rewrite eqb_true in Hs. apply elem_of_map_to_list in Hin. rewrite Hin. cbn. by rewrite Hs.
    + destruct (dict_by _ _ !! condition) as [g|] eqn:Hg; [|done]. cbn. intros [= Hs].
      exists (condition, g). split; [|done]. apply elem_of_lfilter.
      split; [by apply elem_of_map_to_list|]. cbn. by apply eqb_true.
Qed.

Lemma guard_histories_govern_context_witness :
  "cond" ∈ standing_context_ids Scenario.state4.
Proof.
  apply (guard_histories_govern_context Scenario.state4 "cond" scenario_reachable).
  vm_compute. reflexivity.
Defined.

(** What holds between consecutive observations of one probe. *)
Definition follows (x y : ProbeEvent) : Prop :=
  (pe_sequence_index x < pe_sequence_index y)%Z ∧ compare_probe_events x y None = true.

Definition probe_history (s : InquiryState) (fp : string) : list ProbeEvent :=
  List.filter (λ x, event_fingerprint x ==? fp) (probe_observations s).

Lemma Sorted_snoc_last {A} (R : A → A → Prop) l x :
  Sorted R l → (∀ z, last l = Some z → R z x) → Sorted R (l ++ [x]).
Proof.
  induction 1 as [|y l Hl IH Hy]; intros Hx; cbn; [by repeat constructor|].
  constructor.
  - apply IH. intros z Hz. apply Hx. by rewrite last_cons, Hz.
  - destruct l as [|z l]; cbn; [by constructor; apply Hx|]. by inversion Hy; constructor.
Qed.

Lemma append_probe_event_inv t o t' :
  append_probe_event t o = Ok t' →
  event_fingerprint o = pt_probe_fingerprint t ∧ ∀ z, last (pt_events t) = Some z → follows z o.
Proof.
  unfold append_probe_event. intros [G H]%raise_if_bind. rewrite neqb_false in G. split; [done|].
  intros z Hz. rewrite Hz in H. apply bind_ok in H as ([] & H & _).
  apply raise_if_bind in H as [G1 H]. rewrite raise_if_ok, negb_false_iff in H.
  split; [lia|done].
Qed.

Lemma probe_history_step s e s' fp :
  Step s e s' → Sorted follows (probe_history s fp) → Sorted follows (probe_history s' fp).
Proof.
  intros Hst IH. unfold probe_history. rewrite (step_observations _ _ _ Hst), List.filter_app.
  destruct (evt_body e) eqn:He; cbn [cognition_records l_probe_observations List.filter];
    try (rewrite app_nil_r; exact IH).
  destruct (event_fingerprint _ ==? fp) eqn:E; [|rewrite app_nil_r; exact IH].
  rewrite eqb_true in E. subst fp.
  match goal with He : evt_body e = ProbeObservationRecorded ?o |- _ =>
    destruct (step_decided _ _ _ Hst (RecordProbeObservation o)) as (x & Hx & _) end.
  { unfold command_of. by rewrite He. }
  apply decide_observation_inv in Hx as (_ & _ & (t & Ht) & _).
  apply append_probe_event_inv in Ht as [_ Ht]. by apply Sorted_snoc_last.
Qed.

(** A captured return stays captured. *)
Lemma extends_returns s s' :
  extends s s' → captured_external_return_ids s ⊆ captured_external_return_ids s'.
Proof.
  intros Hext id Hid. unfold captured_external_return_ids in *.
  apply return_ids_attempt in Hid as (a & o & ret & Ha & Ho & Hret & <-).
  destruct (extends_attempt _ _ _ Hext Ha) as (b & Hb & _ & _ & Hbo).
  unfold return_ids. apply elem_of_map. exists ret. split; [|done].
  apply list_elem_of_omap. exists b. split; [done|]. unfold attempt_return. by rewrite (Hbo o Ho).
Qed.

Definition observation_grounded (s : InquiryState) (o : ProbeEvent) : Prop :=
  event_fingerprint o ∈ map probe_fingerprint (admitted_probes s)
  ∧ pe_external_return_ids o ⊆ captured_external_return_ids s
  ∧ (pe_state_revision o ≤ st_sequence s)%Z.

(** C18: Probe histories are traces.  In every reachable inquiry the observations
    of one probe form a trace: sequence indices strictly increase, each observation
    is comparable with the one before it, and every observation belongs to an
    admitted probe, reads a revision the inquiry had reached, and cites only
    captured external returns. *)
Theorem probe_histories_are_traces s :
  Reachable s →
  (∀ fp, StronglySorted Z.lt (map pe_sequence_index (probe_history s fp))
         ∧ Sorted follows (probe_history s fp)) ∧
  ∀ o, o ∈ probe_observations s → observation_grounded s o.
Proof.
  intros Hr. split.
  - intros fp.
    assert (Sorted follows (probe_history s fp)) as Hs.
    { revert s Hr. apply (reachable_ind (λ s, Sorted follows (probe_history s fp))); [constructor|].
      intros s e s' _ IH Hst. by eapply probe_history_step. }
    split; [|done]. apply Sorted_StronglySorted; [intros ???; lia|].
    clear Hr. induction Hs as [|x l Hl IH Hx]; cbn; [constructor|]. constructor; [done|].
    destruct Hx as [|y l [Hx _]]; by constructor.
  - revert s Hr. apply (reachable_ind (λ s, ∀ o, o ∈ probe_observations s → observation_grounded s o)).
    { by intros ? ?%not_elem_of_nil. }
    intros s e s' Hr IH Hst o. rewrite (step_observations _ _ _ Hst), elem_of_app.
    assert (observation_grounded s o → observation_grounded s' o) as Hkeep.
    { intros (H1 & H2 & H3). split_and!.
      - unfold admitted_probes in *. rewrite (step_cognition _ _ _ Hst). cbn [cognition_app l_admitted_probes].
        rewrite map_app. by apply elem_of_app; left.
      - etrans; [exact H2|]. apply extends_returns, (step_extends s e s' ); [by apply reachable_requests_valid|done].
      - rewrite (step_sequence _ _ _ Hst). lia. }
    intros [Ho|Ho]; [by apply Hkeep, IH|]. apply Hkeep.
    destruct (evt_body e) eqn:He; cbn [cognition_records l_probe_observations] in Ho;
      try by apply not_elem_of_nil in Ho.
    apply list_elem_of_singleton in Ho as ->.
    match goal with He : evt_body e = ProbeObservationRecorded ?o |- _ =>
      destruct (step_decided _ _ _ Hst (RecordProbeObservation o)) as (x & Hx & _) end.
    { unfold command_of. by rewrite He. }
    apply decide_observation_inv in Hx as (H1 & _ & _ & _ & H2 & H3). by split_and!.
Qed.

Lemma probe_histories_are_traces_witness :
  ∃ o, o ∈ probe_observations Scenario.state4 ∧ observation_grounded Scenario.state4 o.
Proof.
  destruct (List.head (probe_observations Scenario.state4)) as [o|] eqn:Ho; [|vm_compute in Ho; discriminate].
  assert (o ∈ probe_observations Scenario.state4) as Hin.
  { destruct (probe_observations _); [done|]. injection Ho as ->. left. }
  exists o. split; [exact Hin|]. exact (proj2 (probe_histories_are_traces _ scenario_reachable) o Hin).
Defined.
