(* ===== verification/Extended.v ===== *)
(** * Steps of the extension ledgers

    What an accepted extension event tells about the state before it and about
    the ledgers after it: the inversion of the handlers' replay guard, the event
    decided anew, the collections it extends, and the independent checks, which
    never expire. *)

From S2P Require Import Prelude Digest Memory Retrieval Recovery Learning Compression Project Model Claims Warrant Support Policy Planning Backlog Effects Probes State Goals Extensions Lifecycle Guards Retention Consolidation Licensing Governance Decide Evolve Ledger Reachable History.

Lemma unless_owned_inv `{EqDecision A} {B} (id : A → string) l r msg (k : result (list B)) x :
  unless_owned id l r msg k = Ok [x] → id r ∉ map id l ∧ k = Ok [x].
Proof.
  unfold unless_owned, unless_recorded. destruct (first _ l) as [y|] eqn:E.
  { destruct (same y r); done. }
  by rewrite first_None_notin in E.
Qed.

Lemma reject_ok c msg : reject c msg = Ok tt ↔ c = false.
Proof. apply raise_if_tt. Qed.

Lemma reject_bind {B} c msg (k : result B) b : (reject c msg;; k) = Ok b ↔ c = false ∧ k = Ok b.
Proof. apply raise_if_bind. Qed.

Lemma reused_bind {B} c msg (k : result B) b : (reused c msg;; k) = Ok b ↔ c = false ∧ k = Ok b.
Proof. apply raise_if_bind. Qed.

Lemma or_raise_bind {A B} (o : option A) k msg (f : A → result B) b :
  (x ← or_raise o k msg; f x) = Ok b ↔ ∃ x, o = Some x ∧ f x = Ok b.
Proof.
  destruct o as [x|]; cbn; [|by split; [|intros (? & ? & _)]].
  split; [eauto|by intros (? & [= <-] & ?)].
Qed.

(** ** The event decided anew *)

Lemma fmap_singleton {A B} (f : A → B) (m : result (list A)) y :
  map f <$> m = Ok [y] → ∃ x, m = Ok [x] ∧ y = f x.
Proof. destruct m as [[|x [|]]|]; try done. intros [= <-]. eauto. Qed.

Lemma extension_decided s e s' x :
  Step s e s' → evt_body e = Extended x →
  ∃ y, decide_extension s (extension_command x) = Ok [y] ∧ extension_event_eqb y x = true.
Proof.
  intros Hst He. destruct (step_decided _ _ _ Hst (Extend (extension_command x))) as (y & Hy & Heq).
  { unfold command_of. by rewrite He. }
  cbn [decide_body] in Hy. apply bind_ok in Hy as (u & _ & Hy). apply fmap_singleton in Hy as (z & Hz & ->).
  rewrite He in Heq. eauto.
Qed.

Lemma retention_decided s e s' x :
  Step s e s' → evt_body e = Extended (RetentionFact x) →
  decide_retention s (retention_command x) = Ok [x].
Proof.
  intros Hst He. destruct (extension_decided _ _ _ _ Hst He) as (y & Hy & Heq).
  apply fmap_singleton in Hy as (z & Hz & ->). cbn in Heq. rewrite eqb_true in Heq. by subst z.
Qed.

Lemma compression_decided s e s' x :
  Step s e s' → evt_body e = Extended (CompressionFact x) →
  decide_compression s (compression_command x) = Ok [x].
Proof.
  intros Hst He. destruct (extension_decided _ _ _ _ Hst He) as (y & Hy & Heq).
  apply fmap_singleton in Hy as (z & Hz & ->). cbn in Heq. rewrite eqb_true in Heq. by subst z.
Qed.

Lemma project_decided s e s' x :
  Step s e s' → evt_body e = Extended (ProjectFact x) →
  decide_project s (project_command x) = Ok [x].
Proof.
  intros Hst He. destruct (extension_decided _ _ _ _ Hst He) as (y & Hy & Heq).
  apply fmap_singleton in Hy as (z & Hz & ->). cbn in Heq. rewrite eqb_true in Heq. by subst z.
Qed.

Lemma learning_decided s e s' x :
  Step s e s' → evt_body e = Extended (LearningFact x) →
  ∃ y, decide_learning s (learning_command x) = Ok [y] ∧ learning_event_eqb y x = true.
Proof.
  intros Hst He. destruct (extension_decided _ _ _ _ Hst He) as (y & Hy & Heq).
  apply fmap_singleton in Hy as (z & Hz & ->). cbn in Heq. eauto.
Qed.

(** ** The collections after a step *)

Lemma step_retention s e s' :
  Step s e s' → x_retention (st_extensions s')
                = retention_plus (x_retention (st_extensions s)) (x_retention (extension_facts (evt_body e))).
Proof. intros Hst. by rewrite (step_extensions _ _ _ Hst). Qed.

Lemma step_learning s e s' :
  Step s e s' → x_learning (st_extensions s')
                = learning_plus (x_learning (st_extensions s)) (x_learning (extension_facts (evt_body e))).
Proof. intros Hst. by rewrite (step_extensions _ _ _ Hst). Qed.

Lemma step_compression s e s' :
  Step s e s' → x_compression (st_extensions s')
    = compression_plus (x_compression (st_extensions s)) (x_compression (extension_facts (evt_body e))).
Proof. intros Hst. by rewrite (step_extensions _ _ _ Hst). Qed.

Lemma step_project s e s' :
  Step s e s' → x_project (st_extensions s')
                = project_plus (x_project (st_extensions s)) (x_project (extension_facts (evt_body e))).
Proof. intros Hst. by rewrite (step_extensions _ _ _ Hst). Qed.

Lemma step_context s e s' c : Step s e s' → st_context s = Some c → st_context s' = Some c.
Proof.
  intros Hst Hc. destruct (is_inquiry_started (evt_body e)) eqn:Hi.
  - rewrite (step_started_initial _ _ _ Hst Hi) in Hc. done.
  - destruct (step_identity _ _ _ Hst Hi) as (_ & _ & _ & _ & ->). done.
Qed.

(** ** Independent checks *)

(** An owned, valid check of the relation by an authorised checker. *)
Definition independently_checked (s : InquiryState) (r : CheckReference) (proposition scope : string) : Prop :=
  ∃ c e cv, st_context s = Some c ∧ e ∈ evidence_records s ∧ cv ∈ checker_verdicts s
    ∧ ev_id e = ref_evidence_id r ∧ cv_id cv = ref_checker_verdict_id r
    ∧ checked_evidence e cv proposition RELATION scope (ctx_discharge_mechanism_ids c).

Lemma resolved_checked s c r p f :
  st_context s = Some c →
  (resolve_check_reference r (dict_by ev_id (evidence_records s)) (dict_by cv_id (checker_verdicts s)) p RELATION f
     (ctx_discharge_mechanism_ids c)).1 = true →
  independently_checked s r p f.
Proof.
  intros Hc (e & cv & He & Hv & _ & Hce)%resolve_check_reference_true.
  apply dict_by_Some in He as [He Hei]. apply dict_by_Some in Hv as [Hv Hvi].
  exists c, e, cv. by split_and!.
Qed.

Lemma require_g2a_check_ok s r p f : require_g2a_check s r p f = Ok tt → independently_checked s r p f.
Proof.
  unfold require_g2a_check. destruct (st_context s) as [c|] eqn:Hc; [|done]. cbv zeta.
  rewrite reject_ok, negb_false_iff. by apply resolved_checked.
Qed.

Lemma require_independent_check_ok s r p f :
  require_independent_check s r p f = Ok tt → independently_checked s r p f.
Proof.
  unfold require_independent_check. destruct (st_context s) as [c|] eqn:Hc; [|done]. cbv zeta.
  unfold refuse. rewrite raise_if_tt, negb_false_iff. by apply resolved_checked.
Qed.

Lemma independently_checked_step s e s' r p f :
  Step s e s' → independently_checked s r p f → independently_checked s' r p f.
Proof.
  intros Hst (c & ev & cv & Hc & He & Hv & H). exists c, ev, cv.
  rewrite (step_evidence _ _ _ Hst), (step_verdicts _ _ _ Hst), !elem_of_app.
  split; [by eapply step_context|]. tauto.
Qed.
