(* ===== verification/Walkthrough.v ===== *)
(** * A concrete inquiry, continued

    The run of Scenario goes on over the extension ledgers: a carrier manifest, a
    compression contract, its checked validation, the warrant of its license and
    the license; then a representation gap, a learned probe under attack, its
    evaluation on observations, and its admission; last a retrieval.  The
    witnesses of the extension theorems are taken from it. *)

From S2P Require Import Prelude Digest Dumps Memory Retrieval Learning Compression Model Claims Warrant Support Policy Planning Backlog Effects Probes State Extensions Guards Retention Consolidation Licensing Decide Evolve Scenario Reachable.

Module Walkthrough.
Import Scenario.

(** Independent evidence on a relation, its valid verdict and their reference. *)
Definition relation_evidence (kind : PropositionKind) (id pid : string) : list CommandBody :=
  [RecordEvidence (MkEvidence ("ev-" +:+ id) INDEPENDENT_WITNESS pid kind fp (art id) false None);
   RecordCheckerVerdict
     (MkCheckerVerdictRecord ("cv-" +:+ id) ("ev-" +:+ id) (art id) pid kind fp "checker" "1" VALID
        (art "v") (Some (art ("cert-" +:+ id))))].

(** ** Compression *)

Definition carrier (id : string) (role : CarrierRole) : CarrierContract :=
  MkCarrierContract id role "schema" "rev".
Definition manifest : BindingCarrierManifest :=
  MkBindingCarrierManifest "man" "rev" (carrier "conf" CONFIGURATION) (carrier "hist" REALIZED_HISTORY) []
    "derive" "project" (art "man") ["prov"].
Definition contract : CompressionContract :=
  MkCompressionContract "con" "man" "hist" (carrier "kept" PRIOR_RETAINED_STATE) "rev" fp "horizon" []
    ["query"] "equality" [] [CONSEQUENCE_SUFFICIENT] "policy" ["prov"].
Definition contract_fp : string := Eval vm_compute in contract_fingerprint contract.

Definition property (kind : ValidationProperty) : ExactPropertyValidation :=
  match kind with
  | CONSEQUENCE_FACTORIZATION =>
    MkExactPropertyValidation kind PROPERTY_VALID (Some (property_proposition contract kind)) (Some (ref "fact")) None
  | RESIDUE_COMPLETENESS =>
    MkExactPropertyValidation kind PROPERTY_VALID (Some (property_proposition contract kind)) (Some (ref "resi")) None
  | _ => MkExactPropertyValidation kind NOT_CLAIMED None None None
  end.
Definition validation : CompressionValidation := Eval cbv in
  MkCompressionValidation "val" "con" contract_fp (map property all_validation_properties) "validator" "1" (art "val").
Definition license : ExactCompressionLicense :=
  MkExactCompressionLicense "lic" "con" "val" "wd-lic" "policy" ["capability"] None.

Definition compressing : list CommandBody :=
  [Extend (CompressionStep (RegisterBindingCarrierManifest manifest));
   Extend (CompressionStep (RegisterCompressionContract contract))]
  ++ relation_evidence RELATION "fact" (property_proposition contract CONSEQUENCE_FACTORIZATION)
  ++ relation_evidence RELATION "resi" (property_proposition contract RESIDUE_COMPLETENESS)
  ++ [Extend (CompressionStep (RecordCompressionValidation validation))]
  ++ relation_evidence EXISTENTIAL "lic" "compression-license:val"
  ++ [EvaluateWarrant (MkWarrantEvaluation "wd-lic" "ev-lic" "cv-lic" "compression-license:val" EXISTENTIAL scope);
      Extend (CompressionStep (GrantExactCompressionLicense license))].

Definition run5 := Eval vm_compute in run 34 compressing state4.
Definition log5 := Eval cbv in run5.1.
Definition state5 := Eval cbv in run5.2.

(** ** A learned probe *)

(** The attack on the conflict of the two claims is still open. *)
Definition open_attack : string := Eval vm_compute in
  match last (obligations state5) with Some o => obl_id o | None => "" end.
Definition attacked : string := Eval vm_compute in
  match last (obligations state5) with Some o => obl_carrier_id o | None => "" end.

Definition gap : RepresentationGap := Eval vm_compute in
  MkRepresentationGap "gap" open_attack ["c2"] "difference" [probe_fingerprint probe] PROBE_BASIS_INADEQUATE
    fp "rev" "horizon".
Definition learned_probe : ProbeIdentity :=
  MkProbeIdentity "learned-recurrent-probe@1.0.0" "role" "schema" "rev" fp "cmp" "guard" "horizon".
Definition learned : LearnedProbeCandidate :=
  MkLearnedProbeCandidate "lpc" "gap" learned_probe (JString "learned") [open_attack].

(** Two consequence classes the existing basis confuses and the candidate separates. *)
Definition samples : list ProbeSample :=
  [MkProbeSample "o1" "hit" "same" "yes"; MkProbeSample "o2" "hit" "same" "yes";
   MkProbeSample "o3" "miss" "same" "no"; MkProbeSample "o4" "miss" "same" "no"].
Definition evaluation : ProbeEvaluation := Eval vm_compute in
  match build_probe_evaluation "pev" "lpc" samples (ref "redu") (ref "prot") with
  | Ok e => e
  | Raise _ => MkProbeEvaluation "" "" "" [] [] [] 0 0 0 (ref "") (ref "") ""
  end.
Definition admission : ProbeAdmissionDecision := MkProbeAdmissionDecision "pad" "lpc" "pev" PROBE_ADMIT "controller".

Definition learning : list CommandBody :=
  [RecordProbeObservation (observation "o3" 3);
   RecordProbeObservation (observation "o4" 4);
   Extend (LearningStep (RecordRepresentationGap gap));
   Extend (LearningStep (RecordLearnedProbeCandidate learned))]
  ++ relation_evidence EXISTENTIAL "met" attacked
  ++ [EvaluateWarrant (MkWarrantEvaluation "wd-met" "ev-met" "cv-met" attacked EXISTENTIAL scope);
      RecordObligationDisposition (MkObligationDisposition "d2" open_attack SATISFIED "met" ["wd-met"] None)]
  ++ relation_evidence RELATION "redu" (pev_evaluation_proposition_id evaluation)
  ++ relation_evidence RELATION "prot" (pev_evaluation_proposition_id evaluation)
  ++ [Extend (LearningStep (RecordProbeEvaluation evaluation));
      Extend (LearningStep (RecordProbeAdmissionDecision admission))].

Definition run6 := Eval vm_compute in run 45 learning state5.
Definition log6 := Eval cbv in run6.1.
Definition state6 := Eval cbv in run6.2.

(** ** A retrieval *)

(** A query that pins the sequence and the structural index of the state. *)
Definition query (id : string) (s : InquiryState) : RetrievalQuery :=
  MkRetrievalQuery id "structural-exact-v1" "1" fp "rev" "horizon" (st_sequence s)
    match f ← owned_memory_fingerprints s; structural_index_fingerprint (retention_packages s) f with
    | Ok i => i
    | Raise _ => ""
    end [] [] [] ["cue"] [] 10.
Definition query1 : RetrievalQuery := Eval vm_compute in query "q1" state6.

Definition run7 := Eval vm_compute in run 59 [Extend (RetentionStep (RunRetrieval "res1" query1))] state6.
Definition log7 := Eval cbv in run7.1.
Definition state7 := Eval cbv in run7.2.
End Walkthrough.

Lemma walkthrough_replay5 : replay Walkthrough.log5 Scenario.state4 = Ok Walkthrough.state5.
Proof. vm_compute. reflexivity. Qed.
Lemma walkthrough_replay6 : replay Walkthrough.log6 Walkthrough.state5 = Ok Walkthrough.state6.
Proof. vm_compute. reflexivity. Qed.
Lemma walkthrough_replay7 : replay Walkthrough.log7 Walkthrough.state6 = Ok Walkthrough.state7.
Proof. vm_compute. reflexivity. Qed.

Lemma reachable_replay s es s' : Reachable s → replay es s = Ok s' → Reachable s'.
Proof. intros [es' Hr] He. exists (es' ++ es). rewrite replay_app, Hr. apply He. Qed.

Lemma walkthrough_reachable : Reachable Walkthrough.state7.
Proof.
  apply (reachable_replay _ _ _ (reachable_replay _ _ _ (reachable_replay _ _ _ scenario_reachable
    walkthrough_replay5) walkthrough_replay6) walkthrough_replay7).
Qed.
