(* ===== verification/Guarantees.v ===== *)
(** * What the extension ledgers guarantee on every reachable inquiry

    Exact compression licenses, admitted learned probes and retrievals: the
    invariants that hold of every state an accepted log leads to. *)

From S2P Require Import Prelude Digest Memory Retrieval Recovery Learning Compression Project Model Claims Warrant Support Policy Planning Backlog Effects Probes State Goals Extensions Lifecycle Guards Retention Consolidation Licensing Governance Decide Evolve Scenario Ledger Reachable History Extended Walkthrough.

(** ** Exact compression licenses *)

(** Every disposed property was checked for exactly its proposition on the contract. *)
Record validated (s : InquiryState) (c : CompressionContract) (v : CompressionValidation) : Prop := {
  vd_contract : c ∈ compression_contracts s ∧ cct_id c = cvl_contract_id v;
  vd_fingerprint : cvl_contract_fingerprint v = contract_fingerprint c;
  vd_required : ∀ kind, kind ∈ required_properties c →
    ∃ p, p ∈ cvl_properties v ∧ epv_property p = kind ∧ epv_outcome p ≠ NOT_CLAIMED;
  vd_checked : ∀ p, p ∈ cvl_properties v → epv_outcome p ≠ NOT_CLAIMED →
    ∃ r, epv_check p = Some r
         ∧ independently_checked s r (property_proposition c (epv_property p)) (cct_scope_fingerprint c);
}.

Record licensed (s : InquiryState) (l : ExactCompressionLicense) (c : CompressionContract)
    (v : CompressionValidation) (d : WarrantDecisionRecord) : Prop := {
  lc_contract : c ∈ compression_contracts s ∧ cct_id c = ecl_contract_id l;
  lc_validation : v ∈ compression_validations s ∧ cvl_id v = ecl_validation_id l
                  ∧ cvl_contract_id v = cct_id c;
  lc_valid : validation_valid v = true;
  lc_decision : d ∈ warrant_decisions s ∧ wd_id d = ecl_warrant_decision_id l;
  lc_hard : wd_warrant_class d = HARD;
  lc_proposition : wd_proposition_id d = "compression-license:" +:+ cvl_id v;
  lc_scope : wd_scope_fingerprint d = cct_scope_fingerprint c;
  lc_policy : wd_policy_version d = ecl_policy_version l;
}.

Section compression_steps.
Context (s : InquiryState) (e : DomainEvent) (s' : InquiryState) (Hstep : Step s e s').

Lemma step_contracts c : c ∈ compression_contracts s → c ∈ compression_contracts s'.
Proof.
  intros H. unfold compression_contracts. rewrite (step_compression _ _ _ Hstep). apply elem_of_app. by left.
Qed.

Lemma step_validations v : v ∈ compression_validations s → v ∈ compression_validations s'.
Proof.
  intros H. unfold compression_validations. rewrite (step_compression _ _ _ Hstep). apply elem_of_app. by left.
Qed.

Lemma new_validation v :
  v ∈ compression_validations s' →
  v ∈ compression_validations s ∨ evt_body e = Extended (CompressionFact (CompressionValidationRecorded v)).
Proof.
  unfold compression_validations. rewrite (step_compression _ _ _ Hstep). intros [H|H]%elem_of_app; [by left|right].
  destruct (evt_body e) as [| | | | | | | | | | | | | | | | | | | | | | | | | | | | | | |[| |x|]];
    try by apply not_elem_of_nil in H.
  destruct x; try by apply not_elem_of_nil in H. by apply list_elem_of_singleton in H as ->.
Qed.

Lemma new_license l :
  l ∈ exact_compression_licenses s' →
  l ∈ exact_compression_licenses s ∨ evt_body e = Extended (CompressionFact (ExactCompressionLicenseGranted l)).
Proof.
  unfold exact_compression_licenses. rewrite (step_compression _ _ _ Hstep). intros [H|H]%elem_of_app; [by left|right].
  destruct (evt_body e) as [| | | | | | | | | | | | | | | | | | | | | | | | | | | | | | |[| |x|]];
    try by apply not_elem_of_nil in H.
  destruct x; try by apply not_elem_of_nil in H. by apply list_elem_of_singleton in H as ->.
Qed.

Lemma validated_step c v : validated s c v → validated s' c v.
Proof.
  intros [[H1 H1'] H2 H3 H4]. split; [by split; [apply step_contracts|]|done..|].
  intros p Hp Ho. destruct (H4 p Hp Ho) as (r & Hr & Hc). exists r.
  split; [done|by eapply independently_checked_step].
Qed.

Lemma licensed_step l c v d : licensed s l c v d → licensed s' l c v d.
Proof.
  intros [[H1 H1'] (H2 & H2' & H2'') H3 [H4 H4'] H5 H6 H7 H8]. split; try done.
  - by split; [apply step_contracts|].
  - by split; [apply step_validations|].
  - split; [|done]. rewrite (step_decisions _ _ _ Hstep), elem_of_app. by left.
Qed.
End compression_steps.

Lemma check_required_ok v kind :
  check_required v kind = Ok tt → ∃ p, p ∈ cvl_properties v ∧ epv_property p = kind ∧ epv_outcome p ≠ NOT_CLAIMED.
Proof.
  unfold check_required. destruct (last _) as [p|] eqn:Hl; [|done].
  rewrite reject_ok, eqb_false. intros Ho. apply last_Some_elem_of, elem_of_lfilter in Hl as [Hp Hk].
  rewrite eqb_true in Hk. eauto.
Qed.

Lemma check_property_ok s c p :
  check_property s c p = Ok tt → epv_outcome p ≠ NOT_CLAIMED →
  ∃ r, epv_check p = Some r
       ∧ independently_checked s r (property_proposition c (epv_property p)) (cct_scope_fingerprint c).
Proof.
  unfold check_property. intros H Ho. rewrite bool_decide_false in H by done.
  rewrite or_raise_bind in H. destruct H as (r & Hr & H). rewrite or_raise_bind in H. destruct H as (q & Hq & H).
  rewrite reject_bind, neqb_false in H. destruct H as [-> H%require_g2a_check_ok]. eauto.
Qed.

Lemma decide_validation_ok s v x :
  decide_compression_validation s v = Ok [x] → ∃ c, validated s c v.
Proof.
  intros [_ H]%unless_owned_inv. rewrite or_raise_bind in H. destruct H as (c & Hc & H).
  rewrite reject_bind, neqb_false, !seq_ok, !for_each_ok in H. destruct H as (Hf & Hr & Hp & _).
  apply first_key in Hc. exists c. split; [done|done| |].
  - intros kind Hk. by apply check_required_ok, Hr.
  - intros p Hin Ho. apply check_property_ok; [by apply Hp|done].
Qed.

Lemma hard_warrant_true d p f :
  hard_warrant d p f = true →
  ∃ w, d = Some w ∧ wd_warrant_class w = HARD ∧ wd_proposition_id w = p ∧ wd_scope_fingerprint w = f.
Proof.
  unfold hard_warrant. destruct d as [w|]; [|done]. rewrite !andb_true_iff, !eqb_true.
  intros [[? ?] ?]. eauto.
Qed.

Lemma decide_license_ok s l x :
  decide_exact_license s l = Ok [x] → ∃ c v d, licensed s l c v d.
Proof.
  intros [_ H]%unless_owned_inv. destruct (contract_by_id s _) as [c|] eqn:Hc; [|done].
  destruct (first _ (compression_validations s)) as [v|] eqn:Hv; [|done]. cbv zeta in H.
  rewrite !reject_bind, neqb_false, !negb_false_iff, orb_false_iff, negb_false_iff, neqb_false in H.
  destruct H as (Hcv & Hval & _ & [Hw Hp] & _). apply hard_warrant_true in Hw as (d & Hd & Hh & Hpr & Hs).
  rewrite Hd in Hp. injection Hp as Hp. apply first_key in Hc, Hv, Hd. exists c, v, d. split; tauto.
Qed.

Lemma validations_validated s :
  Reachable s → ∀ v, v ∈ compression_validations s → ∃ c, validated s c v.
Proof.
  apply (reachable_ind (λ s, ∀ v, v ∈ compression_validations s → ∃ c, validated s c v)).
  - by intros v ?%not_elem_of_nil.
  - clear s. intros s e s' _ IH Hst v Hv. destruct (new_validation _ _ _ Hst v Hv) as [H|He].
    + destruct (IH v H) as [c Hc]. exists c. by eapply validated_step.
    + pose proof (compression_decided _ _ _ _ Hst He) as Hd. apply decide_validation_ok in Hd as [c Hc].
      exists c. by eapply validated_step.
Qed.

Lemma licenses_licensed s :
  Reachable s → ∀ l, l ∈ exact_compression_licenses s → ∃ c v d, licensed s l c v d.
Proof.
  apply (reachable_ind (λ s, ∀ l, l ∈ exact_compression_licenses s → ∃ c v d, licensed s l c v d)).
  - by intros v ?%not_elem_of_nil.
  - clear s. intros s e s' _ IH Hst l Hl. destruct (new_license _ _ _ Hst l Hl) as [H|He].
    + destruct (IH l H) as (c & v & d & Hc). exists c, v, d. by eapply licensed_step.
    + pose proof (compression_decided _ _ _ _ Hst He) as Hd. apply decide_license_ok in Hd as (c & v & d & Hc).
      exists c, v, d. by eapply licensed_step.
Qed.

Lemma valid_compression_ids s l :
  validate_lifecycle s = Ok tt → l ∈ compression_identities s → NoDup l.
Proof.
  rewrite validate_lifecycle_ok. intros H. destruct_and!. unfold check_extensions in *.
  match goal with H : context [check_compression] |- _ => rewrite !seq_ok in H; destruct H as (_ & _ & _ & Hc & _) end.
  unfold check_compression, refuse in Hc. cbv zeta in Hc. rewrite raise_if_bind, negb_false_iff, all_true in Hc.
  destruct Hc as [Hc _]. intros Hl. specialize (Hc l Hl). by apply bool_decide_eq_true in Hc.
Qed.

(** C19: An exact compression license is never granted on trust.  In every
    reachable inquiry each license rests on an owned contract, a validation of
    exactly that contract (its fingerprint, no invalid property, every property
    its claims require disposed), an owned VALID check by an authorised checker
    of every disposed property, and a HARD warrant for this very license on owned,
    independently checked evidence. *)
Theorem exact_licenses_earned s :
  Reachable s → ∀ l, l ∈ exact_compression_licenses s →
  ∃ c v d, licensed s l c v d ∧ validated s c v ∧ hard_evidence s d
    ∧ ∀ kind, kind ∈ required_properties c →
      ∃ p r, p ∈ cvl_properties v ∧ epv_property p = kind ∧ epv_outcome p = PROPERTY_VALID ∧ epv_check p = Some r
             ∧ independently_checked s r (property_proposition c kind) (cct_scope_fingerprint c).
Proof.
  intros Hr l Hl. destruct (licenses_licensed s Hr l Hl) as (c & v & d & Hlc).
  destruct (validations_validated s Hr v) as [c' Hv]; [apply Hlc|].
  assert (c' = c) as ->.
  { pose proof (reachable_valid s Hr) as Hval. eapply (NoDup_map_inj cct_id).
    - apply (valid_compression_ids s); [done|]. right. right. left.
    - apply Hv.
    - apply Hlc.
    - destruct (vd_contract _ _ _ Hv) as [_ ->]. by destruct (lc_validation _ _ _ _ _ Hlc) as (_ & _ & ->). }
  exists c, v, d. split_and!; [done|done| |].
  - apply decision_hard_evidence; [apply decisions_grounded; [done|]|]; apply Hlc.
  - intros kind Hk. destruct (vd_required _ _ _ Hv kind Hk) as (p & Hp & <- & Ho).
    destruct (vd_checked _ _ _ Hv p Hp Ho) as (r & Hpr & Hc). exists p, r. split_and!; try done.
    pose proof (lc_valid _ _ _ _ _ Hlc) as Hvalid. unfold validation_valid in Hvalid.
    rewrite all_true in Hvalid. specialize (Hvalid p Hp). rewrite neqb_true in Hvalid.
    by destruct (epv_outcome p).
Qed.

Lemma exact_licenses_earned_witness :
  ∃ l, l ∈ exact_compression_licenses Walkthrough.state7 ∧
  ∃ c v d, licensed Walkthrough.state7 l c v d ∧ validated Walkthrough.state7 c v ∧ hard_evidence Walkthrough.state7 d.
Proof.
  exists Walkthrough.license. split; [left|].
  destruct (exact_licenses_earned Walkthrough.state7 walkthrough_reachable Walkthrough.license)
    as (c & v & d & ? & ? & ? & _); [left|]. by exists c, v, d.
Defined.

(** ** Learned probes *)

Lemma obligations_open s : Reachable s → ∀ o, o ∈ obligations s → obl_status o = OPEN.
Proof.
  apply (reachable_ind (λ s, ∀ o, o ∈ obligations s → obl_status o = OPEN)).
  - by intros o ?%not_elem_of_nil.
  - clear s. intros s e s' _ IH Hst o. rewrite (step_obligations _ _ _ Hst), elem_of_app.
    intros [Ho|Ho]; [by apply IH|by eapply new_obligations_open].
Qed.

(** The attack was met: a recorded disposition satisfied the obligation. *)
Definition attack_met (s : InquiryState) (id : string) : Prop :=
  ∃ d, d ∈ obligation_dispositions s ∧ disp_obligation_id d = id ∧ disp_status d = SATISFIED.

Lemma satisfied_met s id : Reachable s → current_obligation_status s id = Some SATISFIED → attack_met s id.
Proof.
  intros Hr H. unfold current_obligation_status in H. destruct (obligation_by_id s id) as [o|] eqn:Ho; [|done].
  cbn in H. apply first_key in Ho as [Ho _]. destruct (last (disposition_history s id)) as [d|] eqn:Hd.
  - apply last_Some_elem_of, elem_of_lfilter in Hd as [Hd Hid]. rewrite eqb_true in Hid. injection H as H.
    by exists d.
  - rewrite (obligations_open s Hr o Ho) in H. done.
Qed.

Record evaluated (s : InquiryState) (c : LearnedProbeCandidate) (e : ProbeEvaluation) : Prop := {
  el_candidate : c ∈ learned_probe_candidates s ∧ lpc_id c = pev_candidate_probe_id e;
  el_built : build_probe_evaluation (pev_id e) (pev_candidate_probe_id e) (pev_samples e)
               (pev_redundancy_check e) (pev_protected_behavior_check e) = Ok e;
  el_observed : pev_training_observation_ids e ++ pev_holdout_observation_ids e ⊆ map pe_id (probe_observations s);
  el_checked : ∀ r, r ∈ [pev_redundancy_check e; pev_protected_behavior_check e] →
    independently_checked s r (pev_evaluation_proposition_id e) (pi_scope_fingerprint (lpc_probe_identity c));
}.

Record admitted (s : InquiryState) (d : ProbeAdmissionDecision) (c : LearnedProbeCandidate)
    (e : ProbeEvaluation) : Prop := {
  am_candidate : c ∈ learned_probe_candidates s ∧ lpc_id c = pad_candidate_probe_id d;
  am_evaluation : e ∈ probe_evaluations s ∧ pev_id e = pad_evaluation_id d ∧ pev_candidate_probe_id e = lpc_id c;
  am_gains : (0 < pev_training_discrimination_gain e)%Z ∧ (0 < pev_holdout_discrimination_gain e)%Z;
  am_errors : pev_protected_error_count e = 0%Z;
  am_attacks : ∀ id, id ∈ lpc_challenge_obligation_ids c → attack_met s id;
  am_probe : lpc_probe_identity c ∈ admitted_probes s;
}.

Section learning_steps.
Context (s : InquiryState) (e : DomainEvent) (s' : InquiryState) (Hstep : Step s e s').

Lemma step_probe_candidates c : c ∈ learned_probe_candidates s → c ∈ learned_probe_candidates s'.
Proof.
  intros H. unfold learned_probe_candidates. rewrite (step_learning _ _ _ Hstep). apply elem_of_app. by left.
Qed.

Lemma step_evaluations x : x ∈ probe_evaluations s → x ∈ probe_evaluations s'.
Proof.
  intros H. unfold probe_evaluations. rewrite (step_learning _ _ _ Hstep). apply elem_of_app. by left.
Qed.

Lemma step_probes p : p ∈ admitted_probes s → p ∈ admitted_probes s'.
Proof.
  intros H. unfold admitted_probes. rewrite (step_cognition _ _ _ Hstep). apply elem_of_app. by left.
Qed.

Lemma new_evaluation x :
  x ∈ probe_evaluations s' →
  x ∈ probe_evaluations s ∨ evt_body e = Extended (LearningFact (ProbeEvaluationRecorded x)).
Proof.
  unfold probe_evaluations. rewrite (step_learning _ _ _ Hstep). intros [H|H]%elem_of_app; [by left|right].
  destruct (evt_body e) as [| | | | | | | | | | | | | | | | | | | | | | | | | | | | | | |[|y| |]];
    try by apply not_elem_of_nil in H.
  destruct y; try by apply not_elem_of_nil in H. by apply list_elem_of_singleton in H as ->.
Qed.

Lemma new_admission x :
  x ∈ probe_admission_decisions s' →
  x ∈ probe_admission_decisions s ∨ evt_body e = Extended (LearningFact (ProbeAdmissionDecisionRecorded x)).
Proof.
  unfold probe_admission_decisions. rewrite (step_learning _ _ _ Hstep). intros [H|H]%elem_of_app; [by left|right].
  destruct (evt_body e) as [| | | | | | | | | | | | | | | | | | | | | | | | | | | | | | |[|y| |]];
    try by apply not_elem_of_nil in H.
  destruct y; try by apply not_elem_of_nil in H. by apply list_elem_of_singleton in H as ->.
Qed.

Lemma evaluated_step c x : evaluated s c x → evaluated s' c x.
Proof.
  intros [[H1 H1'] H2 H3 H4]. split; [by split; [apply step_probe_candidates|]|done| |].
  - rewrite (step_observations _ _ _ Hstep), map_app. set_solver.
  - intros r Hr. by eapply independently_checked_step, H4.
Qed.

Lemma admitted_step d c x : admitted s d c x → admitted s' d c x.
Proof.
  intros [[H1 H1'] (H2 & H2' & H2'') H3 H4 H5 H6]. split; try done.
  - by split; [apply step_probe_candidates|].
  - by split; [apply step_evaluations|].
  - intros id Hid. destruct (H5 id Hid) as (k & Hk & ?). exists k.
    rewrite (step_dispositions _ _ _ Hstep), elem_of_app. split; [by left|done].
  - by apply step_probes.
Qed.
End learning_steps.

Lemma decide_evaluation_ok s x y :
  decide_probe_evaluation s x = Ok [y] → ∃ c, evaluated s c x.
Proof.
  intros [_ H]%unless_owned_inv. rewrite or_raise_bind in H. destruct H as (c & Hc & H).
  apply first_key in Hc. apply bind_ok in H as (expected & Hb & H).
  rewrite !reject_bind, neqb_false, negb_false_iff, subset_true, seq_ok, for_each_ok in H.
  destruct H as (-> & Ho & Hk & _). exists c. split; [done..|]. intros r Hr. by apply require_g2a_check_ok, Hk.
Qed.

Lemma decide_admission_ok s e s' d y :
  Reachable s → Step s e s' → evt_body e = Extended (LearningFact (ProbeAdmissionDecisionRecorded d)) →
  decide_probe_admission s d = Ok [y] → pad_outcome d = PROBE_ADMIT → ∃ c x, admitted s' d c x.
Proof.
  intros Hr Hst He [_ H]%unless_owned_inv Ho. unfold probe_candidate_by_id in H.
  destruct (first _ (learned_probe_candidates s)) as [c|] eqn:Hc; [|done].
  destruct (first _ (probe_evaluations s)) as [x|] eqn:Hx; [|done].
  rewrite !reject_bind, neqb_false in H. destruct H as (Hcx & Hq & _).
  apply eqb_true in Ho. rewrite Ho, andb_true_l, negb_false_iff in Hq. unfold probe_qualifies in Hq.
  rewrite !andb_true_iff, !Z.ltb_lt, Z.eqb_eq in Hq. destruct Hq as [[[Ha Ht] Hh] Herr].
  unfold all_satisfied in Ha. rewrite all_true in Ha.
  pose proof (first_key _ _ _ _ Hc) as Hc'. apply first_key in Hx. exists c, x. split; try done.
  - split; [|by apply Hc']. by apply (step_probe_candidates _ _ _ Hst), Hc'.
  - split; [|split; [by apply Hx|done]]. by apply (step_evaluations _ _ _ Hst), Hx.
  - intros id Hid. specialize (Ha id Hid). rewrite eqb_true in Ha.
    destruct (satisfied_met s id Hr Ha) as (k & Hk & ?). exists k.
    rewrite (step_dispositions _ _ _ Hst), elem_of_app. split; [by left|done].
  - unfold admitted_probes. rewrite (step_cognition _ _ _ Hst), He. apply elem_of_app. right. cbn.
    unfold probe_candidate_by_id. rewrite Ho, Hc. left.
Qed.

Lemma evaluations_evaluated s :
  Reachable s → ∀ x, x ∈ probe_evaluations s → ∃ c, evaluated s c x.
Proof.
  apply (reachable_ind (λ s, ∀ x, x ∈ probe_evaluations s → ∃ c, evaluated s c x)).
  - by intros v ?%not_elem_of_nil.
  - clear s. intros s e s' _ IH Hst x Hx. destruct (new_evaluation _ _ _ Hst x Hx) as [H|He].
    + destruct (IH x H) as [c Hc]. exists c. by eapply evaluated_step.
    + destruct (learning_decided _ _ _ _ Hst He) as (y & Hy & _). apply decide_evaluation_ok in Hy as [c Hc].
      exists c. by eapply evaluated_step.
Qed.

Lemma admissions_admitted s :
  Reachable s → ∀ d, d ∈ probe_admission_decisions s → pad_outcome d = PROBE_ADMIT → ∃ c x, admitted s d c x.
Proof.
  apply (reachable_ind (λ s, ∀ d, d ∈ probe_admission_decisions s → pad_outcome d = PROBE_ADMIT →
    ∃ c x, admitted s d c x)).
  - by intros v ?%not_elem_of_nil.
  - clear s. intros s e s' Hr IH Hst d Hd Ho. destruct (new_admission _ _ _ Hst d Hd) as [H|He].
    + destruct (IH d H Ho) as (c & x & Hc). exists c, x. by eapply admitted_step.
    + destruct (learning_decided _ _ _ _ Hst He) as (y & Hy & _).
      by apply (decide_admission_ok s e s' d y).
Qed.

(** C20: A learned probe is admitted only on its merits.  In every reachable
    inquiry each ADMIT decision names an owned candidate and an evaluation that
    is exactly the deterministic split of its samples over owned observations,
    gains discrimination on training and on holdout and makes no protected
    error; both its checks are owned, VALID and by authorised checkers for this
    very evaluation; every attack of the candidate was satisfied; and its probe
    is among the admitted ones. *)
Theorem learned_probes_earned s :
  Reachable s → ∀ d, d ∈ probe_admission_decisions s → pad_outcome d = PROBE_ADMIT →
  ∃ c x, admitted s d c x ∧ evaluated s c x.
Proof.
  intros Hr d Hd Ho. destruct (admissions_admitted s Hr d Hd Ho) as (c & x & Ha).
  destruct (evaluations_evaluated s Hr x) as [c' Hx]; [apply Ha|].
  assert (c' = c) as ->; [|by exists c, x].
  pose proof (valid_identities s (reachable_valid s Hr) (map lpc_id (learned_probe_candidates s))) as Hn.
  eapply (NoDup_map_inj lpc_id).
  - apply Hn. unfold identified_collections. rewrite !elem_of_cons. tauto.
  - apply Hx.
  - apply Ha.
  - destruct (el_candidate _ _ _ Hx) as [_ ->]. by destruct (am_evaluation _ _ _ _ Ha) as (_ & _ & ->).
Qed.

Lemma learned_probes_earned_witness :
  ∃ d, d ∈ probe_admission_decisions Walkthrough.state7 ∧ pad_outcome d = PROBE_ADMIT ∧
  ∃ c x, admitted Walkthrough.state7 d c x ∧ evaluated Walkthrough.state7 c x.
Proof.
  exists Walkthrough.admission. split; [left|]. split; [reflexivity|].
  apply (learned_probes_earned Walkthrough.state7 walkthrough_reachable Walkthrough.admission); [left|reflexivity].
Defined.

(** ** Retrieval *)

Definition single_policy (s : InquiryState) : Prop :=
  length (retrieval_policies s) = length (retrieval_results s)
  ∧ ∀ p, p ∈ retrieval_policies s → p = STRUCTURAL_EXACT_V1.

Lemma resolve_policy_ok i v p : resolve_structural_retrieval_policy i v = Ok p → p = STRUCTURAL_EXACT_V1.
Proof. unfold resolve_structural_retrieval_policy. destruct (_ && _); [by intros [= <-]|done]. Qed.

Lemma decide_retrieval_ok s id q p q' r :
  decide_run_retrieval s id q = Ok [RetrievalCompleted p q' r] → p = STRUCTURAL_EXACT_V1.
Proof.
  unfold decide_run_retrieval. destruct (first _ (retrieval_results s)); destruct (first _ (retrieval_queries s)); try done.
  - by destruct (_ && _).
  - rewrite reject_bind. intros [_ (fp & _ & H)%bind_ok]. apply bind_ok in H as (ix & _ & H).
    rewrite reject_bind in H. destruct H as [_ H].
    destruct (resolve_structural_retrieval_policy _ _) as [p'|x] eqn:Hp; cbn in H; [|by destruct (retrieval_error _)].
    apply resolve_policy_ok in Hp. destruct (retrieve _ _ _ _ _) as [r'|x]; cbn in H; [|by destruct (retrieval_error _)].
    by injection H as <- _ _.
Qed.

Lemma single_policy_step s e s' : Step s e s' → single_policy s → single_policy s'.
Proof.
  intros Hst [Hl Hp]. unfold single_policy, retrieval_policies, retrieval_results in *.
  rewrite (step_retention _ _ _ Hst). cbn [l_retrieval_policies l_retrieval_results retention_plus].
  rewrite !length_app, Hl. setoid_rewrite elem_of_app.
  destruct (evt_body e) as [| | | | | | | | | | | | | | | | | | | | | | | | | | | | | | |[x| | |]] eqn:He;
    try (split; [done|]; intros p [H|H%not_elem_of_nil]; [by apply Hp|done]).
  destruct x as [|p q r| | | |]; try (split; [done|]; intros p' [H|H%not_elem_of_nil]; [by apply Hp|done]).
  split; [done|]. intros p' [H|H]; [by apply Hp|]. apply list_elem_of_singleton in H as ->.
  pose proof (retention_decided _ _ _ _ Hst He) as Hd. by apply decide_retrieval_ok in Hd.
Qed.

Lemma single_policy_reachable s : Reachable s → single_policy s.
Proof.
  apply (reachable_ind single_policy).
  - split; [done|]. by intros p ?%not_elem_of_nil.
  - clear s. intros s e s' _ IH Hst. by eapply single_policy_step.
Qed.

Lemma reachable_evolve s e s' : Reachable s → evolve s e = Ok s' → Reachable s' ∧ Step s e s'.
Proof.
  intros [es Hr] He. split.
  - exists (es ++ [e]). rewrite replay_snoc. eauto.
  - apply evolve_step; [|done]. apply reachable_valid. by exists es.
Qed.

Lemma equal_members_short {A} (a : A) l : (∀ x, x ∈ l → x = a) → NoDup l → (length l ≤ 1)%nat.
Proof.
  destruct l as [|x [|y l]]; cbn; [lia..|]. intros H Hn%NoDup_cons. destruct Hn as [Hn _]. exfalso. apply Hn.
  rewrite (H x), (H y); set_solver.
Qed.

Lemma one_retrieval s : Reachable s → (length (retrieval_results s) ≤ 1)%nat.
Proof.
  intros Hr. destruct (single_policy_reachable s Hr) as [<- Hp].
  rewrite <- (length_map policy_key_text). apply (equal_members_short (policy_key_text STRUCTURAL_EXACT_V1)).
  - intros x (p & Hin & ->)%elem_of_map. by rewrite (Hp p Hin).
  - apply (valid_identities s (reachable_valid s Hr)). unfold identified_collections. rewrite !elem_of_cons. tauto.
Qed.

(** The event answers a retrieval command. *)
Definition completes_retrieval (e : DomainEvent) : Prop :=
  ∃ p q r, evt_body e = Extended (RetentionFact (RetrievalCompleted p q r)).

(** C21: The structural policy can be used once.  Every accepted retrieval records
    its policy anew, the aggregate wants recorded policies to differ, and only
    one structural policy exists: a reachable inquiry holds at most one retrieval
    result, and once it holds one no event that completes another is accepted. *)
Theorem at_most_one_retrieval s :
  Reachable s →
  (length (retrieval_results s) ≤ 1)%nat ∧
  (retrieval_results s ≠ [] → ∀ e, completes_retrieval e → ¬ ∃ s', evolve s e = Ok s').
Proof.
  intros Hr. split; [by apply one_retrieval|]. intros Hn e (p & q & r & He) [s' Hs].
  pose proof (reachable_evolve s e s' Hr Hs) as [Hr' Hst]. pose proof (one_retrieval s' Hr') as H. revert H.
  unfold retrieval_results in *. rewrite (step_retention _ _ _ Hst), He. cbn.
  rewrite length_app. cbn. destruct (l_retrieval_results _); [done|cbn; lia].
Qed.

Lemma at_most_one_retrieval_witness :
  length (retrieval_results Walkthrough.state7) = 1%nat
  ∧ (∃ e, Ok [e] = decide_run_retrieval Walkthrough.state7 "res2" (Walkthrough.query "q2" Walkthrough.state7))
  ∧ ¬ ∃ s', evolve Walkthrough.state7
        (MkEvent (MkMeta "e60" "inq" 60)
           (Extended (RetentionFact (RetrievalCompleted STRUCTURAL_EXACT_V1 Walkthrough.query1
                                       (MkRetrievalResult "res2" "q2" "structural-exact-v1" "1" 60 "index" [] []))))) = Ok s'.
Proof.
  split; [reflexivity|]. split; [eexists; vm_compute; reflexivity|].
  eapply (at_most_one_retrieval Walkthrough.state7 walkthrough_reachable); [discriminate|by do 3 eexists].
Defined.
